(* ===== verification/_CoqProject ===== *)
-Q . S2P
Prelude.v
GoLib.v
Schema.v
EventLoop.v
SecSchema.v
Reps.v
IncChanges.v
Coap.v
Credential.v
BridgeResource.v
BridgeResourceProps.v
BridgeNet.v
BridgeNetProps.v
Verify.v
CloudState.v
CoreDevice.v
Ownership.v
OwnershipProps.v
CertGen.v
CloudManager.v
BridgeDevice.v
BridgeReps.v
BridgeOptions.v
ThingDesc.v
TdManager.v
CloudProps.v
CloudOutcomes.v
CloudSpec.v
CloudServe.v
Service.v
ObserveDevices.v
ClientObs.v
ClientCoap.v
CoreObs.v
Discovery.v
Details.v
DeviceCache.v
ClientDevices.v
ClientCommands.v
ClientCommandsProps.v
ClientOwnProps.v
CloudExamples.v
CertGenProps.v
Options.v
ClientApi.v
ClientConfig.v
Presence.v
Logging.v
Dialing.v
DialingProps.v
DialingExamples.v
ClientDetails.v
ClientTool.v
ClientMenu.v
BridgeTool.v
BridgeToolProps.v
ClientApiProps.v
ClientToolProps.v
ClientMenuProps.v
ClientDetailsProps.v
ClientExamples.v
ApiExamples.v
DetailsExamples.v
ToolExamples.v
BridgeToolExamples.v
