(* ===== verification/Prelude.v ===== *)
(** * plgd-dev/device: a verification development

    The repository holds two programs that share their schemas.  The bridge
    ([src/bridge]) presents devices of another ecosystem as OCF devices, on the local
    network and in the plgd cloud.  The client ([src/client/core] and the SDK
    [src/client] on top of it) finds OCF devices, takes their ownership, reads, changes
    and observes their resources.  Each comes with a tool ([src/cmd]).  This library
    translates their logic to Rocq, file by file, and proves what makes it correct.

    ** How the code is translated

    - A Go [error] is [error] of this file, a fallible function returns [result], and
      stateful code is the monad [ME] over a record of the state ([catch] is an error
      that the caller handles, [each] a loop over a list).  [triple], [keeps] and the
      hint databases of the same names are its program logic.
    - Where goroutines interleave, a component is a machine: [exec] is one atomic action
      of one goroutine, [step] its relation, and theorems hold for all [runs].  [execs]
      runs a list of actions on a concrete input.
    - What is outside the repository (go-coap, CBOR, X.509, TLS, UUIDs, the kit packages,
      the web-of-things types, sockets, clocks, the callbacks of the application) is a type
      class: operations with arbitrary answers, and where the code relies on documented
      behaviour, a second class with the laws.  Concrete instances stand in the examples,
      and every theorem with hypotheses is applied to one by its witness.
    - The iteration of a Go map has an arbitrary order, which is an argument or an answer of
      the environment.
    - Integers are [Z], with the wrap-around of the type where the code can reach it
      ([u8], [u16], [u32], [i64] of GoLib).

    ** The files

    - Shared: Prelude (this file), GoLib (the parts of the standard library that are used).
    - Schemas: Schema (resource links, [schema/link.go], [schema/resources]), SecSchema
      ([schema/acl], [pstat], [doxm], [credential], [csr]), Reps ([schema/device], [platform],
      [maintenance], [softwareupdate], [plgdtime]).
    - CoAP: Coap (messages, [bridge/net/request.go], the constructors of responses),
      IncChanges ([incrementalChanges.go]), Verify ([verify.go] and
      [NewVerifyPeerCertificate] of [client.go]), ClientCoap (requests, answers and close
      handlers of [client.go], [response.go], [codec/ocf]), Dialing with its Props and Examples
      (the dial functions of [client.go], the transfer methods and the cipher suite of
      [client/core/otm], the callbacks of [client/app]), Logging ([pkg/log], the logging of
      requests and the dumps of messages).
    - Bridge: EventLoop ([pkg/eventloop]); BridgeResource and its Props ([bridge/resources]);
      BridgeNet and its Props ([bridge/net]); Credential ([bridge/device/credential]);
      BridgeDevice ([bridge/device/device.go], the constructors of the built-in resources);
      BridgeReps (what [/oic/d] and [/oic/mnt] answer, the pool of [cloud/security.go]);
      BridgeOptions (the options of the device, its cloud client and the service);
      ThingDesc and TdManager ([bridge/device/thingDescription],
      [bridge/resources/thingDescription]); Service ([bridge/service]).
    - Cloud client of the bridge ([bridge/device/cloud]): CloudState (configuration and the
      API), CloudManager (handlers of the loop and the protocol), CloudServe (requests of the
      cloud), with the theorems in CloudProps (all reachable states), CloudOutcomes
      (connection), CloudSpec (single operations), CloudExamples (instances and witnesses).
    - Client core ([client/core]): CoreDevice (connections and requests), Ownership and its
      Props (transfer, disowning, provisioning), CoreObs (observations of a device),
      Discovery (multicast searches).
    - Certificates: CertGen ([pkg/security/generateCertificate], [signer], [x509]) and its
      Props: configuration, requests, the two signers, chains in PEM.
    - SDK ([client]): ObserveDevices (presence), Presence (what a round of it finds, the
      observers of a client), ClientObs (shared observations of resources),
      Details (merging of what was found), DeviceCache (the cache), ClientDevices (getting a
      device), ClientCommands and its Props (the commands on one device and its resources,
      maintenance, on- and offboarding, transfer of ownership), ClientOwnProps (on- and
      offboarding and the transfer), Options ([options.go]), ClientApi (the commands with
      their options, the identities and the owners of devices), ClientConfig (construction,
      [client.go] and [core/client.go]), ClientDetails and its Props ([getDevices.go] and the
      details of [getDevice.go]), ClientApiProps; ClientExamples, ApiExamples and
      DetailsExamples hold their witnesses.
    - Tools ([cmd]): ClientTool (options, certificate files and start of [cmd/ocfclient]) and
      ClientMenu (its menu), with their Props and ToolExamples; BridgeTool
      ([cmd/bridge-device]: configuration, test resources, thing description, [main]) with its
      Props and Examples.

    ** How the parts interact

    Service hands a request to the device of its table; the interface between them is the
    class [ServiceDevice], of which BridgeDevice has the instance.  A device dispatches to its
    resources (BridgeResource), whose observers are fed by TdManager or by the application, and
    tells its cloud client which resources to publish.  The cloud client is driven by the
    event loop: CloudManager takes the trigger, timer and done events, dials with the
    certificate check of Verify, and serves the cloud through CloudServe.  On the client
    side, ClientDevices takes a device from DeviceCache or finds it with Discovery; Ownership
    and CoreDevice send the requests; ClientObs shares one observation of CoreObs between
    subscribers; CoreObs registers its close handlers in the table of ClientCoap.  A command
    of ClientCommands runs on the state of the SDK ([SdkWorld]: the cache, the connections of
    each device, the environment): [dm] is a call on the cache, which closes the connections
    of the devices it closes, [on_core] one on a device; other goroutines use the cache within
    a call ([denv_others]) and the connections after one ([renv_others]).
    The owner of the devices is the class [DeviceOwner], with an instance for each of the
    three implementations; [Client_OwnDevice] is written against the class.  The identity of
    the SDK comes from CertGen, and Verify reads it.  A dial of Dialing takes the check of
    Verify into the handshake and its close handlers from ClientCoap.

    The tools put the parts together.  ClientTool makes the SDK of ClientConfig from the
    files that CertGen fills, and the entries of ClientMenu are calls of the SDK (class
    [OCF], instance [sdk_OCF]).  BridgeTool makes devices of BridgeDevice in the table of
    Service; its test resources are an instance of the class of handlers of BridgeResource
    ([test_ResourceEnv]): a handler works on the data that it captured when its resource was
    made ([r_captured]), and [bridge_HandleRequest] is the way of a request through
    Service, BridgeDevice and BridgeResource to them.

    ** What the theorems show

    - Cloud client: an invariant of every reachable state; a successful connection leaves
      nothing to publish or to remove, a failed one leaves no connection; the requests are in
      the order of the protocol; with a cooperative cloud the timer registers the device;
      unregistering, removal in batches, requests of the cloud.
    - Ownership transfer: the exact exchange of a successful transfer; after a failure the
      device is reset.
    - Observation: bridge notifications are numbered, deduplicated and end with the current
      representation, and subscriptions are accounted for; the SDK delivers messages in order,
      its heap is well typed, and its goroutines do not deadlock; the core ends an
      observation once; thing descriptions
      reach every subscriber, in order.
    - Presence: the polling refines an automaton per device, events alternate, and a device is
      reported offline at the threshold and not before.
    - Commands of the SDK: the cache and the tables of connections stay in order under any
      sequence of commands and what other goroutines do to them; what a read
      with options asks for; the exchange of onboarding; a device that is reset, disowned or
      rebooted is forgotten; a transfer moves the device in the cache, and one that fails after
      the ID changed ruins its entry.
    - Identity and certificates: when an identity certificate is issued, and that its validity
      lies inside the one of its signers; a generated certificate is for the ID that was asked
      for; the identity of the SDK can be read from it;
      key usages and chains agree with their encodings.
    - Details: the result of a search as a function of what its goroutines reported, with the
      ownership status of each device.
    - Discovery: which device a search returns, each device is reported once, and the
      goroutines of a search end.
    - Devices of the SDK: the cache is keyed by the IDs in any interleaving; getting a device
      returns that device with its own links and calls itself at most once; merging agrees
      with a fold per device.
    - Connections: a dial leaks no connection whatever fails, and a connection that is closed
      calls exactly the handlers registered with it; the manufacturer method accepts what its
      authorities verify, and an end of just works reads the records of a peer that derives
      its keys by the standard.
    - Presence in the client: a stopped observation never calls its handler again.
    - Bridge tool: the devices and resources that a start makes; the bridge refines a set of
      registers, one for each test resource of each device; a run of the notifying goroutine
      tries to reach every observer in its map.
    - Client tool: files that exist are kept, the pairs of certificates and keys that are
      generated belong together, and the menu ends on every input, with an update only after
      the reads that it needs.
    - Requests: every branch of the answers of the client, with what the codec leaves in the
      value that receives them; dispatch and discovery of the
      service; deduplication in the network of the bridge; certificate checks as equivalences;
      round trips of endpoints and of the queries of incremental changes; what [/oic/d] says
      of a bridged device.

    ** Fuel and bounds

    The loop of [unpublishResources] takes batches of at most ten and has a fuel that only has
    to exceed their number ([unpublish_complete], [timer_registers]); [parse_pem] has one more
    step than the length of its input, which every block shortens; [add] of the credential
    manager ends within one step per used number, unless the numbers wrap around
    ([add_diverges]); [GetDevice] of the SDK needs a fuel of two on a well-formed cache
    ([Client_GetDevice_terminates]), and has no fuel that is enough once a failed transfer of
    ownership has left a device under an ID that is not its own ([failed_own_diverges]).  The
    iterator over resources ends after one round per link and one more
    ([iterator_reads_all]).  The menu of the client tool has one step more than the lines of
    its input, each step reads one ([scanner_spec]).

    ** Assumptions about the surroundings

    A method that holds one lock for its whole body is one atomic action.  ClientObs takes
    from the core of the client that the callbacks of one observation do not overlap; the
    mutex of its table is separate, since it is held while waiting.  The goroutines of
    different connections deliver the answers of a search one at a time.  Goroutines work on
    the connections of a device between the operations of a command on it, not within one.  The
    conditions on single environments (a cooperative cloud, no other goroutine) are classes
    that the theorems name.

    ** Not modelled

    - Sockets, go-coap, TLS, DTLS and the encoding libraries themselves: they are not in the
      repository and are classes.  The CBOR and JSON codecs of [pkg/codec] only call them.
    - [schema/account], [ael], [collection], [configuration], [interfaces],
      [introspection], [roles], [sdi], [session], [sp] and the constants of the other
      schemas: records and names without operations.
    - The getters of devices and clients that return a field, the constructors of options that
      put their argument into a struct, and the callbacks of loggers that do nothing.
    - The gateway and the devices that only the tests use ([src/test], [src/bridge/test]).
    - Contexts, except where their end is an event; the times of timers; memory that goroutines
      share without a lock, except where a finding names it.  *)

From stdpp Require Export base gmap strings list numbers option fin_maps sets.
From Stdlib Require Export ZArith Lia Ascii.

#[global] Open Scope Z_scope.

Declare Scope dev_scope.
Delimit Scope dev_scope with dev.

(** ** Tactics shared by the development *)

(** Case analysis on the scrutinee of some [match] or [if] of the goal. *)
Ltac split_match :=
  match goal with
  | |- context [match ?x with _ => _ end] => destruct x eqn:?
  end.

(** Case analysis on the scrutinee of some [match] of a hypothesis. *)
Ltac split_match_in H :=
  match type of H with
  | context [match ?x with _ => _ end] => destruct x eqn:?
  end.

(** Turn boolean tests of the context into propositions. *)
Ltac breflect :=
  repeat match goal with
  | H : _ && _ = true |- _ => apply andb_true_iff in H; destruct H
  | H : _ || _ = false |- _ => apply orb_false_iff in H; destruct H
  | H : negb _ = true |- _ => apply negb_true_iff in H
  | H : negb _ = false |- _ => apply negb_false_iff in H
  | H : bool_decide _ = true |- _ => apply bool_decide_eq_true in H
  | H : bool_decide _ = false |- _ => apply bool_decide_eq_false in H
  | H : (_ <? _) = true |- _ => apply Z.ltb_lt in H
  | H : (_ <? _) = false |- _ => apply Z.ltb_ge in H
  | H : (_ <=? _) = true |- _ => apply Z.leb_le in H
  | H : (_ <=? _) = false |- _ => apply Z.leb_gt in H
  | H : (_ =? _) = true |- _ => apply Z.eqb_eq in H
  | H : (_ =? _) = false |- _ => apply Z.eqb_neq in H
  end.

(** ** Go errors

    A Go [error] is a tree: [errors.New] gives a leaf, [fmt.Errorf] with one
    [%w] verb a unary node, with two a binary one, [multierror.Append] joins
    two errors, and [core.SdkError] adds a gRPC status code.  Errors compare
    by their structure; the package-level error variables of the code are
    leaves with distinct texts. *)

Inductive sdk_code :=
  | Canceled | Unknown | InvalidArgument | DeadlineExceeded | NotFound
  | AlreadyExists | PermissionDenied | ResourceExhausted | FailedPrecondition
  | Aborted | OutOfRange | Unimplemented | Internal | Unavailable | DataLoss
  | Unauthenticated.

#[export] Instance sdk_code_eq_dec : EqDecision sdk_code.
Proof. solve_decision. Defined.

Inductive error :=
  | ErrText (msg : string)
  | ErrWrap (msg : string) (inner : error)
  | ErrWrap2 (outer inner : error)
  | ErrAppend (errs last : error)
  | SdkError (errorCode : sdk_code) (wrappedError : error).

#[export] Instance error_eq_dec : EqDecision error.
Proof. solve_decision. Defined.

(** [errors.Is]: some node of the tree equals the target. *)
Fixpoint err_is (target e : error) : bool :=
  bool_decide (e = target) ||
  match e with
  | ErrText _ => false
  | ErrWrap _ i => err_is target i
  | ErrWrap2 a b | ErrAppend a b => err_is target a || err_is target b
  | SdkError _ i => err_is target i
  end.

(** [errors.As] with an [SdkError] target: the first one of a depth-first
    traversal of the tree. *)
Fixpoint err_as_sdk (e : error) : option sdk_code :=
  match e with
  | ErrText _ => None
  | ErrWrap _ i => err_as_sdk i
  | ErrWrap2 a b | ErrAppend a b =>
      match err_as_sdk a with Some c => Some c | None => err_as_sdk b end
  | SdkError c _ => Some c
  end.

(** [context.Canceled] and [context.DeadlineExceeded]. *)
Definition ctxCanceled : error := ErrText "context canceled".
Definition ctxDeadlineExceeded : error := ErrText "context deadline exceeded".

(** [multierror.Append] on a possibly nil accumulator, and [ErrorOrNil]. *)
Definition err_append (acc : option error) (e : error) : option error :=
  match acc with None => Some e | Some a => Some (ErrAppend a e) end.

Lemma err_append_is_Some acc e : is_Some (err_append acc e).
Proof. destruct acc; simpl; eauto. Qed.

Lemma err_is_refl e : err_is e e = true.
Proof. destruct e; simpl; rewrite bool_decide_true; done. Qed.

(** ** Results and the state-and-error monad

    A Go function that returns [(T, error)] and works on a mutable state [S]
    is a value of [ME S T]: the state survives an error, since the assignments
    made before the failing call are not undone. *)

Inductive result (A : Type) :=
  | Ok (a : A)
  | Err (e : error).
Arguments Ok {A} _.
Arguments Err {A} _.

#[export] Instance result_eq_dec A `{EqDecision A} : EqDecision (result A).
Proof. solve_decision. Defined.

Definition is_ok {A} (r : result A) : bool :=
  match r with Ok _ => true | Err _ => false end.

#[export] Instance result_ret : MRet result := fun A a => Ok a.
#[export] Instance result_bind : MBind result :=
  fun A B k r => match r with Ok a => k a | Err e => Err e end.

Lemma bind_Ok_inv {A B} (r : result A) (k : A → result B) b :
  (r ≫= k) = Ok b → ∃ a, r = Ok a ∧ k a = Ok b.
Proof. destruct r as [a|e]; [by exists a | done]. Qed.

Definition ME (S A : Type) : Type := S → result A * S.

#[export] Instance ME_ret S : MRet (ME S) := fun A a s => (Ok a, s).
#[export] Instance ME_bind S : MBind (ME S) :=
  fun A B k m s => match m s with
                   | (Ok a, s') => k a s'
                   | (Err e, s') => (Err e, s')
                   end.

Section Ops.
Context {S : Type}.

Definition gets {A} (f : S → A) : ME S A := fun s => (Ok (f s), s).
Definition modify (f : S → S) : ME S unit := fun s => (Ok tt, f s).
Definition fail {A} (e : error) : ME S A := fun s => (Err e, s).
Definition lift {A} (r : result A) : ME S A := fun s => (r, s).
(** Run [m] and hand its error to the caller as a value ([err := m()]). *)
Definition catch {A} (m : ME S A) : ME S (result A) :=
  fun s => let '(r, s') := m s in (Ok r, s').
Definition when (b : bool) (m : ME S unit) : ME S unit :=
  if b then m else mret tt.
(** [if err := m(); err != nil { return wrap(err) }] *)
Definition wrap_err {A} (f : error → error) (m : ME S A) : ME S A :=
  fun s => match m s with
           | (Ok a, s') => (Ok a, s')
           | (Err e, s') => (Err (f e), s')
           end.
Fixpoint each {A} (f : A → ME S unit) (l : list A) : ME S unit :=
  match l with [] => mret tt | x :: l' => f x;; each f l' end.

(** A sequence that succeeds: both of its parts do. *)
Lemma run_bind_Ok {A B} (m : ME S A) (k : A → ME S B) s b s' :
  (m ≫= k) s = (Ok b, s') → ∃ a s1, m s = (Ok a, s1) ∧ k a s1 = (Ok b, s').
Proof. unfold mbind, ME_bind. destruct (m s) as [[a|e] s1]; [|done]. eauto. Qed.

(** Hoare triples over [ME]: from a state of [P], the outcome is in [Q]. *)
Definition triple {A} (P : S → Prop) (m : ME S A) (Q : result A → S → Prop) : Prop :=
  ∀ s, P s → Q (m s).1 (m s).2.

(** [m] keeps the invariant [I], whether it fails or not. *)
Definition keeps {A} (I : S → Prop) (m : ME S A) : Prop :=
  triple I m (fun _ => I).

Lemma triple_conseq {A} (P P' : S → Prop) (m : ME S A) (Q Q' : result A → S → Prop) :
  triple P' m Q' → (∀ s, P s → P' s) → (∀ r s, Q' r s → Q r s) → triple P m Q.
Proof. unfold triple. eauto. Qed.

Lemma triple_bind {A B} (P : S → Prop) (m : ME S A) (k : A → ME S B)
    (Q : result B → S → Prop) (T : A → S → Prop) :
  triple P m (fun r s => match r with Ok a => T a s | Err e => Q (Err e) s end) →
  (∀ a, triple (T a) (k a) Q) → triple P (m ≫= k) Q.
Proof.
  intros Hm Hk s HP. specialize (Hm s HP). unfold mbind, ME_bind.
  destruct (m s) as [[a|e] s']; simpl in *; [by apply Hk | done].
Qed.

Lemma triple_bind_catch {A B} (P : S → Prop) (m : ME S A) (k : result A → ME S B) Q T :
  triple P m T → (∀ r, triple (T r) (k r) Q) → triple P (catch m ≫= k) Q.
Proof.
  intros Hm Hk s Hs. specialize (Hm s Hs). unfold mbind, ME_bind, catch.
  destruct (m s) as [r s']. by apply Hk.
Qed.
Lemma triple_bind_lift {A B} (P : S → Prop) (r : result A) (k : A → ME S B) Q :
  (∀ a, r = Ok a → triple P (k a) Q) → (∀ e, r = Err e → triple P (fail e) Q) →
  triple P (lift r ≫= k) Q.
Proof. intros Hk He. destruct r as [a|e]; [by apply (Hk a)|by apply (He e)]. Qed.

Lemma keeps_weaken {A} (I P Q : S → Prop) (m : ME S A) :
  keeps I m → (∀ s, P s → I s) → (∀ s, I s → Q s) → triple P m (fun _ => Q).
Proof. intros Hm HP HQ s Hs. apply HQ, Hm, HP, Hs. Qed.

(** [m] keeps [P]; after it the continuation starts in [P]. *)
Lemma triple_bind_inv {A B} (P : S → Prop) (m : ME S A) (k : A → ME S B)
    (Q : result B → S → Prop) :
  keeps P m → (∀ e s, P s → Q (Err e) s) → (∀ a, triple P (k a) Q) → triple P (m ≫= k) Q.
Proof.
  intros Hm HE Hk. apply triple_bind with (T := fun _ => P); [|exact Hk].
  intros s Hs. specialize (Hm s Hs). destruct (m s).1; auto.
Qed.

(** A step whose result is irrelevant but that establishes [T] on success. *)
Lemma triple_seq {A B} (P T : S → Prop) (m : ME S A) (k : A → ME S B)
    (Q : result B → S → Prop) :
  triple P m (fun r s => match r with Ok _ => T s | Err e => Q (Err e) s end) →
  (∀ a, triple T (k a) Q) → triple P (m ≫= k) Q.
Proof. intros Hm Hk. by apply triple_bind with (T := fun _ => T). Qed.

Lemma triple_pre {A} (P P' : S → Prop) (m : ME S A) (Q : result A → S → Prop) :
  (∀ s, P s → P' s) → triple P' m Q → triple P m Q.
Proof. unfold triple. auto. Qed.

(** A fact that does not depend on the state. *)
Lemma triple_frame {A} (P : S → Prop) (R : Prop) (m : ME S A) (Q : result A → S → Prop) :
  (R → triple P m Q) → triple (fun s => P s ∧ R) m Q.
Proof. intros H s [HP HR]. by apply H. Qed.

(** Operations that cannot fail. *)
Definition noerr {A} (m : ME S A) : Prop := ∀ s, ∃ a, (m s).1 = Ok a.

Lemma triple_noerr {A B} (P T : S → Prop) (m : ME S A) (k : A → ME S B)
    (Q : result B → S → Prop) :
  noerr m → triple P m (fun _ => T) → (∀ a, triple T (k a) Q) → triple P (m ≫= k) Q.
Proof.
  intros Hn Hm Hk. apply triple_bind with (T := fun _ => T); [|exact Hk].
  intros s Hs. destruct (Hn s) as [a Ha]. specialize (Hm s Hs). by rewrite Ha.
Qed.

Lemma noerr_gets {A} (f : S → A) : noerr (gets f).
Proof. intros s. by eexists. Qed.
Lemma noerr_modify (f : S → S) : noerr (modify f).
Proof. intros s. by eexists. Qed.
Lemma noerr_catch {A} (m : ME S A) : noerr (catch m).
Proof. intros s. unfold catch. destruct (m s). by eexists. Qed.
Lemma noerr_ret {A} (a : A) : noerr (mret a).
Proof. intros s. by eexists. Qed.
Lemma noerr_bind {A B} (m : ME S A) (k : A → ME S B) :
  noerr m → (∀ a, noerr (k a)) → noerr (m ≫= k).
Proof.
  intros Hm Hk s. destruct (Hm s) as [a Ha]. unfold mbind, ME_bind.
  destruct (m s) as [r s']. simpl in Ha. subst. apply Hk.
Qed.
Lemma noerr_when b m : noerr m → noerr (when b m).
Proof. destruct b; [done | intros _; apply noerr_ret]. Qed.

Lemma keeps_ret {A} (I : S → Prop) (a : A) : keeps I (mret a).
Proof. by intros s Hs. Qed.

Lemma keeps_bind {A B} (I : S → Prop) (m : ME S A) (k : A → ME S B) :
  keeps I m → (∀ a, keeps I (k a)) → keeps I (m ≫= k).
Proof.
  intros Hm Hk s HI. specialize (Hm s HI). unfold mbind, ME_bind.
  destruct (m s) as [[a|e] s']; simpl in *; [by apply Hk | done].
Qed.

Lemma keeps_gets {A} (I : S → Prop) (f : S → A) : keeps I (gets f).
Proof. by intros s Hs. Qed.

Lemma keeps_modify (I : S → Prop) (f : S → S) :
  (∀ s, I s → I (f s)) → keeps I (modify f).
Proof. intros Hf s Hs. by apply Hf. Qed.

Lemma keeps_fail {A} (I : S → Prop) e : keeps I (fail (A:=A) e).
Proof. by intros s Hs. Qed.

Lemma keeps_lift {A} (I : S → Prop) (r : result A) : keeps I (lift r).
Proof. by intros s Hs. Qed.

Lemma keeps_catch {A} (I : S → Prop) (m : ME S A) : keeps I m → keeps I (catch m).
Proof.
  intros Hm s Hs. specialize (Hm s Hs). unfold catch. by destruct (m s).
Qed.

Lemma keeps_wrap_err {A} (I : S → Prop) f (m : ME S A) : keeps I m → keeps I (wrap_err f m).
Proof.
  intros Hm s Hs. specialize (Hm s Hs). unfold wrap_err. by destruct (m s) as [[|] ?].
Qed.

Lemma keeps_when (I : S → Prop) b m : keeps I m → keeps I (when b m).
Proof. destruct b; [done | intros _; apply keeps_ret]. Qed.

Lemma keeps_each {A} (I : S → Prop) (f : A → ME S unit) l :
  (∀ x, keeps I (f x)) → keeps I (each f l).
Proof.
  intros Hf. induction l; simpl; [apply keeps_ret | apply keeps_bind; auto].
Qed.

End Ops.

Create HintDb noerr.
#[export] Hint Resolve noerr_gets noerr_modify noerr_catch noerr_ret noerr_bind noerr_when : noerr.
Create HintDb keeps.
#[export] Hint Resolve keeps_ret keeps_bind keeps_gets keeps_fail keeps_lift
  keeps_catch keeps_wrap_err keeps_when keeps_each : keeps.

(** Follow the structure of a monadic program that keeps an invariant; what is
    left are the state updates and the calls that have no [keeps] hint. *)
Ltac keeps_step :=
  match goal with
  | |- ∀ _, _ => intro
  | |- keeps _ (match ?x with _ => _ end) => destruct x
  | |- keeps _ (if ?x then _ else _) => destruct x
  | |- keeps _ _ => solve [auto with keeps nocore]
  | |- keeps _ (_ ≫= _) => apply keeps_bind
  | |- keeps _ (mret _) => apply keeps_ret
  | |- keeps _ (gets _) => apply keeps_gets
  | |- keeps _ (fail _) => apply keeps_fail
  | |- keeps _ (lift _) => apply keeps_lift
  | |- keeps _ (catch _) => apply keeps_catch
  | |- keeps _ (wrap_err _ _) => apply keeps_wrap_err
  | |- keeps _ (when _ _) => apply keeps_when
  | |- keeps _ (each _ _) => apply keeps_each
  | |- keeps _ (let '(_, _) := ?x in _) => destruct x
  end.
Ltac keeps_tac := repeat keeps_step.

(** ** Reflexive-transitive closure of a labelled step relation *)

Section Runs.
Context {S L : Type} (step : S → L → S → Prop).

Inductive runs : S → list L → S → Prop :=
  | runs_nil s : runs s [] s
  | runs_cons s l s' ls s'' : step s l s' → runs s' ls s'' → runs s (l :: ls) s''.

Lemma runs_invariant (I : S → Prop) :
  (∀ s l s', I s → step s l s' → I s') →
  ∀ s ls s', runs s ls s' → I s → I s'.
Proof. intros HI. induction 1; eauto. Qed.

Lemma runs_app s l1 s' l2 s'' : runs s l1 s' → runs s' l2 s'' → runs s (l1 ++ l2) s''.
Proof. induction 1; simpl; [done | econstructor; eauto]. Qed.
End Runs.

(** A deterministic machine: the run of a list of labels, and that it is a run. *)
Section Exec.
Context {S L : Type} (exec : S → L → option S).
Fixpoint execs (s : S) (ls : list L) : option S :=
  match ls with [] => Some s | l :: ls' => exec s l ≫= fun s' => execs s' ls' end.
Lemma execs_runs ls s s' : execs s ls = Some s' → runs (fun s l s' => exec s l = Some s') s ls s'.
Proof.
  revert s. induction ls as [|l ls IH]; intros s; simpl; [intros [= ->]; constructor|].
  destruct (exec s l) as [s1|] eqn:E; [|done]. simpl. intros Hx. econstructor; [exact E | by apply IH].
Qed.
End Exec.

(** ** Generic lemmas on lists *)

Lemma filter_length_le {A} (P : A → Prop) `{∀ x, Decision (P x)} (l : list A) :
  (length (filter P l) ≤ length l)%nat.
Proof. induction l as [|x l IH]; [done|]. rewrite filter_cons. case_decide; simpl; lia. Qed.

(** Conditionals on equivalent decisions. *)
Lemma bool_decide_ext_if {A} (P Q : Prop) `{!Decision P, !Decision Q} (x y : A) :
  (P ↔ Q) → (if bool_decide P then x else y) = (if bool_decide Q then x else y).
Proof. intros H. by rewrite (bool_decide_ext P Q H). Qed.
