(* ===== verification/GoLib.v ===== *)
(** * GoLib: the parts of the Go language and standard library the program uses

    Strings ([strings.Split], [HasPrefix], [TrimPrefix]), decimal formatting
    ([strconv.FormatInt]), the wrap-around of fixed-width unsigned integers,
    [encoding/base64.RawURLEncoding], [hash/crc32] and [hash/crc64], and the
    contract of the (unstable) [sort.Slice].  Byte slices are [string]s, as the
    conversion [[]byte(s)] is the identity on bytes. *)

From S2P Require Export Prelude.
From Stdlib Require Export Sorting.Sorted Sorting.Permutation.

(** ** Strings *)

Fixpoint str_drop (n : nat) (s : string) : string :=
  match n, s with
  | O, _ => s
  | S n', String _ s' => str_drop n' s'
  | S _, EmptyString => EmptyString
  end.

Definition has_prefix (p s : string) : bool := String.prefix p s.

Arguments has_prefix : simpl never.

Definition trim_prefix (p s : string) : string :=
  if has_prefix p s then str_drop (String.length p) s else s.

(** [strings.Split(s, sep)] for a non-empty separator: [skip] counts the
    characters of the separator still to be consumed, [cur] is the part read
    so far, in order. *)
Fixpoint split_aux (sep s : string) (skip : nat) (cur : string) : list string :=
  match s with
  | EmptyString => [cur]
  | String c s' =>
      match skip with
      | S k => split_aux sep s' k cur
      | O => if has_prefix sep s
             then cur :: split_aux sep s' (String.length sep - 1) EmptyString
             else split_aux sep s' O (cur +:+ String c EmptyString)
      end
  end.
Definition split (s sep : string) : list string := split_aux sep s O EmptyString.

(** [strings.SplitN(s, sep, 2)]: at most one cut, at the first separator. *)
Fixpoint cut_aux (sep s : string) (cur : string) : option (string * string) :=
  match s with
  | EmptyString => None
  | String c s' =>
      if has_prefix sep s then Some (cur, str_drop (String.length sep) s)
      else cut_aux sep s' (cur +:+ String c EmptyString)
  end.
Definition split_n2 (s sep : string) : list string :=
  match cut_aux sep s EmptyString with Some (a, b) => [a; b] | None => [s] end.

(** [strings.Join]. *)
Definition join (l : list string) (sep : string) : string := String.concat sep l.

(** [strings.Contains(s, "c")] for a one-character needle. *)
Fixpoint contains_char (c : ascii) (s : string) : bool :=
  match s with
  | EmptyString => false
  | String d s' => bool_decide (c = d) || contains_char c s'
  end.

(** [strings.ToLower] on ASCII. *)
Definition lower_ascii (c : ascii) : ascii :=
  let n := N_of_ascii c in
  if (65 <=? n)%N && (n <=? 90)%N then ascii_of_N (n + 32) else c.
Fixpoint to_lower (s : string) : string :=
  match s with
  | EmptyString => EmptyString
  | String c s' => String (lower_ascii c) (to_lower s')
  end.

Lemma str_app_nil_l s : "" +:+ s = s.
Proof. done. Qed.
Lemma str_app_cons c s t : String c s +:+ t = String c (s +:+ t).
Proof. done. Qed.
Lemma str_app_nil_r s : s +:+ "" = s.
Proof. induction s; [done | rewrite str_app_cons; by f_equal]. Qed.
Lemma str_app_assoc s1 s2 s3 : (s1 +:+ s2) +:+ s3 = s1 +:+ (s2 +:+ s3).
Proof. induction s1; [done | rewrite !str_app_cons; by f_equal]. Qed.
Lemma str_length_app s1 s2 :
  String.length (s1 +:+ s2) = (String.length s1 + String.length s2)%nat.
Proof. induction s1; [done | rewrite str_app_cons; simpl; by f_equal]. Qed.

Create Rewrite HintDb strs.
#[export] Hint Rewrite str_app_nil_l str_app_cons str_app_nil_r str_app_assoc
  str_length_app : strs.

Lemma has_prefix_app p s : has_prefix p (p +:+ s) = true.
Proof.
  unfold has_prefix. induction p as [|c p IH]; [by destruct s|].
  rewrite str_app_cons. simpl. destruct (ascii_dec c c); done.
Qed.
Lemma str_drop_app p s : str_drop (String.length p) (p +:+ s) = s.
Proof. induction p; [done | by rewrite str_app_cons]. Qed.
Lemma trim_prefix_app p s : trim_prefix p (p +:+ s) = s.
Proof. unfold trim_prefix. by rewrite has_prefix_app, str_drop_app. Qed.

Lemma has_prefix_inv p s : has_prefix p s = true → ∃ t, s = p +:+ t.
Proof.
  revert s. unfold has_prefix. induction p as [|c p IH]; intros s H; [by exists s|].
  destruct s as [|d s]; [done|]. simpl in H.
  destruct (ascii_dec c d); [subst | done].
  destruct (IH s H) as [t ->]. by exists t.
Qed.

(** Splitting on a one-character separator. *)
Lemma has_prefix_char c d s :
  has_prefix (String c EmptyString) (String d s) = bool_decide (c = d).
Proof.
  unfold has_prefix. simpl. destruct (ascii_dec c d); subst.
  - rewrite bool_decide_true; [by destruct s | done].
  - by rewrite bool_decide_false.
Qed.

Lemma contains_app c a b : contains_char c (a +:+ b) = contains_char c a || contains_char c b.
Proof. induction a as [|d a IH]; [done|]. rewrite str_app_cons. simpl. by rewrite IH, orb_assoc. Qed.
Lemma split_aux_no_sep c s cur :
  contains_char c s = false →
  split_aux (String c EmptyString) s O cur = [cur +:+ s].
Proof.
  revert cur. induction s as [|d s IH]; intros cur H; simpl.
  - by rewrite str_app_nil_r.
  - simpl in H. apply orb_false_iff in H as [H1 H2].
    rewrite has_prefix_char, H1, IH by done. by rewrite str_app_assoc.
Qed.

Lemma split_aux_sep c a b cur :
  contains_char c a = false →
  split_aux (String c EmptyString) (a +:+ String c b) O cur =
    (cur +:+ a) :: split_aux (String c EmptyString) b O EmptyString.
Proof.
  revert cur. induction a as [|d a IH]; intros cur H.
  - rewrite str_app_nil_l. simpl.
    rewrite has_prefix_char, bool_decide_true by done. by rewrite str_app_nil_r.
  - simpl in H. apply orb_false_iff in H as [H1 H2].
    rewrite str_app_cons. simpl.
    rewrite has_prefix_char, H1, IH by done. by rewrite str_app_assoc.
Qed.

(** Splitting what was joined, on a character that the parts do not contain. *)
Lemma split_join c l :
  l ≠ [] → (∀ x, x ∈ l → contains_char c x = false) → split (join l (String c "")) (String c "") = l.
Proof.
  intros Hl Hc. unfold split, join. induction l as [|x l IH]; [done|]. destruct l as [|y l].
  - simpl. rewrite split_aux_no_sep by (apply Hc; set_solver). done.
  - change (String.concat (String c "") (x :: y :: l))
      with (x +:+ String c (String.concat (String c "") (y :: l))).
    rewrite split_aux_sep by (apply Hc; set_solver). rewrite str_app_nil_l, IH; [done | done|].
    intros z Hz. apply Hc. set_solver.
Qed.

(** [strings.SplitN(s, sep, 2)] cuts at the first separator. *)
Lemma cut_aux_spec c s cur a b :
  cut_aux (String c "") s cur = Some (a, b) ↔
  ∃ d, a = cur +:+ d ∧ contains_char c d = false ∧ s = d +:+ String c b.
Proof.
  revert cur. induction s as [|x s IH]; intros cur; cbn [cut_aux].
  - split; [done|]. intros (d&_&_&E). by destruct d.
  - rewrite has_prefix_char. case_bool_decide as Hx.
    + subst x. split.
      * intros [= <- <-]. exists "". by rewrite str_app_nil_r.
      * intros ([|y d]&->&Hd&E); [injection E as <-; by rewrite str_app_nil_r|].
        injection E as <- E. cbn in Hd. by rewrite bool_decide_eq_true_2 in Hd.
    + rewrite IH. split.
      * intros (d&->&Hd&->). exists (String x d). cbn. rewrite bool_decide_eq_false_2 by done.
        by rewrite str_app_assoc.
      * intros ([|y d]&->&Hd&E); [by injection E as ->|]. injection E as <- ->. cbn in Hd.
        apply orb_false_iff in Hd as [_ Hd]. exists d. by rewrite str_app_assoc.
Qed.
Lemma split_n2_spec c s a b :
  split_n2 s (String c "") = [a; b] ↔ contains_char c a = false ∧ s = a +:+ String c b.
Proof.
  unfold split_n2. pose proof (cut_aux_spec c s "" a b) as H.
  destruct (cut_aux (String c "") s "") as [[a' b']|].
  - split.
    + intros [= -> ->]. destruct (proj1 H eq_refl) as (d&->&?&?). by rewrite str_app_nil_l.
    + intros [? ?]. assert (E : Some (a', b') = Some (a, b)) by (apply H; by exists a). by injection E as -> ->.
  - split; [done|]. intros [? ?]. assert (E : None = Some (a, b)) by (apply H; by exists a). done.
Qed.

(** ** Fixed-width unsigned integers *)

Definition wrap (w z : Z) : Z := z mod 2 ^ w.
Definition u8 := wrap 8.
Definition u16 := wrap 16.
Definition u32 := wrap 32.
Definition u64 := wrap 64.
(** Signed 64-bit wrap-around ([int], [time.Duration]). *)
Definition i64 (z : Z) : Z := (z + 2 ^ 63) mod 2 ^ 64 - 2 ^ 63.
(** [x &^ y] (and-not) and [^x] at width [w]. *)
Definition and_not (x y : Z) : Z := Z.ldiff x y.
Definition wnot (w x : Z) : Z := 2 ^ w - 1 - x.

Lemma wrap_bound w z : 0 <= w → 0 <= wrap w z < 2 ^ w.
Proof. intros. apply Z.mod_pos_bound. lia. Qed.
Lemma i64_small z : - 2 ^ 63 <= z < 2 ^ 63 → i64 z = z.
Proof. intros H. unfold i64. rewrite Z.mod_small; lia. Qed.
Lemma wrap_small w z : 0 <= z < 2 ^ w → wrap w z = z.
Proof. apply Z.mod_small. Qed.

(** ** Decimal formatting ([strconv.FormatInt(i, 10)] on non-negative [i]) *)

Definition digit (d : Z) : ascii := ascii_of_N (Z.to_N (48 + d)).
Fixpoint format_aux (fuel : nat) (n : Z) (acc : string) : string :=
  match fuel with
  | O => acc
  | S f => let acc' := String (digit (n mod 10)) acc in
           if n / 10 =? 0 then acc' else format_aux f (n / 10) acc'
  end.
(** Twenty digits hold every 64-bit integer. *)
Definition format_uint (n : Z) : string := format_aux 20 n EmptyString.

Definition digit_val (c : ascii) : Z := Z.of_N (N_of_ascii c) - 48.
Fixpoint parse_aux (s : string) (acc : Z) : Z :=
  match s with
  | EmptyString => acc
  | String c s' => parse_aux s' (10 * acc + digit_val c)
  end.
Definition parse_uint (s : string) : Z := parse_aux s 0.

Lemma digit_val_digit d : 0 <= d < 10 → digit_val (digit d) = d.
Proof.
  intros H. unfold digit_val, digit. rewrite N_ascii_embedding by lia. lia.
Qed.

(** The text has at most [k] digits more than the accumulator when [n < 10^k]. *)
Lemma format_aux_length fuel n acc (k : nat) :
  0 <= n < 10 ^ Z.of_nat k → (1 <= k)%nat →
  (String.length (format_aux fuel n acc) <= k + String.length acc)%nat.
Proof.
  revert n acc k. induction fuel as [|f IH]; intros n acc k Hn Hk; simpl; [lia|].
  destruct (Z.eqb_spec (n / 10) 0) as [|Hd]; simpl; [lia|].
  destruct k as [|[|k]]; [lia | |].
  - exfalso. apply Hd. apply Z.div_small. simpl in Hn. lia.
  - specialize (IH (n / 10) (String (digit (n mod 10)) acc) (S k)). simpl in IH.
    assert (0 <= n / 10 < 10 ^ Z.of_nat (S k)) as Hq.
    { split; [apply Z.div_pos; lia|]. apply Z.div_lt_upper_bound; [lia|].
      replace (Z.of_nat (S (S k))) with (1 + Z.of_nat (S k)) in Hn by lia.
      rewrite Z.pow_add_r in Hn by lia. lia. }
    specialize (IH Hq). lia.
Qed.

Lemma format_uint_length n (k : nat) :
  (1 <= k)%nat → 0 <= n < 10 ^ Z.of_nat k → (String.length (format_uint n) <= k)%nat.
Proof.
  intros Hk Hn. etransitivity; [by apply format_aux_length|]. simpl. lia.
Qed.

Lemma parse_format_aux fuel n acc (k : Z) :
  0 <= n < 10 ^ Z.of_nat fuel →
  ∃ e, 0 <= e ∧ parse_aux (format_aux fuel n acc) k = parse_aux acc (10 ^ e * k + n).
Proof.
  revert n acc. induction fuel as [|f IH]; intros n acc Hn; simpl.
  - exists 0. simpl in Hn. split; [lia|]. f_equal. lia.
  - pose proof (Z.div_mod n 10 ltac:(lia)) as Hdm.
    pose proof (Z.mod_pos_bound n 10 ltac:(lia)) as Hm.
    destruct (Z.eqb_spec (n / 10) 0) as [H0|H0].
    + exists 1. split; [lia|]. simpl. rewrite digit_val_digit by lia.
      f_equal. rewrite Z.pow_1_r. lia.
    + assert (0 <= n / 10 < 10 ^ Z.of_nat f) as Hq.
      { split; [apply Z.div_pos; lia|]. apply Z.div_lt_upper_bound; [lia|].
        replace (Z.of_nat (S f)) with (1 + Z.of_nat f) in Hn by lia.
        rewrite Z.pow_add_r in Hn by lia. lia. }
      destruct (IH (n / 10) (String (digit (n mod 10)) acc) Hq) as (e & He & ->).
      exists (1 + e). split; [lia|]. simpl. rewrite digit_val_digit by lia. f_equal.
      rewrite Z.pow_add_r by lia. lia.
Qed.

Lemma parse_format_uint n : 0 <= n < 2 ^ 64 → parse_uint (format_uint n) = n.
Proof.
  intros Hn. unfold parse_uint, format_uint.
  destruct (parse_format_aux 20 n EmptyString 0) as (e & He & ->); [lia | simpl; lia].
Qed.

(** ** Checksums *)

(** One byte of a reflected CRC with polynomial [poly]. *)
Fixpoint crc_bits (poly : Z) (n : nat) (c : Z) : Z :=
  match n with
  | O => c
  | S n' => crc_bits poly n'
              (if Z.testbit c 0 then Z.lxor (Z.shiftr c 1) poly else Z.shiftr c 1)
  end.
Fixpoint crc_bytes (poly : Z) (s : string) (c : Z) : Z :=
  match s with
  | EmptyString => c
  | String b s' => crc_bytes poly s' (crc_bits poly 8 (Z.lxor c (Z.of_N (N_of_ascii b))))
  end.
(** [crc32.ChecksumIEEE] and [crc64] with the ISO table. *)
Definition crc32_ieee (s : string) : Z :=
  Z.lxor (crc_bytes 0xEDB88320 s 0xFFFFFFFF) 0xFFFFFFFF.
Definition crc64_iso (s : string) : Z :=
  Z.lxor (crc_bytes 0xD800000000000000 s 0xFFFFFFFFFFFFFFFF) 0xFFFFFFFFFFFFFFFF.

Example crc32_check : crc32_ieee "123456789" = 0xCBF43926.
Proof. vm_compute. reflexivity. Qed.
Example crc64_check : crc64_iso "123456789" = 0xB90956C775A41001.
Proof. vm_compute. reflexivity. Qed.

Lemma lxor_bound w a b :
  0 <= w → 0 <= a < 2 ^ w → 0 <= b < 2 ^ w → 0 <= Z.lxor a b < 2 ^ w.
Proof.
  intros Hw [Ha1 Ha2] [Hb1 Hb2].
  assert (0 <= Z.lxor a b) as H0 by (apply Z.lxor_nonneg; lia).
  split; [done|].
  destruct (Z.eq_dec (Z.lxor a b) 0) as [->|Hne]; [lia|].
  apply Z.log2_lt_pow2; [lia|].
  destruct (Z.eq_dec w 0) as [->|]; [exfalso; apply Hne; by replace a with 0 by lia; replace b with 0 by lia|].
  eapply Z.le_lt_trans; [apply Z.log2_lxor; lia|].
  assert (∀ x, 0 <= x → x < 2 ^ w → Z.log2 x < w) as Hlog.
  { intros x Hx1 Hx2. destruct (Z.eq_dec x 0) as [->|]; [simpl; lia|].
    apply Z.log2_lt_pow2; lia. }
  apply Z.max_lub_lt; auto.
Qed.

Lemma crc_bits_bound w poly n c :
  8 <= w → 0 <= poly < 2 ^ w → 0 <= c < 2 ^ w → 0 <= crc_bits poly n c < 2 ^ w.
Proof.
  intros Hw Hp. revert c. induction n as [|n IH]; intros c Hc; cbn [crc_bits]; [done|].
  apply IH. assert (0 <= Z.shiftr c 1 < 2 ^ w).
  { rewrite Z.shiftr_div_pow2 by lia. split; [apply Z.div_pos; lia|].
    apply Z.div_lt_upper_bound; lia. }
  destruct (Z.testbit c 0); [|done]. apply lxor_bound; lia.
Qed.

Lemma byte_bound b : 0 <= Z.of_N (N_of_ascii b) < 256.
Proof. pose proof (N_ascii_bounded b). lia. Qed.

Lemma crc_bytes_bound w poly s c :
  8 <= w → 0 <= poly < 2 ^ w → 0 <= c < 2 ^ w → 0 <= crc_bytes poly s c < 2 ^ w.
Proof.
  intros Hw Hp. revert c. induction s as [|b s IH]; intros c Hc; cbn [crc_bytes]; [done|].
  apply IH, crc_bits_bound, lxor_bound; try lia; try done.
  pose proof (byte_bound b). pose proof (Z.pow_le_mono_r 2 8 w). lia.
Qed.

Lemma crc32_bound s : 0 <= crc32_ieee s < 2 ^ 32.
Proof. apply lxor_bound; [done | apply crc_bytes_bound; done | done]. Qed.
Lemma crc64_bound s : 0 <= crc64_iso s < 2 ^ 64.
Proof. apply lxor_bound; [done | apply crc_bytes_bound; done | done]. Qed.

(** ** [encoding/base64.RawURLEncoding] *)

Definition b64_alphabet : string :=
  "ABCDEFGHIJKLMNOPQRSTUVWXYZabcdefghijklmnopqrstuvwxyz0123456789-_".
Definition b64_char (n : Z) : ascii :=
  match String.get (Z.to_nat n) b64_alphabet with Some c => c | None => "A"%char end.
Fixpoint b64_find (c : ascii) (s : string) (i : Z) : option Z :=
  match s with
  | EmptyString => None
  | String d s' => if bool_decide (c = d) then Some i else b64_find c s' (i + 1)
  end.
Definition b64_val (c : ascii) : option Z := b64_find c b64_alphabet 0.

Definition bval (c : ascii) : Z := Z.of_N (N_of_ascii c).
Definition bchr (z : Z) : ascii := ascii_of_N (Z.to_N z).

(** Three bytes as one 24-bit word. *)
Definition b64_word (a b c : Z) : Z := a * 65536 + b * 256 + c.

Fixpoint b64_encode (s : string) : string :=
  match s with
  | EmptyString => EmptyString
  | String a EmptyString =>
      let n := b64_word (bval a) 0 0 in
      String (b64_char (n / 262144)) (String (b64_char (n / 4096 mod 64)) EmptyString)
  | String a (String b EmptyString) =>
      let n := b64_word (bval a) (bval b) 0 in
      String (b64_char (n / 262144)) (String (b64_char (n / 4096 mod 64))
        (String (b64_char (n / 64 mod 64)) EmptyString))
  | String a (String b (String c s')) =>
      let n := b64_word (bval a) (bval b) (bval c) in
      String (b64_char (n / 262144)) (String (b64_char (n / 4096 mod 64))
        (String (b64_char (n / 64 mod 64)) (String (b64_char (n mod 64)) (b64_encode s'))))
  end.

Fixpoint b64_decode (s : string) : option string :=
  match s with
  | EmptyString => Some EmptyString
  | String w (String x EmptyString) =>
      v ← b64_val w; u ← b64_val x;
      Some (String (bchr (v * 4 + u / 16)) EmptyString)
  | String w (String x (String y EmptyString)) =>
      v ← b64_val w; u ← b64_val x; t ← b64_val y;
      Some (String (bchr (v * 4 + u / 16)) (String (bchr (u mod 16 * 16 + t / 4)) EmptyString))
  | String w (String x (String y (String z s'))) =>
      v ← b64_val w; u ← b64_val x; t ← b64_val y; r ← b64_val z;
      rest ← b64_decode s';
      Some (String (bchr (v * 4 + u / 16)) (String (bchr (u mod 16 * 16 + t / 4))
        (String (bchr (t mod 4 * 64 + r)) rest)))
  | String _ EmptyString => None
  end.

Example b64_ex : b64_encode "Man" = "TWFu" ∧ b64_encode "Ma" = "TWE" ∧ b64_encode "M" = "TQ".
Proof. done. Qed.

Lemma b64_val_char n : 0 <= n < 64 → b64_val (b64_char n) = Some n.
Proof.
  intros Hn.
  assert (∀ k, (k < 64)%nat → b64_val (b64_char (Z.of_nat k)) = Some (Z.of_nat k)) as H.
  { intros k Hk. do 64 (destruct k as [|k]; [vm_compute; reflexivity|]). lia. }
  rewrite <- (Z2Nat.id n) by lia. apply H. lia.
Qed.

Lemma bchr_bval c : bchr (bval c) = c.
Proof. unfold bchr, bval. by rewrite N2Z.id, ascii_N_embedding. Qed.

(** Name the quotients and remainders of the three bytes. *)
Ltac b64_prep a b c a1 a0 b1 b0 c1 c0 :=
  pose proof (Z.div_mod a 4 ltac:(lia)); pose proof (Z.mod_pos_bound a 4 ltac:(lia));
  pose proof (Z.div_mod b 16 ltac:(lia)); pose proof (Z.mod_pos_bound b 16 ltac:(lia));
  pose proof (Z.div_mod c 64 ltac:(lia)); pose proof (Z.mod_pos_bound c 64 ltac:(lia));
  assert (0 <= b / 16 < 16) by (split; [apply Z.div_pos | apply Z.div_lt_upper_bound]; lia);
  assert (0 <= c / 64 < 4) by (split; [apply Z.div_pos | apply Z.div_lt_upper_bound]; lia);
  set (a1 := a / 4) in *; set (a0 := a mod 4) in *; set (b1 := b / 16) in *;
  set (b0 := b mod 16) in *; set (c1 := c / 64) in *; set (c0 := c mod 64) in *;
  clearbody a1 a0 b1 b0 c1 c0.

Lemma b64_sextets a b c (n := b64_word a b c) :
  0 <= a < 256 → 0 <= b < 256 → 0 <= c < 256 →
  n / 262144 = a / 4 ∧ n / 4096 mod 64 = a mod 4 * 16 + b / 16 ∧
  n / 64 mod 64 = b mod 16 * 4 + c / 64 ∧ n mod 64 = c mod 64.
Proof.
  intros Ha Hb Hc. subst n. unfold b64_word. b64_prep a b c a1 a0 b1 b0 c1 c0.
  split_and!; symmetry.
  - apply Z.div_unique with (a0 * 65536 + b * 256 + c); lia.
  - rewrite <- (Z.div_unique _ 4096 (a1 * 64 + a0 * 16 + b1) (b0 * 256 + c)); [|lia|lia].
    apply Z.mod_unique with a1; lia.
  - rewrite <- (Z.div_unique _ 64 (a * 1024 + b1 * 64 + (b0 * 4 + c1)) c0); [|lia|lia].
    apply Z.mod_unique with (a * 16 + b1); lia.
  - apply Z.mod_unique with (a * 1024 + b * 4 + c1); lia.
Qed.

Lemma b64_bytes_back a b c :
  0 <= a < 256 → 0 <= b < 256 → 0 <= c < 256 →
  (0 <= a / 4 < 64 ∧ 0 <= a mod 4 * 16 + b / 16 < 64 ∧
   0 <= b mod 16 * 4 + c / 64 < 64 ∧ 0 <= c mod 64 < 64) ∧
  a / 4 * 4 + (a mod 4 * 16 + b / 16) / 16 = a ∧
  (a mod 4 * 16 + b / 16) mod 16 * 16 + (b mod 16 * 4 + c / 64) / 4 = b ∧
  (b mod 16 * 4 + c / 64) mod 4 * 64 + c mod 64 = c.
Proof.
  intros Ha Hb Hc. b64_prep a b c a1 a0 b1 b0 c1 c0.
  assert ((a0 * 16 + b1) / 16 = a0) as -> by (symmetry; apply Z.div_unique with b1; lia).
  assert ((a0 * 16 + b1) mod 16 = b1) as -> by (symmetry; apply Z.mod_unique with a0; lia).
  assert ((b0 * 4 + c1) / 4 = b0) as -> by (symmetry; apply Z.div_unique with c1; lia).
  assert ((b0 * 4 + c1) mod 4 = c1) as -> by (symmetry; apply Z.mod_unique with b0; lia).
  lia.
Qed.

(** Two induction steps of three bytes each are one step of [b64_encode]. *)
Lemma str_ind3 (P : string → Prop) :
  P "" → (∀ a, P (String a "")) → (∀ a b, P (String a (String b ""))) →
  (∀ a b c s, P s → P (String a (String b (String c s)))) → ∀ s, P s.
Proof.
  intros H0 H1 H2 H3.
  fix IH 1. intros [|a [|b [|c s]]]; [exact H0 | apply H1 | apply H2 | apply H3, IH].
Qed.

Lemma b64_roundtrip s : b64_decode (b64_encode s) = Some s.
Proof.
  assert (∀ c, 0 <= bval c < 256) as Hb by exact byte_bound.
  induction s as [|a|a b|a b c s IH] using str_ind3; [done| | |]; cbn [b64_encode b64_decode];
    [ pose proof (Hb a); assert (0 <= 0 < 256) by lia;
      destruct (b64_sextets (bval a) 0 0) as (-> & -> & _ & _); [done..|];
      destruct (b64_bytes_back (bval a) 0 0) as ((?&?&?&?)&E1&_&_); [done..|]
    | pose proof (Hb a); pose proof (Hb b); assert (0 <= 0 < 256) by lia;
      destruct (b64_sextets (bval a) (bval b) 0) as (-> & -> & -> & _); [done..|];
      destruct (b64_bytes_back (bval a) (bval b) 0) as ((?&?&?&?)&E1&E2&_); [done..|]
    | destruct (b64_sextets (bval a) (bval b) (bval c)) as (-> & -> & -> & ->); [done..|];
      destruct (b64_bytes_back (bval a) (bval b) (bval c)) as ((?&?&?&?)&E1&E2&E3); [done..|] ];
    rewrite !b64_val_char by done; cbn [mbind option_bind];
    rewrite ?IH; cbn [mbind option_bind]; by rewrite E1, ?E2, ?E3, !bchr_bval.
Qed.

Lemma b64_length s :
  String.length (b64_encode s) = ((String.length s * 4 + 2) / 3)%nat.
Proof.
  induction s as [|a|a b|a b c s IH] using str_ind3; [done..|].
  cbn [b64_encode String.length]. rewrite IH.
  replace ((S (S (S (String.length s))) * 4 + 2))%nat
    with ((String.length s * 4 + 2) + 4 * 3)%nat by lia.
  rewrite Nat.div_add by lia. lia.
Qed.

(** ** [sort.Slice]

    [sort.Slice] promises a permutation that is ordered by [less] and nothing
    about equal elements; the class states that contract, and insertion sort
    is an implementation that meets it. *)

Class GoSort := {
  sort_slice : ∀ {A}, (A → A → bool) → list A → list A;
  sort_slice_perm : ∀ A (less : A → A → bool) l, sort_slice less l ≡ₚ l;
  sort_slice_sorted : ∀ A (key : A → Z) l,
    Sorted (fun a b => key a <= key b) (sort_slice (fun a b => key a <? key b) l) }.

Fixpoint insert_by {A} (less : A → A → bool) (x : A) (l : list A) : list A :=
  match l with
  | [] => [x]
  | y :: l' => if less y x then y :: insert_by less x l' else x :: l
  end.
Definition insertion_sort {A} (less : A → A → bool) (l : list A) : list A :=
  foldr (insert_by less) [] l.

Lemma insert_by_perm {A} (less : A → A → bool) x l : insert_by less x l ≡ₚ x :: l.
Proof.
  induction l as [|y l IH]; simpl; [done|]. destruct (less y x); [|done].
  rewrite IH. apply Permutation_swap.
Qed.
Lemma insertion_sort_perm {A} (less : A → A → bool) l : insertion_sort less l ≡ₚ l.
Proof. induction l as [|y l IH]; simpl; [done|]. by rewrite insert_by_perm, IH. Qed.

(** [le] is the order that [less] decides. *)
Lemma insertion_sort_Sorted {A} (le : A → A → Prop) (less : A → A → bool) l :
  (∀ a b, less a b = true → le a b) → (∀ a b, less a b = false → le b a) → Sorted le (insertion_sort less l).
Proof.
  intros Ht Hf. induction l as [|x l IH]; simpl; [constructor|].
  generalize dependent (insertion_sort less l).
  clear l. induction l as [|y l IHl]; intros Hs; simpl; [by repeat constructor|].
  inversion Hs as [|? ? Hs' Hhd]; subst. destruct (less y x) eqn:E.
  - constructor; [by apply IHl|]. destruct l as [|z l]; simpl; [constructor; auto|].
    inversion Hhd; subst. destruct (less z x); constructor; auto.
  - constructor; [done|]. constructor. auto.
Qed.
Lemma insertion_sort_sorted {A} (key : A → Z) l :
  Sorted (fun a b => key a <= key b) (insertion_sort (fun a b => key a <? key b) l).
Proof. apply insertion_sort_Sorted; intros a b; [rewrite Z.ltb_lt|rewrite Z.ltb_ge]; lia. Qed.

#[export] Instance insertion_GoSort : GoSort := {|
  sort_slice A := insertion_sort;
  sort_slice_perm A := insertion_sort_perm;
  sort_slice_sorted A := insertion_sort_sorted |}.

(** The run-time panic of a nil dereference, as an error. *)
Definition ErrNilPointer : error := ErrText "runtime error: nil pointer dereference".

(** ** Texts of values

    A value of a countable type as a text of binary digits: the encoders of the examples. *)

Fixpoint pos_text (p : positive) : string :=
  match p with xH => "" | xO p => String "0" (pos_text p) | xI p => String "1" (pos_text p) end.
Fixpoint text_pos (s : string) : positive :=
  match s with
  | "" => xH
  | String c s => if bool_decide (c = "0"%char) then xO (text_pos s) else xI (text_pos s)
  end.
Lemma text_pos_text p : text_pos (pos_text p) = p.
Proof. induction p as [p IH|p IH|]; cbn; by rewrite ?IH. Qed.
Definition to_text {A} `{Countable A} (a : A) : string := pos_text (encode a).
Definition of_text {A} `{Countable A} (s : string) : option A := decode (text_pos s).
Lemma of_to_text {A} `{Countable A} (a : A) : of_text (to_text a) = Some a.
Proof. unfold of_text, to_text. by rewrite text_pos_text, decode_encode. Qed.
