(* ===== verification/Schema.v ===== *)
(** * Schema: resource links and their endpoints

    [src/schema/link.go] and [src/schema/resources/resources.go]: the links a
    device publishes, the search for links by href, type and device, the
    filters on endpoint schemes, the completion of missing endpoints from the
    policy ports, and the decomposition of the hrefs of a batch.

    The kit packages ([kitNet.Addr], [kitStrings.Set]) are outside the
    repository: the class [Kit] lists the operations the code calls, and
    [KitLaws] their documented behaviour. *)

From S2P Require Export GoLib.

(** ** Interface of plgd-dev/kit *)

(** [net.IP]: the bytes of an IPv4 (4) or IPv6 (16) address. *)
Record IP := { ip_bytes : list Z }.
Definition To4_nil (ip : IP) : bool := negb (length (ip_bytes ip) =? 4)%nat.
Definition byte_at (ip : IP) (i : nat) : Z := default 0 (ip_bytes ip !! i).
Definition IsLinkLocalUnicast (ip : IP) : bool :=
  if To4_nil ip
  then (byte_at ip 0 =? 0xfe) && (Z.land (byte_at ip 1) 0xc0 =? 0x80)
  else (byte_at ip 0 =? 169) && (byte_at ip 1 =? 254).
Definition IsLinkLocalMulticast (ip : IP) : bool :=
  if To4_nil ip
  then (byte_at ip 0 =? 0xff) && (Z.land (byte_at ip 1) 0x0f =? 0x02)
  else (byte_at ip 0 =? 224) && (byte_at ip 1 =? 0) && (byte_at ip 2 =? 0).

Class Kit := {
  Addr : Type;
  ParseString : string → string → result Addr;
  addr_GetScheme : Addr → string;
  addr_GetHostname : Addr → string;
  addr_GetPort : Addr → Z;
  addr_SetPort : Addr → Z → Addr;
  addr_SetScheme : Addr → string → Addr;
  addr_String : Addr → string;
  addr_URL : Addr → string;
  ParseIPZone : string → option IP * string;
  ip_String : IP → string;
  str_contains : string → string → bool;
  set_ToSlice : gset string → list string }.

(** What the code relies on: an address text parses back to the same address
    text under the scheme it was given, it contains no scheme separator, and
    [ToSlice] lists the members of the set once each. *)
Class KitLaws `{Kit} := {
  parse_scheme s a x : ParseString s (addr_String a) = Ok x → addr_GetScheme x = s;
  parse_text s a x : ParseString s (addr_String a) = Ok x → addr_String x = addr_String a;
  parse_ok s a : s ∈ ["coap"; "coaps"; "coap+tcp"; "coaps+tcp"] →
    is_ok (ParseString s (addr_String a)) = true;
  addr_no_sep a c : contains_char c (addr_String a) = true → c ≠ "/"%char;
  ToSlice_elements (X : gset string) : set_ToSlice X ≡ₚ elements X }.

(** ** Data *)

Definition BitMask := Z.
Definition Discoverable : BitMask := 1.
Definition Observable : BitMask := 2.
Definition BitMask_Has (b flag : BitMask) : bool := negb (Z.land b flag =? 0).

Record Policy := {
  Policy_BitMask : BitMask; UDPPort : Z; TCPPort : Z; TCPTLSPort : Z;
  Secured : option bool }.

Record Endpoint := { URI : string; Priority : Z }.
Abbreviation Endpoints := (list Endpoint).

Record ResourceLink := {
  ID : string; Href : string; ResourceTypes : list string; Interfaces : list string;
  LinkPolicy : option Policy; LinkEndpoints : Endpoints; Anchor : string;
  LinkDeviceID : string; InstanceID : Z; Title : string;
  SupportedContentTypes : list string }.
Abbreviation ResourceLinks := (list ResourceLink).

#[export] Instance Policy_eq_dec : EqDecision Policy.
Proof. solve_decision. Defined.
#[export] Instance Endpoint_eq_dec : EqDecision Endpoint.
Proof. solve_decision. Defined.
#[export] Instance ResourceLink_eq_dec : EqDecision ResourceLink.
Proof. solve_decision. Defined.

(** The zero value of the struct. *)
Definition zero_link : ResourceLink :=
  {| ID := ""; Href := ""; ResourceTypes := []; Interfaces := []; LinkPolicy := None;
     LinkEndpoints := []; Anchor := ""; LinkDeviceID := ""; InstanceID := 0; Title := "";
     SupportedContentTypes := [] |}.

Definition set_Endpoints (eps : Endpoints) (r : ResourceLink) : ResourceLink :=
  {| ID := ID r; Href := Href r; ResourceTypes := ResourceTypes r; Interfaces := Interfaces r;
     LinkPolicy := LinkPolicy r; LinkEndpoints := eps; Anchor := Anchor r;
     LinkDeviceID := LinkDeviceID r; InstanceID := InstanceID r; Title := Title r;
     SupportedContentTypes := SupportedContentTypes r |}.
Definition set_Href (h : string) (r : ResourceLink) : ResourceLink :=
  {| ID := ID r; Href := h; ResourceTypes := ResourceTypes r; Interfaces := Interfaces r;
     LinkPolicy := LinkPolicy r; LinkEndpoints := LinkEndpoints r; Anchor := Anchor r;
     LinkDeviceID := LinkDeviceID r; InstanceID := InstanceID r; Title := Title r;
     SupportedContentTypes := SupportedContentTypes r |}.

Definition TCPSecureScheme : string := "coaps+tcp".
Definition TCPScheme : string := "coap+tcp".
Definition UDPScheme : string := "coap".
Definition UDPSecureScheme : string := "coaps".

Definition isSecuredScheme (scheme : string) : bool :=
  bool_decide (scheme = TCPSecureScheme) || bool_decide (scheme = UDPSecureScheme).
Definition isUnsecuredScheme (scheme : string) : bool :=
  bool_decide (scheme = TCPScheme) || bool_decide (scheme = UDPScheme).

(** ** Searches on links *)

(** [set.HasOneOf] on the set built from [resourceTypes]. *)
Definition HasOneOf (rt : gset string) (l : list string) : bool :=
  existsb (fun x => bool_decide (x ∈ rt)) l.

Fixpoint GetResourceLink (r : ResourceLinks) (href : string) : option ResourceLink :=
  match r with
  | [] => None
  | l :: r' => if bool_decide (Href l = href) then Some l else GetResourceLink r' href
  end.

Definition GetResourceLinks (r : ResourceLinks) (resourceTypes : list string) : ResourceLinks :=
  let rt : gset string := list_to_set resourceTypes in
  List.filter (fun l => HasOneOf rt (ResourceTypes l)) r.

Definition HasType (r : ResourceLink) (resourceType : string) : bool :=
  existsb (fun rt => bool_decide (rt = resourceType)) (ResourceTypes r).

Definition GetDeviceID (r : ResourceLink) : string :=
  if bool_decide (LinkDeviceID r = "") then trim_prefix "ocf://" (Anchor r) else LinkDeviceID r.

Definition FilterByDeviceID (r : ResourceLinks) (deviceID : string) : ResourceLinks :=
  List.filter (fun l => bool_decide (GetDeviceID l = deviceID)) r.

Section WithKit.
Context `{Kit} `{GoSort}.

Definition GetResourceHrefs (r : ResourceLinks) (resourceTypes : list string) : list string :=
  let rt : gset string := list_to_set resourceTypes in
  let links : gset string :=
    foldl (fun acc l => if HasOneOf rt (ResourceTypes l) then {[Href l]} ∪ acc else acc) ∅ r in
  set_ToSlice links.

(** ** Endpoints *)

(** [Endpoint.GetAddr]: exactly one "://" in the URI. *)
Definition Endpoint_GetAddr (ep : Endpoint) : result Addr :=
  match split (URI ep) "://" with
  | [a0; a1] => ParseString a0 a1
  | _ => Err (ErrText "invalid address")
  end.

Definition Endpoints_Sort (r : Endpoints) : Endpoints :=
  match r with
  | [] => r
  | _ => sort_slice (fun a b => Priority a <? Priority b) r
  end.

Definition GetEndpoints (r : ResourceLink) : Endpoints := Endpoints_Sort (LinkEndpoints r).

Definition scheme_ok (filter : string → bool) (ep : Endpoint) : bool :=
  match Endpoint_GetAddr ep with Ok addr => filter (addr_GetScheme addr) | Err _ => false end.
Definition getEndpointsWithFilter (r : Endpoints) (filter : string → bool) : Endpoints :=
  List.filter (scheme_ok filter) r.
Definition FilterSecureEndpoints (r : Endpoints) : Endpoints :=
  getEndpointsWithFilter r isSecuredScheme.
Definition FilterUnsecureEndpoints (r : Endpoints) : Endpoints :=
  getEndpointsWithFilter r isUnsecuredScheme.
Definition GetSecureEndpoints (r : ResourceLink) : Endpoints :=
  FilterSecureEndpoints (LinkEndpoints r).
Definition GetUnsecureEndpoints (r : ResourceLink) : Endpoints :=
  FilterUnsecureEndpoints (LinkEndpoints r).

(** [Endpoints.GetAddr]: an endpoint that does not parse before the searched
    one ends the search with its error. *)
Fixpoint Endpoints_GetAddr (r : Endpoints) (scheme : string) : result Addr :=
  match r with
  | [] => Err (ErrText "no endpoint")
  | ep :: r' =>
      u ← Endpoint_GetAddr ep;
      if bool_decide (addr_GetScheme u = scheme) then Ok u else Endpoints_GetAddr r' scheme
  end.
Definition GetTCPAddr (r : ResourceLink) := Endpoints_GetAddr (LinkEndpoints r) TCPScheme.
Definition GetTCPSecureAddr (r : ResourceLink) := Endpoints_GetAddr (LinkEndpoints r) TCPSecureScheme.
Definition GetUDPAddr (r : ResourceLink) := Endpoints_GetAddr (LinkEndpoints r) UDPScheme.
Definition GetUDPSecureAddr (r : ResourceLink) := Endpoints_GetAddr (LinkEndpoints r) UDPSecureScheme.

(** [url.URL{Scheme: s, Host: h}.String()]. *)
Definition url_String (scheme host : string) : string := scheme +:+ "://" +:+ host.
Definition udpEndpoint (addr : Addr) : Endpoint :=
  {| URI := url_String UDPScheme (addr_String addr); Priority := 0 |}.
Definition udpTlsEndpoint (addr : Addr) : Endpoint :=
  {| URI := url_String UDPSecureScheme (addr_String addr); Priority := 0 |}.
Definition tcpEndpoint (addr : Addr) : Endpoint :=
  {| URI := url_String TCPScheme (addr_String addr); Priority := 0 |}.
Definition tcpTlsEndpoint (addr : Addr) : Endpoint :=
  {| URI := url_String TCPSecureScheme (addr_String addr); Priority := 0 |}.

(** [patchEndpoint]: endpoints from the ports of the policy, else those of the device. *)
Definition policy_endpoints (addr : Addr) (p : Policy) : Endpoints :=
  (if UDPPort p =? 0 then []
   else if default false (Secured p) then [udpTlsEndpoint (addr_SetPort addr (UDPPort p))]
   else [udpEndpoint (addr_SetPort addr (UDPPort p))]) ++
  (if TCPPort p =? 0 then [] else [tcpEndpoint (addr_SetPort addr (TCPPort p))]) ++
  (if TCPTLSPort p =? 0 then [] else [tcpTlsEndpoint (addr_SetPort addr (TCPTLSPort p))]).

Definition patchEndpoint (r : ResourceLink) (addr : Addr) (deviceEndpoints : Endpoints)
    : ResourceLink :=
  match LinkEndpoints r, LinkPolicy r with
  | _ :: _, _ => r
  | [], None => r
  | [], Some p =>
      let eps := policy_endpoints addr p in
      match eps with
      | _ :: _ => set_Endpoints eps r
      | [] => set_Endpoints (if isSecuredScheme (addr_GetScheme addr)
                             then FilterSecureEndpoints deviceEndpoints
                             else deviceEndpoints) r
      end
  end.

(** One turn of the loop of [PatchEndpoint]: the endpoint is dropped, kept, or
    rewritten to the address the link came from. *)
Definition patch_one (addr : Addr) (endpoint : Endpoint) : option Endpoint :=
  match Endpoint_GetAddr endpoint with
  | Err _ => None
  | Ok addrEp =>
      match ParseIPZone (addr_GetHostname addrEp) with
      | (None, _) => None
      | (Some ip, zone) =>
          if (To4_nil ip && bool_decide (zone = "") && IsLinkLocalUnicast ip) || IsLinkLocalMulticast ip
          then if str_contains (addr_URL addr) (ip_String ip)
               then Some {| URI := addr_URL (addr_SetPort (addr_SetScheme addr (addr_GetScheme addrEp))
                                                          (addr_GetPort addrEp));
                            Priority := Priority endpoint |}
               else None
          else Some endpoint
      end
  end.

Definition PatchEndpoint (r : ResourceLink) (addr : Addr) (deviceEndpoints : Endpoints)
    : ResourceLink :=
  match LinkEndpoints r with
  | [] => patchEndpoint r addr deviceEndpoints
  | eps => patchEndpoint (set_Endpoints (omap (patch_one addr) eps) r) addr deviceEndpoints
  end.
Definition Links_PatchEndpoint (r : ResourceLinks) (addr : Addr) (deviceEndpoints : Endpoints)
    : ResourceLinks :=
  (fun l => PatchEndpoint l addr deviceEndpoints) <$> r.

(** ** Lemmas *)

Lemma policy_endpoints_nil addr p :
  policy_endpoints addr p = [] ↔ UDPPort p = 0 ∧ TCPPort p = 0 ∧ TCPTLSPort p = 0.
Proof.
  unfold policy_endpoints.
  destruct (Z.eqb_spec (UDPPort p) 0), (Z.eqb_spec (TCPPort p) 0),
    (Z.eqb_spec (TCPTLSPort p) 0), (Secured p) as [[]|]; simpl;
    (split; [intros; first [done | discriminate] | intros (?&?&?); done]).
Qed.

Lemma split_url scheme host :
  contains_char ":" scheme = false → contains_char "/" host = false →
  split (url_String scheme host) "://" = [scheme; host].
Proof.
  intros Hs Hh. unfold split, url_String.
  assert (∀ s cur, contains_char "/" s = false → split_aux "://" s O cur = [cur +:+ s]) as Hhost.
  { induction s as [|c s IH]; intros cur Hc; simpl; [by rewrite str_app_nil_r|].
    simpl in Hc. apply orb_false_iff in Hc as [Hc1 Hc2].
    destruct (has_prefix "://" (String c s)) eqn:E.
    - apply has_prefix_inv in E as [t E]. rewrite !str_app_cons in E. by simplify_eq/=.
    - rewrite IH by done. by rewrite str_app_assoc. }
  enough (∀ cur, split_aux "://" (scheme +:+ "://" +:+ host) O cur = [cur +:+ scheme; host]) as E.
  { rewrite E. done. }
  revert Hs. induction scheme as [|c s IH]; intros Hs cur.
  - rewrite !str_app_nil_l. change ("://" +:+ host) with (String ":" ("//" +:+ host)).
    simpl. change (String ":" ("//" +:+ host)) with ("://" +:+ host).
    rewrite has_prefix_app. change ("//" +:+ host) with (String "/" (String "/" host)). simpl.
    rewrite Hhost, ?str_app_nil_r, ?str_app_nil_l by done. reflexivity.
  - simpl in Hs. apply orb_false_iff in Hs as [Hs1 Hs2]. rewrite str_app_cons. simpl.
    destruct (has_prefix "://" (String c _)) eqn:E.
    + apply has_prefix_inv in E as [t E]. change ("://" +:+ t) with (String ":" ("//" +:+ t)) in E.
      injection E as -> _. discriminate Hs1.
    + rewrite IH by done. by rewrite str_app_assoc.
Qed.

(** ** The completed endpoints *)

Section Laws.
Context `{!KitLaws}.

Definition endpoint_of (sa : string * Addr) : Endpoint :=
  {| URI := url_String sa.1 (addr_String sa.2); Priority := 0 |}.
Definition four_schemes : list string := ["coap"; "coaps"; "coap+tcp"; "coaps+tcp"].

Lemma endpoint_of_addr sa : sa.1 ∈ four_schemes →
  ∃ x, Endpoint_GetAddr (endpoint_of sa) = Ok x ∧ addr_GetScheme x = sa.1 ∧
       addr_String x = addr_String sa.2.
Proof.
  destruct sa as [sc a]. cbn [fst snd]. intros Hs. unfold Endpoint_GetAddr, endpoint_of. cbn [URI fst snd].
  rewrite split_url.
  - pose proof (parse_ok sc a Hs) as Hp. destruct (ParseString sc (addr_String a)) as [x|] eqn:E; [|done].
    exists x. split; [done|]. split; [by eapply parse_scheme | by eapply parse_text].
  - unfold four_schemes in Hs. repeat (apply elem_of_cons in Hs as [-> | Hs]; [reflexivity|]). inversion Hs.
  - destruct (contains_char "/" (addr_String a)) eqn:E; [|done]. by apply addr_no_sep in E.
Qed.
(** The search among such endpoints finds the first of the scheme. *)
Lemma Endpoints_GetAddr_of (l : list (string * Addr)) sc :
  Forall (fun sa => sa.1 ∈ four_schemes) l →
  match Endpoints_GetAddr (endpoint_of <$> l) sc with
  | Ok x => ∃ a, (sc, a) ∈ l ∧ addr_GetScheme x = sc ∧ addr_String x = addr_String a
  | Err _ => ∀ a, (sc, a) ∉ l
  end.
Proof.
  induction 1 as [|sa l Hs _ IH]; cbn [fmap list_fmap Endpoints_GetAddr]; [intros a Hin; inversion Hin|].
  destruct (endpoint_of_addr sa Hs) as (x & -> & Hx & Hn). cbn [mbind result_bind].
  case_bool_decide as Hd.
  - exists sa.2. split; [|split; [congruence|done]].
    assert ((sc, sa.2) = sa) as -> by (destruct sa; cbn in *; congruence). by left.
  - destruct (Endpoints_GetAddr _ sc) as [y|].
    + destruct IH as (a & Hin & Hy). exists a. split; [by right|done].
    + intros a [<-|Hin]%elem_of_cons; [by apply Hd|by apply (IH a)].
Qed.

Lemma policy_endpoints_of addr p :
  policy_endpoints addr p = endpoint_of <$>
    ((if UDPPort p =? 0 then []
      else [(if default false (Secured p) then UDPSecureScheme else UDPScheme, addr_SetPort addr (UDPPort p))]) ++
     (if TCPPort p =? 0 then [] else [(TCPScheme, addr_SetPort addr (TCPPort p))]) ++
     (if TCPTLSPort p =? 0 then [] else [(TCPSecureScheme, addr_SetPort addr (TCPTLSPort p))])).
Proof.
  unfold policy_endpoints. destruct (UDPPort p =? 0), (TCPPort p =? 0), (TCPTLSPort p =? 0),
    (default false (Secured p)); reflexivity.
Qed.

(** Links of older devices, which have ports in their policy instead of endpoints:
    after the completion such a link has an address of a scheme exactly if the
    policy has its port (the UDP port counts for the secure scheme if the policy
    is secured), and the address is that of the device with this port. *)
Theorem patchEndpoint_spec r addr dev p sc :
  LinkEndpoints r = [] → LinkPolicy r = Some p →
  (UDPPort p ≠ 0 ∨ TCPPort p ≠ 0 ∨ TCPTLSPort p ≠ 0) → sc ∈ four_schemes →
  let port := if bool_decide (sc = TCPScheme) then TCPPort p
              else if bool_decide (sc = TCPSecureScheme) then TCPTLSPort p
              else if Bool.eqb (bool_decide (sc = UDPSecureScheme)) (default false (Secured p))
              then UDPPort p else 0 in
  match Endpoints_GetAddr (LinkEndpoints (patchEndpoint r addr dev)) sc with
  | Ok x => port ≠ 0 ∧ addr_GetScheme x = sc ∧ addr_String x = addr_String (addr_SetPort addr port)
  | Err _ => port = 0
  end.
Proof.
  intros He Hp Hany Hsc port. unfold patchEndpoint. rewrite He, Hp.
  destruct (policy_endpoints addr p) as [|e eps] eqn:Ee; [apply policy_endpoints_nil in Ee; lia|].
  cbn [LinkEndpoints set_Endpoints]. rewrite <- Ee, policy_endpoints_of.
  match goal with |- context [endpoint_of <$> ?l] => pose proof (Endpoints_GetAddr_of l sc) as Hg;
    assert (Forall (fun sa => sa.1 ∈ four_schemes) l ∧
      ∀ a, (sc, a) ∈ l ↔ port ≠ 0 ∧ a = addr_SetPort addr port) as [Hf Hl] end.
  { subst port. clear Hg Hany He Hp Ee. unfold four_schemes in *.
    repeat (apply elem_of_cons in Hsc as [-> | Hsc]); [..|inversion Hsc];
      destruct (Z.eqb_spec (UDPPort p) 0) as [->|Hp1], (Z.eqb_spec (TCPPort p) 0) as [->|Hp2],
        (Z.eqb_spec (TCPTLSPort p) 0) as [->|Hp3], (default false (Secured p)); cbn;
      (split; [repeat constructor; vm_compute; tauto|]); intros a; rewrite ?elem_of_cons, ?elem_of_nil;
      naive_solver. }
  specialize (Hg Hf). destruct (Endpoints_GetAddr _ sc) as [x|].
  - destruct Hg as (a & [Hn ->]%Hl & Hx). done.
  - destruct (decide (port = 0)) as [|Hn]; [done|]. exfalso. by eapply Hg, Hl.
Qed.
End Laws.
End WithKit.
