(* ===== verification/EventLoop.v ===== *)
(** * EventLoop: the event loop of the bridge

    [src/pkg/eventloop/eventloop.go]: the list of handlers behind an atomic
    pointer, and the loop that waits on their channels with [reflect.Select].
    Channels are their addresses; a pointer to a handler list is the list with
    a version number, which is fresh for every list that is stored. *)

From stdpp Require Import sorting.
From S2P Require Export GoLib.

(** ** [sort.Search] *)

Fixpoint search_aux (f : Z → bool) (fuel : nat) (i j : Z) : Z :=
  match fuel with
  | O => i
  | S fuel => if i <? j then
                let h := Z.shiftr (i + j) 1 in
                if f h then search_aux f fuel i h else search_aux f fuel (h + 1) j
              else i
  end.
Definition sort_Search (n : Z) (f : Z → bool) : Z := search_aux f (Z.to_nat n) 0 n.

Lemma search_aux_spec f fuel i j :
  (∀ a b, a <= b → f a = true → f b = true) →
  0 <= i <= j → j - i <= Z.of_nat fuel →
  let k := search_aux f fuel i j in
  i <= k <= j ∧ (∀ x, i <= x < k → f x = false) ∧ (∀ x, k <= x < j → f x = true).
Proof.
  intros Hf. revert i j. induction fuel as [|fuel IH]; intros i j Hij Hn; cbn -[Z.of_nat Z.shiftr].
  { split_and!; lia. }
  destruct (Z.ltb_spec i j); [|split_and!; lia].
  rewrite Z.shiftr_div_pow2 by lia. change (2 ^ 1) with 2. set (h := (i + j) / 2).
  assert (i <= h < j) as Hh by (unfold h; split; [apply Z.div_le_lower_bound | apply Z.div_lt_upper_bound]; lia).
  destruct (f h) eqn:E.
  - destruct (IH i h) as (Hk & Hlo & Hhi); [lia..|]. split_and!; [lia | lia | exact Hlo |].
    intros x Hx. destruct (Z.lt_ge_cases x h); [apply Hhi; lia | by apply (Hf h)].
  - destruct (IH (h + 1) j) as (Hk & Hlo & Hhi); [lia..|]. split_and!; [lia | lia | | exact Hhi].
    intros x Hx. destruct (Z.lt_ge_cases h x); [apply Hlo; lia|].
    destruct (f x) eqn:Ex; [|done]. rewrite (Hf x h) in E; [done | lia | done].
Qed.

Lemma sort_Search_spec n f :
  0 <= n → (∀ a b, a <= b → f a = true → f b = true) →
  let k := sort_Search n f in
  0 <= k <= n ∧ (∀ x, 0 <= x < k → f x = false) ∧ (∀ x, k <= x < n → f x = true).
Proof. intros Hn Hf. apply search_aux_spec; [done | lia | lia]. Qed.

(** ** Data *)

Record Handler := { h_ch : Z; h_id : nat }.
#[export] Instance Handler_eq_dec : EqDecision Handler.
Proof. solve_decision. Defined.

Record HandlerList := { hl_version : nat; hl_list : list Handler }.
Inductive Case := CaseStop | CaseWake | CaseHandler (ch : Z).

(** Where the goroutine of [Run] is. *)
Inductive Pc := Top | Blocked | Stopped | Panicked.

(** [lp_unwoken] counts the calls of [Add] and [RemoveByChannels] that have
    stored their list and not yet woken the loop. *)
Record Loop := {
  lp_handlers : option HandlerList;
  lp_next : nat;
  lp_wake : bool;
  lp_unwoken : nat;
  lp_pc : Pc;
  lp_last : option HandlerList;
  lp_cases : list Case;
  lp_trace : list (Handler * bool) }.

Definition handlers_of (h : option HandlerList) : list Handler :=
  match h with Some hl => hl_list hl | None => [] end.

(** ** Operations *)

Definition store (l : list Handler) (s : Loop) : Loop :=
  {| lp_handlers := Some {| hl_version := lp_next s; hl_list := l |}; lp_next := S (lp_next s);
     lp_wake := lp_wake s; lp_unwoken := lp_unwoken s; lp_pc := lp_pc s; lp_last := lp_last s;
     lp_cases := lp_cases s; lp_trace := lp_trace s |}.
Definition set_wake (wake : bool) (unwoken : nat) (s : Loop) : Loop :=
  {| lp_handlers := lp_handlers s; lp_next := lp_next s; lp_wake := wake; lp_unwoken := unwoken;
     lp_pc := lp_pc s; lp_last := lp_last s; lp_cases := lp_cases s; lp_trace := lp_trace s |}.
Definition set_pc (pc : Pc) (s : Loop) : Loop :=
  {| lp_handlers := lp_handlers s; lp_next := lp_next s; lp_wake := lp_wake s;
     lp_unwoken := lp_unwoken s; lp_pc := pc; lp_last := lp_last s; lp_cases := lp_cases s;
     lp_trace := lp_trace s |}.
Definition set_cases (last : option HandlerList) (cases : list Case) (s : Loop) : Loop :=
  {| lp_handlers := lp_handlers s; lp_next := lp_next s; lp_wake := lp_wake s;
     lp_unwoken := lp_unwoken s; lp_pc := lp_pc s; lp_last := last; lp_cases := cases;
     lp_trace := lp_trace s |}.
Definition dispatch (h : Handler) (closed : bool) (s : Loop) : Loop :=
  {| lp_handlers := lp_handlers s; lp_next := lp_next s; lp_wake := lp_wake s;
     lp_unwoken := lp_unwoken s; lp_pc := lp_pc s; lp_last := lp_last s; lp_cases := lp_cases s;
     lp_trace := lp_trace s ++ [(h, closed)] |}.

(** The successful iteration of the compare-and-swap loop of [Add]. *)
Definition Add (h : list Handler) (s : Loop) : Loop := store (handlers_of (lp_handlers s) ++ h) s.

Section Remove.
Context `{!GoSort}.

(** The test of [removeByChannels] on the sorted channels. *)
Definition in_sorted (ch : list Z) (p : Z) : bool :=
  let i := sort_Search (Z.of_nat (length ch))
             (fun i => match ch !! Z.to_nat i with Some c => c >=? p | None => true end) in
  match ch !! Z.to_nat i with Some c => c =? p | None => false end.
Definition remove_handlers (ch : list Z) (l : list Handler) : list Handler :=
  let ch := sort_slice (fun a b => a <? b) ch in
  List.filter (fun h => negb (in_sorted ch (h_ch h))) l.
Definition removeByChannels (ch : list Z) (s : Loop) : Loop :=
  store (remove_handlers ch (handlers_of (lp_handlers s))) s.
Definition Wake (s : Loop) : Loop := set_wake true (pred (lp_unwoken s)) s.

Definition getCases (s : Loop) : Loop :=
  if bool_decide (hl_version <$> lp_handlers s = hl_version <$> lp_last s) then s
  else match lp_handlers s with
       | None => set_pc Panicked s
       | Some hl => set_cases (Some hl)
                      (CaseStop :: CaseWake :: ((fun h => CaseHandler (h_ch h)) <$> hl_list hl)) s
       end.

(** The body of the loop after [reflect.Select] returned [(idx, _, ok)]. *)
Definition select (idx : nat) (ok : bool) (s : Loop) : Loop :=
  match idx with
  | O => set_pc Stopped s
  | 1%nat => set_pc Top (set_wake false (lp_unwoken s) s)
  | S (S i) =>
      match handlers_of (lp_last s) !! i with
      | None => set_pc Panicked s
      | Some h =>
          if ok then set_pc Top (dispatch h false s)
          else set_pc Top (dispatch h true (removeByChannels [h_ch h] s))
      end
  end.

(** The start of [Run]. *)
Definition Run_start (s : Loop) : Loop :=
  set_pc Top (getCases (set_cases None [CaseStop; CaseWake] s)).

Definition New : Loop :=
  {| lp_handlers := None; lp_next := 0; lp_wake := false; lp_unwoken := 0; lp_pc := Stopped;
     lp_last := None; lp_cases := []; lp_trace := [] |}.

Inductive Label := LAdd (h : list Handler) | LRemove (ch : list Z) | LWake | LGetCases
                 | LSelect (idx : nat) (ok : bool).

(** Any goroutine may call [Add] and [RemoveByChannels] at any time, and wakes
    the loop at some time after it; the wake case of the select is ready when
    the wake channel holds its token. *)
Inductive step : Loop → Label → Loop → Prop :=
  | step_add h s : step s (LAdd h) (set_wake (lp_wake s) (S (lp_unwoken s)) (Add h s))
  | step_remove ch s :
      step s (LRemove ch) (set_wake (lp_wake s) (S (lp_unwoken s)) (removeByChannels ch s))
  | step_wake s : (0 < lp_unwoken s)%nat → step s LWake (Wake s)
  | step_getCases s :
      lp_pc s = Top →
      step s LGetCases (match lp_pc (getCases s) with
                        | Panicked => getCases s | _ => set_pc Blocked (getCases s) end)
  | step_select idx ok s :
      lp_pc s = Blocked → (idx < length (lp_cases s))%nat → (idx = 1%nat → lp_wake s = true) →
      step s (LSelect idx ok) (select idx ok s).

(** ** Properties *)

Lemma in_sorted_spec ch p :
  Sorted (fun a b => a <= b) ch → in_sorted ch p = bool_decide (p ∈ ch).
Proof.
  intros Hs. apply Sorted_StronglySorted in Hs; [|intros ???; lia].
  assert (∀ i j a b, ch !! i = Some a → ch !! j = Some b → (i <= j)%nat → a <= b) as Hmono.
  { intros i j a b Hi Hj Hij. destruct (decide (i = j)) as [->|]; [naive_solver lia|].
    apply (StronglySorted_app_1_elem_of (fun a b => a <= b) (take j ch) (drop j ch)).
    - by rewrite take_drop.
    - apply (list_elem_of_lookup_2 _ i). rewrite lookup_take_lt by lia. done.
    - apply (list_elem_of_lookup_2 _ O). rewrite lookup_drop, Nat.add_0_r. done. }
  unfold in_sorted.
  set (f := fun i => match ch !! Z.to_nat i with Some c => c >=? p | None => true end).
  destruct (sort_Search_spec (Z.of_nat (length ch)) f) as (Hk & Hlo & Hhi); [lia | |].
  { intros a b Hab. unfold f. destruct (ch !! Z.to_nat b) as [cb|] eqn:Hb; [|done].
    destruct (ch !! Z.to_nat a) as [ca|] eqn:Ha.
    - rewrite !Z.geb_leb, !Z.leb_le. pose proof (Hmono _ _ _ _ Ha Hb). lia.
    - apply lookup_ge_None in Ha. apply lookup_lt_Some in Hb. lia. }
  cbv zeta in Hk, Hlo, Hhi. set (k := sort_Search (Z.of_nat (length ch)) f) in *.
  destruct (ch !! Z.to_nat k) as [c|] eqn:Hc.
  - pose proof (lookup_lt_Some _ _ _ Hc) as Hlt.
    assert (p <= c) as Hpc.
    { specialize (Hhi k ltac:(lia)). unfold f in Hhi. rewrite Hc, Z.geb_leb, Z.leb_le in Hhi. done. }
    destruct (Z.eqb_spec c p) as [->|Hne]; [symmetry; apply bool_decide_true; by eapply list_elem_of_lookup_2|].
    symmetry. apply bool_decide_false. intros [i Hi]%list_elem_of_lookup.
    destruct (Nat.lt_ge_cases i (Z.to_nat k)).
    + specialize (Hlo (Z.of_nat i) ltac:(lia)). unfold f in Hlo.
      rewrite Nat2Z.id, Hi, Z.geb_leb, Z.leb_gt in Hlo. lia.
    + pose proof (Hmono _ _ _ _ Hc Hi). lia.
  - symmetry. apply bool_decide_false. intros [i Hi]%list_elem_of_lookup.
    apply lookup_ge_None in Hc. pose proof (lookup_lt_Some _ _ _ Hi).
    specialize (Hlo (Z.of_nat i) ltac:(lia)). unfold f in Hlo.
    rewrite Nat2Z.id, Hi, Z.geb_leb, Z.leb_gt in Hlo. lia.
Qed.

(** Removing handlers: sorting the channels and searching them by bisection
    is the same as dropping every handler whose channel is one of the arguments;
    the others stay in their order. *)
Theorem remove_handlers_filter ch l :
  remove_handlers ch l = List.filter (fun h => negb (bool_decide (h_ch h ∈ ch))) l.
Proof.
  unfold remove_handlers. induction l as [|h l IH]; simpl; [done|]. rewrite IH, in_sorted_spec.
  - rewrite (bool_decide_ext _ (h_ch h ∈ ch)); [done|]. by rewrite sort_slice_perm.
  - apply (sort_slice_sorted Z id).
Qed.

(** What holds of a running loop. *)
Record Inv (s : Loop) : Prop := {
  inv_pc : lp_pc s ≠ Panicked;
  inv_fresh : ∀ hl, lp_handlers s = Some hl → (hl_version hl < lp_next s)%nat;
  inv_last : ∀ hl, lp_last s = Some hl →
    ∃ hl', lp_handlers s = Some hl' ∧ (hl_version hl <= hl_version hl')%nat ∧
           (hl_version hl = hl_version hl' → hl = hl');
  inv_cases : lp_pc s ≠ Stopped →
    lp_cases s = CaseStop :: CaseWake ::
                 ((fun h => CaseHandler (h_ch h)) <$> handlers_of (lp_last s));
  inv_awake : lp_pc s = Blocked → hl_version <$> lp_handlers s ≠ hl_version <$> lp_last s →
    lp_wake s = true ∨ (0 < lp_unwoken s)%nat }.

Lemma Inv_store l s : Inv s →
  Inv (set_wake (lp_wake s) (S (lp_unwoken s)) (store l s)).
Proof.
  intros [Hpc Hfr Hla Hca Haw]. split; simpl; auto; [| |by right; lia].
  - intros hl [= <-]. simpl. lia.
  - intros hl Hl. destruct (Hla hl Hl) as (hl' & Hh & Hle & _). eexists. split; [done|]. simpl.
    specialize (Hfr _ Hh). split; [lia|]. intros. lia.
Qed.
(** The loop's own removal does not wake it: the next iteration reads the list. *)
Lemma Inv_select idx ok s :
  Inv s → lp_pc s = Blocked → (idx < length (lp_cases s))%nat → Inv (select idx ok s).
Proof.
  intros [Hpc Hfr Hla Hca Haw] Hb Hidx. rewrite Hca in Hidx by congruence.
  destruct idx as [|[|i]]; simpl.
  - split; simpl; try done.
  - split; simpl; try done. intros _. apply Hca. congruence.
  - simpl in Hidx. rewrite length_fmap in Hidx.
    destruct (lookup_lt_is_Some_2 (handlers_of (lp_last s)) i) as [h Hh]; [lia|]. rewrite Hh.
    destruct ok.
    + split; simpl; try done. intros _. apply Hca. congruence.
    + split; simpl; try done.
      * intros hl [= <-]. simpl. lia.
      * intros hl Hl. destruct (Hla hl Hl) as (hl' & Hh' & Hle & _). eexists. split; [done|]. simpl.
        specialize (Hfr _ Hh'). split; [lia|]. intros. lia.
      * intros _. apply Hca. congruence.
Qed.

Lemma Inv_getCases s :
  Inv s → lp_pc s = Top →
  lp_pc (getCases s) = Top ∧ Inv (set_pc Blocked (getCases s)).
Proof.
  intros [Hpc Hfr Hla Hca Haw] Ht. unfold getCases. case_bool_decide as E.
  - split; [done|]. split; simpl; try done. intros _. apply Hca. congruence.
  - destruct (lp_handlers s) as [hl|] eqn:Eh.
    + split; [done|]. split; simpl; rewrite ?Eh; try done.
      intros hl0 [= <-]. eauto.
    + destruct (lp_last s) as [hl|] eqn:El; [|done].
      destruct (Hla hl eq_refl) as (hl' & ? & _). done.
Qed.

Lemma loop_Inv_step s l s' : Inv s → step s l s' → Inv s'.
Proof.
  intros HI Hs. destruct Hs as [h s|ch s|s Hu|s Ht|idx ok s Hb Hidx _].
  - by apply Inv_store.
  - by apply Inv_store.
  - destruct HI. unfold Wake. split; simpl; auto.
  - destruct (Inv_getCases s HI Ht) as [-> ?]. done.
  - by apply Inv_select.
Qed.

(** Handlers added and removed before [Run]. *)
Definition idle (s : Loop) : Prop :=
  lp_pc s = Stopped ∧ (∀ hl, lp_handlers s = Some hl → (hl_version hl < lp_next s)%nat).
Lemma Inv_Run_start s : idle s → Inv (Run_start s).
Proof.
  intros [Hpc Hfr]. unfold Run_start, getCases. simpl. destruct (lp_handlers s) as [hl|] eqn:Eh.
  - rewrite bool_decide_false by done. split; simpl; rewrite ?Eh; try done; eauto.
  - rewrite bool_decide_true by done. by split; simpl; rewrite ?Eh.
Qed.

(** C28 The loop is safe and never misses a wake-up: in every state the running
    loop reaches, with other goroutines adding and removing handlers at any time,
    the index of a selected case is that of a handler, so the loop does not
    panic; and when it is blocked on an outdated list of handlers, the wake
    channel holds a token, or the call that changed the list is still about to
    send one. *)
Theorem loop_invariant s ls s' :
  idle s → runs step (Run_start s) ls s' →
  lp_pc s' ≠ Panicked ∧
  (lp_pc s' = Blocked → hl_version <$> lp_handlers s' ≠ hl_version <$> lp_last s' →
   lp_wake s' = true ∨ (0 < lp_unwoken s')%nat).
Proof.
  intros Hi Hr. assert (Inv s') as [] by (eapply (runs_invariant _ Inv loop_Inv_step); [exact Hr|];
    by apply Inv_Run_start). done.
Qed.

(** Dispatch: an iteration that found the list of handlers [l] calls at most
    one handler, and it is one of [l]; when its channel was closed, exactly the
    handlers of that channel are removed. *)
Theorem select_dispatches s idx ok :
  Inv s → lp_pc s = Top → (idx < 2 + length (handlers_of (lp_handlers s)))%nat →
  let s' := select idx ok (getCases s) in
  lp_trace s' = lp_trace s ∨
  ∃ h, h ∈ handlers_of (lp_handlers s) ∧ lp_trace s' = lp_trace s ++ [(h, negb ok)] ∧
       (ok = false → ∀ h', h' ∈ handlers_of (lp_handlers s') ↔
                            h' ∈ handlers_of (lp_handlers s) ∧ h_ch h' ≠ h_ch h).
Proof.
  intros HI Ht Hidx. destruct (Inv_getCases s HI Ht) as [Hpc HI'].
  assert (lp_trace (getCases s) = lp_trace s ∧ lp_handlers (getCases s) = lp_handlers s ∧
          handlers_of (lp_last (getCases s)) = handlers_of (lp_handlers s)) as (Htr & Hh & Hl).
  { unfold getCases in *. case_bool_decide as E.
    - split_and!; try done. destruct (lp_handlers s) as [hl|] eqn:Eh, (lp_last s) as [hl0|] eqn:El;
        simplify_eq/=; [|done]. destruct (inv_last _ HI _ El) as (hl' & Eh' & _ & Hv).
      rewrite Eh in Eh'. injection Eh' as <-. by rewrite Hv.
    - destruct (lp_handlers s) as [hl|] eqn:Eh; [by simpl; rewrite ?Eh | discriminate Hpc]. }
  destruct idx as [|[|i]]; simpl; [by left | by left|]. right. rewrite Hl.
  destruct (lookup_lt_is_Some_2 (handlers_of (lp_handlers s)) i) as [h Hi]; [lia|]. rewrite Hi.
  exists h. split; [by eapply list_elem_of_lookup_2|]. destruct ok; simpl; rewrite ?Htr; [by split|].
  split; [done|]. intros _ h'. rewrite Hh, remove_handlers_filter, !list_elem_of_In, filter_In.
  rewrite negb_true_iff, bool_decide_eq_false. rewrite <- list_elem_of_In. set_solver.
Qed.
End Remove.

Example loop_example :
  let hs := [{| h_ch := 30; h_id := 1 |}; {| h_ch := 10; h_id := 2 |}; {| h_ch := 20; h_id := 3 |}] in
  remove_handlers [20; 30] hs = [{| h_ch := 10; h_id := 2 |}] ∧
  remove_handlers [15] hs = hs.
Proof. vm_compute. done. Qed.

(** A loop with two handlers: the second one's channel is closed while a third
    handler is added. *)
Definition ex_loop : Loop := Add [{| h_ch := 10; h_id := 1 |}; {| h_ch := 20; h_id := 2 |}] New.
Definition ex_loop_1 : Loop :=
  set_wake false 1 (Add [{| h_ch := 30; h_id := 3 |}] (set_pc Blocked (getCases (Run_start ex_loop)))).
Definition ex_loop_2 : Loop := select 3 false ex_loop_1.
Lemma ex_loop_idle : idle ex_loop.
Proof. split; [done|]. intros hl [= <-]. simpl. lia. Qed.
Lemma loop_invariant_witness :
  lp_pc ex_loop_1 = Blocked ∧ lp_unwoken ex_loop_1 = 1%nat ∧
  (lp_pc ex_loop_1 = Blocked →
   hl_version <$> lp_handlers ex_loop_1 ≠ hl_version <$> lp_last ex_loop_1 →
   lp_wake ex_loop_1 = true ∨ (0 < lp_unwoken ex_loop_1)%nat).
Proof.
  split; [reflexivity|]. split; [reflexivity|].
  apply (loop_invariant ex_loop [LGetCases; LAdd [{| h_ch := 30; h_id := 3 |}]] ex_loop_1).
  - apply ex_loop_idle.
  - eapply runs_cons; [by apply step_getCases|]. eapply runs_cons; [apply step_add|].
    apply runs_nil.
Defined.
Lemma select_dispatches_witness :
  lp_trace (select 3 false (getCases (Run_start ex_loop))) = [({| h_ch := 20; h_id := 2 |}, true)] ∧
  (lp_trace (select 3 false (getCases (Run_start ex_loop))) = lp_trace (Run_start ex_loop) ∨
   ∃ h, h ∈ handlers_of (lp_handlers (Run_start ex_loop)) ∧
     lp_trace (select 3 false (getCases (Run_start ex_loop))) =
       lp_trace (Run_start ex_loop) ++ [(h, true)] ∧
     (false = false → ∀ h',
        h' ∈ handlers_of (lp_handlers (select 3 false (getCases (Run_start ex_loop)))) ↔
        h' ∈ handlers_of (lp_handlers (Run_start ex_loop)) ∧ h_ch h' ≠ h_ch h)).
Proof.
  split; [reflexivity|].
  apply (select_dispatches (Run_start ex_loop) 3 false);
    [apply Inv_Run_start, ex_loop_idle | reflexivity | simpl; lia].
Defined.
