(* ===== verification/SecSchema.v ===== *)
(** * SecSchema: the security resources

    [src/schema/acl], [src/schema/pstat], [src/schema/doxm],
    [src/schema/credential], [src/schema/csr]: the representations that the
    ownership transfer and the provisioning exchange, and the printing of their
    flag sets. *)

From S2P Require Export GoLib.

(** ** Printing of flags *)

(** [%v] of a signed integer. *)
Definition format_int (z : Z) : string :=
  if z <? 0 then "-" +:+ format_uint (- z) else format_uint z.

(** One [if c.Has(flag) { res = append(res, name); c &^= flag }]. *)
Definition flag_step (st : list string * Z) (f : Z * string) : list string * Z :=
  let '(res, c) := st in
  if negb (Z.land c f.1 =? 0) then (res ++ [f.2], and_not c f.1) else (res, c).
Definition flags_text (table : list (Z * string)) (c : Z) : string :=
  let '(res, c) := foldl flag_step ([], c) table in
  join (if c =? 0 then res else res ++ ["unknown(" +:+ format_int c +:+ ")"]) "|".

(** *** [schema/credential] *)

Definition CredentialType_EMPTY : Z := 0.
Definition CredentialType_ASYMMETRIC_SIGNING_WITH_CERTIFICATE : Z := 8.
Definition CredentialType_table : list (Z * string) :=
  [(1, "SYMMETRIC_PAIR_WISE"); (2, "SYMMETRIC_GROUP"); (4, "ASYMMETRIC_SIGNING");
   (8, "ASYMMETRIC_SIGNING_WITH_CERTIFICATE"); (16, "PIN_OR_PASSWORD");
   (32, "ASYMMETRIC_ENCRYPTION_KEY")].
Definition CredentialType_String (c : Z) : string :=
  if c =? CredentialType_EMPTY then "EMPTY" else flags_text CredentialType_table c.
Definition CredentialType_Has (c flag : Z) : bool := negb (Z.land c flag =? 0).

Definition CredentialUsage_TRUST_CA : string := "oic.sec.cred.trustca".
Definition CredentialUsage_CERT : string := "oic.sec.cred.cert".
Definition CredentialUsage_MFG_TRUST_CA : string := "oic.sec.cred.mfgtrustca".
Definition CredentialUsage_MFG_CERT : string := "oic.sec.cred.mfgcert".

(** The dynamic type of an [interface{}] that holds certificate or key data. *)
Inductive DataValue := DataNil | DataString (s : string) | DataBytes (s : string) | DataOther.
Definition toByte (v : DataValue) : option string :=
  match v with DataString s | DataBytes s => Some s | DataNil | DataOther => None end.

Record CredentialOptionalData := {
  opt_DataInternal : DataValue; opt_Encoding : string; opt_IsRevoked : bool }.
Definition CredentialOptionalData_Data (c : CredentialOptionalData) : option string :=
  toByte (opt_DataInternal c).
Record CredentialPrivateData := {
  priv_DataInternal : DataValue; priv_Encoding : string; priv_Handle : Z }.
Definition CredentialPrivateData_Data (c : CredentialPrivateData) : option string :=
  toByte (priv_DataInternal c).
Record CredentialPublicData := { pub_DataInternal : DataValue; pub_Encoding : string }.
Definition CredentialPublicData_Data (c : CredentialPublicData) : option string :=
  toByte (pub_DataInternal c).

Record CredentialRoleID := { role_Authority : string; role_Role : string }.

Record Credential := {
  cred_ID : Z; cred_Type : Z; cred_Subject : string; cred_Usage : string;
  cred_SupportedRefreshMethods : list string; cred_OptionalData : option CredentialOptionalData;
  cred_Period : string; cred_PrivateData : option CredentialPrivateData;
  cred_PublicData : option CredentialPublicData; cred_RoleID : option CredentialRoleID;
  cred_Tag : string }.
Definition set_cred_ID (id : Z) (c : Credential) : Credential :=
  {| cred_ID := id; cred_Type := cred_Type c; cred_Subject := cred_Subject c;
     cred_Usage := cred_Usage c; cred_SupportedRefreshMethods := cred_SupportedRefreshMethods c;
     cred_OptionalData := cred_OptionalData c; cred_Period := cred_Period c;
     cred_PrivateData := cred_PrivateData c; cred_PublicData := cred_PublicData c;
     cred_RoleID := cred_RoleID c; cred_Tag := cred_Tag c |}.
Definition set_cred_PrivateData (d : option CredentialPrivateData) (c : Credential) : Credential :=
  {| cred_ID := cred_ID c; cred_Type := cred_Type c; cred_Subject := cred_Subject c;
     cred_Usage := cred_Usage c; cred_SupportedRefreshMethods := cred_SupportedRefreshMethods c;
     cred_OptionalData := cred_OptionalData c; cred_Period := cred_Period c;
     cred_PrivateData := d; cred_PublicData := cred_PublicData c;
     cred_RoleID := cred_RoleID c; cred_Tag := cred_Tag c |}.

Record CredentialResponse := {
  crsp_ResourceOwner : string; crsp_Interfaces : list string; crsp_ResourceTypes : list string;
  crsp_Name : string;  crsp_Credentials : list Credential }.
Record CredentialUpdateRequest := {
  cupd_ResourceOwner : string; cupd_Credentials : list Credential }.

(** *** [schema/acl] *)

Definition Permission_table : list (Z * string) :=
  [(1, "CREATE"); (2, "READ"); (4, "WRITE"); (8, "DELETE"); (16, "NOTIFY")].
Definition AllPermissions : Z := 31.
Definition Permission_String (p : Z) : string := flags_text Permission_table p.
Definition Permission_Has (p flag : Z) : bool := negb (Z.land p flag =? 0).

Record AclResource := {
  acl_Href : string; acl_Interfaces : list string; acl_ResourceTypes : list string;
  acl_Wildcard : string }.
Definition ConnectionType_AUTH_CRYPT : string := "auth-crypt".
Record Subject_Device := { subj_DeviceID : string }.
Record Subject_Role := { subj_Authority : string; subj_Role : string }.
Record Subject_Connection := { subj_Type : string }.
(** The embedded pointers. *)
Record Subject := {
  Subject_device : option Subject_Device; Subject_role : option Subject_Role;
  Subject_connection : option Subject_Connection }.
Definition TLSConnection : Subject :=
  {| Subject_device := None; Subject_role := None;
     Subject_connection := Some {| subj_Type := ConnectionType_AUTH_CRYPT |} |}.
Record TimePattern := { tp_Period : string; tp_Recurrence : string }.
Record AccessControl := {
  ace_ID : Z; ace_Permission : Z; ace_Resources : list AclResource; ace_Subject : Subject;
  ace_Tag : string; ace_Validity : list TimePattern }.
Definition AllResources : list AclResource :=
  [{| acl_Href := ""; acl_Interfaces := ["*"]; acl_ResourceTypes := []; acl_Wildcard := "*" |}].
Record AclUpdateRequest := { acl_ResourceOwner : string; AccessControlList : list AccessControl }.

(** *** [schema/pstat] *)

Definition OperationalState_RESET : Z := 0.
Definition OperationalState_RFOTM : Z := 1.
Definition OperationalState_RFPRO : Z := 2.
Definition OperationalState_RFNOP : Z := 3.
Definition OperationalState_SRESET : Z := 4.
Definition OperationalState_String (s : Z) : string :=
  if s =? OperationalState_RESET then "RESET"
  else if s =? OperationalState_RFOTM then "RFOTM"
  else if s =? OperationalState_RFPRO then "RFPRO"
  else if s =? OperationalState_RFNOP then "RFNOP"
  else if s =? OperationalState_SRESET then "SRESET"
  else "unknown " +:+ format_int s.

Definition OperationalMode_SERVER_DIRECTED_UTILIZING_MULTIPLE_SERVICES : Z := 1.
Definition OperationalMode_SERVER_DIRECTED_UTILIZING_SINGLE_SERVICE : Z := 2.
Definition OperationalMode_CLIENT_DIRECTED : Z := 4.
Definition OperationalMode_table : list (Z * string) :=
  [(1, "SERVER_DIRECTED_UTILIZING_MULTIPLE_SERVICES");
   (2, "SERVER_DIRECTED_UTILIZING_SINGLE_SERVICE"); (4, "CLIENT_DIRECTED")].
Definition OperationalMode_String (m : Z) : string := flags_text OperationalMode_table m.
Definition OperationalMode_Has (m flag : Z) : bool := negb (Z.land m flag =? 0).

Definition ProvisioningMode_table : list (Z * string) :=
  [(64, "INIT_SOFT_VER_VALIDATION"); (128, "INIT_SEC_SOFT_UPDATE")].
Definition ProvisioningMode_String (m : Z) : string := flags_text ProvisioningMode_table m.
Definition ProvisioningMode_Has (m flag : Z) : bool := negb (Z.land m flag =? 0).

Record DeviceOnboardingState := { dos_Pending : bool; dos_State : Z }.
Record ProvisionStatusResponse := {
  ps_ResourceOwner : string; ps_Interfaces : list string; ps_ResourceTypes : list string;
  ps_CurrentOperationalMode : Z; ps_CurrentProvisioningMode : Z; ps_Name : string;
  ps_InstanceID : string; ps_DeviceIsOperational : bool; ps_TargetProvisioningMode : Z;
  ps_SupportedOperationalModes : Z; ps_DeviceOnboardingState : DeviceOnboardingState }.
Record ProvisionStatusUpdateRequest := {
  psu_ResourceOwner : string; psu_CurrentOperationalMode : Z; psu_TargetProvisioningMode : Z;
  psu_DeviceOnboardingState : option DeviceOnboardingState }.

(** *** [schema/doxm] *)

Definition OwnerTransferMethod := Z.
Definition JustWorks : OwnerTransferMethod := 0.
Definition SharedPin : OwnerTransferMethod := 1.
Definition ManufacturerCertificate : OwnerTransferMethod := 2.
Definition Self : OwnerTransferMethod := 4.
Definition OwnerTransferMethod_String (o : OwnerTransferMethod) : string :=
  if o =? JustWorks then "JustWorks"
  else if o =? SharedPin then "SharedPin"
  else if o =? ManufacturerCertificate then "ManufacturerCertificate"
  else if o =? Self then "Self"
  else "unknown " +:+ format_int o.

Record Doxm := {
  doxm_ResourceOwner : string; doxm_SupportedOwnerTransferMethods : list OwnerTransferMethod;
  doxm_OwnerID : string; doxm_DeviceID : string; doxm_Owned : bool; doxm_Name : string;
  doxm_InstanceID : string; doxm_SupportedCredentialTypes : Z;
  doxm_SelectedOwnerTransferMethod : OwnerTransferMethod; doxm_Interfaces : list string;
  doxm_ResourceTypes : list string }.
Record DoxmUpdate := {
  dupd_ResourceOwner : option string; dupd_OwnerID : option string; dupd_DeviceID : option string;
  dupd_Owned : option bool; dupd_SelectOwnerTransferMethod : option OwnerTransferMethod }.

(** *** [schema/csr] *)

Record CertificateSigningRequestResponse := {
  csr_Interfaces : list string; csr_ResourceTypes : list string; csr_Name : string;
  csr_InstanceID : string; csr_Encoding : string; CertificateSigningRequest : DataValue }.
Definition CSR (c : CertificateSigningRequestResponse) : option string :=
  match CertificateSigningRequest c with
  | DataNil => None | DataString s => Some s | DataBytes s => Some s | DataOther => None
  end.

(** ** Properties *)

(** The union of the flags of a table. *)
Definition mask_of (table : list (Z * string)) : Z := foldr (fun f m => Z.lor f.1 m) 0 table.
Fixpoint flags_disjoint (table : list (Z * string)) : bool :=
  match table with
  | [] => true
  | f :: t => (Z.land f.1 (mask_of t) =? 0) && flags_disjoint t
  end.

Lemma and_not_land c f g : Z.land f g = 0 → Z.land (and_not c f) g = Z.land c g.
Proof.
  intros H. unfold and_not. apply Z.bits_inj'. intros n Hn. rewrite !Z.land_spec, Z.ldiff_spec.
  pose proof (f_equal (fun x => Z.testbit x n) H) as Hb. simpl in Hb.
  rewrite Z.land_spec, Z.bits_0 in Hb. destruct (Z.testbit c n), (Z.testbit f n), (Z.testbit g n); done.
Qed.
Lemma and_not_lor c f g : and_not (and_not c f) g = and_not c (Z.lor f g).
Proof.
  unfold and_not. apply Z.bits_inj'. intros n Hn. rewrite !Z.ldiff_spec, Z.lor_spec.
  destruct (Z.testbit c n), (Z.testbit f n), (Z.testbit g n); done.
Qed.
Lemma and_not_zero c f : Z.land c f = 0 → and_not c f = c.
Proof.
  intros H. unfold and_not. apply Z.bits_inj'. intros n Hn. rewrite Z.ldiff_spec.
  pose proof (f_equal (fun x => Z.testbit x n) H) as Hb. simpl in Hb.
  rewrite Z.land_spec, Z.bits_0 in Hb. destruct (Z.testbit c n), (Z.testbit f n); done.
Qed.

Lemma mask_of_elem f g table : g ∈ table → Z.land f (mask_of table) = 0 → Z.land f g.1 = 0.
Proof.
  induction table as [|h t IH]; [by intros ?%elem_of_nil|].
  intros Hg Hm. simpl in Hm. rewrite Z.land_lor_distr_r in Hm. apply Z.lor_eq_0_iff in Hm as [Hh Ht].
  apply elem_of_cons in Hg as [->|Hg]; [done | by apply IH].
Qed.

Definition set_flags (table : list (Z * string)) (c : Z) : list string :=
  snd <$> List.filter (fun f => negb (Z.land c f.1 =? 0)) table.

Lemma set_flags_cons f t c :
  set_flags (f :: t) c = (if Z.land c f.1 =? 0 then [] else [f.2]) ++ set_flags t c.
Proof. unfold set_flags. cbn [List.filter]. by destruct (Z.land c f.1 =? 0). Qed.

Lemma set_flags_ext table c d :
  (∀ f, f ∈ table → Z.land c f.1 = Z.land d f.1) → set_flags table c = set_flags table d.
Proof.
  induction table as [|f t IH]; intros H; [done|]. rewrite !set_flags_cons, (H f) by set_solver.
  f_equal. apply IH. set_solver.
Qed.

Lemma flag_steps table res c :
  flags_disjoint table = true →
  foldl flag_step (res, c) table = (res ++ set_flags table c, and_not c (mask_of table)).
Proof.
  revert res c. induction table as [|f t IH]; intros res c Hd.
  - simpl. by rewrite app_nil_r, and_not_zero by apply Z.land_0_r.
  - simpl in Hd. apply andb_true_iff in Hd as [Hf Hd]. apply Z.eqb_eq in Hf.
    cbn [foldl]. unfold flag_step at 2. rewrite set_flags_cons.
    destruct (Z.eqb_spec (Z.land c f.1) 0) as [E|E]; cbn [negb]; rewrite IH by done.
    + f_equal. cbn [mask_of foldr]. rewrite <- and_not_lor. by rewrite (and_not_zero c f.1).
    + rewrite <- app_assoc. f_equal; [|apply and_not_lor]. do 2 f_equal.
      apply set_flags_ext. intros g Hg. apply and_not_land. by apply (mask_of_elem _ _ t).
Qed.

(** The specification of a printed flag set: the names of the flags that are set,
    in the order of the table, then the bits that are not in the table. *)
Definition flags_spec (table : list (Z * string)) (c : Z) : string :=
  let rest := Z.ldiff c (mask_of table) in
  join (set_flags table c ++ (if rest =? 0 then [] else ["unknown(" +:+ format_int rest +:+ ")"])) "|".

(** Printing of the flag sets of the security resources: the text names exactly
    the flags that are set, in ascending order, followed by one number with all the
    bits the table does not know. *)
Theorem flags_String_spec c :
  CredentialType_String c = (if c =? 0 then "EMPTY" else flags_spec CredentialType_table c) ∧
  Permission_String c = flags_spec Permission_table c ∧
  OperationalMode_String c = flags_spec OperationalMode_table c ∧
  ProvisioningMode_String c = flags_spec ProvisioningMode_table c.
Proof.
  assert (∀ table, flags_disjoint table = true → flags_text table c = flags_spec table c) as H.
  { intros table Hd. unfold flags_text, flags_spec. rewrite flag_steps by done. simpl.
    unfold and_not. destruct (_ =? 0); [by rewrite app_nil_r | done]. }
  unfold CredentialType_String, Permission_String, OperationalMode_String, ProvisioningMode_String.
  by rewrite !H.
Qed.

Example flags_String_example :
  CredentialType_String 72 = "ASYMMETRIC_SIGNING_WITH_CERTIFICATE|unknown(64)" ∧
  Permission_String AllPermissions = "CREATE|READ|WRITE|DELETE|NOTIFY" ∧
  OperationalState_String 3 = "RFNOP" ∧ OwnerTransferMethod_String 3 = "unknown 3".
Proof. vm_compute. done. Qed.
