(* ===== verification/Reps.v ===== *)
(** * Reps: representations of resources

    The representations that the bridge and the client exchange besides the security
    resources, with their operations: [src/schema/device], [platform], [maintenance],
    [softwareupdate] and [plgdtime]; [CastTo] of [src/internal/math]. *)

From S2P Require Export SecSchema.

(** ** [schema/device] *)

Record LocalizedString := { ls_Language : string; ls_Value : string }.
Record DeviceRep := {
  dev_ID : string; dev_ResourceTypes : list string; dev_Interfaces : list string; dev_Name : string;
  dev_ManufacturerName : list LocalizedString; dev_ModelNumber : string;
  dev_ProtocolIndependentID : string; dev_DataModelVersion : string; dev_SpecificationVersion : string;
  dev_SoftwareVersion : string; dev_EcosystemName : string; dev_EcosystemVersion : string }.
Definition zero_DeviceRep : DeviceRep :=
  {| dev_ID := ""; dev_ResourceTypes := []; dev_Interfaces := []; dev_Name := "";
     dev_ManufacturerName := []; dev_ModelNumber := ""; dev_ProtocolIndependentID := "";
     dev_DataModelVersion := ""; dev_SpecificationVersion := ""; dev_SoftwareVersion := "";
     dev_EcosystemName := ""; dev_EcosystemVersion := "" |}.
Fixpoint english (names : list LocalizedString) : string :=
  match names with
  | [] => ""
  | n :: names' => if bool_decide (ls_Language n = "en") then ls_Value n else english names'
  end.
Definition GetManufacturerName (d : DeviceRep) : string := english (dev_ManufacturerName d).

(** ** [schema/platform] *)

(** [CastTo[uint8]]: a Go conversion. *)
Definition CastTo_uint8 (from : Z) : Z := u8 from.

Record Platform := {
  pf_Interfaces : list string; pf_ResourceTypes : list string; pf_PlatformIdentifier : string;
  pf_ManufacturerName : string; pf_SerialNumber : string; pf_ManufacturersURL : string;
  pf_ManufacturersSupport : string; pf_ModelNumber : string; pf_ManufacturersDefinedInformation : string;
  pf_PlatformVersion : string;
  pf_Version : Z }.                     (** uint32 *)
Definition GetVersion (p : Platform) : Z * Z * Z * Z :=
  let major := CastTo_uint8 (Z.land (Z.shiftr (pf_Version p) 24) 255) in
  let minor := CastTo_uint8 (Z.land (Z.shiftr (pf_Version p) 16) 255) in
  let patch := CastTo_uint8 (Z.land (Z.shiftr (pf_Version p) 8) 255) in
  let bugfix := CastTo_uint8 (Z.land (pf_Version p) 255) in
  (major, minor, patch, bugfix).
Definition GetVersionString (p : Platform) : string :=
  let '(major, minor, patch, bugfix) := GetVersion p in
  format_uint major +:+ "." +:+ format_uint minor +:+ "." +:+ format_uint patch +:+ "." +:+ format_uint bugfix.

(** The four parts of a version are bytes, and they are the version. *)
Theorem GetVersion_spec p :
  0 <= pf_Version p < 2 ^ 32 →
  let '(major, minor, patch, bugfix) := GetVersion p in
  Forall (fun b => 0 <= b < 256) [major; minor; patch; bugfix] ∧
  pf_Version p = major * 2 ^ 24 + minor * 2 ^ 16 + patch * 2 ^ 8 + bugfix.
Proof.
  intros Hv. unfold GetVersion, CastTo_uint8, u8. change 255 with (Z.ones 8).
  rewrite !Z.land_ones, !Z.shiftr_div_pow2 by lia. change (2 ^ 24) with 16777216. change (2 ^ 16) with 65536.
  change (2 ^ 8) with 256. change (2 ^ 32) with 4294967296 in Hv. unfold wrap. change (2 ^ 8) with 256.
  split; [repeat (apply Forall_cons; split; [apply Z.mod_pos_bound; lia|]); by constructor|].
  Z.to_euclidean_division_equations. lia.
Qed.

(** ** [schema/maintenance] *)

Record MaintenanceUpdateRequest := { mu_FactoryReset : bool; mu_Reboot : bool }.
Record Maintenance := {
  mnt_ResourceTypes : list string; mnt_Interfaces : list string; mnt_Name : string;
  mnt_FactoryReset : bool; mnt_Reboot : bool; mnt_LastHTTPError : Z }.
Definition zero_Maintenance : Maintenance :=
  {| mnt_ResourceTypes := []; mnt_Interfaces := []; mnt_Name := ""; mnt_FactoryReset := false;
     mnt_Reboot := false; mnt_LastHTTPError := 0 |}.
Record MaintenanceV1 := {
  m1_ResourceTypes : list string; m1_Interfaces : list string; m1_Name : string;
  m1_FactoryReset : option bool; m1_Reboot : option bool; m1_LastHTTPError : option Z }.

(** ** [schema/softwareupdate] *)

Record SoftwareUpdate := {
  sw_ResourceTypes : list string; sw_Interfaces : list string; sw_NewVersion : string; sw_PackageURL : string;
  sw_UpdateAction : string; sw_UpdateState : string; sw_UpdateResult : option Z; sw_LastUpdate : string;
  sw_Signed : string; sw_UpdateTime : string }.
(** The receiver may be nil. *)
Definition GetUpdateResult (sw : option SoftwareUpdate) : Z :=
  match sw with
  | Some sw => match sw_UpdateResult sw with Some r => r | None => -1 end
  | None => -1
  end.

(** ** [schema/plgdtime] *)

(** [time.Parse(time.RFC3339Nano, s)], and the zero time. *)
Class TimeLib := { Time : Type; time_Parse : string → result Time; time_zero : Time }.
Record PlgdTime := {
  pt_Interfaces : list string; pt_ResourceTypes : list string; pt_Time : string; pt_LastSyncedTime : string;
  pt_Status : string }.
Definition GetTime `{TimeLib} (t : PlgdTime) : result Time :=
  if bool_decide (pt_Time t = "") then Err (ErrText "time is empty") else time_Parse (pt_Time t).
Definition GetLastSyncedTime `{TimeLib} (t : PlgdTime) : result Time :=
  if bool_decide (pt_LastSyncedTime t = "") then Ok time_zero else time_Parse (pt_LastSyncedTime t).
