(* ===== verification/IncChanges.v ===== *)
(** * IncChanges: the "incremental changes" query and the batch representation

    [src/pkg/net/coap/incrementalChanges.go] packs entity tags into URI queries;
    [src/schema/resources/resources.go] splits the reference of a batch item into
    the device and the path. *)

From S2P Require Export GoLib.

(** ** Encoding of entity tags *)

Definition maxURIQueryLen : Z := 255.
Definition maxETagLen : Z := 8.
Definition prefixQueryIncChanges : string := "incChanges=".

Definition slen (s : string) : Z := Z.of_nat (String.length s).

(** One iteration of the loop on the builder [b] and the list [etagsStr]. *)
Definition encode_step (st : string * list string) (etag : string) : string * list string :=
  let '(b, etagsStr) := st in
  if slen etag >? maxETagLen then (b, etagsStr)
  else
    let b := if slen b =? 0 then b +:+ prefixQueryIncChanges else b +:+ "," in
    let b := b +:+ b64_encode etag in
    if slen b >=? maxURIQueryLen - maxETagLen * 2 then ("", etagsStr ++ [b]) else (b, etagsStr).

Definition EncodeETagsForIncrementalChanges (etags : list string) : list string :=
  if (length etags <? 1)%nat then []
  else
    let '(b, etagsStr) := foldl encode_step ("", []) etags in
    if slen b >? 0 then etagsStr ++ [b] else etagsStr.

(** What the receiver of the queries makes of them. *)
Definition decode_query (q : string) : list (option string) :=
  b64_decode <$> split (trim_prefix prefixQueryIncChanges q) ",".
Definition decode_queries (qs : list string) : list (option string) := mjoin (decode_query <$> qs).

Lemma slen_app s t : slen (s +:+ t) = slen s + slen t.
Proof. unfold slen. rewrite str_length_app. lia. Qed.

Lemma b64_val_char_comma n : b64_char n ≠ ","%char.
Proof.
  unfold b64_char. destruct (String.get (Z.to_nat n) b64_alphabet) as [c|] eqn:E; [|done].
  intros ->. unfold b64_alphabet in E. set (k := Z.to_nat n) in *.
  do 65 (destruct k as [|k]; [discriminate E|]). destruct k; discriminate E.
Qed.
Lemma b64_no_comma s : contains_char "," (b64_encode s) = false.
Proof.
  assert (∀ n, bool_decide (","%char = b64_char n) = false) as Hn.
  { intros n. apply bool_decide_false. intros E. by apply (b64_val_char_comma n). }
  induction s as [|a|a b|a b c s IH] using str_ind3; cbn [b64_encode contains_char];
    rewrite ?Hn; done.
Qed.

(** The encoded tags of one query. *)
Definition query_of (l : list string) : string := prefixQueryIncChanges +:+ join (b64_encode <$> l) ",".

Lemma join_snoc l x : l ≠ [] → join (l ++ [x]) "," = join l "," +:+ "," +:+ x.
Proof.
  intros Hl. unfold join. induction l as [|y l IH]; [done|]. destruct l as [|z l].
  - simpl. reflexivity.
  - change ((y :: z :: l) ++ [x]) with (y :: (z :: l) ++ [x]).
    change (String.concat "," (y :: (z :: l) ++ [x])) with
      (y +:+ "," +:+ String.concat "," ((z :: l) ++ [x])).
    rewrite IH by done.
    change (String.concat "," (y :: z :: l)) with (y +:+ "," +:+ String.concat "," (z :: l)).
    by rewrite !str_app_assoc.
Qed.

Lemma decode_query_of l : l ≠ [] → decode_query (query_of l) = Some <$> l.
Proof.
  intros Hl. unfold decode_query, query_of. rewrite trim_prefix_app, split_join.
  - clear Hl. induction l as [|x l IH]; [done|]. cbn. by rewrite b64_roundtrip, <- IH.
  - by destruct l.
  - intros x Hx. apply list_elem_of_fmap in Hx as (y & -> & _). apply b64_no_comma.
Qed.

(** The state of the loop: the builder holds the tags [cur], the list holds the
    finished queries of [done], and all of them are within the limits. *)
Definition good_query (q : string) : Prop :=
  slen q <= maxURIQueryLen ∧ has_prefix prefixQueryIncChanges q = true.
Record enc_inv (tags : list string) (st : string * list string) (groups : list (list string))
    (cur : list string) : Prop := {
  ei_b : st.1 = if bool_decide (cur = []) then "" else query_of cur;
  ei_short : slen st.1 < maxURIQueryLen - maxETagLen * 2;
  ei_list : st.2 = query_of <$> groups;
  ei_groups : Forall (fun g => g ≠ []) groups;
  ei_good : Forall good_query st.2;
  ei_tags : mjoin groups ++ cur = tags }.

Definition short_tags (etags : list string) : list string :=
  List.filter (fun e => slen e <=? maxETagLen) etags.

Lemma b64_short e : slen e <= 8 → slen (b64_encode e) <= 11.
Proof.
  unfold slen. rewrite b64_length. intros He.
  assert ((String.length e * 4 + 2) / 3 <= 11)%nat; [|lia].
  transitivity (34 / 3)%nat; [apply Nat.Div0.div_le_mono; lia | done].
Qed.

Lemma query_of_nonempty l : slen (query_of l) =? 0 = false.
Proof. unfold query_of. rewrite slen_app. apply Z.eqb_neq. unfold slen. simpl. lia. Qed.

Lemma query_of_snoc cur e :
  (if slen (if bool_decide (cur = []) then "" else query_of cur) =? 0
   then (if bool_decide (cur = []) then "" else query_of cur) +:+ prefixQueryIncChanges
   else (if bool_decide (cur = []) then "" else query_of cur) +:+ ",") +:+ b64_encode e =
  query_of (cur ++ [e]).
Proof.
  case_bool_decide as E.
  - subst. done.
  - rewrite query_of_nonempty. unfold query_of. rewrite fmap_app. cbn [fmap list_fmap].
    rewrite join_snoc by (by destruct cur). by rewrite !str_app_assoc.
Qed.

Lemma query_of_length cur e :
  slen (if bool_decide (cur = []) then "" else query_of cur) < 239 → slen e <= 8 →
  good_query (query_of (cur ++ [e])).
Proof.
  intros Hb He. split; [|apply has_prefix_app]. rewrite <- query_of_snoc. rewrite slen_app.
  pose proof (b64_short e He). unfold maxURIQueryLen.
  destruct (_ =? 0) eqn:E; rewrite slen_app; [apply Z.eqb_eq in E; rewrite E|];
    unfold slen in *; simpl in *; lia.
Qed.

Lemma enc_inv_step tags st groups cur e :
  enc_inv tags st groups cur →
  ∃ groups' cur', enc_inv (tags ++ short_tags [e]) (encode_step st e) groups' cur'.
Proof.
  intros [Hb Hs Hl Hg Hgood Ht]. destruct st as [b l]. simpl in *. unfold encode_step, short_tags.
  cbn [List.filter]. rewrite Z.gtb_ltb, Z.ltb_antisym. destruct (Z.leb_spec (slen e) maxETagLen) as [He|He].
  2:{ exists groups, cur. rewrite app_nil_r. by split. }
  cbn [negb]. subst b. rewrite query_of_snoc.
  assert (good_query (query_of (cur ++ [e]))) as Hq.
  { apply query_of_length; unfold maxURIQueryLen, maxETagLen in *; lia. }
  assert (cur ++ [e] ≠ []) as Hne by (by destruct cur).
  destruct (Z.geb_spec (slen (query_of (cur ++ [e]))) (maxURIQueryLen - maxETagLen * 2)).
  - exists (groups ++ [cur ++ [e]]), []. split; simpl.
    + done.
    + unfold maxURIQueryLen, maxETagLen, slen. simpl. lia.
    + by rewrite fmap_app, Hl.
    + apply Forall_app. by split; [|constructor].
    + apply Forall_app. by split; [|constructor].
    + rewrite join_app. simpl. rewrite !app_nil_r. by rewrite app_assoc, Ht.
  - exists groups, (cur ++ [e]). split; simpl; try done.
    + by rewrite bool_decide_false.
    + by rewrite app_assoc, Ht.
Qed.

(** Packing of entity tags: every query is at most 255 characters long and
    starts with the prefix of the option; and the receiver that splits the queries
    and decodes their parts gets exactly the tags of at most eight bytes, in their
    order, none lost and none twice. *)
Theorem EncodeETags_roundtrip etags :
  Forall (fun q => slen q <= 255 ∧ has_prefix "incChanges=" q = true)
    (EncodeETagsForIncrementalChanges etags) ∧
  decode_queries (EncodeETagsForIncrementalChanges etags) = Some <$> short_tags etags.
Proof.
  unfold EncodeETagsForIncrementalChanges.
  destruct (Nat.ltb_spec (length etags) 1) as [Hl|_]; [by destruct etags; [|simpl in Hl; lia]|].
  assert (∀ l tags st groups cur, enc_inv tags st groups cur →
    ∃ groups' cur', enc_inv (tags ++ short_tags l) (foldl encode_step st l) groups' cur') as Hfold.
  { induction l as [|e l IH]; intros tags st groups cur Hi; simpl; [rewrite app_nil_r; eauto|].
    destruct (enc_inv_step _ _ _ _ e Hi) as (g & c & Hi').
    destruct (IH _ _ _ _ Hi') as (g' & c' & Hi''). exists g', c'.
    unfold short_tags in *. simpl in *. destruct (slen e <=? maxETagLen); [|by rewrite app_nil_r in Hi''].
    by rewrite <- app_assoc in Hi''. }
  destruct (Hfold etags [] ("", []) [] []) as (groups & cur & [Hb Hs Hl Hg Hgood Ht]).
  { split; simpl; try done. }
  destruct (foldl encode_step ("", []) etags) as [b l]. simpl in *. subst l.
  assert (∀ gs, Forall (fun g => g ≠ []) gs → decode_queries (query_of <$> gs) = Some <$> mjoin gs) as Hdec.
  { induction 1 as [|g gs Hne _ IH]; [done|]. unfold decode_queries in *. cbn.
    rewrite decode_query_of by done. rewrite fmap_app. by f_equal. }
  destruct (decide (cur = [])) as [->|Hne].
  - rewrite bool_decide_true in Hb by done. subst b. change (slen "" >? 0) with false. cbv iota.
    rewrite app_nil_r in Ht. split; [done|]. by rewrite Hdec, Ht.
  - rewrite bool_decide_false in Hb by done. subst b.
    assert (slen (query_of cur) >? 0 = true) as ->.
    { rewrite Z.gtb_ltb. apply Z.ltb_lt. pose proof (query_of_nonempty cur) as H%Z.eqb_neq.
      unfold slen in *. lia. }
    split.
    + apply Forall_app. split; [done|]. constructor; [|done].
      split; [unfold maxURIQueryLen, maxETagLen in Hs; lia | apply has_prefix_app].
    + change [query_of cur] with (query_of <$> [cur]). rewrite <- fmap_app, Hdec by (apply Forall_app; by repeat constructor).
      rewrite join_app. simpl. by rewrite app_nil_r, Ht.
Qed.

(** ** Batch representations *)

Record BatchRepresentation := { HrefRaw : string; BatchETag : string; BatchContent : string }.

Definition BatchRepresentation_DeviceID (v : BatchRepresentation) : string :=
  match split_n2 (trim_prefix "ocf://" (HrefRaw v)) "/" with
  | [d; _] => d | _ => ""
  end.
Definition BatchRepresentation_Href (v : BatchRepresentation) : string :=
  match split_n2 (trim_prefix "ocf://" (HrefRaw v)) "/" with
  | [_; p] => "/" +:+ p | _ => ""
  end.

(** References of a batch: the device and the path that make up a reference
    are recovered from it, for every device ID without a slash and every path. *)
Theorem BatchRepresentation_roundtrip d p e c :
  contains_char "/" d = false →
  let v := {| HrefRaw := "ocf://" +:+ d +:+ "/" +:+ p; BatchETag := e; BatchContent := c |} in
  BatchRepresentation_DeviceID v = d ∧ BatchRepresentation_Href v = "/" +:+ p.
Proof.
  intros Hd v. unfold BatchRepresentation_DeviceID, BatchRepresentation_Href, v. cbn [HrefRaw].
  rewrite trim_prefix_app. by rewrite (proj2 (split_n2_spec "/" _ d p)).
Qed.
Lemma BatchRepresentation_roundtrip_witness :
  BatchRepresentation_Href {| HrefRaw := "ocf://d1/light/1"; BatchETag := ""; BatchContent := "" |} =
    "/light/1".
Proof. apply (BatchRepresentation_roundtrip "d1" "light/1" "" ""). reflexivity. Defined.
