(* ===== verification/Coap.v ===== *)
(** * Coap: messages, requests and the responses the bridge builds

    The CoAP messages of go-coap as the bridge reads and writes them, the
    query accessors of [src/bridge/net/request.go], [CreateResponseError] of
    [src/bridge/net/network.go] and the response constructors of
    [src/bridge/resources/resource.go].  go-coap, CBOR and google/uuid are
    outside the repository: a message is the record of the values the code
    asks go-coap for, and encoders and parsers are class methods. *)

From S2P Require Export Schema.

(** ** Codes, media types and message types (RFC 7252 values used by go-coap) *)

Definition GET : Z := 1.
Definition POST : Z := 2.
Definition PUT : Z := 3.
Definition DELETE : Z := 4.
Definition codes_Deleted : Z := 66.
Definition codes_Valid : Z := 67.
Definition codes_Changed : Z := 68.
Definition codes_Content : Z := 69.
Definition codes_BadRequest : Z := 128.
Definition codes_Unauthorized : Z := 129.
Definition codes_NotFound : Z := 132.
Definition codes_MethodNotAllowed : Z := 133.
Definition codes_NotAcceptable : Z := 134.
Definition codes_InternalServerError : Z := 160.

Definition TextPlain : Z := 0.
Definition AppJSON : Z := 50.
Definition AppCBOR : Z := 60.
Definition AppOcfCbor : Z := 10000.

Definition Confirmable : Z := 0.
Definition NonConfirmable : Z := 1.
Definition Acknowledgement : Z := 2.
Definition Reset_type : Z := 3.

(** ** Messages *)

(** [m_path] and [m_queries] are [None] when go-coap reports an error for the
    option; [m_multicast] is the multicast flag of the control message's
    destination, [None] when there is no control message. *)
Record Message := {
  m_code : Z; m_token : option string; m_id : Z; m_type : Z;
  m_path : option string; m_queries : option (list string);
  m_observe : option Z; m_accept : option Z; m_format : option Z;
  m_etag : option string; m_body : option string;
  m_multicast : option bool }.

#[export] Instance Message_eq_dec : EqDecision Message.
Proof. solve_decision. Defined.

(** [pool.NewMessage(ctx)]. *)
Definition NewMessage : Message :=
  {| m_code := 0; m_token := None; m_id := -1; m_type := -1; m_path := None;
     m_queries := None; m_observe := None; m_accept := None; m_format := None;
     m_etag := None; m_body := None; m_multicast := None |}.

Definition set_code (c : Z) (m : Message) : Message :=
  {| m_code := c; m_token := m_token m; m_id := m_id m; m_type := m_type m;
     m_path := m_path m; m_queries := m_queries m; m_observe := m_observe m;
     m_accept := m_accept m; m_format := m_format m; m_etag := m_etag m;
     m_body := m_body m; m_multicast := m_multicast m |}.
Definition set_token (t : option string) (m : Message) : Message :=
  {| m_code := m_code m; m_token := t; m_id := m_id m; m_type := m_type m;
     m_path := m_path m; m_queries := m_queries m; m_observe := m_observe m;
     m_accept := m_accept m; m_format := m_format m; m_etag := m_etag m;
     m_body := m_body m; m_multicast := m_multicast m |}.
Definition set_id_type (i t : Z) (m : Message) : Message :=
  {| m_code := m_code m; m_token := m_token m; m_id := i; m_type := t;
     m_path := m_path m; m_queries := m_queries m; m_observe := m_observe m;
     m_accept := m_accept m; m_format := m_format m; m_etag := m_etag m;
     m_body := m_body m; m_multicast := m_multicast m |}.
Definition set_path (p : string) (m : Message) : Message :=
  {| m_code := m_code m; m_token := m_token m; m_id := m_id m; m_type := m_type m;
     m_path := Some p; m_queries := m_queries m; m_observe := m_observe m;
     m_accept := m_accept m; m_format := m_format m; m_etag := m_etag m;
     m_body := m_body m; m_multicast := m_multicast m |}.
Definition add_query (q : string) (m : Message) : Message :=
  {| m_code := m_code m; m_token := m_token m; m_id := m_id m; m_type := m_type m;
     m_path := m_path m; m_queries := Some (default [] (m_queries m) ++ [q]);
     m_observe := m_observe m; m_accept := m_accept m; m_format := m_format m;
     m_etag := m_etag m; m_body := m_body m; m_multicast := m_multicast m |}.
Definition set_observe (o : Z) (m : Message) : Message :=
  {| m_code := m_code m; m_token := m_token m; m_id := m_id m; m_type := m_type m;
     m_path := m_path m; m_queries := m_queries m; m_observe := Some o;
     m_accept := m_accept m; m_format := m_format m; m_etag := m_etag m;
     m_body := m_body m; m_multicast := m_multicast m |}.
Definition set_etag (e : option string) (m : Message) : Message :=
  {| m_code := m_code m; m_token := m_token m; m_id := m_id m; m_type := m_type m;
     m_path := m_path m; m_queries := m_queries m; m_observe := m_observe m;
     m_accept := m_accept m; m_format := m_format m; m_etag := e;
     m_body := m_body m; m_multicast := m_multicast m |}.
Definition set_format (f : Z) (m : Message) : Message :=
  {| m_code := m_code m; m_token := m_token m; m_id := m_id m; m_type := m_type m;
     m_path := m_path m; m_queries := m_queries m; m_observe := m_observe m;
     m_accept := m_accept m; m_format := Some f; m_etag := m_etag m;
     m_body := m_body m; m_multicast := m_multicast m |}.
Definition set_body (b : string) (m : Message) : Message :=
  {| m_code := m_code m; m_token := m_token m; m_id := m_id m; m_type := m_type m;
     m_path := m_path m; m_queries := m_queries m; m_observe := m_observe m;
     m_accept := m_accept m; m_format := m_format m; m_etag := m_etag m;
     m_body := Some b; m_multicast := m_multicast m |}.

(** ** External encoders and parsers *)

(** CBOR encoding of a Go type (fxamacker/cbor through [pkg/codec/cbor]). *)
Class Cbor (A : Type) := {
  cbor_Encode : A → result string;
  cbor_Decode : string → result A }.

(** [cbor.ReadFrom(body, &v)]: a nil body cannot be read. *)
Definition ReadFrom {A} `{Cbor A} (body : option string) : result A :=
  match body with Some b => cbor_Decode b | None => Err (ErrText "EOF") end.

(** google/uuid: UUIDs are their canonical texts. *)
Abbreviation UUID := string.
Definition uuid_Nil : UUID := "00000000-0000-0000-0000-000000000000".
Class Uuids := {
  uuid_Parse : string → result UUID;
  uuid_NewSHA1 : string → UUID }.
Class UuidLaws `{Uuids} := {
  uuid_parse_canonical : ∀ s u, uuid_Parse s = Ok u → uuid_Parse u = Ok u;
  uuid_parse_nil : uuid_Parse uuid_Nil = Ok uuid_Nil }.

(** ** Requests ([bridge/net/request.go]) *)

Record Request := {
  req_msg : Message;
  req_Conn : string;              (** the remote address of the connection *)
  req_Endpoints : Endpoints }.

Definition ErrKeyNotFound : error := ErrText "key not found".

Definition Queries (m : Message) : result (list string) :=
  match m_queries m with Some q => Ok q | None => Err (ErrText "option not found") end.

Fixpoint find_query (prefix : string) (q : list string) : result string :=
  match q with
  | [] => Err ErrKeyNotFound
  | query :: q' => if has_prefix prefix query then Ok (trim_prefix prefix query)
                   else find_query prefix q'
  end.
Definition GetValueFromQuery (r : Request) (key : string) : result string :=
  q ← Queries (req_msg r); find_query (key +:+ "=") q.

Definition URIPath (r : Request) : string := default "" (m_path (req_msg r)).

Definition Interface (r : Request) : string :=
  match GetValueFromQuery r "if" with Ok v => v | Err _ => "" end.

Definition DeviceID `{Uuids} (r : Request) : UUID :=
  match GetValueFromQuery r "di" with
  | Err _ => uuid_Nil
  | Ok v => match uuid_Parse v with Ok di => di | Err _ => uuid_Nil end
  end.

Definition Request_ResourceTypes (r : Request) : list string :=
  match Queries (req_msg r) with
  | Err _ => []
  | Ok q => trim_prefix "rt=" <$> List.filter (has_prefix "rt=") q
  end.

(** ** Responses *)

(** The text of an error is irrelevant to the protocol: it is kept abstract by
    its outermost message. *)
Definition error_text (e : error) : string :=
  match e with ErrText m | ErrWrap m _ => m | _ => "error" end.

(** [status.FromError]: the CoAP status a go-coap error carries. *)
Class CoapStatus := status_FromError : error → option Z.

Definition CreateResponseError `{CoapStatus} (err : option error) (token : option string)
    : option Message :=
  match err with
  | None => None
  | Some e =>
      let code := match status_FromError e with Some c => c | None => codes_BadRequest end in
      Some (set_body (error_text e) (set_token token (set_code code NewMessage)))
  end.

Definition createTextPlainResponse (token : option string) (code : Z) (body : string) : Message :=
  let msg := set_code code NewMessage in
  let msg := match token with Some _ => set_token token msg | None => msg end in
  set_body body (set_format TextPlain msg).

Definition CreateResponseMethodNotAllowed (token : option string) : Message :=
  createTextPlainResponse token codes_MethodNotAllowed "unsupported method MethodNotAllowed".

Definition CreateResponseContent {A} `{Cbor A} (data : A) (code : Z) : result Message :=
  d ← cbor_Encode data;
  Ok (set_body d (set_format AppOcfCbor (set_code code NewMessage))).

Definition CreateErrorResponse (code : Z) (err : error) : result Message :=
  Ok (createTextPlainResponse None code (error_text err)).
Definition CreateResponseBadRequest (err : error) : result Message :=
  CreateErrorResponse codes_BadRequest err.

(** ** Lemmas *)

Lemma find_query_app_hit key q v q' :
  (∀ x, x ∈ q → has_prefix key x = false) → find_query key (q ++ (key +:+ v) :: q') = Ok v.
Proof.
  intros Hq. induction q as [|x q IH]; simpl.
  - by rewrite has_prefix_app, trim_prefix_app.
  - rewrite Hq by set_solver. apply IH. set_solver.
Qed.

Lemma Request_ResourceTypes_spec r rt :
  rt ∈ Request_ResourceTypes r ↔
    ∃ q, m_queries (req_msg r) = Some q ∧ ("rt=" +:+ rt) ∈ q.
Proof.
  unfold Request_ResourceTypes, Queries. destruct (m_queries (req_msg r)) as [q|]; [|set_solver].
  rewrite list_elem_of_fmap. setoid_rewrite list_elem_of_In. setoid_rewrite filter_In.
  split.
  - intros (x & -> & Hx & Hp). exists q. split; [done|].
    apply has_prefix_inv in Hp as [t ->]. by rewrite trim_prefix_app.
  - intros (q' & [= <-] & Hin). exists ("rt=" +:+ rt).
    by rewrite trim_prefix_app, has_prefix_app.
Qed.
