(* ===== verification/Credential.v ===== *)
(** * Credential: the credential manager of a bridged device

    [src/bridge/device/credential]: the credentials of the device by their ID,
    what the credential resource shows of them, and the CA pool they form
    together with the pool the application configured.

    The iteration order of the map is arbitrary ([CredEnv]); certificates, the
    decoder of a PEM block and the DER parser are parameters, as is the pool of
    the application. *)

From S2P Require Export Coap SecSchema.

Class CredEnv := {
  Cert : Type;
  pem_Decode : string → option string * string;
  x509_ParseCertificates : string → result (list Cert);
  cred_order : gmap Z Credential → list (Z * Credential) }.
(** A map iteration visits each entry once; the rest of a decoded block is a
    proper suffix of the input. *)
Class CredEnvLaws `{CredEnv} := {
  cred_order_perm : ∀ m, cred_order m ≡ₚ map_to_list m;
  pem_Decode_rest : ∀ data der rest, pem_Decode data = (Some der, rest) →
    (String.length rest < String.length data)%nat }.

Section Manager.
Context `{HCred : CredEnv}.

Abbreviation Credentials := (gmap Z Credential).
Definition Config := CredentialResponse.

(** ** PEM certificates ([pkg/security/x509/parse.go]) *)

Definition ErrPemFuel : error := ErrText "out of fuel".
(** The loop of [ParsePemCertificates]. *)
Fixpoint parse_pem (fuel : nat) (data : string) (cas : list Cert) : result (list Cert) :=
  match fuel with
  | O => Err ErrPemFuel
  | S f =>
      match pem_Decode data with
      | (None, _) => Err (ErrText "cannot decode pem block")
      | (Some der, tmp) =>
          certs ← x509_ParseCertificates der;
          let cas := cas ++ certs in
          if (String.length tmp =? 0)%nat then Ok cas else parse_pem f tmp cas
      end
  end.
(** The block is a byte slice; nil is the empty one. *)
Definition ParsePemCertificates (pemBlock : option string) : result (list Cert) :=
  let data := default "" pemBlock in parse_pem (S (String.length data)) data [].

(** ** Operations on the map *)

Definition getNextID (m : Credentials) : Z :=
  i64 (foldl (fun id kv => if kv.1 >? id then kv.1 else id) 0 (cred_order m) + 1).

(** The loop of [add]; [None] when [fuel] iterations were not enough. *)
Fixpoint add (fuel : nat) (c : Credential) (m : Credentials) : option Credentials :=
  match fuel with
  | O => None
  | S f => match m !! cred_ID c with
           | None => Some (<[cred_ID c := c]> m)
           | Some _ => add f (set_cred_ID (getNextID m) c) m
           end
  end.

Section Fuel.
Context (fuel : nat).

Definition AddOrReplaceCredential (c : Credential) (m : Credentials) : option Credentials :=
  if cred_Type c =? CredentialType_EMPTY then Some m
  else if negb (cred_ID c =? 0) then Some (<[cred_ID c := c]> m)
  else add fuel c m.

Fixpoint AddOrReplaceCredentials (ca : list Credential) (m : Credentials) : option Credentials :=
  match ca with
  | [] => Some m
  | c :: ca' => m ← AddOrReplaceCredential c m; AddOrReplaceCredentials ca' m
  end.

Definition New (cfg : Config) : option Credentials :=
  AddOrReplaceCredentials (crsp_Credentials cfg) ∅.
End Fuel.

Definition RemoveCredentials (ids : list Z) (m : Credentials) : Credentials :=
  foldl (fun m id => delete id m) m ids.

Definition RemoveCredentialsBySubjects (subjects : list string) (m : Credentials) : Credentials :=
  foldl (fun m kv => foldl (fun m subject =>
      if bool_decide (cred_Subject kv.2 = subject) then delete kv.1 m else m) m subjects)
    m (cred_order m).

Definition ClearCredentials (m : Credentials) : Credentials := ∅.
Definition Close (m : Credentials) : Credentials := ClearCredentials m.

Definition getRep (privateData : bool) (m : Credentials) : CredentialResponse :=
  {| crsp_ResourceOwner := ""; crsp_Interfaces := ["oic.if.baseline"; "oic.if.rw"];
     crsp_ResourceTypes := ["oic.r.cred"]; crsp_Name := "";
     crsp_Credentials :=
       (fun kv => if negb privateData then set_cred_PrivateData None kv.2 else kv.2) <$>
         cred_order m |}.

Definition ExportConfig (m : Credentials) : Config := getRep true m.

Section Handlers.
Context `{Cbor CredentialUpdateRequest} `{Cbor CredentialResponse} (fuel : nat).

Definition Get (m : Credentials) : result Message :=
  CreateResponseContent (getRep false m) codes_Content.

(** The response, the credentials and whether [save] was called; [None] when an
    addition ran out of fuel. *)
Definition Post (body : option string) (m : Credentials)
    : option (result Message * Credentials * bool) :=
  match ReadFrom (A:=CredentialUpdateRequest) body with
  | Err e => Some (CreateResponseBadRequest e, m, false)
  | Ok cfg =>
      m ← AddOrReplaceCredentials fuel (cupd_Credentials cfg) m;
      Some (CreateResponseContent (getRep false m) codes_Changed, m, true)
  end.
End Handlers.

(** ** The CA pool *)

(** The callback of [Range]: [Err] is the panic of the dereference of a nil
    [PublicData]. *)
Fixpoint GetCAPool_range (l : list (Z * Credential)) (certs : list Cert) : result (list Cert) :=
  match l with
  | [] => Ok certs
  | (_, value) :: l' =>
      if negb (cred_Type value =? CredentialType_ASYMMETRIC_SIGNING_WITH_CERTIFICATE)
      then GetCAPool_range l' certs
      else if negb (bool_decide (cred_Usage value = CredentialUsage_TRUST_CA)) &&
              negb (bool_decide (cred_Usage value = CredentialUsage_MFG_TRUST_CA))
      then GetCAPool_range l' certs
      else match cred_PublicData value with
           | None => Err ErrNilPointer
           | Some d =>
               match ParsePemCertificates (CredentialPublicData_Data d) with
               | Err _ => GetCAPool_range l' certs
               | Ok cas => GetCAPool_range l' (certs ++ cas)
               end
           end
  end.
Definition GetCAPool (m : Credentials) : result (list Cert) := GetCAPool_range (cred_order m) [].

(** A [CAPoolGetter]: whether it is valid, and its pool. *)
Record CAPoolGetter := { IsValid : bool; GetPool : result (list Cert) }.

(** [CAPool]: both fields may be nil; [getCAPool] is what the function returns. *)
Definition MakeCAPool (caPool : option CAPoolGetter) (getCAPool : option (result (list Cert)))
    : CAPoolGetter :=
  {| IsValid :=
       match getCAPool with
       | Some _ => true
       | None => match caPool with None => false | Some c => IsValid c end
       end;
     GetPool :=
       pool ← (match caPool with
               | Some c => if IsValid c then GetPool c else Ok []
               | None => Ok []
               end : result (list Cert));
       match getCAPool with
       | None => Ok pool
       | Some cas => cas ← cas; Ok (foldl (fun pool ca => pool ++ [ca]) pool cas)
       end |}.

(** ** Invariant *)

(** Every credential is stored under its own ID and has a type. *)
Definition wf (m : Credentials) : Prop :=
  ∀ k c, m !! k = Some c → cred_ID c = k ∧ cred_Type c ≠ CredentialType_EMPTY.
Definition ids_below (b : Z) (m : Credentials) : Prop := ∀ k, is_Some (m !! k) → k < b.

Section Laws.
Context `{!CredEnvLaws}.

Lemma elem_of_order m k c : (k, c) ∈ cred_order m ↔ m !! k = Some c.
Proof. rewrite cred_order_perm. apply elem_of_map_to_list. Qed.

Lemma max_spec (l : list (Z * Credential)) z :
  let r := foldl (fun id kv => if kv.1 >? id then kv.1 else id) z l in
  z <= r ∧ (∀ k c, (k, c) ∈ l → k <= r) ∧ (r = z ∨ ∃ c, (r, c) ∈ l).
Proof.
  revert z. induction l as [|[k c] l IH]; intros z; simpl.
  - split_and!; [lia | by intros ? ? ?%elem_of_nil | by left].
  - rewrite Z.gtb_ltb. set (z' := if z <? k then k else z).
    assert (z <= z' ∧ k <= z' ∧ (z' = z ∨ z' = k)) as (H1 & H2 & H3).
    { unfold z'. destruct (Z.ltb_spec z k); lia. }
    destruct (IH z') as (Hz & Hl & Hr). split_and!.
    + lia.
    + intros k' c' [[= -> ->]|Hin]%elem_of_cons; [lia | by eapply Hl].
    + destruct Hr as [-> |[c' Hc]].
      * destruct H3 as [->| ->]; [by left|]. right. exists c. apply elem_of_cons. by left.
      * right. exists c'. apply elem_of_cons. by right.
Qed.

Lemma getNextID_fresh m :
  ids_below (2 ^ 63 - 1) m → m !! getNextID m = None ∧ 0 < getNextID m < 2 ^ 63.
Proof.
  intros Hb. unfold getNextID. destruct (max_spec (cred_order m) 0) as (Hz & Hl & Hr).
  set (r := foldl _ 0 (cred_order m)) in *.
  assert (r < 2 ^ 63 - 1) as Hr1.
  { destruct Hr as [-> |[c Hc]]; [lia|]. apply elem_of_order in Hc. by apply Hb. }
  rewrite i64_small by lia. split; [|lia].
  destruct (m !! (r + 1)) as [c|] eqn:E; [|done].
  apply elem_of_order in E. specialize (Hl _ _ E). lia.
Qed.

(** With IDs below the greatest 64-bit number, two iterations are enough. *)
Lemma add_spec f c m :
  ids_below (2 ^ 63 - 1) m →
  ∃ id, add (S (S f)) c m = Some (<[id := set_cred_ID id c]> m) ∧ m !! id = None ∧
        id = (if m !! cred_ID c is Some _ then getNextID m else cred_ID c).
Proof.
  intros Hb. cbn [add]. destruct (m !! cred_ID c) as [c0|] eqn:E.
  - destruct (getNextID_fresh m Hb) as [Hn _]. exists (getNextID m).
    change (cred_ID (set_cred_ID (getNextID m) c)) with (getNextID m). by rewrite Hn.
  - exists (cred_ID c). split_and!; try done. do 2 f_equal. by destruct c.
Qed.

(** Storing a credential: an empty one is ignored, one with an ID replaces the
    credential of that ID, and one without is added under an ID that was free, so
    no stored credential is lost; the addition terminates as long as no ID is the
    greatest 64-bit integer. *)
Theorem AddOrReplaceCredential_spec f c m :
  wf m → ids_below (2 ^ 63 - 1) m →
  ∃ m', AddOrReplaceCredential (S (S f)) c m = Some m' ∧ wf m' ∧
  if cred_Type c =? CredentialType_EMPTY then m' = m
  else if cred_ID c =? 0 then
    ∃ id, m !! id = None ∧ m' = <[id := set_cred_ID id c]> m
  else m' = <[cred_ID c := c]> m.
Proof.
  intros Hw Hb. unfold AddOrReplaceCredential.
  destruct (Z.eqb_spec (cred_Type c) CredentialType_EMPTY) as [|Ht]; [by eexists|].
  assert (∀ id c', cred_ID c' = id → cred_Type c' = cred_Type c → wf (<[id := c']> m)) as Hins.
  { intros id c' <- Hct k d [[<- <-]|[_ Hd]]%lookup_insert_Some; [|by apply Hw].
    by rewrite Hct. }
  destruct (Z.eqb_spec (cred_ID c) 0) as [E|E]; cbn [negb].
  - destruct (add_spec f c m Hb) as (id & -> & Hn & _). eexists. split_and!; [done | by apply Hins|].
    by exists id.
  - eexists. split_and!; [done | by apply Hins | done].
Qed.

Lemma AddOrReplaceCredential_id f c m :
  cred_Type c ≠ CredentialType_EMPTY → (cred_ID c ≠ 0 ∨ m !! 0 = None) →
  AddOrReplaceCredential (S f) c m = Some (<[cred_ID c := c]> m).
Proof.
  intros Ht Hc. unfold AddOrReplaceCredential. apply Z.eqb_neq in Ht. rewrite Ht.
  destruct (Z.eqb_spec (cred_ID c) 0) as [E|E]; [|done]. cbn [negb add].
  rewrite E. by destruct Hc as [?| ->].
Qed.

Lemma AddOrReplaceCredentials_all f (l : list (Z * Credential)) m :
  NoDup l.*1 → (∀ k c, (k, c) ∈ l → cred_ID c = k ∧ cred_Type c ≠ CredentialType_EMPTY ∧ m !! k = None) →
  AddOrReplaceCredentials (S f) l.*2 m = Some (list_to_map l ∪ m).
Proof.
  revert m. induction l as [|[k c] l IH]; intros m Hnd Hl; cbn [fmap list_fmap AddOrReplaceCredentials].
  - by rewrite list_to_map_nil, (left_id_L ∅ (∪)).
  - cbn in Hnd. apply NoDup_cons in Hnd as [Hk Hnd].
    destruct (Hl k c) as (E & Ht & Hm); [by left|]. cbn [snd].
    rewrite AddOrReplaceCredential_id; [|done | rewrite E; destruct (decide (k = 0)); [right; congruence|by left]].
    cbn [mbind option_bind]. rewrite IH; [|done|].
    + f_equal. rewrite E. simpl. rewrite <- insert_union_l. rewrite insert_union_r; [done|].
      by apply not_elem_of_list_to_map_1.
    + intros k' c' Hin. destruct (Hl k' c') as (E' & Ht' & Hm'); [by right|]. split_and!; try done.
      rewrite lookup_insert_ne; [done|]. rewrite E. intros ->. apply Hk. apply list_elem_of_fmap.
      by exists (k', c').
Qed.

(** Export and import: a new manager created from the exported configuration
    has the same credentials, private data included, whatever the order in which
    the map was iterated. *)
Theorem credentials_export_import f m :
  wf m → New (S f) (ExportConfig m) = Some m.
Proof.
  intros Hw. unfold New, ExportConfig, getRep. cbn [crsp_Credentials negb].
  rewrite (AddOrReplaceCredentials_all f (cred_order m) ∅).
  - f_equal. rewrite (right_id_L ∅ (∪)). rewrite (list_to_map_proper _ (map_to_list m)).
    + apply list_to_map_to_list.
    + rewrite cred_order_perm. apply NoDup_fst_map_to_list.
    + apply cred_order_perm.
  - rewrite cred_order_perm. apply NoDup_fst_map_to_list.
  - intros k c Hin. apply elem_of_order in Hin. destruct (Hw k c Hin). by rewrite lookup_empty.
Qed.

(** The responses of the credential resource show every credential, and of none
    the private data. *)
Theorem getRep_hides_private m c :
  c ∈ crsp_Credentials (getRep false m) ↔
    ∃ k c0, m !! k = Some c0 ∧ c = set_cred_PrivateData None c0.
Proof.
  unfold getRep. cbn [crsp_Credentials negb]. rewrite list_elem_of_fmap. split.
  - intros ([k c0] & -> & Hin). exists k, c0. by apply elem_of_order in Hin.
  - intros (k & c0 & Hm & ->). exists (k, c0). split; [done|]. by apply elem_of_order.
Qed.

Lemma remove_inner subjects k c m k' :
  foldl (fun m subject => if bool_decide (cred_Subject c = subject) then delete k m else m) m subjects !! k' =
    if bool_decide (k' = k ∧ cred_Subject c ∈ subjects) then None else (m : Credentials) !! k'.
Proof.
  revert m. induction subjects as [|s ss IH]; intros m; cbn [foldl].
  - rewrite bool_decide_false; [done|]. by intros [_ ?%elem_of_nil].
  - rewrite IH. destruct (decide (cred_Subject c = s)) as [<-|Hs].
    + rewrite (bool_decide_true (cred_Subject c = cred_Subject c)) by done. case_bool_decide as E1.
      * rewrite bool_decide_true; [done|]. destruct E1. split; [done|]. by right.
      * destruct (decide (k' = k)) as [->|Hk].
        -- rewrite bool_decide_true by (split; [done | by left]). apply lookup_delete_eq.
        -- rewrite bool_decide_false by (by intros []). by apply lookup_delete_ne.
    + rewrite (bool_decide_false (cred_Subject c = s)) by done.
      rewrite (bool_decide_ext (k' = k ∧ cred_Subject c ∈ s :: ss) (k' = k ∧ cred_Subject c ∈ ss));
        [done|]. rewrite elem_of_cons. tauto.
Qed.

(** Removal by subject, as it is used for the CAs of a cloud that is left:
    exactly the credentials of these subjects are gone. *)
Theorem RemoveCredentialsBySubjects_spec subjects m k :
  RemoveCredentialsBySubjects subjects m !! k =
    match m !! k with
    | Some c => if bool_decide (cred_Subject c ∈ subjects) then None else Some c
    | None => None
    end.
Proof.
  unfold RemoveCredentialsBySubjects.
  assert (∀ l (m0 : Credentials), (∀ k c, (k, c) ∈ l → m !! k = Some c) →
    foldl (fun m kv => foldl (fun m subject =>
      if bool_decide (cred_Subject kv.2 = subject) then delete kv.1 m else m) m subjects) m0 l !! k =
    if bool_decide (Exists (fun kv => kv.1 = k ∧ cred_Subject kv.2 ∈ subjects) l)
    then None else m0 !! k) as Hl.
  { induction l as [|[k1 c1] l IH]; intros m0 Hm; cbn [foldl fst snd].
    - rewrite bool_decide_false; [done|]. by intros ?%Exists_nil.
    - rewrite IH by (intros; apply Hm; by right). rewrite remove_inner.
      destruct (decide (Exists (fun kv => kv.1 = k ∧ cred_Subject kv.2 ∈ subjects) l)) as [Hex|Hex].
      + rewrite (bool_decide_true _ Hex), (bool_decide_true (Exists _ (_ :: _))); [done | by right].
      + rewrite (bool_decide_false _ Hex). apply bool_decide_ext_if.
        rewrite Exists_cons. cbn [fst snd]. naive_solver. }
  rewrite Hl by (intros ? ?; apply elem_of_order).
  destruct (m !! k) as [c|] eqn:E.
  - apply bool_decide_ext_if. rewrite Exists_exists. split.
    + intros ([k' c'] & Hin & <- & Hc). apply elem_of_order in Hin. cbn [fst snd] in *. congruence.
    + intros Hc. exists (k, c). split; [by apply elem_of_order|done].
  - rewrite bool_decide_false; [done|]. rewrite Exists_exists.
    intros ([k' c'] & Hin & <- & _). apply elem_of_order in Hin. cbn [fst] in *. congruence.
Qed.

(** The fuel is enough: more of it changes nothing. *)
Lemma parse_pem_fuel n k data cas :
  (String.length data < n)%nat → (String.length data < k)%nat →
  parse_pem k data cas = parse_pem n data cas.
Proof.
  revert k data cas. induction n as [|n IH]; intros k data cas Hl Hk; [lia|].
  destruct k as [|k]; [lia|]. cbn [parse_pem].
  destruct (pem_Decode data) as [[der|] tmp] eqn:E; [|done].
  apply pem_Decode_rest in E. destruct (x509_ParseCertificates der) as [certs|]; [|done].
  cbn [mbind result_bind]. destruct (_ =? 0)%nat; [done|]. apply IH; lia.
Qed.

(** What the credential contributes to the pool. *)
Definition trust_anchor (c : Credential) : Prop :=
  cred_Type c = 8 ∧
  (cred_Usage c = "oic.sec.cred.trustca" ∨ cred_Usage c = "oic.sec.cred.mfgtrustca").
Definition ca_of (c : Credential) (ca : Cert) : Prop :=
  trust_anchor c ∧ ∃ d cas, cred_PublicData c = Some d ∧
    ParsePemCertificates (CredentialPublicData_Data d) = Ok cas ∧ ca ∈ cas.

Lemma GetCAPool_range_cons k c l certs :
  GetCAPool_range ((k, c) :: l) certs =
    if decide (trust_anchor c) then
      match cred_PublicData c with
      | None => Err ErrNilPointer
      | Some d => match ParsePemCertificates (CredentialPublicData_Data d) with
                  | Err _ => GetCAPool_range l certs
                  | Ok cas => GetCAPool_range l (certs ++ cas)
                  end
      end
    else GetCAPool_range l certs.
Proof.
  cbn [GetCAPool_range]. unfold CredentialType_ASYMMETRIC_SIGNING_WITH_CERTIFICATE,
    CredentialUsage_TRUST_CA, CredentialUsage_MFG_TRUST_CA, trust_anchor.
  destruct (Z.eqb_spec (cred_Type c) 8) as [Ht|Ht]; cbn [negb]; [|by rewrite decide_False by tauto].
  destruct (decide (cred_Usage c = "oic.sec.cred.trustca")) as [Hu|Hu].
  { rewrite (bool_decide_true _ Hu), decide_True by tauto. done. }
  destruct (decide (cred_Usage c = "oic.sec.cred.mfgtrustca")) as [Hv|Hv].
  { rewrite (bool_decide_true _ Hv), andb_false_r, decide_True by tauto. done. }
  rewrite !bool_decide_false, decide_False by tauto. done.
Qed.

Lemma GetCAPool_range_spec l certs :
  match GetCAPool_range l certs with
  | Ok pool => (∀ kv, kv ∈ l → trust_anchor kv.2 → is_Some (cred_PublicData kv.2)) ∧
      ∀ ca, ca ∈ pool ↔ ca ∈ certs ∨ ∃ kv, kv ∈ l ∧ ca_of kv.2 ca
  | Err e => e = ErrNilPointer ∧
      ∃ kv, kv ∈ l ∧ trust_anchor kv.2 ∧ cred_PublicData kv.2 = None
  end.
Proof.
  revert certs. induction l as [|[k c] l IH]; intros certs.
  { cbn. split; [by intros ? ?%elem_of_nil|]. intros ca. split; [by left|].
    by intros [?|(? & []%elem_of_nil & _)]. }
  rewrite GetCAPool_range_cons.
  assert (∀ certs', (∀ ca, ca ∈ certs' ↔ ca ∈ certs ∨ ca_of c ca) →
    (trust_anchor c → is_Some (cred_PublicData c)) →
    match GetCAPool_range l certs' with
    | Ok pool => (∀ kv, kv ∈ (k, c) :: l → trust_anchor kv.2 → is_Some (cred_PublicData kv.2)) ∧
        ∀ ca, ca ∈ pool ↔ ca ∈ certs ∨ ∃ kv, kv ∈ (k, c) :: l ∧ ca_of kv.2 ca
    | Err e => e = ErrNilPointer ∧
        ∃ kv, kv ∈ (k, c) :: l ∧ trust_anchor kv.2 ∧ cred_PublicData kv.2 = None
    end) as Hgo.
  { intros certs' Hc Hd. specialize (IH certs'). destruct (GetCAPool_range l certs') as [pool|e].
    - destruct IH as [Ha Hp]. split.
      + intros kv [-> |Hin]%elem_of_cons; [done|by apply Ha].
      + intros ca. rewrite Hp, Hc. setoid_rewrite elem_of_cons. split.
        * intros [[?|?]|(kv & ? & ?)]; [by left | right; by exists (k, c); auto | right; eauto].
        * intros [?|(kv & [-> |?] & ?)]; [tauto | left; by right | right; eauto].
    - destruct IH as (-> & kv & Hin & Hx). split; [done|]. exists kv. split; [by right|done]. }
  destruct (decide (trust_anchor c)) as [Ht|Ht].
  - destruct (cred_PublicData c) as [d|] eqn:Ed.
    + destruct (ParsePemCertificates (CredentialPublicData_Data d)) as [cas|e] eqn:Ep; apply Hgo; eauto.
      * intros ca. rewrite elem_of_app. unfold ca_of. rewrite Ed. split.
        -- intros [?|?]; [by left|right]. eauto 6.
        -- intros [?|(_ & d' & cas' & [= <-] & Hp & ?)]; [by left|right]. congruence.
      * intros ca. unfold ca_of. rewrite Ed. split; [by left|].
        intros [?|(_ & d' & cas' & [= <-] & Hp & _)]; [done|congruence].
    + split; [done|]. exists (k, c). split; [by left|done].
  - apply Hgo; [|done]. intros ca. unfold ca_of. tauto.
Qed.

(** The CA pool of the device is made of the certificates of its trust anchors:
    the credentials of certificate type whose usage is to trust a CA, as far as
    their public data can be parsed.  It is computed unless one of them has no
    public data at all, which is a nil dereference. *)
Theorem GetCAPool_spec m :
  match GetCAPool m with
  | Ok pool =>
      (∀ k c, m !! k = Some c → trust_anchor c → is_Some (cred_PublicData c)) ∧
      ∀ ca, ca ∈ pool ↔ ∃ k c, m !! k = Some c ∧ ca_of c ca
  | Err e => e = ErrNilPointer ∧
      ∃ k c, m !! k = Some c ∧ trust_anchor c ∧ cred_PublicData c = None
  end.
Proof.
  pose proof (GetCAPool_range_spec (cred_order m) []) as Hr. unfold GetCAPool.
  destruct (GetCAPool_range _ _) as [pool|e].
  - destruct Hr as [Ha Hp]. split.
    + intros k c Hm. by apply (Ha (k, c)), elem_of_order.
    + intros ca. rewrite Hp. split.
      * intros [Hn|([k c] & Hin%elem_of_order & Hc)]; [inversion Hn|]. by exists k, c.
      * intros (k & c & Hm & Hc). right. exists (k, c). split; [by apply elem_of_order|done].
  - destruct Hr as (-> & [k c] & Hin%elem_of_order & Hx). split; [done|]. by exists k, c.
Qed.

(** A hang of the credential manager: once a client has stored a credential
    with the greatest 64-bit ID, and credentials with ID 0 and with the smallest
    ID exist, the addition of a credential without an ID never terminates. *)
Theorem add_diverges m c c0 c1 c2 fuel :
  (∀ k, is_Some (m !! k) → k < 2 ^ 63) →
  m !! (2 ^ 63 - 1) = Some c0 → m !! 0 = Some c1 → m !! (- 2 ^ 63) = Some c2 →
  cred_ID c = 0 → add fuel c m = None.
Proof.
  intros Hb H0 H1 H2 Hc.
  assert (getNextID m = - 2 ^ 63) as Hn.
  { unfold getNextID. destruct (max_spec (cred_order m) 0) as (Hz & Hl & Hr).
    set (r := foldl _ 0 (cred_order m)) in *.
    assert (r = 2 ^ 63 - 1) as ->; [|done].
    pose proof (proj2 (elem_of_order _ _ _) H0) as Hin. apply Hl in Hin.
    destruct Hr as [-> |[c' Hc']]; [lia|]. apply elem_of_order in Hc'.
    assert (r < 2 ^ 63) by (apply Hb; eauto). lia. }
  destruct fuel as [|f]; [done|]. cbn [add]. rewrite Hc, H1, Hn.
  generalize (set_cred_ID (- 2 ^ 63) c) (eq_refl : cred_ID (set_cred_ID (- 2 ^ 63) c) = - 2 ^ 63).
  induction f as [|f IH]; intros c' Hc'; [done|]. cbn [add]. rewrite Hc', H2, Hn. by apply IH.
Qed.
End Laws.
End Manager.

(** ** The properties at concrete inputs *)

Section Examples.
#[local] Instance ex_CredEnv : CredEnv := {|
  Cert := string;
  pem_Decode data := match data with "" => (None, "") | _ => (Some data, "") end;
  x509_ParseCertificates der := Ok [der];
  cred_order m := map_to_list m |}.
#[local] Instance ex_CredEnvLaws : CredEnvLaws.
Proof.
  split; [done|]. intros [|c s] der rest; cbn; intros [= <- <-]. cbn. lia.
Qed.
Definition ex_cred (id : Z) (subject : string) : Credential :=
  {| cred_ID := id; cred_Type := 8; cred_Subject := subject; cred_Usage := "oic.sec.cred.trustca";
     cred_SupportedRefreshMethods := []; cred_OptionalData := None; cred_Period := "";
     cred_PrivateData := Some {| priv_DataInternal := DataString "key"; priv_Encoding := ""; priv_Handle := 0 |};
     cred_PublicData := Some {| pub_DataInternal := DataString "ca"; pub_Encoding := "" |};
     cred_RoleID := None; cred_Tag := "" |}.
Definition ex_creds : gmap Z Credential :=
  <[0 := ex_cred 0 "a"]> (<[7 := ex_cred 7 "cloud"]> ∅).
Lemma ex_creds_wf : wf ex_creds.
Proof.
  intros k c. unfold ex_creds. intros [[<- <-]|[_ H]]%lookup_insert_Some; [done|].
  apply lookup_insert_Some in H as [[<- <-]|[_ H]]; [done|]. by rewrite lookup_empty in H.
Qed.
Lemma ex_creds_below : ids_below (2 ^ 63 - 1) ex_creds.
Proof.
  intros k [c H]. unfold ex_creds in H. apply lookup_insert_Some in H as [[<- _]|[_ H]]; [lia|].
  apply lookup_insert_Some in H as [[<- _]|[_ H]]; [lia|]. by rewrite lookup_empty in H.
Qed.
Lemma AddOrReplaceCredential_spec_witness :
  getNextID ex_creds = 8 ∧
  ∃ m', AddOrReplaceCredential 2 (ex_cred 0 "b") ex_creds = Some m' ∧ wf m' ∧
    ∃ id, ex_creds !! id = None ∧ m' = <[id := set_cred_ID id (ex_cred 0 "b")]> ex_creds.
Proof.
  split; [vm_compute; reflexivity|].
  apply (AddOrReplaceCredential_spec 0 (ex_cred 0 "b") ex_creds ex_creds_wf ex_creds_below).
Defined.
Lemma credentials_export_import_witness : New 1 (ExportConfig ex_creds) = Some ex_creds.
Proof. apply (credentials_export_import 0 ex_creds ex_creds_wf). Defined.
Lemma getRep_hides_private_witness :
  set_cred_PrivateData None (ex_cred 7 "cloud") ∈ crsp_Credentials (getRep false ex_creds).
Proof.
  apply (getRep_hides_private ex_creds). exists 7, (ex_cred 7 "cloud"). split; reflexivity.
Defined.
Lemma RemoveCredentialsBySubjects_spec_witness :
  RemoveCredentialsBySubjects ["cloud"] ex_creds !! 7 = None ∧
  RemoveCredentialsBySubjects ["cloud"] ex_creds !! 0 = Some (ex_cred 0 "a").
Proof.
  split; (etransitivity; [apply (RemoveCredentialsBySubjects_spec ["cloud"] ex_creds)|]);
    vm_compute; reflexivity.
Defined.
Lemma GetCAPool_spec_witness :
  ∃ pool, GetCAPool ex_creds = Ok pool ∧
    ∀ ca, ca ∈ pool ↔ ∃ k c, ex_creds !! k = Some c ∧ ca_of c ca.
Proof.
  pose proof (GetCAPool_spec ex_creds) as Hs.
  destruct (GetCAPool ex_creds) as [pool|e] eqn:E; [exists pool; tauto|].
  exfalso. vm_compute in E. discriminate.
Defined.
Definition ex_full : gmap Z Credential :=
  <[2 ^ 63 - 1 := ex_cred (2 ^ 63 - 1) "x"]> (<[- 2 ^ 63 := ex_cred (- 2 ^ 63) "y"]> ex_creds).
Lemma add_diverges_witness : add 1000 (ex_cred 0 "b") ex_full = None.
Proof.
  apply (add_diverges ex_full (ex_cred 0 "b") (ex_cred (2 ^ 63 - 1) "x") (ex_cred 0 "a")
    (ex_cred (- 2 ^ 63) "y") 1000).
  - intros k [c H]. unfold ex_full in H. apply lookup_insert_Some in H as [[<- _]|[_ H]]; [lia|].
    apply lookup_insert_Some in H as [[<- _]|[_ H]]; [lia|].
    assert (k < 2 ^ 63 - 1) by (apply ex_creds_below; eauto). lia.
  - vm_compute. reflexivity.
  - vm_compute. reflexivity.
  - vm_compute. reflexivity.
  - reflexivity.
Defined.
End Examples.
