(* ===== verification/BridgeResource.v ===== *)
(** * BridgeResource: a resource of a bridged device

    [src/bridge/resources/resource.go], [etag.go]: request dispatch, the
    observation protocol with its subscriptions, and the entity tags.

    The connections, the event loop and the code of the handlers that are given to a
    resource are the class [ResourceEnv], with arbitrary answers.  The handlers are
    closures: a resource keeps which variables its own capture, [r_captured], and the
    class is called with these.  A
    subscription is the number the environment returned for it; the closure that
    [observerHandler] passes to [createSubscription] is a record of its captured
    variables, kept in [r_closures] under that number. *)

From S2P Require Export Coap.

(** ** Helpers *)

Fixpoint Unique_aux (seen : gset string) (strSlice : list string) : list string :=
  match strSlice with
  | [] => []
  | item :: rest => if bool_decide (item ∈ seen) then Unique_aux seen rest
                    else item :: Unique_aux ({[item]} ∪ seen) rest
  end.
Definition Unique (strSlice : list string) : list string := Unique_aux ∅ strSlice.

(** [GetETag] with the clock, the global tag and the random number it read; the
    compare-and-swap that fails is the next call. *)
Definition generateNextETag (currentETag rnd : Z) : Z := u64 (currentETag + rnd mod 1000).
Definition GetETag (now oldEtag rnd : Z) : Z :=
  let etag := if now >? oldEtag then now else oldEtag in generateNextETag etag rnd.

(** [binary.BigEndian.PutUint64] and its inverse. *)
Definition PutUint64 (v : Z) : list Z :=
  (fun i => Z.land (Z.shiftr v (8 * (7 - i))) 255) <$> [0; 1; 2; 3; 4; 5; 6; 7].
Definition Uint64 (b : list Z) : Z := foldl (fun acc x => Z.lor (Z.shiftl acc 8) x) 0 b.

Definition calcCRC64 (body : option string) : Z :=
  match body with None => 0 | Some b => crc64_iso b end.

Definition PublishToCloud : BitMask := 128.
Definition SupportedOperationRead : Z := 1.
Definition SupportedOperationWrite : Z := 2.
Definition SupportedOperationObserve : Z := 4.
Definition HasOperation (o operation : Z) : bool := negb (Z.land o operation =? 0).

(** ** The environment of a resource *)

(** The variables that the handlers of a resource capture, by the call that made them: for
    which device, and under which reference. *)
Record Captured := { cap_device : string; cap_href : string }.

Class ResourceEnv := {
  REnv : Type;
  renv_get : Captured → Request → REnv → result (option Message) * REnv;   (** [getHandler] *)
  renv_post : Captured → Request → REnv → result (option Message) * REnv;  (** [postHandler] *)
  renv_subscribe : Captured → Request → REnv → result nat * REnv;          (** [createSubscription] *)
  renv_write : string → Message → REnv → result unit * REnv;         (** [Conn.WriteMessage] *)
  renv_etag : REnv → Z * REnv;                                       (** [GetETag] *)
  renv_notifications : REnv → list (nat * result Message) * REnv }.
                                             (** callbacks run while [getHandler] runs *)

Inductive REvent :=
  | EvSubscribed (id : nat)
  | EvCancel (id : nat)
  | EvWrite (addr : string) (m : Message).

(** The variables a notification callback captures. *)
Record Closure := {
  cl_conn : string;              (** remote address of the observer *)
  cl_token : option string;
  cl_sequence : Z;
  cl_dedup : Z }.

(** [r_subs] is [createdSubscription]; [r_watched] lists the observers whose
    connection the event loop watches. *)
Record Resource := {
  r_Href : string;
  r_captured : Captured;
  r_ResourceInterfaces : list string;
  r_PolicyBitMask : BitMask;
  r_hasGet : bool;
  r_hasPost : bool;
  r_hasSubscription : bool;
  r_closed : bool;
  r_subs : gmap string nat;
  r_etag : Z;
  r_loop : bool;
  r_types : list string;
  r_closures : gmap nat Closure;
  r_watched : list string }.

Definition set_types (x : list string) (r : Resource) : Resource :=
  {| r_Href := r_Href r; r_captured := r_captured r; r_ResourceInterfaces := r_ResourceInterfaces r;
     r_PolicyBitMask := r_PolicyBitMask r; r_hasGet := r_hasGet r; r_hasPost := r_hasPost r;
     r_hasSubscription := r_hasSubscription r; r_closed := r_closed r; r_subs := r_subs r;
     r_etag := r_etag r; r_loop := r_loop r; r_types := x; r_closures := r_closures r;
     r_watched := r_watched r |}.
Definition set_observe_fields (mask : BitMask) (sub loop : bool) (r : Resource) : Resource :=
  {| r_Href := r_Href r; r_captured := r_captured r; r_ResourceInterfaces := r_ResourceInterfaces r; r_PolicyBitMask := mask;
     r_hasGet := r_hasGet r; r_hasPost := r_hasPost r; r_hasSubscription := sub;
     r_closed := r_closed r; r_subs := r_subs r; r_etag := r_etag r; r_loop := loop;
     r_types := r_types r; r_closures := r_closures r; r_watched := r_watched r |}.
Definition set_closed (x : bool) (r : Resource) : Resource :=
  {| r_Href := r_Href r; r_captured := r_captured r; r_ResourceInterfaces := r_ResourceInterfaces r;
     r_PolicyBitMask := r_PolicyBitMask r; r_hasGet := r_hasGet r; r_hasPost := r_hasPost r;
     r_hasSubscription := r_hasSubscription r; r_closed := x; r_subs := r_subs r;
     r_etag := r_etag r; r_loop := r_loop r; r_types := r_types r; r_closures := r_closures r;
     r_watched := r_watched r |}.
Definition set_subs (x : gmap string nat) (r : Resource) : Resource :=
  {| r_Href := r_Href r; r_captured := r_captured r; r_ResourceInterfaces := r_ResourceInterfaces r;
     r_PolicyBitMask := r_PolicyBitMask r; r_hasGet := r_hasGet r; r_hasPost := r_hasPost r;
     r_hasSubscription := r_hasSubscription r; r_closed := r_closed r; r_subs := x;
     r_etag := r_etag r; r_loop := r_loop r; r_types := r_types r; r_closures := r_closures r;
     r_watched := r_watched r |}.
Definition set_etag_field (x : Z) (r : Resource) : Resource :=
  {| r_Href := r_Href r; r_captured := r_captured r; r_ResourceInterfaces := r_ResourceInterfaces r;
     r_PolicyBitMask := r_PolicyBitMask r; r_hasGet := r_hasGet r; r_hasPost := r_hasPost r;
     r_hasSubscription := r_hasSubscription r; r_closed := r_closed r; r_subs := r_subs r;
     r_etag := x; r_loop := r_loop r; r_types := r_types r; r_closures := r_closures r;
     r_watched := r_watched r |}.
Definition set_closures (x : gmap nat Closure) (r : Resource) : Resource :=
  {| r_Href := r_Href r; r_captured := r_captured r; r_ResourceInterfaces := r_ResourceInterfaces r;
     r_PolicyBitMask := r_PolicyBitMask r; r_hasGet := r_hasGet r; r_hasPost := r_hasPost r;
     r_hasSubscription := r_hasSubscription r; r_closed := r_closed r; r_subs := r_subs r;
     r_etag := r_etag r; r_loop := r_loop r; r_types := r_types r; r_closures := x;
     r_watched := r_watched r |}.
Definition set_watched (x : list string) (r : Resource) : Resource :=
  {| r_Href := r_Href r; r_captured := r_captured r; r_ResourceInterfaces := r_ResourceInterfaces r;
     r_PolicyBitMask := r_PolicyBitMask r; r_hasGet := r_hasGet r; r_hasPost := r_hasPost r;
     r_hasSubscription := r_hasSubscription r; r_closed := r_closed r; r_subs := r_subs r;
     r_etag := r_etag r; r_loop := r_loop r; r_types := r_types r; r_closures := r_closures r;
     r_watched := x |}.

(** ** Pure operations *)

Definition SetResourceTypes (resourceTypes : list string) (r : Resource) : Resource :=
  set_types (Unique resourceTypes) r.

(** [getHandler] and [postHandler] are nil or not, and capture [captured]. *)
Definition NewResource (href : string) (captured : Captured) (hasGet hasPost : bool)
    (resourceTypes resourceInterfaces : list string) (etag : Z) : Resource :=
  set_etag_field etag (SetResourceTypes resourceTypes
    {| r_Href := href; r_captured := captured; r_ResourceInterfaces := Unique resourceInterfaces;
       r_PolicyBitMask := Z.lor Discoverable PublishToCloud; r_hasGet := hasGet;
       r_hasPost := hasPost; r_hasSubscription := false; r_closed := false; r_subs := ∅;
       r_etag := 0; r_loop := false; r_types := []; r_closures := ∅; r_watched := [] |}).

Definition SupportsOperations (r : Resource) : Z :=
  let operations := 0 in
  let operations := if r_hasGet r then Z.lor operations SupportedOperationRead else operations in
  let operations := if r_hasPost r then Z.lor operations SupportedOperationWrite else operations in
  if negb (Z.land (r_PolicyBitMask r) Observable =? 0)
  then Z.lor operations SupportedOperationObserve else operations.

(** [createSubscription] is nil or not. *)
Definition SetObserveHandler (loop createSubscription : bool) (r : Resource) : Resource :=
  if negb createSubscription
  then set_observe_fields (and_not (r_PolicyBitMask r) Observable) false false r
  else set_observe_fields (Z.lor (r_PolicyBitMask r) Observable) true loop r.

Definition ETag (r : Resource) : option (list Z) :=
  if r_etag r =? 0 then None else Some (PutUint64 (r_etag r)).

(** A message carries its tag as the characters of these bytes. *)
Definition etag_option (r : Resource) : option string :=
  (fun b => String.string_of_list_ascii ((fun x => ascii_of_N (Z.to_N x)) <$> b)) <$> ETag r.
Definition with_etag (r : Resource) (m : Message) : Message :=
  match etag_option r with Some e => set_etag (Some e) m | None => m end.

(** ** Operations with effects *)

Section Resource.
Context `{HREnv : ResourceEnv}.

Record RWorld := { rw_r : Resource; rw_env : REnv; rw_trace : list REvent }.
Abbreviation R := (ME RWorld).
Definition getr {A} (f : Resource → A) : R A := gets (fun w => f (rw_r w)).
Definition updr (f : Resource → Resource) : R unit :=
  modify (fun w => {| rw_r := f (rw_r w); rw_env := rw_env w; rw_trace := rw_trace w |}).
Definition remit (ev : REvent) : R unit :=
  modify (fun w => {| rw_r := rw_r w; rw_env := rw_env w; rw_trace := rw_trace w ++ [ev] |}).
Definition rask {A} (f : REnv → A * REnv) : R A :=
  fun w => let '(a, e) := f (rw_env w) in
           (Ok a, {| rw_r := rw_r w; rw_env := e; rw_trace := rw_trace w |}).

(** The calls of the resource's own handlers. *)
Definition call_get (req : Request) : R (option Message) :=
  captured ← getr r_captured; r ← rask (renv_get captured req); lift r.
Definition call_post (req : Request) : R (option Message) :=
  captured ← getr r_captured; r ← rask (renv_post captured req); lift r.

Definition UpdateETag : R unit := e ← rask renv_etag; updr (set_etag_field e).

(** [Close] cancels the subscriptions and leaves them in the map. *)
Definition Close : R unit :=
  closed ← getr r_closed;
  if closed : bool then mret tt
  else
    updr (set_closed true);;
    subs ← getr r_subs;
    each (fun kv : string * nat => remit (EvCancel kv.2)) (map_to_list subs).

Definition removeSubscription (key : string) : R unit :=
  subs ← getr r_subs;
  updr (set_subs (delete key subs));;
  match subs !! key with
  | Some id => remit (EvCancel id)
  | None => mret tt
  end.

Definition WriteMessage (addr : string) (m : Message) : R (result unit) :=
  remit (EvWrite addr m);; rask (renv_write addr m).

(** The callback of the subscription [id], called with a message or an error. *)
Definition notify (id : nat) (arg : result Message) : R unit :=
  closures ← getr r_closures;
  match closures !! id with
  | None => mret tt
  | Some c =>
      let send resp :=
        r ← getr (fun r => r);
        w ← WriteMessage (cl_conn c) (with_etag r (set_token (cl_token c) resp));
        match w with Ok _ => mret tt | Err _ => removeSubscription (cl_conn c) end in
      match arg with
      | Ok resp =>
          let d := calcCRC64 (m_body resp) in
          if cl_dedup c =? d then mret tt
          else
            let seq := u32 (cl_sequence c + 1) in
            updr (set_closures (<[id := {| cl_conn := cl_conn c; cl_token := cl_token c;
                                           cl_sequence := seq; cl_dedup := d |}]> closures));;
            send (set_observe seq resp)
      | Err err =>
          href ← getr r_Href;
          (match CreateResponseBadRequest (ErrWrap ("error while observing " +:+ href) err) with
           | Err _ => mret tt
           | Ok resp => send resp
           end);;
          (* the deferred call *)
          removeSubscription (cl_conn c)
      end
  end.

(** The callbacks that other goroutines run during a call of [getHandler]. *)
Definition rinterfere : R unit :=
  fun w => let '(notes, e) := renv_notifications (rw_env w) in
           (Ok tt, foldl (fun w n => (notify n.1 n.2 w).2)
                     {| rw_r := rw_r w; rw_env := e; rw_trace := rw_trace w |} notes).

(** The closures of the event loop: the context of the observer is done. *)
Definition handleConnDone (addr : string) : R unit := removeSubscription addr.

Definition observerHandler (req : Request) (createSubscription : bool) : R (option Message) :=
  loop ← getr r_loop;
  if negb loop
  then m ← lift (CreateErrorResponse codes_InternalServerError
                   (ErrText "event loop is not initialized")); mret (Some m)
  else if negb createSubscription
  then
    removeSubscription (req_Conn req);;
    call_get req
  else
    captured ← getr r_captured;
    sub ← rask (renv_subscribe captured req);
    match sub with
    | Err err => m ← lift (CreateResponseBadRequest err); mret (Some m)
    | Ok id =>
        remit (EvSubscribed id);;
        closures ← getr r_closures;
        updr (set_closures (<[id := {| cl_conn := req_Conn req; cl_token := m_token (req_msg req);
                                       cl_sequence := 1; cl_dedup := 0 |}]> closures));;
        r ← rask (renv_get captured req);
        rinterfere;;
        match r with
        | Err err => remit (EvCancel id);; fail err
        | Ok None => fail ErrNilPointer
        | Ok (Some resp) =>
            let d := calcCRC64 (m_body resp) in
            closures ← getr r_closures;
            let seq := u32 (from_option cl_sequence 1 (closures !! id) + 1) in
            updr (set_closures (<[id := {| cl_conn := req_Conn req;
              cl_token := m_token (req_msg req); cl_sequence := seq; cl_dedup := d |}]> closures));;
            let resp := set_observe seq (set_token (m_token (req_msg req)) resp) in
            subs ← getr r_subs;
            updr (set_subs (<[req_Conn req := id]> subs));;
            (match subs !! req_Conn req with
             | Some old => remit (EvCancel old)
             | None => mret tt
             end);;
            watched ← getr r_watched;
            updr (set_watched (watched ++ [req_Conn req]));;
            mret (Some resp)
        end
    end.

Definition HandleRequest (req : Request) : R (option Message) :=
  r ← getr (fun r => r);
  if (m_code (req_msg req) =? GET) && r_hasGet r
  then
    resp ← (match m_observe (req_msg req) with
            | Some obs =>
                if r_hasSubscription r && negb (Z.land (r_PolicyBitMask r) Observable =? 0)
                then observerHandler req (obs =? 0)
                else call_get req
            | None => call_get req
            end);
    match resp with
    | Some m => if m_code m =? codes_Content
                then r ← getr (fun r => r); mret (Some (with_etag r m))
                else mret (Some m)
    | None => mret None
    end
  else if (m_code (req_msg req) =? POST) && r_hasPost r
  then call_post req
  else mret (Some (CreateResponseMethodNotAllowed (m_token (req_msg req)))).

End Resource.
