(* ===== verification/BridgeResourceProps.v ===== *)
(** * BridgeResourceProps: properties of a resource

    Entity tags, the life of subscriptions in every reachable state, the
    numbering and deduplication of notifications, and the dispatch of requests. *)

From S2P Require Export BridgeResource.

(** ** Pure functions *)

Lemma Unique_aux_spec seen l :
  NoDup (Unique_aux seen l) ∧ Unique_aux seen l `sublist_of` l ∧
  ∀ x, x ∈ Unique_aux seen l ↔ x ∈ l ∧ x ∉ seen.
Proof.
  revert seen. induction l as [|y l IH]; intros seen; simpl.
  - split_and!; [constructor | constructor | set_solver].
  - case_bool_decide as Hy.
    + destruct (IH seen) as (Hn & Hs & Hx). split_and!; [done | by constructor|].
      intros x. rewrite Hx. set_solver.
    + destruct (IH ({[y]} ∪ seen)) as (Hn & Hs & Hx). split_and!.
      * constructor; [|done]. rewrite Hx. set_solver.
      * by constructor.
      * intros x. rewrite !elem_of_cons, Hx. destruct (decide (x = y)); set_solver.
Qed.

(** Deduplication of the resource types and interfaces: the result has no
    duplicates, the same elements, and keeps the order of the argument. *)
Theorem Unique_spec l :
  NoDup (Unique l) ∧ Unique l `sublist_of` l ∧ ∀ x, x ∈ Unique l ↔ x ∈ l.
Proof.
  destruct (Unique_aux_spec ∅ l) as (Hn & Hs & Hx). split_and!; [done | done|].
  intros x. unfold Unique. rewrite Hx. set_solver.
Qed.

Lemma shiftr8 v k k' : 0 <= v → 0 <= k → k' = k + 8 →
  Z.lor (Z.shiftl (Z.shiftr v k') 8) (Z.land (Z.shiftr v k) 255) = Z.shiftr v k.
Proof.
  intros Hv Hk ->. change 255 with (Z.ones 8). rewrite Z.land_ones by lia.
  rewrite <- Z.shiftr_shiftr by lia. set (x := Z.shiftr v k).
  rewrite Z.shiftr_div_pow2, Z.shiftl_mul_pow2 by lia.
  rewrite Z.lor_comm. apply Z.bits_inj'. intros n Hn. rewrite Z.lor_spec.
  destruct (Z.lt_ge_cases n 8).
  - rewrite Z.mod_pow2_bits_low by lia. rewrite Z.mul_pow2_bits_low by lia. by rewrite orb_false_r.
  - rewrite Z.mod_pow2_bits_high by lia. rewrite Z.mul_pow2_bits by lia.
    rewrite Z.div_pow2_bits by lia. simpl. f_equal. lia.
Qed.

Lemma Uint64_PutUint64 v : 0 <= v < 2 ^ 64 → Uint64 (PutUint64 v) = v.
Proof.
  intros Hv. unfold Uint64, PutUint64. cbn [fmap list_fmap foldl].
  assert (Z.shiftr v 64 = 0) as H64 by (rewrite Z.shiftr_div_pow2 by lia; apply Z.div_small; lia).
  rewrite <- H64 at 1. rewrite !shiftr8 by lia. apply Z.shiftr_0_r.
Qed.

(** Entity tags: the tag of a resource is absent exactly when the stored
    number is zero; otherwise it is eight bytes that determine the number. *)
Theorem ETag_roundtrip r :
  0 <= r_etag r < 2 ^ 64 →
  match ETag r with
  | None => r_etag r = 0
  | Some b => r_etag r ≠ 0 ∧ length b = 8%nat ∧ Forall (fun x => 0 <= x < 256) b ∧
              Uint64 b = r_etag r
  end.
Proof.
  intros Hr. unfold ETag. destruct (Z.eqb_spec (r_etag r) 0); [done|].
  split_and!; [done | done | | by apply Uint64_PutUint64].
  unfold PutUint64. apply Forall_fmap, Forall_forall. intros i _. simpl.
  change 255 with (Z.ones 8). rewrite Z.land_ones by lia. apply Z.mod_pos_bound. lia.
Qed.

(** The next entity tag: it is at least the clock and at least the tag before,
    less than a thousand above the greater of the two, and it is equal to the tag
    before exactly when the clock has not passed that tag and the random number
    is a multiple of a thousand. *)
Theorem GetETag_spec now old rnd :
  0 <= now < 2 ^ 64 - 1000 → 0 <= old < 2 ^ 64 - 1000 → 0 <= rnd →
  Z.max now old <= GetETag now old rnd < Z.max now old + 1000 ∧
  (GetETag now old rnd = old ↔ now <= old ∧ rnd mod 1000 = 0).
Proof.
  intros Hn Ho Hr. unfold GetETag, generateNextETag.
  pose proof (Z.mod_pos_bound rnd 1000 ltac:(lia)) as Hm. rewrite Z.gtb_ltb.
  assert (∀ x, 0 <= x < 2 ^ 64 → u64 x = x) as Hu by (intros; by apply wrap_small).
  destruct (Z.ltb_spec old now); rewrite Hu by lia; lia.
Qed.

(** The operations a resource supports: reading and writing as it has a GET
    and a POST handler, observing exactly while an observe handler is set. *)
Theorem SupportsOperations_spec href captured hasGet hasPost rts ifs etag loop sub :
  let o := SupportsOperations
             (SetObserveHandler loop sub (NewResource href captured hasGet hasPost rts ifs etag)) in
  HasOperation o SupportedOperationRead = hasGet ∧
  HasOperation o SupportedOperationWrite = hasPost ∧
  HasOperation o SupportedOperationObserve = sub.
Proof. destruct hasGet, hasPost, sub; vm_compute; done. Qed.

(** ** The life of subscriptions *)

Section Life.
Context `{HREnv : ResourceEnv}.

(** The answer of a [getHandler] is a message or an error. *)
Class GetNonNil := get_non_nil : ∀ c q e, (renv_get c q e).1 ≠ Ok None.

(** Every subscription that was opened has been cancelled or belongs to an
    observer, apart from those of [X]. *)
Definition accounted (X : gset nat) (w : RWorld) : Prop :=
  ∀ id, EvSubscribed id ∈ rw_trace w →
    EvCancel id ∈ rw_trace w ∨ id ∈ X ∨ ∃ k, r_subs (rw_r w) !! k = Some id.

Lemma accounted_weaken X Y w : X ⊆ Y → accounted X w → accounted Y w.
Proof. intros HXY H id Hid. destruct (H id Hid) as [?|[?|?]]; auto. Qed.

Lemma accounted_rask {A} X (f : REnv → A * REnv) : keeps (accounted X) (rask f).
Proof. intros w Hw. unfold rask. by destruct (f (rw_env w)). Qed.
Lemma accounted_getr {A} X (f : Resource → A) : keeps (accounted X) (getr f).
Proof. by intros w Hw. Qed.
Lemma accounted_updr X f : (∀ r, r_subs (f r) = r_subs r) → keeps (accounted X) (updr f).
Proof. intros Hf w Hw id Hid. simpl in *. rewrite Hf. by apply Hw. Qed.
Lemma accounted_remit X ev :
  match ev with EvSubscribed _ => False | _ => True end → keeps (accounted X) (remit ev).
Proof.
  intros Hev w Hw id Hid. simpl in *. apply elem_of_app in Hid as [Hid|Hid].
  - destruct (Hw id Hid) as [?|?]; [left; set_solver | by right].
  - apply list_elem_of_singleton in Hid. by subst ev.
Qed.
Lemma accounted_cancel X id :
  triple (accounted ({[id]} ∪ X)) (remit (EvCancel id)) (fun _ => accounted X).
Proof.
  intros w Hw i Hi. simpl in *. apply elem_of_app in Hi as [Hi|Hi%list_elem_of_singleton]; [|done].
  destruct (Hw i Hi) as [?|[?|?]]; [left; set_solver | | by right; right].
  destruct (decide (i = id)) as [->|]; [left; set_solver | right; left; set_solver].
Qed.
Hint Resolve accounted_rask accounted_getr : keeps.
Lemma accounted_call_get X req : keeps (accounted X) (call_get req).
Proof. unfold call_get. keeps_tac. Qed.
Lemma accounted_call_post X req : keeps (accounted X) (call_post req).
Proof. unfold call_post. keeps_tac. Qed.
Hint Resolve accounted_call_get accounted_call_post : keeps.

Lemma accounted_removeSubscription X key : keeps (accounted X) (removeSubscription key).
Proof.
  unfold removeSubscription.
  apply triple_bind with (T := fun subs w => accounted X w ∧ subs = r_subs (rw_r w)); [done|].
  intros subs.
  apply triple_seq with (T := fun w => match subs !! key with
    | Some id => accounted ({[id]} ∪ X) w | None => accounted X w end).
  { intros w [Hw ->]. simpl. destruct (r_subs (rw_r w) !! key) as [id|] eqn:E; intros i Hi; simpl in *.
    - destruct (Hw i Hi) as [?|[?|[k Hk]]]; [by left | right; left; set_solver|].
      destruct (decide (i = id)) as [->|]; [right; left; set_solver|].
      right; right. exists k. rewrite lookup_delete_ne; [done|]. congruence.
    - destruct (Hw i Hi) as [?|[?|[k Hk]]]; [by left | by right; left|].
      right; right. exists k. rewrite lookup_delete_ne; [done|]. congruence. }
  intros _. destruct (subs !! key) as [id|]; [apply accounted_cancel | by intros w Hw].
Qed.
Hint Resolve accounted_removeSubscription : keeps.

Lemma accounted_notify X id arg : keeps (accounted X) (notify id arg).
Proof.
  unfold notify, WriteMessage. keeps_tac; try (by apply accounted_remit); by apply accounted_updr.
Qed.
Hint Resolve accounted_notify : keeps.
Lemma accounted_rinterfere X : keeps (accounted X) rinterfere.
Proof.
  intros w Hw. unfold rinterfere. destruct (renv_notifications (rw_env w)) as [notes e]. simpl.
  generalize (Hw : accounted X {| rw_r := rw_r w; rw_env := e; rw_trace := rw_trace w |}).
  generalize {| rw_r := rw_r w; rw_env := e; rw_trace := rw_trace w |}.
  induction notes as [|n notes IH]; intros w0 Hw0; simpl; [done|]. apply IH.
  by apply (accounted_notify X n.1 n.2 w0).
Qed.
Lemma accounted_Close X : keeps (accounted X) Close.
Proof.
  unfold Close. apply keeps_bind; [auto with keeps | intros [|]; [by intros w Hw|]].
  apply keeps_bind; [by apply accounted_updr | intros _].
  apply keeps_bind; [auto with keeps | intros subs].
  apply keeps_each. intros [k id]. by apply accounted_remit.
Qed.

Lemma each_remit_trace {A} (f : A → REvent) l w :
  rw_trace (each (fun x => remit (f x)) l w).2 = rw_trace w ++ (f <$> l).
Proof.
  revert w. induction l as [|x l IH]; intros w; [symmetry; apply app_nil_r|].
  cbn [each]. unfold mbind, ME_bind. simpl. rewrite IH. simpl. by rewrite <- app_assoc.
Qed.
Lemma Close_eq w :
  rw_trace (Close w).2 = rw_trace w ++
    (if r_closed (rw_r w) then [] else (fun kv => EvCancel kv.2) <$> map_to_list (r_subs (rw_r w))).
Proof.
  unfold Close, mbind, ME_bind, getr, gets. simpl. destruct (r_closed (rw_r w)).
  - symmetry. apply app_nil_r.
  - etransitivity; [apply (each_remit_trace (fun kv : string * nat => EvCancel kv.2))|]. done.
Qed.
Lemma Close_trace w ev : ev ∈ rw_trace w → ev ∈ rw_trace (Close w).2.
Proof. rewrite Close_eq. set_solver. Qed.
Lemma Close_cancels w k id :
  r_subs (rw_r w) !! k = Some id → r_closed (rw_r w) = false → EvCancel id ∈ rw_trace (Close w).2.
Proof.
  intros Hk Hc. rewrite Close_eq, Hc. apply elem_of_app. right.
  apply list_elem_of_fmap. exists (k, id). split; [done|]. by apply elem_of_map_to_list.
Qed.

Lemma accounted_observerHandler `{!GetNonNil} req b :
  keeps (accounted ∅) (observerHandler req b).
Proof.
  unfold observerHandler. apply keeps_bind; [auto with keeps | intros loop].
  destruct (negb loop); [keeps_tac|]. destruct (negb b); [keeps_tac|].
  apply keeps_bind; [auto with keeps | intros captured].
  apply keeps_bind; [auto with keeps | intros [id|e]; [|keeps_tac]].
  apply triple_seq with (T := accounted {[id]}).
  { intros w Hw i Hi. simpl in *. apply elem_of_app in Hi as [Hi|Hi%list_elem_of_singleton].
    - destruct (Hw i Hi) as [?|[?|?]]; [left; set_solver | set_solver | by right; right].
    - injection Hi as ->. right; left. set_solver. }
  intros _. apply triple_seq with (T := accounted {[id]}); [by intros w Hw | intros closures].
  apply triple_seq with (T := accounted {[id]}); [by apply accounted_updr | intros _].
  apply triple_bind with (T := fun r w => accounted {[id]} w ∧ r ≠ Ok None).
  { intros w Hw. unfold rask. pose proof (get_non_nil captured req (rw_env w)) as Hn.
    destruct (renv_get captured req (rw_env w)). done. }
  intros r. apply triple_seq with (T := fun w => accounted {[id]} w ∧ r ≠ Ok None).
  { intros w [Hw Hr]. pose proof (accounted_rinterfere {[id]} w Hw) as Hi.
    unfold rinterfere in *. by destruct (renv_notifications (rw_env w)). }
  intros _. destruct r as [[resp|]|err]; [|by intros w []|].
  2:{ apply triple_seq with (T := accounted ∅); [|by intros _ w Hw].
      apply (triple_pre _ (accounted ({[id]} ∪ ∅))); [|apply accounted_cancel].
      intros w [Hw _]. by rewrite union_empty_r_L. }
  apply (triple_pre _ (accounted {[id]})); [by intros w []|].
  apply triple_seq with (T := accounted {[id]}); [by intros w Hw | intros cl].
  apply triple_seq with (T := accounted {[id]}); [by apply accounted_updr | intros _].
  apply triple_bind with (T := fun subs w => accounted {[id]} w ∧ subs = r_subs (rw_r w)); [done|].
  intros subs. apply triple_seq with (T := fun w => match subs !! req_Conn req with
    | Some old => accounted ({[old]} ∪ ∅) w | None => accounted ∅ w end).
  { intros w [Hw ->]. simpl.
    assert (∀ i, EvSubscribed i ∈ rw_trace w → EvCancel i ∈ rw_trace w ∨
      r_subs (rw_r w) !! req_Conn req = Some i ∨
      ∃ k, <[req_Conn req := id]> (r_subs (rw_r w)) !! k = Some i) as Hacc.
    { intros i Hi. destruct (Hw i Hi) as [?|[->%elem_of_singleton|[k Hk]]]; [by left| |].
      - right; right. exists (req_Conn req). by rewrite lookup_insert_eq.
      - right. destruct (decide (k = req_Conn req)) as [->|]; [by left|].
        right. exists k. by rewrite lookup_insert_ne. }
    destruct (r_subs (rw_r w) !! req_Conn req) as [old|] eqn:Eo; intros i Hi;
      (destruct (Hacc i Hi) as [?|[Hold|?]]; [by left | | by right; right]); [|done].
    injection Hold as <-. right; left. set_solver. }
  intros _. apply triple_seq with (T := accounted ∅).
  { destruct (subs !! req_Conn req) as [old|]; [apply accounted_cancel | by intros w Hw]. }
  intros _. apply (keeps_bind (accounted ∅)); [auto with keeps | intros watched].
  apply (keeps_bind (accounted ∅)); [by apply accounted_updr | intros _]. by intros w Hw.
Qed.

Lemma accounted_HandleRequest `{!GetNonNil} req : keeps (accounted ∅) (HandleRequest req).
Proof.
  unfold HandleRequest. pose proof (accounted_observerHandler req) as Ho. keeps_tac; apply Ho.
Qed.

(** What happens to a resource, in any order. *)
Inductive RLabel := LRequest (req : Request) | LNotify (id : nat) (arg : result Message)
                  | LConnDone (addr : string) | LUpdateETag | LClose.
Definition rrun (l : RLabel) (w : RWorld) : RWorld :=
  match l with
  | LRequest req => (HandleRequest req w).2
  | LNotify id arg => (notify id arg w).2
  | LConnDone addr => (handleConnDone addr w).2
  | LUpdateETag => (UpdateETag w).2
  | LClose => (Close w).2
  end.

Lemma accounted_rrun `{!GetNonNil} l w : accounted ∅ w → accounted ∅ (rrun l w).
Proof.
  intros Hw. destruct l; simpl.
  - by apply accounted_HandleRequest.
  - by apply accounted_notify.
  - by apply accounted_removeSubscription.
  - unfold UpdateETag. apply (keeps_bind (accounted ∅) (rask renv_etag)); [auto with keeps| |done].
    intros e. by apply accounted_updr.
  - by apply accounted_Close.
Qed.

(** C22 No subscription leaks: whatever requests, notifications, write errors and
    disconnections happen to a resource, in any order, every subscription that
    the application opened has been cancelled or is the current subscription of an
    observer; after [Close] every one of them has been cancelled. *)
Theorem subscriptions_accounted `{!GetNonNil} r e ls id :
  let w := foldl (fun w l => rrun l w) {| rw_r := r; rw_env := e; rw_trace := [] |} ls in
  EvSubscribed id ∈ rw_trace w →
  (EvCancel id ∈ rw_trace w ∨ ∃ k, r_subs (rw_r w) !! k = Some id) ∧
  (r_closed (rw_r w) = false → EvCancel id ∈ rw_trace (Close w).2).
Proof.
  intros w Hid.
  assert (accounted ∅ w) as Hw.
  { unfold w. assert (accounted ∅ {| rw_r := r; rw_env := e; rw_trace := [] |}) as H0.
    { intros i Hi. by apply elem_of_nil in Hi. }
    clear Hid w. revert H0. generalize {| rw_r := r; rw_env := e; rw_trace := [] |}.
    induction ls as [|l ls IH]; intros w0 H0; simpl; [done|]. by apply IH, accounted_rrun. }
  destruct (Hw id Hid) as [Hc|[[]%elem_of_empty|[k Hk]]].
  - split; [by left|]. intros _. by apply Close_trace.
  - split; [by right; exists k|]. intros Hcl. by apply (Close_cancels w k).
Qed.

(** ** Numbering and deduplication *)

Lemma last_default {A} (x : A) l d d' : List.last (x :: l) d = List.last (x :: l) d'.
Proof. revert x. induction l as [|y l IH]; intros x; [done|]. apply (IH y). Qed.
Lemma last_cons_default {A} (x : A) l d : List.last (x :: l) d = List.last l x.
Proof. destruct l as [|y l]; [done|]. apply (last_default y l). Qed.

Definition crc (m : Message) : Z := calcCRC64 (m_body m).
(** What the observer is sent for a message, under the number [n]. *)
Definition sent (r : Resource) (c : Closure) (nm : Z * Message) : REvent :=
  EvWrite (cl_conn c) (with_etag r (set_token (cl_token c) (set_observe nm.1 nm.2))).

Definition notify_all (id : nat) (ms : list Message) (w : RWorld) : RWorld :=
  foldl (fun w m => (notify id (Ok m) w).2) w ms.

(** One notification, when the write succeeds. *)
Lemma notify_eq id m w c :
  (∀ a m e, (renv_write a m e).1 = Ok tt) →
  r_closures (rw_r w) !! id = Some c →
  (notify id (Ok m) w).2 = w ∧ cl_dedup c = crc m ∨
  cl_dedup c ≠ crc m ∧
  let c' := {| cl_conn := cl_conn c; cl_token := cl_token c;
               cl_sequence := u32 (cl_sequence c + 1); cl_dedup := crc m |} in
  r_closures (rw_r (notify id (Ok m) w).2) !! id = Some c' ∧
  etag_option (rw_r (notify id (Ok m) w).2) = etag_option (rw_r w) ∧
  rw_trace (notify id (Ok m) w).2 = rw_trace w ++ [sent (rw_r w) c (u32 (cl_sequence c + 1), m)].
Proof.
  intros Hwr Hc. unfold notify, getr, gets, mbind, ME_bind. rewrite Hc.
  destruct (Z.eqb_spec (cl_dedup c) (calcCRC64 (m_body m))) as [E|E]; [by left|]. right. split; [done|].
  unfold updr, modify, WriteMessage, remit, mbind, ME_bind, modify, rask. simpl.
  match goal with |- context [renv_write ?a ?x ?e] =>
    pose proof (Hwr a x e) as Hw; destruct (renv_write a x e) as [r0 e0] end.
  simpl in Hw. subst r0. simpl. by rewrite lookup_insert_eq.
Qed.

Lemma etag_option_sent r r' c : etag_option r = etag_option r' → sent r c = sent r' c.
Proof. intros E. unfold sent, with_etag. by rewrite E. Qed.

(** C9 Notifications of one observer, while its writes succeed: the messages sent
    are a subsequence of the notifications, under strictly increasing observe
    numbers that follow the number of the subscription; two consecutive ones have
    different checksums; and the checksum of the last one sent is that of the last
    notification, so the observer ends with the current representation. *)
Theorem notifications_delivered id ms w c :
  (∀ a m e, (renv_write a m e).1 = Ok tt) →
  r_closures (rw_r w) !! id = Some c →
  0 <= cl_sequence c → cl_sequence c + Z.of_nat (length ms) < 2 ^ 32 →
  ∃ out : list (Z * Message),
    rw_trace (notify_all id ms w) = rw_trace w ++ (sent (rw_r w) c <$> out) ∧
    out.*2 `sublist_of` ms ∧
    StronglySorted Z.lt (cl_sequence c :: out.*1) ∧
    Sorted (fun a b => a ≠ b) (cl_dedup c :: (crc <$> out.*2)) ∧
    List.last (crc <$> out.*2) (cl_dedup c) = List.last (crc <$> ms) (cl_dedup c).
Proof.
  intros Hwr. revert w c. induction ms as [|m ms IH]; intros w c Hc H0 Hlen.
  { exists []. simpl. rewrite app_nil_r. split_and!; repeat constructor. }
  unfold notify_all. cbn [foldl]. rewrite (eq_refl : foldl _ _ ms = notify_all id ms _).
  cbn [length] in Hlen.
  destruct (notify_eq id m w c Hwr Hc) as [[-> E]|(E & Hc' & He & Htr)].
  - destruct (IH w c Hc) as (out & ? & ? & ? & ? & Hlast); [done | lia|]. exists out.
    split_and!; try done; [by constructor|]. rewrite Hlast. cbn [fmap list_fmap].
    by rewrite last_cons_default, E.
  - assert (u32 (cl_sequence c + 1) = cl_sequence c + 1) as Hu by (apply wrap_small; lia).
    rewrite Hu in *.
    destruct (IH _ _ Hc') as (out & Ht & Hs & Hsort & Hd & Hlast); simpl in *; [lia..|].
    exists ((cl_sequence c + 1, m) :: out). split_and!.
    + rewrite Ht, Htr, <- app_assoc. cbn [fmap list_fmap app]. do 2 f_equal.
      by rewrite <- (etag_option_sent _ _ c He).
    + cbn. by constructor.
    + cbn. constructor; [done|]. constructor; [lia|].
      apply StronglySorted_inv in Hsort as [_ Hall].
      eapply Forall_impl; [exact Hall|]. simpl. lia.
    + cbn. constructor; [exact Hd|]. by constructor.
    + change (List.last (crc m :: (crc <$> out.*2)) (cl_dedup c) =
              List.last (crc m :: (crc <$> ms)) (cl_dedup c)).
      rewrite !last_cons_default. exact Hlast.
Qed.

(** ** Dispatch *)

Lemma bind_getr {A B} (f : Resource → A) (k : A → ME RWorld B) w :
  (getr f ≫= k) w = k (f (rw_r w)) w.
Proof. done. Qed.
Lemma bind_updr {B} f (k : unit → ME RWorld B) w :
  (updr f ≫= k) w = k tt {| rw_r := f (rw_r w); rw_env := rw_env w; rw_trace := rw_trace w |}.
Proof. done. Qed.
Lemma bind_remit {B} ev (k : unit → ME RWorld B) w :
  (remit ev ≫= k) w =
    k tt {| rw_r := rw_r w; rw_env := rw_env w; rw_trace := rw_trace w ++ [ev] |}.
Proof. done. Qed.
Lemma bind_rask {A B} (f : REnv → A * REnv) (k : A → ME RWorld B) w :
  (rask f ≫= k) w =
    k (f (rw_env w)).1 {| rw_r := rw_r w; rw_env := (f (rw_env w)).2; rw_trace := rw_trace w |}.
Proof. unfold mbind, ME_bind, rask. by destruct (f (rw_env w)). Qed.
Lemma bind_call_get {B} req (k : option Message → ME RWorld B) w :
  (call_get req ≫= k) w = ((rask (renv_get (r_captured (rw_r w)) req) ≫= fun r => lift r) ≫= k) w.
Proof. done. Qed.
Lemma call_get_eq req w :
  call_get req w = (rask (renv_get (r_captured (rw_r w)) req) ≫= fun r => lift r) w.
Proof. done. Qed.
Lemma call_post_eq req w :
  call_post req w = (rask (renv_post (r_captured (rw_r w)) req) ≫= fun r => lift r) w.
Proof. done. Qed.
Lemma bind_rinterfere {B} (k : unit → ME RWorld B) w :
  (∀ e, (renv_notifications e).1 = []) →
  (rinterfere ≫= k) w =
    k tt {| rw_r := rw_r w; rw_env := (renv_notifications (rw_env w)).2; rw_trace := rw_trace w |}.
Proof.
  intros Hn. unfold mbind, ME_bind, rinterfere. specialize (Hn (rw_env w)).
  destruct (renv_notifications (rw_env w)). simpl in *. by subst.
Qed.
Lemma bind_ok {A B} (m : ME RWorld A) (k : A → ME RWorld B) w a w' :
  m w = (Ok a, w') → (m ≫= k) w = k a w'.
Proof. intros E. unfold mbind, ME_bind. by rewrite E. Qed.

Definition cancelled (old : option nat) : list REvent :=
  match old with Some i => [EvCancel i] | None => [] end.

Lemma removeSubscription_eq key w :
  removeSubscription key w =
    (Ok tt, {| rw_r := set_subs (delete key (r_subs (rw_r w))) (rw_r w); rw_env := rw_env w;
               rw_trace := rw_trace w ++ cancelled (r_subs (rw_r w) !! key) |}).
Proof.
  unfold removeSubscription. rewrite bind_getr, bind_updr.
  destruct (r_subs (rw_r w) !! key); [done|]. simpl. by rewrite app_nil_r.
Qed.

Lemma observe_start req w id resp :
  r_loop (rw_r w) = true →
  (∀ e, (renv_subscribe (r_captured (rw_r w)) req e).1 = Ok id) → (∀ e, (renv_get (r_captured (rw_r w)) req e).1 = Ok (Some resp)) →
  (∀ e, (renv_notifications e).1 = []) →
  ∃ w', observerHandler req true w =
    (Ok (Some (set_observe 2 (set_token (m_token (req_msg req)) resp))), w') ∧
    r_subs (rw_r w') = <[req_Conn req := id]> (r_subs (rw_r w)) ∧
    r_etag (rw_r w') = r_etag (rw_r w) ∧
    r_closures (rw_r w') !! id = Some {| cl_conn := req_Conn req; cl_token := m_token (req_msg req);
                                         cl_sequence := 2; cl_dedup := crc resp |} ∧
    rw_trace w' = rw_trace w ++ EvSubscribed id :: cancelled (r_subs (rw_r w) !! req_Conn req).
Proof.
  intros Hl Hsub Hg Hn. unfold observerHandler. rewrite bind_getr, Hl. cbn [negb].
  rewrite bind_getr, bind_rask, Hsub. cbv iota beta. rewrite bind_remit, bind_getr, bind_updr, bind_rask.
  rewrite bind_rinterfere, Hg by done. cbv iota beta. rewrite bind_getr. cbv zeta.
  rewrite bind_updr, bind_getr, bind_updr. cbn [rw_r rw_env rw_trace r_closures set_closures].
  rewrite lookup_insert_eq. cbn [from_option cl_sequence r_subs set_closures].
  change (u32 (1 + 1)) with 2.
  destruct (r_subs (rw_r w) !! req_Conn req) as [old|]; eexists; (split; [reflexivity|]);
    cbn; rewrite ?lookup_insert_eq, <- ?app_assoc; done.
Qed.

Lemma observe_stop req w resp :
  r_loop (rw_r w) = true → (∀ e, (renv_get (r_captured (rw_r w)) req e).1 = Ok (Some resp)) →
  ∃ e, observerHandler req false w = (Ok (Some resp),
    {| rw_r := set_subs (delete (req_Conn req) (r_subs (rw_r w))) (rw_r w); rw_env := e;
       rw_trace := rw_trace w ++ cancelled (r_subs (rw_r w) !! req_Conn req) |}).
Proof.
  intros Hl Hg. unfold observerHandler. rewrite bind_getr, Hl. cbn [negb].
  rewrite (bind_ok _ _ _ _ _ (removeSubscription_eq _ _)), call_get_eq, bind_rask. cbn [rw_r r_captured set_subs rw_env]. rewrite Hg. by eexists.
Qed.

Definition observable (r : Resource) : bool :=
  r_hasSubscription r && negb (Z.land (r_PolicyBitMask r) Observable =? 0).

(** Starting and stopping an observation, when no notification interferes: a
    GET with observe 0 that the handlers accept is answered with the handler's
    representation, the entity tag and observe number 2; the observer's previous
    subscription is cancelled and the new one recorded.  A GET with another
    observe value cancels the subscription and is answered like a plain GET. *)
Theorem HandleRequest_observe req w obs id resp :
  m_code (req_msg req) = GET → m_observe (req_msg req) = Some obs →
  r_hasGet (rw_r w) = true → observable (rw_r w) = true → r_loop (rw_r w) = true →
  (∀ e, (renv_subscribe (r_captured (rw_r w)) req e).1 = Ok id) → (∀ e, (renv_get (r_captured (rw_r w)) req e).1 = Ok (Some resp)) →
  (∀ e, (renv_notifications e).1 = []) → m_code resp = codes_Content →
  let w' := (HandleRequest req w).2 in
  let old := r_subs (rw_r w) !! req_Conn req in
  if obs =? 0 then
    (HandleRequest req w).1 =
      Ok (Some (with_etag (rw_r w) (set_observe 2 (set_token (m_token (req_msg req)) resp)))) ∧
    r_subs (rw_r w') = <[req_Conn req := id]> (r_subs (rw_r w)) ∧
    r_closures (rw_r w') !! id = Some {| cl_conn := req_Conn req; cl_token := m_token (req_msg req);
                                         cl_sequence := 2; cl_dedup := crc resp |} ∧
    rw_trace w' = rw_trace w ++ EvSubscribed id :: cancelled old
  else
    (HandleRequest req w).1 = Ok (Some (with_etag (rw_r w) resp)) ∧
    r_subs (rw_r w') = delete (req_Conn req) (r_subs (rw_r w)) ∧
    rw_trace w' = rw_trace w ++ cancelled old.
Proof.
  intros Hcode Hobs Hget Ho Hl Hsub Hg Hn Hc. cbv zeta. unfold HandleRequest.
  rewrite bind_getr, Hcode, Hobs, Hget. unfold observable in Ho. rewrite Ho.
  change ((GET =? GET) && true) with true. cbv iota. destruct (obs =? 0).
  - destruct (observe_start req w id resp Hl Hsub Hg Hn) as (w' & E & Hs & He & Hcl & Ht).
    rewrite (bind_ok _ _ _ _ _ E). cbn [m_code set_observe set_token]. rewrite Hc, Z.eqb_refl, bind_getr. split_and!; try done. simpl. unfold with_etag, etag_option, ETag.
    by rewrite He.
  - destruct (observe_stop req w resp Hl Hg) as (e & E).
    by rewrite (bind_ok _ _ _ _ _ E), Hc, Z.eqb_refl, bind_getr.
Qed.

(** Dispatch of a request that does not observe: a GET of a readable resource
    and a POST of a writable one get the answer of the handler, with the entity
    tag when it is content; any other method, and these two without a handler,
    are answered 4.05 without calling a handler; the subscriptions stay. *)
Theorem HandleRequest_plain req w :
  (m_observe (req_msg req) = None ∨ observable (rw_r w) = false) →
  let code := m_code (req_msg req) in
  let (resp, w') := HandleRequest req w in
  rw_r w' = rw_r w ∧ rw_trace w' = rw_trace w ∧
  if (code =? GET) && r_hasGet (rw_r w)
  then match (renv_get (r_captured (rw_r w)) req (rw_env w)).1 with
       | Ok (Some m) => resp = Ok (Some (if m_code m =? codes_Content
                                         then with_etag (rw_r w) m else m))
       | r => resp = r
       end
  else if (code =? POST) && r_hasPost (rw_r w)
  then resp = (renv_post (r_captured (rw_r w)) req (rw_env w)).1
  else rw_env w' = rw_env w ∧ ∃ m, resp = Ok (Some m) ∧ m_code m = codes_MethodNotAllowed ∧
       m_token m = m_token (req_msg req).
Proof.
  intros Ho. cbv zeta. unfold HandleRequest. rewrite bind_getr.
  destruct ((m_code (req_msg req) =? GET) && r_hasGet (rw_r w)).
  - assert (∀ k : option Message → ME RWorld (option Message),
      ((match m_observe (req_msg req) with
        | Some obs => if r_hasSubscription (rw_r w) &&
                         negb (Z.land (r_PolicyBitMask (rw_r w)) Observable =? 0)
                      then observerHandler req (obs =? 0)
                      else call_get req
        | None => call_get req end) ≫= k) w =
      ((rask (renv_get (r_captured (rw_r w)) req) ≫= λ x, lift x) ≫= k) w) as ->.
    { intros k. destruct Ho as [->|Ho]; [done|]. unfold observable in Ho. rewrite Ho.
      by destruct (m_observe _). }
    unfold mbind at 1, ME_bind at 1. rewrite bind_rask. unfold lift.
    destruct (renv_get (r_captured (rw_r w)) req (rw_env w)) as [[[m|]|err] e]; cbn [fst snd]; [|done|done].
    by destruct (m_code m =? codes_Content).
  - destruct ((m_code (req_msg req) =? POST) && r_hasPost (rw_r w)).
    + by rewrite call_post_eq, bind_rask.
    + split_and!; try done. eexists. split; [done|]. unfold CreateResponseMethodNotAllowed,
        createTextPlainResponse. by destruct (m_token (req_msg req)).
Qed.
End Life.

(** ** The properties at concrete inputs *)

Section Examples.
Definition ex_content : Message := set_body "on" (set_code codes_Content NewMessage).
#[local] Instance ex_REnv : ResourceEnv := {|
  REnv := nat;
  renv_get c q e := (Ok (Some ex_content), e);
  renv_post c q e := (Ok None, e);
  renv_subscribe c q e := (Ok 5%nat, e);
  renv_write a m e := (Ok tt, e);
  renv_etag e := (1000, e);
  renv_notifications e := ([], e) |}.
#[local] Instance ex_non_nil : GetNonNil.
Proof. done. Qed.

Definition ex_resource : Resource :=
  SetObserveHandler true true (NewResource "/light" {| cap_device := ""; cap_href := "/light" |} true true ["oic.r.light"] ["oic.if.rw"] 7).
Definition ex_request (obs : option Z) : Request :=
  {| req_msg := match obs with
                | Some o => set_observe o (set_token (Some "tk") (set_code GET NewMessage))
                | None => set_token (Some "tk") (set_code GET NewMessage)
                end;
     req_Conn := "10.0.0.1:5683"; req_Endpoints := [] |}.
Definition ex_rworld : RWorld :=
  {| rw_r := ex_resource; rw_env := 0%nat : REnv; rw_trace := [] |}.
Definition ex_observed : RWorld := (HandleRequest (ex_request (Some 0)) ex_rworld).2.

Lemma ETag_roundtrip_witness :
  match ETag ex_resource with
  | None => r_etag ex_resource = 0
  | Some b => r_etag ex_resource ≠ 0 ∧ length b = 8%nat ∧ Forall (fun x => 0 <= x < 256) b ∧
              Uint64 b = r_etag ex_resource
  end.
Proof. apply (ETag_roundtrip ex_resource). vm_compute. split; done. Defined.

(** The same tag twice: the clock has not passed the tag, the random part is 0. *)
Lemma GetETag_spec_witness :
  GetETag 1700000000000000100 1700000000000000500 3000 = 1700000000000000500 ∧
  (GetETag 1700000000000000100 1700000000000000500 3000 = 1700000000000000500 ↔
   1700000000000000100 <= 1700000000000000500 ∧ 3000 mod 1000 = 0).
Proof.
  split; [reflexivity|].
  apply (GetETag_spec 1700000000000000100 1700000000000000500 3000); lia.
Defined.

Lemma subscriptions_accounted_witness :
  let w := foldl (fun w l => rrun l w) ex_rworld
             [LRequest (ex_request (Some 0)); LUpdateETag; LNotify 5 (Ok ex_content)] in
  EvSubscribed 5 ∈ rw_trace w ∧ EvCancel 5 ∈ rw_trace (Close w).2.
Proof.
  assert (EvSubscribed 5 ∈ rw_trace (foldl (fun w l => rrun l w) ex_rworld
    [LRequest (ex_request (Some 0)); LUpdateETag; LNotify 5 (Ok ex_content)])) as H.
  { vm_compute. left. }
  split; [exact H|].
  apply (subscriptions_accounted (HREnv := ex_REnv) ex_resource 0%nat
    [LRequest (ex_request (Some 0)); LUpdateETag; LNotify 5 (Ok ex_content)] 5 H). reflexivity.
Defined.

Definition ex_off : Message := set_body "off" ex_content.
Lemma notifications_delivered_witness :
  rw_trace (notify_all 5 [ex_content; ex_off; ex_off; ex_content] ex_observed) =
    rw_trace ex_observed ++ (sent (rw_r ex_observed)
      {| cl_conn := "10.0.0.1:5683"; cl_token := Some "tk"; cl_sequence := 2;
         cl_dedup := crc ex_content |} <$> [(3, ex_off); (4, ex_content)]) ∧
  ∃ out : list (Z * Message), out.*2 `sublist_of` [ex_content; ex_off; ex_off; ex_content].
Proof.
  split; [vm_compute; reflexivity|].
  destruct (notifications_delivered 5 [ex_content; ex_off; ex_off; ex_content] ex_observed
    {| cl_conn := "10.0.0.1:5683"; cl_token := Some "tk"; cl_sequence := 2;
       cl_dedup := crc ex_content |}) as (out & _ & Hs & _);
    [done | vm_compute; reflexivity | simpl; lia | simpl; lia | by exists out].
Defined.

Lemma HandleRequest_observe_witness :
  (HandleRequest (ex_request (Some 0)) ex_rworld).1 =
    Ok (Some (with_etag ex_resource (set_observe 2 (set_token (Some "tk") ex_content)))) ∧
  r_subs (rw_r (HandleRequest (ex_request (Some 1)) ex_observed).2) = ∅.
Proof.
  split.
  - apply (HandleRequest_observe (ex_request (Some 0)) ex_rworld 0 5 ex_content); reflexivity.
  - etransitivity; [apply (HandleRequest_observe (ex_request (Some 1)) ex_observed 1 5 ex_content);
      reflexivity | reflexivity].
Defined.

Lemma HandleRequest_plain_witness :
  let (resp, w') := HandleRequest (ex_request None) ex_rworld in
  rw_r w' = ex_resource ∧ rw_trace w' = [] ∧ resp = Ok (Some (with_etag ex_resource ex_content)).
Proof. apply (HandleRequest_plain (ex_request None) ex_rworld). left. reflexivity. Defined.
End Examples.
