(* ===== verification/BridgeNet.v ===== *)
(** * BridgeNet: the network of the bridge

    [src/bridge/net/config.go], [network.go]: validation of the external
    addresses, the sockets that are opened for them, the endpoints that are
    announced, and the deduplication and dispatch of incoming messages.

    Name resolution, sockets and the expiring cache of go-coap are parameters. *)

From S2P Require Export Coap.

(** ** [net.SplitHostPort] *)

Fixpoint index_char (c : ascii) (s : string) : option nat :=
  match s with
  | EmptyString => None
  | String d s' => if bool_decide (c = d) then Some O else S <$> index_char c s'
  end.
Fixpoint last_index_char (c : ascii) (s : string) : option nat :=
  match s with
  | EmptyString => None
  | String d s' => match last_index_char c s' with
                   | Some n => Some (S n)
                   | None => if bool_decide (c = d) then Some O else None
                   end
  end.
Definition str_take (n : nat) (s : string) : string := String.substring 0 n s.

Definition SplitHostPort (hostport : string) : result (string * string) :=
  match last_index_char ":" hostport with
  | None => Err (ErrText "missing port in address")
  | Some i =>
      r ← (if has_prefix "[" hostport
           then match index_char "]" hostport with
                | None => Err (ErrText "missing ']' in address")
                | Some e =>
                    if (e + 1 =? String.length hostport)%nat
                    then Err (ErrText "missing port in address")
                    else if (e + 1 =? i)%nat
                    then Ok (String.substring 1 (e - 1) hostport, 1%nat, (e + 1)%nat)
                    else if bool_decide (String.get (e + 1) hostport = Some ":"%char)
                    then Err (ErrText "too many colons in address")
                    else Err (ErrText "missing port in address")
                end
           else let host := str_take i hostport in
                if bool_decide (is_Some (index_char ":" host))
                then Err (ErrText "too many colons in address")
                else Ok (host, 0%nat, 0%nat));
      let '(host, j, k) := r in
      if contains_char "[" (str_drop j hostport) then Err (ErrText "unexpected '[' in address")
      else if contains_char "]" (str_drop k hostport) then Err (ErrText "unexpected ']' in address")
      else Ok (host, str_drop (i + 1) hostport)
  end.

(** [strconv.ParseUint(s, 10, 16)]. *)
Fixpoint all_digits (s : string) : bool :=
  match s with
  | EmptyString => true
  | String c s' => let n := N_of_ascii c in (48 <=? n)%N && (n <=? 57)%N && all_digits s'
  end.
Definition ParseUint16 (s : string) : result Z :=
  if negb (all_digits s) || bool_decide (s = "") then Err (ErrText "invalid syntax")
  else let v := parse_uint s in
       if v <? 65536 then Ok v else Err (ErrText "value out of range").

(** ** Configuration *)

Definition UDP4 : string := "udp4".
Definition UDP6 : string := "udp6".

Record externalAddressPort := { ext_host : string; ext_port : string; ext_network : string }.
#[export] Instance externalAddressPort_eq_dec : EqDecision externalAddressPort.
Proof. solve_decision. Defined.
Abbreviation externalAddressesPort := (list externalAddressPort).

Definition filterByNetwork (network : string) (l : externalAddressesPort) : externalAddressesPort :=
  List.filter (fun e => bool_decide (ext_network e = network)) l.
Definition filterByPort (port : string) (l : externalAddressesPort) : externalAddressesPort :=
  List.filter (fun e => bool_decide (ext_port e = port)) l.

(** Durations are nanoseconds. *)
Record Config := {
  ExternalAddresses : list string;
  MaxMessageSize : Z;
  DeduplicationLifetime : Z;
  cfg_externalAddressesPort : externalAddressesPort }.
Definition DefaultMaxMessageSize : Z := 2 * 1024 * 1024.

Definition ErrInvalidExternalAddress : error := ErrText "invalid externalAddress".
Definition errInvalidExternalAddress (e : error) : error := ErrWrap2 ErrInvalidExternalAddress e.

(** Name resolution ([net.ResolveUDPAddr], network first) and [net.ParseIP]: whether
    the text is an IPv4 address. *)
Class Resolver := {
  ResolveUDPAddr : string → string → result unit;
  ParseIP_is4 : string → bool }.

Section Config.
Context `{HResolver : Resolver}.

Definition validateExternalAddress (addr : string) : result externalAddressPort :=
  match SplitHostPort addr with
  | Err err => Err (errInvalidExternalAddress err)
  | Ok (host, portStr) =>
      if bool_decide (host = "") then Err (errInvalidExternalAddress (ErrText "host cannot be empty"))
      else match ParseUint16 portStr with
      | Err err => Err (errInvalidExternalAddress err)
      | Ok _ =>
          match ResolveUDPAddr UDP4 addr, ResolveUDPAddr UDP6 addr with
          | Err e4, Err e6 => Err (errInvalidExternalAddress (ErrAppend e4 e6))
          | Ok _, _ => Ok {| ext_host := host; ext_port := portStr; ext_network := UDP4 |}
          | Err _, Ok _ => Ok {| ext_host := host; ext_port := portStr; ext_network := UDP6 |}
          end
      end
  end.

Fixpoint validate_all (l : list string) : result externalAddressesPort :=
  match l with
  | [] => Ok []
  | e :: l' =>
      match validateExternalAddress e with
      | Err err => Err (ErrWrap "invalid configuration" err)
      | Ok x => xs ← validate_all l'; Ok (x :: xs)
      end
  end.

Definition Validate (cfg : Config) : result Config :=
  if (length (ExternalAddresses cfg) =? 0)%nat then Err (ErrWrap "cannot be empty" ErrInvalidExternalAddress)
  else
    let size := if MaxMessageSize cfg =? 0 then DefaultMaxMessageSize else MaxMessageSize cfg in
    let life := if DeduplicationLifetime cfg =? 0 then 8 * 1000000000 else DeduplicationLifetime cfg in
    l ← validate_all (ExternalAddresses cfg);
    Ok {| ExternalAddresses := ExternalAddresses cfg; MaxMessageSize := size;
          DeduplicationLifetime := life; cfg_externalAddressesPort := l |}.

(** ** Endpoints *)

(** [cm] is the destination of the control message: whether it is an IPv4
    address; [None] when there is no control message. *)
Definition getNetwork (cfg : Config) (cm : option bool) (localHost localPort : string) : string :=
  match cm with
  | Some is4 => if negb is4 then UDP6 else UDP4
  | None =>
      match filterByPort localPort (cfg_externalAddressesPort cfg) with
      | [p] => ext_network p
      | _ => if negb (ParseIP_is4 localHost) then UDP6 else UDP4
      end
  end.

Definition GetEndpoints (cfg : Config) (cm : option bool) (localAddr : string) : Endpoints :=
  match SplitHostPort localAddr with
  | Err _ => []
  | Ok (localHost, localPort) =>
      let network := getNetwork cfg cm localHost localPort in
      let filteredByNetwork := filterByNetwork network (cfg_externalAddressesPort cfg) in
      let filtered := filterByPort localPort filteredByNetwork in
      let filtered := match filtered with [] => filteredByNetwork | _ => filtered end in
      let ep := match filtered with
                | [] => localAddr
                | f :: _ =>
                    let ep := ext_host f in
                    let ep := if bool_decide (ext_network f = UDP6) then "[" +:+ ep +:+ "]" else ep in
                    ep +:+ ":" +:+ ext_port f
                end in
      [{| URI := "coap://" +:+ ep; Priority := 0 |}]
  end.
End Config.

(** ** Sockets *)

(** Sockets are numbers.  Listing the interfaces, opening a socket, joining a
    group and the loopback option may fail; the local port of a socket is read
    from its address. *)
Class Sockets := {
  NEnv : Type;
  nenv_listen : string → string → NEnv → result nat * NEnv;
  nenv_Interfaces : NEnv → result (list string) * NEnv;
  nenv_JoinGroup : nat → string → string → NEnv → result unit * NEnv;
  nenv_SetMulticastLoopback : nat → NEnv → result unit * NEnv;
  getPortFromAddress : nat → result string }.

Section Servers.
Context `{HResolver : Resolver} `{HSockets : Sockets}.

(** The configuration, the environment, and the sockets opened and closed. *)
Record NWorld := { nw_cfg : Config; nw_env : NEnv; nw_opened : list nat; nw_closed : list nat }.
Abbreviation NM := (ME NWorld).

Definition set_env (e : NEnv) (w : NWorld) : NWorld :=
  {| nw_cfg := nw_cfg w; nw_env := e; nw_opened := nw_opened w; nw_closed := nw_closed w |}.
Definition env {A} (f : NEnv → result A * NEnv) : NM A :=
  fun w => let (r, e) := f (nw_env w) in (r, set_env e w).

(** [net.NewListenUDP]. *)
Definition NewListenUDP (network addr : string) : NM nat :=
  c ← env (nenv_listen network addr);
  modify (fun w => {| nw_cfg := nw_cfg w; nw_env := nw_env w; nw_opened := nw_opened w ++ [c];
                      nw_closed := nw_closed w |});;
  mret c.
Definition newConn (network port : string) : NM nat := NewListenUDP network (":" +:+ port).
(** [coAPServers.Close]. *)
Definition servers_Close (servers : list nat) : NM unit :=
  modify (fun w => {| nw_cfg := nw_cfg w; nw_env := nw_env w; nw_opened := nw_opened w;
                      nw_closed := nw_closed w ++ servers |}).
Definition set_ext_port (i : nat) (port : string) : NM unit :=
  modify (fun w =>
    let cfg := nw_cfg w in
    {| nw_cfg := {| ExternalAddresses := ExternalAddresses cfg; MaxMessageSize := MaxMessageSize cfg;
                    DeduplicationLifetime := DeduplicationLifetime cfg;
                    cfg_externalAddressesPort :=
                      alter (fun a => {| ext_host := ext_host a; ext_port := port;
                                         ext_network := ext_network a |}) i
                        (cfg_externalAddressesPort cfg) |};
       nw_env := nw_env w; nw_opened := nw_opened w; nw_closed := nw_closed w |}).

(** The resolution loop of [newMCastConn]: the first network that resolves. *)
Fixpoint resolve_first (networks : list string) (multicastAddr : string) (network : string)
    (err : option error) : result string :=
  match networks with
  | [] => match err with Some e => Err e | None => Ok network end
  | net :: rest =>
      match ResolveUDPAddr net multicastAddr with
      | Ok _ => Ok net
      | Err e => resolve_first rest multicastAddr network (Some e)
      end
  end.
(** The loop over the interfaces: whether one was joined, and the last error. *)
Fixpoint join_groups (c : nat) (addr : string) (ifaces : list string) (anySet : bool)
    (err : option error) : NM (bool * option error) :=
  match ifaces with
  | [] => mret (anySet, err)
  | iface :: rest =>
      r ← catch (env (nenv_JoinGroup c iface addr));
      match r with
      | Ok _ => join_groups c addr rest true None
      | Err e => join_groups c addr rest anySet (Some e)
      end
  end.
Definition newMCastConn (multicastAddr : string) : NM nat :=
  network ← lift (resolve_first [UDP4; UDP6] multicastAddr "" None);
  ifaces ← env nenv_Interfaces;
  mcastListener ← NewListenUDP network multicastAddr;
  r ← join_groups mcastListener multicastAddr ifaces false None;
  let '(anySet, err) := r in
  if negb (anySet : bool)
  then servers_Close [mcastListener];;
       fail (ErrWrap "cannot JoinGroup" (default (ErrText "<nil>") err))
  else
    r ← catch (env (nenv_SetMulticastLoopback mcastListener));
    match r with
    | Err err => servers_Close [mcastListener];; fail err
    | Ok _ => mret mcastListener
    end.

(** The loop of [newServers] from index [i]; a nil connection is [None]. *)
Fixpoint newServers_loop (addrs : externalAddressesPort) (i : nat) (servers : list nat)
    (hasIPv4 hasIPv6 : bool) : NM (list nat * bool * bool) :=
  match addrs with
  | [] => mret (servers, hasIPv4, hasIPv6)
  | addr :: addrs' =>
      let is4 := bool_decide (ext_network addr = UDP4) in
      let is6 := bool_decide (ext_network addr = UDP6) in
      r ← (if is4 || is6
           then r ← catch (newConn (ext_network addr) (ext_port addr));
                mret (match r with Ok c => Ok (Some c) | Err e => Err e end)
           else mret (Ok None));
      match r with
      | Err err => servers_Close servers;; fail err
      | Ok conn =>
          (if bool_decide (ext_port addr = "0")
           then match (match conn with
                       | Some c => getPortFromAddress c
                       | None => Err ErrNilPointer
                       end) with
                | Err err => servers_Close servers;; fail err
                | Ok port => set_ext_port i port
                end
           else mret tt);;
          newServers_loop addrs' (S i) (servers ++ match conn with Some c => [c] | None => [] end)
            (hasIPv4 || is4) (hasIPv6 || is6)
      end
  end.

Definition newServers : NM (list nat * bool * bool) :=
  cfg ← gets nw_cfg;
  r ← newServers_loop (cfg_externalAddressesPort cfg) 0 [] false false;
  let '(servers, hasIPv4, hasIPv6) := r in
  if (length servers =? 0)%nat then fail (ErrText "cannot create any server")
  else mret (servers, hasIPv4, hasIPv6).

Fixpoint appendMCastServers (servers : list nat) (mcastAddresses : list string) : NM (list nat) :=
  match mcastAddresses with
  | [] => mret servers
  | addr :: rest =>
      if bool_decide (addr = "") then appendMCastServers servers rest
      else
        r ← catch (newMCastConn addr);
        match r with
        | Err err => servers_Close servers;; fail err
        | Ok conn => appendMCastServers (servers ++ [conn]) rest
        end
  end.

(** The sockets of [New]; the arguments are the default multicast addresses. *)
Definition New_servers (mcast4 mcast6 : list string) : NM (list nat) :=
  r ← newServers;
  let '(servers, hasIPv4, hasIPv6) := r in
  servers ← (if hasIPv4 : bool then appendMCastServers servers mcast4 else mret servers);
  if hasIPv6 : bool then appendMCastServers servers mcast6 else mret servers.
End Servers.

(** *** [Net.Serve] and [Net.Close] *)

Record NetState := {
  net_servers : list nat; net_stopped : bool; net_serving : bool; net_doneClosed : bool }.
(** What the servers are told. *)
Inductive NetAction := NetServeAll (l : list nat) | NetCloseAll (l : list nat) | NetStopAll (l : list nat).

(** [results] are the errors with which the servers return. *)
Definition Serve (results : list (option error)) (n : NetState)
    : option error * NetState * list NetAction :=
  if net_stopped n then (Some (ErrText "already stopped"), n, [])
  else if net_serving n then (Some (ErrText "already serving"), n, [])
  else (foldl (fun acc e => match e with Some e => err_append acc e | None => acc end) None results,
        {| net_servers := net_servers n; net_stopped := false; net_serving := true;
           net_doneClosed := net_doneClosed n |},
        [NetServeAll (net_servers n)]).
Definition Close (n : NetState) : NetState * list NetAction :=
  if net_stopped n then (n, [])
  else
    ({| net_servers := net_servers n; net_stopped := true; net_serving := net_serving n;
        net_doneClosed := true |},
     if negb (net_serving n) then [NetCloseAll (net_servers n)] else [NetStopAll (net_servers n)]).

(** ** Incoming messages *)

(** [coapCache.Cache[int32, bool]] with the expiration of its elements.  What the
    code relies on: an element that is present and not expired is returned, an
    absent one is stored, and neither touches the other keys. *)
Class Cache := {
  CacheT : Type;
  cache_get : CacheT → Z → option Z;
  cache_LoadOrStore : Z → Z → Z → CacheT → Z * bool * CacheT;
  cache_CheckExpirations : Z → CacheT → CacheT }.
Class CacheLaws `{Cache} := {
  cache_hit : ∀ k exp now c e, cache_get c k = Some e → now <= e →
    let '(v, loaded, c') := cache_LoadOrStore k exp now c in
    v = e ∧ loaded = true ∧ cache_get c' k = Some e;
  cache_miss : ∀ k exp now c, cache_get c k = None →
    let '(v, loaded, c') := cache_LoadOrStore k exp now c in
    loaded = false ∧ cache_get c' k = Some exp;
  cache_other : ∀ k k' exp now c, k ≠ k' →
    let '(v, loaded, c') := cache_LoadOrStore k exp now c in cache_get c' k' = cache_get c k';
  cache_keep : ∀ k now c e, cache_get c k = Some e → now <= e →
    cache_get (cache_CheckExpirations now c) k = Some e }.

Section Serve.
Context `{HResolver : Resolver} `{HCache : Cache} `{HStatus : CoapStatus}.

(** Whether the message is passed to the handler, and the cache after it. *)
Definition deduplicate (cfg : Config) (now : Z) (request : Message) (cache : CacheT) : bool * CacheT :=
  let messageID := m_id request in
  if (messageID >=? 0) && negb (m_type request =? Confirmable)
  then let '(v, loaded, cache) :=
         cache_LoadOrStore messageID (now + DeduplicationLifetime cfg) now cache in
       (negb (loaded && negb (now >? v)), cache)
  else (true, cache).

(** The goroutine of [ServeCOAP]: the message that is written, if any. *)
Definition handle (cfg : Config) (handler : Request → result (option Message)) (conn localAddr : string)
    (cm : option bool) (request : Message) : option Message :=
  let r := {| req_msg := request; req_Conn := conn; req_Endpoints := GetEndpoints cfg cm localAddr |} in
  let resp := match handler r with
              | Ok resp => resp
              | Err err => CreateResponseError (Some err) (m_token request)
              end in
  set_token (m_token request) <$> resp.

Definition ServeCOAP (cfg : Config) (handler : Request → result (option Message))
    (conn localAddr : string) (cm : option bool) (now : Z) (request : Message) (cache : CacheT)
    : option (option Message) * CacheT :=
  let (fresh, cache) := deduplicate cfg now request cache in
  (if fresh then Some (handle cfg handler conn localAddr cm request) else None, cache).
End Serve.
