(* ===== verification/BridgeNetProps.v ===== *)
(** * BridgeNetProps: the properties of the network of the bridge

    The text of host and port, the configuration, the announced endpoints, the
    accounting of the sockets, and the deduplication of messages. *)

From S2P Require Import BridgeNet.

(** ** Strings *)

Lemma index_lacks c s : contains_char c s = false → index_char c s = None.
Proof.
  induction s as [|d s IH]; [done|]. simpl. intros [Hd Hs]%orb_false_iff. by rewrite Hd, IH.
Qed.
Lemma index_char_inv c s n : index_char c s = Some n →
  ∃ a b, s = a +:+ String c b ∧ String.length a = n ∧ contains_char c a = false.
Proof.
  revert n. induction s as [|d s IH]; [done|]. simpl. intros n. case_bool_decide as Hd.
  - intros [= <-]. subst d. by exists "", s.
  - destruct (index_char c s) as [m|]; [|done]. intros [= <-].
    destruct (IH m eq_refl) as (a & b & -> & <- & Ha). exists (String d a), b.
    split_and!; [done..|]. simpl. by rewrite bool_decide_false, Ha.
Qed.
Lemma index_char_app c a b : contains_char c a = false →
  index_char c (a +:+ String c b) = Some (String.length a).
Proof.
  induction a as [|d a IH]; [intros _; rewrite str_app_nil_l; simpl; by rewrite bool_decide_true|].
  rewrite str_app_cons. simpl. intros [Hd Ha]%orb_false_iff. by rewrite Hd, IH.
Qed.
Lemma last_index_lacks c s : contains_char c s = false → last_index_char c s = None.
Proof.
  induction s as [|d s IH]; [done|]. simpl. intros [Hd Hs]%orb_false_iff. by rewrite IH, Hd.
Qed.
Lemma last_index_none c s : last_index_char c s = None → contains_char c s = false.
Proof.
  induction s as [|d s IH]; [done|]. simpl. destruct (last_index_char c s); [done|].
  case_bool_decide; [done|]. intros _. by apply IH.
Qed.
Lemma last_index_char_app c a b : contains_char c b = false →
  last_index_char c (a +:+ String c b) = Some (String.length a).
Proof.
  intros Hb. induction a as [|d a IH].
  - rewrite str_app_nil_l. simpl. by rewrite last_index_lacks, bool_decide_true.
  - rewrite str_app_cons. simpl. by rewrite IH.
Qed.
Lemma last_index_char_inv c s n : last_index_char c s = Some n →
  ∃ a b, s = a +:+ String c b ∧ String.length a = n ∧ contains_char c b = false.
Proof.
  revert n. induction s as [|d s IH]; [done|]. simpl. intros n.
  destruct (last_index_char c s) as [m|] eqn:E.
  - intros [= <-]. destruct (IH m eq_refl) as (a & b & -> & <- & Hb). by exists (String d a), b.
  - case_bool_decide as Hd; [|done]. intros [= <-]. subst d. exists "", s. split_and!; [done..|].
    by apply last_index_none.
Qed.

Lemma str_drop_app_S a c b : str_drop (String.length a + 1) (a +:+ String c b) = b.
Proof. induction a as [|d a IH]; [by destruct b|]. rewrite str_app_cons. done. Qed.
Lemma str_take_app a b : str_take (String.length a) (a +:+ b) = a.
Proof.
  unfold str_take. induction a as [|d a IH]; [by destruct b|]. rewrite str_app_cons. simpl. by rewrite IH.
Qed.
Lemma substring_app a b : String.substring 0 (String.length a) (a +:+ b) = a.
Proof. apply str_take_app. Qed.
Lemma get_app a c b : String.get (String.length a) (a +:+ String c b) = Some c.
Proof. induction a as [|d a IH]; [done|]. by rewrite str_app_cons. Qed.

Lemma str_app_inj a b x y :
  String.length a = String.length b → a +:+ x = b +:+ y → a = b ∧ x = y.
Proof.
  revert b. induction a as [|c a IH]; intros [|d b] Hl; try discriminate Hl; [done|].
  rewrite !str_app_cons. intros [= -> E]. injection Hl as Hl. destruct (IH b Hl E) as [-> ->]. done.
Qed.

(** ** [SplitHostPort] *)

(** Without brackets and colons. *)
Definition plain (s : string) : Prop := contains_char "[" s = false ∧ contains_char "]" s = false.

Lemma SplitHostPort_plain host port :
  plain host → contains_char ":" host = false → plain port → contains_char ":" port = false →
  SplitHostPort (host +:+ ":" +:+ port) = Ok (host, port).
Proof.
  intros [Ho Hc] Hh [Po Pc] Hp. unfold SplitHostPort. change (":" +:+ port) with (String ":" port).
  rewrite (last_index_char_app ":" host port Hp).
  assert (has_prefix "[" (host +:+ String ":" port) = false) as ->.
  { destruct host as [|d host]; [done|]. simpl in Ho. apply orb_false_iff in Ho as [Ho _].
    rewrite str_app_cons. by rewrite has_prefix_char. }
  rewrite str_take_app, (index_lacks _ _ Hh), bool_decide_false by (by intros [? ?]).
  cbn [mbind result_bind str_drop].
  rewrite !contains_app. simpl. rewrite Ho, Po, Hc, Pc. simpl. by rewrite str_drop_app_S.
Qed.

Lemma SplitHostPort_bracket host port :
  plain host → plain port → contains_char ":" port = false →
  SplitHostPort ("[" +:+ host +:+ "]" +:+ ":" +:+ port) = Ok (host, port).
Proof.
  intros [Ho Hc] [Po Pc] Hp.
  set (a := String "[" (host +:+ "]")).
  assert ("[" +:+ host +:+ "]" +:+ ":" +:+ port = a +:+ String ":" port) as ->.
  { transitivity (String "[" (host +:+ "]" +:+ String ":" port)); [done|].
    unfold a. rewrite (str_app_cons _ (host +:+ "]")). f_equal. symmetry. apply str_app_assoc. }
  assert (String.length a = S (String.length host + 1)) as Hl.
  { unfold a. simpl. by rewrite str_length_app. }
  unfold SplitHostPort. rewrite (last_index_char_app ":" a port Hp).
  replace (has_prefix "[" (a +:+ String ":" port)) with true
    by (symmetry; exact (has_prefix_app "[" ((host +:+ "]") +:+ String ":" port))).
  assert (a +:+ String ":" port = String "[" host +:+ String "]" (String ":" port)) as E.
  { unfold a. rewrite (str_app_cons _ (host +:+ "]")), str_app_cons. f_equal. apply str_app_assoc. }
  rewrite E at 1. rewrite (index_char_app "]" (String "[" host)) by done.
  rewrite str_length_app, Hl. simpl String.length.
  rewrite (proj2 (Nat.eqb_neq _ _)) by lia. rewrite (proj2 (Nat.eqb_eq _ _)) by lia.
  cbn [mbind result_bind].
  assert (String.substring 1 (S (String.length host) - 1) (a +:+ String ":" port) = host) as ->.
  { rewrite E, str_app_cons. simpl. rewrite Nat.sub_0_r. apply substring_app. }
  assert (str_drop 1 (a +:+ String ":" port) = host +:+ "]" +:+ String ":" port) as ->.
  { rewrite E, str_app_cons. by rewrite str_app_cons. }
  assert (str_drop (S (String.length host) + 1) (a +:+ String ":" port) = String ":" port) as ->.
  { rewrite E. apply (str_drop_app_S (String "[" host)). }
  rewrite !contains_app. simpl. rewrite Ho, Po, Pc. cbn [orb].
  replace (String.length host + 1)%nat with (String.length (host +:+ "]")) by by rewrite str_length_app.
  by rewrite str_drop_app_S.
Qed.

Lemma contains_drop c a b : contains_char c (a +:+ b) = false →
  contains_char c a = false ∧ contains_char c b = false.
Proof. rewrite contains_app. apply orb_false_iff. Qed.

(** What the parts of an address cannot contain. *)
Lemma SplitHostPort_inv s host port : SplitHostPort s = Ok (host, port) →
  plain host ∧ plain port ∧ contains_char ":" port = false.
Proof.
  unfold SplitHostPort. destruct (last_index_char ":" s) as [i|] eqn:Ei; [|done].
  apply last_index_char_inv in Ei as (a & p & -> & <- & Hp).
  destruct (has_prefix "[" _) eqn:Eb.
  - destruct (index_char "]" _) as [e|] eqn:Ee; [|done].
    apply index_char_inv in Ee as (h & t & E & <- & Hh).
    destruct (_ =? _)%nat; [done|]. destruct (Nat.eqb_spec (String.length h + 1) (String.length a)) as [Hl|];
      [|by case_bool_decide].
    cbn [mbind result_bind].
    destruct (contains_char "[" _) eqn:H1; [done|].
    destruct (contains_char "]" (str_drop (String.length h + 1) _)) eqn:H2; [done|].
    intros [= <- <-]. rewrite str_drop_app_S.
    change (String "]" t) with ("]" +:+ t) in E. rewrite <- str_app_assoc in E.
    apply str_app_inj in E as [-> <-]; [|by rewrite str_length_app].
    assert (str_drop (String.length h + 1) ((h +:+ "]") +:+ String ":" p) = String ":" p) as E2.
    { rewrite str_app_assoc. apply str_drop_app_S. }
    rewrite E2 in H2. simpl in H2. clear E2.
    apply has_prefix_inv in Eb as [u Eb].
    destruct h as [|d h]; [done|]. rewrite !str_app_cons in Eb. injection Eb as -> _. clear u.
    rewrite !str_app_assoc, !str_app_cons in *. simpl String.substring.
    rewrite Nat.sub_0_r, substring_app. simpl str_drop in H1.
    apply contains_drop in H1 as [Hho H1]. simpl in H1, Hh. done.
  - case_bool_decide as Hx; [done|]. cbn [mbind result_bind].
    destruct (contains_char "[" _) eqn:H1; [done|]. destruct (contains_char "]" _) eqn:H2; [done|].
    intros [= <- <-]. rewrite str_drop_app_S, str_take_app. simpl in H1, H2.
    apply contains_drop in H1 as [? H1], H2 as [? H2]. simpl in H1, H2. done.
Qed.

(** ** Configuration and endpoints *)

Section Config.
Context `{HResolver : Resolver}.

(** The address is accepted and recorded as [e]. *)
Definition valid_address (addr : string) (e : externalAddressPort) : Prop :=
  SplitHostPort addr = Ok (ext_host e, ext_port e) ∧ ext_host e ≠ "" ∧
  is_ok (ParseUint16 (ext_port e)) = true ∧
  ext_network e = (if is_ok (ResolveUDPAddr UDP4 addr) then UDP4 else UDP6) ∧
  is_ok (ResolveUDPAddr UDP4 addr) || is_ok (ResolveUDPAddr UDP6 addr) = true.

Lemma validateExternalAddress_spec addr :
  match validateExternalAddress addr with
  | Ok e => valid_address addr e
  | Err _ => ∀ e, ¬ valid_address addr e
  end.
Proof.
  unfold validateExternalAddress, valid_address.
  destruct (SplitHostPort addr) as [[host port]|] eqn:Es; [|by intros x (? & _)].
  case_bool_decide as Hh; [intros x ([= <- <-] & ? & _); done|].
  destruct (ParseUint16 port) as [n|] eqn:Ep.
  - destruct (ResolveUDPAddr UDP4 addr) as [[]|], (ResolveUDPAddr UDP6 addr) as [[]|]; cbn;
      try (by rewrite Ep). by intros x (_ & _ & _ & _ & ?).
  - intros x ([= <- <-] & _ & Hp & _). by rewrite Ep in Hp.
Qed.

Lemma validate_all_spec l :
  match validate_all l with
  | Ok xs => Forall2 valid_address l xs
  | Err _ => ∃ addr, addr ∈ l ∧ ∀ e, ¬ valid_address addr e
  end.
Proof.
  induction l as [|addr l IH]; cbn [validate_all]; [done|].
  pose proof (validateExternalAddress_spec addr) as Ha.
  destruct (validateExternalAddress addr) as [x|]; [|exists addr; split; [by left|done]].
  destruct (validate_all l) as [xs|]; cbn; [by constructor|].
  destruct IH as (a & Hin & Hx). exists a. split; [by right|done].
Qed.

(** Validation of the network configuration: it succeeds exactly if there are
    external addresses and each of them is a host and a 16-bit port that resolve
    for IPv4 or IPv6; they are recorded in their order, as IPv4 when both
    resolve, and the zero limits get their defaults. *)
Theorem Validate_spec cfg :
  match Validate cfg with
  | Ok cfg' =>
      ExternalAddresses cfg ≠ [] ∧ ExternalAddresses cfg' = ExternalAddresses cfg ∧
      Forall2 valid_address (ExternalAddresses cfg) (cfg_externalAddressesPort cfg') ∧
      MaxMessageSize cfg' = (if MaxMessageSize cfg =? 0 then 2097152 else MaxMessageSize cfg) ∧
      DeduplicationLifetime cfg' =
        (if DeduplicationLifetime cfg =? 0 then 8000000000 else DeduplicationLifetime cfg)
  | Err _ =>
      ExternalAddresses cfg = [] ∨
      ∃ addr, addr ∈ ExternalAddresses cfg ∧ ∀ e, ¬ valid_address addr e
  end.
Proof.
  unfold Validate. destruct (ExternalAddresses cfg) as [|a l] eqn:El; [by left|]. cbn [length Nat.eqb].
  pose proof (validate_all_spec (a :: l)) as Hv.
  destruct (validate_all (a :: l)) as [xs|]; cbn [mbind result_bind]; [|by right].
  split_and!; [done|done|exact Hv|done|done].
Qed.

(** The announced endpoint.  A server with a validated configuration that
    receives a request at a local address announces one CoAP endpoint: of its
    external addresses of the network of the request, the first with the local
    port, or else the first; the text parses back to that host and port.  Only
    if there is none of that network the local address is announced. *)
Theorem GetEndpoints_spec cfg0 cfg cm localAddr lh lp :
  Validate cfg0 = Ok cfg → SplitHostPort localAddr = Ok (lh, lp) →
  (∀ e, e ∈ cfg_externalAddressesPort cfg → ext_network e = UDP4 → contains_char ":" (ext_host e) = false) →
  let net := getNetwork cfg cm lh lp in
  (∃ e a, e ∈ cfg_externalAddressesPort cfg ∧ ext_network e = net ∧
     (ext_port e = lp ∨ ∀ e', e' ∈ cfg_externalAddressesPort cfg → ext_network e' = net → ext_port e' ≠ lp) ∧
     GetEndpoints cfg cm localAddr = [{| URI := "coap://" +:+ a; Priority := 0 |}] ∧
     SplitHostPort a = Ok (ext_host e, ext_port e)) ∨
  ((∀ e, e ∈ cfg_externalAddressesPort cfg → ext_network e ≠ net) ∧
   GetEndpoints cfg cm localAddr = [{| URI := "coap://" +:+ localAddr; Priority := 0 |}]).
Proof.
  intros Hv Hs H4 net.
  assert (∀ e, e ∈ cfg_externalAddressesPort cfg → ∃ addr, valid_address addr e) as Hval.
  { pose proof (Validate_spec cfg0) as H. rewrite Hv in H. destruct H as (_ & _ & H & _).
    intros e He. apply list_elem_of_lookup_1 in He as [i He].
    destruct (Forall2_lookup_r _ _ _ _ _ H He) as (addr & _ & ?). by exists addr. }
  unfold GetEndpoints. rewrite Hs. fold net.
  set (fn := filterByNetwork net (cfg_externalAddressesPort cfg)).
  assert (∀ e, e ∈ fn ↔ e ∈ cfg_externalAddressesPort cfg ∧ ext_network e = net) as Hfn.
  { intros e. unfold fn, filterByNetwork. rewrite list_elem_of_In, filter_In, <- list_elem_of_In.
    by rewrite bool_decide_eq_true. }
  assert (∀ e, e ∈ filterByPort lp fn ↔ e ∈ fn ∧ ext_port e = lp) as Hfp.
  { intros e. unfold filterByPort. rewrite list_elem_of_In, filter_In, <- list_elem_of_In.
    by rewrite bool_decide_eq_true. }
  assert (∀ e (a := (if bool_decide (ext_network e = UDP6) then "[" +:+ ext_host e +:+ "]" else ext_host e)
                    +:+ ":" +:+ ext_port e),
    e ∈ fn → SplitHostPort a = Ok (ext_host e, ext_port e)) as Htext.
  { intros e a [He _]%Hfn. destruct (Hval e He) as (addr & Hsp & _ & _ & Hn & _).
    apply SplitHostPort_inv in Hsp as (Hh & Hp & Hc). subst a. case_bool_decide as H6.
    - rewrite !str_app_assoc. by apply SplitHostPort_bracket.
    - apply SplitHostPort_plain; [done| |done|done]. apply H4; [done|].
      rewrite Hn in *. by destruct (is_ok _). }
  destruct (filterByPort lp fn) as [|e l] eqn:Ep.
  - destruct fn as [|e l] eqn:Ef.
    + right. split; [|done]. intros e He Hn. pose proof (proj2 (Hfn e) (conj He Hn)) as Hx. inversion Hx.
    + left. assert (e ∈ e :: l) as Hin by (by left). eexists e, _. split_and!; [by apply Hfn..| |done|by apply Htext].
      right. intros e' He' Hn' Hp'. pose proof (proj2 (Hfp e') (conj (proj2 (Hfn e') (conj He' Hn')) Hp')) as Hx.
      inversion Hx.
  - left. destruct (proj1 (Hfp e)) as [Hin Hp]; [by left|].
    eexists e, _. split_and!; [by apply Hfn..|by left|done|by apply Htext].
Qed.
End Config.

(** ** Sockets *)

Section Servers.
Context `{HResolver : Resolver} `{HSockets : Sockets}.

(** The external addresses, and the sockets opened and closed so far. *)
Definition acc (x : externalAddressesPort) (o c : list nat) (w : NWorld) : Prop :=
  cfg_externalAddressesPort (nw_cfg w) = x ∧ nw_opened w = o ∧ nw_closed w = c.
(** Of the sockets opened ([l]) all are closed ([k]), except that one whose port
    could not be read. *)
Definition settled (l k : list nat) : Prop :=
  l ≡ₚ k ∨ ∃ s e, getPortFromAddress s = Err e ∧ l ≡ₚ k ++ [s].
Definition released (o c : list nat) (w : NWorld) : Prop :=
  ∃ x l k, acc x (o ++ l) (c ++ k) w ∧ settled l k.

Lemma env_acc {A} (f : NEnv → result A * NEnv) x o c : keeps (acc x o c) (env f).
Proof. intros w Hw. unfold env. by destruct (f (nw_env w)). Qed.
Lemma catch_keeps {S A} (I : S → Prop) (m : ME S A) : keeps I m → keeps I (catch m).
Proof. intros Hm s Hs. specialize (Hm s Hs). unfold catch. by destruct (m s). Qed.
Lemma triple_fail {S A} (P : S → Prop) e (Q : result A → S → Prop) :
  (∀ s, P s → Q (Err e) s) → triple P (fail e) Q.
Proof. intros HQ s Hs. by apply HQ. Qed.
Lemma triple_mret {S A} (P : S → Prop) (a : A) (Q : result A → S → Prop) :
  (∀ s, P s → Q (Ok a) s) → triple P (mret a) Q.
Proof. intros HQ s Hs. by apply HQ. Qed.
(** What follows a caught action starts from its outcome. *)
Lemma servers_Close_acc {A} (k : ME NWorld A) x o c l Q :
  triple (acc x o (c ++ l)) k Q → triple (acc x o c) (servers_Close l;; k) Q.
Proof. intros Hk w (Hx & Ho & Hc). apply Hk. split_and!; cbn; [done..|by rewrite Hc]. Qed.
Lemma released_now x o c l w : acc x (o ++ l) (c ++ l) w → released o c w.
Proof. intros Ha. exists x, l, l. split; [done|by left]. Qed.

Lemma NewListenUDP_acc network addr x o c :
  triple (acc x o c) (NewListenUDP network addr)
    (fun r => match r with Ok s => acc x (o ++ [s]) c | Err _ => acc x o c end).
Proof.
  intros w (Hx & Ho & Hc). unfold NewListenUDP, env, mbind, ME_bind.
  destruct (nenv_listen network addr (nw_env w)) as [[s|e] e']; cbn; split_and!; cbn; congruence.
Qed.

Lemma join_groups_acc s addr ifaces anySet err x o c :
  keeps (acc x o c) (join_groups s addr ifaces anySet err).
Proof.
  revert anySet err. induction ifaces as [|i rest IH]; intros anySet err; cbn [join_groups].
  - by apply triple_mret.
  - apply triple_bind_catch with (T := fun _ => acc x o c); [apply env_acc|]. intros [?|?]; apply IH.
Qed.

Lemma join_groups_noerr s addr ifaces anySet err : noerr (join_groups s addr ifaces anySet err).
Proof.
  revert anySet err. induction ifaces as [|i rest IH]; intros anySet err w; cbn [join_groups].
  - by eexists.
  - unfold mbind, ME_bind, catch. destruct (env _ w) as [[?|?] ?]; apply IH.
Qed.

Lemma newMCastConn_acc addr x o c :
  triple (acc x o c) (newMCastConn addr)
    (fun r => match r with Ok s => acc x (o ++ [s]) c | Err _ => released o c end).
Proof.
  assert (∀ w, acc x o c w → released o c w) as Hnow.
  { intros w Hw. apply (released_now x o c []). by rewrite !app_nil_r. }
  unfold newMCastConn. apply triple_bind_inv with (P := acc x o c); [by intros w Hw|auto|]. intros network.
  apply triple_bind_inv with (P := acc x o c); [apply env_acc|auto|]. intros ifaces.
  apply triple_bind with (T := fun s => acc x (o ++ [s]) c).
  { eapply triple_conseq; [apply NewListenUDP_acc|done|]. intros [s|e] w Hw; [done|by apply Hnow]. }
  intros s. eapply triple_noerr; [apply join_groups_noerr|apply join_groups_acc|].
  intros [anySet err]. destruct anySet; cbn [negb].
  - apply triple_bind_catch with (T := fun _ => acc x (o ++ [s]) c); [apply env_acc|].
      intros [[]|e]; [by apply triple_mret|]. apply servers_Close_acc, triple_fail. apply released_now.
  - apply servers_Close_acc, triple_fail. apply released_now.
Qed.

Lemma settled_app m l k : settled l k → settled (m ++ l) (k ++ m).
Proof.
  intros [Hp|(s & e & He & Hp)]; [left|right; exists s, e; split; [done|]]; rewrite Hp.
  - apply Permutation_app_comm.
  - rewrite (Permutation_app_comm m), <- !app_assoc. apply Permutation_app_head, Permutation_app_comm.
Qed.
Lemma released_Close {A} o c servers err :
  triple (released (o ++ servers) c) (servers_Close servers;; fail (A:=A) err)
    (fun _ => released o c).
Proof.
  intros w (x & l & k & (Hx & Ho & Hc) & Hs). exists x, (servers ++ l), (k ++ servers).
  split; [|by apply settled_app]. unfold mbind, ME_bind. split_and!; simpl; [done|by rewrite Ho, app_assoc|by rewrite Hc, app_assoc].
Qed.

Lemma appendMCastServers_acc mcast x o c servers :
  triple (acc x (o ++ servers) c) (appendMCastServers servers mcast)
    (fun r => match r with
              | Ok servers' => fun w => acc x (o ++ servers') c w ∧ ∃ l, servers' = servers ++ l
              | Err _ => released o c end).
Proof.
  revert servers. induction mcast as [|addr rest IH]; intros servers; cbn [appendMCastServers].
  { apply triple_mret. intros w Hw. split; [done|]. exists []. by rewrite app_nil_r. }
  case_bool_decide; [apply IH|].
  eapply triple_bind_catch; [apply newMCastConn_acc|]. intros [s|e].
  - rewrite <- app_assoc. eapply triple_conseq; [apply IH|done|]. intros [l|e] w; [|done].
    intros [Hw [l' ->]]. split; [done|]. exists (s :: l'). by rewrite <- app_assoc.
  - apply released_Close.
Qed.

(** The external address after its socket has been opened. *)
Definition bound (servers : list nat) (a a' : externalAddressPort) : Prop :=
  ext_host a' = ext_host a ∧ ext_network a' = ext_network a ∧
  if bool_decide (ext_port a = "0")
  then ∃ s, s ∈ servers ∧ getPortFromAddress s = Ok (ext_port a')
  else ext_port a' = ext_port a.
Definition wants_socket (a : externalAddressPort) : bool :=
  bool_decide (ext_network a = UDP4) || bool_decide (ext_network a = UDP6).

Lemma bound_mono l l' a a' : bound l a a' → bound (l ++ l') a a'.
Proof.
  unfold bound. intros (? & ? & Hp). split_and!; [done..|]. case_bool_decide; [|done].
  destruct Hp as (s & ? & ?). exists s. rewrite elem_of_app. auto.
Qed.

Lemma set_ext_port_acc done_ a rest port o c :
  triple (acc (done_ ++ a :: rest) o c) (set_ext_port (length done_) port)
    (fun r => match r with
              | Ok _ => acc (done_ ++ {| ext_host := ext_host a; ext_port := port;
                                         ext_network := ext_network a |} :: rest) o c
              | Err _ => fun _ => False end).
Proof.
  intros w (Hx & Ho & Hc). unfold set_ext_port, modify. cbn. split_and!; [|done|done]. cbn.
  rewrite Hx, <- (Nat.add_0_r (length done_)).
  by rewrite alter_app_r.
Qed.

Lemma newServers_loop_acc addrs done_ o c servers h4 h6 :
  triple (acc (done_ ++ addrs) (o ++ servers) c)
    (newServers_loop addrs (length done_) servers h4 h6)
    (fun r => match r with
       | Ok (servers', h4', h6') => fun w => ∃ x l, servers' = servers ++ l ∧
           acc (done_ ++ x) (o ++ servers') c w ∧ Forall2 (bound servers') addrs x ∧
           length l = length (List.filter wants_socket addrs) ∧
           h4' = h4 || existsb (fun a => bool_decide (ext_network a = UDP4)) addrs ∧
           h6' = h6 || existsb (fun a => bool_decide (ext_network a = UDP6)) addrs
       | Err _ => released o c end).
Proof.
  revert done_ servers h4 h6. induction addrs as [|a addrs IH]; intros done_ servers h4 h6;
    cbn [newServers_loop].
  { apply triple_mret. intros w Hw. exists [], []. rewrite !orb_false_r, app_nil_r. done. }
  set (opt := fun co : option nat => match co with Some s => [s] | None => [] end).
  apply triple_bind with (T := fun r w => match r with
    | Ok co => acc (done_ ++ a :: addrs) (o ++ servers ++ opt co) c w ∧
               length (opt co) = if wants_socket a then 1%nat else 0%nat
    | Err _ => acc (done_ ++ a :: addrs) (o ++ servers) c w end).
  { unfold wants_socket. destruct (_ || _).
    - eapply triple_bind_catch; [apply NewListenUDP_acc|]. intros [s|e]; apply triple_mret; [|done].
      intros w Hw. split; [|done]. by rewrite app_assoc.
    - apply triple_mret. intros w Hw. split; [|done]. by rewrite app_nil_r. }
  intros [co|e]; [|by apply servers_Close_acc, triple_fail; apply released_now].
  apply triple_bind with (T := fun _ w => ∃ a', acc (done_ ++ a' :: addrs) (o ++ servers ++ opt co) c w ∧
     bound (opt co) a a' ∧ length (opt co) = if wants_socket a then 1%nat else 0%nat).
  { intros w [Hw Hl]. case_bool_decide as Hp.
    - destruct (match co with Some s => getPortFromAddress s | None => Err ErrNilPointer end)
        as [port|err] eqn:E.
      + exists {| ext_host := ext_host a; ext_port := port; ext_network := ext_network a |}.
        split; [by apply (set_ext_port_acc done_ a addrs)|]. split; [|done]. split_and!; [done|done|].
        rewrite bool_decide_true by done. destruct co as [s|]; [|done]. exists s. split; [by left|done].
      + apply (servers_Close_acc (fail err) (done_ ++ a :: addrs) (o ++ servers ++ opt co) c servers
          (fun _ => released o c)); [|done]. apply triple_fail. intros w' Hw'.
        exists (done_ ++ a :: addrs), (servers ++ opt co), servers. split; [done|].
        destruct co as [s|]; [right; by exists s, err | left]. by rewrite app_nil_r.
    - exists a. split; [done|]. split; [|done]. split_and!; [done|done|]. by rewrite bool_decide_false. }
  intros _ w (a' & Hw & Hb & Hl).
  specialize (IH (done_ ++ [a']) (servers ++ opt co) (h4 || bool_decide (ext_network a = UDP4))
    (h6 || bool_decide (ext_network a = UDP6)) w).
  rewrite <- !app_assoc, length_app, Nat.add_1_r in IH. specialize (IH Hw).
  destruct (newServers_loop _ _ _ _ _ w) as [[[[servers' h4'] h6']|e] w']; cbn in *; [|done].
  destruct IH as (x & l & -> & Hw' & Hf & Hlen & -> & ->).
  exists (a' :: x), (opt co ++ l). rewrite <- !app_assoc in *.
  split; [done|]. split; [done|]. split.
  { constructor; [|done]. apply (bound_mono _ l) in Hb. destruct Hb as (? & ? & Hb).
    split_and!; [done..|]. case_bool_decide; [|done]. destruct Hb as (s & Hs & ?). exists s.
    split; [|done]. rewrite elem_of_app. by right. }
  rewrite length_app, Hl, !orb_assoc. split; [|done].
  rewrite Hlen. destruct (wants_socket a); reflexivity.
Qed.

(** The sockets of the network.  If [New] succeeds, one socket per external
    IPv4 or IPv6 address and one per multicast group are open and none has been
    closed; the external addresses are as before, with port 0 replaced by the
    port of an open socket.  If it fails, every socket it opened is closed, but
    for one whose local port could not be read. *)
Theorem New_servers_sockets mcast4 mcast6 w :
  let '(r, w') := New_servers mcast4 mcast6 w in
  match r with
  | Ok servers =>
      nw_opened w' = nw_opened w ++ servers ∧ nw_closed w' = nw_closed w ∧
      Forall2 (bound servers) (cfg_externalAddressesPort (nw_cfg w))
        (cfg_externalAddressesPort (nw_cfg w')) ∧
      ∃ ext mcast, servers = ext ++ mcast ∧
        ext ≠ [] ∧
        length ext = length (List.filter wants_socket (cfg_externalAddressesPort (nw_cfg w)))
  | Err _ => ∃ opened closed,
      nw_opened w' = nw_opened w ++ opened ∧ nw_closed w' = nw_closed w ++ closed ∧
      settled opened closed
  end.
Proof.
  set (o := nw_opened w). set (c := nw_closed w). set (x0 := cfg_externalAddressesPort (nw_cfg w)).
  assert (triple (acc x0 o c) (New_servers mcast4 mcast6) (fun r => match r with
    | Ok servers => fun w' => ∃ x ext mcast, acc x (o ++ servers) c w' ∧ Forall2 (bound servers) x0 x ∧
        servers = ext ++ mcast ∧ ext ≠ [] ∧ length ext = length (List.filter wants_socket x0)
    | Err _ => released o c end)) as H.
  { unfold New_servers. apply triple_bind with (T := fun r w' => ∃ x, acc x (o ++ r.1.1) c w' ∧
      Forall2 (bound r.1.1) x0 x ∧ r.1.1 ≠ [] ∧ length r.1.1 = length (List.filter wants_socket x0)).
    { unfold newServers. intros w1 Hw1. pose proof Hw1 as (Hx & _ & _).
      unfold mbind, ME_bind, gets. cbv beta iota. rewrite Hx.
      pose proof (newServers_loop_acc x0 [] o c [] false false w1) as Hl.
      rewrite !app_nil_r in Hl. specialize (Hl Hw1).
      destruct (newServers_loop x0 0 [] false false w1) as [[[[servers h4] h6]|e] w2] eqn:E;
        change (length []) with 0%nat in Hl; rewrite E in Hl; cbn in Hl; [|cbn; exact Hl].
      destruct Hl as (x & l & -> & Hw2 & Hf & Hlen & _). cbn [app] in *.
      destruct l as [|s l]; cbn [length Nat.eqb]; cbn.
      - apply (released_now x o c []). rewrite !app_nil_r. rewrite app_nil_r in Hw2. exact Hw2.
      - exists x. split; [done|]. split; [done|]. split; [done|]. exact Hlen. }
    intros [[servers h4] h6]. cbn [fst]. intros w1 (x & Hw1 & Hf & Hlen).
    assert (∀ (h : bool) mcast l w2, acc x (o ++ servers ++ l) c w2 →
      let '(r, w3) := (if h then appendMCastServers (servers ++ l) mcast else mret (servers ++ l)) w2 in
      match r with Ok s' => ∃ l', s' = servers ++ l' ∧ acc x (o ++ servers ++ l') c w3
                 | Err _ => released o c w3 end) as Hm.
    { intros h mcast l w2 Hw2. destruct h; [|by exists l].
      pose proof (appendMCastServers_acc mcast x o c (servers ++ l) w2 Hw2) as Ha.
      destruct (appendMCastServers _ _ w2) as [[s'|e] w3]; [|done].
      destruct Ha as [Ha [l' ->]]. exists (l ++ l'). by rewrite <- !app_assoc in *. }
    unfold mbind, ME_bind. pose proof (Hm h4 mcast4 [] w1) as H4. rewrite !app_nil_r in H4.
    specialize (H4 Hw1). destruct (_ w1) as [[s1|e] w2]; [|done]. destruct H4 as (l1 & -> & H1).
    specialize (Hm h6 mcast6 l1 w2 H1). destruct (_ w2) as [[s2|e] w3]; [|done].
    destruct Hm as (l2 & -> & H2). exists x, servers, l2. split; [done|]. split; [|done].
    eapply Forall2_impl; [done|]. intros a a'. apply bound_mono. }
  specialize (H w). destruct (New_servers mcast4 mcast6 w) as [[servers|e] w']; cbn in H.
  - destruct H as (x & ext & mcast & (Hx & Ho & Hc) & Hf & Hs & Hlen); [done|].
    rewrite Ho, Hc, Hx. split_and!; [done..|]. by exists ext, mcast.
  - destruct H as (x & l & k & (_ & Ho & Hc) & Hs); [done|]. by exists l, k.
Qed.
End Servers.

(** ** Deduplication *)

Section Serve.
Context `{HResolver : Resolver} `{HCache : Cache} `{!CacheLaws} `{HStatus : CoapStatus}.
Context (cfg : Config) (handler : Request → result (option Message)).

(** What happens to the cache in between: other messages are served, and the
    expired elements are removed from time to time. *)
Inductive CacheOp := OpServe (now : Z) (request : Message) | OpCheck (now : Z).
Definition op_time (op : CacheOp) : Z := match op with OpServe now _ | OpCheck now => now end.
Definition cache_step (cache : CacheT) (op : CacheOp) : CacheT :=
  match op with
  | OpServe now request => (deduplicate cfg now request cache).2
  | OpCheck now => cache_CheckExpirations now cache
  end.

Lemma cache_step_keeps k e op cache :
  cache_get cache k = Some e → op_time op <= e → cache_get (cache_step cache op) k = Some e.
Proof.
  intros Hk Ht. destruct op as [now request|now]; cbn in *; [|by apply cache_keep].
  unfold deduplicate. destruct (_ && _); [|done].
  destruct (decide (m_id request = k)) as [<-|Hne].
  - pose proof (cache_hit _ (now + DeduplicationLifetime cfg) now cache e Hk Ht) as Hh.
    destruct (cache_LoadOrStore _ _ _ _) as [[v loaded] c']. tauto.
  - pose proof (cache_other _ k (now + DeduplicationLifetime cfg) now cache Hne) as Ho.
    destruct (cache_LoadOrStore _ _ _ _) as [[v loaded] c']. cbn. congruence.
Qed.

(** C37 Deduplication: a message that is not confirmable and whose ID is not in the
    cache is handled; then, before the lifetime of the deduplication has passed and
    whatever is served in between, no other message with this ID that is not
    confirmable is handled, and every confirmable one is. *)
Theorem ServeCOAP_once now request cache ops t again conn localAddr cm :
  0 <= m_id request → m_type request ≠ Confirmable → cache_get cache (m_id request) = None →
  (∀ op, op ∈ ops → op_time op <= now + DeduplicationLifetime cfg) →
  m_id again = m_id request → t <= now + DeduplicationLifetime cfg →
  let '(out, cache') := ServeCOAP cfg handler conn localAddr cm now request cache in
  out = Some (handle cfg handler conn localAddr cm request) ∧
  (ServeCOAP cfg handler conn localAddr cm t again (foldl cache_step cache' ops)).1 =
    if m_type again =? Confirmable then Some (handle cfg handler conn localAddr cm again) else None.
Proof.
  intros Hid Ht Hc Hops Hid2 Hle.
  assert (∀ r, m_id r = m_id request → m_type r ≠ Confirmable →
    (m_id r >=? 0) && negb (m_type r =? Confirmable) = true) as Hcond.
  { intros r -> Hr. rewrite (proj2 (Z.geb_le _ _)) by done. by rewrite (proj2 (Z.eqb_neq _ _)). }
  unfold ServeCOAP. unfold deduplicate at 1. rewrite (Hcond request) by done.
  pose proof (cache_miss _ (now + DeduplicationLifetime cfg) now cache Hc) as Hm.
  destruct (cache_LoadOrStore _ _ _ _) as [[v loaded] c']. destruct Hm as [-> Hget]. cbn [andb negb].
  split; [done|].
  assert (cache_get (foldl cache_step c' ops) (m_id request) = Some (now + DeduplicationLifetime cfg)) as Hk.
  { revert c' Hget. induction ops as [|op ops IH]; intros c' Hget; [done|]. cbn [foldl].
    apply IH; [intros x Hx; apply Hops; by right|]. apply cache_step_keeps; [done|]. apply Hops. by left. }
  unfold deduplicate. destruct (Z.eqb_spec (m_type again) Confirmable) as [Ht2|Ht2]; [by rewrite andb_false_r|].
  rewrite (proj2 (Z.geb_le _ _)), Hid2 by congruence. cbn [negb andb].
  pose proof (cache_hit _ (t + DeduplicationLifetime cfg) t _ _ Hk Hle) as Hh.
  destruct (cache_LoadOrStore _ _ _ _) as [[v2 loaded2] c2]. destruct Hh as (-> & -> & _).
  rewrite Z.gtb_ltb, (proj2 (Z.ltb_ge _ _)) by done. done.
Qed.
End Serve.

(** ** The properties at concrete inputs *)

Section Examples.
#[local] Instance ex_resolver : Resolver := {|
  ResolveUDPAddr net addr := if bool_decide (net = UDP6) && has_prefix "[" addr || 
                                bool_decide (net = UDP4) && negb (has_prefix "[" addr)
                             then Ok tt else Err (ErrText "no suitable address");
  ParseIP_is4 s := negb (contains_char ":" s) |}.
#[local] Instance ex_cache : Cache := {|
  CacheT := gmap Z Z;
  cache_get c k := c !! k;
  cache_LoadOrStore k exp now c :=
    match c !! k with
    | Some e => if now >? e then (exp, false, <[k := exp]> c) else (e, true, c)
    | None => (exp, false, <[k := exp]> c)
    end;
  cache_CheckExpirations now c := filter (fun kv => now <= kv.2) c |}.
#[local] Instance ex_cache_laws : CacheLaws.
Proof.
  split; cbn.
  - intros k exp now c e Hk Hle. rewrite Hk, Z.gtb_ltb, (proj2 (Z.ltb_ge _ _)) by done. done.
  - intros k exp now c ->. split; [done|]. apply lookup_insert_eq.
  - intros k k' exp now c Hne.
    destruct (c !! k) as [e|]; [destruct (now >? e)|]; try done; cbn; by rewrite lookup_insert_ne.
  - intros k now c e Hk Hle. apply map_lookup_filter_Some. done.
Qed.
#[local] Instance ex_status : CoapStatus := fun _ => None.

Definition ex_cfg0 : Config :=
  {| ExternalAddresses := ["[fe80::1]:5683"; "10.0.0.1:5684"; "[fe80::1]:5685"]; MaxMessageSize := 0;
     DeduplicationLifetime := 0; cfg_externalAddressesPort := [] |}.
Definition ex_cfg : Config :=
  {| ExternalAddresses := ExternalAddresses ex_cfg0; MaxMessageSize := 2097152;
     DeduplicationLifetime := 8000000000;
     cfg_externalAddressesPort :=
       [{| ext_host := "fe80::1"; ext_port := "5683"; ext_network := UDP6 |};
        {| ext_host := "10.0.0.1"; ext_port := "5684"; ext_network := UDP4 |};
        {| ext_host := "fe80::1"; ext_port := "5685"; ext_network := UDP6 |}] |}.
Lemma ex_validate : Validate ex_cfg0 = Ok ex_cfg.
Proof. vm_compute. reflexivity. Qed.
Lemma ex_endpoints : GetEndpoints ex_cfg (Some false) "[::1]:5685" =
  [{| URI := "coap://[fe80::1]:5685"; Priority := 0 |}].
Proof. vm_compute. reflexivity. Qed.

Lemma GetEndpoints_spec_witness :
  getNetwork ex_cfg (Some false) "::1" "5685" = UDP6 ∧
  ((∃ e a, e ∈ cfg_externalAddressesPort ex_cfg ∧ ext_network e = UDP6 ∧
     (ext_port e = "5685" ∨
      ∀ e', e' ∈ cfg_externalAddressesPort ex_cfg → ext_network e' = UDP6 → ext_port e' ≠ "5685") ∧
     GetEndpoints ex_cfg (Some false) "[::1]:5685" = [{| URI := "coap://" +:+ a; Priority := 0 |}] ∧
     SplitHostPort a = Ok (ext_host e, ext_port e)) ∨
   ((∀ e, e ∈ cfg_externalAddressesPort ex_cfg → ext_network e ≠ UDP6) ∧
    GetEndpoints ex_cfg (Some false) "[::1]:5685" = [{| URI := "coap://" +:+ "[::1]:5685"; Priority := 0 |}])).
Proof.
  split; [reflexivity|].
  apply (GetEndpoints_spec ex_cfg0 ex_cfg (Some false) "[::1]:5685" "::1" "5685").
  - apply ex_validate.
  - vm_compute. reflexivity.
  - intros e He Hn. cbn in He.
    repeat (apply elem_of_cons in He as [-> | He]; [try (vm_compute in Hn; discriminate Hn); reflexivity|]).
    inversion He.
Defined.

Lemma ServeCOAP_once_witness :
  let request := set_id_type 7 NonConfirmable (set_code GET NewMessage) in
  let handler := fun _ : Request => Ok None in
  let '(out, cache') := ServeCOAP ex_cfg handler "peer" "10.0.0.1:5684" None 100 request ∅ in
  out = Some (handle ex_cfg handler "peer" "10.0.0.1:5684" None request) ∧
  (ServeCOAP ex_cfg handler "peer" "10.0.0.1:5684" None 200 request
     (foldl (cache_step ex_cfg) cache' [OpCheck 150])).1 = None.
Proof.
  intros request handler.
  apply (ServeCOAP_once ex_cfg handler 100 request ∅ [OpCheck 150] 200 request "peer" "10.0.0.1:5684" None).
  - cbn. lia.
  - done.
  - reflexivity.
  - intros op [-> | Hop]%elem_of_cons; [cbn; lia|inversion Hop].
  - reflexivity.
  - cbn. lia.
Defined.
End Examples.
