(* ===== verification/Verify.v ===== *)
(** * Verify: the checks on peer certificates

    [src/pkg/net/coap/verify.go]: extended key usages, the UUID of the subject
    common name, and the two acceptance tests built on them (identity
    certificates of devices, certificates of the cloud); and the callback that
    [src/pkg/net/coap/client.go] builds from such a test for a TLS connection. *)

From S2P Require Export Coap.

(** The fields of [x509.Certificate] the code reads.  [ExtKeyUsage] values are
    those of crypto/x509. *)
Record Certificate := {
  ExtKeyUsage : list Z;
  UnknownExtKeyUsage : list (list Z);
  CommonName : string }.

Definition ExtKeyUsageServerAuth : Z := 1.
Definition ExtKeyUsageClientAuth : Z := 2.
Definition ExtendedKeyUsage_IDENTITY_CERTIFICATE : list Z := [1; 3; 6; 1; 4; 1; 44924; 1; 6].

Definition verifyOcfEKU (cert : Certificate) : result unit :=
  if existsb (fun eku => bool_decide (eku = ExtendedKeyUsage_IDENTITY_CERTIFICATE))
       (UnknownExtKeyUsage cert)
  then Ok tt
  else Err (ErrText "certificate does not contain ExtKeyUsage with OCF ID").

(** The loop over [cert.ExtKeyUsage] with its two flags. *)
Fixpoint scan_eku (ekus : list Z) (hasClient hasServer : bool) : bool * bool :=
  match ekus with
  | [] => (hasClient, hasServer)
  | eku :: ekus' =>
      if eku =? ExtKeyUsageClientAuth then scan_eku ekus' true hasServer
      else if eku =? ExtKeyUsageServerAuth then scan_eku ekus' hasClient true
      else scan_eku ekus' hasClient hasServer
  end.

Definition verifyEKU (cert : Certificate) (requireClient requireServer requireOcfId : bool)
    : result unit :=
  let '(hasClient, hasServer) := scan_eku (ExtKeyUsage cert) false false in
  if requireClient && negb hasClient
  then Err (ErrText "certificate does not contain ExtKeyUsageClientAuth")
  else if requireServer && negb hasServer
  then Err (ErrText "certificate does not contain ExtKeyUsageServerAuth")
  else if negb requireOcfId then Ok tt
  else verifyOcfEKU cert.

Section WithUuids.
Context `{Uuids}.

Definition getUUIDFromSubjectCommonName (cert : Certificate) : result UUID :=
  match split (CommonName cert) ":" with
  | [cn0; cn1] =>
      if bool_decide (to_lower cn0 = "uuid")
      then match uuid_Parse cn1 with
           | Ok id => Ok id
           | Err e => Err (ErrWrap "invalid subject common name" e)
           end
      else Err (ErrText "invalid subject common name: 'uuid' - not found")
  | _ => Err (ErrText "invalid subject common name")
  end.

Definition GetDeviceIDFromIdentityCertificate (cert : Certificate) : result UUID :=
  _ ← verifyEKU cert true false true;
  getUUIDFromSubjectCommonName cert.

Definition VerifyIdentityCertificate (cert : Certificate) : result unit :=
  _ ← verifyEKU cert true true false;
  _ ← GetDeviceIDFromIdentityCertificate cert;
  Ok tt.

Definition VerifyCloudCertificate (cert : Certificate) (cloudID : UUID) : result unit :=
  _ ← verifyEKU cert true true false;
  id ← getUUIDFromSubjectCommonName cert;
  if bool_decide (id = cloudID) then Ok tt
  else Err (ErrText "invalid cloud certificate: invalid cloudID").

(** ** The check given to the TLS and DTLS handshakes ([client.go]) *)

(** [crypto/x509]: a certificate pool, the DER parser, and the verification of a leaf with
    intermediates against the roots at a time. *)
Class X509 := {
  CertPool : Type;
  x509_ParseCertificate : string → result Certificate;
  x509_Verify : CertPool → Certificate → list Certificate → Z → result unit }.

(** The error of the caller's check is only compared with [nil]: the function returns the
    error of the verification of the chain, which is [nil] there. *)
Definition NewVerifyPeerCertificate `{X509} (rootCAs : CertPool)
    (verifyPeerCertificate : option (Certificate → result unit))
    (now : Z) (rawCerts : list string) : result unit :=
  if (length rawCerts =? 0)%nat then Err (ErrText "empty certificates chain")
  else
    certs ← mapM x509_ParseCertificate rawCerts;
    match certs with
    | [] => Err (ErrText "index out of range")
    | leaf :: intermediateCAPool =>
        match x509_Verify rootCAs leaf intermediateCAPool now with
        | Err e => Err e
        | Ok _ =>
            match verifyPeerCertificate with
            | None => Ok tt
            | Some f => match f leaf with
                        | Err _ => Ok tt
                        | Ok _ => Ok tt
                        end
            end
        end
    end.

(** ** Lemmas *)

Lemma NewVerifyPeerCertificate_callback `{X509} rootCAs f now rawCerts :
  NewVerifyPeerCertificate rootCAs f now rawCerts = NewVerifyPeerCertificate rootCAs None now rawCerts.
Proof.
  unfold NewVerifyPeerCertificate. destruct (_ =? _)%nat; [done|].
  destruct (mapM _ rawCerts) as [[|leaf ints]|e]; [done| |done]. simpl.
  destruct (x509_Verify rootCAs leaf ints now); [|done]. destruct f as [f|]; [|done]. by destruct (f leaf).
Qed.

Lemma scan_eku_spec ekus c s :
  scan_eku ekus c s = (c || bool_decide (ExtKeyUsageClientAuth ∈ ekus),
                       s || bool_decide (ExtKeyUsageServerAuth ∈ ekus)).
Proof.
  revert c s. induction ekus as [|eku ekus IH]; intros c s; cbn [scan_eku].
  - rewrite !bool_decide_false by set_solver. by rewrite !orb_false_r.
  - unfold ExtKeyUsageClientAuth, ExtKeyUsageServerAuth in *.
    destruct (Z.eqb_spec eku 2) as [->|]; [|destruct (Z.eqb_spec eku 1) as [->|]];
      rewrite IH; f_equal;
      rewrite ?(bool_decide_true (2 ∈ 2 :: _)), ?(bool_decide_true (1 ∈ 1 :: _)), ?orb_true_r
        by set_solver; try done; f_equal; apply bool_decide_ext; set_solver.
Qed.

Lemma verifyEKU_ok cert rc rs ro :
  verifyEKU cert rc rs ro = Ok tt ↔
    (rc = true → ExtKeyUsageClientAuth ∈ ExtKeyUsage cert) ∧
    (rs = true → ExtKeyUsageServerAuth ∈ ExtKeyUsage cert) ∧
    (ro = true → ExtendedKeyUsage_IDENTITY_CERTIFICATE ∈ UnknownExtKeyUsage cert).
Proof.
  unfold verifyEKU, verifyOcfEKU. rewrite scan_eku_spec. simpl.
  assert (existsb (fun eku => bool_decide (eku = ExtendedKeyUsage_IDENTITY_CERTIFICATE))
            (UnknownExtKeyUsage cert) = true
          ↔ ExtendedKeyUsage_IDENTITY_CERTIFICATE ∈ UnknownExtKeyUsage cert) as Hoid.
  { rewrite existsb_exists, list_elem_of_In. split.
    - intros (x & Hx & E). apply bool_decide_eq_true in E. by subst.
    - intros Hin. eexists. split; [done|]. by apply bool_decide_eq_true. }
  do 2 case_bool_decide; destruct rc, rs, ro; simpl;
    try (destruct (existsb _ _); [|]); intuition congruence.
Qed.

Lemma getUUID_ok cert id :
  getUUIDFromSubjectCommonName cert = Ok id ↔
    ∃ cn0 cn1, split (CommonName cert) ":" = [cn0; cn1] ∧ to_lower cn0 = "uuid" ∧
               uuid_Parse cn1 = Ok id.
Proof.
  unfold getUUIDFromSubjectCommonName. split.
  - intros E. destruct (split _ _) as [|a [|b [|? ?]]]; try done.
    case_bool_decide; [|done]. destruct (uuid_Parse b) eqn:Ep; [|done]. simplify_eq. eauto.
  - intros (a & b & -> & Hl & Hp). rewrite bool_decide_true by done. by rewrite Hp.
Qed.

(** Identity certificates: the acceptance test of a device's certificate
    is exactly the conjunction of the three key usages (client, server, OCF
    identity OID) and a two-part common name "uuid:<parsable UUID>". *)
Theorem VerifyIdentityCertificate_iff cert :
  VerifyIdentityCertificate cert = Ok tt ↔
    ExtKeyUsageClientAuth ∈ ExtKeyUsage cert ∧
    ExtKeyUsageServerAuth ∈ ExtKeyUsage cert ∧
    ExtendedKeyUsage_IDENTITY_CERTIFICATE ∈ UnknownExtKeyUsage cert ∧
    ∃ cn0 cn1 id, split (CommonName cert) ":" = [cn0; cn1] ∧ to_lower cn0 = "uuid" ∧
                  uuid_Parse cn1 = Ok id.
Proof.
  unfold VerifyIdentityCertificate, GetDeviceIDFromIdentityCertificate.
  pose proof (verifyEKU_ok cert true true false) as H1.
  pose proof (verifyEKU_ok cert true false true) as H2.
  destruct (verifyEKU cert true true false) as [[]|]; simpl;
    [|split; [done|]; intros (?&?&_); exfalso; naive_solver].
  destruct (verifyEKU cert true false true) as [[]|]; simpl;
    [|split; [done|]; intros (?&?&?&_); exfalso; naive_solver].
  split.
  - destruct (getUUIDFromSubjectCommonName cert) as [id|] eqn:E; [|done].
    apply getUUID_ok in E. naive_solver.
  - intros (?&?&?&cn0&cn1&id&Hs). rewrite (proj2 (getUUID_ok cert id)); [done | eauto].
Qed.

(** Cloud certificates: a certificate is accepted for a cloud identifier
    exactly when it has the client and server key usages and its common name
    carries that identifier; in particular it is accepted for one identifier
    at most. *)
Theorem VerifyCloudCertificate_iff cert cloudID :
  (VerifyCloudCertificate cert cloudID = Ok tt ↔
    ExtKeyUsageClientAuth ∈ ExtKeyUsage cert ∧
    ExtKeyUsageServerAuth ∈ ExtKeyUsage cert ∧
    ∃ cn0 cn1, split (CommonName cert) ":" = [cn0; cn1] ∧ to_lower cn0 = "uuid" ∧
               uuid_Parse cn1 = Ok cloudID) ∧
  (∀ other, VerifyCloudCertificate cert cloudID = Ok tt →
            VerifyCloudCertificate cert other = Ok tt → other = cloudID).
Proof.
  unfold VerifyCloudCertificate.
  pose proof (verifyEKU_ok cert true true false) as H1.
  destruct (verifyEKU cert true true false) as [[]|]; simpl;
    [|split; [|done]; split; [done|]; intros (?&?&_); exfalso; naive_solver].
  destruct (getUUIDFromSubjectCommonName cert) as [id|] eqn:E; simpl.
  - apply getUUID_ok in E as Hid. split.
    + case_bool_decide; subst; [naive_solver|]. split; [done|].
      intros (_&_&Hc). by apply getUUID_ok in Hc as [= ->]%(eq_trans (eq_sym E)).
    + intros other. repeat case_bool_decide; congruence.
  - split; [|done]. split; [done|].
    intros (_&_&Hc). apply getUUID_ok in Hc. congruence.
Qed.

End WithUuids.

(** ** What a handshake accepts *)

Lemma verified_chain `{X509} rootCAs now rawCerts :
  NewVerifyPeerCertificate rootCAs None now rawCerts = Ok tt ↔
  ∃ leaf intermediates, mapM x509_ParseCertificate rawCerts = Ok (leaf :: intermediates) ∧
    x509_Verify rootCAs leaf intermediates now = Ok tt.
Proof.
  unfold NewVerifyPeerCertificate.
  destruct rawCerts as [|c0 cs]; [simpl; split; [done|by intros (?&?&?&?)]|]. cbn [length Nat.eqb].
  destruct (mapM _ (c0 :: cs)) as [[|leaf ints]|e]; simpl;
    [split; [done|by intros (?&?&?&?)]| |split; [done|by intros (?&?&?&?)]].
  destruct (x509_Verify rootCAs leaf ints now) as [[]|e] eqn:E; split; try done.
  - intros _. by exists leaf, ints.
  - intros (l&i&[= <- <-]&Hv). by rewrite E in Hv.
Qed.

(** C7 The peer of a TLS or DTLS handshake is accepted exactly when its certificates parse
    and the first one verifies against the roots through the others: the check of the
    caller (identity certificate of a device, certificate of the cloud) is called but its
    refusal is dropped. *)
Theorem NewVerifyPeerCertificate_iff `{X509} rootCAs f now rawCerts :
  NewVerifyPeerCertificate rootCAs f now rawCerts = Ok tt ↔
  ∃ leaf intermediates, mapM x509_ParseCertificate rawCerts = Ok (leaf :: intermediates) ∧
    x509_Verify rootCAs leaf intermediates now = Ok tt.
Proof. rewrite NewVerifyPeerCertificate_callback. apply verified_chain. Qed.
