(* ===== verification/CloudState.v ===== *)
(** * CloudState: the state of the cloud client of a bridged device

    [src/bridge/device/cloud]: the configuration and credentials of the cloud
    connection, and the operations that run under the manager's mutex: the API that the
    rest of the bridge calls from any goroutine.  [CloudManager] has the event
    handlers and the protocol with the cloud. *)

From S2P Require Export Verify.

(** ** Data ([pkg/ocf/cloud/request.go], [schema/cloud], [config.go]) *)

Inductive ProvisioningStatus :=
  | UNINITIALIZED | READY_TO_REGISTER | REGISTERING | REGISTERED | FAILED | DEREGISTERING.
#[export] Instance ProvisioningStatus_eq_dec : EqDecision ProvisioningStatus.
Proof. solve_decision. Defined.

Record Configuration := {
  cfg_ResourceTypes : list string;
  cfg_Interfaces : list string;
  cfg_Name : string;
  cfg_AuthorizationProvider : string;
  cfg_CloudID : string;
  cfg_URL : string;
  cfg_LastErrorCode : Z;
  cfg_ProvisioningStatus : ProvisioningStatus;
  cfg_AuthorizationCode : string }.
#[export] Instance Configuration_eq_dec : EqDecision Configuration.
Proof. solve_decision. Defined.

(** The [Endpoints] of the request are never read by the bridge. *)
Record ConfigurationUpdateRequest := {
  upd_AuthorizationProvider : string; upd_URL : string; upd_AuthorizationCode : string;
  upd_CloudID : string }.
Definition zero_update : ConfigurationUpdateRequest :=
  {| upd_AuthorizationProvider := ""; upd_URL := ""; upd_AuthorizationCode := "";
     upd_CloudID := "" |}.

(** [time.Time] is a number of nanoseconds, the zero time is 0. *)
Record CoapSignUpRequest := {
  su_DeviceID : string; su_AuthorizationCode : string; su_AuthorizationProvider : string }.
Record CoapSignUpResponse := {
  AccessToken : string; UserID : string; RefreshToken : string; RedirectURI : string;
  ExpiresIn : Z; ValidUntil : Z }.
Record CoapSignInRequest := {
  si_DeviceID : string; si_UserID : string; si_AccessToken : string; si_Login : bool }.
Record CoapSignInResponse := { sir_ExpiresIn : Z }.
Record CoapRefreshTokenRequest := {
  rf_DeviceID : string; rf_UserID : string; rf_RefreshToken : string }.
Record CoapRefreshTokenResponse := {
  rfr_AccessToken : string; rfr_RefreshToken : string; rfr_ExpiresIn : Z }.
Record PublishResourcesRequest := {
  pub_DeviceID : string; pub_Links : ResourceLinks; pub_TimeToLive : Z }.

#[export] Instance CoapSignUpResponse_eq_dec : EqDecision CoapSignUpResponse.
Proof. solve_decision. Defined.

Definition zero_creds : CoapSignUpResponse :=
  {| AccessToken := ""; UserID := ""; RefreshToken := ""; RedirectURI := "";
     ExpiresIn := 0; ValidUntil := 0 |}.

(** [Config], the exported and imported form. *)
Record Config := {
  c_AccessToken : string; c_UserID : string; c_RefreshToken : string; c_ValidUntil : Z;
  c_AuthorizationProvider : string; c_CloudID : string; c_CloudURL : string }.

Definition SignUp_uri : string := "/oic/sec/account".
Definition RefreshToken_uri : string := "/oic/sec/tokenrefresh".
Definition SignIn_uri : string := "/oic/sec/session".
Definition ResourceDirectory_uri : string := "/oic/rd".
Definition oic_d : string := "/oic/d".
Definition oic_res : string := "/oic/res".
Definition device_ResourceType : string := "oic.wk.d".

(** ** State of the manager

    [m_removed] is set when the handlers have left the event loop; the trigger
    channel is the list of its buffered values. *)

Record Manager := {
  m_cfg : Configuration;
  m_previousCloudIDs : list string;
  m_readyToPublish : option (gset string);
  m_readyToUnpublish : option (gset string);
  m_creds : CoapSignUpResponse;
  m_client : option nat;
  m_signedIn : bool;
  m_resourcesPublished : bool;
  m_forceRefreshToken : bool;
  m_doneClosed : bool;
  m_stopped : bool;
  m_reconnect : bool;
  m_trigger : list bool;
  m_removed : bool }.

(** Field updates. *)
Definition set_cfg_ProvisioningStatus (x : ProvisioningStatus) (r : Configuration) : Configuration :=
  {| cfg_ResourceTypes := cfg_ResourceTypes r; cfg_Interfaces := cfg_Interfaces r; cfg_Name
     := cfg_Name r; cfg_AuthorizationProvider := cfg_AuthorizationProvider r; cfg_CloudID :=
     cfg_CloudID r; cfg_URL := cfg_URL r; cfg_LastErrorCode := cfg_LastErrorCode r;
     cfg_ProvisioningStatus := x; cfg_AuthorizationCode := cfg_AuthorizationCode r |}.
Definition set_m_cfg (x : Configuration) (r : Manager) : Manager :=
  {| m_cfg := x; m_previousCloudIDs := m_previousCloudIDs r; m_readyToPublish :=
     m_readyToPublish r; m_readyToUnpublish := m_readyToUnpublish r; m_creds := m_creds r;
     m_client := m_client r; m_signedIn := m_signedIn r; m_resourcesPublished :=
     m_resourcesPublished r; m_forceRefreshToken := m_forceRefreshToken r; m_doneClosed :=
     m_doneClosed r; m_stopped := m_stopped r; m_reconnect := m_reconnect r; m_trigger :=
     m_trigger r; m_removed := m_removed r |}.
Definition set_m_previousCloudIDs (x : list string) (r : Manager) : Manager :=
  {| m_cfg := m_cfg r; m_previousCloudIDs := x; m_readyToPublish := m_readyToPublish r;
     m_readyToUnpublish := m_readyToUnpublish r; m_creds := m_creds r; m_client := m_client
     r; m_signedIn := m_signedIn r; m_resourcesPublished := m_resourcesPublished r;
     m_forceRefreshToken := m_forceRefreshToken r; m_doneClosed := m_doneClosed r; m_stopped
     := m_stopped r; m_reconnect := m_reconnect r; m_trigger := m_trigger r; m_removed :=
     m_removed r |}.
Definition set_m_readyToPublish (x : option (gset string)) (r : Manager) : Manager :=
  {| m_cfg := m_cfg r; m_previousCloudIDs := m_previousCloudIDs r; m_readyToPublish := x;
     m_readyToUnpublish := m_readyToUnpublish r; m_creds := m_creds r; m_client := m_client
     r; m_signedIn := m_signedIn r; m_resourcesPublished := m_resourcesPublished r;
     m_forceRefreshToken := m_forceRefreshToken r; m_doneClosed := m_doneClosed r; m_stopped
     := m_stopped r; m_reconnect := m_reconnect r; m_trigger := m_trigger r; m_removed :=
     m_removed r |}.
Definition set_m_readyToUnpublish (x : option (gset string)) (r : Manager) : Manager :=
  {| m_cfg := m_cfg r; m_previousCloudIDs := m_previousCloudIDs r; m_readyToPublish :=
     m_readyToPublish r; m_readyToUnpublish := x; m_creds := m_creds r; m_client := m_client
     r; m_signedIn := m_signedIn r; m_resourcesPublished := m_resourcesPublished r;
     m_forceRefreshToken := m_forceRefreshToken r; m_doneClosed := m_doneClosed r; m_stopped
     := m_stopped r; m_reconnect := m_reconnect r; m_trigger := m_trigger r; m_removed :=
     m_removed r |}.
Definition set_m_creds (x : CoapSignUpResponse) (r : Manager) : Manager :=
  {| m_cfg := m_cfg r; m_previousCloudIDs := m_previousCloudIDs r; m_readyToPublish :=
     m_readyToPublish r; m_readyToUnpublish := m_readyToUnpublish r; m_creds := x; m_client
     := m_client r; m_signedIn := m_signedIn r; m_resourcesPublished := m_resourcesPublished
     r; m_forceRefreshToken := m_forceRefreshToken r; m_doneClosed := m_doneClosed r;
     m_stopped := m_stopped r; m_reconnect := m_reconnect r; m_trigger := m_trigger r;
     m_removed := m_removed r |}.
Definition set_m_client (x : option nat) (r : Manager) : Manager :=
  {| m_cfg := m_cfg r; m_previousCloudIDs := m_previousCloudIDs r; m_readyToPublish :=
     m_readyToPublish r; m_readyToUnpublish := m_readyToUnpublish r; m_creds := m_creds r;
     m_client := x; m_signedIn := m_signedIn r; m_resourcesPublished := m_resourcesPublished
     r; m_forceRefreshToken := m_forceRefreshToken r; m_doneClosed := m_doneClosed r;
     m_stopped := m_stopped r; m_reconnect := m_reconnect r; m_trigger := m_trigger r;
     m_removed := m_removed r |}.
Definition set_m_signedIn (x : bool) (r : Manager) : Manager :=
  {| m_cfg := m_cfg r; m_previousCloudIDs := m_previousCloudIDs r; m_readyToPublish :=
     m_readyToPublish r; m_readyToUnpublish := m_readyToUnpublish r; m_creds := m_creds r;
     m_client := m_client r; m_signedIn := x; m_resourcesPublished := m_resourcesPublished
     r; m_forceRefreshToken := m_forceRefreshToken r; m_doneClosed := m_doneClosed r;
     m_stopped := m_stopped r; m_reconnect := m_reconnect r; m_trigger := m_trigger r;
     m_removed := m_removed r |}.
Definition set_m_resourcesPublished (x : bool) (r : Manager) : Manager :=
  {| m_cfg := m_cfg r; m_previousCloudIDs := m_previousCloudIDs r; m_readyToPublish :=
     m_readyToPublish r; m_readyToUnpublish := m_readyToUnpublish r; m_creds := m_creds r;
     m_client := m_client r; m_signedIn := m_signedIn r; m_resourcesPublished := x;
     m_forceRefreshToken := m_forceRefreshToken r; m_doneClosed := m_doneClosed r; m_stopped
     := m_stopped r; m_reconnect := m_reconnect r; m_trigger := m_trigger r; m_removed :=
     m_removed r |}.
Definition set_m_forceRefreshToken (x : bool) (r : Manager) : Manager :=
  {| m_cfg := m_cfg r; m_previousCloudIDs := m_previousCloudIDs r; m_readyToPublish :=
     m_readyToPublish r; m_readyToUnpublish := m_readyToUnpublish r; m_creds := m_creds r;
     m_client := m_client r; m_signedIn := m_signedIn r; m_resourcesPublished :=
     m_resourcesPublished r; m_forceRefreshToken := x; m_doneClosed := m_doneClosed r;
     m_stopped := m_stopped r; m_reconnect := m_reconnect r; m_trigger := m_trigger r;
     m_removed := m_removed r |}.
Definition set_m_doneClosed (x : bool) (r : Manager) : Manager :=
  {| m_cfg := m_cfg r; m_previousCloudIDs := m_previousCloudIDs r; m_readyToPublish :=
     m_readyToPublish r; m_readyToUnpublish := m_readyToUnpublish r; m_creds := m_creds r;
     m_client := m_client r; m_signedIn := m_signedIn r; m_resourcesPublished :=
     m_resourcesPublished r; m_forceRefreshToken := m_forceRefreshToken r; m_doneClosed :=
     x; m_stopped := m_stopped r; m_reconnect := m_reconnect r; m_trigger := m_trigger r;
     m_removed := m_removed r |}.
Definition set_m_stopped (x : bool) (r : Manager) : Manager :=
  {| m_cfg := m_cfg r; m_previousCloudIDs := m_previousCloudIDs r; m_readyToPublish :=
     m_readyToPublish r; m_readyToUnpublish := m_readyToUnpublish r; m_creds := m_creds r;
     m_client := m_client r; m_signedIn := m_signedIn r; m_resourcesPublished :=
     m_resourcesPublished r; m_forceRefreshToken := m_forceRefreshToken r; m_doneClosed :=
     m_doneClosed r; m_stopped := x; m_reconnect := m_reconnect r; m_trigger := m_trigger r;
     m_removed := m_removed r |}.
Definition set_m_reconnect (x : bool) (r : Manager) : Manager :=
  {| m_cfg := m_cfg r; m_previousCloudIDs := m_previousCloudIDs r; m_readyToPublish :=
     m_readyToPublish r; m_readyToUnpublish := m_readyToUnpublish r; m_creds := m_creds r;
     m_client := m_client r; m_signedIn := m_signedIn r; m_resourcesPublished :=
     m_resourcesPublished r; m_forceRefreshToken := m_forceRefreshToken r; m_doneClosed :=
     m_doneClosed r; m_stopped := m_stopped r; m_reconnect := x; m_trigger := m_trigger r;
     m_removed := m_removed r |}.
Definition set_m_trigger (x : list bool) (r : Manager) : Manager :=
  {| m_cfg := m_cfg r; m_previousCloudIDs := m_previousCloudIDs r; m_readyToPublish :=
     m_readyToPublish r; m_readyToUnpublish := m_readyToUnpublish r; m_creds := m_creds r;
     m_client := m_client r; m_signedIn := m_signedIn r; m_resourcesPublished :=
     m_resourcesPublished r; m_forceRefreshToken := m_forceRefreshToken r; m_doneClosed :=
     m_doneClosed r; m_stopped := m_stopped r; m_reconnect := m_reconnect r; m_trigger := x;
     m_removed := m_removed r |}.
Definition set_m_removed (x : bool) (r : Manager) : Manager :=
  {| m_cfg := m_cfg r; m_previousCloudIDs := m_previousCloudIDs r; m_readyToPublish :=
     m_readyToPublish r; m_readyToUnpublish := m_readyToUnpublish r; m_creds := m_creds r;
     m_client := m_client r; m_signedIn := m_signedIn r; m_resourcesPublished :=
     m_resourcesPublished r; m_forceRefreshToken := m_forceRefreshToken r; m_doneClosed :=
     m_doneClosed r; m_stopped := m_stopped r; m_reconnect := m_reconnect r; m_trigger :=
     m_trigger r; m_removed := x |}.

(** The state a fresh manager has before [importConfig]. *)
Definition zero_manager : Manager :=
  {| m_cfg := {| cfg_ResourceTypes := []; cfg_Interfaces := []; cfg_Name := "";
                 cfg_AuthorizationProvider := ""; cfg_CloudID := ""; cfg_URL := "";
                 cfg_LastErrorCode := 0; cfg_ProvisioningStatus := UNINITIALIZED;
                 cfg_AuthorizationCode := "" |};
     m_previousCloudIDs := []; m_readyToPublish := None; m_readyToUnpublish := None;
     m_creds := zero_creds; m_client := None; m_signedIn := false;
     m_resourcesPublished := false; m_forceRefreshToken := false; m_doneClosed := false;
     m_stopped := false; m_reconnect := false; m_trigger := []; m_removed := false |}.

(** ** Operations under the mutex: pure functions of the state *)

Definition trigger_capacity : nat := 10.
(** The non-blocking send of [triggerRunner]. *)
Definition triggerRunner (reset : bool) (m : Manager) : Manager :=
  if (length (m_trigger m) <? trigger_capacity)%nat
  then set_m_trigger (m_trigger m ++ [reset]) m else m.

Definition setCloudConfiguration (cfg : ConfigurationUpdateRequest) (m : Manager) : Manager :=
  let old := m_cfg m in
  let m := set_m_previousCloudIDs (m_previousCloudIDs m ++ [cfg_CloudID old]) m in
  let new status :=
    {| cfg_ResourceTypes := cfg_ResourceTypes old; cfg_Interfaces := cfg_Interfaces old;
       cfg_Name := cfg_Name old; cfg_AuthorizationProvider := upd_AuthorizationProvider cfg;
       cfg_CloudID := upd_CloudID cfg; cfg_URL := upd_URL cfg;
       cfg_LastErrorCode := cfg_LastErrorCode old; cfg_ProvisioningStatus := status;
       cfg_AuthorizationCode := upd_AuthorizationCode cfg |} in
  if bool_decide (upd_URL cfg = "")
  then set_m_readyToUnpublish None (set_m_readyToPublish None (set_m_cfg (new UNINITIALIZED) m))
  else set_m_cfg (new READY_TO_REGISTER) m.

Definition setProvisioningStatus (status : ProvisioningStatus) (m : Manager) : Manager :=
  set_m_cfg (set_cfg_ProvisioningStatus status (m_cfg m)) m.

Definition setCreds (creds : CoapSignUpResponse) (m : Manager) : Manager :=
  set_m_signedIn false (set_m_creds creds m).

Definition importConfig (cfg : Config) (m : Manager) : Manager :=
  let m := setCloudConfiguration
    {| upd_AuthorizationProvider := c_AuthorizationProvider cfg; upd_URL := c_CloudURL cfg;
       upd_AuthorizationCode := ""; upd_CloudID := c_CloudID cfg |} m in
  setCreds {| AccessToken := c_AccessToken cfg; UserID := c_UserID cfg;
              RefreshToken := c_RefreshToken cfg; RedirectURI := ""; ExpiresIn := 0;
              ValidUntil := c_ValidUntil cfg |} m.

Definition ExportConfig (m : Manager) : Config :=
  {| c_AccessToken := AccessToken (m_creds m); c_UserID := UserID (m_creds m);
     c_RefreshToken := RefreshToken (m_creds m); c_ValidUntil := ValidUntil (m_creds m);
     c_AuthorizationProvider := cfg_AuthorizationProvider (m_cfg m);
     c_CloudID := cfg_CloudID (m_cfg m); c_CloudURL := cfg_URL (m_cfg m) |}.

Definition isInitialized (m : Manager) : bool := negb (bool_decide (cfg_URL (m_cfg m) = "")).

(** [New] after the options are applied. *)
Definition New (caPoolValid : bool) (cfg : Config) : result Manager :=
  if negb caPoolValid then Err (ErrText "invalid ca pool")
  else Ok (importConfig cfg zero_manager).

Definition resetPublishing (m : Manager) : Manager :=
  set_m_readyToUnpublish None (set_m_readyToPublish None m).

(** A write to, and a [delete] from, a possibly nil set. *)
Definition set_add (h : string) (s : option (gset string)) : option (gset string) :=
  Some ({[h]} ∪ default ∅ s).
Definition set_remove (h : string) (s : option (gset string)) : option (gset string) :=
  (fun X => X ∖ {[h]}) <$> s.

Definition PublishResources (hrefs : list string) (m : Manager) : Manager :=
  let m := set_m_readyToPublish (Some (default ∅ (m_readyToPublish m))) m in
  let m := foldl (fun m href =>
      set_m_readyToUnpublish (set_remove href (m_readyToUnpublish m))
        (set_m_readyToPublish (set_add href (m_readyToPublish m)) m)) m hrefs in
  triggerRunner false m.

Definition UnpublishResources (hrefs : list string) (m : Manager) : Manager :=
  let m := set_m_readyToUnpublish (Some (default ∅ (m_readyToUnpublish m))) m in
  let m := foldl (fun m href =>
      set_m_readyToPublish (set_remove href (m_readyToPublish m))
        (set_m_readyToUnpublish (set_add href (m_readyToUnpublish m)) m)) m hrefs in
  triggerRunner false m.

Definition Reconnect (m : Manager) : Manager := triggerRunner false (set_m_reconnect true m).
Definition Unregister (m : Manager) : Manager :=
  triggerRunner true (setCloudConfiguration zero_update m).
Definition Close (m : Manager) : Manager :=
  if m_stopped m then m else set_m_doneClosed true (set_m_stopped true m).

(** The [AddOnClose] callback of the connection [conn]. *)
Definition onConnClosed (conn : nat) (m : Manager) : Manager :=
  if bool_decide (m_client m = Some conn)
  then set_m_signedIn false (set_m_client None m) else m.

Definition validateConfigurationUpdate (cfg : ConfigurationUpdateRequest) : result unit :=
  if bool_decide (upd_CloudID cfg = "") then Err (ErrText "cloud ID cannot be empty")
  else if bool_decide (upd_AuthorizationProvider cfg = "")
  then Err (ErrText "authorization provider cannot be empty")
  else if bool_decide (upd_URL cfg = "") then Err (ErrText "URL cannot be empty")
  else Ok tt.

Section Handlers.
Context `{Cbor Configuration} `{Cbor ConfigurationUpdateRequest}.

Definition Cloud_Get (m : Manager) : result Message :=
  CreateResponseContent (m_cfg m) codes_Content.

Definition Cloud_Post (body : option string) (m : Manager) : result Message * Manager :=
  match ReadFrom (A:=ConfigurationUpdateRequest) body with
  | Err e => (CreateResponseBadRequest e, m)
  | Ok cfg =>
      let accept m :=
        let m := triggerRunner true m in
        (CreateResponseContent (m_cfg m) codes_Changed, m) in
      if bool_decide (upd_URL cfg = "")
      then accept (setCloudConfiguration zero_update m)
      else match validateConfigurationUpdate cfg with
           | Err e => (CreateResponseBadRequest e, m)
           | Ok _ => accept (setCloudConfiguration cfg m)
           end
  end.

(** What other goroutines may call. *)
Inductive ApiCall :=
  | CallPost (body : option string)
  | CallPublish (hrefs : list string)
  | CallUnpublish (hrefs : list string)
  | CallReconnect
  | CallUnregister
  | CallClose
  | CallConnClosed (conn : nat).

Definition api_call (c : ApiCall) (m : Manager) : Manager :=
  match c with
  | CallPost body => (Cloud_Post body m).2
  | CallPublish hrefs => PublishResources hrefs m
  | CallUnpublish hrefs => UnpublishResources hrefs m
  | CallReconnect => Reconnect m
  | CallUnregister => Unregister m
  | CallClose => Close m
  | CallConnClosed conn => onConnClosed conn m
  end.
End Handlers.
