(* ===== verification/CoreDevice.v ===== *)
(** * CoreDevice: a device of the client core

    [src/client/core/device.go], [getResource.go], [updateResource.go],
    [deleteResource.go], [getOwnership.go], [getSdkOwnerID.go], [sdkError.go]: the
    connections a client keeps to a device, the choice of an endpoint, and the
    requests that are sent over them.

    Dialling, the state of a connection and the answers of the peer are the
    environment [CoreEnv]; what is sent is recorded in a trace.  The lock of the
    connection table and the semaphore of a connection are held for the whole of
    the operations that use them, so these are modelled as atomic. *)

From S2P Require Export Schema SecSchema Verify.
From S2P Require CloudState.

(** ** [SdkError] *)

Definition MakeSdkError (code : sdk_code) (err : error) : error :=
  match err_as_sdk err with Some _ => err | None => SdkError code err end.
Definition MakeCanceled : error → error := MakeSdkError Canceled.
Definition MakeUnknown : error → error := MakeSdkError Unknown.
Definition MakeInvalidArgument : error → error := MakeSdkError InvalidArgument.
Definition MakeDeadlineExceeded : error → error := MakeSdkError DeadlineExceeded.
Definition MakeNotFound : error → error := MakeSdkError NotFound.
Definition MakeAlreadyExists : error → error := MakeSdkError AlreadyExists.
Definition MakePermissionDenied : error → error := MakeSdkError PermissionDenied.
Definition MakeResourceExhausted : error → error := MakeSdkError ResourceExhausted.
Definition MakeFailedPrecondition : error → error := MakeSdkError FailedPrecondition.
Definition MakeAborted : error → error := MakeSdkError Aborted.
Definition MakeOutOfRange : error → error := MakeSdkError OutOfRange.
Definition MakeUnimplemented : error → error := MakeSdkError Unimplemented.
Definition MakeInternal : error → error := MakeSdkError Internal.
Definition MakeUnavailable : error → error := MakeSdkError Unavailable.
Definition MakeDataLoss : error → error := MakeSdkError DataLoss.
Definition MakeUnauthenticated : error → error := MakeSdkError Unauthenticated.
(** [GetCode] and [Unwrap], of a value that is an [SdkError]. *)
Definition sdk_GetCode (e : error) : option sdk_code := match e with SdkError c _ => Some c | _ => None end.
Definition sdk_Unwrap (e : error) : option error := match e with SdkError _ i => Some i | _ => None end.
(** [MakeInternalStr] with a format that wraps the error. *)
Definition MakeInternalStr (str : string) (e : error) : error := MakeSdkError Internal (ErrWrap str e).

(** ** Environment *)

(** The dial functions: those of the configuration, those of the ownership
    transfer methods, and DTLS with a pre-shared key and identity. *)
Inductive Dialer := DialUDP | DialDTLS | DialTCP | DialTLS | DialOTM (t : Z) | DialPSK (psk id : string).

(** The bodies of the updates. *)
Inductive Payload :=
  | PPstat (u : ProvisionStatusUpdateRequest)
  | PDoxm (u : DoxmUpdate)
  | PAcl (u : AclUpdateRequest)
  | PCred (u : CredentialUpdateRequest)
  | PCloud (u : CloudState.ConfigurationUpdateRequest).

(** What the client does on its connections; an update records whether the
    device accepted it. *)
Inductive CEvent :=
  | EvDial (d : Dialer) (addr : string) (c : nat)
  | EvClose (c : nat)
  | EvUpdate (c : nat) (href : string) (p : Payload) (ok : bool)
  | EvDelete (c : nat) (href : string) (ok : bool)
  | EvGet (c : nat) (href : string)
  | EvDuringOwn (c : nat)
  | EvAfterOwn (c : nat).

Class CoreEnv := {
  CEnv : Type;
  cenv_GetCertificate : CEnv → result unit * CEnv;
  cenv_GetCertificateAuthorities : CEnv → result unit * CEnv;
  cenv_Dial : Dialer → string → CEnv → result nat * CEnv;
  cenv_alive : nat → CEnv → bool;
  cenv_Close : nat → CEnv → result unit * CEnv;
  cenv_Update : nat → string → Payload → CEnv → result unit * CEnv;
  cenv_Delete : nat → string → CEnv → result unit * CEnv;
  cenv_GetPstat : nat → CEnv → result ProvisionStatusResponse * CEnv;
  cenv_GetDoxm : nat → CEnv → result Doxm * CEnv;
  cenv_GetCsr : nat → CEnv → result CertificateSigningRequestResponse * CEnv }.

(** ** The device *)

(** A connection slot: the client connection and the error of the dial. *)
Record conn := { conn_c : option nat; conn_err : option error }.
Definition new_conn : conn := {| conn_c := None; conn_err := None |}.

(** [d_conn] maps an address to a pointer into the heap of slots. *)
Record Device := {
  d_deviceID : string;
  d_getEndpoints : option Endpoints;
  d_heap : gmap nat conn;
  d_conn : gmap string nat }.
Definition set_deviceID (id : string) (d : Device) : Device :=
  {| d_deviceID := id; d_getEndpoints := d_getEndpoints d; d_heap := d_heap d; d_conn := d_conn d |}.
Definition set_slots (h : gmap nat conn) (m : gmap string nat) (d : Device) : Device :=
  {| d_deviceID := d_deviceID d; d_getEndpoints := d_getEndpoints d; d_heap := h; d_conn := m |}.
Definition GetEndpoints (d : Device) : Endpoints := default [] (d_getEndpoints d).

Section Core.
Context `{HKit : Kit} `{HCore : CoreEnv}.

Record CWorld := { cw_d : Device; cw_env : CEnv; cw_trace : list CEvent }.
Abbreviation CM := (ME CWorld).

Definition ask {A} (f : CEnv → result A * CEnv) : CM A :=
  fun w => let (r, e) := f (cw_env w) in
           (r, {| cw_d := cw_d w; cw_env := e; cw_trace := cw_trace w |}).
Definition emit (e : CEvent) : CM unit :=
  modify (fun w => {| cw_d := cw_d w; cw_env := cw_env w; cw_trace := cw_trace w ++ [e] |}).
Definition upd (f : Device → Device) : CM unit :=
  modify (fun w => {| cw_d := f (cw_d w); cw_env := cw_env w; cw_trace := cw_trace w |}).

Definition dial_with (dialer : Dialer) (addr : string) : CM nat :=
  c ← ask (cenv_Dial dialer addr); emit (EvDial dialer addr c);; mret c.
Definition close_conn (c : nat) : CM unit := emit (EvClose c);; ask (cenv_Close c).
Definition update (c : nat) (href : string) (p : Payload) : CM unit :=
  r ← catch (ask (cenv_Update c href p)); emit (EvUpdate c href p (is_ok r));; lift r.
Definition delete_ (c : nat) (href : string) : CM unit :=
  r ← catch (ask (cenv_Delete c href)); emit (EvDelete c href (is_ok r));; lift r.
Definition get_ {A} (f : nat → CEnv → result A * CEnv) (c : nat) (href : string) : CM A :=
  emit (EvGet c href);; ask (f c).

(** [dialTLS] and [dialDTLS]: the peer must present an identity certificate. *)
Definition dial_secure (dialer : Dialer) (addr : string) : CM nat :=
  ask cenv_GetCertificate;;
  ask cenv_GetCertificateAuthorities;;
  dial_with dialer addr.
Definition dialTLS (addr : string) : CM nat := dial_secure DialTLS addr.
Definition dialDTLS (addr : string) : CM nat := dial_secure DialDTLS addr.

Definition dial (addr : Addr) : CM nat :=
  let scheme := addr_GetScheme addr in
  if bool_decide (scheme = UDPScheme) then dial_with DialUDP (addr_String addr)
  else if bool_decide (scheme = UDPSecureScheme) then dialDTLS (addr_String addr)
  else if bool_decide (scheme = TCPScheme) then dial_with DialTCP (addr_String addr)
  else if bool_decide (scheme = TCPSecureScheme) then dialTLS (addr_String addr)
  else fail (ErrText "unknown scheme").

Definition loadORCreate (addr : string) : CM nat :=
  d ← gets cw_d;
  match d_conn d !! addr with
  | Some p => mret p
  | None =>
      let p := fresh (dom (d_heap d)) in
      upd (fun d => set_slots (<[p := new_conn]> (d_heap d)) (<[addr := p]> (d_conn d)) d);;
      mret p
  end.

Definition set_slot (p : nat) (c : conn) : CM unit :=
  upd (fun d => set_slots (<[p := c]> (d_heap d)) (d_conn d) d).

(** [conn.Dial]: the connection, and whether it existed. *)
Definition conn_Dial (p : nat) (addr : Addr) : CM (nat * bool) :=
  w ← gets id;
  let c := default new_conn (d_heap (cw_d w) !! p) in
  let clientConn := match conn_c c with
                    | Some n => if cenv_alive n (cw_env w) then Some n else None
                    | None => None
                    end in
  match clientConn with
  | Some n => mret (n, true)
  | None =>
      match conn_err c with
      | Some err => fail err
      | None =>
          r ← catch (dial addr);
          match r with
          | Err err => set_slot p {| conn_c := conn_c c; conn_err := Some err |};; fail err
          | Ok n => set_slot p {| conn_c := Some n; conn_err := conn_err c |};; mret (n, false)
          end
      end
  end.

(** [removeConn]; the slot of the table is not locked by a dial. *)
Definition removeConn (addr : string) (cc : nat) (d : Device) : Device :=
  match d_conn d !! addr with
  | None => d
  | Some p =>
      let c := default new_conn (d_heap d !! p) in
      let clientConn := conn_c (default new_conn (d_heap d !! cc)) in
      if bool_decide (clientConn = None) && bool_decide (conn_err c = None) then d
      else if negb (bool_decide (clientConn = None)) && bool_decide (conn_c c = clientConn)
      then set_slots (d_heap d) (delete addr (d_conn d)) d
      else if bool_decide (p = cc) && negb (bool_decide (conn_err c = None))
      then set_slots (d_heap d) (delete addr (d_conn d)) d
      else d
  end.

Definition connectToEndpoint (endpoint : Endpoint) : CM (Addr * nat) :=
  addr ← lift (Endpoint_GetAddr endpoint);
  conn ← loadORCreate (addr_URL addr);
  r ← catch (conn_Dial conn addr);
  match r with
  | Err err =>
      upd (removeConn (addr_URL addr) conn);;
      fail (MakeInternal (ErrWrap "cannot connect" err))
  | Ok (cc, loaded) => mret (addr, cc)
  end.
(** The close handler that [connectToEndpoint] registers with a new connection. *)
Definition onConnClosed (addr : Addr) (conn : nat) : CM unit := upd (removeConn (addr_URL addr) conn).

Fixpoint connect_loop (endpoints : Endpoints) (errs : option error) : CM (Addr * nat) :=
  match endpoints with
  | [] => match errs with
          | Some e => fail e
          | None => fail (MakeInternal (ErrText "cannot connect to empty endpoints"))
          end
  | endpoint :: rest =>
      r ← catch (connectToEndpoint endpoint);
      match r with
      | Err err => connect_loop rest (err_append errs err)
      | Ok ac => mret ac
      end
  end.
Definition connectToEndpoints (endpoints : Endpoints) : CM (Addr * nat) := connect_loop endpoints None.

(** [popConnections] and the loop of [Close] over the connections. *)
Definition popConnections : CM (list (option nat)) :=
  d ← gets cw_d;
  upd (fun d => set_slots (d_heap d) ∅ d);;
  mret ((fun ap => conn_c (default new_conn (d_heap d !! ap.2))) <$> map_to_list (d_conn d)).
Definition net_ErrClosed : error := ErrText "use of closed network connection".
Fixpoint close_all (conns : list (option nat)) (errs : option error) : CM (option error) :=
  match conns with
  | [] => mret errs
  | None :: rest => close_all rest errs
  | Some c :: rest =>
      r ← catch (close_conn c);
      close_all rest (match r with
                      | Err e => if negb (err_is net_ErrClosed e) then err_append errs e else errs
                      | Ok _ => errs
                      end)
  end.

(** ** Requests *)

Definition UpdateResource (link : ResourceLink) (request : Payload) : CM unit :=
  r ← catch (connectToEndpoints (Schema.GetEndpoints link));
  match r with
  | Err err => fail (MakeInternal (ErrWrap "cannot update resource" err))
  | Ok (_, client) => update client (Href link) request
  end.
Definition DeleteResource (link : ResourceLink) : CM unit :=
  r ← catch (connectToEndpoints (Schema.GetEndpoints link));
  match r with
  | Err err => fail (MakeInternal (ErrWrap "cannot delete resource" err))
  | Ok (_, client) => delete_ client (Href link)
  end.
Definition GetResource {A} (f : nat → CEnv → result A * CEnv) (link : ResourceLink) : CM A :=
  r ← catch (connectToEndpoints (Schema.GetEndpoints link));
  match r with
  | Err err => fail (ErrWrap "cannot get resource" err)
  | Ok (_, client) => get_ f client (Href link)
  end.

Definition doxm_ResourceURI : string := "/oic/sec/doxm".
Definition GetOwnership (links : ResourceLinks) : CM Doxm :=
  match Schema.GetResourceLink links doxm_ResourceURI with
  | None => fail (ErrText "cannot find /oic/sec/doxm in links")
  | Some ownLink =>
      let eps := GetUnsecureEndpoints ownLink in
      let eps := match eps with [] => GetSecureEndpoints ownLink | _ => eps end in
      GetResource cenv_GetDoxm (set_Endpoints eps ownLink)
  end.

(** ** The ID of the owner *)

Context `{HUuid : Uuids}.
(** The loop over the certificate chain; [parse] is [x509.ParseCertificate]. *)
Fixpoint sdk_owner_loop (parse : string → result Certificate) (chain : list string)
    (errors : option error) : result string :=
  match chain with
  | [] => Err (MakeInternal (ErrWrap "cannot get sdk id" (default (ErrText "<nil>") errors)))
  | c :: rest =>
      match parse c with
      | Err err => sdk_owner_loop parse rest (err_append errors err)
      | Ok x509cert =>
          match GetDeviceIDFromIdentityCertificate x509cert with
          | Err err => sdk_owner_loop parse rest (err_append errors err)
          | Ok id => Ok id
          end
      end
  end.
Definition getSdkError (err : error) : error := ErrWrap "cannot get sdk id" err.
(** [getCertificate] may be nil. *)
Definition getSdkOwnerID (parse : string → result Certificate)
    (getCertificate : option (result (list string))) : result string :=
  match getCertificate with
  | None => Err (MakeUnimplemented (ErrText "getCertificate is not set"))
  | Some (Err err) => Err (MakeInternal (getSdkError err))
  | Some (Ok chain) => sdk_owner_loop parse chain None
  end.
(** [Device.GetSdkOwnerID]. *)
Definition GetSdkOwnerID (parse : string → result Certificate)
    (getOwnerID : option (result string)) (getCertificate : option (result (list string)))
    : result string :=
  match getOwnerID with
  | Some r => r
  | None => match getSdkOwnerID parse getCertificate with
            | Ok id => Ok id
            | Err err => Err (getSdkError err)
            end
  end.

(** ** Properties of the connection table *)

(** Every address has a slot of its own, with a connection and without an error. *)
Definition slots_ok (d : Device) : Prop :=
  (∀ a p, d_conn d !! a = Some p → ∃ c, d_heap d !! p = Some c ∧ is_Some (conn_c c) ∧ conn_err c = None) ∧
  (∀ a b p, d_conn d !! a = Some p → d_conn d !! b = Some p → a = b).

Lemma ask_d {A} (f : CEnv → result A * CEnv) w : cw_d (ask f w).2 = cw_d w.
Proof. unfold ask. by destruct (f (cw_env w)). Qed.
Lemma dial_with_d dialer a w : cw_d (dial_with dialer a w).2 = cw_d w.
Proof.
  unfold dial_with, mbind, ME_bind. pose proof (ask_d (cenv_Dial dialer a) w) as Ha.
  by destruct (ask _ w) as [[c|e] w'].
Qed.
Lemma dial_secure_d dialer a w : cw_d (dial_secure dialer a w).2 = cw_d w.
Proof.
  unfold dial_secure, mbind, ME_bind. pose proof (ask_d cenv_GetCertificate w) as H1.
  destruct (ask cenv_GetCertificate w) as [[[]|e] w1]; [|done].
  pose proof (ask_d cenv_GetCertificateAuthorities w1) as H2.
  destruct (ask cenv_GetCertificateAuthorities w1) as [[[]|e] w2]; [|cbn in *; congruence].
  rewrite dial_with_d. cbn in *. congruence.
Qed.
Lemma dial_d addr w : cw_d (dial addr w).2 = cw_d w.
Proof.
  unfold dial, dialDTLS, dialTLS.
  repeat case_bool_decide; first [apply dial_with_d | apply dial_secure_d | done].
Qed.

(** The slot [p] of the address [a], in a table that is in order apart from it. *)
Lemma slots_set a p c d :
  slots_ok (set_slots (d_heap d) (delete a (d_conn d)) d) → d_conn d !! a = Some p →
  (∀ b, d_conn d !! b = Some p → b = a) → is_Some (conn_c c) → conn_err c = None →
  slots_ok (set_slots (<[p := c]> (d_heap d)) (d_conn d) d).
Proof.
  intros [Hs Hi] Ha Hp Hc He. split; cbn in *.
  - intros b q Hb. destruct (decide (b = a)) as [->|Hne].
    + assert (q = p) as -> by congruence. exists c. by rewrite lookup_insert_eq.
    + assert (p ≠ q) by (intros ->; by apply Hne, Hp). rewrite lookup_insert_ne by done.
      apply (Hs b). by rewrite lookup_delete_ne.
  - intros b b' q Hb Hb'. destruct (decide (b = a)) as [->|Hne], (decide (b' = a)) as [->|Hne']; [done| | |].
    + symmetry. apply Hp. congruence.
    + apply Hp. congruence.
    + apply (Hi _ _ q); by rewrite lookup_delete_ne.
Qed.
Lemma slots_delete a d : slots_ok d → slots_ok (set_slots (d_heap d) (delete a (d_conn d)) d).
Proof.
  intros [Hs Hi]. split; cbn.
  - intros b p [_ Hb]%lookup_delete_Some. by apply (Hs b).
  - intros b b' p [_ Hb]%lookup_delete_Some [_ Hb']%lookup_delete_Some. by apply (Hi b b' p).
Qed.

(** A slot that is in use by [a] only: what [loadORCreate] returns. *)
Definition slot_of (a : string) (p : nat) (d : Device) : Prop :=
  d_conn d !! a = Some p ∧ is_Some (d_heap d !! p) ∧ (∀ b, d_conn d !! b = Some p → b = a) ∧
  conn_err (default new_conn (d_heap d !! p)) = None ∧
  slots_ok (set_slots (d_heap d) (delete a (d_conn d)) d).
Lemma loadORCreate_spec a w : slots_ok (cw_d w) →
  ∃ p w', loadORCreate a w = (Ok p, w') ∧ slot_of a p (cw_d w') ∧
    cw_env w' = cw_env w ∧ cw_trace w' = cw_trace w ∧
    (∀ b, b ≠ a → d_conn (cw_d w') !! b = d_conn (cw_d w) !! b) ∧
    (is_Some (d_conn (cw_d w) !! a) → w' = w).
Proof.
  intros Hok. pose proof Hok as [Hs Hi]. unfold loadORCreate, mbind, ME_bind, gets.
  destruct (d_conn (cw_d w) !! a) as [p|] eqn:Ea.
  - exists p, w. split; [done|]. split_and!; try done.
    destruct (Hs a p Ea) as (c & Hc & _ & He). split_and!; [done|by exists c| | |by apply slots_delete].
    + intros b Hb. by apply (Hi b a p).
    + by rewrite Hc.
  - set (p := fresh (dom (d_heap (cw_d w)))).
    assert (d_heap (cw_d w) !! p = None) as Hp by (apply not_elem_of_dom, is_fresh).
    eexists p, _. split; [reflexivity|]. cbn.
    split_and!; [| done | done | by intros; rewrite lookup_insert_ne | by intros []].
    unfold slot_of. cbn. rewrite !lookup_insert_eq. split_and!; [done|by eexists| |done|].
    + intros b [[? _]|[_ Hb]]%lookup_insert_Some; [done|].
      destruct (Hs b p Hb) as (c & Hc & _). congruence.
    + rewrite delete_insert_eq. rewrite delete_id by done. split; cbn.
      * intros b q Hb. destruct (Hs b q Hb) as (c & Hc & Hx). exists c.
        rewrite lookup_insert_ne by congruence. done.
      * intros b b' q. apply Hi.
Qed.

Lemma conn_Dial_spec a p addr w : slot_of a p (cw_d w) →
  let '(r, w') := conn_Dial p addr w in
  d_conn (cw_d w') = d_conn (cw_d w) ∧
  match r with
  | Ok (cc, loaded) => slots_ok (cw_d w') ∧
      d_heap (cw_d w') !! p = Some {| conn_c := Some cc; conn_err := None |} ∧
      (loaded = true → w' = w)
  | Err _ => slots_ok (set_slots (d_heap (cw_d w')) (delete a (d_conn (cw_d w'))) (cw_d w')) ∧
      ∃ c, d_heap (cw_d w') !! p = Some c ∧ conn_err c ≠ None
  end.
Proof.
  intros (Ha & [c Hc] & Hu & He & Hok). unfold conn_Dial, mbind, ME_bind, gets.
  change (id w) with w. rewrite Hc in He |- *. change (default new_conn (Some c)) with c in *.
  cbv zeta.
  destruct (match conn_c c with Some n => if cenv_alive n (cw_env w) then Some n else None | None => None end)
    as [n|] eqn:En.
  - assert (conn_c c = Some n) as Hn
      by (destruct (conn_c c) as [n'|]; [destruct (cenv_alive n' (cw_env w))|]; naive_solver).
     unfold mret, ME_ret. split; [done|]. split; [|split; [|done]].
    + pose proof (slots_set a p c (cw_d w) Hok Ha Hu) as Hx. rewrite insert_id in Hx by done.
      destruct (cw_d w). apply Hx; [by rewrite Hn|done].
    + rewrite Hc. destruct c. cbn in *. by subst.
  - rewrite He. unfold catch. pose proof (dial_d addr w) as Hd.
    destruct (dial addr w) as [[n|err] w']; cbn in Hd |- *; rewrite Hd.
    + split; [done|]. split; [|split; [by rewrite lookup_insert_eq|done]].
      apply (slots_set a); [done..|by eexists|done].
    + split; [done|]. split.
      * split; cbn.
        -- intros b q [Hne Hb]%lookup_delete_Some. destruct Hok as [Hs _].
           destruct (Hs b q) as (c' & Hc' & Hx); [by cbn; rewrite lookup_delete_ne|]. exists c'.
           rewrite lookup_insert_ne; [done|]. intros ->. by apply Hne; symmetry; apply Hu.
        -- intros b b' q Hb Hb'. destruct Hok as [_ Hi]. by apply (Hi b b' q).
      * eexists. rewrite lookup_insert_eq. split; [done|]. done.
Qed.

(** What the connection of an endpoint leaves in the table. *)
Lemma connectToEndpoint_spec ep w : slots_ok (cw_d w) →
  let '(r, w') := connectToEndpoint ep w in
  slots_ok (cw_d w') ∧
  match r with
  | Ok (addr, cc) => Endpoint_GetAddr ep = Ok addr ∧ ∃ p, d_conn (cw_d w') !! addr_URL addr = Some p ∧
      d_heap (cw_d w') !! p = Some {| conn_c := Some cc; conn_err := None |}
  | Err _ => (∀ addr, Endpoint_GetAddr ep = Ok addr → d_conn (cw_d w') !! addr_URL addr = None) ∧
      (∀ a, d_conn (cw_d w) !! a = None → d_conn (cw_d w') !! a = None)
  end.
Proof.
  intros Hok. unfold connectToEndpoint. unfold mbind at 1, ME_bind at 1, lift.
  destruct (Endpoint_GetAddr ep) as [addr|e]; [|split; [done|split; [done|done]]].
  destruct (loadORCreate_spec (addr_URL addr) w Hok) as (p & w1 & E & Hslot & _ & _ & Hother & _).
  unfold mbind, ME_bind. rewrite E. unfold catch.
  pose proof (conn_Dial_spec _ p addr w1 Hslot) as Hd. destruct Hslot as (Ha & _ & Hu & _).
  destruct (conn_Dial p addr w1) as [[[cc loaded]|err] w2]; destruct Hd as [Hc Hd].
  - destruct Hd as (Hok2 & Hp & _). split; [done|]. split; [done|]. exists p. by rewrite Hc.
  - destruct Hd as (Hok2 & c & Hp & He). cbn.
    assert (removeConn (addr_URL addr) p (cw_d w2) =
      set_slots (d_heap (cw_d w2)) (delete (addr_URL addr) (d_conn (cw_d w2))) (cw_d w2)) as ->.
    { unfold removeConn. rewrite Hc, Ha, Hp. change (default new_conn (Some c)) with c. cbv zeta.
      rewrite (bool_decide_false (conn_err c = None)), andb_false_r by done.
      rewrite (bool_decide_true (conn_c c = conn_c c)), andb_true_r by done.
      rewrite (bool_decide_true (p = p)) by done. by destruct (negb _). }
    split; [done|]. cbn. split.
    + intros addr' [= <-]. apply lookup_delete_eq.
    + intros a Hn. rewrite Hc. apply lookup_delete_None.
      destruct (decide (addr_URL addr = a)) as [Heq|Hne]; [by left|right]. by rewrite Hother.
Qed.

(** The connection table of a client device.  The choice among several
    endpoints keeps one slot per address, each with a connection and without a
    recorded error: it returns the connection stored for one of the endpoints, or,
    if it fails, no endpoint has a slot any more, so that the next attempt dials
    anew. *)
Theorem connectToEndpoints_spec endpoints w : slots_ok (cw_d w) →
  let '(r, w') := connectToEndpoints endpoints w in
  slots_ok (cw_d w') ∧
  match r with
  | Ok (addr, cc) => ∃ ep p, ep ∈ endpoints ∧ Endpoint_GetAddr ep = Ok addr ∧
      d_conn (cw_d w') !! addr_URL addr = Some p ∧
      d_heap (cw_d w') !! p = Some {| conn_c := Some cc; conn_err := None |}
  | Err _ => ∀ ep addr, ep ∈ endpoints → Endpoint_GetAddr ep = Ok addr →
      d_conn (cw_d w') !! addr_URL addr = None
  end.
Proof.
  intros Hok. unfold connectToEndpoints.
  enough (∀ errs, let '(r, w') := connect_loop endpoints errs w in slots_ok (cw_d w') ∧
    match r with
    | Ok (addr, cc) => ∃ ep p, ep ∈ endpoints ∧ Endpoint_GetAddr ep = Ok addr ∧
        d_conn (cw_d w') !! addr_URL addr = Some p ∧
        d_heap (cw_d w') !! p = Some {| conn_c := Some cc; conn_err := None |}
    | Err _ => (∀ ep addr, ep ∈ endpoints → Endpoint_GetAddr ep = Ok addr →
                  d_conn (cw_d w') !! addr_URL addr = None) ∧
        (∀ a, d_conn (cw_d w) !! a = None → d_conn (cw_d w') !! a = None)
    end) as He.
  { specialize (He None). destruct (connect_loop _ _ _) as [[[addr cc]|e] w']; [done|].
    split; apply He. }
  revert w Hok. induction endpoints as [|ep rest IH]; intros w Hok errs; cbn [connect_loop].
  { destruct errs; cbn; (split; [done|]); (split; [|done]); intros ? ? Hin; inversion Hin. }
  unfold mbind, ME_bind, catch. pose proof (connectToEndpoint_spec ep w Hok) as He.
  destruct (connectToEndpoint ep w) as [[[addr cc]|err] w1]; destruct He as [Hok1 He].
  - destruct He as (Hep & p & Hp). split; [done|]. exists ep, p. split; [by left|done].
  - destruct He as [Hn Hk]. specialize (IH w1 Hok1 (err_append errs err)).
    destruct (connect_loop rest _ w1) as [[[addr cc]|e] w2]; destruct IH as [Hok2 IH]; (split; [done|]).
    + destruct IH as (ep' & p & Hin & Hx). exists ep', p. split; [by right|done].
    + destruct IH as [H1 H2]. split; [|by intros a Ha; apply H2, Hk].
      intros ep' addr [-> |Hin]%elem_of_cons Hg; [by apply H2, Hn|by apply (H1 ep')].
Qed.

(** Reuse of connections: as long as the connection of an endpoint is alive, it is
    returned and nothing is dialled. *)
Theorem connectToEndpoint_reuses ep addr p n w :
  Endpoint_GetAddr ep = Ok addr → d_conn (cw_d w) !! addr_URL addr = Some p →
  d_heap (cw_d w) !! p = Some {| conn_c := Some n; conn_err := None |} → cenv_alive n (cw_env w) = true →
  connectToEndpoint ep w = (Ok (addr, n), w).
Proof.
  intros Hep Ha Hp Hl. unfold connectToEndpoint. unfold mbind at 1, ME_bind at 1, lift. rewrite Hep.
  assert (loadORCreate (addr_URL addr) w = (Ok p, w)) as E1.
  { unfold loadORCreate, mbind, ME_bind, gets. by rewrite Ha. }
  assert (conn_Dial p addr w = (Ok (n, true), w)) as E2.
  { unfold conn_Dial, mbind, ME_bind, gets. change (id w) with w. rewrite Hp. cbn. by rewrite Hl. }
  unfold mbind, ME_bind, catch. by rewrite E1, E2.
Qed.
End Core.
