(* ===== verification/Ownership.v ===== *)
(** * Ownership: the client takes, gives up and provisions a device

    [src/client/core/ownDevice.go], [disownDevice.go], [provisionDevice.go] and
    [otm/client.go]: the ownership transfer, in which the device is moved from the
    state RFOTM over RFPRO to RFNOP, and the operations of its owner.

    The requests go to the device of [CoreDevice] and are recorded in its trace.
    The application's callbacks act on the environment only.  The context of the
    calls is not modelled: a request that its deadline cuts off is a failing one. *)

From S2P Require Export CoreDevice Credential.

(** ** Addresses of the resources *)

Definition pstat_ResourceURI : string := "/oic/sec/pstat".
Definition acl_ResourceURI : string := "/oic/sec/acl2".
Definition credential_ResourceURI : string := "/oic/sec/cred".
Definition csr_ResourceURI : string := "/oic/sec/csr".
Definition sp_ResourceURI : string := "/oic/sec/sp".
Definition sdi_ResourceURI : string := "/oic/sec/sdi".
Definition device_ResourceURI : string := "/oic/d".
Definition platform_ResourceURI : string := "/oic/p".
Definition resources_ResourceURI : string := "/oic/res".
Definition cloud_ResourceType : string := "oic.r.coapcloudconf".
Definition maintenance_ResourceType : string := "oic.wk.mnt".
Definition softwareupdate_ResourceType : string := "oic.r.softwareupdate".

(** ** Bodies *)

Definition zero_pstat : ProvisionStatusUpdateRequest :=
  {| psu_ResourceOwner := ""; psu_CurrentOperationalMode := 0; psu_TargetProvisioningMode := 0;
     psu_DeviceOnboardingState := None |}.
Definition pstat_state (newState : Z) : ProvisionStatusUpdateRequest :=
  {| psu_ResourceOwner := ""; psu_CurrentOperationalMode := 0; psu_TargetProvisioningMode := 0;
     psu_DeviceOnboardingState := Some {| dos_Pending := false; dos_State := newState |} |}.
Definition pstat_mode (mode : Z) : ProvisionStatusUpdateRequest :=
  {| psu_ResourceOwner := ""; psu_CurrentOperationalMode := mode; psu_TargetProvisioningMode := 0;
     psu_DeviceOnboardingState := None |}.
Definition pstat_owner (owner : string) : ProvisionStatusUpdateRequest :=
  {| psu_ResourceOwner := owner; psu_CurrentOperationalMode := 0; psu_TargetProvisioningMode := 0;
     psu_DeviceOnboardingState := None |}.
Definition doxm_update (ResourceOwner OwnerID DeviceID : option string) (Owned : option bool)
    (Select : option Z) : DoxmUpdate :=
  {| dupd_ResourceOwner := ResourceOwner; dupd_OwnerID := OwnerID; dupd_DeviceID := DeviceID;
     dupd_Owned := Owned; dupd_SelectOwnerTransferMethod := Select |}.
Definition doxm_otm (t : Z) : DoxmUpdate := doxm_update None None None None (Some t).
Definition doxm_deviceID (id : string) : DoxmUpdate := doxm_update None None (Some id) None None.
Definition doxm_owner (id : string) : DoxmUpdate := doxm_update None (Some id) None None None.
Definition doxm_owned (owner : string) : DoxmUpdate := doxm_update (Some owner) None None (Some true) None.

Definition ace (permission : Z) (subject : Subject) (resources : list AclResource) : AccessControl :=
  {| ace_ID := 0; ace_Permission := permission; ace_Resources := resources; ace_Subject := subject;
     ace_Tag := ""; ace_Validity := [] |}.
Definition acl_href (href : string) : AclResource :=
  {| acl_Href := href; acl_Interfaces := ["*"]; acl_ResourceTypes := []; acl_Wildcard := "" |}.
Definition subject_device (id : string) : Subject :=
  {| Subject_device := Some {| subj_DeviceID := id |}; Subject_role := None; Subject_connection := None |}.
Definition subject_anon_clear : Subject :=
  {| Subject_device := None; Subject_role := None; Subject_connection := Some {| subj_Type := "anon-clear" |} |}.

(** The list that [setACL] posts; [hrefs] are those of the cloud, maintenance and
    software update resources. *)
Definition owner_acl (ownerID : string) (hrefs : list string) : AclUpdateRequest :=
  {| acl_ResourceOwner := "";
     AccessControlList :=
       [ace AllPermissions (subject_device ownerID) (AllResources ++ (acl_href <$> hrefs));
        ace 14 (subject_device ownerID)
          (acl_href <$> [sp_ResourceURI; pstat_ResourceURI; doxm_ResourceURI]);
        ace 2 (subject_device ownerID) (acl_href <$> [csr_ResourceURI]);
        ace 2 subject_anon_clear
          (acl_href <$> [device_ResourceURI; platform_ResourceURI; resources_ResourceURI;
                         sdi_ResourceURI; doxm_ResourceURI])] |}.

(** ** [otm/client.go] *)

(** PEM output, the DER text of a certificate and the bytes of a UUID. *)
Class PemOut `{CredEnv} := {
  pem_Encode : string → string → string;
  cert_Raw : Cert → string;
  uuid_MarshalBinary : string → string }.

Definition CertificateEncoding_DER : string := "oic.sec.encoding.der".
Definition CertificateEncoding_PEM : string := "oic.sec.encoding.pem".
Definition dataEncoding_RAW : string := "oic.sec.encoding.raw".

Definition base_cred (subject : string) (type : Z) (usage : string)
    (priv : option CredentialPrivateData) (pub : option CredentialPublicData) : Credential :=
  {| cred_ID := 0; cred_Type := type; cred_Subject := subject; cred_Usage := usage;
     cred_SupportedRefreshMethods := []; cred_OptionalData := None; cred_Period := "";
     cred_PrivateData := priv; cred_PublicData := pub; cred_RoleID := None; cred_Tag := "" |}.
Definition psk_credential (ownerID psk : string) : Credential :=
  base_cred ownerID 1 "" (Some {| priv_DataInternal := DataString psk; priv_Encoding := dataEncoding_RAW;
                                  priv_Handle := 0 |}) None.
Definition pem_credential (subject usage pem : string) : Credential :=
  base_cred subject CredentialType_ASYMMETRIC_SIGNING_WITH_CERTIFICATE usage None
    (Some {| pub_DataInternal := DataString pem; pub_Encoding := CertificateEncoding_PEM |}).

(** What the application does: on a connection, it changes the environment only. *)
Inductive ActionDuring `{CoreEnv} :=
  | SetDoxmDeviceID
  | AppDuring (f : nat → CEnv → result string * CEnv).
Record ownCfg `{CoreEnv} := {
  psk : string;
  sign : option (string → CEnv → result string * CEnv);
  actionDuringOwn : option ActionDuring;
  actionAfterOwn : option (nat → CEnv → result unit * CEnv) }.

Section Own.
Context `{HKit : Kit} `{HCore : CoreEnv} `{HCred : CredEnv} `{HPem : !PemOut}
  `{HUuid : Uuids}.
Abbreviation CM := (ME CWorld).

Definition encodeToPem (encoding : string) (data : option string) : option string :=
  if bool_decide (encoding = CertificateEncoding_DER)
  then Some (pem_Encode "CERTIFICATE REQUEST" (default "" data)) else data.

(** [setupCertificates] is the device ID and the signer. *)
Definition validateProvisionOwnerCredentials (ownerID psk : string)
    (setupCertificates : option (string * option (string → CEnv → result string * CEnv))) : result unit :=
  _ ← (if bool_decide (ownerID = "") then Err (ErrText "invalid ownerID") else Ok tt);
  _ ← match setupCertificates with
      | Some (deviceID, sign) =>
          if bool_decide (deviceID = "") then Err (ErrText "invalid deviceID")
          else match sign with None => Err (ErrText "invalid sign") | Some _ => Ok tt end
      | None => Ok tt
      end;
  if (String.length psk =? 0)%nat then Err (ErrText "invalid preshared key")
  else if negb (String.length psk =? 16)%nat then Err (ErrText "size of preshared key must be 16bytes")
  else Ok tt.

(** The credentials of the certificate: that of the device and its trust anchor, the
    last certificate of the signed chain. *)
Definition setup_credentials (tlsClient : nat) (ownerID deviceID : string)
    (sign : string → CEnv → result string * CEnv) : CM (list Credential) :=
  r ← wrap_err (ErrWrap "cannot get csr for setup device owner credentials")
        (get_ cenv_GetCsr tlsClient csr_ResourceURI);
  let pemCSR := encodeToPem (csr_Encoding r) (CSR r) in
  signedCsr ← wrap_err (ErrWrap "cannot sign csr for setup device owner credentials")
                (ask (sign (default "" pemCSR)));
  certsFromChain ← wrap_err (ErrWrap "failed to parse chain of X509 certs")
                     (lift (ParsePemCertificates (Some signedCsr)));
  match last certsFromChain with
  | None => fail (ErrText "runtime error: index out of range")
  | Some ca =>
      mret [pem_credential deviceID CredentialUsage_CERT signedCsr;
            pem_credential ownerID CredentialUsage_TRUST_CA (pem_Encode "CERTIFICATE" (cert_Raw ca))]
  end.

Definition ProvisionOwnerCredentials (tlsClient : nat) (ownerID psk : string)
    (setupCertificates : option (string * option (string → CEnv → result string * CEnv))) : CM unit :=
  lift (validateProvisionOwnerCredentials ownerID psk setupCertificates);;
  more ← match setupCertificates with
         | Some (deviceID, Some sign) => setup_credentials tlsClient ownerID deviceID sign
         | _ => mret []
         end;
  wrap_err (ErrWrap "cannot set device credentials")
    (update tlsClient credential_ResourceURI
       (PCred {| cupd_ResourceOwner := ownerID;
                 cupd_Credentials := psk_credential ownerID psk :: more |})).

(** ** [ownDevice.go] *)

Definition GetResourceLink (links : ResourceLinks) (href : string) : result ResourceLink :=
  match Schema.GetResourceLink links href with
  | None => Err (MakeUnavailable (ErrWrap "resource not found" (ErrText href)))
  | Some l => Ok l
  end.

Definition updateOperationalState (conn : nat) (newState : Z) : CM unit :=
  update conn pstat_ResourceURI (PPstat (pstat_state newState)).
Definition setOTM (conn : nat) (selectOwnerTransferMethod : Z) : CM unit :=
  update conn doxm_ResourceURI (PDoxm (doxm_otm selectOwnerTransferMethod)).

(** [defer conn.Close()], with the error only logged. *)
Definition with_conn {A} (conn : nat) (m : CM A) : CM A :=
  r ← catch m; _ ← catch (close_conn conn); lift r.

Definition selectOTM (t : Z) : CM unit :=
  d ← gets cw_d;
  coapAddr ← lift (Endpoints_GetAddr (CoreDevice.GetEndpoints d) UDPScheme);
  coapConn ← wrap_err (MakeInternalStr "cannot connect for select OTM")
               (dial_with DialUDP (addr_String coapAddr));
  with_conn coapConn (setOTM coapConn t).

Definition setACL (conn : nat) (links : ResourceLinks) (ownerID : string) : CM unit :=
  link ← lift (GetResourceLink links acl_ResourceURI);
  delete_ conn (Href link);;
  update conn (Href link)
    (PAcl (owner_acl ownerID (GetResourceHrefs links [cloud_ResourceType] ++
                              GetResourceHrefs links [maintenance_ResourceType] ++
                              GetResourceHrefs links [softwareupdate_ResourceType]))).

(** The clients are their owner transfer methods. *)
Definition findOTMClient (otmClients deviceSupported : list Z) : option Z :=
  List.find (fun c => existsb (fun s => s =? c) deviceSupported) otmClients.

Definition setDoxmDeviceID (cc : nat) : CM string :=
  d ← gets cw_d;
  let deviceID := d_deviceID d in
  wrap_err (fun err => MakeInternal (ErrWrap "cannot set device id for owned device" err))
    (update cc doxm_ResourceURI (PDoxm (doxm_deviceID deviceID)));;
  mret deviceID.

(** One [if addr, err := link.Get...; err == nil { ... }] of [getTLSClient]. *)
Definition try_otm (otmClient : Z) (addr : result Addr) (errs : option error)
    : CM (option (nat * Addr) * option error) :=
  match addr with
  | Err _ => mret (None, errs)
  | Ok addr =>
      r ← catch (dial_with (DialOTM otmClient) (addr_URL addr));
      mret (match r with
            | Ok tlsClient => (Some (tlsClient, addr), errs)
            | Err err => (None, err_append errs (ErrWrap "cannot connect" err))
            end)
  end.
Fixpoint getTLSClient (links : ResourceLinks) (otmClient : Z) (errs : option error)
    : CM (nat * Addr) :=
  match links with
  | [] => fail (default (ErrText "not found") errs)
  | link :: rest =>
      r ← try_otm otmClient (GetUDPSecureAddr link) errs;
      match r.1 with
      | Some ca => mret ca
      | None =>
          r ← try_otm otmClient (GetTCPSecureAddr link) r.2;
          match r.1 with
          | Some ca => mret ca
          | None => getTLSClient rest otmClient r.2
          end
      end
  end.

Definition disownAndLogError (conn : nat) : CM unit :=
  _ ← catch (updateOperationalState conn OperationalState_RESET); mret tt.

Definition otmErrorf (oc : Z) (err : error) : error :=
  ErrWrap ("otmClient: " +:+ OwnerTransferMethod_String oc) err.

Definition checkProvisionState (cc : nat) (oc : Z) : CM unit :=
  provisionState ← wrap_err (fun err => MakeInternal (otmErrorf oc (ErrWrap "cannot get provision state" err)))
                     (get_ cenv_GetPstat cc pstat_ResourceURI);
  if dos_Pending (ps_DeviceOnboardingState provisionState)
  then fail (MakeInternal (otmErrorf oc (ErrText "device pending for operation state")))
  else if negb (dos_State (ps_DeviceOnboardingState provisionState) =? OperationalState_RFOTM)
  then fail (MakeInternal (otmErrorf oc (ErrText "device operation state is not RFOTM")))
  else if negb (OperationalMode_Has (ps_SupportedOperationalModes provisionState)
                  OperationalMode_CLIENT_DIRECTED)
  then fail (MakeUnavailable (otmErrorf oc (ErrText "only CLIENT_DIRECTED is supported")))
  else mret tt.

(** [rand] is [rand.Read] on a slice of 16 bytes. *)
Definition provisionOwner (rand : CEnv → result string * CEnv) (cfg : ownCfg)
    (deviceID sdkID : string) (cc : nat) (oc : Z) : CM string :=
  let errorf err := otmErrorf oc (ErrWrap "cannot provision owner" err) in
  if (String.length (psk cfg) =? 0)%nat && match sign cfg with None => true | Some _ => false end
  then fail (MakeInvalidArgument (errorf (ErrText "both preshared and signer are empty")))
  else
    k ← (if (0 <? String.length (psk cfg))%nat then mret (psk cfg)
         else wrap_err (fun err => MakeAborted (errorf err)) (ask rand));
    wrap_err (fun err => MakeAborted (errorf err))
      (ProvisionOwnerCredentials cc sdkID k
         (match sign cfg with Some s => Some (deviceID, Some s) | None => None end));;
    mret k.

Definition setResourceOwner (owner : string) (cc : nat) : CM unit :=
  wrap_err (ErrWrap "cannot set owner of resource pstat")
    (update cc pstat_ResourceURI (PPstat (pstat_owner owner)));;
  wrap_err (ErrWrap "cannot set owner of resource acl2")
    (update cc acl_ResourceURI (PAcl {| acl_ResourceOwner := owner; AccessControlList := [] |}));;
  wrap_err (ErrWrap "cannot set device owned")
    (update cc doxm_ResourceURI (PDoxm (doxm_owned owner))).

(** The action during the transfer: the device ID it returns. *)
Definition run_during (a : ActionDuring) (cc : nat) : CM string :=
  match a with
  | SetDoxmDeviceID => setDoxmDeviceID cc
  | AppDuring f => emit (EvDuringOwn cc);; ask (f cc)
  end.

Definition ownershipTransfer (rand : CEnv → result string * CEnv) (cfg : ownCfg) (sdkID : string)
    (cc : nat) (oc : Z) : CM string :=
  checkProvisionState cc oc;;
  wrap_err (fun err => MakeInternal (otmErrorf oc (ErrWrap "cannot update provision state" err)))
    (update cc pstat_ResourceURI (PPstat (pstat_mode OperationalMode_CLIENT_DIRECTED)));;
  match actionDuringOwn cfg with
  | Some a => deviceID ← run_during a cc; upd (set_deviceID deviceID)
  | None => mret tt
  end;;
  d ← gets cw_d;
  k ← provisionOwner rand cfg (d_deviceID d) sdkID cc oc;
  wrap_err (fun err => MakeUnavailable (otmErrorf oc (ErrWrap "cannot set device owner" err)))
    (update cc doxm_ResourceURI (PDoxm (doxm_owner sdkID)));;
  verifyOwner ← wrap_err (fun err => MakeUnavailable (otmErrorf oc (ErrWrap "cannot verify owner" err)))
                  (get_ cenv_GetDoxm cc doxm_ResourceURI);
  (if negb (bool_decide (doxm_OwnerID verifyOwner = sdkID))
   then fail (MakeInternal (otmErrorf oc (ErrText "invalid ownerID"))) else mret tt);;
  wrap_err MakeInternal (setResourceOwner sdkID cc);;
  mret k.

Definition getDTLSClient (k sdkID addr : string) (oc : Z) : CM nat :=
  match uuid_Parse sdkID with
  | Err err => fail (MakeInternal (otmErrorf oc (ErrWrap "invalid sdkID" err)))
  | Ok id =>
      wrap_err (fun err => MakeUnavailable (otmErrorf oc
                  (ErrWrap "cannot create connection for finish ownership transfer" err)))
        (dial_with (DialPSK k (uuid_MarshalBinary id)) addr)
  end.

Definition run_after (a : option (nat → CEnv → result unit * CEnv)) (oc : Z) (pskConn : nat) : CM unit :=
  match a with
  | None => mret tt
  | Some f =>
      emit (EvAfterOwn pskConn);;
      wrap_err (fun err => MakeInternal (otmErrorf oc
                  (ErrWrap "cannot create connection for finish ownership transfer" err)))
        (ask (f pskConn))
  end.
(** [deviceConfigurer.configure]. *)
Definition configure (tlsClient : nat) (otmClient : Z) (ownerID address : string)
    (actionAfterOwn : option (nat → CEnv → result unit * CEnv)) (links : ResourceLinks) (k : string)
    : CM unit :=
  wrap_err (fun err => MakeInternal (otmErrorf otmClient
              (ErrWrap "cannot set device to provision operation mode" err)))
    (updateOperationalState tlsClient OperationalState_RFPRO);;
  pskConn ← getDTLSClient k ownerID address otmClient;
  with_conn pskConn (
    wrap_err (fun err => MakeInternal (otmErrorf otmClient (ErrWrap "cannot update resource acl" err)))
      (setACL pskConn links ownerID);;
    wrap_err (fun err => MakeInternal (otmErrorf otmClient
                (ErrWrap "cannot update operation state to normal mode" err)))
      (updateOperationalState pskConn OperationalState_RFNOP);;
    run_after actionAfterOwn otmClient pskConn).

(** The part of [Own] in which the TLS client is open. *)
Definition own_with (rand : CEnv → result string * CEnv) (cfg : ownCfg) (sdkID : string)
    (tlsClient : nat) (tlsAddr : Addr) (otmClient : Z) (links : ResourceLinks) : CM unit :=
  r ← catch (ownershipTransfer rand cfg sdkID tlsClient otmClient);
  match r with
  | Err err => disownAndLogError tlsClient;; fail err
  | Ok k =>
      r ← catch (configure tlsClient otmClient sdkID (addr_String tlsAddr) (actionAfterOwn cfg) links k);
      match r with
      | Err err => disownAndLogError tlsClient;; fail err
      | Ok _ => mret tt
      end
  end.

(** [ownerID] is the result of [GetSdkOwnerID]. *)
Definition Own (rand : CEnv → result string * CEnv) (cfg : ownCfg) (ownerID : result string)
    (links : ResourceLinks) (otmClients : list Z) : CM unit :=
  ownership ← wrap_err (fun err => MakeUnavailable (ErrWrap "cannot get ownership" err)) (GetOwnership links);
  sdkID ← wrap_err (fun err => MakeUnavailable (ErrWrap "cannot set device owner" err)) (lift ownerID);
  if doxm_Owned ownership
  then if bool_decide (doxm_OwnerID ownership = sdkID) then mret tt
       else fail (MakePermissionDenied (ErrText ("device is already owned by " +:+ doxm_OwnerID ownership)))
  else
    match findOTMClient otmClients (doxm_SupportedOwnerTransferMethods ownership) with
    | None => fail (MakeUnavailable (ErrText "ownership transfer methods are not compatible"))
    | Some otmClient =>
        wrap_err (fun err => MakeInternal (otmErrorf otmClient (ErrWrap "cannot select otm" err)))
          (selectOTM otmClient);;
        ca ← wrap_err (fun _ => MakeInternal (otmErrorf otmClient
                                  (ErrText "cannot get udp/tcp secure address")))
               (getTLSClient links otmClient None);
        let '(tlsClient, tlsAddr) := ca in
        with_conn tlsClient (own_with rand cfg sdkID tlsClient tlsAddr otmClient links)
    end.

(** ** [disownDevice.go] *)

Definition connectionWasClosed (ctxErr : bool) (err : error) : bool :=
  negb ctxErr && err_is ctxCanceled err.
(** [Device.Close] as far as the connections go. *)
Definition closeConnections : CM unit :=
  conns ← popConnections;
  errs ← close_all conns None;
  match errs with
  | Some e => fail (MakeInternal (ErrWrap "cannot close device" e))
  | None => mret tt
  end.
Definition cannotDisownErr (err : error) : error := ErrWrap "cannot disown" err.
Definition Disown (ctxErr : bool) (ownerID : result string) (links : ResourceLinks) : CM unit :=
  ownership ← wrap_err cannotDisownErr (GetOwnership links);
  sdkID ← wrap_err cannotDisownErr (lift ownerID);
  if negb (bool_decide (doxm_OwnerID ownership = sdkID))
  then if bool_decide (doxm_OwnerID ownership = uuid_Nil) then mret tt
       else fail (MakePermissionDenied (cannotDisownErr (ErrText "device is owned by another")))
  else
    link ← wrap_err (fun err => MakeInternal (cannotDisownErr err))
             (lift (GetResourceLink links pstat_ResourceURI));
    let link := set_Endpoints (FilterSecureEndpoints (LinkEndpoints link)) link in
    r ← catch (UpdateResource link (PPstat (pstat_state OperationalState_RESET)));
    match r with
    | Err err => if connectionWasClosed ctxErr err then mret tt
                 else fail (MakeInternal (cannotDisownErr err))
    | Ok _ => _ ← catch closeConnections; mret tt
    end.

(** ** [provisionDevice.go] *)

(** An update of the resource with the given address, over a secure endpoint. *)
Definition update_secure (links : ResourceLinks) (href : string) (msg : string) (p : Payload) : CM unit :=
  link ← wrap_err (ErrWrap msg) (lift (GetResourceLink links href));
  wrap_err (ErrWrap msg) (UpdateResource (set_Endpoints (GetSecureEndpoints link) link) p).
Definition provisioning_start (links : ResourceLinks) : CM unit :=
  update_secure links pstat_ResourceURI "could not start provisioning the device"
    (PPstat (pstat_state OperationalState_RFPRO)).
Definition provisioning_Close (links : ResourceLinks) : CM unit :=
  update_secure links pstat_ResourceURI "could not finalize provisioning the device"
    (PPstat (pstat_state OperationalState_RFNOP)).
Definition AddCredentials (links : ResourceLinks) (cr : CredentialUpdateRequest) : CM unit :=
  update_secure links credential_ResourceURI "could not add credentials to the device" (PCred cr).
Definition AddCertificateAuthority (links : ResourceLinks) (subject : string) (cert : Cert) : CM unit :=
  AddCredentials links
    {| cupd_ResourceOwner := "";
       cupd_Credentials := [pem_credential subject CredentialUsage_TRUST_CA
                              (pem_Encode "CERTIFICATE" (cert_Raw cert))] |}.
Definition SetCloudResource (links : ResourceLinks) (r : CloudState.ConfigurationUpdateRequest) : CM unit :=
  if bool_decide (CloudState.upd_AuthorizationProvider r = "") then fail (ErrText "invalid AuthorizationProvider")
  else if bool_decide (CloudState.upd_AuthorizationCode r = "") then fail (ErrText "invalid AuthorizationCode")
  else if bool_decide (CloudState.upd_URL r = "") then fail (ErrText "invalid URL")
  else
    let link := default zero_link
      (List.find (fun l => existsb (fun t => bool_decide (t = cloud_ResourceType)) (ResourceTypes l)) links) in
    if bool_decide (Href link = "") then fail (ErrText "could not resolve cloud resource link of device")
    else wrap_err (ErrWrap "could not set cloud resource of device")
           (UpdateResource (set_Endpoints (GetSecureEndpoints link) link) (PCloud r)).
Definition SetAccessControl (links : ResourceLinks) (permission : Z) (subject : Subject)
    (resources : list AclResource) : CM unit :=
  update_secure links acl_ResourceURI "could not update ACL of the device"
    (PAcl {| acl_ResourceOwner := ""; AccessControlList := [ace permission subject resources] |}).
End Own.
