(* ===== verification/OwnershipProps.v ===== *)
(** * OwnershipProps: the properties of the ownership transfer

    The exact exchange of a successful transfer, the reset of the device after a
    failed one, and that every connection opened for it is closed again. *)

From S2P Require Import Ownership.

Section Props.
Context `{HKit : Kit} `{HCore : CoreEnv} `{HCred : CredEnv} `{HPem : !PemOut}
  `{HUuid : Uuids}.
Abbreviation CM := (ME CWorld).

(** ** Computations that extend the trace *)

(** [m] extends the trace by a list that, with the result, satisfies [P]. *)
Definition adds {A} (P : result A → list CEvent → Prop) (m : CM A) : Prop :=
  ∀ w, ∃ l, cw_trace (m w).2 = cw_trace w ++ l ∧ P (m w).1 l.

Lemma adds_conseq {A} (P Q : result A → list CEvent → Prop) m :
  adds P m → (∀ r l, P r l → Q r l) → adds Q m.
Proof. intros Hm HPQ w. destruct (Hm w) as (l & ? & ?). exists l. auto. Qed.
Lemma adds_bind {A B} P (Q : A → result B → list CEvent → Prop) (R : result B → list CEvent → Prop) m k :
  adds P m → (∀ a, adds (Q a) (k a)) → (∀ e l, P (Err e) l → R (Err e) l) →
  (∀ a l1 r l2, P (Ok a) l1 → Q a r l2 → R r (l1 ++ l2)) → adds R (m ≫= k).
Proof.
  intros Hm Hk HE HO w. destruct (Hm w) as (l1 & H1 & HP). unfold mbind, ME_bind.
  destruct (m w) as [[a|e] w1]; cbn in *; [|exists l1; auto].
  destruct (Hk a w1) as (l2 & H2 & HQ). exists (l1 ++ l2). rewrite H2, H1, app_assoc. eauto.
Qed.
(** Without an effect on the trace. *)
Lemma adds_silent {A} (P : result A → list CEvent → Prop) (m : CM A) :
  (∀ w, cw_trace (m w).2 = cw_trace w) → (∀ r, P r []) → adds P m.
Proof. intros Hm HP w. exists []. rewrite app_nil_r. auto. Qed.
Lemma adds_ret {A} (P : result A → list CEvent → Prop) a : P (Ok a) [] → adds P (mret a).
Proof. intros HP w. exists []. by rewrite app_nil_r. Qed.
Lemma adds_fail {A} (P : result A → list CEvent → Prop) e : P (Err e) [] → adds P (fail e).
Proof. intros HP w. exists []. by rewrite app_nil_r. Qed.
Lemma adds_lift {A} (P : result A → list CEvent → Prop) r : P r [] → adds P (lift r).
Proof. intros HP w. exists []. by rewrite app_nil_r. Qed.
Lemma adds_emit P e : P (Ok tt) [e] → adds P (emit e).
Proof. intros HP w. by exists [e]. Qed.
Lemma adds_ask {A} (P : result A → list CEvent → Prop) f : (∀ r, P r []) → adds P (ask f).
Proof. intros HP. apply adds_silent; [|done]. intros w. unfold ask. by destruct (f _). Qed.
Lemma adds_catch {A} (P : result (result A) → list CEvent → Prop) (m : CM A) :
  adds (fun r l => P (Ok r) l) m → adds P (catch m).
Proof. intros Hm w. destruct (Hm w) as (l & ? & ?). exists l. unfold catch. by destruct (m w). Qed.
Lemma adds_wrap {A} (P : result A → list CEvent → Prop) f (m : CM A) :
  adds (fun r l => P (match r with Ok a => Ok a | Err e => Err (f e) end) l) m → adds P (wrap_err f m).
Proof.
  intros Hm w. destruct (Hm w) as (l & H1 & H2). exists l. unfold wrap_err.
  by destruct (m w) as [[]].
Qed.

Ltac run_prim :=
  let w := fresh "w" in
  intros w; unfold update, delete_, get_, close_conn, dial_with, mbind, ME_bind, catch, ask, emit,
    modify, lift, mret, ME_ret; cbn;
  match goal with |- context [let (_, _) := ?f (cw_env w) in _] =>
    destruct (f (cw_env w)) as [[?|?] ?]; cbn end;
  eexists; (split; [first [reflexivity | by rewrite app_nil_r | symmetry; apply app_nil_r]|]); eauto.

Lemma update_adds c href p : adds (fun r l => l = [EvUpdate c href p (is_ok r)]) (update c href p).
Proof. run_prim. Qed.
Lemma delete_adds c href : adds (fun r l => l = [EvDelete c href (is_ok r)]) (delete_ c href).
Proof. run_prim. Qed.
Lemma get_adds {A} (f : nat → CEnv → result A * CEnv) c href :
  adds (fun _ l => l = [EvGet c href]) (get_ f c href).
Proof. run_prim. Qed.
Lemma close_adds c : adds (fun _ l => l = [EvClose c]) (close_conn c).
Proof. run_prim. Qed.
Lemma dial_adds d a :
  adds (fun r l => match r with Ok c => l = [EvDial d a c] | Err _ => l = [] end) (dial_with d a).
Proof. run_prim. Qed.

(** ** Shapes of traces *)

(** Requests and callbacks; dialling and reading. *)
Definition is_request (e : CEvent) : bool :=
  match e with EvDial _ _ _ | EvClose _ => false | _ => true end.
Definition is_reading (e : CEvent) : bool :=
  match e with EvDial _ _ _ | EvGet _ _ => true | _ => false end.
(** [m] only adds events of a kind. *)
Definition only {A} (f : CEvent → bool) (m : CM A) : Prop := adds (fun _ l => Forall f l) m.

Lemma only_bind {A B} f (m : CM A) (k : A → CM B) :
  only f m → (∀ a, only f (k a)) → only f (m ≫= k).
Proof. intros Hm Hk. eapply adds_bind with (Q := fun _ _ l => Forall f l); [exact Hm|exact Hk|auto|]. intros. by apply Forall_app. Qed.
Lemma only_ret {A} f (a : A) : only f (mret a).
Proof. by apply adds_ret. Qed.
Lemma only_fail {A} f e : only f (fail (A:=A) e).
Proof. by apply adds_fail. Qed.
Lemma only_lift {A} f (r : result A) : only f (lift r).
Proof. by apply adds_lift. Qed.
Lemma only_ask {A} f (g : CEnv → result A * CEnv) : only f (ask g).
Proof. by apply adds_ask. Qed.
Lemma only_upd f g : only f (upd g).
Proof. by apply adds_silent. Qed.
Lemma only_gets {A} f (g : CWorld → A) : only f (gets g).
Proof. by apply adds_silent. Qed.
Lemma only_catch {A} f (m : CM A) : only f m → only f (catch m).
Proof. intros Hm. by apply adds_catch. Qed.
Lemma only_wrap {A} f g (m : CM A) : only f m → only f (wrap_err g m).
Proof. intros Hm. by apply adds_wrap. Qed.
Lemma only_emit (f : CEvent → bool) e : f e = true → only f (emit e).
Proof. intros He. apply adds_emit. by rewrite Forall_singleton, He. Qed.
Lemma only_update c href p : only is_request (update c href p).
Proof. eapply adds_conseq; [apply update_adds|]. intros r l ->. by constructor. Qed.
Lemma only_delete c href : only is_request (delete_ c href).
Proof. eapply adds_conseq; [apply delete_adds|]. intros r l ->. by constructor. Qed.
Lemma only_get {A} (g : nat → CEnv → result A * CEnv) (f : CEvent → bool) c href :
  f (EvGet c href) = true → only f (get_ g c href).
Proof.
  intros Hf. eapply adds_conseq; [apply get_adds|]. intros r l ->. by rewrite Forall_singleton, Hf.
Qed.
Lemma only_dial d a : only is_reading (dial_with d a).
Proof. eapply adds_conseq; [apply dial_adds|]. intros [c|e] l ->; by repeat constructor. Qed.

Create HintDb traces.
#[local] Hint Resolve only_ret only_fail only_lift only_ask only_upd only_gets only_catch only_wrap
  only_update only_delete only_dial : traces.
#[local] Hint Resolve only_bind : traces.
Ltac only_tac :=
  repeat first
    [ progress auto with traces | apply only_bind; [|intros ?] | apply only_catch | apply only_wrap
    | apply only_get; reflexivity | apply only_emit; reflexivity
    | match goal with |- only _ (match ?x with _ => _ end) => destruct x end ].

Lemma only_checkProvisionState cc oc : only is_request (checkProvisionState cc oc).
Proof. unfold checkProvisionState. only_tac. Qed.
Lemma only_setACL c links owner : only is_request (setACL c links owner).
Proof. unfold setACL. only_tac. Qed.
Lemma only_setup_credentials c owner id s : only is_request (setup_credentials c owner id s).
Proof. unfold setup_credentials. only_tac. Qed.
Lemma only_Provision c owner k o : only is_request (ProvisionOwnerCredentials c owner k o).
Proof.
  unfold ProvisionOwnerCredentials. apply only_bind; [only_tac|intros _]. apply only_bind; [|intros more; only_tac].
  destruct o as [[id [s|]]|]; only_tac.
Qed.
Lemma only_provisionOwner rand cfg id sdkID cc oc : only is_request (provisionOwner rand cfg id sdkID cc oc).
Proof.
  unfold provisionOwner. destruct (_ && _); [only_tac|]. apply only_bind; [only_tac|intros k].
  apply only_bind; [apply only_wrap, only_Provision|intros _; only_tac].
Qed.
Lemma only_run_during a cc : only is_request (run_during a cc).
Proof. destruct a; cbn; [unfold setDoxmDeviceID|]; only_tac. Qed.
Lemma only_run_after a oc cc : only is_request (run_after a oc cc).
Proof. destruct a; cbn; only_tac. Qed.
Lemma only_setResourceOwner o cc : only is_request (setResourceOwner o cc).
Proof. unfold setResourceOwner. only_tac. Qed.
Lemma only_ownershipTransfer rand cfg sdkID cc oc : only is_request (ownershipTransfer rand cfg sdkID cc oc).
Proof.
  unfold ownershipTransfer.
  repeat first [apply only_checkProvisionState | apply only_run_during | apply only_provisionOwner
    | apply only_setResourceOwner | apply only_bind; [|intros ?] | apply only_wrap
    | match goal with |- only _ (match ?x with _ => _ end) => destruct x end | progress only_tac].
Qed.

Lemma only_dial_addr addr : only is_reading (dial addr).
Proof. unfold dial, dialDTLS, dialTLS, dial_secure. repeat case_bool_decide; only_tac. Qed.
Lemma only_conn_Dial p addr : only is_reading (conn_Dial p addr).
Proof.
  unfold conn_Dial, set_slot. apply only_bind; [only_tac|intros w].
  match goal with |- only _ (match ?x with _ => _ end) => destruct x end; [only_tac|].
  destruct (conn_err _); [only_tac|].
  apply only_bind; [apply only_catch, only_dial_addr|]. intros []; only_tac.
Qed.
Lemma only_connectToEndpoint ep : only is_reading (connectToEndpoint ep).
Proof.
  unfold connectToEndpoint. apply only_bind; [only_tac|intros addr].
  apply only_bind; [unfold loadORCreate; only_tac|intros c].
  apply only_bind; [apply only_catch, only_conn_Dial|]. intros [[]|]; only_tac.
Qed.
Lemma only_connectToEndpoints eps : only is_reading (connectToEndpoints eps).
Proof.
  unfold connectToEndpoints. generalize (@None error) as errs.
  induction eps as [|ep rest IH]; intros errs; cbn [connect_loop]; [destruct errs; only_tac|].
  apply only_bind; [apply only_catch, only_connectToEndpoint|]. intros []; [only_tac|apply IH].
Qed.
Lemma only_GetOwnership links : only is_reading (GetOwnership links).
Proof.
  unfold GetOwnership. destruct (Schema.GetResourceLink _ _); [|only_tac]. unfold GetResource.
  apply only_bind; [apply only_catch, only_connectToEndpoints|]. intros [[]|]; only_tac.
Qed.

(** ** Every connection is closed *)

(** Every dialled connection is closed later. *)
Fixpoint closed (l : list CEvent) : Prop :=
  match l with
  | [] => True
  | EvDial _ _ c :: l' => EvClose c ∈ l' ∧ closed l'
  | _ :: l' => closed l'
  end.
Lemma closed_requests l : Forall is_request l → closed l.
Proof. induction 1 as [|[] l He _ IH]; done. Qed.
Lemma closed_app l1 l2 : closed l1 → closed l2 → closed (l1 ++ l2).
Proof.
  intros H1 H2. induction l1 as [|[] l1 IH]; cbn in *; [done|..]; try by apply IH.
  destruct H1. split; [by apply elem_of_app; left|by apply IH].
Qed.
(** A connection that is closed at the end. *)
Lemma closed_bracket d a c l : closed l → closed (EvDial d a c :: l ++ [EvClose c]).
Proof.
  intros Hl. cbn. split; [apply elem_of_app; right; by left|]. by apply closed_app.
Qed.

Lemma with_conn_adds {A} (P Q : result A → list CEvent → Prop) c (m : CM A) :
  adds P m → (∀ r l, P r l → Q r (l ++ [EvClose c])) → adds Q (with_conn c m).
Proof.
  intros Hm HPQ. unfold with_conn.
  eapply adds_bind with (P := fun r l => ∃ r', r = Ok r' ∧ P r' l)
    (Q := fun r' r l => r = r' ∧ l = [EvClose c]).
  - apply adds_catch. eapply adds_conseq; [exact Hm|]. intros r l HP. by exists r.
  - intros r. eapply adds_bind with (P := fun r' l => (∃ x, r' = Ok x) ∧ l = [EvClose c])
      (Q := fun _ r' l => r' = r ∧ l = []).
    + apply adds_catch. eapply adds_conseq; [apply close_adds|]. intros r' l ->. split; [by exists r'|done].
    + intros _. by apply adds_lift.
    + by intros e l [[x [=]] _].
    + intros r' l1 r'' l2 [_ ->] [-> ->]. done.
  - by intros e l (r' & [=] & _).
  - intros r l1 r' l2 (r0 & [= ->] & HP) [-> ->]. by apply HPQ.
Qed.

(** The attempt to reset the device is the last thing that is sent. *)
Definition resets (tls : nat) (l : list CEvent) : Prop :=
  ∃ x ok, l = x ++ [EvUpdate tls pstat_ResourceURI (PPstat (pstat_state OperationalState_RESET)) ok].

Lemma disown_adds tls : adds (fun r l => is_ok r = true ∧ resets tls l) (disownAndLogError tls).
Proof.
  unfold disownAndLogError. eapply adds_bind with (P := fun r l => is_ok r = true ∧ resets tls l)
    (Q := fun _ r l => is_ok r = true ∧ l = []).
  - apply adds_catch. eapply adds_conseq; [apply update_adds|]. intros r l ->. split; [done|]. by exists [], (is_ok r).
  - intros _. by apply adds_ret.
  - by intros e l [? _].
  - intros a l1 r l2 [_ Hr] [? ->]. by rewrite app_nil_r.
Qed.
Lemma resets_app tls l1 l2 : resets tls l2 → resets tls (l1 ++ l2).
Proof. intros (x & ok & ->). exists (l1 ++ x), ok. by rewrite app_assoc. Qed.
Lemma resets_closed l1 l2 : closed l1 → Forall is_request l2 → closed (l1 ++ l2).
Proof. intros H1 H2. apply closed_app; [done|by apply closed_requests]. Qed.
Lemma disown_closed tls : only is_request (disownAndLogError tls).
Proof. unfold disownAndLogError, updateOperationalState. only_tac. Qed.

Lemma configure_closed tls oc owner addr after links k :
  adds (fun _ l => closed l) (configure tls oc owner addr after links k).
Proof.
  unfold configure. eapply adds_bind with (Q := fun _ _ l => closed l).
  - apply only_wrap. apply only_update.
  - intros _. eapply adds_bind with (Q := fun c r l => closed l ∧ ∃ l', l = l' ++ [EvClose c])
      (P := fun r l => match r with Ok c => ∃ d a, l = [EvDial d a c] | Err _ => l = [] end).
    + unfold getDTLSClient. destruct (uuid_Parse owner) as [id|]; [|by apply adds_fail].
      apply adds_wrap. eapply adds_conseq; [apply dial_adds|]. intros [c|e] l ->; [by eexists _, _|done].
    + intros c. eapply with_conn_adds.
      * apply only_bind; [apply only_wrap, only_setACL|intros _].
        apply only_bind; [apply only_wrap, only_update|intros _]. apply only_run_after.
      * intros r l Hl. split; [|by eexists]. apply closed_app; [by apply closed_requests|done].
    + by intros e l ->.
    + intros c l1 r l2 (d & a & ->) [Hc (l' & ->)]. cbn. split; [|done]. apply elem_of_app. right. by left.
  - intros e l. apply closed_requests.
  - intros a l1 r l2 H1 H2. apply closed_app; [by apply closed_requests|done].
Qed.

Lemma own_with_adds rand cfg sdkID tls addr oc links :
  adds (fun r l => closed l ∧ (is_ok r = false → resets tls l)) (own_with rand cfg sdkID tls addr oc links).
Proof.
  assert (∀ err, adds (fun r l => is_ok r = false ∧ Forall is_request l ∧ resets tls l)
    (disownAndLogError tls;; fail (A:=unit) err)) as Hfail.
  { intros err w. destruct (disown_adds tls w) as (l & Hl & Hok & Hr).
    destruct (disown_closed tls w) as (l' & Hl' & Hreq). exists l.
    assert (l' = l) as -> by (rewrite Hl in Hl'; by apply app_inv_head in Hl').
    unfold mbind, ME_bind. destruct (disownAndLogError tls w) as [[]]; done. }
  unfold own_with. eapply adds_bind with (P := fun r l => is_ok r = true ∧ closed l)
    (Q := fun _ r l => closed l ∧ (is_ok r = false → resets tls l)).
  - apply adds_catch. eapply adds_conseq; [apply only_ownershipTransfer|]. intros r l Hl.
    split; [done|]. by apply closed_requests.
  - intros [k|err].
    + eapply adds_bind with (P := fun r l => is_ok r = true ∧ closed l)
        (Q := fun _ r l => Forall is_request l ∧ (is_ok r = false → resets tls l)).
      * apply adds_catch. eapply adds_conseq; [apply configure_closed|]. done.
      * intros [u|err]; [apply adds_ret; done|]. eapply adds_conseq; [apply Hfail|]. by intros r l (? & ? & ?).
      * by intros e l [? _].
      * intros a l1 r l2 [_ H1] [H2 H3]. split; [by apply resets_closed|].
        intros Hr. by apply resets_app, H3.
    + eapply adds_conseq; [apply Hfail|]. intros r l (? & ? & ?). split; [by apply closed_requests|done].
  - by intros e l [? _].
  - intros a l1 r l2 [_ H1] [H2 H3]. split; [by apply closed_app|]. intros Hr. by apply resets_app, H3.
Qed.

(** ** [Own] *)

(** The exchange that selects the transfer method, on a connection of its own. *)
Definition otm_events (t : Z) (r : result unit) (l : list CEvent) : Prop :=
  match l with
  | [] => is_ok r = false
  | _ => ∃ a c, l = [EvDial DialUDP a c;
                     EvUpdate c doxm_ResourceURI (PDoxm (doxm_otm t)) (is_ok r); EvClose c]
  end.
Lemma selectOTM_adds t : adds (otm_events t) (selectOTM t).
Proof.
  assert (∀ addr, adds (otm_events t)
    (coapConn ← wrap_err (MakeInternalStr "cannot connect for select OTM")
             (dial_with DialUDP (addr_String addr)); with_conn coapConn (setOTM coapConn t))) as Haddr.
  { intros addr.
    eapply adds_bind with (P := fun r l => match r with Ok c => ∃ a, l = [EvDial DialUDP a c] | Err _ => l = [] end)
      (Q := fun c r l => l = [EvUpdate c doxm_ResourceURI (PDoxm (doxm_otm t)) (is_ok r); EvClose c]).
    - apply adds_wrap. eapply adds_conseq; [apply dial_adds|]. intros [c|e] l ->; [by eexists|done].
    - intros c. eapply with_conn_adds; [apply update_adds|]. by intros r l ->.
    - by intros e l ->.
    - intros c l1 r l2 [a ->] ->. by exists a, c. }
  intros w. destruct (Endpoints_GetAddr (CoreDevice.GetEndpoints (cw_d w)) UDPScheme) as [addr|e] eqn:Ea.
  - assert (selectOTM t w = (coapConn ← wrap_err (MakeInternalStr "cannot connect for select OTM")
      (dial_with DialUDP (addr_String addr)); with_conn coapConn (setOTM coapConn t)) w) as ->; [|apply Haddr].
    unfold selectOTM, gets, lift. unfold mbind at 1, ME_bind at 1. unfold mbind at 1, ME_bind at 1.
    by rewrite Ea.
  - assert (selectOTM t w = (Err e, w)) as ->; [|exists []; by rewrite app_nil_r].
    unfold selectOTM, gets, lift, mbind, ME_bind. by rewrite Ea.
Qed.

Lemma getTLSClient_adds links oc errs :
  adds (fun r l => match r with Ok (c, a) => l = [EvDial (DialOTM oc) (addr_URL a) c] | Err _ => l = [] end)
    (getTLSClient links oc errs).
Proof.
  assert (∀ addr errs, adds (fun r l => match r with
      | Ok (Some (c, a), _) => l = [EvDial (DialOTM oc) (addr_URL a) c] | _ => l = [] ∧ is_ok r = true end)
    (try_otm oc addr errs)) as Htry.
  { intros addr errs0. destruct addr as [addr|e]; [|by apply adds_ret]. cbn [try_otm].
    eapply adds_bind with (P := fun r l => is_ok r = true ∧ match r with
        | Ok (Ok c) => l = [EvDial (DialOTM oc) (addr_URL addr) c] | _ => l = [] end)
      (Q := fun r0 r l => l = [] ∧ r = Ok (match r0 with
            | Ok tlsClient => (Some (tlsClient, addr), errs0)
            | Err err => (None, err_append errs0 (ErrWrap "cannot connect" err)) end)).
    - apply adds_catch. eapply adds_conseq; [apply dial_adds|]. by intros [c|e] l ->.
    - intros r. by apply adds_ret.
    - by intros e l [? _].
    - intros [c|e] l1 r l2 [_ ->] [-> ->]; done. }
  revert errs. induction links as [|link rest IH]; intros errs; cbn [getTLSClient]; [by apply adds_fail|].
  assert (∀ addr errs (k : option error → CM (nat * Addr)),
    (∀ errs, adds (fun r l => match r with Ok (c, a) => l = [EvDial (DialOTM oc) (addr_URL a) c]
                             | Err _ => l = [] end) (k errs)) →
    adds (fun r l => match r with Ok (c, a) => l = [EvDial (DialOTM oc) (addr_URL a) c] | Err _ => l = [] end)
      (r ← try_otm oc addr errs; match r.1 with Some ca => mret ca | None => k r.2 end)) as Hstep.
  { clear IH errs. intros addr errs k Hk w. destruct (Htry addr errs w) as (l1 & H1 & H2).
    unfold mbind, ME_bind. destruct (try_otm oc addr errs w) as [[[[[c a]|] errs']|e] w1]; cbn in *.
    - exists l1. done.
    - destruct H2 as [-> _]. destruct (Hk errs' w1) as (l2 & H3 & H4). exists l2.
      rewrite H3, H1. by rewrite app_nil_r.
    - by destruct H2. }
  apply (Hstep _ _ (fun e => r ← try_otm oc (GetTCPSecureAddr link) e;
                             match r.1 with Some ca => mret ca | None => getTLSClient rest oc r.2 end)).
  intros errs1. apply (Hstep _ _ (getTLSClient rest oc)), IH.
Qed.

(** The trace of [Own] once the ownership has been read. *)
Definition own_events (r : result unit) (l : list CEvent) : Prop :=
  closed l ∧
  (is_ok r = false → (∀ t a c, EvDial (DialOTM t) a c ∉ l) ∨
     ∃ t a tls x ok, EvDial (DialOTM t) a tls ∈ x ∧
       l = x ++ [EvUpdate tls pstat_ResourceURI (PPstat (pstat_state OperationalState_RESET)) ok; EvClose tls]).

Lemma own_events_nil r : own_events r [].
Proof. split; [done|]. intros _. left. intros t a c H. inversion H. Qed.

Lemma transfer_adds rand cfg sdkID links oc :
  adds own_events
    (ca ← wrap_err (fun _ => MakeInternal (otmErrorf oc (ErrText "cannot get udp/tcp secure address")))
            (getTLSClient links oc None);
     let '(tlsClient, tlsAddr) := ca in
     with_conn tlsClient (own_with rand cfg sdkID tlsClient tlsAddr oc links)).
Proof.
  eapply adds_bind with (P := fun r l => match r with
      | Ok (c, a) => l = [EvDial (DialOTM oc) (addr_URL a) c] | Err _ => l = [] end)
    (Q := fun ca r l => ∃ l', l = l' ++ [EvClose ca.1] ∧ closed l' ∧ (is_ok r = false → resets ca.1 l')).
  - apply adds_wrap. eapply adds_conseq; [apply getTLSClient_adds|]. by intros [[]|].
  - intros [tls addr]. eapply with_conn_adds; [apply own_with_adds|]. intros r l [? ?]. by exists l.
  - intros e l ->. apply own_events_nil.
  - intros [tls addr] l1 r l2 -> (l' & -> & Hc & Hr). cbn [fst] in *. split.
    + cbn [app]. by apply closed_bracket.
    + intros Hf. right. destruct (Hr Hf) as (x & ok & ->).
      exists oc, (addr_URL addr), tls, (EvDial (DialOTM oc) (addr_URL addr) tls :: x), ok.
      split; [by left|]. cbn. by rewrite <- app_assoc.
Qed.

(** C5 A failed ownership transfer.  Whatever the device and the application do: all
    connections opened for the transfer are closed again, and if the transfer
    fails after the connection of the transfer method is open, the last thing sent
    before it is closed is the reset of the device. *)
Theorem Own_failure_disowns rand cfg ownerID links otmClients w :
  let '(r, w') := Own rand cfg ownerID links otmClients w in
  ∃ l0 l, cw_trace w' = cw_trace w ++ l0 ++ l ∧ Forall is_reading l0 ∧ own_events r l.
Proof.
  enough (adds (fun r l => ∃ l0 l1, l = l0 ++ l1 ∧ Forall is_reading l0 ∧ own_events r l1)
    (Own rand cfg ownerID links otmClients)) as He.
  { destruct (He w) as (l & Hl & l0 & l1 & -> & ?). destruct (Own _ _ _ _ _ w). by exists l0, l1. }
  unfold Own. eapply adds_bind with (P := fun _ l => Forall is_reading l) (Q := fun _ r l => own_events r l).
  - apply only_wrap, only_GetOwnership.
  - intros ownership. eapply adds_bind with (P := fun _ l => l = []) (Q := fun _ r l => own_events r l).
    + by apply adds_wrap, adds_lift.
    + intros sdkID. destruct (doxm_Owned ownership).
      { case_bool_decide; [apply adds_ret|apply adds_fail]; apply own_events_nil. }
      destruct (findOTMClient _ _) as [oc|]; [|apply adds_fail, own_events_nil].
      eapply adds_bind with (P := otm_events oc) (Q := fun _ r l => own_events r l);
        [|intros _; apply transfer_adds| |].
      { apply adds_wrap with (P := otm_events oc). eapply adds_conseq; [apply selectOTM_adds|].
        by intros [[]|e] l. }
      * intros e l Hl. destruct l as [|e0 l]; [apply own_events_nil|]. destruct Hl as (a & c & ->).
        split; [|intros _; left]; cbn.
        -- split; [|done]. right. by left.
        -- intros t a' c' H. repeat (apply elem_of_cons in H as [[=]|H]). inversion H.
      * intros [] l1 r l2 Hl [Hc Hr]. destruct l1 as [|e0 l1]; [done|]. destruct Hl as (a & c & ->).
        split; [cbn; split; [right; by left|done]|].
        intros Hf. destruct (Hr Hf) as [Hn|(t & a' & tls & x & ok & Hin & ->)]; [left|right].
        -- intros t a' c' H. cbn in H. repeat (apply elem_of_cons in H as [[=]|H]). by apply Hn in H.
        -- eexists t, a', tls, (_ :: _ :: _ :: x), ok. split; [|reflexivity]. by do 3 right.
    + intros e l ->. apply own_events_nil.
    + by intros a l1 r l2 -> ?.
  - intros e l Hl. exists l, []. rewrite app_nil_r. split; [done|]. split; [done|]. apply own_events_nil.
  - intros a l1 r l2 H1 H2. by exists l1, l2.
Qed.

(** ** A successful transfer *)

(** If [m] succeeds, it extends the trace by a list that, with the result, satisfies [P]. *)
Definition oks {A} (P : A → list CEvent → Prop) (m : CM A) : Prop :=
  adds (fun r l => ∀ a, r = Ok a → P a l) m.

Lemma oks_of {A} P (Q : A → list CEvent → Prop) m :
  adds P m → (∀ a l, P (Ok a) l → Q a l) → oks Q m.
Proof. intros Hm HPQ. eapply adds_conseq; [exact Hm|]. intros r l HP a ->. by apply HPQ. Qed.
Lemma oks_bind {A B} P (Q : A → B → list CEvent → Prop) (R : B → list CEvent → Prop) m (k : A → CM B) :
  oks P m → (∀ a, oks (Q a) (k a)) →
  (∀ a l1 b l2, P a l1 → Q a b l2 → R b (l1 ++ l2)) → oks R (m ≫= k).
Proof.
  intros Hm Hk HR. eapply adds_bind with (P := fun r l => ∀ a, r = Ok a → P a l)
    (Q := fun a r l => ∀ b, r = Ok b → Q a b l); [exact Hm|exact Hk|by intros e l _ a|].
  intros a l1 r l2 H1 H2 b ->. eapply HR; eauto.
Qed.
Lemma oks_ret {A} (P : A → list CEvent → Prop) a : P a [] → oks P (mret a).
Proof. intros HP. apply adds_ret. by intros a' [= <-]. Qed.
Lemma oks_fail {A} (P : A → list CEvent → Prop) e : oks P (fail e).
Proof. by apply adds_fail. Qed.
Lemma oks_wrap {A} (P : A → list CEvent → Prop) f m : oks P m → oks P (wrap_err f m).
Proof. intros Hm. apply adds_wrap. eapply adds_conseq; [exact Hm|]. intros [a|e] l HP a' [= <-]. by apply HP. Qed.
Lemma oks_silent {A} (m : CM A) : adds (fun _ l => l = []) m → oks (fun _ l => l = []) m.
Proof. intros Hm. by eapply oks_of. Qed.
Lemma oks_update c href p : oks (fun _ l => l = [EvUpdate c href p true]) (update c href p).
Proof. by eapply oks_of; [apply update_adds|]. Qed.
Lemma oks_delete c href : oks (fun _ l => l = [EvDelete c href true]) (delete_ c href).
Proof. by eapply oks_of; [apply delete_adds|]. Qed.
Lemma oks_get {A} (f : nat → CEnv → result A * CEnv) c href : oks (fun _ l => l = [EvGet c href]) (get_ f c href).
Proof. by eapply oks_of; [apply get_adds|]. Qed.
Lemma oks_with_conn {A} (P : A → list CEvent → Prop) c m :
  oks P m → oks (fun a l => ∃ l', l = l' ++ [EvClose c] ∧ P a l') (with_conn c m).
Proof.
  intros Hm. eapply with_conn_adds; [exact Hm|]. intros r l HP a ->. exists l. auto.
Qed.

(** The exchange on the connection [cc] of the transfer method, up to the change of the owner. *)
Definition transfer_trace (cfg : ownCfg) (sdkID k id : string) (more : list Credential) (cc : nat) : list CEvent :=
  [EvGet cc pstat_ResourceURI;
   EvUpdate cc pstat_ResourceURI (PPstat (pstat_mode OperationalMode_CLIENT_DIRECTED)) true] ++
  match actionDuringOwn cfg with
  | None => []
  | Some SetDoxmDeviceID => [EvUpdate cc doxm_ResourceURI (PDoxm (doxm_deviceID id)) true]
  | Some (AppDuring _) => [EvDuringOwn cc]
  end ++
  match sign cfg with None => [] | Some _ => [EvGet cc csr_ResourceURI] end ++
  [EvUpdate cc credential_ResourceURI
     (PCred {| cupd_ResourceOwner := sdkID; cupd_Credentials := psk_credential sdkID k :: more |}) true;
   EvUpdate cc doxm_ResourceURI (PDoxm (doxm_owner sdkID)) true;
   EvGet cc doxm_ResourceURI;
   EvUpdate cc pstat_ResourceURI (PPstat (pstat_owner sdkID)) true;
   EvUpdate cc acl_ResourceURI (PAcl {| acl_ResourceOwner := sdkID; AccessControlList := [] |}) true;
   EvUpdate cc doxm_ResourceURI (PDoxm (doxm_owned sdkID)) true].
Definition configure_trace (cfg : ownCfg) (sdkID k idBin address : string) (links : ResourceLinks)
    (aclLink : ResourceLink) (tls cp : nat) : list CEvent :=
  [EvUpdate tls pstat_ResourceURI (PPstat (pstat_state OperationalState_RFPRO)) true;
   EvDial (DialPSK k idBin) address cp;
   EvDelete cp (Href aclLink) true;
   EvUpdate cp (Href aclLink)
     (PAcl (owner_acl sdkID (GetResourceHrefs links [cloud_ResourceType] ++
                             GetResourceHrefs links [maintenance_ResourceType] ++
                             GetResourceHrefs links [softwareupdate_ResourceType]))) true;
   EvUpdate cp pstat_ResourceURI (PPstat (pstat_state OperationalState_RFNOP)) true] ++
  match actionAfterOwn cfg with None => [] | Some _ => [EvAfterOwn cp] end ++ [EvClose cp].
(** The key: 16 bytes, the one that is configured if there is one. *)
Definition good_key (cfg : ownCfg) (k : string) : Prop :=
  String.length k = 16%nat ∧ (psk cfg ≠ "" → k = psk cfg).

Lemma oks_lift {A} (r : result A) : oks (fun a l => r = Ok a ∧ l = []) (lift r).
Proof. apply adds_lift. intros a ->. done. Qed.
Lemma oks_ask {A} (f : CEnv → result A * CEnv) : oks (fun _ l => l = []) (ask f).
Proof. by apply adds_ask. Qed.

Lemma validate_psk owner k o : validateProvisionOwnerCredentials owner k o = Ok tt → String.length k = 16%nat.
Proof.
  unfold validateProvisionOwnerCredentials. intros (? & _ & H)%bind_Ok_inv.
  apply bind_Ok_inv in H as (? & _ & H). destruct (String.length k =? 0)%nat; [done|].
  destruct (Nat.eqb_spec (String.length k) 16); done.
Qed.

Lemma oks_setup_credentials cc owner id s :
  oks (fun _ l => l = [EvGet cc csr_ResourceURI]) (setup_credentials cc owner id s).
Proof.
  unfold setup_credentials.
  eapply oks_bind with (Q := fun _ _ l => l = []); [apply oks_wrap, oks_get| |by intros ? l1 ? l2 -> ->].
  intros r. eapply oks_bind with (Q := fun _ _ l => l = []); [apply oks_wrap, oks_ask| |by intros ? l1 ? l2 -> ->].
  intros signed. eapply oks_bind with (Q := fun _ _ l => l = []);
    [apply oks_wrap, oks_lift| |by intros ? l1 ? l2 [_ ->] ->].
  intros chain. destruct (last chain); [by apply oks_ret|apply oks_fail].
Qed.

Lemma oks_Provision cc owner k o :
  oks (fun _ l => String.length k = 16%nat ∧ ∃ more, l =
        match o with Some (_, Some _) => [EvGet cc csr_ResourceURI] | _ => [] end ++
        [EvUpdate cc credential_ResourceURI
           (PCred {| cupd_ResourceOwner := owner; cupd_Credentials := psk_credential owner k :: more |}) true])
    (ProvisionOwnerCredentials cc owner k o).
Proof.
  unfold ProvisionOwnerCredentials.
  eapply oks_bind with (Q := fun _ _ l => ∃ more, l =
        match o with Some (_, Some _) => [EvGet cc csr_ResourceURI] | _ => [] end ++
        [EvUpdate cc credential_ResourceURI
           (PCred {| cupd_ResourceOwner := owner; cupd_Credentials := psk_credential owner k :: more |}) true]).
  - apply oks_lift.
  - intros _. eapply oks_bind with
      (P := fun _ l => l = match o with Some (_, Some _) => [EvGet cc csr_ResourceURI] | _ => [] end)
      (Q := fun more _ l => l = [EvUpdate cc credential_ResourceURI
           (PCred {| cupd_ResourceOwner := owner; cupd_Credentials := psk_credential owner k :: more |}) true]).
    + destruct o as [[id [s|]]|]; [apply oks_setup_credentials|by apply oks_ret|by apply oks_ret].
    + intros more. apply oks_wrap, oks_update.
    + intros more l1 u l2 -> ->. by exists more.
  - intros [] l1 u l2 [Hv ->] Hx. split; [by eapply validate_psk|done].
Qed.

Lemma oks_provisionOwner rand cfg id sdkID cc oc :
  oks (fun k l => good_key cfg k ∧ ∃ more, l =
        match sign cfg with None => [] | Some _ => [EvGet cc csr_ResourceURI] end ++
        [EvUpdate cc credential_ResourceURI
           (PCred {| cupd_ResourceOwner := sdkID; cupd_Credentials := psk_credential sdkID k :: more |}) true])
    (provisionOwner rand cfg id sdkID cc oc).
Proof.
  unfold provisionOwner. destruct (_ && _); [apply oks_fail|].
  eapply oks_bind with (P := fun k l => l = [] ∧ (psk cfg ≠ "" → k = psk cfg))
    (Q := fun k k' l => k' = k ∧ String.length k = 16%nat ∧ ∃ more, l =
        match sign cfg with None => [] | Some _ => [EvGet cc csr_ResourceURI] end ++
        [EvUpdate cc credential_ResourceURI
           (PCred {| cupd_ResourceOwner := sdkID; cupd_Credentials := psk_credential sdkID k :: more |}) true]).
  - destruct (Nat.ltb_spec 0 (String.length (psk cfg))) as [Hl|Hl]; [by apply oks_ret|].
    apply oks_wrap. eapply oks_of; [apply adds_ask with (P := fun _ l => l = []); done|].
    intros k l ->. split; [done|]. destruct (psk cfg); [done|cbn in Hl; lia].
  - intros k. eapply oks_bind with (Q := fun _ k' l => k' = k ∧ l = []);
      [apply oks_wrap, oks_Provision|intros _; by apply oks_ret|].
    intros _ l1 k' l2 [Hk (more & ->)] [-> ->]. split; [done|]. split; [done|]. exists more.
    rewrite app_nil_r. by destruct (sign cfg).
  - intros k l1 k' l2 [-> Hc] (-> & Hl & Hx). done.
Qed.

(** Running a computation step by step. *)
Lemma oks_then {A B} (P : A → list CEvent → Prop) (R : B → list CEvent → Prop) m (k : A → CM B) :
  oks P m → (∀ a l1, P a l1 → oks (fun b l => R b (l1 ++ l)) (k a)) → oks R (m ≫= k).
Proof.
  intros Hm Hk w. destruct (Hm w) as (l1 & H1 & HP). unfold mbind, ME_bind.
  destruct (m w) as [[a|e] w1]; cbn in *; [|by exists l1].
  destruct (Hk a l1 (HP a eq_refl) w1) as (l2 & H2 & HQ). exists (l1 ++ l2). by rewrite H2, H1, app_assoc.
Qed.
Lemma oks_emit e : oks (fun _ l => l = [e]) (emit e).
Proof. by apply adds_emit. Qed.
Lemma oks_upd f : oks (fun _ l => l = []) (upd f).
Proof. intros w. exists []. by rewrite app_nil_r. Qed.
Lemma oks_gets {A} (f : CWorld → A) : oks (fun _ l => l = []) (gets f).
Proof. intros w. exists []. by rewrite app_nil_r. Qed.
Lemma oks_dial d a : oks (fun c l => l = [EvDial d a c]) (dial_with d a).
Proof. by eapply oks_of; [apply dial_adds|]. Qed.
Lemma oks_checkProvisionState cc oc : oks (fun _ l => l = [EvGet cc pstat_ResourceURI]) (checkProvisionState cc oc).
Proof.
  unfold checkProvisionState. eapply oks_then; [apply oks_wrap, oks_get|]. intros ps ? ->.
  destruct (dos_Pending _); [apply oks_fail|]. destruct (negb _); [apply oks_fail|].
  destruct (negb _); [apply oks_fail|by apply oks_ret].
Qed.
Lemma oks_setResourceOwner owner cc :
  oks (fun _ l => l =
    [EvUpdate cc pstat_ResourceURI (PPstat (pstat_owner owner)) true;
     EvUpdate cc acl_ResourceURI (PAcl {| acl_ResourceOwner := owner; AccessControlList := [] |}) true;
     EvUpdate cc doxm_ResourceURI (PDoxm (doxm_owned owner)) true]) (setResourceOwner owner cc).
Proof.
  unfold setResourceOwner. eapply oks_then; [apply oks_wrap, oks_update|intros ? ? ->].
  eapply oks_then; [apply oks_wrap, oks_update|intros ? ? ->].
  eapply oks_of; [apply oks_wrap, oks_update|]. intros [] l H. by rewrite (H tt eq_refl).
Qed.

Lemma oks_ownershipTransfer rand cfg sdkID cc oc :
  oks (fun k l => good_key cfg k ∧ ∃ id more, l = transfer_trace cfg sdkID k id more cc)
    (ownershipTransfer rand cfg sdkID cc oc).
Proof.
  unfold ownershipTransfer, transfer_trace.
  eapply oks_then; [apply oks_checkProvisionState|intros ? ? ->].
  eapply oks_then; [apply oks_wrap, oks_update|intros ? ? ->].
  eapply oks_then with (P := fun _ l => ∃ id, l = match actionDuringOwn cfg with
      | None => []
      | Some SetDoxmDeviceID => [EvUpdate cc doxm_ResourceURI (PDoxm (doxm_deviceID id)) true]
      | Some (AppDuring _) => [EvDuringOwn cc]
      end).
  { destruct (actionDuringOwn cfg) as [[|f]|]; [| |apply oks_ret; by exists ""]; cbn [run_during].
    - eapply oks_then with (P := fun _ l => ∃ id, l = [EvUpdate cc doxm_ResourceURI (PDoxm (doxm_deviceID id)) true]).
      + unfold setDoxmDeviceID. eapply oks_then; [apply oks_gets|intros d ? ->].
        eapply oks_then; [apply oks_wrap, oks_update|intros ? ? ->]. apply oks_ret. by eexists.
      + intros id l [id' ->]. eapply oks_of; [apply oks_upd|]. intros [] l H.
        rewrite (H tt eq_refl). by exists id'.
    - eapply oks_then; [eapply oks_then; [apply oks_emit|intros ? ? ->]; eapply oks_of; [apply oks_ask|]|].
      + intros id l H. rewrite (H id eq_refl). instantiate (1 := fun _ l => l = [EvDuringOwn cc]). done.
      + intros id l ->. eapply oks_of; [apply oks_upd|]. intros [] l H. rewrite (H tt eq_refl). by exists "". }
  intros _ ld [id ->].
  eapply oks_then; [apply oks_gets|intros d ? ->].
  eapply oks_then; [apply oks_provisionOwner|intros k ? [Hk (more & ->)]].
  eapply oks_then; [apply oks_wrap, oks_update|intros ? ? ->].
  eapply oks_then; [apply oks_wrap, oks_get|intros owner ? ->].
  eapply oks_then with (P := fun _ l => l = []); [destruct (negb _); [apply oks_fail|by apply oks_ret]|].
  intros _ ? ->. eapply oks_then; [apply oks_wrap, oks_setResourceOwner|intros ? ? ->].
  apply oks_ret. split; [done|]. exists id, more. rewrite app_nil_r. cbn [app]. do 2 f_equal.
  by rewrite <- !app_assoc.
Qed.

Lemma oks_setACL c links owner :
  oks (fun _ l => ∃ link, Schema.GetResourceLink links acl_ResourceURI = Some link ∧ l =
    [EvDelete c (Href link) true;
     EvUpdate c (Href link)
       (PAcl (owner_acl owner (GetResourceHrefs links [cloud_ResourceType] ++
                               GetResourceHrefs links [maintenance_ResourceType] ++
                               GetResourceHrefs links [softwareupdate_ResourceType]))) true]) (setACL c links owner).
Proof.
  unfold setACL, GetResourceLink. eapply oks_then; [apply oks_lift|intros link ? [E ->]].
  destruct (Schema.GetResourceLink links acl_ResourceURI) as [link'|] eqn:El; [|done]. injection E as ->.
  eapply oks_then; [apply oks_delete|intros ? ? ->].
  eapply oks_of; [apply oks_update|]. intros [] l H. exists link. by rewrite (H tt eq_refl).
Qed.

Lemma oks_configure cfg tls oc owner address links k :
  oks (fun _ l => ∃ id aclLink cp, uuid_Parse owner = Ok id ∧
      Schema.GetResourceLink links acl_ResourceURI = Some aclLink ∧
      l = configure_trace cfg owner k (uuid_MarshalBinary id) address links aclLink tls cp)
    (configure tls oc owner address (actionAfterOwn cfg) links k).
Proof.
  unfold configure, configure_trace. eapply oks_then; [apply oks_wrap, oks_update|intros ? ? ->].
  eapply oks_then with (P := fun cp l => ∃ id, uuid_Parse owner = Ok id ∧
    l = [EvDial (DialPSK k (uuid_MarshalBinary id)) address cp]).
  { unfold getDTLSClient. destruct (uuid_Parse owner) as [id|]; [|apply oks_fail].
    apply oks_wrap. eapply oks_of; [apply oks_dial|]. intros cp l H. exists id. by rewrite (H cp eq_refl). }
  intros cp ? (id & Hid & ->).
  eapply oks_of; [apply oks_with_conn with (P := fun _ l => ∃ aclLink,
    Schema.GetResourceLink links acl_ResourceURI = Some aclLink ∧ l =
    [EvDelete cp (Href aclLink) true;
     EvUpdate cp (Href aclLink)
       (PAcl (owner_acl owner (GetResourceHrefs links [cloud_ResourceType] ++
                               GetResourceHrefs links [maintenance_ResourceType] ++
                               GetResourceHrefs links [softwareupdate_ResourceType]))) true;
     EvUpdate cp pstat_ResourceURI (PPstat (pstat_state OperationalState_RFNOP)) true] ++
     match actionAfterOwn cfg with None => [] | Some _ => [EvAfterOwn cp] end)|].
  - eapply oks_then; [apply oks_wrap, oks_setACL|intros ? ? (link & Hl & ->)].
    eapply oks_then; [apply oks_wrap, oks_update|intros ? ? ->].
    destruct (actionAfterOwn cfg) as [f|]; cbn [run_after]; [|apply oks_ret; by exists link].
    eapply oks_then; [apply oks_emit|intros ? ? ->].
    eapply oks_of; [apply oks_wrap, oks_ask|]. intros [] l H. rewrite (H tt eq_refl). by exists link.
  - intros [] l H. destruct (H tt eq_refl) as (l' & -> & link & Hl & ->). exists id, link, cp.
    split; [done|]. split; [done|]. cbn. by rewrite <- ?app_assoc.
Qed.

(** What a successful transfer sends on the connection of the method. *)
Lemma oks_own_with rand cfg sdkID links oc tls addr :
  oks (fun _ l => ∃ k id more idBin aclLink cp, good_key cfg k ∧
    uuid_Parse sdkID = Ok idBin ∧ Schema.GetResourceLink links acl_ResourceURI = Some aclLink ∧
    l = transfer_trace cfg sdkID k id more tls ++
        configure_trace cfg sdkID k (uuid_MarshalBinary idBin) (addr_String addr) links aclLink tls cp)
    (own_with rand cfg sdkID tls addr oc links).
Proof.
  unfold own_with.
  eapply oks_then with (P := fun r l => ∀ k, r = Ok k → good_key cfg k ∧ ∃ id more,
    l = transfer_trace cfg sdkID k id more tls).
  { apply adds_catch. eapply adds_conseq; [apply oks_ownershipTransfer|]. intros r l H ? [= <-]. exact H. }
  intros [k|err] l1 H1; [|eapply oks_then with (P := fun _ _ => True); [by eapply oks_of; [apply disown_closed|]
    |intros; apply oks_fail]].
  destruct (H1 k eq_refl) as (Hk & id & more & ->).
  eapply oks_then with (P := fun r l => r = Ok tt → ∃ idBin aclLink cp, uuid_Parse sdkID = Ok idBin ∧
    Schema.GetResourceLink links acl_ResourceURI = Some aclLink ∧
    l = configure_trace cfg sdkID k (uuid_MarshalBinary idBin) (addr_String addr) links aclLink tls cp).
  { apply adds_catch. eapply adds_conseq; [apply oks_configure|]. intros r l H ? [= <-] ->. by apply (H tt). }
  intros [[]|err] l2 H2; [|eapply oks_then with (P := fun _ _ => True); [by eapply oks_of; [apply disown_closed|]
    |intros; apply oks_fail]].
  destruct (H2 eq_refl) as (idBin & aclLink & cp & ? & ? & ->). apply oks_ret.
  exists k, id, more, idBin, aclLink, cp. by rewrite app_nil_r.
Qed.

(** C4 A successful ownership transfer.  Either nothing is sent but the query of the
    owner, or the exchange is exactly this: the method is selected on an unsecured
    connection that is closed; on the connection of the method the device is put
    into client-directed mode, gets its ID, the pre-shared key of 16 bytes, and
    the owner of the device and of its security resources; it is set to RFPRO; on a
    connection that is secured by that very key the access control list is
    replaced and the device is set to RFNOP; both connections are closed. *)
Theorem Own_success rand cfg ownerID links otmClients w w' :
  Own rand cfg ownerID links otmClients w = (Ok tt, w') →
  ∃ sdkID l0 l, ownerID = Ok sdkID ∧ cw_trace w' = cw_trace w ++ l0 ++ l ∧ Forall is_reading l0 ∧
    (l = [] ∨
     ∃ oc ua uc addr tls k id more idBin aclLink cp,
       oc ∈ otmClients ∧ good_key cfg k ∧ uuid_Parse sdkID = Ok idBin ∧
       Schema.GetResourceLink links acl_ResourceURI = Some aclLink ∧
       l = [EvDial DialUDP ua uc; EvUpdate uc doxm_ResourceURI (PDoxm (doxm_otm oc)) true; EvClose uc;
            EvDial (DialOTM oc) (addr_URL addr) tls] ++
           transfer_trace cfg sdkID k id more tls ++
           configure_trace cfg sdkID k (uuid_MarshalBinary idBin) (addr_String addr) links aclLink tls cp ++
           [EvClose tls]).
Proof.
  set (T := fun sdkID l => l = [] ∨
     ∃ oc ua uc addr tls k id more idBin aclLink cp,
       oc ∈ otmClients ∧ good_key cfg k ∧ uuid_Parse sdkID = Ok idBin ∧
       Schema.GetResourceLink links acl_ResourceURI = Some aclLink ∧
       l = [EvDial DialUDP ua uc; EvUpdate uc doxm_ResourceURI (PDoxm (doxm_otm oc)) true; EvClose uc;
            EvDial (DialOTM oc) (addr_URL addr) tls] ++
           transfer_trace cfg sdkID k id more tls ++
           configure_trace cfg sdkID k (uuid_MarshalBinary idBin) (addr_String addr) links aclLink tls cp ++
           [EvClose tls]).
  enough (oks (fun _ l => ∃ sdkID l0 l1, ownerID = Ok sdkID ∧ l = l0 ++ l1 ∧ Forall is_reading l0 ∧ T sdkID l1)
    (Own rand cfg ownerID links otmClients)) as He.
  { intros Hown. destruct (He w) as (l & Hl & HP). rewrite Hown in *. cbn in *.
    destruct (HP tt eq_refl) as (sdkID & l0 & l1 & ? & -> & ? & ?). by exists sdkID, l0, l1. }
  unfold Own. eapply oks_then with (P := fun _ l => Forall is_reading l).
  { apply oks_wrap. eapply oks_of; [apply only_GetOwnership|]. done. }
  intros ownership l0 Hl0. eapply oks_then; [apply oks_wrap, oks_lift|intros sdkID ? [-> ->]].
  assert (∀ m : CM unit, oks (fun _ l => T sdkID l) m →
    oks (fun _ l => ∃ sdkID' l0' l1, Ok sdkID = Ok sdkID' ∧ l0 ++ [] ++ l = l0' ++ l1 ∧
           Forall is_reading l0' ∧ T sdkID' l1) m) as Hfin.
  { intros m Hm. eapply oks_of; [exact Hm|]. intros u l H. exists sdkID, l0, l. by rewrite (H u eq_refl) || eauto. }
  apply Hfin. clear Hfin. destruct (doxm_Owned ownership).
  { case_bool_decide; [apply oks_ret; by left|apply oks_fail]. }
  destruct (findOTMClient _ _) as [oc|] eqn:Eoc; [|apply oks_fail].
  unfold findOTMClient in Eoc. apply find_some in Eoc as [Hoc%list_elem_of_In _].
  eapply oks_then with (P := fun _ l => ∃ a c, l =
    [EvDial DialUDP a c; EvUpdate c doxm_ResourceURI (PDoxm (doxm_otm oc)) true; EvClose c]).
  { apply oks_wrap. eapply oks_of; [apply selectOTM_adds|]. intros [] [|e l] H; [done|exact H]. }
  intros _ ? (ua & uc & ->).
  eapply oks_then with (P := fun ca l => l = [EvDial (DialOTM oc) (addr_URL ca.2) ca.1]).
  { apply oks_wrap. eapply oks_of; [apply getTLSClient_adds|]. by intros [c a] l ->. }
  intros [tls addr] ? ->. cbn [fst snd].
  eapply oks_of; [apply oks_with_conn with (P := fun _ l => ∃ k id more idBin aclLink cp, good_key cfg k ∧
    uuid_Parse sdkID = Ok idBin ∧ Schema.GetResourceLink links acl_ResourceURI = Some aclLink ∧
    l = transfer_trace cfg sdkID k id more tls ++
        configure_trace cfg sdkID k (uuid_MarshalBinary idBin) (addr_String addr) links aclLink tls cp)|].
  - apply oks_own_with.
  - intros [] l H. destruct (H tt eq_refl) as (l' & -> & k & id & more & idBin & aclLink & cp & ? & ? & ? & ->).
    right. exists oc, ua, uc, addr, tls, k, id, more, idBin, aclLink, cp. split_and!; [done..|].
    by rewrite <- !app_assoc.
Qed.
End Props.

(** ** The properties at concrete inputs *)

Section Examples.
#[local] Instance ex_own_Kit : Kit := {|
  Addr := (string * string)%type;
  ParseString s a := Ok (s, a);
  addr_GetScheme a := a.1;
  addr_GetHostname a := a.2;
  addr_GetPort a := 0;
  addr_SetPort a p := a;
  addr_SetScheme a s := (s, a.2);
  addr_String a := a.2;
  addr_URL a := a.1 +:+ "://" +:+ a.2;
  ParseIPZone s := (None, "");
  ip_String ip := "";
  str_contains a b := false;
  set_ToSlice := elements |}.
#[local] Instance ex_own_Uuids : Uuids := {| uuid_Parse s := Ok s; uuid_NewSHA1 s := s |}.
#[local] Instance ex_own_Cred : CredEnv := {|
  Cert := string;
  pem_Decode data := match data with "" => (None, "") | _ => (Some data, "") end;
  x509_ParseCertificates der := Ok [der];
  cred_order m := map_to_list m |}.
#[local] Instance ex_own_Pem : PemOut := {|
  pem_Encode t s := s; cert_Raw c := c; uuid_MarshalBinary u := u |}.
(** A device that accepts everything and remembers its owner; connections are numbered. *)
#[local] Instance ex_own_Core : CoreEnv := {|
  CEnv := (nat * string)%type;
  cenv_GetCertificate e := (Ok tt, e);
  cenv_GetCertificateAuthorities e := (Ok tt, e);
  cenv_Dial d a e := (Ok e.1, (S e.1, e.2));
  cenv_alive n e := true;
  cenv_Close n e := (Ok tt, e);
  cenv_Update n h p e :=
    (Ok tt, match p with PDoxm u => (e.1, default e.2 (dupd_OwnerID u)) | _ => e end);
  cenv_Delete n h e := (Ok tt, e);
  cenv_GetPstat n e :=
    (Ok {| ps_ResourceOwner := ""; ps_Interfaces := []; ps_ResourceTypes := [];
           ps_CurrentOperationalMode := 0; ps_CurrentProvisioningMode := 0; ps_Name := "";
           ps_InstanceID := ""; ps_DeviceIsOperational := false; ps_TargetProvisioningMode := 0;
           ps_SupportedOperationalModes := 4;
           ps_DeviceOnboardingState := {| dos_Pending := false; dos_State := 1 |} |}, e);
  cenv_GetDoxm n e :=
    (Ok {| doxm_ResourceOwner := ""; doxm_SupportedOwnerTransferMethods := [0; 2]; doxm_OwnerID := e.2;
           doxm_DeviceID := "dev"; doxm_Owned := false; doxm_Name := ""; doxm_InstanceID := "";
           doxm_SupportedCredentialTypes := 0; doxm_SelectedOwnerTransferMethod := 0;
           doxm_Interfaces := []; doxm_ResourceTypes := [] |}, e);
  cenv_GetCsr n e :=
    (Ok {| csr_Interfaces := []; csr_ResourceTypes := []; csr_Name := ""; csr_InstanceID := "";
           csr_Encoding := "oic.sec.encoding.pem"; CertificateSigningRequest := DataString "csr" |}, e) |}.

Definition ex_own_cfg : ownCfg :=
  {| psk := "0123456789abcdef"; sign := Some (fun c e => (Ok c, e));
     actionDuringOwn := Some SetDoxmDeviceID; actionAfterOwn := None |}.
Definition ex_own_link (href : string) : ResourceLink :=
  set_Endpoints [{| URI := "coap://10.0.0.1:1"; Priority := 0 |}; {| URI := "coaps://10.0.0.1:2"; Priority := 0 |}]
    (set_Href href zero_link).
Definition ex_own_links : ResourceLinks := [ex_own_link "/oic/sec/doxm"; ex_own_link "/oic/sec/acl2"].
Definition ex_own_world : CWorld :=
  {| cw_d := {| d_deviceID := "dev"; d_getEndpoints := Some (LinkEndpoints (ex_own_link ""));
                d_heap := ∅; d_conn := ∅ |};
     cw_env := (0%nat, ""); cw_trace := [] |}.
Definition ex_own_run : result unit * CWorld :=
  Own (fun e => (Ok "", e)) ex_own_cfg (Ok "owner") ex_own_links [2] ex_own_world.
Lemma ex_own_ok : ex_own_run.1 = Ok tt.
Proof. vm_compute. reflexivity. Qed.
Lemma ex_own_events : length (cw_trace ex_own_run.2) = 23%nat.
Proof. vm_compute. reflexivity. Qed.
Lemma Own_success_witness :
  ex_own_run.1 = Ok tt ∧
  ∃ sdkID l0 l, Ok "owner" = Ok sdkID ∧ cw_trace ex_own_run.2 = l0 ++ l ∧ Forall is_reading l0 ∧
    (l = [] ∨ ∃ t x tls, EvDial (DialOTM t) x tls ∈ l).
Proof.
  split; [vm_compute; reflexivity|].
  destruct (Own_success (fun e => (Ok "", e)) ex_own_cfg (Ok "owner") ex_own_links [2] ex_own_world
    ex_own_run.2) as (sdkID & l0 & l & Hid & Htr & Hl0 & Hl).
  - vm_compute. reflexivity.
  - exists sdkID, l0, l. split; [exact Hid|]. split; [exact Htr|]. split; [exact Hl0|].
    destruct Hl as [Hl|(oc & ua & uc & addr & tls & k & id & more & idBin & aclLink & cp & _ & _ & _ & _ & ->)];
      [left; exact Hl|right]. exists oc, (addr_URL addr), tls. by do 3 right; left.
Defined.
Lemma connectToEndpoints_spec_witness :
  slots_ok (cw_d ex_own_world) ∧
  let '(r, w') := connectToEndpoints (LinkEndpoints (ex_own_link "")) ex_own_world in
  slots_ok (cw_d w').
Proof.
  assert (slots_ok (cw_d ex_own_world)) as Hok.
  { split; [intros a p H|intros a b p H]; cbn in H; by rewrite lookup_empty in H. }
  split; [exact Hok|].
  pose proof (connectToEndpoints_spec (LinkEndpoints (ex_own_link "")) ex_own_world Hok) as H.
  destruct (connectToEndpoints _ _) as [r w']. apply H.
Defined.
Definition ex_own_connected : CWorld := (connectToEndpoints (LinkEndpoints (ex_own_link "")) ex_own_world).2.
Lemma connectToEndpoint_reuses_witness :
  connectToEndpoint {| URI := "coap://10.0.0.1:1"; Priority := 0 |} ex_own_connected =
    (Ok (("coap", "10.0.0.1:1"), 0%nat), ex_own_connected).
Proof.
  apply (connectToEndpoint_reuses (HKit := ex_own_Kit) {| URI := "coap://10.0.0.1:1"; Priority := 0 |} ("coap", "10.0.0.1:1") 0%nat);
    vm_compute; reflexivity.
Defined.
End Examples.
