(* ===== verification/CertGen.v ===== *)
(** * CertGen: generating and signing certificates

    [src/pkg/security/generateCertificate], [src/pkg/security/signer] and the rest of
    [src/pkg/security/x509]: from a configuration to a signing request, from a request to a
    certificate, and the chain that is returned.

    crypto/x509, PEM and ASN.1 are classes: what the code relies on is that a request and a
    certificate that were created parse back with the fields of their templates.  A time is
    a number of nanoseconds. *)

From S2P Require Export Verify Ownership.

(** ** The configuration *)

Record Configuration := {
  sub_Country : list string; sub_Organization : list string; sub_OrganizationalUnit : list string;
  sub_Locality : list string; sub_CommonName : string; sub_Province : list string;
  sub_StreetAddress : list string; sub_PostalCode : list string; sub_SerialNumber : string;
  san_DNSNames : list string; san_IPAddresses : list string;
  bc_Ignore : bool; bc_MaxPathLen : Z;
  ValidFrom : string; ValidFor : Z; cfg_NotBefore : string; cfg_NotAfter : string;
  KeyUsages : list string; ExtensionKeyUsages : list string;
  EllipticCurve : string; SignatureAlgorithm : string; CRLDistributionPoints : list string }.
(** [Configuration{}]. *)
Definition zero_Configuration : Configuration :=
  {| sub_Country := []; sub_Organization := []; sub_OrganizationalUnit := []; sub_Locality := [];
     sub_CommonName := ""; sub_Province := []; sub_StreetAddress := []; sub_PostalCode := [];
     sub_SerialNumber := ""; san_DNSNames := []; san_IPAddresses := []; bc_Ignore := false; bc_MaxPathLen := 0;
     ValidFrom := ""; ValidFor := 0; cfg_NotBefore := ""; cfg_NotAfter := ""; KeyUsages := [];
     ExtensionKeyUsages := []; EllipticCurve := ""; SignatureAlgorithm := ""; CRLDistributionPoints := [] |}.

(** [pkix.Name]. *)
Record PkixName := {
  pn_Country : list string; pn_Organization : list string; pn_OrganizationalUnit : list string;
  pn_Locality : list string; pn_Province : list string; pn_StreetAddress : list string;
  pn_PostalCode : list string; pn_SerialNumber : string; pn_CommonName : string }.
Definition name_of (cn : string) : PkixName :=
  {| pn_Country := []; pn_Organization := []; pn_OrganizationalUnit := []; pn_Locality := [];
     pn_Province := []; pn_StreetAddress := []; pn_PostalCode := []; pn_SerialNumber := "";
     pn_CommonName := cn |}.
Definition set_CommonName (cn : string) (n : PkixName) : PkixName :=
  {| pn_Country := pn_Country n; pn_Organization := pn_Organization n;
     pn_OrganizationalUnit := pn_OrganizationalUnit n; pn_Locality := pn_Locality n;
     pn_Province := pn_Province n; pn_StreetAddress := pn_StreetAddress n; pn_PostalCode := pn_PostalCode n;
     pn_SerialNumber := pn_SerialNumber n; pn_CommonName := cn |}.

Definition ToPkixName (cfg : Configuration) : PkixName :=
  {| pn_Country := sub_Country cfg; pn_Organization := sub_Organization cfg;
     pn_OrganizationalUnit := sub_OrganizationalUnit cfg; pn_CommonName := sub_CommonName cfg;
     pn_Locality := sub_Locality cfg; pn_Province := sub_PostalCode cfg;
     pn_StreetAddress := []; pn_PostalCode := []; pn_SerialNumber := "" |}.

Inductive Curve := P256 | P384 | P521.
Definition EllipticCurveP256 : string := "P256".
Definition EllipticCurveP384 : string := "P384".
Definition EllipticCurveP521 : string := "P521".
Definition ToEllipticCurve (cfg : Configuration) : result Curve :=
  let c := EllipticCurve cfg in
  if bool_decide (c = EllipticCurveP256) || bool_decide (c = "") then Ok P256
  else if bool_decide (c = EllipticCurveP384) then Ok P384
  else if bool_decide (c = EllipticCurveP521) then Ok P521
  else Err (ErrText ("unsupported elliptic curve: " +:+ c)).

Definition x509_ECDSAWithSHA256 : Z := 10.
Definition x509_ECDSAWithSHA384 : Z := 11.
Definition x509_ECDSAWithSHA512 : Z := 12.
Definition SignatureAlgorithmECDSAWithSHA256 : string := "ECDSA-SHA256".
Definition SignatureAlgorithmECDSAWithSHA384 : string := "ECDSA-SHA384".
Definition SignatureAlgorithmECDSAWithSHA512 : string := "ECDSA-SHA512".
Definition ToSignatureAlgorithm (cfg : Configuration) : result Z :=
  let a := SignatureAlgorithm cfg in
  if bool_decide (a = SignatureAlgorithmECDSAWithSHA256) || bool_decide (a = "") then Ok x509_ECDSAWithSHA256
  else if bool_decide (a = SignatureAlgorithmECDSAWithSHA384) then Ok x509_ECDSAWithSHA384
  else if bool_decide (a = SignatureAlgorithmECDSAWithSHA512) then Ok x509_ECDSAWithSHA512
  else Err (ErrText ("unsupported signature algorithm: " +:+ a)).

(** ** Key usages *)

(** [crypto/x509.KeyUsage]: the flag of bit [i]. *)
Definition KeyUsageDigitalSignature : Z := Z.shiftl 1 0.
Definition KeyUsageContentCommitment : Z := Z.shiftl 1 1.
Definition KeyUsageKeyEncipherment : Z := Z.shiftl 1 2.
Definition KeyUsageDataEncipherment : Z := Z.shiftl 1 3.
Definition KeyUsageKeyAgreement : Z := Z.shiftl 1 4.
Definition KeyUsageCertSign : Z := Z.shiftl 1 5.
Definition KeyUsageCRLSign : Z := Z.shiftl 1 6.
Definition KeyUsageEncipherOnly : Z := Z.shiftl 1 7.
Definition KeyUsageDecipherOnly : Z := Z.shiftl 1 8.

Definition reverseBitsInAByte (in_ : Z) : Z :=
  let b1 := Z.lor (Z.shiftr in_ 4) (u8 (Z.shiftl in_ 4)) in
  let b2 := Z.lor (Z.land (Z.shiftr b1 2) 51) (Z.land (u8 (Z.shiftl b1 2)) 204) in
  let b3 := Z.lor (Z.land (Z.shiftr b2 1) 85) (Z.land (u8 (Z.shiftl b2 1)) 170) in
  b3.

(** The inner loop: the bits from [bit] on, [n] of them; [inl] is a return of the function. *)
Fixpoint bit_loop (n : nat) (b bit bitLen : Z) : Z + Z :=
  match n with
  | O => inr bitLen
  | S n' => if Z.land (Z.shiftr b bit) 1 =? 1 then inl bitLen else bit_loop n' b (bit + 1) (bitLen - 1)
  end.
Fixpoint byte_loop (bytes : list Z) (bitLen : Z) : Z :=
  match bytes with
  | [] => 0
  | b :: bytes' => match bit_loop 8 b 0 bitLen with
                   | inl r => r
                   | inr bitLen => byte_loop bytes' bitLen
                   end
  end.
(** The outer loop goes from the last byte to the first. *)
Definition asn1BitLength (bitString : list Z) : Z :=
  byte_loop (rev bitString) (Z.of_nat (length bitString) * 8).

Definition key_usage (k : string) : result Z :=
  if bool_decide (k = "digitalSignature") then Ok KeyUsageDigitalSignature
  else if bool_decide (k = "contentCommitment") then Ok KeyUsageContentCommitment
  else if bool_decide (k = "keyEncipherment") then Ok KeyUsageKeyEncipherment
  else if bool_decide (k = "dataEncipherment") then Ok KeyUsageDataEncipherment
  else if bool_decide (k = "keyAgreement") then Ok KeyUsageKeyAgreement
  else if bool_decide (k = "certSign") then Ok KeyUsageCertSign
  else if bool_decide (k = "crlSign") then Ok KeyUsageCRLSign
  else if bool_decide (k = "encipherOnly") then Ok KeyUsageEncipherOnly
  else if bool_decide (k = "decipherOnly") then Ok KeyUsageDecipherOnly
  else if bool_decide (k = "") then Ok 0
  else Err (ErrText ("invalid key usage " +:+ k)).
Fixpoint key_usages (ks : list string) (ku : Z) : result Z :=
  match ks with
  | [] => Ok ku
  | k :: ks' => f ← key_usage k; key_usages ks' (Z.lor ku f)
  end.
Definition X509KeyUsages (cfg : Configuration) : result Z := key_usages (KeyUsages cfg) 0.

(** [asn1.BitString]: the bytes and the length in bits. *)
Definition BitString : Type := list Z * Z.
Definition asn_of (ku : Z) : BitString :=
  let a0 := reverseBitsInAByte (u8 ku) in
  let a1 := reverseBitsInAByte (u8 (Z.shiftr ku 8)) in
  let bitString := if a1 =? 0 then [a0] else [a0; a1] in
  (bitString, asn1BitLength bitString).
Definition AsnKeyUsages (cfg : Configuration) : result BitString := ku ← X509KeyUsages cfg; Ok (asn_of ku).

(** ** Extended key usages *)

(** [strconv.Atoi]: an optional sign and decimal digits, within 64 bits. *)
Fixpoint all_digits (s : string) : bool :=
  match s with
  | EmptyString => true
  | String c s' => (0 <=? digit_val c) && (digit_val c <=? 9) && all_digits s'
  end.
Definition Atoi (s : string) : result Z :=
  let '(neg, t) := match s with
                   | String "-" t => (true, t)
                   | String "+" t => (false, t)
                   | _ => (false, s)
                   end in
  if negb (all_digits t) || bool_decide (t = "") then Err (ErrText "invalid syntax")
  else
    let n := (if neg : bool then -1 else 1) * parse_uint t in
    if (- 2 ^ 63 <=? n) && (n <? 2 ^ 63) then Ok n else Err (ErrText "value out of range").

Definition oid : Type := list Z.
Fixpoint parse_eku (es : list string) (ekus : list Z) (unknownEkus : list oid) : result (list Z * list oid) :=
  match es with
  | [] => Ok (ekus, unknownEkus)
  | e :: es' =>
      if bool_decide (e = "server") then parse_eku es' (ekus ++ [ExtKeyUsageServerAuth]) unknownEkus
      else if bool_decide (e = "client") then parse_eku es' (ekus ++ [ExtKeyUsageClientAuth]) unknownEkus
      else if bool_decide (e = "") then parse_eku es' ekus unknownEkus
      else eku ← mapM Atoi (split e ".");
           parse_eku es' ekus (if (0 <? length eku)%nat then unknownEkus ++ [eku] else unknownEkus)
  end.
Definition X509ExtKeyUsages (cfg : Configuration) : result (list Z * list oid) :=
  parse_eku (ExtensionKeyUsages cfg) [] [].

(** The table, by the values of crypto/x509. *)
Definition extKeyUsageOIDs : list (Z * oid) :=
  [(0, [2; 5; 29; 37; 0]); (1, [1; 3; 6; 1; 5; 5; 7; 3; 1]); (2, [1; 3; 6; 1; 5; 5; 7; 3; 2]);
   (3, [1; 3; 6; 1; 5; 5; 7; 3; 3]); (4, [1; 3; 6; 1; 5; 5; 7; 3; 4]); (5, [1; 3; 6; 1; 5; 5; 7; 3; 5]);
   (6, [1; 3; 6; 1; 5; 5; 7; 3; 6]); (7, [1; 3; 6; 1; 5; 5; 7; 3; 7]); (8, [1; 3; 6; 1; 5; 5; 7; 3; 8]);
   (9, [1; 3; 6; 1; 5; 5; 7; 3; 9]); (10, [1; 3; 6; 1; 4; 1; 311; 10; 3; 3]);
   (11, [2; 16; 840; 1; 113730; 4; 1]); (12, [1; 3; 6; 1; 4; 1; 311; 2; 1; 22]);
   (13, [1; 3; 6; 1; 4; 1; 311; 61; 1; 1])].
Definition OidFromExtKeyUsage (eku : Z) : option oid :=
  snd <$> List.find (fun pair => eku =? pair.1) extKeyUsageOIDs.
Definition AsnExtensionKeyUsages (cfg : Configuration) : result (list oid) :=
  r ← X509ExtKeyUsages cfg;
  known ← mapM (fun e => match OidFromExtKeyUsage e with
                         | Some v => Ok v
                         | None => Err (ErrText "cannot convert x509.KeyUsage to oid: oid representation not found")
                         end) r.1;
  Ok (known ++ r.2).

(** ** CRL distribution points *)

Fixpoint compact (l : list string) : list string :=
  match l with
  | [] => []
  | x :: l' => match l' with
               | y :: _ => if bool_decide (x = y) then compact l' else x :: compact l'
               | [] => [x]
               end
  end.

(** ** crypto/x509, PEM and ASN.1 *)

Record Extension := { ext_Id : oid; ext_Value : string }.
(** [x509.CertificateRequest] as a template; [RawSubject] is the subject. *)
Record CsrTemplate := {
  ct_Subject : PkixName; ct_ExtraExtensions : list Extension; ct_SignatureAlgorithm : Z;
  ct_DNSNames : list string; ct_IPAddresses : list (list Z) }.

(** What is parsed of requests and certificates, with the random numbers of [GenEnv]. *)
Class CertLib `{CredEnv} := {
  GenEnv : Type;
  PrivateKey : Type;
  PublicKey : Type;
  public_key : PrivateKey → PublicKey;
  ecdsa_GenerateKey : Curve → GenEnv → result PrivateKey * GenEnv;
  rand_Int : Z → GenEnv → result Z * GenEnv;
  time_Now : GenEnv → result Z * GenEnv;
  time_Parse : string → result Z;
  net_ParseIP : string → option (list Z);
  url_ParseRequestURI : string → result unit;
  asn1_Marshal_bool : bool → result string;
  asn1_Marshal_bits : BitString → result string;
  asn1_Marshal_oids : list oid → result string;
  CertificateRequest : Type;
  req_Subject : CertificateRequest → PkixName;
  req_PublicKeyAlgorithm : CertificateRequest → Z;
  req_PublicKey : CertificateRequest → PublicKey;
  req_DNSNames : CertificateRequest → list string;
  req_IPAddresses : CertificateRequest → list (list Z);
  req_URIs : CertificateRequest → list string;
  req_EmailAddresses : CertificateRequest → list string;
  req_Extensions : CertificateRequest → list Extension;
  x509_CreateCertificateRequest : CsrTemplate → PrivateKey → GenEnv → result string * GenEnv;
  x509_ParseCertificateRequest : string → result CertificateRequest;
  CheckSignature : CertificateRequest → result unit;
  ca_NotBefore : Cert → Z;
  ca_NotAfter : Cert → Z;
  ca_SignatureAlgorithm : Cert → Z }.

Record CertTemplate `{CertLib} := {
  t_SerialNumber : Z; t_NotBefore : Z; t_NotAfter : Z; t_Subject : PkixName;
  t_PublicKeyAlgorithm : Z; t_PublicKey : option PublicKey; t_SignatureAlgorithm : Z; t_KeyUsage : Z;
  t_ExtKeyUsage : list Z; t_UnknownExtKeyUsage : list oid; t_DNSNames : list string;
  t_IPAddresses : list (list Z); t_URIs : list string; t_EmailAddresses : list string;
  t_ExtraExtensions : list Extension; t_CRLDistributionPoints : list string;
  t_BasicConstraintsValid : bool; t_IsCA : bool; t_MaxPathLen : Z; t_MaxPathLenZero : bool }.
(** [x509.CreateCertificate]; the parent is a certificate, or the template itself. *)
Class CertCreate `{CertLib} := {
  x509_CreateCertificate : CertTemplate → option Cert → PublicKey → PrivateKey → GenEnv → result string * GenEnv }.

Section Generate.
Context `{HCred : CredEnv} `{HPem : !PemOut} `{HLib : !CertLib} `{HCreate : !CertCreate}.
Abbreviation GM := (ME GenEnv).

(** ** [pkg/security/x509] *)

Fixpoint ValidateCRLDistributionPoints (crlDistributionPoints : list string) : result unit :=
  match crlDistributionPoints with
  | [] => Ok tt
  | crl :: crls =>
      match url_ParseRequestURI crl with
      | Err err => Err (ErrWrap ("invalid CRL distribution point URL " +:+ crl) err)
      | Ok _ => ValidateCRLDistributionPoints crls
      end
  end.
(** Writing to a buffer does not fail. *)
Definition CreatePemChain (intermedateCAs : list Cert) (cert : string) : string :=
  foldl (fun buf ca => buf +:+ pem_Encode "CERTIFICATE" (cert_Raw ca)) (pem_Encode "CERTIFICATE" cert) intermedateCAs.
Definition ParseAndCheckCertificateRequest (csr : string) : result CertificateRequest :=
  match (pem_Decode csr).1 with
  | None => Err (ErrText "pem not found")
  | Some der =>
      certificateRequest ← x509_ParseCertificateRequest der;
      _ ← CheckSignature certificateRequest;
      Ok certificateRequest
  end.
(** [tls.Certificate] is the list of its DER certificates. *)
Definition ParseCertificates (cert : list string) : result (list Cert) :=
  cas ← mapM x509_ParseCertificates cert;
  let caChain := concat cas in
  if (length caChain =? 0)%nat then Err (ErrText "no certificates") else Ok caChain.

(** ** The configuration, with the libraries *)

Definition ToValidFrom (cfg : Configuration) : GM Z :=
  if bool_decide (ValidFrom cfg = "") || bool_decide (to_lower (ValidFrom cfg) = "now") then time_Now
  else match time_Parse (ValidFrom cfg) with
       | Err err => fail (ErrWrap ("invalid validFrom(" +:+ ValidFrom cfg +:+ ")") err)
       | Ok t => mret t
       end.
Definition ToIPAddresses (cfg : Configuration) : result (list (list Z)) :=
  mapM (fun ip => match net_ParseIP ip with
                  | None => Err (ErrText ("invalid IP address: " +:+ ip))
                  | Some v => Ok v
                  end) (san_IPAddresses cfg).
Definition ToCRLDistributionPoints (cfg : Configuration) : result (list string) :=
  _ ← ValidateCRLDistributionPoints (CRLDistributionPoints cfg);
  Ok (compact (insertion_sort String.ltb (CRLDistributionPoints cfg))).
Definition GenerateKey (cfg : Configuration) : GM PrivateKey :=
  curve ← lift (ToEllipticCurve cfg);
  ecdsa_GenerateKey curve.

(** ** Signers ([pkg/security/signer]) *)

Record Signer := {
  s_caCert : list Cert; s_caKey : PrivateKey; s_validNotBefore : Z; s_validNotAfter : Z;
  s_crlDistributionPoints : list string }.
Definition NewOCFIdentityCertificate (caCert : list Cert) (caKey : PrivateKey) (validNotBefore validNotAfter : Z)
    (crlDistributionPoints : list string) : result Signer :=
  _ ← ValidateCRLDistributionPoints crlDistributionPoints;
  Ok {| s_caCert := caCert; s_caKey := caKey; s_validNotBefore := validNotBefore;
        s_validNotAfter := validNotAfter; s_crlDistributionPoints := crlDistributionPoints |}.
Definition NewBasicCertificateSigner (caCert : list Cert) (caKey : PrivateKey) (validNotBefore validNotAfter : Z)
    (crlDistributionPoints : list string) : result Signer :=
  _ ← ValidateCRLDistributionPoints crlDistributionPoints;
  Ok {| s_caCert := caCert; s_caKey := caKey; s_validNotBefore := validNotBefore;
        s_validNotAfter := validNotAfter; s_crlDistributionPoints := crlDistributionPoints |}.

(** The validity of an identity certificate: the range of the signer, cut to that of every CA. *)
Definition clamp (r : Z * Z) (c : Cert) : Z * Z :=
  (if r.1 <? ca_NotBefore c then ca_NotBefore c else r.1,
   if r.2 >? ca_NotAfter c then ca_NotAfter c else r.2).
Definition identity_window (s : Signer) (now : Z) : result (Z * Z) :=
  let '(notBefore, notAfter) := foldl clamp (s_validNotBefore s, s_validNotAfter s) (s_caCert s) in
  if notBefore >? notAfter then Err (ErrText "invalid time range")
  else if now <? notBefore then Err (ErrText "not valid yet")
  else if now >? notAfter then Err (ErrText "expired")
  else Ok (notBefore, notAfter).
Definition serialNumberLimit : Z := 2 ^ 128.
Definition identity_template (s : Signer) (window : Z * Z) (ca : Cert) (req : CertificateRequest)
    (serialNumber : Z) : CertTemplate :=
  {| t_SerialNumber := serialNumber; t_NotBefore := window.1; t_NotAfter := window.2;
     t_Subject := req_Subject req; t_PublicKeyAlgorithm := req_PublicKeyAlgorithm req;
     t_PublicKey := Some (req_PublicKey req); t_SignatureAlgorithm := ca_SignatureAlgorithm ca;
     t_KeyUsage := Z.lor KeyUsageDigitalSignature KeyUsageKeyAgreement;
     t_ExtKeyUsage := [ExtKeyUsageClientAuth; ExtKeyUsageServerAuth];
     t_UnknownExtKeyUsage := [ExtendedKeyUsage_IDENTITY_CERTIFICATE];
     t_DNSNames := []; t_IPAddresses := []; t_URIs := []; t_EmailAddresses := []; t_ExtraExtensions := [];
     t_CRLDistributionPoints := s_crlDistributionPoints s; t_BasicConstraintsValid := false; t_IsCA := false;
     t_MaxPathLen := 0; t_MaxPathLenZero := false |}.
Definition identity_Sign (s : Signer) (csr : string) : GM string :=
  now ← time_Now;
  window ← lift (identity_window s now);
  certificateRequest ← lift (ParseAndCheckCertificateRequest csr);
  match s_caCert s with
  | [] => fail (ErrText "cannot sign with empty signer CA certificates")
  | ca :: _ =>
      serialNumber ← rand_Int serialNumberLimit;
      signedCsr ← x509_CreateCertificate (identity_template s window ca certificateRequest serialNumber)
                    (Some ca) (req_PublicKey certificateRequest) (s_caKey s);
      mret (CreatePemChain (s_caCert s) signedCsr)
  end.

Definition basic_template (s : Signer) (ca : Cert) (req : CertificateRequest) (serialNumber : Z) : CertTemplate :=
  {| t_SerialNumber := serialNumber; t_NotBefore := s_validNotBefore s; t_NotAfter := s_validNotAfter s;
     t_Subject := req_Subject req; t_PublicKeyAlgorithm := req_PublicKeyAlgorithm req;
     t_PublicKey := Some (req_PublicKey req); t_SignatureAlgorithm := ca_SignatureAlgorithm ca;
     t_KeyUsage := 0; t_ExtKeyUsage := []; t_UnknownExtKeyUsage := [];
     t_DNSNames := req_DNSNames req; t_IPAddresses := req_IPAddresses req; t_URIs := req_URIs req;
     t_EmailAddresses := req_EmailAddresses req; t_ExtraExtensions := req_Extensions req;
     t_CRLDistributionPoints := s_crlDistributionPoints s; t_BasicConstraintsValid := false; t_IsCA := false;
     t_MaxPathLen := 0; t_MaxPathLenZero := false |}.
Definition basic_Sign (s : Signer) (csr : string) : GM string :=
  certificateRequest ← lift (ParseAndCheckCertificateRequest csr);
  match s_caCert s with
  | [] => fail (ErrText "cannot sign with empty signer CA certificates")
  | ca :: _ =>
      serialNumber ← rand_Int serialNumberLimit;
      signedCsr ← x509_CreateCertificate (basic_template s ca certificateRequest serialNumber)
                    (Some ca) (req_PublicKey certificateRequest) (s_caKey s);
      mret (CreatePemChain (s_caCert s) signedCsr)
  end.

(** ** Requests *)

Definition ASN1KeyUsage : oid := [2; 5; 29; 15].
Definition ASN1BasicConstraints : oid := [2; 5; 29; 19].
Definition ASN1ExtKeyUsage : oid := [2; 5; 29; 37].
Definition identity_bits : BitString := ([Z.lor (Z.shiftl 1 3) (Z.shiftl 1 7)], 7).
Definition NewIdentityCSRTemplate (deviceID : string) : result CsrTemplate :=
  val ← asn1_Marshal_oids [[1; 3; 6; 1; 5; 5; 7; 3; 1]; [1; 3; 6; 1; 5; 5; 7; 3; 2]; [1; 3; 6; 1; 4; 1; 44924; 1; 6]];
  bcVal ← asn1_Marshal_bool false;
  kuVal ← asn1_Marshal_bits identity_bits;
  Ok {| ct_Subject := name_of ("uuid:" +:+ deviceID);
        ct_ExtraExtensions :=
          [{| ext_Id := ASN1BasicConstraints; ext_Value := bcVal |};
           {| ext_Id := ASN1KeyUsage; ext_Value := kuVal |};
           {| ext_Id := ASN1ExtKeyUsage; ext_Value := val |}];
        ct_SignatureAlgorithm := 0; ct_DNSNames := []; ct_IPAddresses := [] |}.
Definition GenerateIdentityCSR (cfg : Configuration) (deviceID : string) (privateKey : PrivateKey) : GM string :=
  template ← lift (NewIdentityCSRTemplate deviceID);
  signatureAlgorithm ← lift (ToSignatureAlgorithm cfg);
  let subj := set_CommonName (pn_CommonName (ct_Subject template)) (ToPkixName cfg) in
  let template := {| ct_Subject := subj; ct_ExtraExtensions := ct_ExtraExtensions template;
                     ct_SignatureAlgorithm := signatureAlgorithm; ct_DNSNames := ct_DNSNames template;
                     ct_IPAddresses := ct_IPAddresses template |} in
  csrDER ← x509_CreateCertificateRequest template privateKey;
  mret (pem_Encode "CERTIFICATE REQUEST" csrDER).

Definition csr_extensions (cfg : Configuration) : result (list Extension) :=
  bc ← (if negb (bc_Ignore cfg)
        then bcVal ← asn1_Marshal_bool false; Ok [{| ext_Id := ASN1BasicConstraints; ext_Value := bcVal |}]
        else Ok []);
  keyUsages ← AsnKeyUsages cfg;
  ku ← (if 0 <? keyUsages.2
        then val ← asn1_Marshal_bits keyUsages; Ok [{| ext_Id := ASN1KeyUsage; ext_Value := val |}]
        else Ok []);
  extensionKeyUsages ← AsnExtensionKeyUsages cfg;
  eku ← (if (0 <? length extensionKeyUsages)%nat
         then val ← asn1_Marshal_oids extensionKeyUsages; Ok [{| ext_Id := ASN1ExtKeyUsage; ext_Value := val |}]
         else Ok []);
  Ok (bc ++ ku ++ eku).
Definition GenerateCSR (cfg : Configuration) (privateKey : PrivateKey) : GM string :=
  let subj := ToPkixName cfg in
  ips ← lift (ToIPAddresses cfg);
  signatureAlgorithm ← lift (ToSignatureAlgorithm cfg);
  extraExtensions ← lift (csr_extensions cfg);
  csrDER ← x509_CreateCertificateRequest
    {| ct_Subject := subj; ct_ExtraExtensions := extraExtensions; ct_SignatureAlgorithm := signatureAlgorithm;
       ct_DNSNames := san_DNSNames cfg; ct_IPAddresses := ips |} privateKey;
  mret (pem_Encode "CERTIFICATE REQUEST" csrDER).

(** ** Certificates *)

Definition GenerateIdentityCert (cfg : Configuration) (deviceID : string) (privateKey : PrivateKey)
    (signerCA : list Cert) (signerCAKey : PrivateKey) : GM string :=
  csr ← GenerateIdentityCSR cfg deviceID privateKey;
  notBefore ← ToValidFrom cfg;
  let notAfter := notBefore + ValidFor cfg in
  crlDistributionPoints ← lift (ToCRLDistributionPoints cfg);
  s ← lift (NewOCFIdentityCertificate signerCA signerCAKey notBefore notAfter crlDistributionPoints);
  identity_Sign s csr.
Definition GenerateCert (cfg : Configuration) (privateKey : PrivateKey) (signerCA : list Cert)
    (signerCAKey : PrivateKey) : GM string :=
  csr ← GenerateCSR cfg privateKey;
  notBefore ← ToValidFrom cfg;
  let notAfter := notBefore + ValidFor cfg in
  crlDistributionPoints ← lift (ToCRLDistributionPoints cfg);
  s ← lift (NewBasicCertificateSigner signerCA signerCAKey notBefore notAfter crlDistributionPoints);
  basic_Sign s csr.

Definition newCert (cfg : Configuration) (isRootCA : bool) : GM CertTemplate :=
  notBefore ← ToValidFrom cfg;
  signatureAlgorithm ← lift (ToSignatureAlgorithm cfg);
  let notAfter := notBefore + ValidFor cfg in
  serialNumber ← wrap_err (ErrWrap "failed to generate serial number") (rand_Int serialNumberLimit);
  crlDistributionPoints ← (if negb isRootCA then lift (ToCRLDistributionPoints cfg) else mret []);
  mret {| t_SerialNumber := serialNumber; t_NotBefore := notBefore; t_NotAfter := notAfter;
          t_Subject := ToPkixName cfg; t_PublicKeyAlgorithm := 0; t_PublicKey := None;
          t_SignatureAlgorithm := signatureAlgorithm;
          t_KeyUsage := Z.lor KeyUsageCertSign KeyUsageCRLSign; t_ExtKeyUsage := []; t_UnknownExtKeyUsage := [];
          t_DNSNames := []; t_IPAddresses := []; t_URIs := []; t_EmailAddresses := []; t_ExtraExtensions := [];
          t_CRLDistributionPoints := crlDistributionPoints; t_BasicConstraintsValid := true; t_IsCA := true;
          t_MaxPathLen := if 0 <? bc_MaxPathLen cfg then bc_MaxPathLen cfg else 0;
          t_MaxPathLenZero := bc_MaxPathLen cfg =? 0 |}.
Definition GenerateRootCA (cfg : Configuration) (privateKey : PrivateKey) : GM string :=
  cacert ← newCert cfg true;
  der ← x509_CreateCertificate cacert None (public_key privateKey) privateKey;
  mret (pem_Encode "CERTIFICATE" der).
(** [signerCA[0]] panics when there is none. *)
Definition GenerateIntermediateCA (cfg : Configuration) (privateKey : PrivateKey) (signerCA : list Cert)
    (signerCAKey : PrivateKey) : GM string :=
  cacert ← newCert cfg false;
  match signerCA with
  | [] => fail (ErrText "runtime error: index out of range")
  | ca :: _ =>
      der ← x509_CreateCertificate cacert (Some ca) (public_key privateKey) signerCAKey;
      mret (CreatePemChain signerCA der)
  end.
End Generate.
