(* ===== verification/CloudManager.v ===== *)
(** * CloudManager: the event handlers and the cloud protocol

    [src/bridge/device/cloud]: connection, sign-up, sign-in, token refresh,
    publication and removal of resources, reset with sign-off, and the handlers
    of the trigger, timer and done channels.

    The goroutine of the event loop is the monad [M] over [World].  The network,
    the clock and the callbacks of the device are the class [CloudEnv]: its
    answers are arbitrary functions of an arbitrary environment state.  Every
    call that blocks (the dial and each request) is followed by the API calls
    that other goroutines made in the meantime ([env_calls]), so the theorems
    cover those interleavings.  [w_trace] records the observable effects. *)

From S2P Require Export CloudState.

(** ** Environment *)

Class CloudEnv `{HX509 : X509} := {
  Env : Type;
  env_now : Env → Z * Env;                                        (** [time.Now] *)
  env_token : Env → result string * Env;                         (** [message.GetToken] *)
  env_ca_pool : Env → result CertPool * Env;                      (** [caPool.GetPool] *)
  env_dial : string → (Z → list string → result unit) → Env → result nat * Env;
                                         (** [tcp.Dial] with [VerifyPeerCertificate] *)
  env_alive : nat → Env → bool;                     (** [cc.Context().Err() == nil] *)
  env_close : nat → Env → result unit * Env;                      (** [conn.Close] *)
  env_do : nat → Message → Env → result Message * Env;            (** [client.Do] *)
  env_ctx_err : Env → option error;                               (** [ctx.Err] *)
  env_links : Env → ResourceLinks;              (** [getLinks], the published links *)
  env_order : Env → gset string → list string;  (** the order of a map iteration *)
  env_calls : Env → list ApiCall * Env }.       (** API calls during a blocking call *)

(** A map iteration visits each key once. *)
Class CloudEnvLaws `{CloudEnv} := {
  env_order_perm : ∀ e X, env_order e X ≡ₚ elements X }.

Inductive Event :=
  | EvDial (addr : string)
  | EvClose (conn : nat)
  | EvReq (conn : nat) (req : Message)
  | EvSave
  | EvRemoveCAs (cloudIDs : list string)
  | EvDetach.

(** Errors of the package. *)
Definition ErrMissingAccessToken := ErrText "access token missing".
Definition ErrMissingAuthorizationCode := ErrText "authorization code missing".
Definition ErrMissingAuthorizationProvider := ErrText "authorization provider missing".
Definition errCannotSignIn (e : error) := ErrWrap2 (ErrText "cannot sign in") e.
Definition errCannotSignUp (e : error) := ErrWrap2 (ErrText "cannot sign up") e.
Definition errCannotSignOff (e : error) := ErrWrap2 (ErrText "cannot sign off") e.
Definition errCannotRefreshToken (e : error) := ErrWrap2 (ErrText "cannot refresh token") e.
Definition errCannotPublishResources (e : error) := ErrWrap2 (ErrText "cannot publish resources") e.
Definition errCannotUnpublishResources (e : error) :=
  ErrWrap2 (ErrText "cannot unpublish resources") e.
Definition ErrNoConnection := ErrText "no connection".
Definition ErrUnexpectedCode := ErrText "unexpected status code".
(** Not an error of the code: the bound on the unpublish loop was reached. *)
Definition ErrOutOfFuel := ErrText "model: out of fuel".

(** ** Pure parts *)

Definition MakeSignInRequest (deviceID userID accessToken : string) : result CoapSignInRequest :=
  if bool_decide (accessToken = "") then Err ErrMissingAccessToken
  else Ok {| si_DeviceID := deviceID; si_UserID := userID; si_AccessToken := accessToken;
             si_Login := true |}.

Definition MakeSignUpRequest (deviceID code provider : string) : result CoapSignUpRequest :=
  if bool_decide (code = "") then Err ErrMissingAuthorizationCode
  else if bool_decide (provider = "") then Err ErrMissingAuthorizationProvider
  else Ok {| su_DeviceID := deviceID; su_AuthorizationCode := code;
             su_AuthorizationProvider := provider |}.

(** The saturation of [Time.Sub]. *)
Definition sat64 (z : Z) : Z := Z.max (- 2 ^ 63) (Z.min (2 ^ 63 - 1) z).
Definition second : Z := 1000000000.

Definition validUntil (now expiresIn : Z) : Z :=
  if expiresIn =? -1 then 0 else now + i64 (expiresIn * second).

(** [isCredsExpiring], with the two readings of the clock. *)
Definition isCredsExpiring_at (tickInterval validUntil now1 now2 : Z) : bool :=
  if validUntil =? 0 then false
  else
    let diff := sat64 (validUntil - now1) in
    if diff <? i64 (tickInterval * 2) then true
    else now2 >? validUntil + Z.quot (- diff) 3.

Fixpoint patchDeviceLink (links : ResourceLinks) : ResourceLinks :=
  match links with
  | [] => []
  | link :: links' => if HasType link device_ResourceType then set_Href oic_d link :: links'
                      else link :: patchDeviceLink links'
  end.

Definition getInstanceID (href : string) : Z := crc32_ieee href.

Definition toQuery (deviceID : string) (hrefs : list string) : string :=
  foldl (fun buf href => buf +:+ "&ins=" +:+ format_uint (getInstanceID href))
    ("di=" +:+ deviceID) hrefs.

(** The loop of [popReadyToUnpublishResources] over the map in iteration order. *)
Fixpoint pop_loop (hrefs : list string) (count : nat) (toUnpublish : list string)
    (ready : gset string) : list string * gset string :=
  match hrefs, count with
  | [], _ | _, O => (toUnpublish, ready)
  | href :: hrefs', S count' => pop_loop hrefs' count' (toUnpublish ++ [href]) (ready ∖ {[href]})
  end.

Definition getLinksToPublish_of (links : ResourceLinks) (resourcesPublished : bool)
    (readyResources : option (gset string)) : ResourceLinks :=
  let ready := default ∅ readyResources in
  if resourcesPublished && bool_decide (ready = ∅) then []
  else
    let links := patchDeviceLink links in
    if negb resourcesPublished then links
    else List.filter (fun l => bool_decide (Href l ∈ ready)) links.

Definition getResourceTypesFilter (queries : list string) : list string :=
  str_drop 3 <$> List.filter (fun q => (3 <? String.length q)%nat && has_prefix "rt=" q) queries.

Definition inFilterSupportedCodes (code : Z) : bool :=
  (code =? POST) || (code =? PUT) || (code =? DELETE) || (code =? GET).

Section Manager.
Context `{HKit : Kit} `{HUuid : Uuids}.
Context `{HC1 : Cbor Configuration} `{HC2 : Cbor ConfigurationUpdateRequest}.
Context `{HC3 : Cbor CoapSignUpRequest} `{HC4 : Cbor CoapSignUpResponse}.
Context `{HC5 : Cbor CoapSignInRequest} `{HC6 : Cbor CoapSignInResponse}.
Context `{HC7 : Cbor CoapRefreshTokenRequest} `{HC8 : Cbor CoapRefreshTokenResponse}.
Context `{HC9 : Cbor PublishResourcesRequest}.
Context `{HEnv : CloudEnv}.
(** The device ID, the tick interval, and the bound on the unpublish loop. *)
Context (deviceID : UUID) (tickInterval : Z) (loop_fuel : nat).

Record World := { w_m : Manager; w_env : Env; w_trace : list Event }.

(** ** The monad of the event-loop goroutine *)

Abbreviation M := (ME World).
Definition getm {A} (f : Manager → A) : M A := gets (fun w => f (w_m w)).
Definition upd (f : Manager → Manager) : M unit :=
  modify (fun w => {| w_m := f (w_m w); w_env := w_env w; w_trace := w_trace w |}).
Definition emit (ev : Event) : M unit :=
  modify (fun w => {| w_m := w_m w; w_env := w_env w; w_trace := w_trace w ++ [ev] |}).
Definition ask {A} (f : Env → A * Env) : M A :=
  fun w => let '(a, e) := f (w_env w) in
           (Ok a, {| w_m := w_m w; w_env := e; w_trace := w_trace w |}).
(** The API calls of other goroutines during a blocking call. *)
Definition interfere : M unit :=
  fun w => let '(calls, e) := env_calls (w_env w) in
           (Ok tt, {| w_m := foldl (fun m c => api_call c m) (w_m w) calls;
                      w_env := e; w_trace := w_trace w |}).

Definition now : M Z := ask env_now.
Definition save : M unit := emit EvSave.
Definition client_Do (conn : nat) (req : Message) : M Message :=
  emit (EvReq conn req);; r ← ask (env_do conn req); interfere;; lift r.

(** ** Connection *)

Definition replaceClient (client : option nat) : M (option nat) :=
  old ← getm m_client;
  upd (fun m => set_m_client client (set_m_signedIn false m));;
  mret old.

Definition close : M unit :=
  old ← replaceClient None;
  match old with
  | None => mret tt
  | Some conn => emit (EvClose conn);; r ← ask (env_close conn); lift r
  end.

(** The callback given to [NewVerifyPeerCertificate]. *)
Definition verifyPeer (cloudID : string) (cert : Certificate) : result unit :=
  match uuid_Parse cloudID with
  | Err e => Err (ErrWrap "cannot parse cloudID" e)
  | Ok id => VerifyCloudCertificate cert id
  end.

Definition client_alive (cc : option nat) : M bool :=
  gets (fun w => match cc with Some c => env_alive c (w_env w) | None => false end).

Definition dial : M unit :=
  cc ← getm m_client;
  alive ← client_alive cc;
  if alive : bool then mret tt
  else
    catch close;;
    cfg ← getm m_cfg;
    pool ← ask env_ca_pool;
    caPool ← wrap_err (ErrWrap "cannot get ca pool") (lift pool);
    addr ← wrap_err (ErrWrap "cannot get address")
             (lift (Endpoint_GetAddr {| URI := cfg_URL cfg; Priority := 0 |}));
    emit (EvDial (addr_String addr));;
    r ← ask (env_dial (addr_String addr)
               (NewVerifyPeerCertificate caPool (Some (verifyPeer (cfg_CloudID cfg)))));
    interfere;;
    conn ← wrap_err (ErrWrap "cannot dial") (lift r);
    _ ← replaceClient (Some conn);
    mret tt.

(** ** Requests ([request.go]) *)

Definition newRequestWithToken (uri : string) : M Message :=
  t ← ask env_token;
  token ← lift t;
  mret (set_path uri (set_token (Some token) NewMessage)).

Definition newPostRequest {A} `{Cbor A} (uri : string) (data : A) : M Message :=
  req ← newRequestWithToken uri;
  inputCbor ← lift (cbor_Encode data);
  mret (set_body inputCbor (set_format AppOcfCbor (set_code POST req))).

Definition newDeleteRequest (uri : string) : M Message :=
  req ← newRequestWithToken uri;
  mret (set_code DELETE req).

Definition newSignOffReq (userID : string) : M Message :=
  req ← newRequestWithToken SignUp_uri;
  mret (add_query ("uid=" +:+ userID) (add_query ("di=" +:+ deviceID) (set_code DELETE req))).

(** ** Reset and sign-off *)

Definition signOff : M unit :=
  client ← getm m_client;
  match client with
  | None => fail (errCannotSignOff ErrNoConnection)
  | Some conn =>
      ctxErr ← gets (fun w => env_ctx_err (w_env w));
      match ctxErr with
      | Some e => fail (errCannotSignOff e)
      | None =>
          creds ← getm m_creds;
          req ← wrap_err errCannotSignOff (newSignOffReq (UserID creds));
          upd (setProvisioningStatus DEREGISTERING);;
          resp ← catch (client_Do conn req);
          (* the deferred status change runs on every path from here *)
          upd (setProvisioningStatus UNINITIALIZED);;
          match resp with
          | Err e => fail (errCannotSignOff e)
          | Ok resp => if m_code resp =? codes_Deleted then mret tt
                       else fail (errCannotSignOff ErrUnexpectedCode)
          end
      end
  end.

Definition popPreviousCloudIDs : M (list string) :=
  ids ← getm m_previousCloudIDs; upd (set_m_previousCloudIDs []);; mret ids.
Definition removePreviousCloudIDs : M unit :=
  ids ← popPreviousCloudIDs; emit (EvRemoveCAs ids).

Definition resetCredentials (so : bool) : M unit :=
  (if so then catch signOff;; mret tt else mret tt);;
  upd (setCreds zero_creds);;
  upd (set_m_resourcesPublished false);;
  upd (set_m_forceRefreshToken false);;
  upd (set_m_reconnect false);;
  catch close;;
  save;;
  removePreviousCloudIDs.

Definition cleanup : M unit :=
  upd (setCloudConfiguration zero_update);;
  resetCredentials false;;
  upd (triggerRunner false).

(** ** Sign-up, sign-in, refresh *)

Definition signUp : M unit :=
  creds ← getm m_creds;
  if negb (bool_decide (AccessToken creds = "")) then mret tt
  else
    cfg ← getm m_cfg;
    signUpRequest ← wrap_err errCannotSignUp
      (lift (MakeSignUpRequest deviceID (cfg_AuthorizationCode cfg) (cfg_AuthorizationProvider cfg)));
    client ← getm m_client;
    match client with
    | None => fail (errCannotSignOff ErrNoConnection)
    | Some conn =>
        req ← wrap_err errCannotSignUp (newPostRequest SignUp_uri signUpRequest);
        upd (setProvisioningStatus REGISTERING);;
        resp ← wrap_err errCannotSignUp (client_Do conn req);
        if negb (m_code resp =? codes_Changed) then fail (errCannotSignUp ErrUnexpectedCode)
        else
          signUpResp ← wrap_err errCannotSignUp
            (lift (ReadFrom (A:=CoapSignUpResponse) (m_body resp)));
          t ← now;
          upd (setCreds {| AccessToken := AccessToken signUpResp; UserID := UserID signUpResp;
                           RefreshToken := RefreshToken signUpResp;
                           RedirectURI := RedirectURI signUpResp;
                           ExpiresIn := ExpiresIn signUpResp;
                           ValidUntil := validUntil t (ExpiresIn signUpResp) |});;
          save
    end.

Definition updateCredsBySignInResponse (expiresIn until : Z) (m : Manager) : Manager :=
  let c := m_creds m in
  set_m_signedIn true
    (set_m_creds {| AccessToken := AccessToken c; UserID := UserID c;
                    RefreshToken := RefreshToken c; RedirectURI := RedirectURI c;
                    ExpiresIn := expiresIn; ValidUntil := until |} m).

Definition signIn : M unit :=
  client ← getm m_client;
  match client with
  | None => fail (errCannotSignIn ErrNoConnection)
  | Some conn =>
      signedIn ← getm m_signedIn;
      if signedIn : bool then mret tt
      else
        creds ← getm m_creds;
        signInReq ← wrap_err errCannotSignIn
          (lift (MakeSignInRequest deviceID (UserID creds) (AccessToken creds)));
        req ← wrap_err errCannotSignIn (newPostRequest SignIn_uri signInReq);
        upd (setProvisioningStatus REGISTERING);;
        resp ← wrap_err errCannotSignIn (client_Do conn req);
        if negb (m_code resp =? codes_Changed)
        then
          (if m_code resp =? codes_Unauthorized
           then if bool_decide (RefreshToken creds = "") then cleanup
                else upd (set_m_forceRefreshToken true)
           else mret tt);;
          fail (errCannotSignIn ErrUnexpectedCode)
        else
          signInResp ← wrap_err errCannotSignIn
            (lift (ReadFrom (A:=CoapSignInResponse) (m_body resp)));
          t ← now;
          upd (updateCredsBySignInResponse (sir_ExpiresIn signInResp)
                 (validUntil t (sir_ExpiresIn signInResp)));;
          save
  end.

Definition updateCredsByRefreshTokenResponse (r : CoapRefreshTokenResponse) (until : Z)
    (m : Manager) : Manager :=
  let c := m_creds m in
  set_m_signedIn false
    (set_m_creds {| AccessToken := rfr_AccessToken r; UserID := UserID c;
                    RefreshToken := rfr_RefreshToken r; RedirectURI := RedirectURI c;
                    ExpiresIn := ExpiresIn c; ValidUntil := until |} m).

Definition refreshToken : M unit :=
  creds ← getm m_creds;
  if bool_decide (RefreshToken creds = "") then mret tt
  else
    client ← getm m_client;
    match client with
    | None => fail (errCannotRefreshToken ErrNoConnection)
    | Some conn =>
        req ← wrap_err errCannotRefreshToken
          (newPostRequest RefreshToken_uri
             {| rf_DeviceID := deviceID; rf_UserID := UserID creds;
                rf_RefreshToken := RefreshToken creds |});
        upd (setProvisioningStatus REGISTERING);;
        resp ← wrap_err errCannotRefreshToken (client_Do conn req);
        if negb (m_code resp =? codes_Changed)
        then
          (if m_code resp =? codes_Unauthorized then cleanup else mret tt);;
          fail (errCannotRefreshToken ErrUnexpectedCode)
        else
          refreshResp ← wrap_err errCannotRefreshToken
            (lift (ReadFrom (A:=CoapRefreshTokenResponse) (m_body resp)));
          t ← now;
          upd (updateCredsByRefreshTokenResponse refreshResp
                 (validUntil t (rfr_ExpiresIn refreshResp)));;
          save
    end.

(** ** Publication *)

Definition popReadyToPublishResources : M (option (gset string)) :=
  res ← getm m_readyToPublish; upd (set_m_readyToPublish None);; mret res.

Definition publishResources : M unit :=
  readyResources ← popReadyToPublishResources;
  published ← getm m_resourcesPublished;
  all ← gets (fun w => env_links (w_env w));
  let links := getLinksToPublish_of all published readyResources in
  match links with
  | [] => mret tt
  | _ =>
      client ← getm m_client;
      match client with
      | None => fail (errCannotPublishResources ErrNoConnection)
      | Some conn =>
          req ← wrap_err errCannotPublishResources
            (newPostRequest ResourceDirectory_uri
               {| pub_DeviceID := deviceID; pub_Links := links; pub_TimeToLive := 0 |});
          resp ← wrap_err errCannotPublishResources (client_Do conn req);
          if negb (m_code resp =? codes_Changed)
          then fail (errCannotPublishResources ErrUnexpectedCode)
          else upd (set_m_resourcesPublished true)
      end
  end.

Definition unpublish_limit : nat := 10.

Definition popReadyToUnpublishResources (count : nat) : M (list string) :=
  ready ← getm m_readyToUnpublish;
  order ← gets (fun w => env_order (w_env w) (default ∅ ready));
  let '(l, rest) := pop_loop order count [] (default ∅ ready) in
  upd (set_m_readyToUnpublish (if bool_decide (rest = ∅) then None else Some rest));;
  mret l.

Fixpoint unpublish_loop (fuel : nat) : M unit :=
  match fuel with
  | O => fail ErrOutOfFuel
  | S f =>
      readyResources ← popReadyToUnpublishResources unpublish_limit;
      match readyResources with
      | [] => mret tt
      | _ =>
          client ← getm m_client;
          match client with
          | None => fail (errCannotUnpublishResources ErrNoConnection)
          | Some conn =>
              req ← wrap_err errCannotUnpublishResources (newDeleteRequest ResourceDirectory_uri);
              let req := add_query (toQuery deviceID readyResources) req in
              resp ← wrap_err errCannotUnpublishResources (client_Do conn req);
              if negb (m_code resp =? codes_Deleted)
              then fail (errCannotUnpublishResources ErrUnexpectedCode)
              else unpublish_loop f
          end
      end
  end.
Definition unpublishResources : M unit := unpublish_loop loop_fuel.

(** ** The connection sequence and the event handlers *)

Definition isCredsExpiring : M bool :=
  creds ← getm m_creds;
  if ValidUntil creds =? 0 then mret false
  else t1 ← now; t2 ← now; mret (isCredsExpiring_at tickInterval (ValidUntil creds) t1 t2).

Fixpoint run_steps (funcs : list (M unit)) : M unit :=
  match funcs with
  | [] => mret tt
  | f :: funcs' =>
      r ← catch f;
      match r with
      | Ok _ => run_steps funcs'
      | Err e => catch close;; fail e
      end
  end.

Definition connect : M unit :=
  expiring ← isCredsExpiring;
  force ← getm m_forceRefreshToken;
  let refresh := (expiring : bool) || (force : bool) in
  when refresh (upd (set_m_forceRefreshToken false));;
  dial;;
  run_steps ((if refresh then [refreshToken] else []) ++
             [signUp; signIn; publishResources; unpublishResources]).

Definition connect_and_register : M unit :=
  r ← catch connect;
  match r with
  | Ok _ => upd (setProvisioningStatus REGISTERED)
  | Err _ => mret tt
  end.

Definition handleTrigger (wantToReset : bool) : M unit :=
  when wantToReset (resetCredentials true);;
  reconnect ← getm m_reconnect;
  if reconnect : bool then upd (set_m_reconnect false);; catch close;; mret tt
  else
    initialized ← getm isInitialized;
    if negb initialized then upd resetPublishing
    else
      signedIn ← getm m_signedIn;
      when (negb signedIn) (upd resetPublishing);;
      connect_and_register.

Definition handleTimer : M unit :=
  cfg ← getm m_cfg;
  if bool_decide (cfg_URL cfg = "") then mret tt else connect_and_register.

(** The handler of the done channel: the handlers leave the loop. *)
Definition handleDone : M unit :=
  catch close;; upd (set_m_removed true);; emit EvDetach.

Definition Init (m : Manager) : Manager := if isInitialized m then triggerRunner false m else m.

(** ** The running system: API calls and events of the loop, in any order *)

Inductive Label := LApi (c : ApiCall) | LTrigger (reset : bool) | LTimer | LDone.

Inductive step : World → Label → World → Prop :=
  | step_api w c :
      step w (LApi c)
        {| w_m := api_call c (w_m w); w_env := w_env w; w_trace := w_trace w |}
  | step_trigger w b rest w' :
      m_trigger (w_m w) = b :: rest → m_removed (w_m w) = false →
      w' = (handleTrigger b {| w_m := set_m_trigger rest (w_m w); w_env := w_env w;
                               w_trace := w_trace w |}).2 →
      step w (LTrigger b) w'
  | step_timer w : m_removed (w_m w) = false → step w LTimer (handleTimer w).2
  | step_done w :
      m_doneClosed (w_m w) = true → m_removed (w_m w) = false → step w LDone (handleDone w).2.

End Manager.
