(* ===== verification/BridgeDevice.v ===== *)
(** * BridgeDevice: a bridged device

    [src/bridge/device/device.go], [config.go] and the constructors of the
    built-in resources under [src/bridge/resources]: the table of resources, the
    links a device announces, the dispatch of requests, and how changes of the
    table reach the cloud client.

    The handlers of the resources are the class [ResourceEnv]; the iteration order
    of the table is arbitrary. *)

From S2P Require Import Credential BridgeResource BridgeResourceProps CloudManager.

Class ResourceOrder := res_order : gmap string Resource → list (string * Resource).
Class ResourceOrderLaws `{ResourceOrder} := res_order_perm : ∀ m, res_order m ≡ₚ map_to_list m.

(** ** Configuration *)

Record Config := {
  cfg_ID : UUID;
  cfg_DeviceName : string;
  cfg_ProtocolIndependentID : UUID;
  cfg_DeviceTypes : list string;
  cfg_MaxMessageSize : Z;
  cfg_CloudEnabled : bool;
  cfg_Cloud : CloudState.Config;
  cfg_CredentialEnabled : bool;
  cfg_Credential : Credential.Config }.

Definition set_ID_Name (id : UUID) (name : string) (c : Config) : Config :=
  {| cfg_ID := id; cfg_DeviceName := name;
     cfg_ProtocolIndependentID := cfg_ProtocolIndependentID c; cfg_DeviceTypes := cfg_DeviceTypes c;
     cfg_MaxMessageSize := cfg_MaxMessageSize c;
     cfg_CloudEnabled := cfg_CloudEnabled c; cfg_Cloud := cfg_Cloud c;
     cfg_CredentialEnabled := cfg_CredentialEnabled c; cfg_Credential := cfg_Credential c |}.
Definition set_DeviceTypes (rts : list string) (c : Config) : Config :=
  {| cfg_ID := cfg_ID c; cfg_DeviceName := cfg_DeviceName c;
     cfg_ProtocolIndependentID := cfg_ProtocolIndependentID c; cfg_DeviceTypes := rts;
     cfg_MaxMessageSize := cfg_MaxMessageSize c;
     cfg_CloudEnabled := cfg_CloudEnabled c; cfg_Cloud := cfg_Cloud c;
     cfg_CredentialEnabled := cfg_CredentialEnabled c; cfg_Credential := cfg_Credential c |}.
Definition set_parts (ce : bool) (cl : CloudState.Config) (re : bool) (cr : Credential.Config)
    (c : Config) : Config :=
  {| cfg_ID := cfg_ID c; cfg_DeviceName := cfg_DeviceName c;
     cfg_ProtocolIndependentID := cfg_ProtocolIndependentID c; cfg_DeviceTypes := cfg_DeviceTypes c;
     cfg_MaxMessageSize := cfg_MaxMessageSize c;
     cfg_CloudEnabled := ce; cfg_Cloud := cl; cfg_CredentialEnabled := re; cfg_Credential := cr |}.

(** [newID] is the result of [uuid.New]. *)
Definition Config_Validate (newID : UUID) (cfg : Config) : result Config :=
  if bool_decide (cfg_ProtocolIndependentID cfg = uuid_Nil)
  then Err (ErrText "protocolIndependentID is required")
  else
    let id := if bool_decide (cfg_ID cfg = uuid_Nil) then newID else cfg_ID cfg in
    let name := if bool_decide (cfg_DeviceName cfg = "") then "Unnamed" else cfg_DeviceName cfg in
    Ok (set_ID_Name id name cfg).

(** ** Built-in resources *)

Definition OC_IF_BASELINE : string := "oic.if.baseline".
Definition OC_IF_R : string := "oic.if.r".
Definition OC_IF_RW : string := "oic.if.rw".
Definition set_mask (mask : BitMask) (r : Resource) : Resource :=
  set_observe_fields mask (r_hasSubscription r) (r_loop r) r.

(** [d.PolicyBitMask &= ^resources.PublishToCloud]. *)
Definition dont_publish (r : Resource) : Resource :=
  set_mask (Z.land (r_PolicyBitMask r) (wnot 8 PublishToCloud)) r.
(** The handlers of the built-in resources capture the device. *)
Definition of_device (id : UUID) (href : string) : Captured := {| cap_device := id; cap_href := href |}.
Definition credentialResource_New (id : UUID) (etag : Z) : Resource :=
  dont_publish (NewResource "/oic/sec/cred" (of_device id "/oic/sec/cred") true true ["oic.r.cred"] [OC_IF_BASELINE; OC_IF_RW] etag).
Definition cloudResource_New (id : UUID) (etag : Z) : Resource :=
  dont_publish (NewResource "/CoapCloudConfResURI" (of_device id "/CoapCloudConfResURI") true true ["oic.r.coapcloudconf"]
                  [OC_IF_BASELINE; OC_IF_RW] etag).
Definition thingDescriptionResource_New (id : UUID) (etag : Z) : Resource :=
  NewResource "/.well-known/wot" (of_device id "/.well-known/wot") true false ["wot.thing"] [OC_IF_BASELINE; OC_IF_R] etag.
Definition resourcesDevice_New (id : UUID) (types : list string) (etag : Z) : Resource :=
  NewResource oic_d (of_device id oic_d) true false types [OC_IF_BASELINE; OC_IF_R] etag.
Definition discovery_New (id : UUID) (etag : Z) : Resource :=
  NewResource oic_res (of_device id oic_res) true false ["oic.wk.res"] [OC_IF_BASELINE; OC_IF_R] etag.
Definition maintenance_New (id : UUID) (etag : Z) : Resource :=
  NewResource "/oic/mnt" (of_device id "/oic/mnt") true true ["oic.wk.mnt"] [OC_IF_BASELINE; OC_IF_RW] etag.

(** ** The device *)

Record Device := {
  d_cfg : Config;
  d_resources : gmap string Resource;
  d_cloudManager : option CloudState.Manager;
  d_credentialManager : option (gmap Z Credential);
  d_thingDescription : option bool;   (** whether the manager is closed *)
  d_runLoop : bool;
  d_doneClosed : bool;
  d_stopped : bool }.

Definition set_resources (x : gmap string Resource) (d : Device) : Device :=
  {| d_cfg := d_cfg d; d_resources := x; d_cloudManager := d_cloudManager d;
     d_credentialManager := d_credentialManager d; d_thingDescription := d_thingDescription d;
     d_runLoop := d_runLoop d; d_doneClosed := d_doneClosed d; d_stopped := d_stopped d |}.
Definition set_cloudManager (x : option CloudState.Manager) (d : Device) : Device :=
  {| d_cfg := d_cfg d; d_resources := d_resources d; d_cloudManager := x;
     d_credentialManager := d_credentialManager d; d_thingDescription := d_thingDescription d;
     d_runLoop := d_runLoop d; d_doneClosed := d_doneClosed d; d_stopped := d_stopped d |}.
Definition set_credentialManager (x : option (gmap Z Credential)) (d : Device) : Device :=
  {| d_cfg := d_cfg d; d_resources := d_resources d; d_cloudManager := d_cloudManager d;
     d_credentialManager := x; d_thingDescription := d_thingDescription d;
     d_runLoop := d_runLoop d; d_doneClosed := d_doneClosed d; d_stopped := d_stopped d |}.
Definition set_thingDescription (x : option bool) (d : Device) : Device :=
  {| d_cfg := d_cfg d; d_resources := d_resources d; d_cloudManager := d_cloudManager d;
     d_credentialManager := d_credentialManager d; d_thingDescription := x;
     d_runLoop := d_runLoop d; d_doneClosed := d_doneClosed d; d_stopped := d_stopped d |}.
Definition set_stopped (done stopped : bool) (d : Device) : Device :=
  {| d_cfg := d_cfg d; d_resources := d_resources d; d_cloudManager := d_cloudManager d;
     d_credentialManager := d_credentialManager d; d_thingDescription := d_thingDescription d;
     d_runLoop := d_runLoop d; d_doneClosed := done; d_stopped := stopped |}.

Definition publishable (r : Resource) : bool :=
  negb (Z.land (r_PolicyBitMask r) PublishToCloud =? 0).

Definition AddResources (resource : list Resource) (d : Device) : Device :=
  let '(res, publishResources) :=
    foldl (fun '(res, pub) r =>
        (<[r_Href r := r]> res,
         if bool_decide (is_Some (d_cloudManager d)) && publishable r then pub ++ [r_Href r] else pub))
      (d_resources d, []) resource in
  let d := set_resources res d in
  match d_cloudManager d with
  | Some m => set_cloudManager (Some (PublishResources publishResources m)) d
  | None => d
  end.

Definition hasResourceTypes (resourceTypes oneOf : list string) : bool :=
  existsb (fun rt => existsb (fun rrt => bool_decide (rt = rrt)) resourceTypes) oneOf.

Section Links.
Context `{HOrder : ResourceOrder}.

(** The body of the [Range] callback. *)
Definition link_of (d : Device) (endpoints : Endpoints) (key : string) (r : Resource) : ResourceLink :=
  {| ID := ""; Href := key; ResourceTypes := r_types r; Interfaces := r_ResourceInterfaces r;
     LinkPolicy := Some {| Policy_BitMask := Z.land (r_PolicyBitMask r) (wnot 8 PublishToCloud);
                           UDPPort := 0; TCPPort := 0; TCPTLSPort := 0; Secured := None |};
     LinkEndpoints := endpoints; Anchor := ""; LinkDeviceID := cfg_ID (d_cfg d); InstanceID := 0;
     Title := ""; SupportedContentTypes := [] |}.
Definition selected (types : list string) (mask : BitMask) (r : Resource) : bool :=
  if (0 <? length types)%nat && negb (hasResourceTypes (r_types r) types) then false
  else if negb (mask =? 0) && (Z.land (r_PolicyBitMask r) mask =? 0) then false
  else true.

Definition GetLinksFilteredBy (endpoints : Endpoints) (deviceIDfilter : UUID)
    (resourceTypesFitler : list string) (policyBitMaskFitler : BitMask) (d : Device) : ResourceLinks :=
  let di := deviceIDfilter in
  if negb (bool_decide (di = uuid_Nil)) && negb (bool_decide (di = cfg_ID (d_cfg d))) then []
  else
    foldl (fun links kr =>
        if selected resourceTypesFitler policyBitMaskFitler kr.2
        then links ++ [link_of d endpoints kr.1 kr.2] else links)
      [] (res_order (d_resources d)).

Definition GetLinks `{HUuid : Uuids} (request : Request) (d : Device) : ResourceLinks :=
  GetLinksFilteredBy (req_Endpoints request) (DeviceID request) (Request_ResourceTypes request) 0 d.
End Links.

Definition LoadAndDeleteResource (resourceHref : string) (d : Device) : option Resource * Device :=
  (d_resources d !! resourceHref, set_resources (delete resourceHref (d_resources d)) d).

(** The subscriptions that [Close] of a resource cancels, and the closed resource. *)
Definition close_resource (r : Resource) : list nat * Resource :=
  if r_closed r then ([], r) else ((map_to_list (r_subs r)).*2, set_closed true r).

Definition CloseAndDeleteResource (resourceHref : string) (d : Device) : bool * list nat * Device :=
  match LoadAndDeleteResource resourceHref d with
  | (None, d) => (false, [], d)
  | (Some r, d) =>
      let '(cancelled, _) := close_resource r in
      let d := match d_cloudManager d with
               | Some m => if publishable r
                           then set_cloudManager (Some (UnpublishResources [resourceHref] m)) d else d
               | None => d
               end in
      (true, cancelled, d)
  end.

Definition createResponseNotFound (uri : string) (token : option string) : Message :=
  set_body ("uri " +:+ uri +:+ " not found") (set_token token (set_code codes_NotFound NewMessage)).

Section Requests.
Context `{HREnv : ResourceEnv}.

Record DWorld := { dw_d : Device; dw_env : REnv; dw_trace : list REvent }.

Definition HandleRequest (req : Request) (w : DWorld) : result (option Message) * DWorld :=
  let uri := URIPath req in
  match d_resources (dw_d w) !! uri with
  | None => (Ok (Some (createResponseNotFound uri (m_token (req_msg req)))), w)
  | Some res =>
      let (resp, rw) := BridgeResource.HandleRequest req
                          {| rw_r := res; rw_env := dw_env w; rw_trace := dw_trace w |} in
      (resp, {| dw_d := set_resources (<[uri := rw_r rw]> (d_resources (dw_d w))) (dw_d w);
                dw_env := rw_env rw; dw_trace := rw_trace rw |})
  end.
End Requests.

(** ** Construction and closing *)

Record OptionsCfg := {
  o_caPoolValid : bool;               (** validity of the pool of the application *)
  o_getThingDescription : bool;
  o_runLoop : bool }.

Section New.
Context `{HCred : CredEnv}.
(** Entity tags of the new resources, and the fuel of the credential manager. *)
Context (etag : string → Z) (fuel : nat).

Definition New (cfg : Config) (o : OptionsCfg) : result Device :=
  let cfg := set_DeviceTypes (Unique (cfg_DeviceTypes cfg ++ [device_ResourceType])) cfg in
  let d := {| d_cfg := cfg; d_resources := ∅; d_cloudManager := None; d_credentialManager := None;
              d_thingDescription := None; d_runLoop := o_runLoop o; d_doneClosed := false;
              d_stopped := false |} in
  d ← (if cfg_CredentialEnabled cfg
       then match Credential.New fuel (cfg_Credential cfg) with
            | None => Err (ErrText "model: out of fuel")
            | Some cm => Ok (AddResources [credentialResource_New (cfg_ID cfg) (etag "/oic/sec/cred")]
                               (set_credentialManager (Some cm) d))
            end
       else Ok d);
  (* the pool of the credential manager is valid *)
  let caPoolValid := cfg_CredentialEnabled cfg || o_caPoolValid o in
  d ← (if cfg_CloudEnabled cfg
       then match CloudState.New caPoolValid (cfg_Cloud cfg) with
            | Err err => Err (ErrWrap "cannot create cloud manager" err)
            | Ok cm => Ok (AddResources [cloudResource_New (cfg_ID cfg) (etag "/CoapCloudConfResURI")]
                             (set_cloudManager (Some cm) d))
            end
       else Ok d);
  let d := if o_getThingDescription o
           then set_thingDescription (Some false)
                  (AddResources [SetObserveHandler true true
                     (thingDescriptionResource_New (cfg_ID cfg) (etag "/.well-known/wot"))] d)
           else d in
  let d := AddResources [resourcesDevice_New (cfg_ID cfg) (cfg_DeviceTypes cfg) (etag oic_d)] d in
  let d := AddResources [set_mask Discoverable (discovery_New (cfg_ID cfg) (etag oic_res))] d in
  Ok (AddResources [maintenance_New (cfg_ID cfg) (etag "/oic/mnt")] d).

Definition ExportConfig (d : Device) : Config :=
  let cfg := d_cfg d in
  let '(ce, cl) := match d_cloudManager d with
                   | Some m => (cfg_CloudEnabled cfg, CloudState.ExportConfig m)
                   | None => (false, cfg_Cloud cfg) end in
  let '(re, cr) := match d_credentialManager d with
                   | Some m => (cfg_CredentialEnabled cfg, Credential.ExportConfig m)
                   | None => (false, cfg_Credential cfg) end in
  set_parts ce cl re cr cfg.

(** The state after [Close] and the subscriptions it cancelled. *)
Definition Close (d : Device) : list nat * Device :=
  if d_stopped d then ([], d)
  else
    let d := set_stopped (d_doneClosed d) true d in
    let d := set_cloudManager (CloudState.Close <$> d_cloudManager d) d in
    let d := set_credentialManager (Credential.Close <$> d_credentialManager d) d in
    let d := set_thingDescription ((fun _ => true) <$> d_thingDescription d) d in
    let cancelled := mjoin ((fun kr => (close_resource kr.2).1) <$> map_to_list (d_resources d)) in
    let d := set_resources ∅ d in
    let d := if d_runLoop d then set_stopped true true d else d in
    (cancelled, d).
End New.

(** ** Properties *)

Lemma foldl_filter {A B} (f : A → bool) (g : A → B) l acc :
  foldl (fun acc x => if f x then acc ++ [g x] else acc) acc l = acc ++ (g <$> List.filter f l).
Proof.
  revert acc. induction l as [|x l IH]; intros acc; simpl; [by rewrite app_nil_r|].
  rewrite IH. destruct (f x); [|done]. by rewrite <- app_assoc.
Qed.

Lemma hasResourceTypes_spec types oneOf :
  hasResourceTypes types oneOf = true ↔ ∃ rt, rt ∈ types ∧ rt ∈ oneOf.
Proof.
  unfold hasResourceTypes. rewrite existsb_exists. split.
  - intros (rt & Hin & (rrt & Hin' & E%bool_decide_eq_true)%existsb_exists). subst rrt.
    exists rt. by rewrite !list_elem_of_In.
  - intros (rt & Ht & Ho). exists rt. rewrite <- list_elem_of_In. split; [done|].
    apply existsb_exists. exists rt. rewrite <- list_elem_of_In. by rewrite bool_decide_true.
Qed.

Section Props.
Context `{HOrder : ResourceOrder} `{!ResourceOrderLaws}.

Lemma GetLinksFilteredBy_eq endpoints di types mask d :
  (di = uuid_Nil ∨ di = cfg_ID (d_cfg d)) →
  GetLinksFilteredBy endpoints di types mask d =
    (fun kr => link_of d endpoints kr.1 kr.2) <$>
      List.filter (fun kr => selected types mask kr.2) (res_order (d_resources d)).
Proof.
  intros Hdi. unfold GetLinksFilteredBy.
  assert (negb (bool_decide (di = uuid_Nil)) && negb (bool_decide (di = cfg_ID (d_cfg d))) = false)
    as ->.
  { destruct Hdi as [Hdi|Hdi]; rewrite (bool_decide_true _ Hdi); [done | apply andb_false_r]. }
  apply (foldl_filter (fun kr : string * Resource => selected types mask kr.2)
    (fun kr => link_of d endpoints kr.1 kr.2)).
Qed.

(** The links of a device: asked for another device there are none; otherwise
    there is exactly one link for each resource that has one of the requested
    types, if any, and one of the requested policy bits, if any; it carries the
    resource's reference, types, interfaces and policy without the internal
    publication bit. *)
Theorem GetLinksFilteredBy_spec endpoints di types mask d :
  let links := GetLinksFilteredBy endpoints di types mask d in
  NoDup (Href <$> links) ∧
  ∀ l, l ∈ links ↔
    (di = uuid_Nil ∨ di = cfg_ID (d_cfg d)) ∧
    ∃ r, d_resources d !! Href l = Some r ∧ l = link_of d endpoints (Href l) r ∧
      (types = [] ∨ ∃ rt, rt ∈ r_types r ∧ rt ∈ types) ∧
      (mask = 0 ∨ Z.land (r_PolicyBitMask r) mask ≠ 0).
Proof.
  intros links.
  destruct (decide (di = uuid_Nil ∨ di = cfg_ID (d_cfg d))) as [Hdi|Hdi].
  2:{ unfold links, GetLinksFilteredBy. rewrite !bool_decide_false by tauto. simpl.
      split; [constructor|]. intros l. split; [by intros ?%elem_of_nil | tauto]. }
  unfold links. rewrite GetLinksFilteredBy_eq by done. split.
  - rewrite <- list_fmap_compose.
    change (Href ∘ (λ kr : string * Resource, link_of d endpoints kr.1 kr.2))
      with (fst : string * Resource → string).
    assert (NoDup (res_order (d_resources d)).*1) as Hnd.
    { rewrite (res_order_perm (d_resources d)). apply NoDup_fst_map_to_list. }
    revert Hnd. generalize (res_order (d_resources d)). induction l as [|kr l IH]; simpl; [constructor|].
    intros [Hk Hl]%NoDup_cons. specialize (IH Hl). destruct (selected types mask kr.2); [|done].
    simpl. constructor; [|done]. intros ([k r] & E & [Hin _]%list_elem_of_In%filter_In)%list_elem_of_fmap.
    apply Hk, list_elem_of_fmap. exists (k, r). rewrite list_elem_of_In. done.
  - assert (∀ r, selected types mask r = true ↔
      (types = [] ∨ ∃ rt, rt ∈ r_types r ∧ rt ∈ types) ∧
      (mask = 0 ∨ Z.land (r_PolicyBitMask r) mask ≠ 0)) as Hsel.
    { intros r. unfold selected. pose proof (hasResourceTypes_spec (r_types r) types) as Hht.
      assert ((0 <? length types)%nat = false ↔ types = []) as Hnil.
      { rewrite Nat.ltb_ge. destruct types; simpl; [done|]. split; [lia|done]. }
      destruct (0 <? length types)%nat, (hasResourceTypes (r_types r) types),
        (Z.eqb_spec mask 0), (Z.eqb_spec (Z.land (r_PolicyBitMask r) mask) 0); simpl;
        intuition (try congruence). }
    intros l. rewrite list_elem_of_fmap. split.
    + intros ([k r] & -> & [Hin Hs]%list_elem_of_In%filter_In). split; [done|]. exists r. cbn.
      apply list_elem_of_In in Hin. rewrite res_order_perm in Hin. apply elem_of_map_to_list in Hin.
      split_and!; try done; by apply Hsel.
    + intros (_ & r & Hr & Hl & Hs). exists (Href l, r). split; [done|].
      apply list_elem_of_In, filter_In. split; [|by apply Hsel].
      apply list_elem_of_In. rewrite res_order_perm. by apply elem_of_map_to_list.
Qed.
End Props.

Lemma foldl_publish f hrefs m :
  f = (fun m href => set_m_readyToUnpublish (set_remove href (m_readyToUnpublish m))
         (set_m_readyToPublish (set_add href (m_readyToPublish m)) m)) →
  default ∅ (m_readyToPublish (foldl f m hrefs)) = default ∅ (m_readyToPublish m) ∪ list_to_set hrefs ∧
  default ∅ (m_readyToUnpublish (foldl f m hrefs)) =
    default ∅ (m_readyToUnpublish m) ∖ list_to_set hrefs.
Proof.
  intros ->. revert m. induction hrefs as [|h hs IH]; intros m; simpl; [split; set_solver|].
  destruct (IH (set_m_readyToUnpublish (set_remove h (m_readyToUnpublish m))
         (set_m_readyToPublish (set_add h (m_readyToPublish m)) m))) as [-> ->]. simpl.
  unfold set_remove. destruct (m_readyToUnpublish m); simpl; split; set_solver.
Qed.
Lemma triggerRunner_ready b m :
  m_readyToPublish (triggerRunner b m) = m_readyToPublish m ∧
  m_readyToUnpublish (triggerRunner b m) = m_readyToUnpublish m.
Proof. unfold triggerRunner. by destruct (_ <? _)%nat. Qed.
Lemma PublishResources_sets hrefs m :
  default ∅ (m_readyToPublish (PublishResources hrefs m)) =
    default ∅ (m_readyToPublish m) ∪ list_to_set hrefs ∧
  default ∅ (m_readyToUnpublish (PublishResources hrefs m)) =
    default ∅ (m_readyToUnpublish m) ∖ list_to_set hrefs.
Proof.
  unfold PublishResources.
  match goal with |- context [triggerRunner false ?x] => destruct (triggerRunner_ready false x) as [-> ->] end.
  match goal with |- context [foldl ?f ?m0 hrefs] =>
    destruct (foldl_publish f hrefs m0 eq_refl) as [-> ->] end. done.
Qed.
Lemma foldl_unpublish f hrefs m :
  f = (fun m href => set_m_readyToPublish (set_remove href (m_readyToPublish m))
         (set_m_readyToUnpublish (set_add href (m_readyToUnpublish m)) m)) →
  default ∅ (m_readyToUnpublish (foldl f m hrefs)) = default ∅ (m_readyToUnpublish m) ∪ list_to_set hrefs ∧
  default ∅ (m_readyToPublish (foldl f m hrefs)) = default ∅ (m_readyToPublish m) ∖ list_to_set hrefs.
Proof.
  intros ->. revert m. induction hrefs as [|h hs IH]; intros m; simpl; [split; set_solver|].
  destruct (IH (set_m_readyToPublish (set_remove h (m_readyToPublish m))
         (set_m_readyToUnpublish (set_add h (m_readyToUnpublish m)) m))) as [-> ->]. simpl.
  unfold set_remove. destruct (m_readyToPublish m); simpl; split; set_solver.
Qed.
Lemma UnpublishResources_sets hrefs m :
  default ∅ (m_readyToUnpublish (UnpublishResources hrefs m)) =
    default ∅ (m_readyToUnpublish m) ∪ list_to_set hrefs ∧
  default ∅ (m_readyToPublish (UnpublishResources hrefs m)) =
    default ∅ (m_readyToPublish m) ∖ list_to_set hrefs.
Proof.
  unfold UnpublishResources.
  match goal with |- context [triggerRunner false ?x] => destruct (triggerRunner_ready false x) as [-> ->] end.
  match goal with |- context [foldl ?f ?m0 hrefs] =>
    destruct (foldl_unpublish f hrefs m0 eq_refl) as [-> ->] end. done.
Qed.

(** The table after storing resources: the last one of a reference wins. *)
Definition store_all (rs : list Resource) (m : gmap string Resource) : gmap string Resource :=
  foldl (fun m r => <[r_Href r := r]> m) m rs.
(** The references of the publishable resources. *)
Definition publishable_hrefs (rs : list Resource) : list string := r_Href <$> List.filter publishable rs.

Lemma AddResources_eq rs d :
  AddResources rs d =
    let d' := set_resources (store_all rs (d_resources d)) d in
    match d_cloudManager d with
    | Some m => set_cloudManager (Some (PublishResources (publishable_hrefs rs) m)) d'
    | None => d'
    end.
Proof.
  unfold AddResources.
  assert (∀ l m pub, foldl (fun '(res, pub) r =>
      (<[r_Href r := r]> res,
       if bool_decide (is_Some (d_cloudManager d)) && publishable r then pub ++ [r_Href r] else pub))
      (m, pub) l =
    (store_all l m, pub ++ (if bool_decide (is_Some (d_cloudManager d)) then publishable_hrefs l else []))) as H.
  { unfold publishable_hrefs. induction l as [|r l IH]; intros m pub; cbn [foldl].
    - destruct (bool_decide _); by rewrite app_nil_r.
    - rewrite IH. unfold store_all at 1. cbn [foldl]. f_equal. cbn [List.filter].
      destruct (bool_decide _), (publishable r); simpl; rewrite <- ?app_assoc; done. }
  rewrite H. cbn [app d_cloudManager set_resources].
  destruct (d_cloudManager d) as [m|] eqn:E; [by rewrite bool_decide_true by eauto|done].
Qed.

(** Adding resources to a device with a cloud client: the table maps each
    reference to the last resource added under it; exactly the references of the
    publishable resources are scheduled for publication, and none of them stays
    scheduled for removal. *)
Theorem AddResources_spec rs d m :
  d_cloudManager d = Some m → NoDup (r_Href <$> rs) →
  ∃ m', let d' := AddResources rs d in
    d_cloudManager d' = Some m' ∧
    (∀ k, d_resources d' !! k =
       match List.find (fun r => bool_decide (r_Href r = k)) rs with
       | Some r => Some r | None => d_resources d !! k end) ∧
    (∀ h, h ∈ default ∅ (m_readyToPublish m') ↔
       h ∈ default ∅ (m_readyToPublish m) ∨ ∃ r, r ∈ rs ∧ publishable r = true ∧ r_Href r = h) ∧
    (∀ h, h ∈ default ∅ (m_readyToUnpublish m') ↔
       h ∈ default ∅ (m_readyToUnpublish m) ∧ ¬ ∃ r, r ∈ rs ∧ publishable r = true ∧ r_Href r = h).
Proof.
  intros Hm Hnd. rewrite AddResources_eq, Hm. eexists. split; [done|].
  assert (∀ h, h ∈ publishable_hrefs rs ↔ ∃ r, r ∈ rs ∧ publishable r = true ∧ r_Href r = h) as Hpub.
  { intros h. unfold publishable_hrefs. rewrite list_elem_of_fmap. split.
    - intros (r & -> & [Hin Hp]%list_elem_of_In%filter_In). exists r. by rewrite list_elem_of_In.
    - intros (r & Hin & Hp & <-). exists r. split; [done|].
      apply list_elem_of_In, filter_In. by rewrite <- list_elem_of_In. }
  destruct (PublishResources_sets (publishable_hrefs rs) m) as [Hp Hu]. split_and!.
  - simpl. intros k. clear Hpub Hp Hu. unfold store_all. generalize (d_resources d).
    induction rs as [|r rs IH]; intros t; [done|]. cbn [foldl List.find].
    cbn in Hnd. apply NoDup_cons in Hnd as [Hr Hnd]. rewrite IH by done.
    destruct (decide (r_Href r = k)) as [<-|Hk].
    + rewrite bool_decide_true by done.
      destruct (List.find (fun r0 => bool_decide (r_Href r0 = r_Href r)) rs) as [r0|] eqn:E;
        [|by rewrite lookup_insert_eq].
      apply List.find_some in E as [Hin E%bool_decide_eq_true]. exfalso. apply Hr.
      rewrite <- E. apply list_elem_of_fmap. exists r0. by rewrite list_elem_of_In.
    + rewrite bool_decide_false by done. by rewrite lookup_insert_ne.
  - intros h. simpl. rewrite Hp, elem_of_union, elem_of_list_to_set, Hpub. done.
  - intros h. simpl. rewrite Hu, elem_of_difference, elem_of_list_to_set, Hpub. done.
Qed.

(** Deleting a resource: without one under the reference nothing changes;
    otherwise it leaves the table, its subscriptions are cancelled, and a
    publishable one is scheduled for removal from the cloud and no longer for
    publication. *)
Theorem CloseAndDeleteResource_spec href d :
  let '(found, cancelled, d') := CloseAndDeleteResource href d in
  match d_resources d !! href with
  | None => found = false ∧ cancelled = [] ∧ d_resources d' = d_resources d ∧
            d_cloudManager d' = d_cloudManager d
  | Some r =>
      found = true ∧ d_resources d' = delete href (d_resources d) ∧
      (r_closed r = false → ∀ id, id ∈ cancelled ↔ ∃ k, r_subs r !! k = Some id) ∧
      match d_cloudManager d with
      | Some m =>
          ∃ m', d_cloudManager d' = Some m' ∧
          if publishable r
          then href ∈ default ∅ (m_readyToUnpublish m') ∧ href ∉ default ∅ (m_readyToPublish m') ∧
               ∀ h, h ≠ href →
                 (h ∈ default ∅ (m_readyToUnpublish m') ↔ h ∈ default ∅ (m_readyToUnpublish m)) ∧
                 (h ∈ default ∅ (m_readyToPublish m') ↔ h ∈ default ∅ (m_readyToPublish m))
          else m' = m
      | None => d_cloudManager d' = None
      end
  end.
Proof.
  unfold CloseAndDeleteResource, LoadAndDeleteResource.
  destruct (d_resources d !! href) as [r|] eqn:E.
  - unfold close_resource.
    assert (∀ id, id ∈ (map_to_list (r_subs r)).*2 ↔ ∃ k, r_subs r !! k = Some id) as Hsub.
    { intros id. rewrite list_elem_of_fmap. split.
      - intros ([k i] & -> & Hin). exists k. by apply elem_of_map_to_list.
      - intros [k Hk]. exists (k, id). split; [done|]. by apply elem_of_map_to_list. }
    destruct (r_closed r) eqn:Hc; simpl; destruct (d_cloudManager d) as [m|] eqn:Hm;
      simpl; try destruct (publishable r); simpl; split_and!; try done;
      try (eexists; split; [done|]); try done;
      destruct (UnpublishResources_sets [href] m) as [Hu Hp]; rewrite Hu, Hp; set_solver.
  - rewrite delete_id by done. done.
Qed.

(** Requests: one for a path without a resource is answered 4.04 under the
    request's token and changes nothing; any other is handled by the resource of
    that path, and changes no other resource. *)
Theorem HandleRequest_routes `{HREnv : ResourceEnv} req w :
  let (resp, w') := HandleRequest req w in
  match d_resources (dw_d w) !! URIPath req with
  | None => w' = w ∧ ∃ m, resp = Ok (Some m) ∧ m_code m = codes_NotFound ∧
                          m_token m = m_token (req_msg req)
  | Some r =>
      resp = (BridgeResource.HandleRequest req
                {| rw_r := r; rw_env := dw_env w; rw_trace := dw_trace w |}).1 ∧
      (∀ k, k ≠ URIPath req → d_resources (dw_d w') !! k = d_resources (dw_d w) !! k) ∧
      d_cloudManager (dw_d w') = d_cloudManager (dw_d w)
  end.
Proof.
  unfold HandleRequest. destruct (d_resources (dw_d w) !! URIPath req) as [r|] eqn:E.
  - destruct (BridgeResource.HandleRequest _ _) as [resp rw]. simpl. split_and!; try done.
    intros k Hk. by rewrite lookup_insert_ne.
  - split; [done|]. by eexists.
Qed.

(** Equality of sets given by their elements. *)
Ltac sets_eq :=
  apply set_eq; intros ?x; cbn [app list_to_set foldr];
  repeat match goal with |- context [publishable ?r] => 
    let b := eval vm_compute in (publishable r) in change (publishable r) with b end; cbv iota;
  rewrite ?elem_of_union, ?elem_of_singleton, ?elem_of_empty; cbn [r_Href]; tauto.

Section Construction.
Context `{HCred : CredEnv}.

(** A new device with a cloud client: it has the device, discovery and
    maintenance resources and, as enabled, the cloud, credential and thing
    description resources; and of these exactly the device, maintenance and thing
    description resources are scheduled for publication, so the security and cloud
    resources are never announced to the cloud. *)
Theorem New_publishes etag fuel cfg o d :
  New etag fuel cfg o = Ok d → cfg_CloudEnabled cfg = true →
  ∃ m, d_cloudManager d = Some m ∧
    default ∅ (m_readyToPublish m) = list_to_set
      ((if o_getThingDescription o then ["/.well-known/wot"] else []) ++ [oic_d; "/oic/mnt"]) ∧
    default ∅ (m_readyToUnpublish m) = ∅ ∧
    dom (d_resources d) = list_to_set
      ((if cfg_CredentialEnabled cfg then ["/oic/sec/cred"] else []) ++ ["/CoapCloudConfResURI"] ++
       (if o_getThingDescription o then ["/.well-known/wot"] else []) ++ [oic_d; oic_res; "/oic/mnt"]).
Proof.
  intros HN Hc. unfold New in HN. cbv zeta in HN.
  apply bind_Ok_inv in HN as (d1 & Hd1 & HN).
  assert (d_cloudManager d1 = None ∧ dom (d_resources d1) = list_to_set
    (if cfg_CredentialEnabled cfg then ["/oic/sec/cred"] else [])) as [Hm1 Hr1].
  { cbn [cfg_CredentialEnabled set_DeviceTypes] in Hd1. destruct (cfg_CredentialEnabled cfg).
    - destruct (Credential.New _ _) as [cm|]; [|done]. injection Hd1 as <-.
      rewrite AddResources_eq. split; [done|]. cbn -[credentialResource_New]. rewrite dom_insert_L.
      by rewrite dom_empty_L.
    - injection Hd1 as <-. by split. }
  clear Hd1. apply bind_Ok_inv in HN as (d2 & Hd2 & HN).
  cbn [cfg_CloudEnabled set_DeviceTypes] in Hd2. rewrite Hc in Hd2.
  destruct (CloudState.New _ _) as [cm|e] eqn:Ecm; [|done]. injection Hd2 as <-. injection HN as <-.
  assert (m_readyToPublish cm = None ∧ m_readyToUnpublish cm = None) as [Hp Hu].
  { unfold CloudState.New in Ecm. destruct (negb _); [done|]. injection Ecm as <-.
    unfold importConfig, setCloudConfiguration. simpl. by case_bool_decide. }
  set (d2 := AddResources _ (set_cloudManager (Some cm) d1)).
  (* one more resource *)
  assert (∀ r d0 m P X, d_cloudManager d0 = Some m → default ∅ (m_readyToPublish m) = P →
    default ∅ (m_readyToUnpublish m) = ∅ → dom (d_resources d0) = X →
    ∃ m', d_cloudManager (AddResources [r] d0) = Some m' ∧
      default ∅ (m_readyToPublish m') = P ∪ (if publishable r then {[r_Href r]} else ∅) ∧
      default ∅ (m_readyToUnpublish m') = ∅ ∧
      dom (d_resources (AddResources [r] d0)) = X ∪ {[r_Href r]}) as Hadd.
  { intros r d0 m P X H1 H2 H3 H4. rewrite AddResources_eq, H1. cbv zeta. eexists. split; [done|].
    destruct (PublishResources_sets (publishable_hrefs [r]) m) as [-> ->]. rewrite H2, H3.
    unfold publishable_hrefs. cbn [List.filter]. split_and!.
    - destruct (publishable r); simpl; set_solver.
    - set_solver.
    - simpl. rewrite dom_insert_L, H4. set_solver. }
  destruct (Hadd (cloudResource_New (cfg_ID cfg) (etag "/CoapCloudConfResURI")) (set_cloudManager (Some cm) d1) cm
    ∅ (dom (d_resources d1)) eq_refl) as (m2 & Hm2 & Hp2 & Hu2 & Hr2); [by rewrite Hp | by rewrite Hu | done|].
  fold d2 in Hm2, Hr2. rewrite Hr1 in Hr2.
  assert (∃ d3 m3, d3 = (if o_getThingDescription o then set_thingDescription (Some false)
      (AddResources [SetObserveHandler true true
         (thingDescriptionResource_New (cfg_ID cfg) (etag "/.well-known/wot"))] d2) else d2) ∧
    d_cloudManager d3 = Some m3 ∧ default ∅ (m_readyToPublish m3) =
      (if o_getThingDescription o then {["/.well-known/wot"]} else ∅) ∧
    default ∅ (m_readyToUnpublish m3) = ∅ ∧ dom (d_resources d3) =
      list_to_set (if cfg_CredentialEnabled cfg then ["/oic/sec/cred"] else []) ∪
      {["/CoapCloudConfResURI"]} ∪ (if o_getThingDescription o then {["/.well-known/wot"]} else ∅))
    as (d3 & m3 & Hd3 & Hm3 & Hp3 & Hu3 & Hr3).
  { destruct (o_getThingDescription o).
    - destruct (Hadd (SetObserveHandler true true
        (thingDescriptionResource_New (cfg_ID cfg) (etag "/.well-known/wot"))) d2 m2 _ _ Hm2 Hp2 Hu2 Hr2)
        as (m3 & Hm3 & Hp3 & Hu3 & Hr3).
      eexists _, m3. split; [done|]. split; [done|]. split; [|split; [done|]].
      + rewrite Hp3. vm_compute (publishable _). set_solver.
      + exact Hr3.
    - exists d2, m2. split_and!; try done. rewrite Hr2. set_solver. }
  rewrite <- Hd3. clear Hd3.
  destruct (Hadd (resourcesDevice_New (cfg_ID cfg) (cfg_DeviceTypes (set_DeviceTypes
    (Unique (cfg_DeviceTypes cfg ++ [device_ResourceType])) cfg)) (etag oic_d)) d3 m3 _ _ Hm3 Hp3 Hu3 Hr3)
    as (m4 & Hm4 & Hp4 & Hu4 & Hr4).
  destruct (Hadd (set_mask Discoverable (discovery_New (cfg_ID cfg) (etag oic_res))) _ m4 _ _ Hm4 Hp4 Hu4 Hr4)
    as (m5 & Hm5 & Hp5 & Hu5 & Hr5).
  destruct (Hadd (maintenance_New (cfg_ID cfg) (etag "/oic/mnt")) _ m5 _ _ Hm5 Hp5 Hu5 Hr5)
    as (m6 & Hm6 & Hp6 & Hu6 & Hr6).
  exists m6. split; [exact Hm6|]. split; [|split; [exact Hu6|]].
  - rewrite Hp6. by destruct (o_getThingDescription o); sets_eq.
  - etransitivity; [exact Hr6|].
    by destruct (o_getThingDescription o), (cfg_CredentialEnabled cfg); sets_eq.
Qed.

Lemma cancelled_all d k r i id :
  d_resources d !! k = Some r → r_closed r = false → r_subs r !! i = Some id →
  id ∈ mjoin ((fun kr => (close_resource kr.2).1) <$> map_to_list (d_resources d)).
Proof.
  intros Hk Hc Hi. apply list_elem_of_join. exists (map_to_list (r_subs r)).*2. split.
  - apply list_elem_of_fmap. exists (i, id). split; [done|]. by apply elem_of_map_to_list.
  - apply list_elem_of_fmap. exists (k, r). split; [|by apply elem_of_map_to_list].
    unfold close_resource. cbn [snd]. by rewrite Hc.
Qed.

(** Closing a device: the first call closes the cloud client, forgets the
    credentials, empties the table and cancels every open subscription of its
    resources; any further call changes nothing. *)
Theorem Close_spec d :
  let '(cancelled, d') := Close d in
  d_stopped d' = true ∧ Close d' = ([], d') ∧
  if d_stopped d then d' = d ∧ cancelled = []
  else
    d_resources d' = ∅ ∧ d_cloudManager d' = CloudState.Close <$> d_cloudManager d ∧
    d_credentialManager d' = (fun _ => ∅) <$> d_credentialManager d ∧
    d_doneClosed d' = d_runLoop d || d_doneClosed d ∧
    (∀ k r i id, d_resources d !! k = Some r → r_closed r = false → r_subs r !! i = Some id →
       id ∈ cancelled).
Proof.
  unfold Close at 1. destruct (d_stopped d) eqn:Hs.
  { split_and!; try done. unfold Close. by rewrite Hs. }
  cbn [d_runLoop set_resources set_thingDescription set_credentialManager set_cloudManager set_stopped].
  destruct (d_runLoop d) eqn:Hr; split_and!; try reflexivity.
  all: intros k r i id Hk Hc Hi; by apply (cancelled_all d k r i id).
Qed.
End Construction.

(** ** The properties at concrete inputs *)

Section Examples.
#[local] Instance ex_order : ResourceOrder := map_to_list.
#[local] Instance ex_order_laws : ResourceOrderLaws.
Proof. intros m. reflexivity. Qed.
#[local] Instance ex_dev_CredEnv : CredEnv := {|
  Cert := string; pem_Decode d := (None, ""); x509_ParseCertificates d := Ok []; cred_order m := map_to_list m |}.

Definition ex_dev_cfg : Config :=
  {| cfg_ID := "11111111-2222-3333-4444-555555555555"; cfg_DeviceName := "dev";
     cfg_ProtocolIndependentID := "21111111-2222-3333-4444-555555555555"; cfg_DeviceTypes := []; cfg_MaxMessageSize := 0;
     cfg_CloudEnabled := true;
     cfg_Cloud := {| c_AccessToken := ""; c_UserID := ""; c_RefreshToken := ""; c_ValidUntil := 0;
                     c_AuthorizationProvider := ""; c_CloudID := ""; c_CloudURL := "" |};
     cfg_CredentialEnabled := true;
     cfg_Credential := {| crsp_ResourceOwner := ""; crsp_Interfaces := []; crsp_ResourceTypes := [];
                          crsp_Name := ""; crsp_Credentials := [] |} |}.
Definition ex_opts : OptionsCfg :=
  {| o_caPoolValid := false; o_getThingDescription := true; o_runLoop := true |}.
Definition ex_dev : result Device := New (fun _ => 1) 2 ex_dev_cfg ex_opts.
Definition ex_device : Device :=
  match ex_dev with
  | Ok d => d
  | Err _ => {| d_cfg := ex_dev_cfg; d_resources := ∅; d_cloudManager := None;
                d_credentialManager := None; d_thingDescription := None; d_runLoop := false;
                d_doneClosed := false; d_stopped := false |}
  end.

Lemma GetLinksFilteredBy_spec_witness :
  (Href <$> GetLinksFilteredBy [] uuid_Nil [] PublishToCloud ex_device) ≡ₚ
    ["/.well-known/wot"; "/oic/d"; "/oic/mnt"] ∧
  NoDup (Href <$> GetLinksFilteredBy [] uuid_Nil [] PublishToCloud ex_device).
Proof.
  split; [apply (bool_decide_eq_true_1 _); vm_compute; reflexivity|].
  apply (GetLinksFilteredBy_spec [] uuid_Nil [] PublishToCloud ex_device).
Defined.

Definition ex_light : Resource := NewResource "/light" (of_device "" "/light") true true ["oic.r.light"] [OC_IF_RW] 5.
Lemma AddResources_spec_witness : ∃ m m',
  d_cloudManager ex_device = Some m ∧ d_cloudManager (AddResources [ex_light] ex_device) = Some m' ∧
  "/light" ∈ default ∅ (m_readyToPublish m').
Proof.
  destruct (d_cloudManager ex_device) as [m|] eqn:E; [|discriminate E].
  destruct (AddResources_spec [ex_light] ex_device m E) as (m' & Hm' & _ & Hp & _).
  - apply NoDup_singleton.
  - exists m, m'. split; [reflexivity|]. split; [exact Hm'|]. apply Hp. right. exists ex_light.
    split; [by left|]. split; reflexivity.
Defined.

Lemma New_publishes_witness : ∃ m, d_cloudManager ex_device = Some m ∧
  default ∅ (m_readyToPublish m) = list_to_set ["/.well-known/wot"; "/oic/d"; "/oic/mnt"].
Proof.
  destruct (New_publishes (fun _ => 1) 2 ex_dev_cfg ex_opts ex_device) as (m & Hm & Hp & _).
  - vm_compute. reflexivity.
  - reflexivity.
  - exists m. split; [exact Hm | exact Hp].
Defined.
End Examples.
