(* ===== verification/BridgeReps.v ===== *)
(** * BridgeReps: what the built-in resources of a bridged device answer

    The handlers of [/oic/d] ([src/bridge/resources/device]) with [MergeCBORStructs] of
    [src/bridge/resources/cbor.go], and of [/oic/mnt] ([src/bridge/resources/maintenance])
    with the callback that [src/bridge/device/device.go] gives it; the certificate pool of the
    cloud client ([src/bridge/device/cloud/security.go]); the options of a device and of its
    cloud client ([src/bridge/device/options.go], [cloud/options.go]).

    A CBOR map is a finite map from its keys to the values of the library; a struct is encoded
    as the map of its fields that are not empty, as its tags say. *)

From S2P Require Export Credential BridgeResource CloudManager BridgeDevice Reps.
From S2P Require Import BridgeResourceProps.

(** ** CBOR maps *)

Class CborMaps := {
  Val : Type;
  val_string : string → Val;
  val_strings : list string → Val;
  val_localized : list LocalizedString → Val;
  enc_map : option (gmap string Val) → result string;      (** [None]: a nil map *)
  dec_map : string → result (option (gmap string Val)) }.
(** What was encoded is decoded. *)
Class CborMapLaws `{CborMaps} := {
  dec_enc : ∀ m data, enc_map m = Ok data → dec_map data = Ok m }.

Section Device.
Context `{HMaps : CborMaps}.

(** The keys of [m] override those of [merged]. *)
Definition merge_step (merged v : option (gmap string Val)) : option (gmap string Val) :=
  match enc_map v with
  | Err _ => merged
  | Ok data =>
      match dec_map data with
      | Err _ => merged
      | Ok m => match merged with
                | None => m
                | Some old => Some (default ∅ m ∪ old)
                end
      end
  end.
(** [None] in the list is a nil interface. *)
Definition MergeCBORStructs (a : list (option (option (gmap string Val)))) : option (gmap string Val) :=
  foldl (fun merged v => match v with None => merged | Some v => merge_step merged v end) None a.

(** The fields of a [device.Device] that are not empty. *)
Definition string_field (key v : string) : list (string * Val) :=
  if bool_decide (v = "") then [] else [(key, val_string v)].
Definition strings_field (key : string) (v : list string) : list (string * Val) :=
  match v with [] => [] | _ => [(key, val_strings v)] end.
Definition DeviceRep_fields (d : DeviceRep) : gmap string Val :=
  list_to_map
    (string_field "di" (dev_ID d) ++ strings_field "rt" (dev_ResourceTypes d) ++
     strings_field "if" (dev_Interfaces d) ++ string_field "n" (dev_Name d) ++
     match dev_ManufacturerName d with [] => [] | l => [("dmn", val_localized l)] end ++
     string_field "dmno" (dev_ModelNumber d) ++ string_field "piid" (dev_ProtocolIndependentID d) ++
     string_field "dmv" (dev_DataModelVersion d) ++ string_field "icv" (dev_SpecificationVersion d) ++
     string_field "sv" (dev_SoftwareVersion d) ++ string_field "econame" (dev_EcosystemName d) ++
     string_field "ecoversion" (dev_EcosystemVersion d)).

(** ** [/oic/d] *)

Definition device_properties (d : Device) (r : Resource) (request : Request) : DeviceRep :=
  let baseline := bool_decide (Interface request = OC_IF_BASELINE) in
  {| dev_ID := cfg_ID (d_cfg d);
     dev_ResourceTypes := if baseline then r_types r else [];
     dev_Interfaces := if baseline then r_ResourceInterfaces r else [];
     dev_Name := cfg_DeviceName (d_cfg d);
     dev_ManufacturerName := []; dev_ModelNumber := "";
     dev_ProtocolIndependentID := cfg_ProtocolIndependentID (d_cfg d);
     dev_DataModelVersion := ""; dev_SpecificationVersion := ""; dev_SoftwareVersion := "";
     dev_EcosystemName := ""; dev_EcosystemVersion := "" |}.
(** [additionalProperties] is what the function of the application returns, or [nil]. *)
Definition resourcesDevice_Get (d : Device) (r : Resource) (additionalProperties : option (gmap string Val))
    (request : Request) : result Message :=
  let properties := MergeCBORStructs
    [Some additionalProperties; Some (Some (DeviceRep_fields (device_properties d r request)))] in
  data ← enc_map properties;
  Ok (set_body data (set_format AppOcfCbor (set_code codes_Content NewMessage))).
End Device.

(** ** [/oic/mnt] *)

Section Maintenance.
Context `{HCborV1 : Cbor MaintenanceV1} `{HCborQ : Cbor MaintenanceUpdateRequest} `{HCborM : Cbor Maintenance}.

Definition maintenance_Get (request : Request) : result Message :=
  CreateResponseContent
    {| m1_ResourceTypes := []; m1_Interfaces := []; m1_Name := ""; m1_FactoryReset := Some false;
       m1_Reboot := None; m1_LastHTTPError := None |} codes_Content.
(** The callback that the constructor of the device gives. *)
Definition onFactoryReset (d : Device) : Device :=
  match d_cloudManager d with
  | Some m => set_cloudManager (Some (Unregister m)) d
  | None => d
  end.
Definition maintenance_Post (request : Request) (d : Device) : result Message * Device :=
  match ReadFrom (m_body (req_msg request)) : result MaintenanceUpdateRequest with
  | Err err => (CreateResponseBadRequest err, d)
  | Ok u =>
      let d := if mu_FactoryReset u then onFactoryReset d else d in
      (CreateResponseContent zero_Maintenance codes_Changed, d)
  end.
End Maintenance.

(** ** The certificate pool of the cloud client *)

Section CAPool.
Context `{HCred : CredEnv}.
(** [x509.SystemCertPool]. *)
Context (SystemCertPool : result (list Cert)).

(** [getCAPool] is what the function returns, or [None] for no function; a nil slice is empty. *)
Definition cloud_IsValid (getCAPool : option (option (list Cert))) (useSystemCAPool : bool) : bool :=
  useSystemCAPool || match getCAPool with Some (Some _) => true | _ => false end.
Definition cloud_GetPool (getCAPool : option (option (list Cert))) (useSystemCAPool : bool) : result (list Cert) :=
  pool ← (if useSystemCAPool then
            match SystemCertPool with
            | Err err => Err (ErrWrap "cannot get system pool" err)
            | Ok systemPool => Ok systemPool
            end
          else Ok []);
  match getCAPool with
  | None => Err ErrNilPointer
  | Some cas => Ok (foldl (fun pool ca => pool ++ [ca]) pool (default [] cas))
  end.
Definition cloud_MakeCAPool (getCAPool : option (option (list Cert))) (useSystemCAPool : bool) : CAPoolGetter :=
  {| IsValid := cloud_IsValid getCAPool useSystemCAPool; GetPool := cloud_GetPool getCAPool useSystemCAPool |}.
End CAPool.

(** ** What is answered *)

Section DeviceProps.
Context `{HMaps : CborMaps} `{HLaws : !CborMapLaws}.

Lemma merge_step_ok merged v :
  merge_step merged v =
  if is_ok (enc_map v) then match merged with None => v | Some old => Some (default ∅ v ∪ old) end else merged.
Proof. unfold merge_step. destruct (enc_map v) as [data|e] eqn:E; [|done]. cbn. by rewrite (dec_enc _ _ E). Qed.

(** What the properties of the application contribute. *)
Definition contributed (additional : option (gmap string Val)) : gmap string Val :=
  if is_ok (enc_map additional) then default ∅ additional else ∅.
Lemma merged_two additional fields :
  is_ok (enc_map (Some fields)) = true →
  MergeCBORStructs [Some additional; Some (Some fields)] = Some (fields ∪ contributed additional).
Proof.
  intros Hf. unfold MergeCBORStructs, contributed. cbn [foldl]. rewrite !merge_step_ok, Hf.
  destruct (is_ok (enc_map additional)); [|by rewrite (right_id_L ∅ (∪))].
  destruct additional; cbn; [done|by rewrite (right_id_L ∅ (∪))].
Qed.

Definition own_keys : list string := ["di"; "rt"; "if"; "n"; "piid"].
Lemma fields_lookup (id n piid : string) rt ifs k :
  id ≠ "" → n ≠ "" → piid ≠ "" →
  let fields := DeviceRep_fields
    {| dev_ID := id; dev_ResourceTypes := rt; dev_Interfaces := ifs; dev_Name := n; dev_ManufacturerName := [];
       dev_ModelNumber := ""; dev_ProtocolIndependentID := piid; dev_DataModelVersion := "";
       dev_SpecificationVersion := ""; dev_SoftwareVersion := ""; dev_EcosystemName := ""; dev_EcosystemVersion := "" |} in
  fields !! "di" = Some (val_string id) ∧ fields !! "n" = Some (val_string n) ∧
  fields !! "piid" = Some (val_string piid) ∧ (rt ≠ [] → fields !! "rt" = Some (val_strings rt)) ∧
  (k ∉ own_keys → fields !! k = None).
Proof.
  intros H1 H2 H3. cbv zeta. unfold DeviceRep_fields, string_field, own_keys.
  cbn [dev_ID dev_ResourceTypes dev_Interfaces dev_Name dev_ManufacturerName dev_ModelNumber dev_ProtocolIndependentID
    dev_DataModelVersion dev_SpecificationVersion dev_SoftwareVersion dev_EcosystemName dev_EcosystemVersion].
  rewrite (bool_decide_false (id = "")), (bool_decide_false (n = "")), (bool_decide_false (piid = "")) by done.
  rewrite !(bool_decide_true ("" = "")) by done.
  destruct rt as [|t ts], ifs as [|i is_]; unfold strings_field; cbn [app list_to_map foldr fst snd];
    (split; [by simplify_map_eq|]); (split; [by simplify_map_eq|]); (split; [by simplify_map_eq|]);
    (split; [intros Ht; by simplify_map_eq|]); intros Hk;
    repeat (rewrite lookup_insert_ne by (intros <-; apply Hk; set_solver)); apply lookup_empty.
Qed.

(** The representation of the device: identity, name and protocol-independent identity are
    those of the device, whatever the application adds; the types of the resource are in it
    exactly when the baseline interface is asked for; what the application adds under other
    keys is in it as it is. *)
Lemma resourcesDevice_Get_spec d r additional request m :
  cfg_ID (d_cfg d) ≠ "" → cfg_DeviceName (d_cfg d) ≠ "" → cfg_ProtocolIndependentID (d_cfg d) ≠ "" →
  is_ok (enc_map (Some (DeviceRep_fields (device_properties d r request)))) = true →
  resourcesDevice_Get d r additional request = Ok m →
  m_code m = codes_Content ∧ m_format m = Some AppOcfCbor ∧
  ∃ body props, m_body m = Some body ∧ dec_map body = Ok (Some props) ∧
    props !! "di" = Some (val_string (cfg_ID (d_cfg d))) ∧
    props !! "n" = Some (val_string (cfg_DeviceName (d_cfg d))) ∧
    props !! "piid" = Some (val_string (cfg_ProtocolIndependentID (d_cfg d))) ∧
    (Interface request = OC_IF_BASELINE → r_types r ≠ [] → props !! "rt" = Some (val_strings (r_types r))) ∧
    ∀ k, k ∉ own_keys → props !! k = contributed additional !! k.
Proof.
  intros H1 H2 H3 Hf H. unfold resourcesDevice_Get in H. rewrite merged_two in H by done.
  apply bind_Ok_inv in H as (data & Hd & [= <-]). split; [done|]. split; [done|].
  set (fields := DeviceRep_fields (device_properties d r request)) in *.
  exists data, (fields ∪ contributed additional). split; [done|]. split; [by apply dec_enc|].
  pose proof (fields_lookup _ _ _ (dev_ResourceTypes (device_properties d r request))
    (dev_Interfaces (device_properties d r request)) "" H1 H2 H3) as (E1 & E2 & E3 & E4 & _).
  split; [by apply lookup_union_Some_l|]. split; [by apply lookup_union_Some_l|].
  split; [by apply lookup_union_Some_l|]. split.
  - intros Hb Ht. apply lookup_union_Some_l. assert (Ert : dev_ResourceTypes (device_properties d r request) = r_types r) by (cbn; by rewrite bool_decide_true).
    rewrite <- Ert. apply E4. by rewrite Ert.
  - intros k Hk. apply lookup_union_r. by apply (fields_lookup _ _ _ (dev_ResourceTypes (device_properties d r request))
      (dev_Interfaces (device_properties d r request)) k H1 H2 H3).
Qed.
End DeviceProps.

(** ** The resources behind the dispatch of the device *)

Section Answers.
Context `{HMaps : CborMaps} `{HLaws : !CborMapLaws} `{HREnv : ResourceEnv}.

(** Reading [/oic/d] of a device: the answer has the entity tag of the resource, and its body
    is a CBOR map in which the identity, the name and the protocol-independent identity are
    those of the device, whatever properties the application adds; the resource types are in
    it when the baseline interface is asked for; and the keys that only the application gives
    have its values, or are missing when its properties cannot be encoded. *)
Theorem device_info_answer r additional request w resp w' :
  let d := dw_d w in
  URIPath request = oic_d → m_code (req_msg request) = GET → m_observe (req_msg request) = None →
  d_resources d !! oic_d = Some r → r_hasGet r = true →
  (∀ e, (renv_get (r_captured r) request e).1 = (m ← resourcesDevice_Get d r additional request; Ok (Some m))) →
  cfg_ID (d_cfg d) ≠ "" → cfg_DeviceName (d_cfg d) ≠ "" → cfg_ProtocolIndependentID (d_cfg d) ≠ "" →
  is_ok (enc_map (Some (DeviceRep_fields (device_properties d r request)))) = true →
  BridgeDevice.HandleRequest request w = (Ok resp, w') →
  ∃ m body props, resp = Some (with_etag r m) ∧ m_code m = codes_Content ∧ m_format m = Some AppOcfCbor ∧
    m_body m = Some body ∧ dec_map body = Ok (Some props) ∧
    props !! "di" = Some (val_string (cfg_ID (d_cfg d))) ∧
    props !! "n" = Some (val_string (cfg_DeviceName (d_cfg d))) ∧
    props !! "piid" = Some (val_string (cfg_ProtocolIndependentID (d_cfg d))) ∧
    (Interface request = OC_IF_BASELINE → r_types r ≠ [] → props !! "rt" = Some (val_strings (r_types r))) ∧
    ∀ k, k ∉ own_keys → props !! k = contributed additional !! k.
Proof.
  intros d Hpath Hget Hobs Hr Hhas Henv H1 H2 H3 Hf H. unfold BridgeDevice.HandleRequest in H. rewrite Hpath in H.
  fold d in H. rewrite Hr in H.
  pose proof (HandleRequest_plain request {| rw_r := r; rw_env := dw_env w; rw_trace := dw_trace w |} (or_introl Hobs)) as Hp.
  destruct (BridgeResource.HandleRequest request _) as [resp' rw]. injection H as Hresp _.
  destruct Hp as (_ & _ & Hp). cbn [rw_r rw_env] in Hp. rewrite Hget, Hhas in Hp. cbn in Hp. rewrite Henv in Hp.
  destruct (resourcesDevice_Get d r additional request) as [m|err] eqn:E; cbn in Hp; [|congruence].
  destruct (resourcesDevice_Get_spec d r additional request m H1 H2 H3 Hf E) as (Hc & Hfo & body & props & Hb & Hd & Hrest).
  rewrite Hc, Hresp in Hp. injection Hp as ->. exists m, body, props. exact (conj eq_refl (conj Hc (conj Hfo (conj Hb (conj Hd Hrest))))).
Qed.
End Answers.

(** ** Maintenance *)

Section MaintenanceProps.
Context `{HCborQ : Cbor MaintenanceUpdateRequest} `{HCborM : Cbor Maintenance}.

(** A factory reset unregisters the device from its cloud and changes nothing else; any other
    update changes nothing at all, and a body that cannot be read is refused. *)
Lemma maintenance_Post_spec request d :
  let '(resp, d') := maintenance_Post request d in
  match ReadFrom (m_body (req_msg request)) : result MaintenanceUpdateRequest with
  | Err err => d' = d ∧ ∃ m, resp = Ok m ∧ m_code m = codes_BadRequest
  | Ok u => d_cloudManager d' = (if mu_FactoryReset u then Unregister <$> d_cloudManager d else d_cloudManager d) ∧
            set_cloudManager (d_cloudManager d) d' = d ∧ ∀ m, resp = Ok m → m_code m = codes_Changed
  end.
Proof.
  unfold maintenance_Post. destruct (ReadFrom _) as [u|err]; [|split; [done|by eexists]].
  split; [|split].
  - destruct (mu_FactoryReset u); [|done]. unfold onFactoryReset. by destruct (d_cloudManager d) eqn:E.
  - destruct (mu_FactoryReset u); [|by destruct d]. unfold onFactoryReset.
    destruct d as [? ? [m|] ? ? ? ? ?]; done.
  - intros m. unfold CreateResponseContent. intros H. apply bind_Ok_inv in H as (data & _ & [= <-]). done.
Qed.
End MaintenanceProps.

(** ** The certificate pool *)

Section CAPoolProps.
Context `{HCred : CredEnv}.
Context (SystemCertPool : result (list Cert)).

Lemma foldl_snoc_app {A} (l acc : list A) : foldl (fun pool ca => pool ++ [ca]) acc l = acc ++ l.
Proof. revert acc. induction l as [|x l IH]; intros acc; cbn; [by rewrite app_nil_r|]. by rewrite IH, <- app_assoc. Qed.

(** The pool of a device with credentials: that of the application, if it is valid, with the
    certificates of the credentials. *)
Lemma device_pool_spec getCAPool useSystemCAPool creds pool :
  GetPool (MakeCAPool (Some (cloud_MakeCAPool SystemCertPool getCAPool useSystemCAPool)) (Some (Ok creds))) = Ok pool →
  ∃ sys app, pool = sys ++ app ++ creds ∧
    (useSystemCAPool = true → SystemCertPool = Ok sys) ∧ (useSystemCAPool = false → sys = []) ∧
    app = default [] (mjoin getCAPool).
Proof.
  unfold MakeCAPool, cloud_MakeCAPool, cloud_IsValid, cloud_GetPool. cbn [IsValid GetPool].
  destruct useSystemCAPool; cbn [orb].
  - destruct SystemCertPool as [sys|]; [|done]. destruct getCAPool as [cas|]; [|done].
    change (default [] (mjoin (Some cas))) with (default [] cas). cbn [mbind result_bind]. rewrite !foldl_snoc_app.
    intros [= <-]. exists sys, (default [] cas). by rewrite <- app_assoc.
  - destruct getCAPool as [[cas|]|]; cbn; rewrite ?foldl_snoc_app; intros [= <-];
      [exists [], cas|exists [], []|exists [], []]; by split_and!.
Qed.
(** With the system pool alone the client holds a pool that counts as valid and that panics
    when the cloud is dialled. *)
Lemma system_pool_panics sys :
  SystemCertPool = Ok sys →
  IsValid (cloud_MakeCAPool SystemCertPool None true) = true ∧
  GetPool (cloud_MakeCAPool SystemCertPool None true) = Err ErrNilPointer.
Proof. intros H. split; [done|]. unfold cloud_MakeCAPool, cloud_GetPool. cbn. by rewrite H. Qed.
End CAPoolProps.

(** ** At a concrete input *)

Section Examples.
#[local] Instance ex_rep_Maps : CborMaps := {|
  Val := string + list string;
  val_string := inl; val_strings := inr; val_localized l := inr (ls_Value <$> l);
  enc_map m := Ok (to_text (m : option (gmap string (string + list string))));
  dec_map s := match of_text s with Some m => Ok m | None => Err (ErrText "malformed") end |}.
#[local] Instance ex_rep_Laws : CborMapLaws.
Proof. constructor. intros m data [= <-]. cbn. rewrite of_to_text. done. Qed.

(** The application tries to give the device another identity. *)
Definition ex_rep_additional : option (gmap string Val) :=
  Some (list_to_map [("di", inl "other"); ("x.vendor", inl "v")]).
Definition ex_rep_cfg : Config :=
  {| cfg_ID := "11111111-2222-3333-4444-555555555555"; cfg_DeviceName := "dev";
     cfg_ProtocolIndependentID := "21111111-2222-3333-4444-555555555555"; cfg_DeviceTypes := []; cfg_MaxMessageSize := 0;
     cfg_CloudEnabled := false;
     cfg_Cloud := {| c_AccessToken := ""; c_UserID := ""; c_RefreshToken := ""; c_ValidUntil := 0;
                     c_AuthorizationProvider := ""; c_CloudID := ""; c_CloudURL := "" |};
     cfg_CredentialEnabled := false;
     cfg_Credential := {| crsp_ResourceOwner := ""; crsp_Interfaces := []; crsp_ResourceTypes := [];
                          crsp_Name := ""; crsp_Credentials := [] |} |}.
Definition ex_rep_resource : Resource := resourcesDevice_New "11111111-2222-3333-4444-555555555555" ["oic.wk.d"; "oic.d.light"] 7.
Definition ex_rep_device : Device :=
  {| d_cfg := ex_rep_cfg; d_resources := {[ oic_d := ex_rep_resource ]}; d_cloudManager := None;
     d_credentialManager := None; d_thingDescription := None; d_runLoop := false; d_doneClosed := false;
     d_stopped := false |}.
Definition ex_rep_request : Request :=
  {| req_msg := add_query "if=oic.if.baseline" (set_path "/oic/d" (set_code GET NewMessage));
     req_Conn := "10.0.0.1:5683"; req_Endpoints := [] |}.
#[local] Instance ex_rep_Env : ResourceEnv := {|
  REnv := nat;
  renv_get c q e := ((m ← resourcesDevice_Get ex_rep_device ex_rep_resource ex_rep_additional q; Ok (Some m)), e);
  renv_post c q e := (Ok None, e); renv_subscribe c q e := (Ok 0%nat, e); renv_write a m e := (Ok tt, e);
  renv_etag e := (1, e); renv_notifications e := ([], e) |}.
Definition ex_rep_world : DWorld := {| dw_d := ex_rep_device; dw_env := 0%nat : REnv; dw_trace := [] |}.

Lemma device_info_answer_witness :
  ∃ resp, (BridgeDevice.HandleRequest ex_rep_request ex_rep_world).1 = Ok resp ∧
  ∃ props, props !! "di" = Some (inl "11111111-2222-3333-4444-555555555555" : Val) ∧
    props !! "rt" = Some (inr ["oic.wk.d"; "oic.d.light"] : Val) ∧ props !! "x.vendor" = Some (inl "v" : Val) ∧
    ∃ m body, resp = Some m ∧ m_body m = Some body ∧ dec_map body = Ok (Some props).
Proof.
  destruct (BridgeDevice.HandleRequest ex_rep_request ex_rep_world) as [[resp|err] w'] eqn:E; [|discriminate E].
  exists resp. split; [reflexivity|].
  destruct (device_info_answer ex_rep_resource ex_rep_additional ex_rep_request ex_rep_world resp w')
    as (m & body & props & -> & _ & _ & Hb & Hd & H1 & _ & _ & H4 & H5); try done.
  exists props. split; [exact H1|]. split; [by apply H4|]. split; [by rewrite H5 by set_solver|].
  exists (with_etag ex_rep_resource m), body. split; [reflexivity|]. split; [|exact Hd]. exact Hb.
Defined.
End Examples.
