(* ===== verification/BridgeOptions.v ===== *)
(** * BridgeOptions: the options of the bridge

    The setters of [src/bridge/device/options.go], [src/bridge/device/cloud/options.go] and
    [src/bridge/service/options.go], and what [New] of a device makes of them: the options of
    its cloud client, the loop that it runs, its certificate pool.

    An option is a function on the record of the options, as in the code.  Functions of the
    application, loggers and loops are values of arbitrary types. *)

From S2P Require Export BridgeNet BridgeReps.

(** ** The cloud client *)

Section CloudOptions.
Context {GetCertificates RemoveCloudCAs Logger : Type}.
(** The defaults: no certificates, a function that removes nothing, the logger that drops. *)
Context (noCertificates : GetCertificates) (removeNothing : RemoveCloudCAs) (nilLogger : Logger).

Record cloud_OptionsCfg := {
  co_maxMessageSize : Z;                     (** uint32 *)
  co_getCertificates : GetCertificates;
  co_removeCloudCAs : RemoveCloudCAs;
  co_logger : Logger;
  co_tickInterval : Z }.                     (** nanoseconds *)
Definition cloud_Option : Type := cloud_OptionsCfg → cloud_OptionsCfg.
Definition cloud_WithMaxMessageSize (size : Z) : cloud_Option := fun o =>
  if size >? 0
  then {| co_maxMessageSize := size; co_getCertificates := co_getCertificates o; co_removeCloudCAs := co_removeCloudCAs o;
          co_logger := co_logger o; co_tickInterval := co_tickInterval o |}
  else o.
Definition cloud_WithGetCertificates (f : GetCertificates) : cloud_Option := fun o =>
  {| co_maxMessageSize := co_maxMessageSize o; co_getCertificates := f; co_removeCloudCAs := co_removeCloudCAs o;
     co_logger := co_logger o; co_tickInterval := co_tickInterval o |}.
Definition cloud_WithRemoveCloudCAs (f : RemoveCloudCAs) : cloud_Option := fun o =>
  {| co_maxMessageSize := co_maxMessageSize o; co_getCertificates := co_getCertificates o; co_removeCloudCAs := f;
     co_logger := co_logger o; co_tickInterval := co_tickInterval o |}.
Definition cloud_WithLogger (l : Logger) : cloud_Option := fun o =>
  {| co_maxMessageSize := co_maxMessageSize o; co_getCertificates := co_getCertificates o; co_removeCloudCAs := co_removeCloudCAs o;
     co_logger := l; co_tickInterval := co_tickInterval o |}.
Definition cloud_WithTickInterval (t : Z) : cloud_Option := fun o =>
  {| co_maxMessageSize := co_maxMessageSize o; co_getCertificates := co_getCertificates o; co_removeCloudCAs := co_removeCloudCAs o;
     co_logger := co_logger o; co_tickInterval := t |}.

(** The options that [New] of the manager uses. *)
Definition cloud_default : cloud_OptionsCfg :=
  {| co_maxMessageSize := DefaultMaxMessageSize; co_getCertificates := noCertificates; co_removeCloudCAs := removeNothing;
     co_logger := nilLogger; co_tickInterval := 10 * 10 ^ 9 |}.
Definition cloud_resolved (opts : list cloud_Option) : cloud_OptionsCfg := foldl (fun o opt => opt o) cloud_default opts.
End CloudOptions.
Arguments cloud_OptionsCfg : clear implicits.
Arguments cloud_Option : clear implicits.

(** ** The device *)

Section DeviceOptions.
Context {OnDeviceUpdated GetProperties GetCertificates RemoveCloudCAs Logger Loop GetThingDescription : Type}.
Context `{HCred : CredEnv}.
Abbreviation CloudOption := (cloud_Option GetCertificates RemoveCloudCAs Logger).

Record device_OptionsCfg := {
  do_onDeviceUpdated : OnDeviceUpdated;
  do_getAdditionalProperties : GetProperties;
  do_getCertificates : option GetCertificates;
  do_caPool : CAPoolGetter;
  do_logger : Logger;
  do_loop : Loop;
  do_runLoop : bool;
  do_cloudOptions : list CloudOption;
  do_getThingDescription : option GetThingDescription }.
Definition device_Option : Type := device_OptionsCfg → device_OptionsCfg.
Definition device_WithOnDeviceUpdated (f : OnDeviceUpdated) : device_Option := fun o =>
  {| do_onDeviceUpdated := f; do_getAdditionalProperties := do_getAdditionalProperties o; do_getCertificates := do_getCertificates o;
     do_caPool := do_caPool o; do_logger := do_logger o; do_loop := do_loop o; do_runLoop := do_runLoop o; do_cloudOptions := do_cloudOptions o;
     do_getThingDescription := do_getThingDescription o |}.
Definition device_WithGetAdditionalPropertiesForResponse (f : GetProperties) : device_Option := fun o =>
  {| do_onDeviceUpdated := do_onDeviceUpdated o; do_getAdditionalProperties := f; do_getCertificates := do_getCertificates o;
     do_caPool := do_caPool o; do_logger := do_logger o; do_loop := do_loop o; do_runLoop := do_runLoop o; do_cloudOptions := do_cloudOptions o;
     do_getThingDescription := do_getThingDescription o |}.
Definition device_WithGetCertificates (f : GetCertificates) : device_Option := fun o =>
  {| do_onDeviceUpdated := do_onDeviceUpdated o; do_getAdditionalProperties := do_getAdditionalProperties o; do_getCertificates := Some f;
     do_caPool := do_caPool o; do_logger := do_logger o; do_loop := do_loop o; do_runLoop := do_runLoop o; do_cloudOptions := do_cloudOptions o;
     do_getThingDescription := do_getThingDescription o |}.
Definition device_WithCAPool (pool : CAPoolGetter) : device_Option := fun o =>
  {| do_onDeviceUpdated := do_onDeviceUpdated o; do_getAdditionalProperties := do_getAdditionalProperties o;
     do_getCertificates := do_getCertificates o; do_caPool := pool; do_logger := do_logger o; do_loop := do_loop o; do_runLoop := do_runLoop o;
     do_cloudOptions := do_cloudOptions o; do_getThingDescription := do_getThingDescription o |}.
Definition device_WithLogger (l : Logger) : device_Option := fun o =>
  {| do_onDeviceUpdated := do_onDeviceUpdated o; do_getAdditionalProperties := do_getAdditionalProperties o;
     do_getCertificates := do_getCertificates o; do_caPool := do_caPool o; do_logger := l; do_loop := do_loop o; do_runLoop := do_runLoop o;
     do_cloudOptions := do_cloudOptions o; do_getThingDescription := do_getThingDescription o |}.
(** The caller runs its own loop. *)
Definition device_WithEventLoop (l : Loop) : device_Option := fun o =>
  {| do_onDeviceUpdated := do_onDeviceUpdated o; do_getAdditionalProperties := do_getAdditionalProperties o;
     do_getCertificates := do_getCertificates o; do_caPool := do_caPool o; do_logger := do_logger o; do_loop := l; do_runLoop := false;
     do_cloudOptions := do_cloudOptions o; do_getThingDescription := do_getThingDescription o |}.
Definition device_WithCloudOptions (opts : list CloudOption) : device_Option := fun o =>
  {| do_onDeviceUpdated := do_onDeviceUpdated o; do_getAdditionalProperties := do_getAdditionalProperties o;
     do_getCertificates := do_getCertificates o; do_caPool := do_caPool o; do_logger := do_logger o; do_loop := do_loop o; do_runLoop := do_runLoop o;
     do_cloudOptions := opts; do_getThingDescription := do_getThingDescription o |}.
Definition device_WithThingDescription (f : GetThingDescription) : device_Option := fun o =>
  {| do_onDeviceUpdated := do_onDeviceUpdated o; do_getAdditionalProperties := do_getAdditionalProperties o;
     do_getCertificates := do_getCertificates o; do_caPool := do_caPool o; do_logger := do_logger o; do_loop := do_loop o; do_runLoop := do_runLoop o;
     do_cloudOptions := do_cloudOptions o; do_getThingDescription := Some f |}.

(** ** [New] *)

Context (doNothing : OnDeviceUpdated) (noProperties : GetProperties) (newLogger : UUID → Logger) (newLoop : Loop).
Context (SystemCertPool : result (list Cert)).
Definition device_default (id : UUID) : device_OptionsCfg :=
  {| do_onDeviceUpdated := doNothing; do_getAdditionalProperties := noProperties; do_getCertificates := None;
     do_caPool := cloud_MakeCAPool SystemCertPool None false; do_logger := newLogger id; do_loop := newLoop; do_runLoop := true;
     do_cloudOptions := []; do_getThingDescription := None |}.
Definition device_resolved (id : UUID) (opts : list device_Option) : device_OptionsCfg := foldl (fun o opt => opt o) (device_default id) opts.

(** The options of the cloud client, with [RemoveCredentialsBySubjects] of the credential
    manager, if there is one. *)
Definition cloudOpts (cfg : Config) (removeCredentials : RemoveCloudCAs) (o : device_OptionsCfg) : list CloudOption :=
  [cloud_WithMaxMessageSize (cfg_MaxMessageSize cfg); cloud_WithLogger (do_logger o)] ++
  (if cfg_CredentialEnabled cfg then [cloud_WithRemoveCloudCAs removeCredentials] else []) ++
  match do_getCertificates o with Some f => [cloud_WithGetCertificates f] | None => [] end ++
  do_cloudOptions o.
(** The part of the options that the construction of BridgeDevice uses. *)
Definition construction (o : device_OptionsCfg) : BridgeDevice.OptionsCfg :=
  {| o_caPoolValid := IsValid (do_caPool o);
     o_getThingDescription := match do_getThingDescription o with Some _ => true | None => false end;
     o_runLoop := do_runLoop o |}.
Definition New_with (etag : string → Z) (fuel : nat) (cfg : Config) (opts : list device_Option) : result Device :=
  BridgeDevice.New etag fuel cfg (construction (device_resolved (cfg_ID cfg) opts)).

(** The maximal size of a message of the cloud client is positive: the options of the code
    keep it, and so do options of the application that do not set it to 0. *)
Lemma max_message_size_positive noCerts removeNothing nilLogger cfg removeCredentials o :
  Forall (fun opt : CloudOption => ∀ c, 0 < co_maxMessageSize c → 0 < co_maxMessageSize (opt c))
    (do_cloudOptions o) →
  0 < co_maxMessageSize
        (cloud_resolved noCerts removeNothing nilLogger (cloudOpts cfg removeCredentials o)).
Proof.
  intros Happ. unfold cloud_resolved.
  assert (Hall : Forall (fun opt : CloudOption => ∀ c, 0 < co_maxMessageSize c → 0 < co_maxMessageSize (opt c))
    (cloudOpts cfg removeCredentials o)).
  { unfold cloudOpts. repeat apply Forall_app_2; [|by destruct (cfg_CredentialEnabled cfg); repeat constructor
      |by destruct (do_getCertificates o); repeat constructor|done].
    constructor; [|by repeat constructor]. intros c Hc. unfold cloud_WithMaxMessageSize.
    rewrite Z.gtb_ltb. destruct (Z.ltb_spec 0 (cfg_MaxMessageSize cfg)); done. }
  assert (Hd : 0 < co_maxMessageSize (cloud_default noCerts removeNothing nilLogger)) by done.
  revert Hd. generalize (cloud_default noCerts removeNothing nilLogger).
  induction Hall as [|opt opts Hopt _ IH]; intros c Hc; [exact Hc|]. cbn [foldl]. by apply IH, Hopt.
Qed.
End DeviceOptions.

(** ** The service *)

Section ServiceOptions.
Context {OnDiscovery Logger : Type}.
Record service_OptionsCfg := { so_onDiscoveryDevices : OnDiscovery; so_logger : Logger }.
Definition service_Option : Type := service_OptionsCfg → service_OptionsCfg.
(** A nil function is ignored. *)
Definition service_WithOnDiscoveryDevices (f : option OnDiscovery) : service_Option := fun o =>
  match f with
  | Some f => {| so_onDiscoveryDevices := f; so_logger := so_logger o |}
  | None => o
  end.
Definition service_WithLogger (l : Logger) : service_Option := fun o => {| so_onDiscoveryDevices := so_onDiscoveryDevices o; so_logger := l |}.
End ServiceOptions.
