(* ===== verification/ThingDesc.v ===== *)
(** * ThingDesc: thing descriptions of a bridged device

    [src/bridge/device/thingDescription/thingDescription.go] and
    [src/bridge/resources/thingDescription]: the operations a property element
    announces, its forms, the description of a whole device, and the resource
    that serves it.

    The data of the web-of-things library is kept to the fields this code reads
    or writes, with the remaining ones as an uninterpreted component; its parsers
    and encoders and the media types are the class [TdEnv]. *)

From S2P Require Import CloudManager.
From S2P Require Export BridgeResource BridgeDevice.

Class TdEnv := {
  Url : Type;                                     (** [url.URL] *)
  url_Parse : string → result Url;                (** [net/url.Parse] *)
  Uri : Type;
  uri_Parse : string → result Uri;                (** [uri.Parse] of the library *)
  media_String : Z → string;                      (** [message.MediaType.String] *)
  PeRest : Type;                                  (** other fields of a property element *)
  TdRest : Type }.                                (** other fields of a thing description *)

(** ** Data *)

Inductive FieldValue := FString (s : string) | FNumber (n : Z).

Section Data.
Context `{HTd : TdEnv}.

Record FormElementProperty := {
  fm_ContentType : option string;
  fm_Href : Url;
  fm_Op : list string;
  fm_AdditionalFields : gmap string FieldValue }.

Record PropertyElement := {
  pe_Type : option (list string);
  pe_Observable : option bool;
  pe_ReadOnly : option bool;
  pe_WriteOnly : option bool;
  pe_Forms : list FormElementProperty;
  pe_rest : PeRest }.

(** [td_Properties] is nil or a map. *)
Record ThingDescription := {
  td_Context : option string;
  td_ID : option Uri;
  td_Title : string;
  td_Base : option Url;
  td_Security : option string;
  td_SecurityDefinitions : option (gmap string string);
  td_Properties : option (gmap string PropertyElement);
  td_rest : TdRest }.

Definition Readproperty : string := "readproperty".
Definition Writeproperty : string := "writeproperty".
Definition Observeproperty : string := "observeproperty".
Definition Unobserveproperty : string := "unobserveproperty".
Definition SecurityNoSec : string := "nosec_sc".
Definition SecurityDefinitions : gmap string string := {[ SecurityNoSec := "nosec" ]}.
Definition HTTPSWWWW3Org2022WotTdV11 : string := "https://www.w3.org/2022/wot/td/v1.1".

(** ** Operations of a property *)

Definition translationTable : list (Z * list string) :=
  [(SupportedOperationRead, [Readproperty]);
   (SupportedOperationWrite, [Writeproperty]);
   (SupportedOperationObserve, [Observeproperty; Unobserveproperty])].

Definition SupportedOperationToTDOperations (ops : Z) : list string :=
  foldl (fun tdOps t => if HasOperation ops t.1 then tdOps ++ t.2 else tdOps) [] translationTable.

Definition BoolToPtr (v : bool) : option bool := if v then Some v else None.
Definition StringToPtr (v : string) : option string :=
  if bool_decide (v = "") then None else Some v.

Record PropertyElementOperations := {
  peo_ReadOnly : bool; peo_WriteOnly : bool; peo_Observable : bool }.

Definition toPropertyElementOperations (ops : Z) : PropertyElementOperations :=
  {| peo_Observable := HasOperation ops SupportedOperationObserve;
     peo_ReadOnly := HasOperation ops SupportedOperationRead &&
                     negb (HasOperation ops SupportedOperationWrite);
     peo_WriteOnly := HasOperation ops SupportedOperationWrite &&
                      negb (HasOperation ops SupportedOperationRead) |}.

Definition isNotNilAndTrue (val : option bool) : bool := default false val.

Definition GetPropertyElementOperations (pe : PropertyElement) : PropertyElementOperations :=
  {| peo_ReadOnly := isNotNilAndTrue (pe_ReadOnly pe);
     peo_WriteOnly := isNotNilAndTrue (pe_WriteOnly pe);
     peo_Observable := isNotNilAndTrue (pe_Observable pe) |}.

Definition ToSupportedOperations (p : PropertyElementOperations) : Z :=
  let ops := if peo_Observable p then Z.lor 0 SupportedOperationObserve else 0 in
  if peo_ReadOnly p then Z.lor ops SupportedOperationRead
  else if peo_WriteOnly p then Z.lor ops SupportedOperationWrite
  else Z.lor (Z.lor ops SupportedOperationRead) SupportedOperationWrite.

(** ** Forms *)

Definition coap_methods : gmap string string :=
  {[ Readproperty := "GET"; Writeproperty := "POST"; Observeproperty := "GET" ]}.

Definition CreateCOAPForm (hrefUri : Url) (op : string) (contentType : Z)
    : option FormElementProperty :=
  match coap_methods !! op with
  | None => None
  | Some method =>
      let additionalFields : gmap string FieldValue :=
        {[ "cov:method" := FString method; "cov:accept" := FNumber contentType ]} in
      let observe := bool_decide (op = Observeproperty) in
      Some {| fm_ContentType := StringToPtr (media_String contentType);
              fm_Href := hrefUri;
              fm_Op := if observe then [op; Unobserveproperty] else [op];
              fm_AdditionalFields := if observe
                                     then <["subprotocol" := FString "cov:observe"]> additionalFields
                                     else additionalFields |}
  end.

Definition add_form (cond : bool) (form : option FormElementProperty)
    (forms : list FormElementProperty) : list FormElementProperty :=
  if cond then match form with Some f => forms ++ [f] | None => forms end else forms.

Definition CreateCOAPForms (hrefUri : Url) (ops contentType : Z) : list FormElementProperty :=
  let forms := add_form (HasOperation ops SupportedOperationWrite)
                 (CreateCOAPForm hrefUri Writeproperty contentType) [] in
  let forms := add_form (HasOperation ops SupportedOperationRead)
                 (CreateCOAPForm hrefUri Readproperty contentType) forms in
  add_form (HasOperation ops SupportedOperationObserve)
    (CreateCOAPForm hrefUri Observeproperty contentType) forms.

Definition GetPropertyHref (deviceID : UUID) (href : string) : result Url :=
  if (String.length href =? 0)%nat then Err (ErrText "href is empty")
  else
    let hrefStr := if bool_decide (deviceID = uuid_Nil) then href
                   else href +:+ "?di=" +:+ deviceID in
    url_Parse hrefStr.

Definition CreateFormsFunc : Type := Url → Z → Z → list FormElementProperty.

Definition PatchPropertyElement (prop : PropertyElement) (types : list string) (deviceID : UUID)
    (href : string) (ops contentType : Z) (createForms : option CreateFormsFunc)
    : result PropertyElement :=
  let propOps := toPropertyElementOperations ops in
  let prop := {| pe_Type := match types with [] => pe_Type prop | _ => Some types end;
                 pe_Observable := BoolToPtr (peo_Observable propOps);
                 pe_ReadOnly := BoolToPtr (peo_ReadOnly propOps);
                 pe_WriteOnly := BoolToPtr (peo_WriteOnly propOps);
                 pe_Forms := pe_Forms prop; pe_rest := pe_rest prop |} in
  match createForms with
  | None => Ok prop
  | Some createForms =>
      match SupportedOperationToTDOperations ops with
      | [] => Ok prop
      | _ =>
          hrefUri ← GetPropertyHref deviceID href;
          Ok {| pe_Type := pe_Type prop; pe_Observable := pe_Observable prop;
                pe_ReadOnly := pe_ReadOnly prop; pe_WriteOnly := pe_WriteOnly prop;
                pe_Forms := createForms hrefUri ops contentType; pe_rest := pe_rest prop |}
      end
  end.

(** ** Description of a device *)

Definition GetThingDescriptionID (deviceID : UUID) : result Uri := uri_Parse ("urn:uuid:" +:+ deviceID).

Definition add_property (getPropertyElement : string → Resource → option PropertyElement)
    (props : option (gmap string PropertyElement)) (kr : string * Resource)
    : option (gmap string PropertyElement) :=
  match getPropertyElement kr.1 kr.2 with
  | None => props
  | Some pe => Some (<[kr.1 := pe]> (default ∅ props))
  end.

Definition PatchThingDescription `{ResourceOrder} (td : ThingDescription) (d : Device)
    (endpoint : string) (getPropertyElement : string → Resource → option PropertyElement)
    : ThingDescription :=
  let hasEndpoint := negb (bool_decide (endpoint = "")) in
  {| td_Context := match td_Context td with
                   | None => Some HTTPSWWWW3Org2022WotTdV11 | Some c => Some c end;
     td_ID := match GetThingDescriptionID (cfg_ID (d_cfg d)) with
              | Ok id => Some id | Err _ => td_ID td end;
     td_Title := cfg_DeviceName (d_cfg d);
     td_Base := if hasEndpoint
                then match url_Parse endpoint with Ok u => Some u | Err _ => td_Base td end
                else td_Base td;
     td_Security := if hasEndpoint then Some SecurityNoSec else td_Security td;
     td_SecurityDefinitions := if hasEndpoint then Some SecurityDefinitions
                               else td_SecurityDefinitions td;
     td_Properties := foldl (add_property getPropertyElement) (td_Properties td)
                        (res_order (d_resources d));
     td_rest := td_rest td |}.

(** ** The resource ([src/bridge/resources/thingDescription]) *)

(** [ocfThingDescription] is parsed from an embedded file. *)
Definition GetOCFResourcePropertyElement (ocf : ThingDescription) (resourceHref : string)
    : option PropertyElement := td_Properties ocf ≫= fun props => props !! resourceHref.

Definition patchResourcePropertyElement (pe : PropertyElement) (deviceID : UUID)
    (resourceTypes : list string) (resourceHref : string) (contentType : Z)
    (createForms : option CreateFormsFunc) : result PropertyElement :=
  let propOps := GetPropertyElementOperations pe in
  PatchPropertyElement pe resourceTypes deviceID resourceHref (ToSupportedOperations propOps)
    contentType createForms.

Definition PatchDeviceResourcePropertyElement (pe : PropertyElement) (deviceID : UUID)
    (baseURL : string) (contentType : Z) (deviceType : string)
    (createForms : option CreateFormsFunc) : result PropertyElement :=
  let types := if bool_decide (deviceType = "") then [] else [device_ResourceType; deviceType] in
  patchResourcePropertyElement pe deviceID types (baseURL +:+ oic_d) contentType createForms.

Definition MessageTypeTDJson : Z := 432.
Definition AppCBOR : Z := 60.

(** The encoders the resource calls: [MarshalJSON] of the library, and
    [json.Unmarshal] followed by the CBOR encoder of [CreateResponseContent]. *)
Context (td_MarshalJSON : ThingDescription → result string).
Context (json_to_cbor : string → result (result string)).
(** [request.Accept]: the value of the option, if there is one. *)
Context (req_Accept : Request → option Z).

Definition createMessage (request : Request) (td : option ThingDescription) : result Message :=
  match td with
  | None => CreateErrorResponse codes_NotFound (ErrText "thing description not found")
  | Some td =>
      match td_MarshalJSON td with
      | Err err => CreateErrorResponse codes_InternalServerError err
      | Ok dataJson =>
          let mediaType := default AppJSON (req_Accept request) in
          if (mediaType =? AppJSON) || (mediaType =? MessageTypeTDJson)
          then Ok (set_body dataJson (set_format mediaType (set_code codes_Content NewMessage)))
          else if (mediaType =? AppCBOR) || (mediaType =? AppOcfCbor)
          then match json_to_cbor dataJson with
               | Err err => CreateErrorResponse codes_InternalServerError err
               | Ok (Err err) => Err err
               | Ok (Ok d) => Ok (set_body d (set_format AppOcfCbor (set_code codes_Content NewMessage)))
               end
          else CreateErrorResponse codes_NotAcceptable (ErrText "unsupported accept content format")
      end
  end.

Definition td_Get (onGetThingDescription : Endpoints → option ThingDescription) (request : Request)
    : result Message :=
  match onGetThingDescription (req_Endpoints request) with
  | None => CreateErrorResponse codes_NotFound (ErrText "thing description not found")
  | Some td => createMessage request (Some td)
  end.

(** The callback [CreateSubscription] registers: what it gives to the handler. *)
Definition td_subscription (req : Request) (td : option ThingDescription) (closed : bool)
    : result Message :=
  if closed then Err (ErrText "subscription closed") else createMessage req td.

End Data.

(** ** Properties *)

(** The sets of operations of a resource are the eight masks of the three bits. *)
Lemma ops_cases (P : Z → Prop) :
  P 0 → P 1 → P 2 → P 3 → P 4 → P 5 → P 6 → P 7 → ∀ ops, 0 <= ops < 8 → P ops.
Proof.
  intros. assert (ops = 0 ∨ ops = 1 ∨ ops = 2 ∨ ops = 3 ∨ ops = 4 ∨ ops = 5 ∨ ops = 6 ∨ ops = 7)
    as E by lia.
  by destruct E as [E|[E|[E|[E|[E|[E|[E|E]]]]]]]; subst.
Qed.

Lemma SupportsOperations_bound r : 0 <= SupportsOperations r < 8.
Proof.
  unfold SupportsOperations.
  destruct (r_hasGet r), (r_hasPost r), (negb (Z.land (r_PolicyBitMask r) Observable =? 0));
    split; by vm_compute.
Qed.

Section Props.
Context `{HTd : TdEnv}.

(** The flags a patched element carries do not depend on its forms. *)
Lemma PatchPropertyElement_flags prop types di href ops ct cf pe' :
  PatchPropertyElement prop types di href ops ct cf = Ok pe' →
  pe_Observable pe' = BoolToPtr (peo_Observable (toPropertyElementOperations ops)) ∧
  pe_ReadOnly pe' = BoolToPtr (peo_ReadOnly (toPropertyElementOperations ops)) ∧
  pe_WriteOnly pe' = BoolToPtr (peo_WriteOnly (toPropertyElementOperations ops)) ∧
  pe_Type pe' = (match types with [] => pe_Type prop | _ => Some types end) ∧
  pe_rest pe' = pe_rest prop.
Proof.
  unfold PatchPropertyElement. destruct cf as [cf|]; [|by intros [= <-]].
  destruct (SupportedOperationToTDOperations ops); [by intros [= <-]|].
  intros (u & _ & [= <-])%bind_Ok_inv. done.
Qed.

Lemma isNotNil_BoolToPtr b : isNotNilAndTrue (BoolToPtr b) = b.
Proof. by destruct b. Qed.

Lemma GetPropertyElementOperations_patched prop types di href ops ct cf pe' :
  PatchPropertyElement prop types di href ops ct cf = Ok pe' →
  GetPropertyElementOperations pe' = toPropertyElementOperations ops.
Proof.
  intros (Ho & Hr & Hw & _)%PatchPropertyElement_flags. unfold GetPropertyElementOperations.
  rewrite Ho, Hr, Hw, !isNotNil_BoolToPtr. done.
Qed.

(** The operations a property element announces are the ones of the resource it
    describes: an element patched with the operations of a resource that can be read or
    written, whatever its forms, is read back by [ToSupportedOperations] as these
    operations, and patching it again from what it announces (as the patches of the
    built-in resources do) keeps its flags. *)
Theorem td_operations_roundtrip (r : Resource) prop types di href ct cf pe' :
  r_hasGet r || r_hasPost r = true →
  PatchPropertyElement prop types di href (SupportsOperations r) ct cf = Ok pe' →
  ToSupportedOperations (GetPropertyElementOperations pe') = SupportsOperations r ∧
  ∀ types' di' href' ct' cf' pe'',
    patchResourcePropertyElement pe' di' types' href' ct' cf' = Ok pe'' →
    GetPropertyElementOperations pe'' = GetPropertyElementOperations pe'.
Proof.
  intros Hr Hp. rewrite (GetPropertyElementOperations_patched _ _ _ _ _ _ _ _ Hp).
  assert (ToSupportedOperations (toPropertyElementOperations (SupportsOperations r)) =
          SupportsOperations r) as E.
  { unfold SupportsOperations. destruct (r_hasGet r), (r_hasPost r); try done;
      by destruct (negb (Z.land (r_PolicyBitMask r) Observable =? 0)). }
  split; [exact E|]. intros types' di' href' ct' cf' pe'' Hp'.
  unfold patchResourcePropertyElement in Hp'.
  apply GetPropertyElementOperations_patched in Hp'.
  by rewrite Hp', (GetPropertyElementOperations_patched _ _ _ _ _ _ _ _ Hp), E.
Qed.

Definition form_ops (forms : list FormElementProperty) : list string := mjoin (fm_Op <$> forms).

Lemma CreateCOAPForms_ops hrefUri ops ct : 0 <= ops < 8 →
  form_ops (CreateCOAPForms hrefUri ops ct) ≡ₚ SupportedOperationToTDOperations ops.
Proof.
  intros Hops. pattern ops. revert Hops. apply ops_cases; vm_compute; try reflexivity;
    repeat first [apply Permutation_refl | apply perm_skip | apply perm_swap].
Qed.

Lemma CreateCOAPForm_href hrefUri op ct f :
  CreateCOAPForm hrefUri op ct = Some f → fm_Href f = hrefUri.
Proof.
  unfold CreateCOAPForm. destruct (coap_methods !! op); [|done]. by intros [= <-].
Qed.

Lemma CreateCOAPForms_href hrefUri ops ct f :
  f ∈ CreateCOAPForms hrefUri ops ct → fm_Href f = hrefUri.
Proof.
  unfold CreateCOAPForms, add_form. intros Hf.
  repeat match type of Hf with
  | context [if ?b then _ else _] => destruct b
  end; repeat match type of Hf with
  | context [match CreateCOAPForm ?u ?o ?c with _ => _ end] =>
      destruct (CreateCOAPForm u o c) eqn:?
  end; rewrite ?elem_of_app, ?list_elem_of_singleton in Hf; set_unfold;
  naive_solver eauto using CreateCOAPForm_href.
Qed.

(** Patching a property element with the CoAP forms.  It fails exactly when the
    resource has an operation and the address of the property cannot be built, with the
    error of the address; otherwise the flags, the types and the untouched fields are
    the expected ones, the operations of the forms are, up to their order, the ones the
    thing description defines for the operations of the resource, and each form points
    at the address of the property; a resource with no operation keeps its forms. *)
Theorem PatchPropertyElement_spec prop types di href ops ct :
  0 <= ops < 8 →
  match PatchPropertyElement prop types di href ops ct (Some CreateCOAPForms) with
  | Err e => ops ≠ 0 ∧ GetPropertyHref di href = Err e
  | Ok pe' =>
      GetPropertyElementOperations pe' = toPropertyElementOperations ops ∧
      pe_Type pe' = (match types with [] => pe_Type prop | _ => Some types end) ∧
      pe_rest pe' = pe_rest prop ∧
      if ops =? 0 then pe_Forms pe' = pe_Forms prop
      else ∃ u, GetPropertyHref di href = Ok u ∧
             Forall (fun f => fm_Href f = u) (pe_Forms pe') ∧
             form_ops (pe_Forms pe') ≡ₚ SupportedOperationToTDOperations ops
  end.
Proof.
  intros Hops. destruct (PatchPropertyElement _ _ _ _ _ _ _) as [pe'|e] eqn:E.
  - split; [by eapply GetPropertyElementOperations_patched|].
    destruct (PatchPropertyElement_flags _ _ _ _ _ _ _ _ E) as (_ & _ & _ & Ht & Hr).
    split_and!; [done..|]. unfold PatchPropertyElement in E.
    destruct (Z.eqb_spec ops 0) as [->|Hne]; [by injection E as <-|].
    assert (SupportedOperationToTDOperations ops ≠ []) as Hn.
    { clear E. revert Hne. pattern ops. revert Hops. by apply ops_cases. }
    destruct (SupportedOperationToTDOperations ops) as [|o os] eqn:Eo; [done|].
    apply bind_Ok_inv in E as (u & Hu & [= <-]). exists u. split_and!; [done| |].
    + apply Forall_forall. intros f. apply CreateCOAPForms_href.
    + simpl. rewrite <- Eo. by apply CreateCOAPForms_ops.
  - unfold PatchPropertyElement in E.
    destruct (SupportedOperationToTDOperations ops) eqn:Eo; [done|].
    split; [intros ->; by vm_compute in Eo|].
    destruct (GetPropertyHref di href); [done | by injection E as <-].
Qed.

(** Adding the elements of the resources one by one is a union of maps. *)
Lemma add_property_fold getPE (l : list (string * Resource)) props k :
  NoDup l.*1 →
  foldl (add_property getPE) props l ≫= (fun m => m !! k) =
    match (list_to_map l : gmap string Resource) !! k ≫= getPE k with
    | Some pe => Some pe
    | None => props ≫= (fun m => m !! k)
    end.
Proof.
  revert props. induction l as [|[k' r] l IH]; intros props Hnd; [done|].
  apply NoDup_cons in Hnd as [Hk' Hnd]. cbn [foldl]. rewrite (IH _ Hnd). simpl list_to_map.
  unfold add_property at 1. cbn [fst snd].
  destruct (decide (k' = k)) as [->|Hne].
  - rewrite lookup_insert_eq. rewrite not_elem_of_list_to_map_1 by done. simpl.
    destruct (getPE k r); [|done]. simpl. by rewrite lookup_insert_eq.
  - rewrite lookup_insert_ne by done.
    destruct (list_to_map l !! k ≫= getPE k); [done|].
    destruct (getPE k' r) as [pe|]; [|done]. simpl. rewrite lookup_insert_ne by done.
    by destruct props; rewrite ?lookup_empty.
Qed.

(** The thing description of a device: the title and the identifier are those of
    the device, the base, security and security definitions are set when an endpoint is
    given (the base only if the endpoint is a URL), and the property under each
    reference is the element of the resource of the device with that reference if it has
    one, else the one the description came with; whatever the order of the table. *)
Theorem PatchThingDescription_spec `{HOrder : ResourceOrder} `{!ResourceOrderLaws} td d endpoint getPE k :
  let td' := PatchThingDescription td d endpoint getPE in
  td_Title td' = cfg_DeviceName (d_cfg d) ∧
  (∀ id, GetThingDescriptionID (cfg_ID (d_cfg d)) = Ok id → td_ID td' = Some id) ∧
  is_Some (td_Context td') ∧
  (endpoint ≠ "" → td_Security td' = Some SecurityNoSec ∧
     td_SecurityDefinitions td' = Some SecurityDefinitions ∧
     ∀ u, url_Parse endpoint = Ok u → td_Base td' = Some u) ∧
  (endpoint = "" → td_Security td' = td_Security td ∧ td_Base td' = td_Base td) ∧
  (td_Properties td' ≫= fun m => m !! k) =
    match d_resources d !! k ≫= getPE k with
    | Some pe => Some pe
    | None => td_Properties td ≫= fun m => m !! k
    end.
Proof.
  intros td'. split_and!; try done.
  - intros id Hid. simpl. by rewrite Hid.
  - simpl. destruct (td_Context td); eauto.
  - intros Hne. simpl. rewrite (bool_decide_false _ Hne). split_and!; [done..|].
    intros u Hu. simpl. by rewrite Hu.
  - intros ->. done.
  - simpl. rewrite add_property_fold.
    + rewrite (list_to_map_proper _ (map_to_list (d_resources d))).
      * by rewrite list_to_map_to_list.
      * rewrite (res_order_perm (d_resources d)). apply NoDup_fst_map_to_list.
      * apply res_order_perm.
    + rewrite (res_order_perm (d_resources d)). apply NoDup_fst_map_to_list.
Qed.

End Props.

(** ** The properties at concrete inputs *)

Section Examples.
#[local] Instance ex_td_order : ResourceOrder := map_to_list.
#[local] Instance ex_td_order_laws : ResourceOrderLaws.
Proof. intros m. reflexivity. Qed.
#[local] Instance ex_TdEnv : TdEnv := {|
  Url := string; url_Parse s := Ok s; Uri := string; uri_Parse s := Ok s;
  media_String m := if m =? AppJSON then "application/json" else "";
  PeRest := unit; TdRest := unit |}.

Definition ex_td_light : Resource := NewResource "/light" (of_device "" "/light") true true ["oic.r.light"] [OC_IF_RW] 5.
Definition ex_td_di : UUID := "11111111-2222-3333-4444-555555555555".
Definition ex_pe : PropertyElement :=
  {| pe_Type := None; pe_Observable := None; pe_ReadOnly := None; pe_WriteOnly := Some true;
     pe_Forms := []; pe_rest := tt |}.
Definition ex_td : ThingDescription :=
  {| td_Context := None; td_ID := None; td_Title := ""; td_Base := None; td_Security := None;
     td_SecurityDefinitions := None; td_Properties := Some {[ "/gone" := ex_pe ]}; td_rest := tt |}.

Lemma td_operations_roundtrip_witness : ∃ pe',
  PatchPropertyElement ex_pe [] ex_td_di "/light" (SupportsOperations ex_td_light) AppJSON
    (Some CreateCOAPForms) = Ok pe' ∧
  ToSupportedOperations (GetPropertyElementOperations pe') = 3.
Proof.
  eexists. split; [vm_compute; reflexivity|].
  eapply (td_operations_roundtrip ex_td_light ex_pe [] ex_td_di "/light" AppJSON
            (Some CreateCOAPForms)); [reflexivity | vm_compute; reflexivity].
Defined.

Lemma PatchPropertyElement_spec_witness : ∃ pe',
  PatchPropertyElement ex_pe ["oic.r.light"] ex_td_di "/light" 7 AppJSON (Some CreateCOAPForms) =
    Ok pe' ∧
  (fm_Href <$> pe_Forms pe') =
    ["/light?di=11111111-2222-3333-4444-555555555555";
     "/light?di=11111111-2222-3333-4444-555555555555";
     "/light?di=11111111-2222-3333-4444-555555555555"] ∧
  form_ops (pe_Forms pe') ≡ₚ SupportedOperationToTDOperations 7.
Proof.
  pose proof (PatchPropertyElement_spec ex_pe ["oic.r.light"] ex_td_di "/light" 7 AppJSON
                ltac:(lia)) as H.
  destruct (PatchPropertyElement _ _ _ _ 7 _ _) as [pe'|e] eqn:E; [|by vm_compute in E].
  destruct H as (_ & _ & _ & u & _ & _ & Hp). exists pe'. split; [done|].
  split; [|exact Hp]. injection E as <-. vm_compute. reflexivity.
Defined.

Definition ex_td_device : Device :=
  set_resources {[ "/light" := ex_td_light ]}
    {| d_cfg := ex_dev_cfg; d_resources := ∅; d_cloudManager := None; d_credentialManager := None;
       d_thingDescription := None; d_runLoop := false; d_doneClosed := false; d_stopped := false |}.
Definition ex_getPE (href : string) (r : Resource) : option PropertyElement :=
  match PatchPropertyElement ex_pe (r_types r) ex_td_di href (SupportsOperations r) AppJSON
          (Some CreateCOAPForms) with Ok pe => Some pe | Err _ => None end.
Lemma PatchThingDescription_spec_witness :
  let td := PatchThingDescription ex_td ex_td_device "coap://h:1" ex_getPE in
  td_Title td = "dev" ∧
  (td_Properties td ≫= fun m => m !! "/gone") = Some ex_pe ∧
  (td_Properties td ≫= fun m => m !! "/light") = ex_getPE "/light" ex_td_light.
Proof.
  intros td.
  destruct (PatchThingDescription_spec ex_td ex_td_device "coap://h:1" ex_getPE "/gone")
    as (Ht & _ & _ & _ & _ & Hg).
  destruct (PatchThingDescription_spec ex_td ex_td_device "coap://h:1" ex_getPE "/light")
    as (_ & _ & _ & _ & _ & Hl).
  split; [exact Ht|]. split; [etransitivity; [exact Hg | vm_compute; reflexivity]|].
  etransitivity; [exact Hl | vm_compute; reflexivity].
Defined.
End Examples.
