(* ===== verification/TdManager.v ===== *)
(** * TdManager: notification of changes of the thing description

    [src/bridge/device/thingDescription/manager.go]: the subscriptions of a thing
    description, the one-slot channel that wakes the event loop, and closing.

    The goroutines are the event loop, one [Close], and any number of callers of
    the other methods.  [exec] is one atomic action of one of them: a label names
    the action and, for the iterations over a map, the order in which the map was
    visited.  A thing description is passed by pointer, so it is paired with the
    number of the call that made it.  [t_trace] lists the events, latest first. *)

From S2P Require Export ThingDesc.

Section Manager.
Context `{HTd : TdEnv}.

Definition TdPtr : Type := nat * ThingDescription.

Inductive TdEvent :=
  | EvRegister (id : Z) (h : nat)
  | EvUnregister (id : Z)
  | EvNotify (td : TdPtr)
  | EvDeliver (id : Z) (h : nat) (td : TdPtr)     (** [sub(td, false)] *)
  | EvClosed (id : Z) (h : nat)                   (** [sub(nil, true)] *)
  | EvDetach.                                     (** [loop.RemoveByChannels] *)

(** Where the goroutine of the event loop is in [subscriptionHandler]. *)
Inductive Phase :=
  | PIdle
  | PReceived (closed : bool)
  | PDelivering (td : TdPtr) (todo : list (Z * nat)).
(** Where [Close] is. *)
Inductive Closing := CIdle | CStopped | CChanClosed | CDone.

(** [t_chan]: the slot of [subChan] is full.  [t_sending]: calls of
    [NotifySubscriptions] between the store and the select. *)
Record Manager := {
  t_subscriptions : gmap Z nat;
  t_lastSubscription : Z;
  t_chan : bool;
  t_chanClosed : bool;
  t_lastTD : option TdPtr;
  t_stopped : bool;
  t_phase : Phase;
  t_closing : Closing;
  t_sending : nat;
  t_nextPtr : nat;
  t_panicked : bool;
  t_trace : list TdEvent }.

Definition set_t_subscriptions (x : gmap Z nat) (m : Manager) : Manager :=
  {| t_subscriptions := x; t_lastSubscription := t_lastSubscription m; t_chan := t_chan m;
     t_chanClosed := t_chanClosed m; t_lastTD := t_lastTD m; t_stopped := t_stopped m;
     t_phase := t_phase m; t_closing := t_closing m; t_sending := t_sending m;
     t_nextPtr := t_nextPtr m; t_panicked := t_panicked m; t_trace := t_trace m |}.
Definition set_t_chan (x : bool) (p : Phase) (m : Manager) : Manager :=
  {| t_subscriptions := t_subscriptions m; t_lastSubscription := t_lastSubscription m; t_chan := x;
     t_chanClosed := t_chanClosed m; t_lastTD := t_lastTD m; t_stopped := t_stopped m;
     t_phase := p; t_closing := t_closing m; t_sending := t_sending m;
     t_nextPtr := t_nextPtr m; t_panicked := t_panicked m; t_trace := t_trace m |}.
Definition set_t_lastTD (x : option TdPtr) (p : Phase) (m : Manager) : Manager :=
  {| t_subscriptions := t_subscriptions m; t_lastSubscription := t_lastSubscription m;
     t_chan := t_chan m; t_chanClosed := t_chanClosed m; t_lastTD := x; t_stopped := t_stopped m;
     t_phase := p; t_closing := t_closing m; t_sending := t_sending m;
     t_nextPtr := t_nextPtr m; t_panicked := t_panicked m; t_trace := t_trace m |}.
Definition set_t_closing (stopped chanClosed : bool) (c : Closing) (m : Manager) : Manager :=
  {| t_subscriptions := t_subscriptions m; t_lastSubscription := t_lastSubscription m;
     t_chan := t_chan m; t_chanClosed := chanClosed; t_lastTD := t_lastTD m; t_stopped := stopped;
     t_phase := t_phase m; t_closing := c; t_sending := t_sending m;
     t_nextPtr := t_nextPtr m; t_panicked := t_panicked m; t_trace := t_trace m |}.
Definition temit (evs : list TdEvent) (m : Manager) : Manager :=
  {| t_subscriptions := t_subscriptions m; t_lastSubscription := t_lastSubscription m;
     t_chan := t_chan m; t_chanClosed := t_chanClosed m; t_lastTD := t_lastTD m;
     t_stopped := t_stopped m; t_phase := t_phase m; t_closing := t_closing m;
     t_sending := t_sending m; t_nextPtr := t_nextPtr m; t_panicked := t_panicked m;
     t_trace := rev evs ++ t_trace m |}.

Definition New : Manager :=
  {| t_subscriptions := ∅; t_lastSubscription := 0; t_chan := false; t_chanClosed := false;
     t_lastTD := None; t_stopped := false; t_phase := PIdle; t_closing := CIdle; t_sending := 0;
     t_nextPtr := 0; t_panicked := false; t_trace := [] |}.

(** ** Calls *)

(** The counter is read by nobody else, so its increment and the store are one
    action. *)
Definition RegisterSubscription (subscription : nat) (m : Manager) : Manager :=
  let id := u64 (t_lastSubscription m + 1) in
  temit [EvRegister id subscription]
    {| t_subscriptions := <[id := subscription]> (t_subscriptions m); t_lastSubscription := id;
       t_chan := t_chan m; t_chanClosed := t_chanClosed m; t_lastTD := t_lastTD m;
       t_stopped := t_stopped m; t_phase := t_phase m; t_closing := t_closing m;
       t_sending := t_sending m; t_nextPtr := t_nextPtr m; t_panicked := t_panicked m;
       t_trace := t_trace m |}.

(** The function [RegisterSubscription] returns. *)
Definition Unregister (id : Z) (m : Manager) : Manager :=
  temit [EvUnregister id] (set_t_subscriptions (delete id (t_subscriptions m)) m).

(** [NotifySubscriptions]: the store, then the select. *)
Definition notify_store (td : ThingDescription) (m : Manager) : Manager :=
  temit [EvNotify (t_nextPtr m, td)]
    {| t_subscriptions := t_subscriptions m; t_lastSubscription := t_lastSubscription m;
       t_chan := t_chan m; t_chanClosed := t_chanClosed m; t_lastTD := Some (t_nextPtr m, td);
       t_stopped := t_stopped m; t_phase := t_phase m; t_closing := t_closing m;
       t_sending := S (t_sending m); t_nextPtr := S (t_nextPtr m); t_panicked := t_panicked m;
       t_trace := t_trace m |}.
(** A send on a closed channel panics, in a select as well; a full slot takes the
    default branch. *)
Definition notify_send (m : Manager) : option Manager :=
  match t_sending m with
  | O => None
  | S n =>
      Some {| t_subscriptions := t_subscriptions m; t_lastSubscription := t_lastSubscription m;
              t_chan := if t_chanClosed m then t_chan m else true;
              t_chanClosed := t_chanClosed m; t_lastTD := t_lastTD m; t_stopped := t_stopped m;
              t_phase := t_phase m; t_closing := t_closing m; t_sending := n;
              t_nextPtr := t_nextPtr m; t_panicked := t_panicked m || t_chanClosed m;
              t_trace := t_trace m |}
  end.

(** ** The event loop: reception, then [subscriptionHandler] *)

Definition receive (m : Manager) : option Manager :=
  match t_phase m with
  | PIdle => if t_chan m then Some (set_t_chan false (PReceived false) m)
             else if t_chanClosed m then Some (set_t_chan false (PReceived true) m)
             else None
  | _ => None
  end.

(** The load and the start of [Range], which visits [order]. *)
Definition handler_start (order : list (Z * nat)) (m : Manager) : option Manager :=
  match t_phase m with
  | PReceived closed =>
      if closed then Some (set_t_lastTD (t_lastTD m) PIdle m)
      else match t_lastTD m with
           | None => Some (set_t_lastTD None PIdle m)
           | Some td =>
               if bool_decide (order ≡ₚ map_to_list (t_subscriptions m))
               then Some (set_t_lastTD (Some td) (PDelivering td order) m) else None
           end
  | _ => None
  end.

Definition deliver (m : Manager) : option Manager :=
  match t_phase m with
  | PDelivering td ((id, h) :: todo) =>
      Some (temit [EvDeliver id h td] (set_t_lastTD (t_lastTD m) (PDelivering td todo) m))
  | _ => None
  end.

(** [lastTD.CompareAndSwap(td, nil)] compares pointers. *)
Definition handler_end (m : Manager) : option Manager :=
  match t_phase m with
  | PDelivering td [] =>
      let swapped := match t_lastTD m with Some td' => (td'.1 =? td.1)%nat | None => false end in
      Some (set_t_lastTD (if swapped then None else t_lastTD m) PIdle m)
  | _ => None
  end.

(** ** Close *)

Definition close_begin (m : Manager) : Manager :=
  if t_stopped m then m else set_t_closing true (t_chanClosed m) CStopped m.
Definition close_channel (m : Manager) : option Manager :=
  match t_closing m with
  | CStopped => Some (temit [EvDetach] (set_t_closing (t_stopped m) true CChanClosed m))
  | _ => None
  end.
Definition close_subscriptions (order : list (Z * nat)) (m : Manager) : option Manager :=
  match t_closing m with
  | CChanClosed =>
      if bool_decide (order ≡ₚ map_to_list (t_subscriptions m))
      then Some (temit ((fun s => EvClosed s.1 s.2) <$> order)
                   (set_t_subscriptions ∅ (set_t_closing (t_stopped m) (t_chanClosed m) CDone m)))
      else None
  | _ => None
  end.

Inductive TLabel :=
  | LRegister (h : nat) | LUnregister (id : Z)
  | LNotifyStore (td : ThingDescription) | LNotifySend
  | LReceive | LStart (order : list (Z * nat)) | LDeliver | LEnd
  | LClose | LCloseChannel | LCloseSubscriptions (order : list (Z * nat)).

(** A panic ends the process. *)
Definition exec (m : Manager) (l : TLabel) : option Manager :=
  if t_panicked m then None else
  match l with
  | LRegister h => Some (RegisterSubscription h m)
  | LUnregister id => Some (Unregister id m)
  | LNotifyStore td => Some (notify_store td m)
  | LNotifySend => notify_send m
  | LReceive => receive m
  | LStart order => handler_start order m
  | LDeliver => deliver m
  | LEnd => handler_end m
  | LClose => Some (close_begin m)
  | LCloseChannel => close_channel m
  | LCloseSubscriptions order => close_subscriptions order m
  end.
Definition step (m : Manager) (l : TLabel) (m' : Manager) : Prop := exec m l = Some m'.

End Manager.

(** ** What the subscribers see *)

Section Props.
Context `{HTd : TdEnv}.

(** The last notification of a trace, and the events after it. *)
Fixpoint last_notify (tr : list TdEvent) : option TdPtr :=
  match tr with
  | [] => None
  | EvNotify td :: _ => Some td
  | _ :: tr' => last_notify tr'
  end.
Fixpoint since_notify (tr : list TdEvent) : list TdEvent :=
  match tr with
  | [] => []
  | EvNotify _ :: _ => []
  | ev :: tr' => ev :: since_notify tr'
  end.
Definition delivered (id : Z) (tr : list TdEvent) : list nat :=
  omap (fun ev => match ev with
                  | EvDeliver id' _ td => if bool_decide (id' = id) then Some td.1 else None
                  | _ => None end) tr.

Definition not_notify (ev : TdEvent) : bool := match ev with EvNotify _ => false | _ => true end.
Lemma last_notify_app evs tr :
  forallb not_notify evs = true → last_notify (evs ++ tr) = last_notify tr.
Proof. induction evs as [|ev evs IH]; [done|]. simpl. by destruct ev. Qed.
Lemma since_notify_app evs tr :
  forallb not_notify evs = true → since_notify (evs ++ tr) = evs ++ since_notify tr.
Proof.
  induction evs as [|ev evs IH]; [done|]. simpl. destruct ev; simpl; try done;
    intros Hev; by rewrite IH.
Qed.

(** The subscriber [id] with handler [h] has been given the last notification [td], or
    is in the part of the map still to be visited. *)
Definition served (td : TdPtr) (id : Z) (h : nat) (m : Manager) : Prop :=
  EvDeliver id h td ∈ since_notify (t_trace m) ∨
  ∃ todo, t_phase m = PDelivering td todo ∧ (id, h) ∈ todo.
Definition registered_before (id : Z) (m : Manager) : Prop :=
  ∀ h, EvRegister id h ∉ since_notify (t_trace m).
Definition open (m : Manager) : Prop := t_closing m = CIdle ∨ t_closing m = CStopped.
Definition signalled (td : TdPtr) (m : Manager) : Prop :=
  t_chan m = true ∨ t_sending m ≠ O ∨ t_phase m = PReceived false ∨
  ∃ todo, t_phase m = PDelivering td todo.

Record Inv (m : Manager) : Prop := {
  i_fresh : ∀ p, (t_lastTD m = Some p ∨ last_notify (t_trace m) = Some p ∨
                  ∃ todo, t_phase m = PDelivering p todo) → (p.1 < t_nextPtr m)%nat;
  i_last : ∀ p, t_lastTD m = Some p → last_notify (t_trace m) = Some p;
  i_same : ∀ p q todo, t_phase m = PDelivering p todo → last_notify (t_trace m) = Some q →
             p.1 = q.1 → p = q;
  i_open : open m → t_chanClosed m = false;
  i_signal : ∀ p, open m → t_lastTD m = Some p → signalled p m;
  i_served : ∀ p id h, last_notify (t_trace m) = Some p →
      t_lastTD m = None ∨ (∃ todo, t_phase m = PDelivering p todo) →
      t_subscriptions m !! id = Some h → registered_before id m → served p id h m;
  i_stopped : t_stopped m = false → t_closing m = CIdle }.

Lemma Inv_New : Inv New.
Proof. split; simpl; try naive_solver. Qed.

Ltac inv_exec :=
  repeat match goal with
  | H : Some _ = Some _ |- _ => injection H as H; subst
  | H : None = Some _ |- _ => discriminate H
  | H : (if ?b then _ else _) = Some _ |- _ => destruct b eqn:?
  | H : (match ?x with _ => _ end) = Some _ |- _ => destruct x eqn:?
  end.

(** Events other than a notification, and a map of subscribers that lost some. *)
Lemma Inv_emit m evs subs :
  forallb not_notify (rev evs) = true →
  (∀ id h, subs !! id = Some h → registered_before id (temit evs m) →
     t_subscriptions m !! id = Some h) →
  Inv m → Inv (temit evs (set_t_subscriptions subs m)).
Proof.
  intros Hev Hsub [Hf Hl Hs Ho Hsg Hd Hst].
  split; simpl; rewrite ?last_notify_app by done; try done.
  unfold served, registered_before. simpl. intros p id h Hp Hn Hid Hb.
  assert (registered_before id m) as Hb'.
  { intros h' Hin. apply (Hb h'). rewrite since_notify_app by done.
    apply elem_of_app. by right. }
  rewrite since_notify_app by done. setoid_rewrite elem_of_app.
  destruct (Hd p id h Hp Hn (Hsub id h Hid Hb) Hb') as [?|?]; auto.
Qed.

Lemma Inv_register h m : Inv m → Inv (RegisterSubscription h m).
Proof.
  intros HI. set (id := u64 (t_lastSubscription m + 1)).
  set (m0 := {| t_subscriptions := t_subscriptions m; t_lastSubscription := id;
                t_chan := t_chan m; t_chanClosed := t_chanClosed m; t_lastTD := t_lastTD m;
                t_stopped := t_stopped m; t_phase := t_phase m; t_closing := t_closing m;
                t_sending := t_sending m; t_nextPtr := t_nextPtr m; t_panicked := t_panicked m;
                t_trace := t_trace m |}).
  assert (Inv m0) as HI0 by (destruct HI as [Hf Hl Hs Ho Hsg Hd Hst]; split; [exact Hf | exact Hl | exact Hs | exact Ho | exact Hsg | exact Hd | exact Hst]).
  apply (Inv_emit m0 [EvRegister id h] (<[id := h]> (t_subscriptions m))); [done| |done].
  intros id' h' Hid' Hb. simpl in *. destruct (decide (id = id')) as [<-|Hne].
  - exfalso. apply (Hb h). simpl. by left.
  - by rewrite lookup_insert_ne in Hid'.
Qed.

Lemma Inv_unregister id m : Inv m → Inv (Unregister id m).
Proof.
  intros HI. apply (Inv_emit m [EvUnregister id]); [done| |done].
  intros id' h' Hid' _. by apply lookup_delete_Some in Hid' as [_ ?].
Qed.

Lemma Inv_notify_store td m : Inv m → Inv (notify_store td m).
Proof.
  intros [Hf Hl Hs Ho Hsg Hd Hst]. split; simpl.
  - intros p [[= <-]|[[= <-]|Hp]]; simpl; [lia..|].
    specialize (Hf p (or_intror (or_intror Hp))). lia.
  - by intros p [= <-].
  - intros p q todo Hp [= <-] Hq. simpl in Hq.
    specialize (Hf p (or_intror (or_intror (ex_intro _ todo Hp)))). lia.
  - done.
  - intros p _ [= <-]. right. left. done.
  - intros p id h [= <-] [Hn|[todo Hp]]; [done|].
    specialize (Hf _ (or_intror (or_intror (ex_intro _ todo Hp)))). simpl in Hf. lia.
  - exact Hst.
Qed.

Lemma Inv_notify_send m m' : Inv m → notify_send m = Some m' → Inv m'.
Proof.
  intros [Hf Hl Hs Ho Hsg Hd Hst] E. unfold notify_send in E. inv_exec.
  split; [exact Hf | exact Hl | exact Hs | exact Ho | | exact Hd | exact Hst].
  intros p Hop Hp. left. simpl. by rewrite (Ho Hop).
Qed.

Lemma Inv_receive m m' : Inv m → receive m = Some m' → Inv m'.
Proof.
  intros [Hf Hl Hs Ho Hsg Hd Hst] E. unfold receive in E. inv_exec.
  - split; simpl; try done.
    + intros p [H1|[H1|[? H1]]]; [apply Hf; auto..|done].
    + intros p _ _. right. right. by left.
    + intros p id h Hp [Hn|[? H1]] Hid Hb; [|done].
      destruct (Hd p id h Hp (or_introl Hn) Hid Hb) as [?|(todo & H1 & _)]; [by left|congruence].
  - split; simpl; try done.
    + intros p [H1|[H1|[? H1]]]; [apply Hf; auto..|done].
    + intros Hop. by specialize (Ho Hop).
    + intros p Hop Hp. specialize (Ho Hop). congruence.
    + intros p id h Hp [Hn|[? H1]] Hid Hb; [|done].
      destruct (Hd p id h Hp (or_introl Hn) Hid Hb) as [?|(todo & H1 & _)]; [by left|congruence].
Qed.

Lemma Inv_handler_start order m m' : Inv m → handler_start order m = Some m' → Inv m'.
Proof.
  intros [Hf Hl Hs Ho Hsg Hd Hst] E. unfold handler_start in E. inv_exec; breflect.
  - split; simpl; try done.
    + intros p [H1|[H1|[? H1]]]; [apply Hf; auto..|done].
    + intros p Hop Hp. destruct (Hsg p Hop Hp) as [H1|[H1|[H1|[? H1]]]]; [by left|by right; left|congruence..].
    + intros p id h Hp [Hn|[? H1]] Hid Hb; [|done].
      destruct (Hd p id h Hp (or_introl Hn) Hid Hb) as [?|(todo & H1 & _)]; [by left|congruence].
  - split; simpl; try done.
    + intros p' [[= <-]|[H1|[? [= <- _]]]]; apply Hf; auto.
    + intros p' q todo [= <- _] Hq _. rewrite (Hl _ eq_refl) in Hq. congruence.
    + intros p' _ [= <-]. right; right; right. by eexists.
    + intros p' id h Hp [Hn|[? [= <- _]]] Hid Hb; [done|].
      right. eexists. split; [done|].
      match goal with Hp : order ≡ₚ _ |- _ => rewrite Hp end. by apply elem_of_map_to_list.
  - split; simpl; try done.
    + intros p [H1|[H1|[? H1]]]; [done|apply Hf; auto|done].
    + intros p id h Hp _ Hid Hb.
      destruct (Hd p id h Hp (or_introl eq_refl) Hid Hb) as [?|(todo & H1 & _)]; [by left|congruence].
Qed.

Lemma td_Inv_deliver m m' : Inv m → deliver m = Some m' → Inv m'.
Proof.
  intros [Hf Hl Hs Ho Hsg Hd Hst] E. unfold deliver in E. inv_exec. rename td into p0.
  split; simpl; try done.
  - intros p [H1|[H1|[? [= <- _]]]]; apply Hf; eauto.
  - intros p q todo [= <- _]. by apply (Hs p0 q _ eq_refl).
  - intros p Hop Hp. destruct (Hsg p Hop Hp) as [H1|[H1|[H1|[? H1]]]];
      [by left|by right; left|by rewrite Heqp in H1|]. rewrite Heqp in H1. injection H1 as <- <-.
    right; right; right. by eexists.
  - intros p id' h' Hp Hn Hid Hb.
    assert (registered_before id' m) as Hb' by (intros h'' Hin; apply (Hb h''); simpl; by right).
    assert (t_lastTD m = None ∨ ∃ todo, PDelivering p0 ((z, n) :: l) = PDelivering p todo) as Hn'.
    { destruct Hn as [Hn|[? [= <- _]]]; [by left|right; by eexists]. }
    destruct (Hd p id' h' Hp Hn' Hid Hb') as [H1|(todo & H1 & Hin)].
    + left. simpl. by right.
    + rewrite Heqp in H1. injection H1 as <- <-. apply elem_of_cons in Hin as [[= -> ->]|Hin].
      * left. simpl. by left.
      * right. by eexists.
Qed.

Lemma td_Inv_handler_end m m' : Inv m → handler_end m = Some m' → Inv m'.
Proof.
  intros [Hf Hl Hs Ho Hsg Hd Hst] E. unfold handler_end in E. inv_exec. rename td into p0.
  set (swapped := match t_lastTD m with Some td' => (td'.1 =? p0.1)%nat | None => false end).
  assert (∀ p, t_lastTD m = Some p → swapped = false → p ≠ p0) as Hne.
  { intros p Hp Hsw ->. unfold swapped in Hsw. rewrite Hp in Hsw. by rewrite Nat.eqb_refl in Hsw. }
  assert (swapped = true → t_lastTD m = Some p0) as Heq.
  { unfold swapped. destruct (t_lastTD m) as [p|] eqn:Ep; [|done]. intros Hsw%Nat.eqb_eq.
    f_equal. symmetry. apply (Hs p0 p _ eq_refl); [by apply Hl|done]. }
  split; simpl; fold swapped.
  - intros p [H1|[H1|[? H1]]]; [|apply Hf; auto|done]. destruct swapped; [done|]. apply Hf; auto.
  - intros p Hp. destruct swapped; [done|]. by apply Hl.
  - done.
  - done.
  - intros p Hop Hp. destruct swapped eqn:Esw; [done|]. destruct (Hsg p Hop Hp) as [H1|[H1|[H1|[? H1]]]];
      [by left|by right; left|by rewrite Heqp in H1|]. exfalso. apply (Hne p Hp eq_refl).
    rewrite Heqp in H1. by injection H1 as -> _.
  - intros p id h Hp [Hn|[? H1]] Hid Hb; [|done].
    assert (t_lastTD m = None ∨ ∃ todo, PDelivering p0 [] = PDelivering p todo) as Hn'.
    { destruct swapped eqn:Esw; [|by left]. specialize (Heq eq_refl). right. exists [].
      rewrite (Hl _ Heq) in Hp. by injection Hp as <-. }
    destruct (Hd p id h Hp Hn' Hid Hb) as [H1|(todo & H1 & Hin)]; [by left|].
    rewrite Heqp in H1. injection H1 as <- <-. by apply elem_of_nil in Hin.
  - exact Hst.
Qed.

Lemma Inv_closing m : t_stopped m = false → Inv m → Inv (set_t_closing true (t_chanClosed m) CStopped m).
Proof.
  intros Hs0 [Hf Hl Hs Ho Hsg Hd Hst]. assert (open m) as Hop by (left; by apply Hst).
  split; simpl; try done; intros; [by apply Ho | by apply Hsg].
Qed.

Lemma Inv_closed closed c m :
  t_closing m ≠ CIdle → c = CChanClosed ∨ c = CDone → Inv m →
  Inv (set_t_closing (t_stopped m) closed c m).
Proof.
  intros Hne Hc [Hf Hl Hs Ho Hsg Hd Hst].
  split; simpl; try done; intros; unfold open in *; simpl in *; naive_solver.
Qed.

Lemma td_Inv_step m l m' : Inv m → step m l m' → Inv m'.
Proof.
  intros HI E. unfold step, exec in E. destruct (t_panicked m); [done|].
  destruct l; try (injection E as <-).
  - by apply Inv_register.
  - by apply Inv_unregister.
  - by apply Inv_notify_store.
  - by eapply Inv_notify_send.
  - by eapply Inv_receive.
  - by eapply Inv_handler_start.
  - by eapply td_Inv_deliver.
  - by eapply td_Inv_handler_end.
  - unfold close_begin. destruct (t_stopped m) eqn:Es; [done | by apply Inv_closing].
  - unfold close_channel in E. destruct (t_closing m) eqn:Ec; try done. injection E as <-.
    apply (Inv_emit (set_t_closing (t_stopped m) true CChanClosed m) [EvDetach]
             (t_subscriptions m)); [done|done|]. apply Inv_closed; [by rewrite Ec | by left | done].
  - unfold close_subscriptions in E. destruct (t_closing m) eqn:Ec; try done. inv_exec.
    apply (Inv_emit (set_t_closing (t_stopped m) (t_chanClosed m) CDone m)).
    + rewrite forallb_forall. intros ev Hev%in_rev%list_elem_of_In.
      apply list_elem_of_fmap in Hev as (? & -> & _). done.
    + intros id h Hid. by rewrite lookup_empty in Hid.
    + apply Inv_closed; [by rewrite Ec | by right | done].
Qed.

(** C27 No change of the thing description is lost.  In every interleaving of
    notifications, (un)registrations, a closing that has not begun and the steps of the
    event loop: when the loop is idle, the channel is empty and no notification is being
    made, every subscriber that was registered before the last notification and still is
    has been given the thing description of that notification, after it. *)
Theorem td_last_delivered ls m td id h :
  runs step New ls m → t_closing m = CIdle →
  t_phase m = PIdle → t_chan m = false → t_sending m = O →
  last_notify (t_trace m) = Some td →
  t_subscriptions m !! id = Some h → registered_before id m →
  EvDeliver id h td ∈ since_notify (t_trace m).
Proof.
  intros Hr Hc Hp Hch Hs Hl Hid Hb.
  destruct (runs_invariant _ Inv td_Inv_step _ _ _ Hr Inv_New) as [Hf Hlast _ _ Hsg Hd _].
  destruct (t_lastTD m) as [td'|] eqn:Etd.
  - destruct (Hsg td' (or_introl Hc) eq_refl) as [?|[?|[?|[? ?]]]]; congruence.
  - destruct (Hd td id h Hl (or_introl eq_refl) Hid Hb) as [?|(todo & ? & _)]; [done|congruence].
Qed.

(** *** The order of the deliveries *)

Definition seen_below (m : Manager) : Prop :=
  match t_phase m with
  | PDelivering q todo =>
      NoDup todo.*1 ∧
      (∀ id n, n ∈ delivered id (t_trace m) → (n ≤ q.1)%nat ∧ (id ∈ todo.*1 → (n < q.1)%nat)) ∧
      (q.1 < t_nextPtr m)%nat ∧ (∀ p, t_lastTD m = Some p → (q.1 ≤ p.1)%nat)
  | _ => ∀ id n, n ∈ delivered id (t_trace m) →
           (n < t_nextPtr m)%nat ∧ (∀ p, t_lastTD m = Some p → (n < p.1)%nat)
  end.
Record Ordered (m : Manager) : Prop := {
  o_sorted : ∀ id, StronglySorted gt (delivered id (t_trace m));
  o_last : ∀ p, t_lastTD m = Some p → (p.1 < t_nextPtr m)%nat;
  o_seen : seen_below m }.

Lemma delivered_app id evs tr : delivered id (evs ++ tr) = delivered id evs ++ delivered id tr.
Proof. unfold delivered. by rewrite omap_app. Qed.

Lemma delivered_none id evs :
  Forall (fun ev => match ev with EvDeliver _ _ _ => False | _ => True end) evs →
  delivered id evs = [].
Proof. induction 1 as [|ev evs Hev _ IH]; [done|]. by destruct ev. Qed.

Lemma Ordered_same m m' :
  (∀ id, delivered id (t_trace m') = delivered id (t_trace m)) →
  t_lastTD m' = t_lastTD m → t_phase m' = t_phase m → t_nextPtr m' = t_nextPtr m →
  Ordered m → Ordered m'.
Proof.
  intros Htr Hl Hp Hn [Hs Ho Hb]. split.
  - intros id. by rewrite Htr.
  - intros p. rewrite Hl, Hn. apply Ho.
  - unfold seen_below in *. rewrite Hp, Hl, Hn. destruct (t_phase m) as [|closed|q todo];
      [by intros id n Hin; rewrite Htr in Hin; apply (Hb id)..|].
    destruct Hb as (? & Hb & ? & ?). split_and!; [done| |done..].
    intros id n Hin. rewrite Htr in Hin. by apply Hb.
Qed.

Lemma Ordered_deliver m m' : Ordered m → deliver m = Some m' → Ordered m'.
Proof.
  intros [Hs Ho Hb] E. unfold deliver in E. destruct (t_phase m) as [| |td [|[id h] todo]] eqn:Ep; try done.
  injection E as <-. unfold seen_below in Hb. rewrite Ep in Hb.
  destruct Hb as (Hnd & Hb & Hq & Hl). apply NoDup_cons in Hnd as [Hnin Hnd].
  assert (∀ id', delivered id' (t_trace (temit [EvDeliver id h td]
            (set_t_lastTD (t_lastTD m) (PDelivering td todo) m))) =
          (if bool_decide (id = id') then [td.1] else []) ++ delivered id' (t_trace m)) as Htr.
  { intros id'. simpl. unfold delivered. cbn [omap list_omap]. by case_bool_decide. }
  split; [|exact Ho|].
  - intros id'. rewrite Htr. case_bool_decide as E; [subst id'|apply Hs].
    constructor; [apply Hs|]. apply Forall_forall. intros n Hn. apply Hb in Hn as [_ Hn].
    apply Hn. by left.
  - unfold seen_below. cbn [t_phase temit set_t_lastTD t_lastTD t_nextPtr].
    split_and!; [done| |done..]. intros id' n Hn. rewrite Htr in Hn. apply elem_of_app in Hn.
    case_bool_decide as E; [subst id'|].
    + destruct Hn as [->%list_elem_of_singleton|Hn]; [by split; [|intros ?]|].
      destruct (Hb _ _ Hn) as [? Hlt]. by split; [|intros ?].
    + destruct Hn as [Hn%elem_of_nil|Hn]; [done|]. destruct (Hb _ _ Hn) as [? Hlt].
      split; [done|]. intros Hin. apply Hlt. by right.
Qed.

Lemma Ordered_step m l m' : Ordered m → step m l m' → Ordered m'.
Proof.
  intros HO E. unfold step, exec in E. destruct (t_panicked m); [done|].
  destruct l; try (injection E as <-).
  1,2: by apply (Ordered_same m).
  - destruct HO as [Hs Ho Hb]. split; [exact Hs| |].
    + intros p. simpl. intros [= <-]. simpl. lia.
    + unfold seen_below in *. cbn [t_phase notify_store temit t_lastTD t_nextPtr t_trace].
      destruct (t_phase m) as [| |q todo].
      1,2: intros id n Hn; destruct (Hb id n Hn) as [Hlt _]; split; [lia|by intros p [= <-]].
      destruct Hb as (? & Hb & ? & ?). split_and!; [done|exact Hb|lia|]. intros p [= <-]. simpl. lia.
  - unfold notify_send in E. destruct (t_sending m); [done|]. injection E as <-.
    by apply (Ordered_same m).
  - unfold receive in E. destruct (t_phase m) eqn:Ep; try done.
    assert (∀ p, p = PReceived false ∨ p = PReceived true → Ordered (set_t_chan false p m)) as Hgo.
    { intros p Hp. destruct HO as [Hs Ho Hb]. split; [exact Hs|exact Ho|].
      unfold seen_below in *. rewrite Ep in Hb. by destruct Hp as [-> | ->]. }
    inv_exec; apply Hgo; auto.
  - unfold handler_start in E. destruct (t_phase m) as [|closed|] eqn:Ep; try done.
    destruct HO as [Hs Ho Hb]. unfold seen_below in Hb. rewrite Ep in Hb.
    destruct closed; [injection E as <-; by split|].
    destruct (t_lastTD m) as [td|] eqn:Etd; [|injection E as <-; by split; [|intros p|]].
    destruct (bool_decide _) eqn:Eb; [|done]. injection E as <-. apply bool_decide_eq_true in Eb.
    split; [exact Hs|exact Ho|].
    unfold seen_below. cbn [t_phase set_t_lastTD t_lastTD t_nextPtr]. split_and!.
    + rewrite Eb. apply NoDup_fst_map_to_list.
    + intros id n Hn. destruct (Hb id n Hn) as [_ Hlt]. specialize (Hlt td eq_refl). split; lia.
    + by apply Ho.
    + by intros p [= <-].
  - by eapply Ordered_deliver.
  - unfold handler_end in E. destruct (t_phase m) as [| |q [|? ?]] eqn:Ep; try done. injection E as <-.
    destruct HO as [Hs Ho Hb]. unfold seen_below in Hb. rewrite Ep in Hb.
    destruct Hb as (_ & Hb & Hq & Hl). split; [exact Hs| |].
    + intros p. simpl. repeat case_match; naive_solver.
    + unfold seen_below. cbn [t_phase set_t_lastTD t_lastTD t_nextPtr t_trace].
      intros id n Hn. destruct (Hb id n Hn) as [Hle _]. split; [lia|]. intros p Hp.
      destruct (t_lastTD m) as [p'|]; [|done]. destruct (Nat.eqb_spec p'.1 q.1) as [|Hne]; [done|].
      injection Hp as <-. specialize (Hl _ eq_refl). lia.
  - unfold close_begin. destruct (t_stopped m); [done|]. by apply (Ordered_same m).
  - unfold close_channel in E. destruct (t_closing m); try done. injection E as <-.
    by apply (Ordered_same m).
  - unfold close_subscriptions in E. destruct (t_closing m); try done. inv_exec.
    apply (Ordered_same m); try done. intros id. simpl. rewrite delivered_app.
    rewrite delivered_none; [done|]. apply Forall_forall.
    intros ev Hev%list_elem_of_In%in_rev%list_elem_of_In.
    by apply list_elem_of_fmap in Hev as (? & -> & _).
Qed.

(** The thing descriptions a subscriber is given are in the order of the
    notifications, each at most once: the numbers of the calls decrease strictly from
    the latest delivery back, in every interleaving, closing included. *)
Theorem td_deliveries_ordered ls m id :
  runs step New ls m → StronglySorted gt (delivered id (t_trace m)).
Proof.
  intros Hr. apply (runs_invariant _ Ordered Ordered_step _ _ _ Hr).
  split; [intros ?; constructor | done |]. intros ? ? Hn. by apply elem_of_nil in Hn.
Qed.

(** A notification after [Close] closed the channel ends the process: the send
    panics; and it is the only way to panic. *)
Theorem td_notify_panics ls m :
  runs step New ls m →
  (t_panicked m = true → t_chanClosed m = true) ∧
  (t_panicked m = false → t_chanClosed m = true → ∀ td, ∃ m',
     runs step m [LNotifyStore td; LNotifySend] m' ∧ t_panicked m' = true).
Proof.
  intros Hr. split.
  - revert Hr. generalize (eq_refl : t_panicked New = false). generalize New.
    intros m0 Hm0 Hr.
    refine (runs_invariant _ (fun m => t_panicked m = true → t_chanClosed m = true) _ _ _ _ Hr _);
      [|by rewrite Hm0].
    clear. intros m l m' HI E. unfold step, exec in E.
    destruct (t_panicked m) eqn:Ep; [done|]. destruct l; simpl in E;
      unfold notify_send, receive, handler_start, deliver, handler_end, close_begin, close_channel,
        close_subscriptions in E; inv_exec; simpl; try (by rewrite Ep); try done.
    destruct (t_stopped m); simpl; by rewrite Ep.
  - intros Hp Hc td. eexists. split.
    + eapply runs_cons; [unfold step, exec; by rewrite Hp|].
      eapply runs_cons; [|apply runs_nil]. unfold step, exec. simpl. by rewrite Hp.
    + simpl. by rewrite Hp, Hc.
Qed.
End Props.

(** ** The properties at concrete inputs *)


Section Examples.
#[local] Instance ex_tdm_TdEnv : TdEnv := {|
  Url := string; url_Parse s := Ok s; Uri := string; uri_Parse s := Ok s;
  media_String m := ""; PeRest := unit; TdRest := unit |}.
Definition ex_td_named (title : string) : ThingDescription :=
  {| td_Context := None; td_ID := None; td_Title := title; td_Base := None; td_Security := None;
     td_SecurityDefinitions := None; td_Properties := None; td_rest := tt |}.

(** Two subscribers; the second notification comes while the loop delivers the
    first, and its signal fills the slot. *)
Definition ex_td_labels : list TLabel :=
  [LRegister 10; LRegister 11; LNotifyStore (ex_td_named "a"); LNotifySend; LReceive;
   LStart [(1, 10%nat); (2, 11%nat)]; LDeliver; LNotifyStore (ex_td_named "b"); LNotifySend; LDeliver; LEnd;
   LReceive; LStart [(2, 11%nat); (1, 10%nat)]; LDeliver; LDeliver; LEnd].
Definition ex_td_final : Manager := default New (execs exec New ex_td_labels).

Lemma td_last_delivered_witness :
  EvDeliver 2 11 (1%nat, ex_td_named "b") ∈ since_notify (t_trace ex_td_final).
Proof.
  apply (td_last_delivered ex_td_labels ex_td_final).
  1: apply execs_runs.
  1-7: vm_compute; reflexivity.
  - intros h Hin. vm_compute in Hin. repeat (apply elem_of_cons in Hin as [Hin|Hin]; [discriminate Hin|]).
    inversion Hin.
Defined.
Lemma td_deliveries_ordered_witness :
  delivered 1 (t_trace ex_td_final) = [1; 0]%nat ∧ StronglySorted gt (delivered 1 (t_trace ex_td_final)).
Proof.
  split; [vm_compute; reflexivity|].
  apply (td_deliveries_ordered ex_td_labels). apply execs_runs. vm_compute. reflexivity.
Defined.
Definition ex_td_closed : Manager := default New (execs exec New [LRegister 10; LClose; LCloseChannel]).
Lemma td_notify_panics_witness : ∃ m',
  runs step ex_td_closed [LNotifyStore (ex_td_named "a"); LNotifySend] m' ∧ t_panicked m' = true.
Proof.
  apply (td_notify_panics [LRegister 10; LClose; LCloseChannel]); [|vm_compute; reflexivity..].
  apply execs_runs. vm_compute. reflexivity.
Defined.
End Examples.
