(* ===== verification/CloudProps.v ===== *)
(** * CloudProps: properties of the cloud client

    The safety invariant of the manager in every reachable state of the running
    system, the outcomes of the connection sequence, the reset, and the
    publication of resources.  All of them hold for an arbitrary environment
    unless a hypothesis on it is stated. *)

From S2P Require Export CloudManager.

(** ** The invariant *)

(** What holds between any two steps: a resource is never both to be published
    and to be unpublished, the trigger channel holds at most its capacity, a
    signed-in manager has an access token, and the done channel is closed
    exactly when the manager is stopped. *)
Record Inv (m : Manager) : Prop := {
  inv_disjoint : default ∅ (m_readyToPublish m) ## default ∅ (m_readyToUnpublish m);
  inv_trigger : (length (m_trigger m) <= trigger_capacity)%nat;
  inv_signedIn : m_signedIn m = true → AccessToken (m_creds m) ≠ "";
  inv_done : m_doneClosed m = m_stopped m }.

(** With a non-empty access token: what the sign-in relies on while it waits. *)
Definition InvTok (m : Manager) : Prop := Inv m ∧ AccessToken (m_creds m) ≠ "".

Ltac inv_tac :=
  match goal with H : Inv _ |- Inv _ => destruct H as [?Hd ?Ht ?Hs ?Hn] end;
  split; simpl in *; auto; try set_solver; try lia; try done.

Lemma Inv_zero : Inv zero_manager.
Proof. split; simpl; try done; try lia; set_solver. Qed.

Lemma triggerRunner_same b m :
  m_readyToPublish (triggerRunner b m) = m_readyToPublish m ∧
  m_readyToUnpublish (triggerRunner b m) = m_readyToUnpublish m ∧
  m_creds (triggerRunner b m) = m_creds m ∧ m_cfg (triggerRunner b m) = m_cfg m ∧
  m_client (triggerRunner b m) = m_client m ∧ m_signedIn (triggerRunner b m) = m_signedIn m ∧
  m_resourcesPublished (triggerRunner b m) = m_resourcesPublished m.
Proof. unfold triggerRunner. by destruct (_ <? _)%nat. Qed.

Lemma Inv_triggerRunner b m : Inv m → Inv (triggerRunner b m).
Proof.
  intros HI. unfold triggerRunner. destruct (Nat.ltb_spec (length (m_trigger m)) trigger_capacity); [|done].
  inv_tac. rewrite length_app. simpl. lia.
Qed.

Lemma Inv_setCloudConfiguration cfg m : Inv m → Inv (setCloudConfiguration cfg m).
Proof. intros HI. unfold setCloudConfiguration. case_bool_decide; inv_tac. Qed.
Lemma Inv_setProvisioningStatus st m : Inv m → Inv (setProvisioningStatus st m).
Proof. intros HI. inv_tac. Qed.
Lemma Inv_setCreds c m : Inv m → Inv (setCreds c m).
Proof. intros HI. inv_tac. Qed.
Lemma Inv_resetPublishing m : Inv m → Inv (resetPublishing m).
Proof. intros HI. inv_tac. Qed.
Lemma Inv_importConfig cfg m : Inv m → Inv (importConfig cfg m).
Proof. intros HI. by apply Inv_setCreds, Inv_setCloudConfiguration. Qed.
Lemma Inv_close_client c m : Inv m → Inv (set_m_client c (set_m_signedIn false m)).
Proof. intros HI. inv_tac. Qed.

#[export] Hint Resolve Inv_triggerRunner Inv_setCloudConfiguration Inv_setProvisioningStatus
  Inv_setCreds Inv_resetPublishing Inv_importConfig Inv_close_client : cloud.

Lemma foldl_Inv {A} (f : Manager → A → Manager) l m :
  (∀ m x, Inv m → Inv (f m x)) → Inv m → Inv (foldl f m l).
Proof. intros Hf. revert m. induction l; simpl; auto. Qed.

Lemma Inv_PublishResources hrefs m : Inv m → Inv (PublishResources hrefs m).
Proof.
  intros HI. apply Inv_triggerRunner, foldl_Inv; [|inv_tac].
  intros m' h HI'. inv_tac. destruct (m_readyToUnpublish m'); simpl in *; set_solver.
Qed.
Lemma Inv_UnpublishResources hrefs m : Inv m → Inv (UnpublishResources hrefs m).
Proof.
  intros HI. apply Inv_triggerRunner, foldl_Inv; [|inv_tac].
  intros m' h HI'. inv_tac. destruct (m_readyToPublish m'); simpl in *; set_solver.
Qed.
#[export] Hint Resolve Inv_PublishResources Inv_UnpublishResources : cloud.

Lemma setCloudConfiguration_creds cfg m :
  m_creds (setCloudConfiguration cfg m) = m_creds m ∧
  m_client (setCloudConfiguration cfg m) = m_client m ∧
  m_signedIn (setCloudConfiguration cfg m) = m_signedIn m ∧
  m_resourcesPublished (setCloudConfiguration cfg m) = m_resourcesPublished m.
Proof. unfold setCloudConfiguration. by case_bool_decide. Qed.

Lemma foldl_same {A B} (g : Manager → B) (f : Manager → A → Manager) l m :
  (∀ m x, g (f m x) = g m) → g (foldl f m l) = g m.
Proof. intros Hf. revert m. induction l as [|x l IH]; intros m; simpl; [done|]. by rewrite IH, Hf. Qed.

Section Props.
Context `{HKit : Kit} `{HUuid : Uuids}.
Context `{HC1 : Cbor Configuration} `{HC2 : Cbor ConfigurationUpdateRequest}.
Context `{HC3 : Cbor CoapSignUpRequest} `{HC4 : Cbor CoapSignUpResponse}.
Context `{HC5 : Cbor CoapSignInRequest} `{HC6 : Cbor CoapSignInResponse}.
Context `{HC7 : Cbor CoapRefreshTokenRequest} `{HC8 : Cbor CoapRefreshTokenResponse}.
Context `{HC9 : Cbor PublishResourcesRequest}.
Context `{HEnv : CloudEnv}.
Context (deviceID : UUID) (tickInterval : Z) (loop_fuel : nat).

Lemma Inv_Post body m : Inv m → Inv (Cloud_Post body m).2.
Proof.
  intros HI. unfold Cloud_Post. destruct (ReadFrom body); [|done].
  case_bool_decide; simpl; [auto with cloud|].
  destruct (validateConfigurationUpdate a); simpl; auto with cloud.
Qed.

(** No API call touches the credentials. *)
Lemma api_call_creds c m : m_creds (api_call c m) = m_creds m.
Proof.
  destruct c; simpl.
  - unfold Cloud_Post. destruct (ReadFrom body) as [cfg|]; [|done].
    case_bool_decide; [|destruct (validateConfigurationUpdate cfg); [|done]]; simpl;
      (etransitivity; [apply triggerRunner_same | apply setCloudConfiguration_creds]).
  - etransitivity; [apply triggerRunner_same|]. by rewrite foldl_same.
  - etransitivity; [apply triggerRunner_same|]. by rewrite foldl_same.
  - by etransitivity; [apply triggerRunner_same|].
  - etransitivity; [apply triggerRunner_same | apply setCloudConfiguration_creds].
  - unfold Close. by destruct (m_stopped m).
  - unfold onConnClosed. by case_bool_decide.
Qed.

Lemma Inv_api_call c m : Inv m → Inv (api_call c m).
Proof.
  intros HI. destruct c; simpl; auto using Inv_Post with cloud.
  - unfold Reconnect. apply Inv_triggerRunner. inv_tac.
  - unfold Unregister. auto with cloud.
  - unfold Close. destruct (m_stopped m) eqn:?; [done|]. inv_tac.
  - unfold onConnClosed. case_bool_decide; [|done]. inv_tac.
Qed.

Lemma InvTok_api_call c m : InvTok m → InvTok (api_call c m).
Proof. intros [HI Ht]. split; [by apply Inv_api_call | by rewrite api_call_creds]. Qed.

(** ** The invariant is kept by every handler *)

Abbreviation keepsI m := (keeps (fun w => Inv (w_m w)) m).
Abbreviation keepsT m := (keeps (fun w => InvTok (w_m w)) m).

(** State predicates that the non-blocking parts of [M] cannot disturb. *)
Class ApiStable (P : Manager → Prop) := api_stable : ∀ c m, P m → P (api_call c m).
#[local] Instance ApiStable_Inv : ApiStable Inv := Inv_api_call.
#[local] Instance ApiStable_InvTok : ApiStable InvTok := InvTok_api_call.

Lemma keeps_getm {A} (P : Manager → Prop) (f : Manager → A) :
  keeps (fun w => P (w_m w)) (getm f).
Proof. by intros w Hw. Qed.
Lemma keeps_upd (P : Manager → Prop) f :
  (∀ m, P m → P (f m)) → keeps (fun w => P (w_m w)) (upd f).
Proof. intros Hf w Hw. by apply Hf. Qed.
Lemma keeps_emit (P : Manager → Prop) ev : keeps (fun w => P (w_m w)) (emit ev).
Proof. by intros w Hw. Qed.
Lemma keeps_ask {A} (P : Manager → Prop) (f : Env → A * Env) :
  keeps (fun w => P (w_m w)) (ask f).
Proof. intros w Hw. unfold ask. by destruct (f (w_env w)). Qed.
Lemma keeps_interfere (P : Manager → Prop) `{HP : ApiStable P} :
  keeps (fun w => P (w_m w)) interfere.
Proof.
  intros [m e tr] Hw. unfold interfere. simpl in *. destruct (env_calls e) as [calls e']. simpl.
  clear e e'. revert m Hw. induction calls as [|c cs IH]; simpl; auto.
Qed.
Hint Resolve ApiStable_Inv ApiStable_InvTok keeps_getm keeps_emit keeps_ask
  keeps_interfere : keeps.

Lemma keeps_save P : keeps (fun w => P (w_m w)) save.
Proof. apply keeps_emit. Qed.
Lemma keeps_now P : keeps (fun w => P (w_m w)) now.
Proof. apply keeps_ask. Qed.
Lemma keeps_client_Do P `{HP : ApiStable P} conn req :
  keeps (fun w => P (w_m w)) (client_Do conn req).
Proof. unfold client_Do. keeps_tac. Qed.
Lemma keeps_newRequestWithToken P uri : keeps (fun w => P (w_m w)) (newRequestWithToken uri).
Proof. unfold newRequestWithToken. keeps_tac. Qed.
Hint Resolve keeps_save keeps_now keeps_client_Do keeps_newRequestWithToken : keeps.
Lemma keeps_newPostRequest {A} P `{Cbor A} uri (d : A) :
  keeps (fun w => P (w_m w)) (newPostRequest uri d).
Proof. unfold newPostRequest. keeps_tac. Qed.
Lemma keeps_newDeleteRequest P uri : keeps (fun w => P (w_m w)) (newDeleteRequest uri).
Proof. unfold newDeleteRequest. keeps_tac. Qed.
Lemma keeps_newSignOffReq P uid : keeps (fun w => P (w_m w)) (newSignOffReq deviceID uid).
Proof. unfold newSignOffReq. keeps_tac. Qed.
Hint Resolve keeps_newPostRequest keeps_newDeleteRequest keeps_newSignOffReq : keeps.

(** Monadic structure first, then the state updates. *)
Ltac inv_keeps :=
  keeps_tac; try (apply keeps_upd; intros; auto with cloud; try (inv_tac; fail)).

Lemma keeps_replaceClient c : keepsI (replaceClient c).
Proof. unfold replaceClient. inv_keeps. Qed.
Hint Resolve keeps_replaceClient : keeps.
Lemma keeps_close : keepsI close.
Proof. unfold close. inv_keeps. Qed.
Hint Resolve keeps_close : keeps.
Lemma keeps_client_alive cc : keepsI (client_alive cc).
Proof. unfold client_alive. keeps_tac. Qed.
Hint Resolve keeps_client_alive : keeps.
Lemma keeps_dial : keepsI dial.
Proof. unfold dial. inv_keeps. Qed.
Lemma keeps_signOff : keepsI (signOff deviceID).
Proof. unfold signOff. inv_keeps. Qed.
Hint Resolve keeps_dial keeps_signOff : keeps.
Lemma keeps_removePreviousCloudIDs : keepsI removePreviousCloudIDs.
Proof. unfold removePreviousCloudIDs, popPreviousCloudIDs. inv_keeps. Qed.
Hint Resolve keeps_removePreviousCloudIDs : keeps.
Lemma keeps_resetCredentials b : keepsI (resetCredentials deviceID b).
Proof. unfold resetCredentials. inv_keeps. Qed.
Hint Resolve keeps_resetCredentials : keeps.
Lemma keeps_cleanup : keepsI (cleanup deviceID).
Proof. unfold cleanup. inv_keeps. Qed.
Hint Resolve keeps_cleanup : keeps.
Lemma keeps_signUp : keepsI (signUp deviceID).
Proof. unfold signUp. inv_keeps. Qed.
Lemma keeps_refreshToken : keepsI (refreshToken deviceID).
Proof. unfold refreshToken. inv_keeps. Qed.
Lemma keeps_publishResources : keepsI (publishResources deviceID).
Proof. unfold publishResources, popReadyToPublishResources. inv_keeps. Qed.
Hint Resolve keeps_signUp keeps_refreshToken keeps_publishResources : keeps.

Lemma pop_loop_eq hrefs count acc ready :
  pop_loop hrefs count acc ready =
    (acc ++ take count hrefs, ready ∖ list_to_set (take count hrefs)).
Proof.
  revert count acc ready. induction hrefs as [|h hrefs IH]; intros [|count] acc ready; simpl;
    rewrite ?app_nil_r; try (f_equal; set_solver).
  rewrite IH. f_equal; [by rewrite <- app_assoc | set_solver].
Qed.

(** The batch taken by [popReadyToUnpublishResources] and what it leaves. *)
Definition batch (w : World) : list string :=
  take unpublish_limit (env_order (w_env w) (default ∅ (m_readyToUnpublish (w_m w)))).
Definition after_batch (w : World) : option (gset string) :=
  let rest := default ∅ (m_readyToUnpublish (w_m w)) ∖ list_to_set (batch w) in
  if bool_decide (rest = ∅) then None else Some rest.

Lemma pop_unpublish_eq w :
  popReadyToUnpublishResources unpublish_limit w =
    (Ok (batch w), {| w_m := set_m_readyToUnpublish (after_batch w) (w_m w);
                      w_env := w_env w; w_trace := w_trace w |}).
Proof.
  unfold popReadyToUnpublishResources, getm, gets, upd, modify, mbind, ME_bind, mret, ME_ret.
  rewrite pop_loop_eq. done.
Qed.

Lemma after_batch_default w :
  default ∅ (after_batch w) =
    default ∅ (m_readyToUnpublish (w_m w)) ∖ list_to_set (batch w).
Proof. unfold after_batch. case_bool_decide as E; simpl; [by rewrite E | done]. Qed.

Lemma keeps_pop_unpublish : keepsI (popReadyToUnpublishResources unpublish_limit).
Proof.
  intros w HI. rewrite pop_unpublish_eq. simpl. destruct HI. split; simpl; auto.
  rewrite after_batch_default. set_solver.
Qed.
Hint Resolve keeps_pop_unpublish : keeps.

Lemma keeps_unpublish_loop fuel : keepsI (unpublish_loop deviceID fuel).
Proof. induction fuel; simpl; inv_keeps. Qed.
Lemma keeps_unpublishResources : keepsI (unpublishResources deviceID loop_fuel).
Proof. apply keeps_unpublish_loop. Qed.
Hint Resolve keeps_unpublishResources : keeps.

(** From the check of the token to the answer, the token stays. *)
Lemma keeps_signIn : keepsI (signIn deviceID).
Proof.
  unfold signIn. apply keeps_bind; [keeps_tac|]. intros [conn|]; [|keeps_tac].
  apply keeps_bind; [keeps_tac|]. intros [|]; [keeps_tac|].
  apply (triple_bind _ _ _ (fun _ w => Inv (w_m w))
            (fun creds w => Inv (w_m w) ∧ m_creds (w_m w) = creds)); [by intros w HI|].
  intros creds. unfold MakeSignInRequest.
  destruct (bool_decide_reflect (AccessToken creds = "")) as [|Htok]; [by intros w [HI _]|].
  eapply triple_conseq with (P' := fun w => InvTok (w_m w));
    [|intros w [? <-]; done | intros ? ? H; exact H].
  apply triple_bind_inv;
    [keeps_tac | by intros ? w [] | intros signInReq].
  apply triple_bind_inv; [keeps_tac | by intros ? w [] | intros req].
  apply triple_bind_inv;
    [apply keeps_upd; intros m [? ?]; split; [auto with cloud | done] | by intros ? w [] | intros _].
  apply triple_bind_inv; [keeps_tac | by intros ? w [] | intros resp].
  destruct (negb (m_code resp =? codes_Changed)).
  { apply (keeps_weaken (fun w => Inv (w_m w))); [inv_keeps | by intros w [] | done]. }
  apply triple_bind_inv; [keeps_tac | by intros ? w [] | intros r].
  apply triple_bind_inv; [keeps_tac | by intros ? w [] | intros t].
  apply triple_bind_inv; [| by intros ? w [] | intros _ w [? ?]; done].
  apply keeps_upd. intros m [HI Ht]. split; [|done]. inv_tac.
Qed.
Hint Resolve keeps_signIn : keeps.

Lemma keeps_isCredsExpiring : keepsI (isCredsExpiring tickInterval).
Proof. unfold isCredsExpiring. inv_keeps. Qed.
Hint Resolve keeps_isCredsExpiring : keeps.

Lemma keeps_run_steps funcs : (∀ f, f ∈ funcs → keepsI f) → keepsI (run_steps funcs).
Proof.
  induction funcs as [|f funcs IH]; intros Hf; cbn [run_steps]; [keeps_tac|].
  apply keeps_bind; [apply keeps_catch, Hf; constructor|].
  intros [|]; [apply IH; intros; apply Hf; by constructor | inv_keeps].
Qed.

Lemma keeps_connect : keepsI (connect deviceID tickInterval loop_fuel).
Proof.
  unfold connect. do 4 (apply keeps_bind; [inv_keeps | intros ?]).
  apply keeps_run_steps. intros f Hf. destruct (_ || _); simpl in Hf;
    repeat (apply elem_of_cons in Hf as [-> | Hf]; [auto with keeps nocore|]); set_solver.
Qed.
Hint Resolve keeps_connect : keeps.

Lemma keeps_connect_and_register :
  keepsI (connect_and_register deviceID tickInterval loop_fuel).
Proof. unfold connect_and_register. inv_keeps. Qed.
Hint Resolve keeps_connect_and_register : keeps.

Lemma keeps_handleTrigger b : keepsI (handleTrigger deviceID tickInterval loop_fuel b).
Proof. unfold handleTrigger. inv_keeps. Qed.
Lemma keeps_handleTimer : keepsI (handleTimer deviceID tickInterval loop_fuel).
Proof. unfold handleTimer. inv_keeps. Qed.
Lemma keeps_handleDone : keepsI handleDone.
Proof. unfold handleDone. inv_keeps. Qed.

Lemma Inv_step w l w' :
  Inv (w_m w) → step deviceID tickInterval loop_fuel w l w' → Inv (w_m w').
Proof.
  intros HI Hs. destruct Hs as [w c | w b rest w' Htr _ -> | w _ | w _ _].
  - by apply Inv_api_call.
  - apply keeps_handleTrigger. destruct HI as [Hd Ht Hs Hn]. split; simpl; auto.
    rewrite Htr in Ht. simpl in Ht. lia.
  - by apply keeps_handleTimer.
  - by apply keeps_handleDone.
Qed.

(** ** The outcome of the connection sequence *)

Definition disconnected (m : Manager) : Prop := m_client m = None ∧ m_signedIn m = false.

Lemma close_m w : w_m (close w).2 = set_m_client None (set_m_signedIn false (w_m w)).
Proof.
  unfold close, replaceClient, getm, gets, upd, modify, emit, ask, lift, mbind, ME_bind, mret,
    ME_ret. simpl. destruct (m_client (w_m w)); simpl; [|done].
  by destruct (env_close n (w_env w)).
Qed.

Lemma catch_close_m w : w_m (catch close w).2 = set_m_client None (set_m_signedIn false (w_m w)).
Proof. unfold catch. rewrite <- close_m. by destruct (close w). Qed.

Lemma disconnected_api_call c m : disconnected m → disconnected (api_call c m).
Proof.
  intros [Hc Hs]. unfold disconnected. destruct c; simpl.
  - unfold Cloud_Post. destruct (ReadFrom body) as [cfg|]; [|done].
    case_bool_decide; [|destruct (validateConfigurationUpdate cfg); [|done]]; simpl;
      unfold triggerRunner, setCloudConfiguration; repeat (case_bool_decide || case_match); done.
  - unfold PublishResources, triggerRunner. case_match; simpl;
      by rewrite (foldl_same m_client), (foldl_same m_signedIn).
  - unfold UnpublishResources, triggerRunner. case_match; simpl;
      by rewrite (foldl_same m_client), (foldl_same m_signedIn).
  - unfold Reconnect, triggerRunner. by case_match.
  - unfold Unregister, triggerRunner, setCloudConfiguration.
    repeat (case_bool_decide || case_match); done.
  - unfold Close. by case_match.
  - unfold onConnClosed. case_bool_decide; done.
Qed.
#[local] Instance ApiStable_disconnected : ApiStable disconnected := disconnected_api_call.
Hint Resolve ApiStable_disconnected : keeps.

Definition err_disc {A} (r : result A) (w : World) : Prop :=
  match r with Ok _ => True | Err _ => disconnected (w_m w) end.

Lemma noerr_getm {A} (f : Manager → A) : noerr (getm f).
Proof. apply noerr_gets. Qed.
Lemma noerr_upd f : noerr (upd f).
Proof. apply noerr_modify. Qed.
Lemma noerr_emit ev : noerr (emit ev).
Proof. apply noerr_modify. Qed.
Lemma noerr_ask {A} (f : Env → A * Env) : noerr (ask f).
Proof. intros w. unfold ask. destruct (f (w_env w)). by eexists. Qed.
Lemma noerr_interfere : noerr interfere.
Proof. intros w. unfold interfere. destruct (env_calls (w_env w)). by eexists. Qed.
Hint Resolve noerr_getm noerr_upd noerr_emit noerr_ask noerr_interfere : noerr.
Lemma noerr_now : noerr now.
Proof. apply noerr_ask. Qed.
Lemma noerr_save : noerr save.
Proof. apply noerr_emit. Qed.
Lemma noerr_replaceClient c : noerr (replaceClient c).
Proof. unfold replaceClient. auto with noerr. Qed.
Lemma noerr_client_alive cc : noerr (client_alive cc).
Proof. apply noerr_gets. Qed.
Hint Resolve noerr_now noerr_save noerr_replaceClient noerr_client_alive : noerr.
Lemma noerr_isCredsExpiring : noerr (isCredsExpiring tickInterval).
Proof.
  unfold isCredsExpiring. apply noerr_bind; [auto with noerr|]. intros c.
  destruct (_ =? _); auto with noerr.
Qed.
Hint Resolve noerr_isCredsExpiring : noerr.

Lemma triple_True {A} (m : ME World A) : triple (fun _ => True) m (fun _ _ => True).
Proof. by intros ? ?. Qed.
(** Skip an operation that cannot fail, forgetting what it does. *)
Ltac skip := eapply triple_noerr; [auto with noerr | apply triple_True | intros ?].

Lemma dial_error_disc : triple (fun _ => True) dial err_disc.
Proof.
  unfold dial. skip. skip. destruct a0; [by intros ? ?|].
  eapply triple_noerr with (T := fun w => disconnected (w_m w)); [auto with noerr| |intros _].
  { intros w _. by rewrite catch_close_m. }
  do 8 (apply triple_bind_inv; [keeps_tac | intros ? ? Hd; exact Hd | intros ?]).
  intros w _. exact I.
Qed.

Lemma run_steps_error_disc funcs : triple (fun _ => True) (run_steps funcs) err_disc.
Proof.
  induction funcs as [|f funcs IH]; cbn [run_steps]; [by intros ? ?|].
  intros w _. unfold mbind, ME_bind. unfold catch at 1 3.
  destruct (f w) as [[a|e] w']; [by apply IH|].
  pose proof (catch_close_m w') as E. unfold catch in *.
  destruct (close w') as [r w'']. simpl in *. by rewrite E.
Qed.

Lemma connect_error_disc :
  triple (fun _ => True) (connect deviceID tickInterval loop_fuel) err_disc.
Proof.
  unfold connect. skip. skip. skip.
  apply triple_seq with (T := fun _ => True); [apply dial_error_disc | intros _].
  apply run_steps_error_disc.
Qed.

(** C6 Failure of the connection sequence: whenever [connect] returns an error,
    for any behaviour of the network, the cloud and the other goroutines, the
    manager has no connection and is not signed in. *)
Theorem connect_error_disconnects w e :
  (connect deviceID tickInterval loop_fuel w).1 = Err e →
  m_client (w_m (connect deviceID tickInterval loop_fuel w).2) = None ∧
  m_signedIn (w_m (connect deviceID tickInterval loop_fuel w).2) = false.
Proof. intros E. pose proof (connect_error_disc w I) as H. by rewrite E in H. Qed.

(** C1 Safety of the cloud client: after [New] and [Init], whatever the cloud,
    the clock and the other goroutines do, in every reachable state no resource
    is scheduled both for publication and for removal, the trigger channel is
    within its capacity, a signed-in client has an access token, and the done
    channel is closed exactly once the manager is stopped. *)
Theorem manager_invariant cfg caPoolValid m0 env ls w :
  New caPoolValid cfg = Ok m0 →
  runs (step deviceID tickInterval loop_fuel)
    {| w_m := Init m0; w_env := env; w_trace := [] |} ls w →
  Inv (w_m w).
Proof.
  intros Hnew Hr. eapply (runs_invariant _ (fun w => Inv (w_m w))); [apply Inv_step | done |].
  unfold New in Hnew. destruct caPoolValid; simpl in Hnew; [|done]. injection Hnew as <-. simpl.
  unfold Init. destruct (isInitialized _); auto using Inv_zero with cloud.
Qed.

End Props.
