(* ===== verification/CloudOutcomes.v ===== *)
(** * CloudOutcomes: what a successful connection achieves

    Functional properties of the connection sequence of the cloud client: the
    state after a successful [connect], the fact that a cooperative cloud makes
    it succeed, the order of the requests on the wire, the reset, and the error
    branches of sign-in. *)

From S2P Require Export CloudProps.

Section Outcomes.
Context `{HKit : Kit} `{HUuid : Uuids}.
Context `{HC1 : Cbor Configuration} `{HC2 : Cbor ConfigurationUpdateRequest}.
Context `{HC3 : Cbor CoapSignUpRequest} `{HC4 : Cbor CoapSignUpResponse}.
Context `{HC5 : Cbor CoapSignInRequest} `{HC6 : Cbor CoapSignInResponse}.
Context `{HC7 : Cbor CoapRefreshTokenRequest} `{HC8 : Cbor CoapRefreshTokenResponse}.
Context `{HC9 : Cbor PublishResourcesRequest}.
Context `{HEnv : CloudEnv}.
Context (deviceID : UUID) (tickInterval : Z) (loop_fuel : nat).

Hint Resolve noerr_getm noerr_upd noerr_emit noerr_ask noerr_interfere noerr_now noerr_save
  noerr_replaceClient noerr_client_alive noerr_isCredsExpiring : noerr.
Hint Resolve keeps_getm keeps_emit keeps_ask keeps_save keeps_now keeps_newRequestWithToken
  keeps_newPostRequest keeps_newDeleteRequest : keeps.

Ltac skip := eapply triple_noerr; [auto with noerr | apply triple_True | intros ?].

(** ** Without interference *)

(** No other goroutine calls the API while a request is under way. *)
Class QuietEnv := quiet : ∀ e, (env_calls e).1 = [].

Section Quiet.
Context `{HQ : QuietEnv}.

Lemma interfere_quiet w : w_m (interfere w).2 = w_m w.
Proof.
  unfold interfere. pose proof (HQ (w_env w)) as H. destruct (env_calls (w_env w)) as [cs e].
  simpl in *. by subst.
Qed.
Lemma keeps_interfere_quiet (P : Manager → Prop) : keeps (fun w => P (w_m w)) interfere.
Proof. intros w Hw. by rewrite interfere_quiet. Qed.
Hint Resolve keeps_interfere_quiet : keeps.
Lemma keeps_client_Do_quiet (P : Manager → Prop) conn req :
  keeps (fun w => P (w_m w)) (client_Do conn req).
Proof. unfold client_Do. keeps_tac. Qed.
Hint Resolve keeps_client_Do_quiet : keeps.

(** ** Success *)

(** The postcondition of a call that succeeded: [T] holds; nothing is claimed
    when it failed. *)
Definition on_ok {A} (T : Manager → Prop) (r : result A) (w : World) : Prop :=
  match r with Ok _ => T (w_m w) | Err _ => True end.
Notation "⟦ P ⟧ m ⟦ T ⟧" := (triple (fun w => P (w_m w)) m (on_ok T))
  (at level 40, m at level 200, format "⟦  P  ⟧  m  ⟦  T  ⟧").

Definition has_client (m : Manager) : Prop := is_Some (m_client m).
Definition online (m : Manager) : Prop := has_client m ∧ m_signedIn m = true.
Definition published (m : Manager) : Prop := online m ∧ m_readyToPublish m = None.
Definition settled (m : Manager) : Prop := published m ∧ m_readyToUnpublish m = None.

Lemma on_ok_inv {A B} (P : Manager → Prop) T (m : ME World A) (k : A → ME World B) :
  keeps (fun w => P (w_m w)) m → (∀ a, ⟦ P ⟧ k a ⟦ T ⟧) → ⟦ P ⟧ m ≫= k ⟦ T ⟧.
Proof. intros Hm Hk. apply triple_bind_inv; [exact Hm | done | exact Hk]. Qed.
Lemma on_ok_upd {B} (P P' T : Manager → Prop) f (k : unit → ME World B) :
  (∀ m, P m → P' (f m)) → ⟦ P' ⟧ k tt ⟦ T ⟧ → ⟦ P ⟧ upd f ≫= k ⟦ T ⟧.
Proof.
  intros Hf Hk. apply triple_seq with (T := fun w => P' (w_m w)); [|by intros []].
  intros w Hw. by apply Hf.
Qed.
Lemma on_ok_fail {A} (P T : Manager → Prop) e : ⟦ P ⟧ fail (A:=A) e ⟦ T ⟧.
Proof. by intros w Hw. Qed.
Lemma on_ok_seq {A B} (P P' T : Manager → Prop) (m : ME World A) (k : A → ME World B) :
  ⟦ P ⟧ m ⟦ P' ⟧ → (∀ a, ⟦ P' ⟧ k a ⟦ T ⟧) → ⟦ P ⟧ m ≫= k ⟦ T ⟧.
Proof.
  intros Hm Hk. apply triple_seq with (T := fun w => P' (w_m w)); [|done].
  intros w Hw. specialize (Hm w Hw). by destruct (m w).1.
Qed.
Lemma on_ok_keeps {A} (P : Manager → Prop) (m : ME World A) :
  keeps (fun w => P (w_m w)) m → ⟦ P ⟧ m ⟦ P ⟧.
Proof. intros Hm w Hw. specialize (Hm w Hw). by destruct (m w).1. Qed.

(** One step of a proof of [⟦ P ⟧ m ⟦ T ⟧]. *)
Ltac ok_step :=
  match goal with
  | |- triple _ (match ?x with _ => _ end) _ => destruct x
  | |- triple _ (fail _) _ => apply on_ok_fail
  | |- triple _ (fail _ ≫= _) _ => by intros ? ?
  | |- triple _ (upd _ ≫= _) _ => fail 1
  | |- triple _ (_ ≫= _) _ => apply on_ok_inv; [keeps_tac; fail | intros ?]
  end.

Lemma dial_ok : ⟦ fun _ => True ⟧ dial ⟦ has_client ⟧.
Proof.
  unfold dial.
  apply triple_bind with (T := fun cc w => m_client (w_m w) = cc); [done | intros cc].
  apply triple_bind with
    (T := fun (alive : bool) w => alive = true → has_client (w_m w)).
  { intros w Hc. unfold client_alive, gets. simpl. intros Ha. unfold has_client. rewrite Hc.
    by destruct cc. }
  intros [|]; [intros w Hw; by apply Hw|].
  apply (triple_pre _ (fun _ => True)); [done|]. skip.
  do 8 (apply triple_bind_inv; [by intros ? ? | done | intros ?]).
  intros w _. unfold has_client. simpl. eauto.
Qed.

Lemma signUp_ok : ⟦ has_client ⟧ signUp deviceID ⟦ has_client ⟧.
Proof.
  unfold signUp. repeat ok_step; try (by intros ? ?).
  apply on_ok_upd with (P' := has_client); [done|]. repeat ok_step.
  apply on_ok_upd with (P' := has_client); [done|]. by intros ? ?.
Qed.

Lemma refreshToken_ok : ⟦ has_client ⟧ refreshToken deviceID ⟦ has_client ⟧.
Proof.
  unfold refreshToken. repeat ok_step; try (by intros ? ?).
  apply on_ok_upd with (P' := has_client); [done|].
  apply on_ok_inv; [keeps_tac | intros resp].
  destruct (negb _).
  - apply triple_seq with (T := fun _ => True); [|intros; apply (on_ok_fail (fun _ => True))].
    intros w Hw. destruct (_ =? _); [|done]. by destruct (cleanup deviceID w).1.
  - repeat ok_step. apply on_ok_upd with (P' := has_client); [done|]. by intros ? ?.
Qed.

Lemma signIn_ok : ⟦ has_client ⟧ signIn deviceID ⟦ online ⟧.
Proof.
  unfold signIn. ok_step. ok_step; [|apply on_ok_fail].
  apply triple_bind with (T := fun s w => has_client (w_m w) ∧ m_signedIn (w_m w) = s);
    [done | intros [|]; [by intros ? ?|]].
  apply (triple_pre _ (fun w => has_client (w_m w))); [by intros ? []|].
  do 3 ok_step. apply on_ok_upd with (P' := has_client); [done|].
  ok_step. destruct (negb _).
  - apply triple_seq with (T := fun _ => True); [|intros; apply (on_ok_fail (fun _ => True))].
    intros w Hw. unfold on_ok. by repeat case_match.
  - repeat ok_step. apply on_ok_upd with (P' := online); [|by intros ? ?].
    intros m Hc. done.
Qed.

Lemma publishResources_ok : ⟦ online ⟧ publishResources deviceID ⟦ published ⟧.
Proof.
  unfold publishResources, popReadyToPublishResources.
  apply on_ok_seq with (P' := published).
  { apply on_ok_inv; [keeps_tac | intros res].
    apply on_ok_upd with (P' := published); [done | by intros ? ?]. }
  intros ready. repeat ok_step; try (by intros ? ?).
  all: intros w Hw; apply Hw.
Qed.

Lemma batch_nil `{!CloudEnvLaws} w :
  batch w = [] → after_batch w = None.
Proof.
  intros Hb. unfold after_batch. rewrite Hb. simpl.
  assert (env_order (w_env w) (default ∅ (m_readyToUnpublish (w_m w))) = []) as Ho.
  { unfold batch in Hb. by destruct (env_order _ _). }
  pose proof (env_order_perm (w_env w) (default ∅ (m_readyToUnpublish (w_m w)))) as Hp.
  rewrite Ho in Hp. apply Permutation_nil in Hp. apply elements_empty_inv in Hp.
  rewrite bool_decide_true; [done|]. set_solver.
Qed.

Lemma unpublish_loop_ok `{!CloudEnvLaws} fuel :
  ⟦ published ⟧ unpublish_loop deviceID fuel ⟦ settled ⟧.
Proof.
  induction fuel as [|f IH]; simpl; [apply on_ok_fail|].
  apply triple_bind with (T := fun l w => published (w_m w) ∧
                            (l = [] → m_readyToUnpublish (w_m w) = None)).
  { intros w Hw. rewrite pop_unpublish_eq. simpl. split; [done|]. by apply batch_nil. }
  intros [|h hs]; [by intros w [Hp Hn]; split; [|apply Hn]|].
  apply (triple_pre _ (fun w => published (w_m w))); [by intros ? []|].
  repeat ok_step. apply IH.
Qed.

Lemma run_steps_cons_ok (P P' T : Manager → Prop) f funcs :
  ⟦ P ⟧ f ⟦ P' ⟧ → ⟦ P' ⟧ run_steps funcs ⟦ T ⟧ → ⟦ P ⟧ run_steps (f :: funcs) ⟦ T ⟧.
Proof.
  intros Hf Hfs w Hw. cbn [run_steps]. unfold mbind, ME_bind. unfold catch at 1 3.
  specialize (Hf w Hw). destruct (f w) as [[a|e] w']; [by apply Hfs|].
  unfold catch. by destruct (close w').
Qed.

Lemma connect_ok `{!CloudEnvLaws} :
  ⟦ fun _ => True ⟧ connect deviceID tickInterval loop_fuel ⟦ settled ⟧.
Proof.
  unfold connect. skip. skip. skip.
  apply (on_ok_seq (fun _ => True) has_client); [apply dial_ok | intros _].
  assert (⟦ has_client ⟧ run_steps [signUp deviceID; signIn deviceID; publishResources deviceID;
            unpublishResources deviceID loop_fuel] ⟦ settled ⟧) as Hrun.
  { eapply run_steps_cons_ok; [apply signUp_ok|]. eapply run_steps_cons_ok; [apply signIn_ok|].
    eapply run_steps_cons_ok; [apply publishResources_ok|].
    eapply run_steps_cons_ok; [apply unpublish_loop_ok|]. by intros w Hw. }
  destruct (_ || _); [|exact Hrun].
  eapply run_steps_cons_ok; [apply refreshToken_ok | exact Hrun].
Qed.

(** C2 Success of the connection sequence, when no other goroutine interferes:
    if [connect] returns no error, whatever the cloud answered, the manager has
    a connection, is signed in with a non-empty access token, has nothing left
    to publish and nothing left to unpublish. *)
Theorem connect_success_settled `{!CloudEnvLaws} w :
  Inv (w_m w) →
  (connect deviceID tickInterval loop_fuel w).1 = Ok tt →
  let m := w_m (connect deviceID tickInterval loop_fuel w).2 in
  is_Some (m_client m) ∧ m_signedIn m = true ∧ AccessToken (m_creds m) ≠ "" ∧
  m_readyToPublish m = None ∧ m_readyToUnpublish m = None.
Proof.
  intros HI E. pose proof (connect_ok w I) as Hok. rewrite E in Hok.
  destruct Hok as [[[Hc Hs] Hp] Hu].
  pose proof (keeps_connect deviceID tickInterval loop_fuel w HI) as HI'.
  split_and!; auto. by apply inv_signedIn.
Qed.

End Quiet.

(** ** The order of the requests on the wire *)

(** Rank of a request in the connection sequence. *)
Definition rank (m : Message) : nat :=
  if bool_decide (m_path m = Some RefreshToken_uri) then 0
  else if bool_decide (m_path m = Some SignUp_uri) then 1
  else if bool_decide (m_path m = Some SignIn_uri) then 2
  else if (m_code m =? POST) then 3
  else 4.
Definition ranks (tr : list Event) : list nat :=
  omap (fun ev => match ev with EvReq _ m => Some (rank m) | _ => None end) tr.

(** The list is non-decreasing between the bounds. *)
Fixpoint between (lo hi : nat) (l : list nat) : Prop :=
  match l with [] => (lo <= hi)%nat | x :: l' => (lo <= x)%nat ∧ between x hi l' end.

Lemma between_app lo mid hi l1 l2 :
  between lo mid l1 → between mid hi l2 → between lo hi (l1 ++ l2).
Proof.
  revert lo. induction l1 as [|x l1 IH]; intros lo; simpl.
  - destruct l2; simpl; [lia|]. intros ? [? ?]. split; [lia|done].
  - intros [? ?] ?. auto.
Qed.

(** The requests of [m] have ranks between [lo] and [hi], in order. *)
Definition emits {A} (lo hi : nat) (m : ME World A) : Prop :=
  ∀ w, ∃ tr, w_trace (m w).2 = w_trace w ++ tr ∧ between lo hi (ranks tr).

Lemma emits_same {A} n (m : ME World A) :
  (∀ w, ∃ tr, w_trace (m w).2 = w_trace w ++ tr ∧ ranks tr = []) → emits n n m.
Proof. intros H w. destruct (H w) as (tr & E & Hr). exists tr. split; [done|]. rewrite Hr. simpl. lia. Qed.
Lemma emits_bind {A B} lo mid hi (m : ME World A) (k : A → ME World B) :
  emits lo mid m → (mid <= hi)%nat → (∀ a, emits mid hi (k a)) → emits lo hi (m ≫= k).
Proof.
  intros Hm Hle Hk w. destruct (Hm w) as (tr & E & Hb). unfold mbind, ME_bind.
  destruct (m w) as [[a|e] w']; simpl in *.
  - destruct (Hk a w') as (tr' & E' & Hb'). exists (tr ++ tr').
    split; [by rewrite E', E, app_assoc|]. unfold ranks. rewrite omap_app.
    by eapply between_app.
  - exists tr. split; [done|]. rewrite <- (app_nil_r (ranks tr)).
    apply (between_app _ mid); [done | simpl; lia].
Qed.
(** The requests come last, or first. *)
Lemma emits_l {A B} lo hi (m : ME World A) (k : A → ME World B) :
  emits lo lo m → (lo <= hi)%nat → (∀ a, emits lo hi (k a)) → emits lo hi (m ≫= k).
Proof. intros. by eapply emits_bind. Qed.
Lemma emits_mono {A} lo lo' hi hi' (m : ME World A) :
  (lo <= lo')%nat → (hi' <= hi)%nat → emits lo' hi' m → emits lo hi m.
Proof.
  intros Hl Hh H w. destruct (H w) as (tr & E & Hb). exists tr. split; [done|].
  rewrite <- (app_nil_r (ranks tr)). apply (between_app _ hi'); [|simpl; lia].
  change (ranks tr) with ([] ++ ranks tr). by apply (between_app _ lo'); [simpl; lia|].
Qed.

Lemma emits_pure {A} n (m : ME World A) : (∀ w, w_trace (m w).2 = w_trace w) → emits n n m.
Proof. intros H. apply emits_same. intros w. exists []. by rewrite H, app_nil_r. Qed.
Lemma emits_ret {A} n (a : A) : emits n n (mret a).
Proof. by apply emits_pure. Qed.
Lemma emits_fail {A} n e : emits n n (fail (A:=A) e).
Proof. by apply emits_pure. Qed.
Lemma emits_lift {A} n (r : result A) : emits n n (lift r).
Proof. by apply emits_pure. Qed.
Lemma emits_gets {A} n (f : World → A) : emits n n (gets f).
Proof. by apply emits_pure. Qed.
Lemma emits_upd n f : emits n n (upd f).
Proof. by apply emits_pure. Qed.
Lemma emits_ask {A} n (f : Env → A * Env) : emits n n (ask f).
Proof. apply emits_pure. intros w. unfold ask. by destruct (f (w_env w)). Qed.
Lemma emits_interfere n : emits n n interfere.
Proof. apply emits_pure. intros w. unfold interfere. by destruct (env_calls (w_env w)). Qed.
Lemma emits_emit n ev :
  match ev with EvReq _ _ => False | _ => True end → emits n n (emit ev).
Proof. intros H. apply emits_same. intros w. exists [ev]. split; [done|]. by destruct ev. Qed.
Lemma emits_catch {A} lo hi (m : ME World A) : emits lo hi m → emits lo hi (catch m).
Proof. intros H w. unfold catch. specialize (H w). by destruct (m w). Qed.
Lemma emits_wrap_err {A} lo hi f (m : ME World A) : emits lo hi m → emits lo hi (wrap_err f m).
Proof. intros H w. unfold wrap_err. specialize (H w). by destruct (m w) as [[|] ?]. Qed.
Lemma emits_when n b m : emits n n m → emits n n (when b m).
Proof. destruct b; [done|]. intros _. apply emits_ret. Qed.

Create HintDb emits.
Hint Resolve emits_ret emits_fail emits_lift emits_gets emits_upd emits_ask emits_interfere
  emits_catch emits_wrap_err emits_when : emits.
(** Extended below with the requests. *)
Ltac emits_hook := fail.
Ltac emits_tac :=
  repeat match goal with
  | |- ∀ _, _ => intro
  | |- _ => emits_hook
  | |- emits _ _ (match ?x with _ => _ end) => destruct x
  | |- emits _ _ _ => solve [auto with emits nocore]
  | |- emits ?lo ?lo (_ ≫= _) => apply (emits_l lo lo); [|lia|]
  | |- emits _ _ (emit _) => by apply emits_emit
  | |- emits _ _ (catch _) => apply emits_catch
  | |- emits _ _ (wrap_err _ _) => apply emits_wrap_err
  | |- emits _ _ (when _ _) => apply emits_when
  end.

Lemma emits_getm {A} n (f : Manager → A) : emits n n (getm f).
Proof. apply emits_gets. Qed.
Lemma emits_now n : emits n n now.
Proof. apply emits_ask. Qed.
Lemma emits_save n : emits n n save.
Proof. by apply emits_emit. Qed.
Hint Resolve emits_getm emits_now emits_save : emits.
Lemma emits_replaceClient n c : emits n n (replaceClient c).
Proof. unfold replaceClient. emits_tac. Qed.
Hint Resolve emits_replaceClient : emits.
Lemma emits_close n : emits n n close.
Proof. unfold close. emits_tac. Qed.
Hint Resolve emits_close : emits.
Lemma emits_client_alive n cc : emits n n (client_alive cc).
Proof. apply emits_gets. Qed.
Hint Resolve emits_client_alive : emits.
Lemma emits_dial n : emits n n dial.
Proof. unfold dial. emits_tac. Qed.
Lemma emits_newRequestWithToken n uri : emits n n (newRequestWithToken uri).
Proof. unfold newRequestWithToken. emits_tac. Qed.
Hint Resolve emits_dial emits_newRequestWithToken : emits.
Lemma emits_cleanup n : emits n n (cleanup deviceID).
Proof.
  unfold cleanup, resetCredentials, removePreviousCloudIDs, popPreviousCloudIDs. emits_tac.
Qed.
Lemma emits_isCredsExpiring n : emits n n (isCredsExpiring tickInterval).
Proof. unfold isCredsExpiring. emits_tac. Qed.
Hint Resolve emits_cleanup emits_isCredsExpiring : emits.

Lemma emits_client_Do n conn req : rank req = n → emits n n (client_Do conn req).
Proof.
  intros Hr. unfold client_Do. apply emits_l; [|lia|emits_tac].
  intros w. exists [EvReq conn req]. split; [done|]. simpl. rewrite Hr. lia.
Qed.

(** The requests the constructors build. *)
Definition makes (uri : string) (code : Z) (m : ME World Message) : Prop :=
  triple (fun _ => True) m
    (fun r _ => match r with Ok q => m_path q = Some uri ∧ m_code q = code | Err _ => True end).
Lemma makes_post {A} `{Cbor A} uri (d : A) : makes uri POST (newPostRequest uri d).
Proof.
  unfold makes, newPostRequest, newRequestWithToken. intros w _.
  unfold mbind, ME_bind, ask, lift. destruct (env_token (w_env w)) as [[t|] e]; simpl; [|done].
  by destruct (cbor_Encode d).
Qed.
Lemma makes_delete uri : makes uri DELETE (newDeleteRequest uri).
Proof.
  unfold makes, newDeleteRequest, newRequestWithToken. intros w _.
  unfold mbind, ME_bind, ask, lift. by destruct (env_token (w_env w)) as [[t|] e].
Qed.

(** A request built by [mk] and then sent. *)
Lemma emits_request {B} n uri code f (mk : ME World Message) (k : Message → ME World B) :
  makes uri code mk → emits n n mk →
  (∀ q, m_path q = Some uri → m_code q = code → emits n n (k q)) →
  emits n n (wrap_err f mk ≫= k).
Proof.
  intros Hm He Hk w. destruct (He w) as (tr & E & Hb). specialize (Hm w I).
  unfold mbind, ME_bind, wrap_err. destruct (mk w) as [[q|e] w']; simpl in *; [|by exists tr].
  destruct Hm as [Hp Hc]. destruct (Hk q Hp Hc w') as (tr' & E' & Hb').
  exists (tr ++ tr'). split; [by rewrite E', E, app_assoc|]. unfold ranks. rewrite omap_app.
  by eapply between_app.
Qed.
Lemma emits_newPostRequest {A} `{Cbor A} n uri (d : A) : emits n n (newPostRequest uri d).
Proof. unfold newPostRequest. emits_tac. Qed.
Lemma emits_newDeleteRequest n uri : emits n n (newDeleteRequest uri).
Proof. unfold newDeleteRequest. emits_tac. Qed.
Hint Resolve emits_newPostRequest emits_newDeleteRequest : emits.

Ltac request :=
  match goal with
  | |- emits _ _ (wrap_err _ (newPostRequest _ _) ≫= _) =>
      eapply emits_request; [apply makes_post | auto with emits | intros req Hpath Hcode]
  | |- emits _ _ (wrap_err _ (newDeleteRequest _) ≫= _) =>
      eapply emits_request; [apply makes_delete | auto with emits | intros req Hpath Hcode]
  | |- emits ?n ?n (client_Do _ ?q) =>
      apply emits_client_Do; unfold rank; simpl;
      match goal with
      | H1 : m_path _ = _, H2 : m_code _ = _ |- _ => rewrite H1, H2
      end; reflexivity
  end.
Ltac emits_hook ::= request.

Lemma emits_refreshToken : emits 0 0 (refreshToken deviceID).
Proof. unfold refreshToken. emits_tac. Qed.
Lemma emits_signUp : emits 1 1 (signUp deviceID).
Proof. unfold signUp. emits_tac. Qed.
Lemma emits_signIn : emits 2 2 (signIn deviceID).
Proof. unfold signIn. emits_tac. Qed.
Lemma emits_publishResources : emits 3 3 (publishResources deviceID).
Proof. unfold publishResources, popReadyToPublishResources. emits_tac. Qed.
Lemma emits_unpublish_loop fuel : emits 4 4 (unpublish_loop deviceID fuel).
Proof.
  induction fuel as [|f IH]; cbn [unpublish_loop]; [emits_tac|].
  apply emits_l; [|lia|emits_tac; exact IH].
  apply emits_pure. intros w. by rewrite pop_unpublish_eq.
Qed.

Lemma emits_run_steps_cons n lo hi f funcs :
  emits n n f → (n <= lo)%nat → (lo <= hi)%nat → emits lo hi (run_steps funcs) →
  emits n hi (run_steps (f :: funcs)).
Proof.
  intros Hf Hn Hlo Hfs. cbn [run_steps]. apply (emits_bind n n hi); [by apply emits_catch|lia|].
  intros [|]; [by apply (emits_mono n lo hi hi)|].
  apply (emits_mono n n hi n); [lia..|emits_tac].
Qed.
Lemma emits_run_steps_nil n : emits n n (run_steps []).
Proof. apply emits_ret. Qed.

Lemma emits_connect : emits 0 4 (connect deviceID tickInterval loop_fuel).
Proof.
  unfold connect. do 4 (apply emits_l; [emits_tac|lia|intros ?]).
  assert (emits 1 4 (run_steps [signUp deviceID; signIn deviceID; publishResources deviceID;
            unpublishResources deviceID loop_fuel])) as Hrun.
  { apply (emits_run_steps_cons 1 2); [apply emits_signUp|lia|lia|].
    apply (emits_run_steps_cons 2 3); [apply emits_signIn|lia|lia|].
    apply (emits_run_steps_cons 3 4); [apply emits_publishResources|lia|lia|].
    apply (emits_run_steps_cons 4 4); [apply emits_unpublish_loop|lia|lia|].
    apply emits_run_steps_nil. }
  destruct (_ || _).
  - apply (emits_run_steps_cons 0 1 4 (refreshToken deviceID)); [apply emits_refreshToken|lia|lia|exact Hrun].
  - apply (emits_mono 0 1 4 4); [lia|lia|exact Hrun].
Qed.

Lemma between_Sorted lo hi l : between lo hi l → Sorted le l ∧ HdRel le lo l.
Proof.
  revert lo. induction l as [|x l IH]; intros lo; simpl; [by repeat constructor|].
  intros [Hx Hl]. apply IH in Hl as [Hs Hh]. by repeat constructor.
Qed.

(** Order of the requests: whatever the cloud answers and whatever other
    goroutines do, the requests one [connect] sends are in the order token
    refresh, sign-up, sign-in, publication, removal; in particular nothing is
    published before the sign-in request of the same attempt. *)
Theorem connect_requests_ordered w :
  ∃ tr, w_trace (connect deviceID tickInterval loop_fuel w).2 = w_trace w ++ tr ∧
        Sorted le (ranks tr).
Proof.
  destruct (emits_connect w) as (tr & E & Hb). exists tr. split; [done|].
  by apply between_Sorted in Hb as [? _].
Qed.

(** ** Liveness with a cooperative cloud *)

(** The answers that let the sequence go on. *)
Definition good_answer (q resp : Message) : Prop :=
  match rank q with
  | O => m_code resp = codes_Changed ∧
         ∃ r : CoapRefreshTokenResponse, ReadFrom (m_body resp) = Ok r ∧ rfr_AccessToken r ≠ ""
  | 1%nat => m_code resp = codes_Changed ∧
         ∃ r : CoapSignUpResponse, ReadFrom (m_body resp) = Ok r ∧ AccessToken r ≠ ""
  | 2%nat => m_code resp = codes_Changed ∧
         ∃ r : CoapSignInResponse, ReadFrom (m_body resp) = Ok r
  | 3%nat => m_code resp = codes_Changed
  | _ => m_code resp = codes_Deleted
  end.

Class Cooperative := {
  coop_quiet :: QuietEnv;
  coop_token : ∀ e, ∃ t, (env_token e).1 = Ok t;
  coop_certs : list string;
  coop_pool : ∀ e, ∃ pool, (env_ca_pool e).1 = Ok pool ∧
                ∀ now, NewVerifyPeerCertificate pool None now coop_certs = Ok tt;
  coop_dial : ∀ a v e, (∀ now, v now coop_certs = Ok tt) → ∃ c, (env_dial a v e).1 = Ok c;
  coop_encode1 : ∀ d : CoapSignUpRequest, ∃ s, cbor_Encode d = Ok s;
  coop_encode2 : ∀ d : CoapSignInRequest, ∃ s, cbor_Encode d = Ok s;
  coop_encode3 : ∀ d : CoapRefreshTokenRequest, ∃ s, cbor_Encode d = Ok s;
  coop_encode4 : ∀ d : PublishResourcesRequest, ∃ s, cbor_Encode d = Ok s;
  coop_do : ∀ c q e, ∃ resp, (env_do c q e).1 = Ok resp ∧ good_answer q resp }.

Section Live.
Context `{HCoop : Cooperative} `{!CloudEnvLaws}.
Hint Resolve keeps_interfere_quiet keeps_client_Do_quiet : keeps.

Definition total {A} (P T : Manager → Prop) (m : ME World A) : Prop :=
  triple (fun w => P (w_m w)) m (fun r w => match r with Ok _ => T (w_m w) | Err _ => False end).

Lemma total_noerr {A B} (P T : Manager → Prop) (m : ME World A) (k : A → ME World B) :
  noerr m → keeps (fun w => P (w_m w)) m → (∀ a, total P T (k a)) → total P T (m ≫= k).
Proof. intros. eapply triple_noerr; [done | done | done]. Qed.
Lemma total_upd {B} (P P' T : Manager → Prop) f (k : unit → ME World B) :
  (∀ m, P m → P' (f m)) → total P' T (k tt) → total P T (upd f ≫= k).
Proof.
  intros Hf Hk. eapply triple_noerr with (T := fun w => P' (w_m w));
    [auto with noerr | intros w Hw; by apply Hf | by intros []].
Qed.
(** A state component that is read and that [P] speaks about. *)
Lemma total_getm {A B} (P T : Manager → Prop) (g : Manager → A) (k : A → ME World B) :
  (∀ a, total (fun m => P m ∧ g m = a) T (k a)) → total P T (getm g ≫= k).
Proof.
  intros Hk. apply triple_bind with (T := fun a w => P (w_m w) ∧ g (w_m w) = a); [done|exact Hk].
Qed.
Lemma total_pre {A} (Q : World → Prop) (P' T : Manager → Prop) (m : ME World A) :
  (∀ w, Q w → P' (w_m w)) → total P' T m →
  triple Q m (fun r w => match r with Ok _ => T (w_m w) | Err _ => False end).
Proof. intros Hpp. by apply triple_pre. Qed.

Lemma total_post {A B} `{Cbor A} (P T : Manager → Prop) f uri (d : A) (k : Message → ME World B) :
  (∃ s, cbor_Encode d = Ok s) →
  (∀ q, m_path q = Some uri → m_code q = POST → total P T (k q)) →
  total P T (wrap_err f (newPostRequest uri d) ≫= k).
Proof.
  intros [s Hs] Hk w Hw. destruct (coop_token (w_env w)) as [t Ht].
  unfold mbind, ME_bind, wrap_err, newPostRequest, newRequestWithToken, mbind, ME_bind, ask, lift.
  destruct (env_token (w_env w)) as [r e]. simpl in Ht. subst r. simpl. rewrite Hs. by apply Hk.
Qed.
Lemma total_delete {B} (P T : Manager → Prop) f uri (k : Message → ME World B) :
  (∀ q, m_path q = Some uri → m_code q = DELETE → total P T (k q)) →
  total P T (wrap_err f (newDeleteRequest uri) ≫= k).
Proof.
  intros Hk w Hw. destruct (coop_token (w_env w)) as [t Ht].
  unfold mbind, ME_bind, wrap_err, newDeleteRequest, newRequestWithToken, mbind, ME_bind, ask, lift.
  destruct (env_token (w_env w)) as [r e]. simpl in Ht. subst r. by apply Hk.
Qed.
Lemma client_Do_coop conn q w :
  ∃ resp, (client_Do conn q w).1 = Ok resp ∧ good_answer q resp ∧
          w_m (client_Do conn q w).2 = w_m w.
Proof.
  destruct (coop_do conn q (w_env w)) as (resp & Hr & Hg). exists resp.
  unfold client_Do, emit, modify, mbind, ME_bind, ask, lift. simpl.
  destruct (env_do conn q (w_env w)) as [r e]. simpl in *. subst r.
  pose proof (interfere_quiet
    {| w_m := w_m w; w_env := e; w_trace := w_trace w ++ [EvReq conn q] |}) as Hi.
  destruct (noerr_interfere
    {| w_m := w_m w; w_env := e; w_trace := w_trace w ++ [EvReq conn q] |}) as [u Hu].
  destruct (interfere _) as [ri wi]. simpl in *. by subst ri.
Qed.
Lemma total_Do {B} (P T : Manager → Prop) f conn q (k : Message → ME World B) :
  (∀ resp, good_answer q resp → total P T (k resp)) →
  total P T (wrap_err f (client_Do conn q) ≫= k).
Proof.
  intros Hk w Hw. destruct (client_Do_coop conn q w) as (resp & Hr & Hg & Hm).
  unfold mbind, ME_bind, wrap_err. destruct (client_Do conn q w) as [r w']. simpl in *. subst r.
  apply Hk; [done|]. by rewrite Hm.
Qed.

(** What a manager needs to connect, and what it has once it holds a token.
    The bound leaves one turn of the unpublish loop to find the set empty. *)
Definition fits (m : Manager) : Prop :=
  (size (default ∅ (m_readyToUnpublish m)) + unpublish_limit <= unpublish_limit * loop_fuel)%nat.
Definition can_register (m : Manager) : Prop :=
  (AccessToken (m_creds m) ≠ "" ∨
   cfg_AuthorizationCode (m_cfg m) ≠ "" ∧ cfg_AuthorizationProvider (m_cfg m) ≠ "") ∧
  is_ok (Endpoint_GetAddr {| URI := cfg_URL (m_cfg m); Priority := 0 |}) = true ∧ fits m.
Definition can_step (m : Manager) : Prop := has_client m ∧ can_register m.
Definition has_token (m : Manager) : Prop :=
  has_client m ∧ AccessToken (m_creds m) ≠ "" ∧ fits m.
Definition has_session (m : Manager) : Prop := has_client m ∧ fits m.

Lemma total_wrap_lift {A B} (P T : Manager → Prop) f (r : result A) (k : A → ME World B) a :
  r = Ok a → total P T (k a) → total P T (wrap_err f (lift r) ≫= k).
Proof. intros -> Hk w Hw. by apply Hk. Qed.

(** The roots accept the certificates the peers present. *)
Definition trusts (pool : CertPool) : Prop :=
  ∀ now, NewVerifyPeerCertificate pool None now coop_certs = Ok tt.

Lemma total_dial : total can_register can_step dial.
Proof.
  unfold dial. apply triple_bind with
    (T := fun cc w => can_register (w_m w) ∧ m_client (w_m w) = cc); [done|intros cc].
  apply triple_bind with
    (T := fun (alive : bool) w => can_register (w_m w) ∧ (alive = true → has_client (w_m w))).
  { intros w [Hc Hm]. split; [done|]. simpl. intros. unfold has_client. rewrite Hm. by destruct cc. }
  intros [|]; [intros w [? Hw]; split; [by apply Hw | done]|].
  apply (total_pre _ can_register); [by intros ? []|].
  apply total_noerr; [auto with noerr| |intros _].
  { intros w Hw. by rewrite catch_close_m. }
  apply total_getm. intros cfg.
  apply triple_bind with (T := fun r w => (can_register (w_m w) ∧ m_cfg (w_m w) = cfg) ∧
    ∃ pool, r = Ok pool ∧ trusts pool).
  { intros w Hw. unfold ask. destruct (coop_pool (w_env w)) as (pool&Hp&Ht).
    destruct (env_ca_pool (w_env w)). simpl in *. eauto. }
  intros r. apply triple_bind with
    (T := fun pool w => (can_register (w_m w) ∧ m_cfg (w_m w) = cfg) ∧ trusts pool).
  { intros w [Hw (pool&->&Ht)]. done. }
  intros caPool. apply triple_frame. intros Ht. destruct (Endpoint_GetAddr {| URI := cfg_URL cfg; Priority := 0 |}) as [addr|] eqn:Ea;
    [|intros w [(_&Ho&_) Hcfg]; by rewrite Hcfg, Ea in Ho].
  apply (total_pre _ can_register); [by intros ? []|].
  apply (total_wrap_lift _ _ _ _ _ addr); [done|].
  apply total_noerr; [auto with noerr | keeps_tac | intros _].
  apply triple_bind with (T := fun r w => can_register (w_m w) ∧ ∃ c, r = Ok c).
  { intros w Hw. unfold ask.
    destruct (coop_dial (addr_String addr)
      (NewVerifyPeerCertificate caPool (Some (verifyPeer (cfg_CloudID cfg)))) (w_env w)) as [c Hc].
    { intros now. rewrite NewVerifyPeerCertificate_callback. apply Ht. }
    destruct (env_dial _ _ _). simpl in *. eauto. }
  intros rc. eapply triple_noerr with (T := fun w => can_register (w_m w) ∧ ∃ c, rc = Ok c);
    [auto with noerr| |intros _].
  { intros w [Hw Hc]. split; [by apply keeps_interfere_quiet | done]. }
  intros w [Hw [c ->]]. unfold can_step, has_client. simpl. eauto.
Qed.

Lemma total_signUp : total can_step has_token (signUp deviceID).
Proof.
  unfold signUp. apply total_getm. intros creds.
  destruct (bool_decide_reflect (AccessToken creds = "")) as [He|He]; simpl.
  2:{ intros w [[Hc (_&_&Hf)] Hcr]. split; [done|]. by subst. }
  apply total_getm. intros cfg.
  apply (total_pre _ (fun m => can_step m ∧ cfg_AuthorizationCode cfg ≠ "" ∧
                               cfg_AuthorizationProvider cfg ≠ "")).
  { intros m [[[Hc ([Ht|Ha]&?&?)] Hcr] Hcfg]; subst; [done|]. unfold can_step, can_register. tauto. }
  unfold MakeSignUpRequest.
  destruct (bool_decide_reflect (cfg_AuthorizationCode cfg = "")); [by intros w (?&?&?)|].
  destruct (bool_decide_reflect (cfg_AuthorizationProvider cfg = "")); [by intros w (?&?&?)|].
  eapply total_wrap_lift; [done|]. apply (total_pre _ can_step); [by intros ? []|].
  apply total_getm. intros [conn|]; [|intros w [[[? Hc] _] Hn]; congruence].
  apply (total_pre _ can_step); [by intros ? []|].
  apply total_post; [apply coop_encode1|]. intros q Hp Hq.
  apply total_upd with (P' := can_step); [done|].
  apply total_Do. intros resp Hg. unfold good_answer, rank in Hg. rewrite Hp in Hg. simpl in Hg.
  destruct Hg as (-> & r & Hr & Htok). simpl. eapply total_wrap_lift; [exact Hr|].
  apply total_noerr; [auto with noerr | keeps_tac | intros t].
  apply total_upd with (P' := has_token); [|by intros ? ?].
  intros m [Hc (_&_&Hf)]. done.
Qed.

Lemma total_refreshToken : total can_step can_step (refreshToken deviceID).
Proof.
  unfold refreshToken. apply total_noerr; [auto with noerr | keeps_tac | intros creds].
  case_bool_decide; [by intros ? ?|]. apply total_getm.
  intros [conn|]; [|intros w [[[? Hc] _] Hn]; congruence].
  apply (total_pre _ can_step); [by intros ? []|].
  apply total_post; [apply coop_encode3|]. intros q Hp Hq.
  apply total_upd with (P' := can_step); [done|].
  apply total_Do. intros resp Hg. unfold good_answer, rank in Hg. rewrite Hp in Hg. simpl in Hg.
  destruct Hg as (-> & r & Hr & Htok). simpl. eapply total_wrap_lift; [exact Hr|].
  apply total_noerr; [auto with noerr | keeps_tac | intros t].
  apply total_upd with (P' := can_step); [|by intros ? ?].
  intros m [Hc (_&Hu&Hf)]. repeat split; [done | by left | done | done].
Qed.

Lemma total_signIn : total has_token has_session (signIn deviceID).
Proof.
  unfold signIn. apply total_getm. intros [conn|]; [|intros w [[[? Hc] _] Hn]; congruence].
  apply (total_pre _ has_token); [by intros ? []|].
  apply total_noerr; [auto with noerr | keeps_tac | intros [|]]; [by intros w (?&?&?)|].
  apply total_getm. intros creds. unfold MakeSignInRequest.
  destruct (bool_decide_reflect (AccessToken creds = "")); [intros w [(?&?&?) ?]; congruence|].
  eapply total_wrap_lift; [done|]. apply (total_pre _ has_token); [by intros ? []|].
  apply total_post; [apply coop_encode2|]. intros q Hp Hq.
  apply total_upd with (P' := has_token); [done|].
  apply total_Do. intros resp Hg. unfold good_answer, rank in Hg. rewrite Hp in Hg. simpl in Hg.
  destruct Hg as (-> & r & Hr). simpl. eapply total_wrap_lift; [exact Hr|].
  apply total_noerr; [auto with noerr | keeps_tac | intros t].
  apply total_upd with (P' := has_session); [|by intros ? ?].
  intros m (Hc&_&Hf). done.
Qed.

Lemma total_publish : total has_session has_session (publishResources deviceID).
Proof.
  unfold publishResources, popReadyToPublishResources.
  apply triple_seq with (T := fun w => has_session (w_m w)); [by intros w Hw|intros ready].
  apply total_noerr; [auto with noerr | keeps_tac | intros pub].
  apply total_noerr; [auto with noerr | keeps_tac | intros all].
  destruct (getLinksToPublish_of all pub ready) as [|l ls]; [by intros ? ?|].
  apply total_getm. intros [conn|]; [|intros w [[[? Hc] _] Hn]; congruence].
  apply (total_pre _ has_session); [by intros ? []|].
  apply total_post; [apply coop_encode4|]. intros q Hp Hq.
  apply total_Do. intros resp Hg. unfold good_answer, rank in Hg. rewrite Hp, Hq in Hg. simpl in Hg.
  rewrite Hg. simpl. by intros w Hw.
Qed.

Lemma after_batch_size w :
  (size (default ∅ (after_batch w)) =
   size (default ∅ (m_readyToUnpublish (w_m w))) - unpublish_limit)%nat.
Proof.
  rewrite after_batch_default.
  set (R := default ∅ (m_readyToUnpublish (w_m w))).
  pose proof (env_order_perm (w_env w) R) as Hp.
  assert (NoDup (env_order (w_env w) R)) as Hnd by (rewrite Hp; apply NoDup_elements).
  assert (length (env_order (w_env w) R) = size R) as Hlen by (rewrite Hp; done).
  rewrite size_difference.
  - rewrite size_list_to_set by (unfold batch; fold R; by apply (sublist_NoDup _ _ Hnd), sublist_take).
    unfold batch. fold R. rewrite length_take. lia.
  - intros x Hx. apply elem_of_list_to_set in Hx. unfold batch in Hx. fold R in Hx.
    apply elem_of_elements. rewrite <- Hp. by apply (elem_of_take _ _ _) in Hx as (i & Hi & _);
      apply list_elem_of_lookup_2 in Hi.
Qed.

Definition fits_in (fuel : nat) (m : Manager) : Prop :=
  has_client m ∧
  (size (default ∅ (m_readyToUnpublish m)) + unpublish_limit <= unpublish_limit * fuel)%nat.

Lemma total_unpublish_loop fuel :
  total (fits_in fuel) (fun _ => True) (unpublish_loop deviceID fuel).
Proof.
  induction fuel as [|f IH]; cbn [unpublish_loop].
  { intros w [_ Hf]. unfold unpublish_limit in Hf. lia. }
  apply triple_bind with (T := fun l w => l ≠ [] → fits_in f (w_m w)).
  { intros w [Hc Hf]. rewrite pop_unpublish_eq. simpl. intros Hb. split; [done|]. simpl.
    rewrite after_batch_size.
    assert (size (default ∅ (m_readyToUnpublish (w_m w))) ≠ O) as Hne.
    { intros Hs. apply Hb. unfold batch.
      pose proof (env_order_perm (w_env w) (default ∅ (m_readyToUnpublish (w_m w)))) as Hp.
      apply size_empty_inv, leibniz_equiv in Hs. rewrite Hs, elements_empty in Hp.
      rewrite Hs.
      by apply Permutation_nil_r in Hp as ->. }
    destruct f; unfold unpublish_limit in *; lia. }
  intros [|h hs]; [by intros ? ?|].
  apply (triple_pre _ (fun w => fits_in f (w_m w))); [intros w Hw; by apply Hw|].
  apply (total_getm (fits_in f) (fun _ => True)).
  intros [conn|]; [|intros w [[[? Hc] _] Hn]; simpl in *; congruence].
  apply (total_pre _ (fits_in f)); [by intros ? []|].
  apply total_delete. intros q Hp Hq.
  apply total_Do. intros resp Hg. unfold good_answer, rank in Hg. simpl in Hg.
  rewrite Hp, Hq in Hg. simpl in Hg. rewrite Hg. simpl. exact IH.
Qed.

Lemma total_run_steps_cons (P P' T : Manager → Prop) f funcs :
  total P P' f → total P' T (run_steps funcs) → total P T (run_steps (f :: funcs)).
Proof.
  intros Hf Hfs w Hw. cbn [run_steps]. unfold mbind, ME_bind. unfold catch at 1 3.
  specialize (Hf w Hw). destruct (f w) as [[a|e] w']; [by apply Hfs | done].
Qed.

Lemma total_connect :
  total can_register (fun _ => True) (connect deviceID tickInterval loop_fuel).
Proof.
  unfold connect. apply total_noerr; [auto with noerr| |intros expiring].
  { unfold isCredsExpiring. keeps_tac. }
  apply total_noerr; [auto with noerr | keeps_tac | intros force].
  apply triple_seq with (T := fun w => can_register (w_m w)).
  { intros w Hw. by destruct (_ || _). }
  intros _. apply triple_seq with (T := fun w => can_step (w_m w)); [apply total_dial | intros _].
  assert (total can_step (fun _ => True) (run_steps [signUp deviceID; signIn deviceID;
            publishResources deviceID; unpublishResources deviceID loop_fuel])) as Hrun.
  { eapply total_run_steps_cons; [apply total_signUp|].
    eapply total_run_steps_cons; [apply total_signIn|].
    eapply total_run_steps_cons; [apply total_publish|].
    eapply (total_run_steps_cons _ (fun _ => True) (fun _ => True));
      [apply total_unpublish_loop | by intros ? ?]. }
  destruct (_ || _); [|exact Hrun].
  apply (total_run_steps_cons can_step can_step (fun _ => True));
    [apply total_refreshToken | exact Hrun].
Qed.

(** C8 Liveness: with a cloud that accepts the requests and whose certificate the pool
    trusts, and when no other goroutine calls the API meanwhile, an initialised manager
    that holds a token or an authorization code gets registered by one run of the timer
    handler; the bound [loop_fuel] on the unpublish loop only has to exceed the number of
    pending batches. *)
Theorem timer_registers w :
  cfg_URL (m_cfg (w_m w)) ≠ "" → can_register (w_m w) →
  let m := w_m (handleTimer deviceID tickInterval loop_fuel w).2 in
  cfg_ProvisioningStatus (m_cfg m) = REGISTERED ∧ is_Some (m_client m) ∧ m_signedIn m = true ∧
  m_readyToPublish m = None ∧ m_readyToUnpublish m = None.
Proof.
  intros Hu Hc. unfold handleTimer, connect_and_register, mbind, ME_bind, getm, gets.
  rewrite bool_decide_false by done. unfold catch.
  pose proof (total_connect w Hc) as Ht. pose proof (connect_ok w I) as Hok.
  destruct (connect deviceID tickInterval loop_fuel w) as [[[]|e] w']; [|done].
  destruct Hok as [[[Hcl Hs] Hp] Hn]. done.
Qed.

End Live.
End Outcomes.
