(* ===== verification/CloudSpec.v ===== *)
(** * CloudSpec: specifications of the operations of the cloud client

    Reset and sign-off on every branch, the reaction to an unauthorized
    sign-in, the removal of resources in batches, the refresh test, and the
    export and import of the configuration. *)

From S2P Require Export CloudOutcomes.

Section Spec.
Context `{HKit : Kit} `{HUuid : Uuids}.
Context `{HC1 : Cbor Configuration} `{HC2 : Cbor ConfigurationUpdateRequest}.
Context `{HC3 : Cbor CoapSignUpRequest} `{HC4 : Cbor CoapSignUpResponse}.
Context `{HC5 : Cbor CoapSignInRequest} `{HC6 : Cbor CoapSignInResponse}.
Context `{HC7 : Cbor CoapRefreshTokenRequest} `{HC8 : Cbor CoapRefreshTokenResponse}.
Context `{HC9 : Cbor PublishResourcesRequest}.
Context `{HEnv : CloudEnv}.
Context (deviceID : UUID) (tickInterval : Z) (loop_fuel : nat).

(** ** Reset and sign-off *)

(** The list of previous clouds only grows between two resets. *)
Definition ids_from (l : list string) (m : Manager) : Prop := l `prefix_of` m_previousCloudIDs m.

Lemma triggerRunner_ids b m : m_previousCloudIDs (triggerRunner b m) = m_previousCloudIDs m.
Proof. unfold triggerRunner. by destruct (_ <? _)%nat. Qed.
Lemma foldl_ids (f : Manager → string → Manager) hrefs m :
  (∀ m h, m_previousCloudIDs (f m h) = m_previousCloudIDs m) →
  m_previousCloudIDs (foldl f m hrefs) = m_previousCloudIDs m.
Proof. intros Hf. revert m. induction hrefs as [|h hs IH]; intros m; simpl; [done|]. by rewrite IH. Qed.
Lemma setCloudConfiguration_ids cfg m :
  m_previousCloudIDs (setCloudConfiguration cfg m) =
    m_previousCloudIDs m ++ [cfg_CloudID (m_cfg m)].
Proof. unfold setCloudConfiguration. by case_bool_decide. Qed.

#[local] Instance ApiStable_ids l : ApiStable (ids_from l).
Proof.
  assert (∀ cfg m, ids_from l m → ids_from l (setCloudConfiguration cfg m)) as Hset.
  { intros cfg m Hm. unfold ids_from. rewrite setCloudConfiguration_ids. by apply prefix_app_r. }
  intros c m Hm. destruct c; simpl; unfold ids_from.
  - unfold Cloud_Post. destruct (ReadFrom body) as [cfg|]; [|done].
    case_bool_decide; [|destruct (validateConfigurationUpdate cfg); [|done]]; simpl;
      rewrite triggerRunner_ids; by apply Hset.
  - unfold PublishResources. by rewrite triggerRunner_ids, foldl_ids.
  - unfold UnpublishResources. by rewrite triggerRunner_ids, foldl_ids.
  - unfold Reconnect. by rewrite triggerRunner_ids.
  - unfold Unregister. rewrite triggerRunner_ids. by apply Hset.
  - unfold Close. by destruct (m_stopped m).
  - unfold onConnClosed. by case_bool_decide.
Qed.

Hint Resolve keeps_getm keeps_emit keeps_ask keeps_save keeps_now keeps_newRequestWithToken
  keeps_newPostRequest keeps_newDeleteRequest keeps_newSignOffReq keeps_interfere
  keeps_client_Do ApiStable_ids : keeps.

Lemma keeps_signOff_ids l : keeps (fun w => ids_from l (w_m w)) (signOff deviceID).
Proof. unfold signOff. keeps_tac; try (by apply keeps_upd). Qed.

Lemma signOff_quiet `{HQ : !QuietEnv} (P : Manager → Prop) :
  (∀ m s, P m → P (setProvisioningStatus s m)) → keeps (fun w => P (w_m w)) (signOff deviceID).
Proof.
  intros HP. pose proof (keeps_client_Do_quiet P) as HDo. unfold signOff.
  keeps_tac; apply keeps_upd; auto.
Qed.

Definition uninitialized (m : Manager) : Prop :=
  cfg_ProvisioningStatus (m_cfg m) = UNINITIALIZED.
Lemma signOff_status `{HQ : !QuietEnv} :
  keeps (fun w => uninitialized (w_m w)) (signOff deviceID).
Proof.
  unfold signOff. apply keeps_bind; [keeps_tac | intros [conn|]; [|keeps_tac]].
  apply keeps_bind; [keeps_tac | intros [e|]; [keeps_tac|]].
  apply keeps_bind; [keeps_tac | intros creds]. apply keeps_bind; [keeps_tac | intros q].
  apply triple_seq with (T := fun _ => True); [done | intros _].
  apply triple_noerr with (T := fun _ => True); [apply noerr_catch | done | intros r].
  apply triple_seq with (T := fun w => uninitialized (w_m w)); [done | intros _].
  destruct r as [x|]; [destruct (m_code x =? codes_Deleted)|]; by intros w.
Qed.

(** An operation that only appends to the trace. *)
Definition extends {A} (m : ME World A) : Prop := ∀ w, w_trace w `prefix_of` w_trace (m w).2.
Lemma extends_bind {A B} (m : ME World A) (k : A → ME World B) :
  extends m → (∀ a, extends (k a)) → extends (m ≫= k).
Proof.
  intros Hm Hk w. specialize (Hm w). unfold mbind, ME_bind. destruct (m w) as [[a|] w']; [|done].
  etransitivity; [exact Hm | apply Hk].
Qed.
Lemma extends_ask {A} (f : Env → A * Env) : extends (ask f).
Proof. intros w. unfold ask. by destruct (f (w_env w)). Qed.
Lemma extends_emit ev : extends (emit ev).
Proof. intros w. by apply prefix_app_r. Qed.
Lemma extends_upd f : extends (upd f).
Proof. by intros w. Qed.
Lemma extends_newSignOffReq uid : extends (newSignOffReq deviceID uid).
Proof.
  unfold newSignOffReq, newRequestWithToken. intros w. unfold mbind, ME_bind, ask, lift.
  by destruct (env_token (w_env w)) as [[|] ?].
Qed.
Lemma extends_client_Do conn q : extends (client_Do conn q).
Proof.
  unfold client_Do. apply extends_bind; [apply extends_emit | intros _].
  apply extends_bind; [apply extends_ask | intros r].
  apply extends_bind; [|by intros ? ?]. intros w. unfold interfere. by destruct (env_calls _).
Qed.
Lemma extends_catch {A} (m : ME World A) : extends m → extends (catch m).
Proof. intros H w. specialize (H w). unfold catch. by destruct (m w). Qed.
Lemma extends_wrap {A} f (m : ME World A) : extends m → extends (wrap_err f m).
Proof. intros H w. specialize (H w). unfold wrap_err. by destruct (m w) as [[|] ?]. Qed.
Lemma extends_signOff : extends (signOff deviceID).
Proof.
  unfold signOff. apply extends_bind; [by intros w | intros [conn|]; [|by intros w]].
  apply extends_bind; [by intros w | intros [e|]; [by intros w|]].
  apply extends_bind; [by intros w | intros creds].
  apply extends_bind; [apply extends_wrap, extends_newSignOffReq | intros q].
  apply extends_bind; [apply extends_upd | intros _].
  apply extends_bind; [apply extends_catch, extends_client_Do | intros r].
  apply extends_bind; [apply extends_upd | intros _].
  destruct r as [x|]; [destruct (m_code x =? codes_Deleted)|]; by intros w.
Qed.

Lemma catch_close_eq w : ∃ r e tr,
  catch close w =
    (Ok r, {| w_m := set_m_client None (set_m_signedIn false (w_m w)); w_env := e;
              w_trace := w_trace w ++ tr |}).
Proof.
  unfold catch, close, replaceClient, mbind, ME_bind, getm, gets, upd, modify, emit, lift, ask,
    mret, ME_ret.
  simpl. destruct (m_client (w_m w)) as [conn|]; simpl.
  - destruct (env_close conn (w_env w)). simpl. eauto.
  - eexists _, _, []. by rewrite app_nil_r.
Qed.

(** What [resetCredentials] does once the sign-off is over. *)
Definition forget (m : Manager) : Manager :=
  set_m_previousCloudIDs [] (set_m_client None (set_m_signedIn false (set_m_reconnect false
    (set_m_forceRefreshToken false (set_m_resourcesPublished false (setCreds zero_creds m)))))).

Lemma resetCredentials_tail w : ∃ e tr,
  resetCredentials deviceID false w =
    (Ok tt, {| w_m := forget (w_m w); w_env := e;
       w_trace := w_trace w ++ tr ++ [EvSave; EvRemoveCAs (m_previousCloudIDs (w_m w))] |}).
Proof.
  destruct w as [m e0 t]. unfold resetCredentials, removePreviousCloudIDs, popPreviousCloudIDs, save.
  unfold mbind at 1 2 3 4 5, ME_bind at 1 2 3 4 5, upd, modify, mret at 1, ME_ret at 1. simpl.
  set (w1 := {| w_m := _; w_env := _; w_trace := _ |}).
  unfold mbind at 1, ME_bind at 1.
  destruct (catch_close_eq w1) as (r & e & tr & ->). exists e, tr.
  unfold mbind, ME_bind, emit, modify, getm, gets, mret, ME_ret. simpl.
  by rewrite <- !app_assoc.
Qed.

Lemma resetCredentials_eq so w :
  resetCredentials deviceID so w =
    resetCredentials deviceID false (if so then (signOff deviceID w).2 else w).
Proof.
  destruct so; [|done]. unfold resetCredentials, mbind, ME_bind, mret, ME_ret.
  assert (catch (signOff deviceID) w =
    (Ok (signOff deviceID w).1, (signOff deviceID w).2)) as ->; [|done].
  unfold catch. by destruct (signOff deviceID w).
Qed.

(** Reset of the credentials, for an arbitrary environment: the reset cannot
    fail; the tokens, the flags and the connection are gone; the state is saved
    after that; and the CAs removed last are those of every cloud recorded since
    the previous reset, those recorded before the call among them. *)
Theorem resetCredentials_spec so w :
  ∃ ids tr, let w' := (resetCredentials deviceID so w).2 in
    (resetCredentials deviceID so w).1 = Ok tt ∧
    m_creds (w_m w') = zero_creds ∧ m_signedIn (w_m w') = false ∧
    m_resourcesPublished (w_m w') = false ∧ m_forceRefreshToken (w_m w') = false ∧
    m_reconnect (w_m w') = false ∧ m_client (w_m w') = None ∧ m_previousCloudIDs (w_m w') = [] ∧
    m_previousCloudIDs (w_m w) `prefix_of` ids ∧
    w_trace w' = w_trace w ++ tr ++ [EvSave; EvRemoveCAs ids].
Proof.
  rewrite resetCredentials_eq. set (w0 := if so then _ else w).
  assert (ids_from (m_previousCloudIDs (w_m w)) (w_m w0)) as Hids.
  { destruct so; [apply (keeps_signOff_ids (m_previousCloudIDs (w_m w)) w)|]; by red. }
  assert (w_trace w `prefix_of` w_trace w0) as [tr0 Htr] by (destruct so; [apply extends_signOff | done]).
  destruct (resetCredentials_tail w0) as (e & tr & ->).
  exists (m_previousCloudIDs (w_m w0)), (tr0 ++ tr). split_and!; try done.
  simpl. by rewrite Htr, <- !app_assoc.
Qed.

Lemma handleTrigger_reset w w1 :
  resetCredentials deviceID true w = (Ok tt, w1) →
  m_reconnect (w_m w1) = false → cfg_URL (m_cfg (w_m w1)) = "" →
  handleTrigger deviceID tickInterval loop_fuel true w =
    (Ok tt, {| w_m := resetPublishing (w_m w1); w_env := w_env w1; w_trace := w_trace w1 |}).
Proof.
  intros E Hr Hu. unfold handleTrigger, when, mbind, ME_bind. rewrite E. unfold getm, gets.
  rewrite Hr. unfold isInitialized. by rewrite Hu.
Qed.

(** C15 Unregistering, for an arbitrary environment in which the API is not
    called during the sign-off: when the trigger posted by [Unregister] is
    handled, the manager ends without configuration, tokens, connection and
    scheduled resources, and the CAs of the cloud it was configured for are
    removed with those of the clouds before it. *)
Theorem unregister_spec `{!QuietEnv} w rest :
  ∃ tr, let m := Unregister (w_m w) in
    let w' := (handleTrigger deviceID tickInterval loop_fuel true
                 {| w_m := set_m_trigger rest m; w_env := w_env w; w_trace := w_trace w |}).2 in
    ExportConfig (w_m w') = {| c_AccessToken := ""; c_UserID := ""; c_RefreshToken := "";
      c_ValidUntil := 0; c_AuthorizationProvider := ""; c_CloudID := ""; c_CloudURL := "" |} ∧
    cfg_ProvisioningStatus (m_cfg (w_m w')) = UNINITIALIZED ∧
    m_client (w_m w') = None ∧ m_signedIn (w_m w') = false ∧
    m_readyToPublish (w_m w') = None ∧ m_readyToUnpublish (w_m w') = None ∧
    w_trace w' = w_trace w ++ tr ++
      [EvSave; EvRemoveCAs (m_previousCloudIDs (w_m w) ++ [cfg_CloudID (m_cfg (w_m w))])].
Proof.
  set (m := Unregister (w_m w)). simpl.
  set (w0 := {| w_m := set_m_trigger rest m; w_env := w_env w; w_trace := w_trace w |}).
  set (ids := m_previousCloudIDs (w_m w) ++ [cfg_CloudID (m_cfg (w_m w))]).
  (* what the sign-off leaves unchanged *)
  set (U := fun x : Manager => cfg_URL (m_cfg x) = "" ∧ cfg_CloudID (m_cfg x) = "" ∧
    cfg_AuthorizationProvider (m_cfg x) = "" ∧
    m_readyToPublish x = None ∧ m_readyToUnpublish x = None ∧ m_previousCloudIDs x = ids).
  assert (U (w_m w0) ∧ uninitialized (w_m w0)) as [HU Hst].
  { unfold U, uninitialized, w0, m, Unregister, triggerRunner. simpl. case_match; by split_and!. }
  assert (U (w_m (signOff deviceID w0).2)) as HU'. { by apply (signOff_quiet U). }
  apply signOff_status in Hst.
  destruct (extends_signOff w0) as [tr0 Htr0].
  destruct (resetCredentials_tail (signOff deviceID w0).2) as (e & tr & Htail).
  rewrite <- (resetCredentials_eq true w0) in Htail.
  destruct HU' as (Hu1 & Hu2 & Hu3 & Hu5 & Hu6 & Hu7).
  rewrite (handleTrigger_reset _ _ Htail) by (by simpl; rewrite ?Hu1).
  exists (tr0 ++ tr). unfold ExportConfig. simpl.
  rewrite Hu1, Hu2, Hu3, Hst, Hu7, Htr0. split_and!; try done. by rewrite <- !app_assoc.
Qed.

(** ** Removal of resources *)

Lemma toQuery_length hrefs :
  String.length deviceID = 36%nat →
  (String.length (toQuery deviceID hrefs) <= 39 + 15 * length hrefs)%nat.
Proof.
  intros Hd. unfold toQuery.
  assert (∀ l buf, (String.length (foldl (fun buf href =>
      buf +:+ "&ins=" +:+ format_uint (getInstanceID href)) buf l) <=
      String.length buf + 15 * length l)%nat) as Hf.
  { induction l as [|h l IH]; intros buf; simpl; [lia|].
    etransitivity; [apply IH|]. rewrite !str_length_app. simpl.
    assert (String.length (format_uint (getInstanceID h)) <= 10)%nat.
    { apply format_uint_length; [lia|]. pose proof (crc32_bound h). unfold getInstanceID. lia. }
    lia. }
  etransitivity; [apply Hf|]. rewrite str_length_app. simpl. lia.
Qed.

(** Removal in batches: each step takes at most ten distinct resources of the
    set and leaves exactly the others; and the query of such a batch is within
    the 255 characters a CoAP option may have. *)
Theorem unpublish_batch `{!CloudEnvLaws} w :
  String.length deviceID = 36%nat →
  ∃ l, let (r, w') := popReadyToUnpublishResources unpublish_limit w in
    r = Ok l ∧ (length l <= 10)%nat ∧ NoDup l ∧
    default ∅ (m_readyToUnpublish (w_m w)) =
      list_to_set l ∪ default ∅ (m_readyToUnpublish (w_m w')) ∧
    list_to_set l ## default ∅ (m_readyToUnpublish (w_m w')) ∧
    (String.length (toQuery deviceID l) <= 255)%nat.
Proof.
  intros Hd. rewrite pop_unpublish_eq. exists (batch w).
  set (R := default ∅ (m_readyToUnpublish (w_m w))).
  pose proof (env_order_perm (w_env w) R) as Hp.
  assert (length (batch w) <= 10)%nat as Hl.
  { unfold batch, unpublish_limit. rewrite length_take. lia. }
  split_and!; [done | exact Hl | | | |].
  - apply (sublist_NoDup _ (env_order (w_env w) R)); [rewrite Hp; apply NoDup_elements|].
    apply sublist_take.
  - simpl. rewrite after_batch_default. fold R.
    assert (list_to_set (batch w) ⊆ R) as Hsub.
    { intros x Hx. apply elem_of_list_to_set in Hx. unfold batch in Hx. fold R in Hx.
      apply elem_of_elements. rewrite <- Hp. eapply elem_of_sublist; [exact Hx | apply sublist_take]. }
    rewrite union_comm_L, difference_union_L. set_solver.
  - simpl. rewrite after_batch_default. set_solver.
  - pose proof (toQuery_length (batch w) Hd). lia.
Qed.

(** A resource is covered by a trace when a removal request names it. *)
Definition covered (h : string) (tr : list Event) : Prop :=
  ∃ conn q hs, EvReq conn q ∈ tr ∧ m_path q = Some ResourceDirectory_uri ∧ m_code q = DELETE ∧
    toQuery deviceID hs ∈ default [] (m_queries q) ∧ h ∈ hs ∧ (length hs <= 10)%nat.

Section Removal.
Context `{HQ : !QuietEnv} `{!CloudEnvLaws}.

(** Every resource of [R] is still scheduled, in the batch [l], or removed by a
    request after the first [n] events. *)
Context (n : nat).
Definition pending (R : gset string) (l : list string) (w : World) : Prop :=
  (n <= length (w_trace w))%nat ∧
  ∀ h, h ∈ R → h ∈ default ∅ (m_readyToUnpublish (w_m w)) ∨ h ∈ l ∨ covered h (drop n (w_trace w)).

Lemma pending_ask {A} R l (f : Env → A * Env) : keeps (pending R l) (ask f).
Proof. intros w Hw. unfold ask. by destruct (f (w_env w)). Qed.
Lemma pending_interfere R l : keeps (pending R l) interfere.
Proof.
  intros w Hw. unfold interfere. pose proof (HQ (w_env w)) as Hq.
  destruct (env_calls (w_env w)) as [cs e]. simpl in Hq. by subst.
Qed.
Hint Resolve pending_ask pending_interfere : keeps.
Lemma newDelete_spec R l uri :
  triple (pending R l) (wrap_err errCannotUnpublishResources (newDeleteRequest uri))
    (fun r w => match r with
                | Ok q => pending R l w ∧ m_path q = Some uri ∧ m_code q = DELETE ∧ m_queries q = None
                | Err _ => pending R l w end).
Proof.
  intros w Hw. unfold wrap_err, newDeleteRequest, newRequestWithToken, mbind, ME_bind, ask, lift.
  by destruct (env_token (w_env w)) as [[t|] e].
Qed.
Lemma client_Do_pending R l conn q :
  m_path q = Some ResourceDirectory_uri → m_code q = DELETE → (length l <= 10)%nat →
  toQuery deviceID l ∈ default [] (m_queries q) →
  triple (pending R l) (client_Do conn q) (fun _ => pending R []).
Proof.
  intros Hp Hc Hl Hq. unfold client_Do. apply triple_seq with (T := pending R []).
  { intros w [Hn Hw]. split; [simpl; rewrite length_app; lia|]. intros h Hh. simpl.
    rewrite drop_app_le by lia. destruct (Hw h Hh) as [?|[Hin|(c' & q' & hs & Hin & ?)]];
      [by left | right; right | right; right].
    - exists conn, q, l. split; [set_solver | by split_and!].
    - exists c', q', hs. split; [set_solver | done]. }
  intros _. apply (triple_bind_inv (pending R [])); [apply pending_ask | done | intros r].
  apply (triple_bind_inv (pending R [])); [apply pending_interfere | done | intros _].
  by intros w Hw.
Qed.

Lemma unpublish_loop_pending fuel R :
  triple (pending R []) (unpublish_loop deviceID fuel)
    (fun r w => match r with Ok _ => ∀ h, h ∈ R → covered h (drop n (w_trace w))
                | Err _ => True end).
Proof.
  induction fuel as [|f IH]; cbn [unpublish_loop]; [by intros w Hw|].
  apply triple_bind with (T := fun l w => pending R l w ∧ (length l <= 10)%nat ∧
    (l = [] → default ∅ (m_readyToUnpublish (w_m w)) = ∅)).
  { intros w [Hn Hw]. rewrite pop_unpublish_eq. cbn [fst snd]. split_and!.
    - split; [done|]. intros h Hh. simpl. rewrite after_batch_default.
      destruct (Hw h Hh) as [Hin|[Hin|?]]; [|by apply elem_of_nil in Hin | by right; right].
      destruct (decide (h ∈ batch w)); [by right; left|]. left. set_solver.
    - unfold batch, unpublish_limit. rewrite length_take. lia.
    - intros E. simpl. by rewrite (batch_nil w E). }
  intros [|h hs].
  { intros w ([_ Hw] & _ & He) x Hx. destruct (Hw x Hx) as [Hin|[Hin|?]]; [|by apply elem_of_nil in Hin|done].
    rewrite He in Hin by done. set_solver. }
  set (l := h :: hs). apply (triple_pre _ (fun w => pending R l w ∧ (length l <= 10)%nat)).
  { intros w (? & ? & _). done. }
  apply triple_seq with (T := fun w => pending R l w ∧ (length l <= 10)%nat); [by intros w Hw|].
  intros [conn|]; [|by intros w Hw].
  apply triple_bind with (T := fun q w => (pending R l w ∧ (length l <= 10)%nat) ∧
    m_path q = Some ResourceDirectory_uri ∧ m_code q = DELETE ∧ m_queries q = None).
  { intros w [Hw Hl]. pose proof (newDelete_spec R l ResourceDirectory_uri w Hw) as Hn.
    destruct (wrap_err _ _ w) as [[q|] w']; [|done]. simpl in *. tauto. }
  intros q w ((Hw & Hl) & Hp & Hc & Hqs).
  assert (toQuery deviceID l ∈ default [] (m_queries (add_query (toQuery deviceID l) q))) as Hin.
  { simpl. rewrite Hqs. simpl. set_solver. }
  pose proof (client_Do_pending R l conn (add_query (toQuery deviceID l) q) Hp Hc Hl Hin w Hw) as Hd.
  cbv zeta. unfold mbind, ME_bind, wrap_err.
  destruct (client_Do conn (add_query (toQuery deviceID l) q) w) as [[resp|] w']; [|done].
  destruct (m_code resp =? codes_Deleted); [|done]. by apply IH.
Qed.
End Removal.

(** C33 Removal of every resource, for a manager that has a connection, is signed in and
    has nothing scheduled for publication: when the cloud accepts the requests, no other
    goroutine calls the API meanwhile, and the bound of the loop is above the number of
    batches, the removal terminates without an error, every scheduled resource is named by
    a removal request of at most ten resources, and nothing stays scheduled. *)
Theorem unpublish_complete `{!Cooperative} `{!CloudEnvLaws} w :
  fits_in loop_fuel (w_m w) → m_signedIn (w_m w) = true → m_readyToPublish (w_m w) = None →
  let (r, w') := unpublishResources deviceID loop_fuel w in
  r = Ok tt ∧ m_readyToUnpublish (w_m w') = None ∧
  ∀ h, h ∈ default ∅ (m_readyToUnpublish (w_m w)) →
       covered h (drop (length (w_trace w)) (w_trace w')).
Proof.
  intros Hf Hs Hp. unfold unpublishResources.
  pose proof (total_unpublish_loop deviceID loop_fuel w Hf) as Ht.
  pose proof (unpublish_loop_ok deviceID loop_fuel w) as Hok.
  pose proof (unpublish_loop_pending (length (w_trace w)) loop_fuel
                (default ∅ (m_readyToUnpublish (w_m w))) w) as Hc.
  destruct (unpublish_loop deviceID loop_fuel w) as [[[]|e] w']; [|done]. simpl in *.
  assert (pending (length (w_trace w)) (default ∅ (m_readyToUnpublish (w_m w))) [] w) as Hpw.
  { split; [done|]. by left. }
  destruct Hok as [_ Hn]; [by destruct Hf|]. split_and!; auto.
Qed.

(** ** An unauthorized sign-in *)

Lemma updm {A} f (k : unit → ME World A) w :
  (upd f ≫= k) w =
    k tt {| w_m := f (w_m w); w_env := w_env w; w_trace := w_trace w |}.
Proof. done. Qed.

Lemma newPostRequest_ok {A} `{Cbor A} uri (d : A) t s w :
  (env_token (w_env w)).1 = Ok t → cbor_Encode d = Ok s →
  ∃ q e, newPostRequest uri d w = (Ok q, {| w_m := w_m w; w_env := e; w_trace := w_trace w |}) ∧
         m_path q = Some uri.
Proof.
  intros Ht Hs. unfold newPostRequest, newRequestWithToken, mbind, ME_bind, ask, lift.
  destruct (env_token (w_env w)). simpl in *. subst. rewrite Hs. simpl. by eauto.
Qed.

Lemma cleanup_eq w : ∃ e tr,
  cleanup deviceID w =
    (Ok tt, {| w_m := triggerRunner false (forget (setCloudConfiguration zero_update (w_m w)));
               w_env := e; w_trace := tr |}).
Proof.
  unfold cleanup. rewrite updm. unfold mbind, ME_bind.
  match goal with |- context [resetCredentials deviceID false ?x] =>
    destruct (resetCredentials_tail x) as (e & tr & ->) end. eauto.
Qed.

(** Sign-in that the cloud rejects as unauthorized: it fails; with a refresh
    token the credentials stay and the next connection is forced to refresh
    them; without one the client gives up the cloud: configuration, credentials
    and connection are gone. *)
Theorem signIn_unauthorized `{HQ : !QuietEnv} w conn :
  m_client (w_m w) = Some conn → m_signedIn (w_m w) = false → AccessToken (m_creds (w_m w)) ≠ "" →
  (∀ e, ∃ t, (env_token e).1 = Ok t) →
  (∀ d : CoapSignInRequest, ∃ s, cbor_Encode d = Ok s) →
  (∀ q e, m_path q = Some SignIn_uri →
    ∃ resp, (env_do conn q e).1 = Ok resp ∧ m_code resp = codes_Unauthorized) →
  let (r, w') := signIn deviceID w in
  r = Err (errCannotSignIn ErrUnexpectedCode) ∧ m_signedIn (w_m w') = false ∧
  if bool_decide (RefreshToken (m_creds (w_m w)) = "")
  then m_creds (w_m w') = zero_creds ∧ m_client (w_m w') = None ∧ isInitialized (w_m w') = false
  else m_creds (w_m w') = m_creds (w_m w) ∧ m_client (w_m w') = Some conn ∧
       m_forceRefreshToken (w_m w') = true.
Proof.
  intros Hcl Hsi Htok Ht Henc Hdo. unfold signIn, getm, gets. unfold mbind at 1, ME_bind at 1.
  rewrite Hcl. unfold mbind at 1, ME_bind at 1. rewrite Hsi.
  unfold mbind at 1, ME_bind at 1. unfold MakeSignInRequest. rewrite (bool_decide_false _ Htok).
  unfold mbind at 1, ME_bind at 1, wrap_err at 1, lift at 1.
  destruct (Ht (w_env w)) as [t Ht'].
  destruct (Henc {| si_DeviceID := deviceID; si_UserID := UserID (m_creds (w_m w));
    si_AccessToken := AccessToken (m_creds (w_m w)); si_Login := true |}) as [s Hs].
  destruct (newPostRequest_ok SignIn_uri _ _ _ _ Ht' Hs) as (q & e0 & Hq & Hpath).
  unfold mbind at 1, ME_bind at 1, wrap_err at 1. rewrite Hq.
  rewrite updm. cbn [w_m w_env w_trace].
  set (w1 := {| w_m := _; w_env := _; w_trace := _ |}).
  unfold mbind at 1, ME_bind at 1, wrap_err at 1.
  pose proof (keeps_client_Do_quiet (fun m => m = w_m w1) conn q w1 eq_refl) as Hm.
  assert (∃ resp, (client_Do conn q w1).1 = Ok resp ∧ m_code resp = codes_Unauthorized)
    as (resp & Hr & Hcode).
  { destruct (Hdo q (w_env w1) Hpath) as (resp & Hr & Hcode). exists resp. split; [|done].
    unfold client_Do, emit, modify, mbind, ME_bind, ask, lift, interfere. simpl.
    change (w_env w1) with e0 in Hr. destruct (env_do conn q e0) as [rr ee]. simpl in *. subst rr.
    by destruct (env_calls ee). }
  destruct (client_Do conn q w1) as [rr w2]. simpl in Hr, Hm. subst rr. rewrite Hcode.
  change (negb (codes_Unauthorized =? codes_Changed)) with true.
  change (codes_Unauthorized =? codes_Unauthorized) with true. cbv iota.
  case_bool_decide.
  - destruct (cleanup_eq w2) as (e & tr & Hcl2). unfold mbind, ME_bind. rewrite Hcl2.
    split; [done|]. simpl. unfold triggerRunner. by case_match.
  - split; [done|]. simpl. rewrite Hm. split; [exact Hsi|]. done.
Qed.

(** ** The refresh test *)

(** The refresh test as the code computes it: with clock readings less than
    the tick interval apart, the credentials count as expiring exactly when less
    than two tick intervals remain; the second test of the code ("a third before
    it expires") never decides. *)
Theorem isCredsExpiring_two_ticks vu n1 n2 :
  0 < tickInterval < 2 ^ 62 → n1 <= n2 < n1 + tickInterval →
  isCredsExpiring_at tickInterval vu n1 n2 = true ↔ vu ≠ 0 ∧ vu - n1 < 2 * tickInterval.
Proof.
  intros Ht Hn. unfold isCredsExpiring_at. destruct (Z.eqb_spec vu 0); [naive_solver|].
  assert (i64 (tickInterval * 2) = tickInterval * 2) as ->.
  { unfold i64. rewrite Z.mod_small; lia. }
  destruct (Z.ltb_spec (sat64 (vu - n1)) (tickInterval * 2)) as [Hlt|Hge].
  - split; [intros _; split; [done|] | done]. unfold sat64 in Hlt. lia.
  - assert (2 * tickInterval <= vu - n1) as Hvu by (unfold sat64 in Hge; lia).
    rewrite Z.gtb_ltb. split; [|lia]. intros Hl%Z.ltb_lt. exfalso.
    assert (0 <= sat64 (vu - n1) <= vu - n1) as Hs by (unfold sat64; lia).
    generalize dependent (sat64 (vu - n1)). intros s. intros _ Hl Hs.
    rewrite Z.quot_opp_l, Z.quot_div_nonneg in Hl by lia.
    pose proof (Z.mul_div_le s 3). lia.
Qed.

(** ** The cloud resource and the stored configuration *)

(** The fields that describe the link to the cloud, as one value. *)
Definition link_state (m : Manager) :=
  (m_creds m, m_client m, m_signedIn m, m_resourcesPublished m, m_forceRefreshToken m,
   m_reconnect m, m_stopped m).

(** A POST to the cloud resource: a body that cannot be decoded, or that has a
    URL but no cloud ID or no authorization provider, is answered 4.00 and changes
    nothing; any other body replaces the configuration, records the CA of the
    previous cloud for removal and asks for a reset, without touching the
    session; an empty URL means no configuration and no scheduled resources. *)
Theorem Cloud_Post_spec body m :
  let (resp, m') := Cloud_Post body m in
  match ReadFrom (A:=ConfigurationUpdateRequest) body with
  | Ok cfg =>
      if bool_decide (upd_URL cfg ≠ "" ∧ (upd_CloudID cfg = "" ∨ upd_AuthorizationProvider cfg = ""))
      then m' = m ∧ ∃ q, resp = Ok q ∧ m_code q = codes_BadRequest
      else
        cfg_URL (m_cfg m') = upd_URL cfg ∧
        cfg_CloudID (m_cfg m') = (if bool_decide (upd_URL cfg = "") then "" else upd_CloudID cfg) ∧
        (upd_URL cfg ≠ "" → cfg_AuthorizationCode (m_cfg m') = upd_AuthorizationCode cfg ∧
           cfg_ProvisioningStatus (m_cfg m') = READY_TO_REGISTER) ∧
        (upd_URL cfg = "" → m_readyToPublish m' = None ∧ m_readyToUnpublish m' = None ∧
           cfg_ProvisioningStatus (m_cfg m') = UNINITIALIZED) ∧
        m_previousCloudIDs m' = m_previousCloudIDs m ++ [cfg_CloudID (m_cfg m)] ∧
        ((length (m_trigger m) < trigger_capacity)%nat → m_trigger m' = m_trigger m ++ [true]) ∧
        link_state m' = link_state m ∧
        resp = CreateResponseContent (m_cfg m') codes_Changed
  | Err _ => m' = m ∧ ∃ q, resp = Ok q ∧ m_code q = codes_BadRequest
  end.
Proof.
  unfold Cloud_Post. destruct (ReadFrom body) as [cfg|e]; [|by eauto].
  unfold validateConfigurationUpdate, setCloudConfiguration.
  destruct (decide (upd_URL cfg = "")) as [Hu|Hu].
  - rewrite (bool_decide_true _ Hu), bool_decide_false by tauto. unfold triggerRunner. simpl.
    case_match eqn:E; split_and!; try done; [by intros ?.. | ].
    intros Hl. apply Nat.ltb_lt in Hl. congruence.
  - rewrite (bool_decide_false (upd_URL cfg = "")) by done.
    destruct (decide (upd_CloudID cfg = "")) as [Hc|Hc].
    { rewrite (bool_decide_true (upd_CloudID cfg = "")), bool_decide_true by tauto. simpl. eauto. }
    rewrite (bool_decide_false (upd_CloudID cfg = "")) by done.
    destruct (decide (upd_AuthorizationProvider cfg = "")) as [Ha|Ha].
    { rewrite bool_decide_true, bool_decide_true by tauto. simpl. eauto. }
    rewrite !bool_decide_false by tauto. simpl. unfold triggerRunner. simpl.
    case_match eqn:E; split_and!; try done; try (by intros ?).
    intros Hl. apply Nat.ltb_lt in Hl. congruence.
Qed.

(** The stored configuration: what a manager exports, a new manager imports,
    and exports again. *)
Theorem export_import m :
  ∃ m', New true (ExportConfig m) = Ok m' ∧ ExportConfig m' = ExportConfig m ∧
        m_signedIn m' = false ∧ m_client m' = None ∧ isInitialized m' = isInitialized m.
Proof.
  eexists. split; [done|]. unfold New, importConfig, ExportConfig, setCloudConfiguration.
  cbn [upd_URL c_CloudURL ExportConfig]. destruct (bool_decide (cfg_URL (m_cfg m) = ""));
    split_and!; reflexivity.
Qed.

End Spec.
