(* ===== verification/CloudServe.v ===== *)
(** * CloudServe: requests that arrive from the cloud

    [src/bridge/device/cloud/manager.go], [serveCOAP]: the routing of the
    requests of the cloud to the device's handler, with the rewriting of the
    device and the discovery resource.  The device is a parameter: its request
    handler, and [getLinks], the links it publishes to the cloud for a list of
    resource types. *)

From S2P Require Export CloudManager.

Definition set_Anchor (a : string) (r : ResourceLink) : ResourceLink :=
  {| ID := ID r; Href := Href r; ResourceTypes := ResourceTypes r; Interfaces := Interfaces r;
     LinkPolicy := LinkPolicy r; LinkEndpoints := LinkEndpoints r; Anchor := a;
     LinkDeviceID := LinkDeviceID r; InstanceID := InstanceID r; Title := Title r;
     SupportedContentTypes := SupportedContentTypes r |}.

(** [discovery.PatchLinks]: the loop assigns to its own copy of each link, which
    it drops; the slice that is returned is the argument. *)
Definition PatchLinks (links : ResourceLinks) (deviceID : string) : ResourceLinks :=
  foldl (fun links l => let l := set_Anchor ("ocf://" +:+ deviceID) l in let _ := l in links)
    links links.

Section Serve.
Context `{HUuid : Uuids} `{HStatus : CoapStatus} `{HLinks : Cbor ResourceLinks}.
Context (deviceID : UUID).
Context (handler : Request → result (option Message)).
Context (getLinks : list string → ResourceLinks).

Definition with_msg (f : Message → Message) (r : Request) : Request :=
  {| req_msg := f (req_msg r); req_Conn := req_Conn r; req_Endpoints := req_Endpoints r |}.

(** The loop of [handleDeviceResource] up to its [break]. *)
Fixpoint set_device_path (links : ResourceLinks) (r : Request) : Request :=
  match links with
  | [] => r
  | link :: links' => if HasType link device_ResourceType then with_msg (set_path (Href link)) r
                      else set_device_path links' r
  end.
Definition handleDeviceResource (r : Request) : result (option Message) :=
  handler (set_device_path (getLinks []) r).

Definition handleDiscoveryResource (r : Request) : result (option Message) :=
  let links := getLinks (getResourceTypesFilter (default [] (m_queries (req_msg r)))) in
  let links := patchDeviceLink links in
  let links := PatchLinks links deviceID in
  m ← CreateResponseContent links codes_Content; Ok (Some m).

Definition getHandler (r : Request) : Request → result (option Message) :=
  match m_path (req_msg r) with
  | Some p => if bool_decide (p = oic_d) then handleDeviceResource
              else if bool_decide (p = oic_res) then handleDiscoveryResource
              else handler
  | None => handler
  end.

(** [wmsg] is the message of the response writer, [conn] the connection; the
    result is what [SetMessage] is called with, if it is. *)
Definition serveCOAP (wmsg : Message) (conn : string) (request : Message) : option Message :=
  if negb (inFilterSupportedCodes (m_code request)) then None
  else
    let request := add_query ("di=" +:+ deviceID) request in
    let r := {| req_msg := request; req_Conn := conn; req_Endpoints := [] |} in
    let resp := match getHandler r r with
                | Ok resp => resp
                | Err err => CreateResponseError (Some err) (m_token request)
                end in
    match resp with
    | None => None
    | Some resp => Some (set_id_type (m_id wmsg) (m_type wmsg) (set_token (m_token wmsg) resp))
    end.

(** ** Properties *)

(** The request a handler sees for a path. *)
Definition routed (conn : string) (request : Message) : Request :=
  {| req_msg := add_query ("di=" +:+ deviceID) request; req_Conn := conn; req_Endpoints := [] |}.

Lemma routed_DeviceID conn request :
  uuid_Parse deviceID = Ok deviceID →
  (∀ q, q ∈ default [] (m_queries request) → has_prefix "di=" q = false) →
  DeviceID (routed conn request) = deviceID.
Proof.
  intros Hp Hq. unfold DeviceID, GetValueFromQuery, Queries. simpl.
  change ("di" +:+ "=") with "di=".
  by rewrite (find_query_app_hit "di=" _ deviceID []), Hp.
Qed.

Lemma set_device_path_DeviceID links r : DeviceID (set_device_path links r) = DeviceID r.
Proof. induction links as [|l ls IH]; simpl; [done|]. by destruct (HasType _ _). Qed.
Lemma set_device_path_spec links r :
  m_path (req_msg (set_device_path links r)) =
    match List.find (fun l => HasType l device_ResourceType) links with
    | Some l => Some (Href l)
    | None => m_path (req_msg r)
    end.
Proof. induction links as [|l ls IH]; simpl; [done|]. by destruct (HasType _ _). Qed.

(** The same message under the identity of the response writer. *)
Definition answers (wmsg a b : Message) : Prop :=
  m_token b = m_token wmsg ∧ m_id b = m_id wmsg ∧ m_type b = m_type wmsg ∧
  m_code b = m_code a ∧ m_body b = m_body a ∧ m_format b = m_format a ∧ m_etag b = m_etag a.

(** Requests from the cloud: one with an unsupported method is not answered;
    otherwise the device's handler is asked for the device the manager serves,
    at the path of the request, or, for the device resource, at the path of the
    device's own resource of that type; its answer, or the error response of its
    error, is sent under the token, ID and type of the response writer. *)
Theorem serveCOAP_spec wmsg conn request :
  uuid_Parse deviceID = Ok deviceID →
  (∀ q, q ∈ default [] (m_queries request) → has_prefix "di=" q = false) →
  m_path request ≠ Some oic_res →
  let code := m_code request in
  if bool_decide (code ∈ [GET; POST; PUT; DELETE]) then
    ∃ r, DeviceID r = deviceID ∧ m_code (req_msg r) = code ∧ m_body (req_msg r) = m_body request ∧
      m_path (req_msg r) =
        (if bool_decide (m_path request = Some oic_d)
         then match List.find (fun l => HasType l device_ResourceType) (getLinks []) with
              | Some l => Some (Href l) | None => m_path request end
         else m_path request) ∧
      match (match handler r with
             | Ok resp => resp
             | Err e => CreateResponseError (Some e) (m_token request) end),
            serveCOAP wmsg conn request with
      | Some a, Some b => answers wmsg a b
      | None, None => True
      | _, _ => False
      end
  else serveCOAP wmsg conn request = None.
Proof.
  intros Hp Hq Hres code. unfold serveCOAP, inFilterSupportedCodes.
  destruct (bool_decide_reflect (code ∈ [GET; POST; PUT; DELETE])) as [Hin|Hin].
  2:{ fold code. rewrite !elem_of_cons in Hin.
      assert ((code =? POST) || (code =? PUT) || (code =? DELETE) || (code =? GET) = false) as ->;
        [|done].
      destruct (Z.eqb_spec code POST), (Z.eqb_spec code PUT), (Z.eqb_spec code DELETE),
        (Z.eqb_spec code GET); tauto. }
  fold code. assert ((code =? POST) || (code =? PUT) || (code =? DELETE) || (code =? GET) = true) as ->.
  { rewrite !elem_of_cons in Hin.
    destruct Hin as [->|[->|[->|[->|[]%elem_of_nil]]]]; reflexivity. }
  simpl. change {| req_msg := _; req_Conn := conn; req_Endpoints := [] |} with (routed conn request).
  pose proof (routed_DeviceID conn request Hp Hq) as Hd.
  unfold getHandler. change (m_path (req_msg (routed conn request))) with (m_path request).
  destruct (decide (m_path request = Some oic_d)) as [Ed|Ed].
  - rewrite (bool_decide_true (m_path request = Some oic_d)) by done. rewrite Ed.
    rewrite (bool_decide_true (oic_d = oic_d)) by done. unfold handleDeviceResource.
    exists (set_device_path (getLinks []) (routed conn request)).
    rewrite set_device_path_DeviceID, set_device_path_spec. split_and!; try done.
    + by induction (getLinks []) as [|l ls IH]; simpl; [done|]; destruct (HasType _ _).
    + by induction (getLinks []) as [|l ls IH]; simpl; [done|]; destruct (HasType _ _).
    + simpl. by rewrite Ed.
    + by destruct (handler _) as [[?|]|?].
  - rewrite (bool_decide_false (m_path request = Some oic_d)) by done.
    exists (routed conn request). split_and!; try done.
    assert ((match m_path request with
      | Some p => if bool_decide (p = oic_d) then handleDeviceResource
                  else if bool_decide (p = oic_res) then handleDiscoveryResource else handler
      | None => handler end) = handler) as ->.
    { destruct (m_path request) as [p|]; [|done].
      rewrite !bool_decide_false; [done | congruence..]. }
    by destruct (handler _) as [[?|]|?].
Qed.

(** The discovery of the bridge announces no anchor: [PatchLinks] returns the
    links as they are, so the anchor its loop computes is never set. *)
Theorem PatchLinks_no_effect links d : PatchLinks links d = links.
Proof. unfold PatchLinks. generalize links at 2. by intros l; induction l. Qed.

End Serve.
