(* ===== verification/Service.v ===== *)
(** * Service: the bridge service

    [src/bridge/service]: the table of bridged devices, the dispatch of the
    requests that the network received, discovery over all devices, and shutdown.

    A bridged device is the interface [Device] of the code, here the class
    [ServiceDevice]; [BridgeDevice.Device] is its instance.  The service is
    proved against the laws of the interface. *)

From S2P Require Import CloudManager CloudServe BridgeNet BridgeResource.
From S2P Require Export BridgeDevice.

Class ServiceDevice := {
  SDev : Type;
  SEnv : Type;                                   (** what the handlers of a device use *)
  sdev_GetID : SDev → UUID;
  sdev_GetLinks : Request → SDev → ResourceLinks;
  sdev_HandleRequest : Request → SDev → SEnv → result (option Message) * SDev * SEnv;
  sdev_Close : SDev → SDev }.

(** What a device promises: its links carry its ID and it answers a filter for
    another device with none; a request does not change its ID. *)
Class ServiceDeviceLaws `{HUuid : Uuids} `{HSDev : ServiceDevice} := {
  sdev_links_own : ∀ req d l, l ∈ sdev_GetLinks req d → LinkDeviceID l = sdev_GetID d;
  sdev_links_other : ∀ req d, DeviceID req ≠ uuid_Nil → DeviceID req ≠ sdev_GetID d →
    sdev_GetLinks req d = [];
  sdev_request_ID : ∀ req d e, sdev_GetID (sdev_HandleRequest req d e).1.2 = sdev_GetID d }.

(** ** Configuration *)

Record CoAPConfig := { coap_ID : string; coap_Config : BridgeNet.Config }.

(** The three [Validate] methods. *)
Definition CoAPConfig_Validate `{Resolver} (c : CoAPConfig) : result CoAPConfig :=
  if bool_decide (coap_ID c = "") then Err (ErrText "id is required")
  else cfg ← BridgeNet.Validate (coap_Config c); Ok {| coap_ID := coap_ID c; coap_Config := cfg |}.
Definition Config_Validate `{Resolver} (c : CoAPConfig) : result CoAPConfig :=
  match CoAPConfig_Validate c with
  | Ok c => Ok c
  | Err err => Err (ErrWrap "api" (ErrWrap "coap" err))
  end.

Definition ToUUID `{Uuids} (id : string) : UUID :=
  match uuid_Parse id with Ok v => v | Err _ => uuid_NewSHA1 id end.

(** ** The service *)

Inductive SvEvent := SvDiscovery (req : Request) | SvNew (id piid : UUID) | SvClose (id : UUID).

Section Service.
Context `{HUuid : Uuids} `{HSDev : ServiceDevice} `{HLinks : Cbor ResourceLinks}.
(** The order of an iteration over the table. *)
Context (dev_order : gmap UUID SDev → list (UUID * SDev)).

Record Service := {
  sv_ID : string;
  sv_devices : gmap UUID SDev;
  sv_env : SEnv;
  sv_trace : list SvEvent }.
Abbreviation SM := (ME Service).

Definition set_devices (x : gmap UUID SDev) (s : Service) : Service :=
  {| sv_ID := sv_ID s; sv_devices := x; sv_env := sv_env s; sv_trace := sv_trace s |}.
Definition sv_emit (ev : SvEvent) : SM unit :=
  modify (fun s => {| sv_ID := sv_ID s; sv_devices := sv_devices s; sv_env := sv_env s;
                      sv_trace := sv_trace s ++ [ev] |}).

Definition LoadDevice (di : UUID) (s : Service) : result SDev :=
  match sv_devices s !! di with
  | Some d => Ok d
  | None => Err (ErrText "invalid queries: device not found")
  end.

(** The links [handleDiscoverAllLinks] gives to the discovery resource. *)
Definition all_links (req : Request) (s : Service) : ResourceLinks :=
  foldl (fun links kd =>
      let dlinks := sdev_GetLinks req kd.2 in
      if (0 <? length dlinks)%nat then links ++ dlinks else links)
    [] (dev_order (sv_devices s)).

Definition handleDiscoverAllLinks (req : Request) : SM (option Message) :=
  when (negb (m_type (req_msg req) =? Acknowledgement) && negb (m_type (req_msg req) =? Reset_type))
    (sv_emit (SvDiscovery req));;
  links ← gets (all_links req);
  (* [Get] of the discovery resource *)
  let links := PatchLinks links (DeviceID req) in
  m ← lift (CreateResponseContent links codes_Content);
  mret (Some m).

(** [d.HandleRequest]: the table holds a pointer to the device. *)
Definition device_HandleRequest (di : UUID) (d : SDev) (req : Request) : SM (option Message) :=
  fun s => let '(r, d', e) := sdev_HandleRequest req d (sv_env s) in
           (r, {| sv_ID := sv_ID s; sv_devices := <[di := d']> (sv_devices s); sv_env := e;
                  sv_trace := sv_trace s |}).

Definition well_known_core : string := "/.well-known/core".

Definition DefaultRequestHandler (req : Request) : SM (option Message) :=
  let uriPath := URIPath req in
  let isGet := m_code (req_msg req) =? GET in
  if bool_decide (uriPath = "") then mret None
  else if isGet && bool_decide (uriPath = well_known_core) then mret None
  else
    let deviceID := DeviceID req in
    if isGet && bool_decide (uriPath = oic_res) && bool_decide (deviceID = uuid_Nil)
    then handleDiscoverAllLinks req
    else if bool_decide (deviceID = uuid_Nil)
    then fail (ErrText "invalid queries: di query is not set")
    else
      r ← gets (LoadDevice deviceID);
      match r with
      | Err err => if default false (m_multicast (req_msg req)) then mret None else fail err
      | Ok d => device_HandleRequest deviceID d req
      end.

(** [newDevice] is called inside [ReplaceWithFunc]. *)
Definition CreateDevice (id : UUID) (newDevice : UUID → UUID → result SDev) : SM SDev :=
  devices ← gets sv_devices;
  piid ← gets (fun s => ToUUID (sv_ID s));
  match devices !! id with
  | Some _ => fail (ErrText "device already exists")
  | None =>
      sv_emit (SvNew id piid);;
      match newDevice id piid with
      | Err err => modify (set_devices (delete id devices));; fail err
      | Ok d => modify (set_devices (<[id := d]> devices));; mret d
      end
  end.

Definition GetOrCreateDevice (id : UUID) (newDevice : UUID → UUID → result SDev)
    : SM (SDev * bool) :=
  devices ← gets sv_devices;
  piid ← gets (fun s => ToUUID (sv_ID s));
  match devices !! id with
  | Some oldDevice => mret (oldDevice, true)
  | None =>
      sv_emit (SvNew id piid);;
      match newDevice id piid with
      | Err err => modify (set_devices (delete id devices));; fail err
      | Ok d => modify (set_devices (<[id := d]> devices));; mret (d, false)
      end
  end.

Definition GetDevice (id : UUID) (s : Service) : option SDev := sv_devices s !! id.
Definition CopyDevices (s : Service) : gmap UUID SDev := sv_devices s.
Definition Length (s : Service) : nat := size (sv_devices s).

Definition GetAndDeleteDevice (id : UUID) : SM (option SDev) :=
  devices ← gets sv_devices;
  modify (set_devices (delete id devices));; mret (devices !! id).

(** The device is closed after it left the table. *)
Definition DeleteAndCloseDevice (id : UUID) : SM bool :=
  d ← GetAndDeleteDevice id;
  match d with
  | Some _ => sv_emit (SvClose id);; mret true
  | None => mret false
  end.

(** [netClose] is the error of [net.Close]. *)
Definition Shutdown (netClose : option error) : SM unit :=
  match netClose with
  | Some err => fail err
  | None =>
      devices ← gets sv_devices;
      modify (set_devices ∅);;
      each (fun kd : UUID * SDev => sv_emit (SvClose kd.1)) (dev_order devices)
  end.

(** The service is created with an empty table. *)
Definition New (id : string) (e : SEnv) : Service :=
  {| sv_ID := id; sv_devices := ∅; sv_env := e; sv_trace := [] |}.

(** Calls on the service, in any order. *)
Inductive SvLabel :=
  | SvRequest (req : Request)
  | SvCreate (id : UUID) (newDevice : UUID → UUID → result SDev)
  | SvGetOrCreate (id : UUID) (newDevice : UUID → UUID → result SDev)
  | SvGetAndDelete (id : UUID)
  | SvDeleteAndClose (id : UUID)
  | SvShutdown (netClose : option error).
Definition sv_exec (l : SvLabel) (s : Service) : Service :=
  match l with
  | SvRequest req => (DefaultRequestHandler req s).2
  | SvCreate id f => (CreateDevice id f s).2
  | SvGetOrCreate id f => (GetOrCreateDevice id f s).2
  | SvGetAndDelete id => (GetAndDeleteDevice id s).2
  | SvDeleteAndClose id => (DeleteAndCloseDevice id s).2
  | SvShutdown e => (Shutdown e s).2
  end.
Definition step (s : Service) (l : SvLabel) (s' : Service) : Prop := s' = sv_exec l s.
End Service.

(** ** Properties *)

Section Props.
Context `{HUuid : Uuids} `{HSDev : ServiceDevice} `{!ServiceDeviceLaws} `{HLinks : Cbor ResourceLinks}.
Context (dev_order : gmap UUID SDev → list (UUID * SDev)).
Hypothesis dev_order_perm : ∀ m, dev_order m ≡ₚ map_to_list m.

(** Each device is in the table under its own ID. *)
Definition table_wf (s : Service) : Prop :=
  ∀ id d, sv_devices s !! id = Some d → sdev_GetID d = id.
(** Constructors that give the device the ID they are called with. *)
Definition honest (l : SvLabel) : Prop :=
  match l with
  | SvCreate id f | SvGetOrCreate id f => ∀ piid d, f id piid = Ok d → sdev_GetID d = id
  | _ => True
  end.

Lemma each_emit_devices {A} (f : A → SvEvent) l s :
  sv_devices (each (fun x => sv_emit (f x)) l s).2 = sv_devices s ∧
  sv_trace (each (fun x => sv_emit (f x)) l s).2 = sv_trace s ++ (f <$> l) ∧
  (each (fun x => sv_emit (f x)) l s).1 = Ok tt.
Proof.
  revert s. induction l as [|x l IH]; intros s; [simpl; by rewrite app_nil_r|].
  set (s' := {| sv_ID := sv_ID s; sv_devices := sv_devices s; sv_env := sv_env s;
                sv_trace := sv_trace s ++ [f x] |}).
  assert (each (fun x => sv_emit (f x)) (x :: l) s = each (fun x => sv_emit (f x)) l s') as ->
    by reflexivity.
  destruct (IH s') as (-> & -> & ->). simpl. by rewrite <- app_assoc.
Qed.

Lemma handleDiscoverAllLinks_eq req s :
  handleDiscoverAllLinks dev_order req s =
    (m ← CreateResponseContent (all_links dev_order req s) codes_Content; Ok (Some m),
     {| sv_ID := sv_ID s; sv_devices := sv_devices s; sv_env := sv_env s;
        sv_trace := sv_trace s ++
          (if negb (m_type (req_msg req) =? Acknowledgement) && negb (m_type (req_msg req) =? Reset_type)
           then [SvDiscovery req] else []) |}).
Proof.
  unfold handleDiscoverAllLinks, when, mbind, ME_bind, result_bind.
  destruct (negb _ && negb _); simpl; rewrite PatchLinks_no_effect; unfold lift;
    destruct s; simpl; rewrite ?app_nil_r; by destruct (CreateResponseContent _ _).
Qed.

Lemma handler_devices req s :
  sv_devices (DefaultRequestHandler dev_order req s).2 = sv_devices s ∨
  ∃ d, sv_devices s !! DeviceID req = Some d ∧
       sv_devices (DefaultRequestHandler dev_order req s).2 =
         <[DeviceID req := (sdev_HandleRequest req d (sv_env s)).1.2]> (sv_devices s).
Proof.
  unfold DefaultRequestHandler. cbv zeta.
  destruct (bool_decide (URIPath req = "")); [by left|].
  destruct (_ && bool_decide (URIPath req = well_known_core)); [by left|].
  destruct (_ && _ && _).
  { left. by rewrite handleDiscoverAllLinks_eq. }
  destruct (bool_decide (DeviceID req = uuid_Nil)); [by left|].
  unfold mbind, ME_bind, gets, LoadDevice. destruct (sv_devices s !! DeviceID req) as [d|] eqn:Ed.
  - right. exists d. split; [done|]. unfold device_HandleRequest.
    by destruct (sdev_HandleRequest req d (sv_env s)) as [[r d'] e].
  - left. by destruct (default false _).
Qed.

Lemma table_wf_insert s id d :
  table_wf s → sdev_GetID d = id → table_wf (set_devices (<[id := d]> (sv_devices s)) s).
Proof.
  intros Hwf Hd id' d'. simpl. destruct (decide (id = id')) as [<-|Hne].
  - rewrite lookup_insert_eq. by intros [= <-].
  - rewrite lookup_insert_ne by done. apply Hwf.
Qed.
Lemma table_wf_delete s id : table_wf s → table_wf (set_devices (delete id (sv_devices s)) s).
Proof. intros Hwf id' d'. simpl. rewrite lookup_delete_Some. intros [_ ?]. by apply Hwf. Qed.

Lemma table_wf_step s l s' : honest l → table_wf s → step dev_order s l s' → table_wf s'.
Proof.
  intros Hh Hwf ->. destruct l as [req|id f|id f|id|id|e]; simpl.
  - intros id d Hd. destruct (handler_devices req s) as [E|(d0 & Hd0 & E)]; rewrite E in Hd.
    + by apply Hwf.
    + destruct (decide (DeviceID req = id)) as [<-|Hne].
      * rewrite lookup_insert_eq in Hd. injection Hd as <-. rewrite sdev_request_ID. by apply Hwf.
      * rewrite lookup_insert_ne in Hd by done. by apply Hwf.
  - unfold CreateDevice, mbind, ME_bind, gets. destruct (sv_devices s !! id); [done|].
    simpl. destruct (f id _) as [d|] eqn:Ef; simpl.
    + by apply (table_wf_insert s); [|eapply Hh].
    + by apply (table_wf_delete s).
  - unfold GetOrCreateDevice, mbind, ME_bind, gets. destruct (sv_devices s !! id); [done|].
    simpl. destruct (f id _) as [d|] eqn:Ef; simpl.
    + by apply (table_wf_insert s); [|eapply Hh].
    + by apply (table_wf_delete s).
  - by apply (table_wf_delete s).
  - unfold DeleteAndCloseDevice, mbind, ME_bind. simpl.
    destruct (sv_devices s !! id); by apply (table_wf_delete s).
  - destruct e; [done|]. unfold Shutdown, mbind, ME_bind, gets, modify.
    intros id d. destruct (each_emit_devices (fun kd : UUID * SDev => SvClose kd.1)
      (dev_order (sv_devices s)) (set_devices ∅ s)) as (-> & _). simpl. by rewrite lookup_empty.
Qed.

Lemma all_links_fold req l acc :
  foldl (fun links (kd : UUID * SDev) =>
      let dlinks := sdev_GetLinks req kd.2 in
      if (0 <? length dlinks)%nat then links ++ dlinks else links) acc l =
  acc ++ mjoin ((fun kd => sdev_GetLinks req kd.2) <$> l).
Proof.
  revert acc. induction l as [|kd l IH]; intros acc; simpl; [by rewrite app_nil_r|].
  rewrite IH. destruct (Nat.ltb_spec 0 (length (sdev_GetLinks req kd.2))) as [|Hl].
  - by rewrite <- app_assoc.
  - destruct (sdev_GetLinks req kd.2); [done | simpl in Hl; lia].
Qed.

(** C32 Discovery over all bridged devices.  After any run of the service whose
    constructors respect the ID they are given, a GET of /oic/res without a device is
    answered with the encoding of the links of every device of the table, each link
    once per device that announces it and carrying the ID under which its device is in
    the table; the device table is left alone, and the observer of discoveries is told
    exactly for requests that are not acknowledgements or resets. *)
Theorem discovery_complete ls id0 e0 s req :
  runs (fun s l s' => honest l ∧ step dev_order s l s') (New id0 e0) ls s →
  m_code (req_msg req) = GET → URIPath req = oic_res → DeviceID req = uuid_Nil →
  let links := all_links dev_order req s in
  links ≡ₚ mjoin ((fun kd => sdev_GetLinks req kd.2) <$> map_to_list (sv_devices s)) ∧
  (∀ l, l ∈ links ↔ ∃ d, sv_devices s !! LinkDeviceID l = Some d ∧ l ∈ sdev_GetLinks req d) ∧
  (∀ body, cbor_Encode links = Ok body →
     (DefaultRequestHandler dev_order req s).1 =
       Ok (Some (set_body body (set_format AppOcfCbor (set_code codes_Content NewMessage))))) ∧
  sv_devices (DefaultRequestHandler dev_order req s).2 = sv_devices s ∧
  (SvDiscovery req ∈ sv_trace (DefaultRequestHandler dev_order req s).2 ↔
     SvDiscovery req ∈ sv_trace s ∨
     (m_type (req_msg req) ≠ Acknowledgement ∧ m_type (req_msg req) ≠ Reset_type)).
Proof.
  intros Hr Hget Hp Hdi links.
  assert (table_wf s) as Hwf.
  { refine (runs_invariant _ table_wf _ _ _ _ Hr _).
    - intros s1 l s2 Hw [Hh Hst]. by eapply table_wf_step.
    - intros id d. simpl. by rewrite lookup_empty. }
  assert (links ≡ₚ mjoin ((fun kd => sdev_GetLinks req kd.2) <$> map_to_list (sv_devices s))) as Hl.
  { unfold links, all_links. rewrite all_links_fold. simpl. by rewrite dev_order_perm. }
  assert (DefaultRequestHandler dev_order req s = handleDiscoverAllLinks dev_order req s) as Eh.
  { unfold DefaultRequestHandler. cbv zeta. rewrite Hget, Hp, Hdi. reflexivity. }
  pose proof (handleDiscoverAllLinks_eq req s) as Hall.
  split_and!; [done| | | |].
  - intros l. rewrite Hl. rewrite list_elem_of_join. setoid_rewrite list_elem_of_fmap. split.
    + intros (x & Hin & [id d] & -> & Hid%elem_of_map_to_list). exists d.
      simpl in Hin. rewrite (sdev_links_own _ _ _ Hin), (Hwf _ _ Hid). done.
    + intros (d & Hd & Hin). eexists. split; [done|]. exists (LinkDeviceID l, d).
      split; [done|]. by apply elem_of_map_to_list.
  - intros body Hb. rewrite Eh, Hall. simpl. unfold CreateResponseContent. fold links. by rewrite Hb.
  - by rewrite Eh, Hall.
  - rewrite Eh, Hall. simpl. destruct (Z.eqb_spec (m_type (req_msg req)) Acknowledgement),
      (Z.eqb_spec (m_type (req_msg req)) Reset_type); simpl; rewrite ?elem_of_app; set_solver.
Qed.
(** One device per request.  A message the network hands to the service with the ID
    of a device (and a path that is not the well-known core one) is answered by that
    device alone: the answer is the device's, with the token of the message, and every
    other device keeps its state.  When the device is not in the table, a message sent
    to a multicast address is not answered at all, any other one is answered with an
    error, and the service does not change. *)
Theorem request_to_device `{HResolver : Resolver} `{HStatus : CoapStatus} cfg conn localAddr cm request s :
  let req := {| req_msg := request; req_Conn := conn;
                req_Endpoints := BridgeNet.GetEndpoints cfg cm localAddr |} in
  URIPath req ≠ "" → (m_code request = GET → URIPath req ≠ well_known_core) →
  DeviceID req ≠ uuid_Nil →
  let answer := BridgeNet.handle cfg (fun r => (DefaultRequestHandler dev_order r s).1)
                  conn localAddr cm request in
  let s' := (DefaultRequestHandler dev_order req s).2 in
  match sv_devices s !! DeviceID req with
  | Some d =>
      let '(r, d', e) := sdev_HandleRequest req d (sv_env s) in
      answer = set_token (m_token request) <$>
                 (match r with Ok m => m | Err err => CreateResponseError (Some err) (m_token request) end) ∧
      sv_devices s' = <[DeviceID req := d']> (sv_devices s) ∧
      ∀ id, id ≠ DeviceID req → sv_devices s' !! id = sv_devices s !! id
  | None =>
      s' = s ∧
      (m_multicast request = Some true → answer = None) ∧
      (m_multicast request ≠ Some true → status_FromError (ErrText "invalid queries: device not found") = None →
         ∃ m, answer = Some m ∧ m_code m = codes_BadRequest ∧ m_token m = m_token request)
  end.
Proof.
  intros req Hp Hcore Hdi answer s'.
  assert (DefaultRequestHandler dev_order req s =
    match sv_devices s !! DeviceID req with
    | Some d => device_HandleRequest (DeviceID req) d req s
    | None => if default false (m_multicast request) then (Ok None, s)
              else (Err (ErrText "invalid queries: device not found"), s)
    end) as E.
  { unfold DefaultRequestHandler. cbv zeta. rewrite (bool_decide_false _ Hp), (bool_decide_false _ Hdi).
    assert ((m_code (req_msg req) =? GET) && bool_decide (URIPath req = well_known_core) = false) as ->.
    { destruct (Z.eqb_spec (m_code (req_msg req)) GET) as [Hg|]; [|done]. simpl.
      by apply bool_decide_eq_false_2, Hcore. }
    rewrite andb_false_r. unfold mbind, ME_bind, gets, LoadDevice.
    destruct (sv_devices s !! DeviceID req); [done|]. simpl. by destruct (m_multicast request) as [[]|]. }
  unfold answer, s', BridgeNet.handle. fold req. rewrite E. clear answer s' E.
  destruct (sv_devices s !! DeviceID req) as [d|] eqn:Ed.
  - unfold device_HandleRequest. destruct (sdev_HandleRequest req d (sv_env s)) as [[r d'] e]. simpl.
    split_and!; [done..|]. intros id Hne. by rewrite lookup_insert_ne.
  - destruct (m_multicast request) as [[]|]; simpl; (split; [done|]); split; try done.
    all: intros _ Hst; eexists; split; [reflexivity|]; unfold CreateResponseError; simpl; by rewrite Hst.
Qed.

(** The table of devices under the calls that create and delete.  [CreateDevice]
    calls the constructor (with the ID and the protocol independent ID of the service)
    exactly when the ID is free, and fails without touching the table when it is taken
    or the constructor fails; [GetOrCreateDevice] differs only in that it returns the
    device of a taken ID; a failed constructor leaves no entry; [DeleteAndCloseDevice]
    closes the device it removes, and nothing when the ID is free. *)
Theorem device_table_spec id f s :
  let old := sv_devices s !! id in
  let piid := ToUUID (sv_ID s) in
  (match (CreateDevice id f s).1 with
   | Ok d => old = None ∧ f id piid = Ok d ∧
             sv_devices (CreateDevice id f s).2 = <[id := d]> (sv_devices s)
   | Err e => (is_Some old ∨ f id piid = Err e) ∧ sv_devices (CreateDevice id f s).2 = sv_devices s
   end) ∧
  (SvNew id piid ∈ sv_trace (CreateDevice id f s).2 ↔ SvNew id piid ∈ sv_trace s ∨ old = None) ∧
  (match (GetOrCreateDevice id f s).1 with
   | Ok (d, loaded) => if loaded : bool then old = Some d ∧ (GetOrCreateDevice id f s).2 = s
                       else old = None ∧ CreateDevice id f s = (Ok d, (GetOrCreateDevice id f s).2)
   | Err e => old = None ∧ CreateDevice id f s = (Err e, (GetOrCreateDevice id f s).2)
   end) ∧
  (DeleteAndCloseDevice id s).1 = Ok (bool_decide (is_Some old)) ∧
  sv_devices (DeleteAndCloseDevice id s).2 = delete id (sv_devices s) ∧
  sv_trace (DeleteAndCloseDevice id s).2 =
    sv_trace s ++ (if bool_decide (is_Some old) then [SvClose id] else []).
Proof.
  intros old piid. unfold CreateDevice, GetOrCreateDevice, DeleteAndCloseDevice, mbind, ME_bind, gets.
  fold piid. unfold GetAndDeleteDevice, mbind, ME_bind, gets. simpl. fold old.
  destruct old as [d0|] eqn:Eold; simpl.
  - split_and!; try done; [by left; eexists | naive_solver].
  - destruct (f id piid) as [d|e] eqn:Ef; simpl;
      split_and!; try done; rewrite ?app_nil_r, ?delete_id by done; try done;
      rewrite ?elem_of_app; set_solver.
Qed.

(** Shutting down the service closes every device of the table exactly once and
    empties it; if the network cannot be closed, nothing happens to the devices. *)
Theorem Shutdown_spec s netClose :
  let '(r, s') := Shutdown dev_order netClose s in
  match netClose with
  | Some err => r = Err err ∧ s' = s
  | None => r = Ok tt ∧ sv_devices s' = ∅ ∧
            ∃ closed, sv_trace s' = sv_trace s ++ (SvClose <$> closed) ∧ NoDup closed ∧
                      ∀ id, id ∈ closed ↔ is_Some (sv_devices s !! id)
  end.
Proof.
  unfold Shutdown, mbind, ME_bind, gets, modify, fail. destruct netClose as [err|]; [done|].
  pose proof (each_emit_devices (fun kd : UUID * SDev => SvClose kd.1)
    (dev_order (sv_devices s)) (set_devices ∅ s)) as (Hd & Ht & Hr).
  destruct (each _ _ _) as [r s']. simpl in Hd, Ht, Hr. split_and!; [done..|].
  exists (dev_order (sv_devices s)).*1. rewrite Ht, <- list_fmap_compose. split; [done|].
  split.
  - rewrite dev_order_perm. apply NoDup_fst_map_to_list.
  - intros id. rewrite dev_order_perm, list_elem_of_fmap. split.
    + intros ([id' d] & -> & Hin%elem_of_map_to_list). by exists d.
    + intros [d Hd']. exists (id, d). split; [done|]. by apply elem_of_map_to_list.
Qed.
End Props.

(** ** The bridged device as a device of the service *)

Section Bridged.
Context `{HUuid : Uuids} `{HOrder : ResourceOrder} `{!ResourceOrderLaws} `{HREnv : ResourceEnv}.

#[export] Instance bridged_ServiceDevice : ServiceDevice := {|
  SDev := Device;
  SEnv := REnv * list REvent;
  sdev_GetID d := cfg_ID (d_cfg d);
  sdev_GetLinks := GetLinks;
  sdev_HandleRequest req d e :=
    let '(r, w) := BridgeDevice.HandleRequest req
                     {| dw_d := d; dw_env := e.1; dw_trace := e.2 |} in
    (r, dw_d w, (dw_env w, dw_trace w));
  sdev_Close d := (BridgeDevice.Close d).2 |}.

#[export] Instance bridged_laws : ServiceDeviceLaws.
Proof.
  split; simpl.
  - intros req d l. unfold GetLinks.
    destruct (decide (DeviceID req = uuid_Nil ∨ DeviceID req = cfg_ID (d_cfg d))) as [Hd|Hd].
    + rewrite GetLinksFilteredBy_eq by done. intros (kr & -> & _)%list_elem_of_fmap. done.
    + unfold GetLinksFilteredBy. rewrite !bool_decide_false by naive_solver. simpl.
      by intros Hin%elem_of_nil.
  - intros req d Hn Ho. unfold GetLinks, GetLinksFilteredBy. by rewrite !bool_decide_false.
  - intros req d [e tr]. simpl. unfold BridgeDevice.HandleRequest. simpl.
    destruct (d_resources d !! URIPath req); [|done].
    by destruct (BridgeResource.HandleRequest _ _).
Qed.
End Bridged.

(** ** The properties at concrete inputs *)

Section Examples.
#[local] Instance ex_sv_order : ResourceOrder := map_to_list.
#[local] Instance ex_sv_order_laws : ResourceOrderLaws.
Proof. intros m. reflexivity. Qed.
#[local] Instance ex_sv_Uuids : Uuids :=
  {| uuid_Parse s := if bool_decide (String.length s = 36%nat) then Ok s else Err (ErrText "invalid UUID");
     uuid_NewSHA1 s := s |}.
#[local] Instance ex_sv_REnv : ResourceEnv := {|
  REnv := unit; renv_get c req e := (Ok (Some (set_body "on" (set_code codes_Content NewMessage))), e);
  renv_post c req e := (Ok None, e); renv_subscribe c req e := (Ok 0%nat, e);
  renv_write a m e := (Ok tt, e); renv_etag e := (1, e); renv_notifications e := ([], e) |}.
#[local] Instance ex_sv_Cbor : Cbor ResourceLinks :=
  {| cbor_Encode l := Ok (join (Href <$> l) " "); cbor_Decode s := Err (ErrText "EOF") |}.
#[local] Instance ex_sv_Status : CoapStatus := fun _ => None.
#[local] Instance ex_sv_Resolver : Resolver :=
  {| ResolveUDPAddr n a := Ok tt; ParseIP_is4 s := true |}.

Definition ex_sv_id1 : UUID := "11111111-2222-3333-4444-555555555555".
Definition ex_sv_id2 : UUID := "22222222-2222-3333-4444-555555555555".
Definition ex_sv_new (href : string) (id piid : UUID) : result Device :=
  Ok {| d_cfg := set_ID_Name id "dev" ex_dev_cfg;
        d_resources := {[ href := NewResource href (of_device "" href) true true ["oic.r.light"] [OC_IF_RW] 5 ]};
        d_cloudManager := None; d_credentialManager := None; d_thingDescription := None;
        d_runLoop := false; d_doneClosed := false; d_stopped := false |}.
#[local] Instance ex_sv_dev : ServiceDevice := bridged_ServiceDevice.
#[local] Instance ex_sv_dev_laws : ServiceDeviceLaws := bridged_laws.
Definition ex_sv_dev_order (m : gmap UUID (SDev (ServiceDevice := ex_sv_dev))) :
  list (UUID * SDev (ServiceDevice := ex_sv_dev)) := map_to_list m.
Definition ex_sv_labels : list SvLabel :=
  [SvCreate ex_sv_id1 (ex_sv_new "/a"); SvGetOrCreate ex_sv_id2 (ex_sv_new "/b")].
Definition ex_sv_empty : Service := New "bridge" (tt, []).
Definition ex_sv : Service := foldl (fun s l => sv_exec ex_sv_dev_order l s) ex_sv_empty ex_sv_labels.

Definition ex_sv_get (path : string) : Message := set_code GET (set_path path NewMessage).
Definition ex_sv_request (m : Message) : Request :=
  {| req_msg := m; req_Conn := "conn"; req_Endpoints := [] |}.

Lemma discovery_complete_witness :
  (Href <$> all_links ex_sv_dev_order (ex_sv_request (ex_sv_get oic_res)) ex_sv) ≡ₚ ["/a"; "/b"] ∧
  all_links ex_sv_dev_order (ex_sv_request (ex_sv_get oic_res)) ex_sv ≡ₚ
    mjoin ((fun kd => GetLinks (ex_sv_request (ex_sv_get oic_res)) kd.2) <$>
             map_to_list (sv_devices ex_sv)).
Proof.
  split; [apply (bool_decide_eq_true_1 _); vm_compute; reflexivity|].
  apply (discovery_complete ex_sv_dev_order (fun _ => reflexivity _) ex_sv_labels "bridge" (tt, []));
    [|vm_compute; reflexivity..].
  eapply runs_cons; [split; [|reflexivity]; by intros ? ? [= <-]|].
  eapply runs_cons; [split; [|reflexivity]; by intros ? ? [= <-]|].
  apply runs_nil.
Defined.

Definition ex_sv_cfg : BridgeNet.Config :=
  {| ExternalAddresses := ["10.0.0.1:5683"]; MaxMessageSize := 0; DeduplicationLifetime := 0;
     cfg_externalAddressesPort := [] |}.
Definition ex_sv_to (id : UUID) (path : string) : Message := add_query ("di=" +:+ id) (ex_sv_get path).
Lemma request_to_device_witness :
  (m_body <$> BridgeNet.handle ex_sv_cfg (fun r => (DefaultRequestHandler ex_sv_dev_order r ex_sv).1)
     "conn" "10.0.0.1:5683" None (ex_sv_to ex_sv_id1 "/a")) = Some (Some "on") ∧
  sv_devices (DefaultRequestHandler ex_sv_dev_order
    {| req_msg := ex_sv_to ex_sv_id1 "/a"; req_Conn := "conn";
       req_Endpoints := BridgeNet.GetEndpoints ex_sv_cfg None "10.0.0.1:5683" |} ex_sv).2 !! ex_sv_id2 =
    sv_devices ex_sv !! ex_sv_id2.
Proof.
  split; [vm_compute; reflexivity|].
  pose proof (request_to_device ex_sv_dev_order ex_sv_cfg "conn" "10.0.0.1:5683" None
                (ex_sv_to ex_sv_id1 "/a") ex_sv) as H.
  cbv zeta in H. specialize (H ltac:(discriminate) ltac:(discriminate) ltac:(discriminate)).
  match type of H with
  | match ?x with _ => _ end => destruct x as [d|] eqn:Ed; [|vm_compute in Ed; discriminate Ed]
  end.
  destruct (sdev_HandleRequest _ d _) as [[r d'] e]. apply H. discriminate.
Defined.

Lemma Shutdown_spec_witness : ∃ closed,
  sv_trace (Shutdown ex_sv_dev_order None ex_sv).2 = sv_trace ex_sv ++ (SvClose <$> closed) ∧
  ex_sv_id1 ∈ closed.
Proof.
  pose proof (Shutdown_spec ex_sv_dev_order (fun _ => reflexivity _) ex_sv None) as H.
  destruct (Shutdown ex_sv_dev_order None ex_sv) as [r s'].
  destruct H as (_ & _ & closed & Ht & _ & Hc). exists closed. split; [exact Ht|].
  apply Hc. apply (bool_decide_eq_true_1 _). vm_compute. reflexivity.
Defined.
End Examples.
