(* ===== verification/ObserveDevices.v ===== *)
(** * ObserveDevices: presence of devices

    [src/client/observeDevices.go]: the polling loop of a devices observer, the
    counting of consecutive failures, and the events given to the application's
    handler.

    What a poll finds on the network, the answers of the application's handler, the
    order of the map iterations and the moments at which another goroutine calls
    [Cancel] are the class [ObserverEnv]. *)

From S2P Require Import Prelude GoLib.

Inductive DevicesObservationEvent_type :=
  DevicesObservationEvent_ONLINE | DevicesObservationEvent_OFFLINE.
#[export] Instance event_type_eq_dec : EqDecision DevicesObservationEvent_type.
Proof. solve_decision. Defined.
Record DevicesObservationEvent := {
  ev_DeviceID : string; ev_Event : DevicesObservationEvent_type }.

(** [insertSubscription] of [ObserveDevices], and [StopObservingDevices] (or the closing
    of the client). *)
Inductive OCall := CInsert | CStop.

Class ObserverEnv := {
  OEnv : Type;
  (** multicast discovery together with the devices found by IP that answer *)
  oenv_observe : OEnv → result (gset string) * OEnv;
  oenv_order : OEnv → gset string → list string;
  oenv_order_counts : OEnv → gmap string Z → list (string * Z);
  (** [Handle] of the application *)
  oenv_handle : DevicesObservationEvent → OEnv → result unit * OEnv;
  (** calls of other goroutines since the last question *)
  oenv_calls : OEnv → list OCall * OEnv }.
Class ObserverEnvLaws `{ObserverEnv} := {
  oenv_order_perm : ∀ e X, oenv_order e X ≡ₚ elements X;
  oenv_order_counts_perm : ∀ e m, oenv_order_counts e m ≡ₚ map_to_list m }.

(** ** Configuration *)

Record ObserverConfig := { PollingInterval : Z; FailureThreshold : Z }.
(** The defaults of the option [WithObserverConfig]. *)
Definition normalizeObserverConfig (c : ObserverConfig) : ObserverConfig :=
  {| PollingInterval := if PollingInterval c <=? 0 then 3 * 1000000000 else PollingInterval c;
     FailureThreshold := if FailureThreshold c <=? 0 then 3 else FailureThreshold c |}.

(** ** Counting failures *)

(** The loop over [onlineDeviceIDs]; a counter is a [uint8]. *)
Definition count_failures (threshold : Z) (online : list (string * Z)) (removed : list string)
    (current : gmap string Z) : list string * gmap string Z :=
  foldl (fun '(removed, current) df =>
      match current !! df.1 with
      | Some _ => (removed, current)
      | None =>
          let maxFailures := u8 (threshold - 1) in
          if df.2 <? maxFailures then (removed, <[df.1 := u8 (df.2 + 1)]> current)
          else (removed ++ [df.1], current)
      end) (removed, current) online.

(** [order]: the order in which the online devices were visited. *)
Definition processDevices (threshold : Z) (onlineDeviceIDs : gmap string Z)
    (order : list (string * Z)) (devices : gset string)
    : gset string * list string * gmap string Z :=
  let current : gmap string Z := gset_to_gmap 0 devices in
  let '(removed, current) := count_failures threshold order [] current in
  let added := filter (fun id => onlineDeviceIDs !! id = None) (dom current) in
  (added, removed, current).

(** ** The observer *)

Inductive OEvent :=
  | OHandle (ev : DevicesObservationEvent)
  | OOnClose
  | OError (err : error).

Section Observer.
Context `{HOE : ObserverEnv}.
Context (config : ObserverConfig).

(** [od_closed] is [isClosed] of the handler, [od_done] the context of the observer,
    [od_subscribed] whether the client still lists the subscription; [od_calls] are the
    calls on the application's handler. *)
Record Observer := {
  od_online : gmap string Z;
  od_closed : bool;
  od_done : bool;
  od_subscribed : bool;
  od_running : bool;
  od_env : OEnv;
  od_calls : list OEvent }.
Abbreviation OM := (ME Observer).

Definition set_online (x : gmap string Z) (o : Observer) : Observer :=
  {| od_online := x; od_closed := od_closed o; od_done := od_done o;
     od_subscribed := od_subscribed o; od_running := od_running o; od_env := od_env o;
     od_calls := od_calls o |}.
Definition set_flags (closed done subscribed running : bool) (o : Observer) : Observer :=
  {| od_online := od_online o; od_closed := closed; od_done := done;
     od_subscribed := subscribed; od_running := running; od_env := od_env o;
     od_calls := od_calls o |}.
Definition call (ev : OEvent) : OM unit :=
  modify (fun o => {| od_online := od_online o; od_closed := od_closed o; od_done := od_done o;
                      od_subscribed := od_subscribed o; od_running := od_running o;
                      od_env := od_env o; od_calls := od_calls o ++ [ev] |}).
Definition oask {A} (f : OEnv → A * OEnv) : OM A :=
  fun o => let '(a, e) := f (od_env o) in
           (Ok a, {| od_online := od_online o; od_closed := od_closed o; od_done := od_done o;
                     od_subscribed := od_subscribed o; od_running := od_running o; od_env := e;
                     od_calls := od_calls o |}).

(** [popSubscription], then [Cancel]: the handler is closed and the context cancelled. *)
Definition Cancel (o : Observer) : Observer := set_flags true true false (od_running o) o.
Definition api_call (o : Observer) (c : OCall) : Observer :=
  match c with
  | CInsert => set_flags (od_closed o) (od_done o) true (od_running o) o
  | CStop => if od_subscribed o then Cancel o else o
  end.
(** Calls of other goroutines, at a point where they can take effect. *)
Definition cancel_point : OM unit :=
  calls ← oask oenv_calls; modify (fun o => foldl api_call o calls).

Definition handler_Handle (ev : DevicesObservationEvent) : OM unit :=
  closed ← gets od_closed;
  if closed : bool then mret tt
  else call (OHandle ev);; r ← oask (oenv_handle ev); lift r.

(** [removeSubscription] cancels the observer itself when it is still listed. *)
Definition removeSubscription : OM unit :=
  subscribed ← gets od_subscribed; when subscribed (modify Cancel).
Definition handler_OnClose : OM unit :=
  closed ← gets od_closed;
  if closed : bool then mret tt
  else modify (fun o => set_flags true (od_done o) (od_subscribed o) (od_running o) o);;
       removeSubscription;; call OOnClose.
Definition handler_Error (err : error) : OM unit :=
  closed ← gets od_closed;
  if closed : bool then mret tt
  else modify (fun o => set_flags true (od_done o) (od_subscribed o) (od_running o) o);;
       removeSubscription;; call (OError err).

Definition emit (deviceID : string) (added : bool) : OM unit :=
  cancel_point;;
  handler_Handle {| ev_DeviceID := deviceID;
                    ev_Event := if added then DevicesObservationEvent_ONLINE
                                else DevicesObservationEvent_OFFLINE |}.

Definition observe : OM (gmap string Z) :=
  found ← oask oenv_observe;
  cancel_point;;
  newDevices ← lift found;
  online ← gets od_online;
  order ← gets (fun o => oenv_order_counts (od_env o) (od_online o));
  let '(added, removed, current) :=
    processDevices (FailureThreshold config) online order newDevices in
  addedOrder ← gets (fun o => oenv_order (od_env o) added);
  each (fun id => emit id true) addedOrder;;
  each (fun id => emit id false) removed;;
  mret current.

(** One round of the loop; [false] ends the goroutine. *)
Definition poll : OM bool :=
  r ← catch observe;
  cancel_point;;
  done ← gets od_done;
  if done : bool then handler_OnClose;; mret false
  else match r with
       | Err err => handler_Error err;; mret false
       | Ok newDeviceIDs => modify (set_online newDeviceIDs);; mret true
       end.

Definition newDevicesObserver (e : OEnv) : Observer :=
  {| od_online := ∅; od_closed := false; od_done := false; od_subscribed := false;
     od_running := true; od_env := e; od_calls := [] |}.

(** The goroutine: a round is run while the last one returned true. *)
Inductive OLabel := OPoll | OApi (c : OCall).
Inductive step : Observer → OLabel → Observer → Prop :=
  | step_poll o : od_running o = true →
      step o OPoll
        (let '(r, o') := poll o in
         match r with
         | Ok true => o'
         | _ => set_flags (od_closed o') (od_done o') (od_subscribed o') false o'
         end)
  | step_api o c : step o (OApi c) (api_call o c).
End Observer.

(** ** The specification: one automaton per device *)

(** A device is offline, or online after [k] polls without an answer. *)
Definition presence_step (threshold : Z) (st : option Z) (seen : bool)
    : option Z * option DevicesObservationEvent_type :=
  match st, seen with
  | None, false => (None, None)
  | None, true => (Some 0, Some DevicesObservationEvent_ONLINE)
  | Some _, true => (Some 0, None)
  | Some k, false => if k + 1 <? threshold then (Some (k + 1), None)
                     else (None, Some DevicesObservationEvent_OFFLINE)
  end.

(** ** Properties *)

Section Counting.
Context (threshold : Z) (Hthr : 1 <= threshold < 256).

Lemma count_failures_spec online removed current :
  NoDup online.*1 → (∀ id k, (id, k) ∈ online → 0 <= k < threshold) →
  let '(removed', current') := count_failures threshold online removed current in
  (∀ id, current' !! id = match current !! id with
     | Some x => Some x
     | None => match (list_to_map online : gmap string Z) !! id with
               | Some k => if k + 1 <? threshold then Some (k + 1) else None
               | None => None end end) ∧
  (∃ l, removed' = removed ++ l ∧ NoDup l ∧ ∀ id, id ∈ l ↔
     current !! id = None ∧ ∃ k, (list_to_map online : gmap string Z) !! id = Some k ∧ threshold <= k + 1).
Proof.
  revert removed current. induction online as [|[id k] online IH]; intros removed current Hnd Hk.
  { simpl. split; [intros id; rewrite lookup_empty; by destruct (current !! id)|]. exists [].
    rewrite app_nil_r. split_and!; [done|constructor|]. intros id.
    rewrite lookup_empty. split; [by intros ?%elem_of_nil | by intros (_ & k & ? & _)]. }
  apply NoDup_cons in Hnd as [Hid Hnd].
  assert (∀ id' k', (id', k') ∈ online → 0 <= k' < threshold) as Hk' by (intros id' k' Hin; apply (Hk id' k'); by apply elem_of_cons; right).
  assert (0 <= k < threshold) as Hk0 by (apply (Hk id); by apply elem_of_cons; left).
  assert ((list_to_map online : gmap string Z) !! id = None) as Hnone
    by (apply not_elem_of_list_to_map_1; exact Hid).
  destruct (current !! id) as [x|] eqn:Ec.
  - assert (count_failures threshold ((id, k) :: online) removed current =
            count_failures threshold online removed current) as ->
      by (unfold count_failures; cbn [foldl fst snd]; by rewrite Ec).
    specialize (IH removed current Hnd Hk').
    destruct (count_failures _ _ _ _) as [removed' current']. destruct IH as [IHc (l & -> & Hl & Hin)].
    split; [|exists l; split_and!; [done..|]]; intros id'; [rewrite IHc|rewrite Hin];
      simpl list_to_map; destruct (decide (id = id')) as [<-|Hne];
      rewrite ?Ec, ?lookup_insert_ne, ?lookup_insert_eq by done; naive_solver.
  - assert (count_failures threshold ((id, k) :: online) removed current =
            if k <? threshold - 1 then count_failures threshold online removed (<[id := k + 1]> current)
            else count_failures threshold online (removed ++ [id]) current) as ->.
    { unfold count_failures. cbn [foldl fst snd]. rewrite Ec. unfold u8. rewrite !wrap_small by lia.
      by destruct (k <? threshold - 1). }
    destruct (Z.ltb_spec k (threshold - 1)) as [Hlt|Hge].
    + specialize (IH removed (<[id := k + 1]> current) Hnd Hk').
      destruct (count_failures _ _ _ _) as [removed' current']. destruct IH as [IHc (l & -> & Hl & Hin)].
      split; [|exists l; split_and!; [done..|]]; intros id'; [rewrite IHc|rewrite Hin]; simpl list_to_map;
        (destruct (decide (id = id')) as [<-|Hne]; [rewrite ?lookup_insert_eq, ?Ec|by rewrite ?lookup_insert_ne by done]).
      * by destruct (Z.ltb_spec (k + 1) threshold); [|lia].
      * split; [by intros [? _]|]. intros (_ & k' & [= <-] & ?). lia.
    + specialize (IH (removed ++ [id]) current Hnd Hk').
      destruct (count_failures _ _ _ _) as [removed' current']. destruct IH as [IHc (l & -> & Hl & Hin)].
      split; [|exists (id :: l); split_and!]; [..|by rewrite <- app_assoc| |].
      * intros id'. rewrite IHc. simpl list_to_map. destruct (decide (id = id')) as [<-|Hne].
        -- rewrite Ec, Hnone, lookup_insert_eq. by destruct (Z.ltb_spec (k + 1) threshold); [lia|].
        -- by rewrite lookup_insert_ne.
      * constructor; [|done]. rewrite Hin. intros (_ & k' & Hk1 & _). congruence.
      * intros id'. rewrite elem_of_cons, Hin. simpl list_to_map.
        destruct (decide (id = id')) as [<-|Hne]; [rewrite lookup_insert_eq|rewrite lookup_insert_ne by done];
          [|naive_solver]. split; [|by left]. intros _. split; [done|]. exists k. split; [done|lia].
Qed.

(** C11 Refinement: a poll of the observer is one step of the presence automaton of
    every device.  Whatever the order in which the counters are visited, the new counter
    of each device, whether it is reported online and whether it is reported offline are
    the ones of [presence_step] for the device alone; no device is reported twice. *)
Theorem processDevices_refines online order devices :
  order ≡ₚ map_to_list online → (∀ id k, online !! id = Some k → 0 <= k < threshold) →
  let '(added, removed, current) := processDevices threshold online order devices in
  NoDup removed ∧
  ∀ id, let '(st, ev) := presence_step threshold (online !! id) (bool_decide (id ∈ devices)) in
    current !! id = st ∧
    (id ∈ added ↔ ev = Some DevicesObservationEvent_ONLINE) ∧
    (id ∈ removed ↔ ev = Some DevicesObservationEvent_OFFLINE).
Proof.
  intros Hord Hk. unfold processDevices.
  assert (NoDup order.*1) as Hnd by (rewrite Hord; apply NoDup_fst_map_to_list).
  assert ((list_to_map order : gmap string Z) = online) as Hlm.
  { rewrite (list_to_map_proper order (map_to_list online)); [apply list_to_map_to_list|done|done]. }
  pose proof (count_failures_spec order [] (gset_to_gmap 0 devices) Hnd) as H.
  destruct (count_failures _ _ _ _) as [removed current].
  destruct H as [Hc (l & -> & Hl & Hin)].
  { intros id k Hik. rewrite Hord in Hik. apply elem_of_map_to_list in Hik. by eapply Hk. }
  rewrite Hlm in Hc, Hin. simpl. split; [done|]. intros id.
  assert (∀ x, gset_to_gmap 0 devices !! id = Some x ↔ id ∈ devices ∧ 0 = x) as Hg
    by (intros x; apply lookup_gset_to_gmap_Some).
  specialize (Hc id). specialize (Hin id).
  assert (id ∈ filter (fun id => online !! id = None) (dom current) ↔
          online !! id = None ∧ is_Some (current !! id)) as Ha.
  { by rewrite elem_of_filter, elem_of_dom. }
  destruct (gset_to_gmap 0 devices !! id) as [x|] eqn:Eg.
  - destruct (proj1 (Hg x) eq_refl) as [Hd <-]. rewrite (bool_decide_true _ Hd).
    destruct (online !! id); simpl; rewrite Ha, Hin, Hc; naive_solver.
  - rewrite bool_decide_false by (intros Hd; by discriminate (proj2 (Hg 0) (conj Hd eq_refl))).
    destruct (online !! id) as [k|]; simpl.
    + destruct (Z.ltb_spec (k + 1) threshold); simpl; rewrite Ha, Hin, Hc; naive_solver lia.
    + rewrite Ha, Hin, Hc. naive_solver.
Qed.

Definition bounded (online : gmap string Z) : Prop :=
  ∀ id k, online !! id = Some k → 0 <= k < threshold.
Lemma processDevices_bounded online order devices :
  order ≡ₚ map_to_list online → bounded online →
  bounded (processDevices threshold online order devices).2.
Proof.
  intros Hord Hb id k. pose proof (processDevices_refines online order devices Hord Hb) as H.
  destruct (processDevices _ _ _ _) as [[added removed] current]. destruct H as [_ H].
  specialize (H id). destruct (presence_step _ _ _) as [st ev] eqn:E. destruct H as [H _].
  cbn [snd]. rewrite H. intros ->. unfold presence_step in E.
  destruct (online !! id) as [k0|] eqn:E0; [specialize (Hb id k0 E0)|];
    destruct (bool_decide (id ∈ devices)); try (injection E as <- _; lia); try discriminate E.
  destruct (Z.ltb_spec (k0 + 1) threshold); [injection E as <- _; lia | discriminate E].
Qed.

(** The counters after polls that found the devices of [l]. *)
Fixpoint polls (online : gmap string Z) (l : list (gset string)) : gmap string Z :=
  match l with
  | [] => online
  | devices :: l' => polls (processDevices threshold online (map_to_list online) devices).2 l'
  end.

(** A device is reported offline at the [FailureThreshold]-th consecutive poll it does
    not answer, and not before: from the poll it answered last, fewer polls without an
    answer leave it online with their number as its counter, which never wraps around,
    and the one that reaches the threshold removes it and reports it. *)
Theorem offline_after_threshold online l devices id :
  bounded online → online !! id = Some 0 →
  Forall (fun found => id ∉ found) l → id ∉ devices → (length l < Z.to_nat threshold)%nat →
  polls online l !! id = Some (Z.of_nat (length l)) ∧
  let '(_, removed, current) :=
    processDevices threshold (polls online l) (map_to_list (polls online l)) devices in
  (id ∈ removed ↔ Z.of_nat (length l) + 1 = threshold) ∧
  (current !! id = None ↔ Z.of_nat (length l) + 1 = threshold).
Proof.
  intros Hb H0 Hl Hd Hlen.
  assert (∀ l k online, bounded online → online !! id = Some (Z.of_nat k) →
            Forall (fun found => id ∉ found) l → (k + length l < Z.to_nat threshold)%nat →
            bounded (polls online l) ∧ polls online l !! id = Some (Z.of_nat (k + length l))) as Hgo.
  { clear -Hthr. induction l as [|found l IH]; intros k online Hb Hk Hl Hlen; simpl in *.
    - by rewrite Nat.add_0_r.
    - apply Forall_cons in Hl as [Hf Hl].
      pose proof (processDevices_refines online (map_to_list online) found (reflexivity _) Hb) as H.
      pose proof (processDevices_bounded online (map_to_list online) found (reflexivity _) Hb) as Hb'.
      destruct (processDevices _ _ _ _) as [[added removed] current]. destruct H as [_ H].
      specialize (H id). rewrite Hk, (bool_decide_false _ Hf) in H. cbn [presence_step] in H.
      destruct (Z.ltb_spec (Z.of_nat k + 1) threshold); [|lia]. destruct H as [H _]. cbn [snd] in *.
      rewrite <- Nat.add_succ_comm. apply IH; [done| |done|lia]. rewrite H. f_equal. lia. }
  destruct (Hgo l 0%nat online Hb H0 Hl ltac:(lia)) as [Hb' Hk]. clear Hgo. split; [exact Hk|].
  pose proof (processDevices_refines (polls online l) _ devices (reflexivity _) Hb') as H.
  destruct (processDevices _ _ _ _) as [[added removed] current]. destruct H as [_ H].
  specialize (H id). rewrite Hk, (bool_decide_false _ Hd) in H. cbn [presence_step plus] in H.
  destruct (Z.ltb_spec (Z.of_nat (length l) + 1) threshold) as [Hlt|Hge]; destruct H as (-> & _ & ->).
  - split; split; try done; intros; lia.
  - split; split; try done; intros; lia.
Qed.
End Counting.

(** *** The events of a device alternate *)

Section Alternate.
Context `{HOE : ObserverEnv} `{HOL : !ObserverEnvLaws} (config : ObserverConfig).

Definition events_of (id : string) (calls : list OEvent) : list DevicesObservationEvent_type :=
  omap (fun c => match c with
                 | OHandle ev => if bool_decide (ev_DeviceID ev = id) then Some (ev_Event ev) else None
                 | _ => None end) calls.
(** The first [n] events of ONLINE, OFFLINE, ONLINE, ... *)
Fixpoint alternating (n : nat) : list DevicesObservationEvent_type :=
  match n with
  | O => []
  | S n' => alternating n' ++
            [if Nat.even n' then DevicesObservationEvent_ONLINE else DevicesObservationEvent_OFFLINE]
  end.
Definition event (b : bool) (id : string) : DevicesObservationEvent :=
  {| ev_DeviceID := id;
     ev_Event := if b then DevicesObservationEvent_ONLINE else DevicesObservationEvent_OFFLINE |}.

Lemma events_of_app id a b : events_of id (a ++ b) = events_of id a ++ events_of id b.
Proof. unfold events_of. by rewrite omap_app. Qed.

(** What operations other than the round itself can do: calls that are not events of
    devices, and closing. *)
Definition quiet (o o' : Observer) : Prop :=
  od_online o' = od_online o ∧ (od_closed o = true → od_closed o' = true) ∧
  od_running o' = od_running o ∧ ∃ cs, od_calls o' = od_calls o ++ cs ∧ ∀ id, events_of id cs = [].

Lemma quiet_refl o : quiet o o.
Proof. split_and!; try done. exists []. by rewrite app_nil_r. Qed.
Lemma quiet_trans o1 o2 o3 : quiet o1 o2 → quiet o2 o3 → quiet o1 o3.
Proof.
  intros (H1 & H2 & H3 & c & H4 & H5) (I1 & I2 & I3 & c' & I4 & I5).
  split_and!; [congruence|auto|congruence|]. exists (c ++ c'). rewrite I4, H4, <- app_assoc.
  split; [done|]. intros id. by rewrite events_of_app, H5, I5.
Qed.

Lemma api_call_quiet o c : quiet o (api_call o c).
Proof.
  destruct c; simpl; [|destruct (od_subscribed o); [|apply quiet_refl]];
    split_and!; try done; exists []; by rewrite app_nil_r.
Qed.
Lemma cancel_point_quiet o : quiet o (cancel_point o).2.
Proof.
  unfold cancel_point, mbind, ME_bind, oask. destruct (oenv_calls (od_env o)) as [calls e]. simpl.
  set (o0 := {| od_online := od_online o; od_closed := od_closed o; od_done := od_done o;
                od_subscribed := od_subscribed o; od_running := od_running o; od_env := e;
                od_calls := od_calls o |}).
  assert (quiet o o0) as H0 by (split_and!; try done; exists []; by rewrite app_nil_r).
  revert H0. generalize o0. induction calls as [|c calls IH]; intros o1 H1; simpl; [done|].
  apply IH. eapply quiet_trans; [exact H1 | apply api_call_quiet].
Qed.
Lemma cancel_point_ok o : (cancel_point o).1 = Ok tt.
Proof. unfold cancel_point, mbind, ME_bind, oask. by destruct (oenv_calls (od_env o)). Qed.

Definition ev_type (b : bool) : DevicesObservationEvent_type :=
  if b then DevicesObservationEvent_ONLINE else DevicesObservationEvent_OFFLINE.
(** A part of a round that reports the devices [sent]. *)
Definition reports (b : bool) (sent : list string) (o o' : Observer) : Prop :=
  od_online o' = od_online o ∧ (od_closed o = true → od_closed o' = true) ∧
  od_running o' = od_running o ∧
  ∀ id, events_of id (od_calls o') = events_of id (od_calls o) ++
          ((fun _ => ev_type b) <$> filter (fun x => x = id) sent).

Lemma reports_quiet b o o' : quiet o o' → reports b [] o o'.
Proof.
  intros (H1 & H2 & H3 & cs & H4 & H5). split_and!; try done.
  intros id. simpl. rewrite H4, events_of_app, H5, !app_nil_r. done.
Qed.
Lemma reports_trans b l1 l2 o1 o2 o3 :
  reports b l1 o1 o2 → reports b l2 o2 o3 → reports b (l1 ++ l2) o1 o3.
Proof.
  intros (H1 & H2 & H3 & H4) (I1 & I2 & I3 & I4). split_and!; [congruence|auto|congruence|].
  intros id. by rewrite I4, H4, filter_app, fmap_app, <- app_assoc.
Qed.

Lemma emit_reports id b o :
  ∃ sent, reports b sent o (emit id b o).2 ∧
    (sent = [] ∨ sent = [id]) ∧ (od_closed o = true → sent = []) ∧
    ((emit id b o).1 = Ok tt → od_closed (emit id b o).2 = false → sent = [id]).
Proof.
  assert (emit id b o = handler_Handle (event b id) (cancel_point o).2) as ->.
  { unfold emit, mbind, ME_bind. pose proof (cancel_point_ok o) as Hok.
    destruct (cancel_point o) as [r o1]. cbn [fst snd] in *. by subst r. }
  pose proof (reports_quiet b _ _ (cancel_point_quiet o)) as Hq.
  generalize dependent (cancel_point o).2. intros o1 Hq.
  assert (od_closed o = true → od_closed o1 = true) as Hmono by apply Hq.
  unfold handler_Handle, mbind, ME_bind, gets. destruct (od_closed o1) eqn:Ec.
  - exists []. split_and!; [done|by left|done|]. intros _ Hc. change (od_closed o1 = false) in Hc. congruence.
  - exists [id]. simpl. unfold oask.
    destruct (oenv_handle _ _) as [r e] eqn:Eh. simpl.
    assert (reports b [id] o1 {| od_online := od_online o1; od_closed := od_closed o1;
      od_done := od_done o1; od_subscribed := od_subscribed o1; od_running := od_running o1;
      od_env := e; od_calls := od_calls o1 ++ [OHandle (event b id)] |}) as Hr.
    { split_and!; try done. intros id'. simpl. rewrite events_of_app. f_equal.
      rewrite filter_cons. unfold events_of, omap, list_omap. cbn [ev_DeviceID event ev_Event].
      case_bool_decide; [rewrite decide_True by done|rewrite decide_False by done]; done. }
    split_and!; [|by right|by intros ?%Hmono; congruence|done].
    apply (reports_trans b [] [id] _ _ _ Hq).
    unfold lift. by destruct r.
Qed.

Lemma emits_report b l o :
  ∃ sent, reports b sent o (each (fun id => emit id b) l o).2 ∧ sublist sent l ∧
    (od_closed o = true → sent = []) ∧
    ((each (fun id => emit id b) l o).1 = Ok tt →
     od_closed (each (fun id => emit id b) l o).2 = false → sent = l).
Proof.
  revert o. induction l as [|id l IH]; intros o.
  - exists []. split_and!; [apply reports_quiet, quiet_refl | done..].
  - cbn [each]. unfold mbind, ME_bind. destruct (emit_reports id b o) as (s1 & H1 & H2 & H2' & H3).
    destruct (emit id b o) as [[[]|e] o1]; cbn [fst snd] in *.
    + destruct (IH o1) as (s2 & I1 & I2 & I2' & I3).
      exists (s1 ++ s2). split; [by eapply reports_trans|].
      split; [destruct H2 as [-> | ->]; simpl; [by apply sublist_cons | by apply sublist_skip]|].
      split; [intros Hc; rewrite (H2' Hc); apply I2'; by apply H1|].
      intros Hr Hc. rewrite (I3 Hr Hc). rewrite H3; [done|done|].
      destruct I1 as (_ & Hm & _). destruct (od_closed o1); [|done]. by rewrite Hm in Hc.
    + exists s1. split_and!; [done| |done..].
      destruct H2 as [-> | ->]; [apply sublist_nil_l | apply sublist_skip, sublist_nil_l].
Qed.

(** The events of one device in a round that reports at most what its automaton does. *)
Definition follows (id : string) (o o' : Observer) (ev : option DevicesObservationEvent_type) : Prop :=
  events_of id (od_calls o') = events_of id (od_calls o) ++ option_list ev.

Lemma filter_eq_NoDup (id : string) (l : list string) : NoDup l →
  filter (fun x => x = id) l = if bool_decide (id ∈ l) then [id] else [].
Proof.
  induction 1 as [|x l Hx Hl IH]; [done|]. rewrite filter_cons, IH.
  destruct (decide (x = id)) as [->|Hne].
  - rewrite (bool_decide_false _ Hx), bool_decide_true by (by apply elem_of_cons; left). done.
  - destruct (decide (id ∈ l)) as [Hin|Hin].
    + rewrite !bool_decide_true; [done| |done]. by apply elem_of_cons; right.
    + rewrite !bool_decide_false; [done| |done]. intros [->|?]%elem_of_cons; done.
Qed.

(** The reports of one device in a round that was cut short after the parts [s1] of the
    added and [s2] of the removed devices. *)
Lemma round_events (id : string) ev order removed s1 s2 :
  NoDup order → NoDup removed → sublist s1 order → sublist s2 removed →
  (id ∈ order ↔ ev = Some DevicesObservationEvent_ONLINE) →
  (id ∈ removed ↔ ev = Some DevicesObservationEvent_OFFLINE) →
  ∃ ev', ((fun _ => ev_type true) <$> filter (fun x => x = id) s1) ++
         ((fun _ => ev_type false) <$> filter (fun x => x = id) s2) = option_list ev' ∧
         (ev' = None ∨ ev' = ev) ∧ (s1 = [] → s2 = [] → ev' = None) ∧
         (s1 = order → s2 = removed → ev' = ev).
Proof.
  intros Hno Hnd Hs1 Hs2 Ha Hr.
  rewrite (filter_eq_NoDup id s1) by (exact (sublist_NoDup _ _ Hno Hs1)).
  rewrite (filter_eq_NoDup id s2) by (exact (sublist_NoDup _ _ Hnd Hs2)).
  assert (id ∈ s1 → ev = Some DevicesObservationEvent_ONLINE) as H1.
  { intros H1. apply Ha. by eapply elem_of_sublist. }
  assert (id ∈ s2 → ev = Some DevicesObservationEvent_OFFLINE) as H2.
  { intros H2. apply Hr. by eapply elem_of_sublist. }
  destruct (decide (id ∈ s1)) as [E1|E1], (decide (id ∈ s2)) as [E2|E2].
  - rewrite (H1 E1) in H2. by specialize (H2 E2).
  - rewrite (bool_decide_true _ E1), (bool_decide_false _ E2). exists ev. rewrite (H1 E1).
    split_and!; [done|by right|by intros ->; apply elem_of_nil in E1|done].
  - rewrite (bool_decide_false _ E1), (bool_decide_true _ E2). exists ev. rewrite (H2 E2).
    split_and!; [done|by right|by intros _ ->; apply elem_of_nil in E2|done].
  - rewrite (bool_decide_false _ E1), (bool_decide_false _ E2). exists None.
    split_and!; [done|by left|done|]. intros -> ->. destruct ev as [[]|]; naive_solver.
Qed.

(** A round from the counters [online] that found [seen] of a device. *)
Definition round (o o' : Observer) (id : string) (seen complete : bool) : Prop :=
  let ev := (presence_step (FailureThreshold config) (od_online o !! id) seen).2 in
  ∃ ev', follows id o o' ev' ∧ (ev' = None ∨ ev' = ev) ∧ (od_closed o = true → ev' = None) ∧
         (complete = true → ev' = ev).

Lemma round_none o o' id seen :
  events_of id (od_calls o') = events_of id (od_calls o) → round o o' id seen false.
Proof. intros E. exists None. unfold follows. rewrite E, app_nil_r. split_and!; auto; done. Qed.

Definition same_counters (o o' : Observer) : Prop :=
  od_online o' = od_online o ∧ (od_closed o = true → od_closed o' = true) ∧
  od_running o' = od_running o.

(** Reporting the devices that [processDevices] found to have changed. *)
Lemma reports_round o added removed current devices :
  (added, removed, current) = processDevices (FailureThreshold config) (od_online o)
     (oenv_order_counts (od_env o) (od_online o)) devices →
  1 <= FailureThreshold config < 256 → bounded (FailureThreshold config) (od_online o) →
  let m := each (fun id => emit id true) (oenv_order (od_env o) added);;
           each (fun id => emit id false) removed in
  same_counters o (m o).2 ∧
  ∀ id, round o (m o).2 id (bool_decide (id ∈ devices))
          (is_ok (m o).1 && negb (od_closed (m o).2)).
Proof.
  intros E HT Hb m.
  pose proof (processDevices_refines _ HT (od_online o) (oenv_order_counts (od_env o) (od_online o))
                devices (oenv_order_counts_perm _ _) Hb) as Hp.
  rewrite <- E in Hp. destruct Hp as [Hnd Hp]. unfold m, mbind, ME_bind. clear E.
  set (order := oenv_order (od_env o) added).
  assert (NoDup order) as Hno by (unfold order; rewrite oenv_order_perm; apply NoDup_elements).
  assert (∀ id, id ∈ order ↔ id ∈ added) as Hin.
  { intros id. unfold order. by rewrite oenv_order_perm, elem_of_elements. }
  assert (∀ id s1 s2, sublist s1 order → sublist s2 removed →
    let ev := (presence_step (FailureThreshold config) (od_online o !! id) (bool_decide (id ∈ devices))).2 in
    ∃ ev', ((fun _ => ev_type true) <$> filter (fun x => x = id) s1) ++
           ((fun _ => ev_type false) <$> filter (fun x => x = id) s2) = option_list ev' ∧
           (ev' = None ∨ ev' = ev) ∧ (s1 = [] → s2 = [] → ev' = None) ∧
           (s1 = order → s2 = removed → ev' = ev)) as Hev.
  { intros id s1 s2 Hs1 Hs2. specialize (Hp id).
    destruct (presence_step _ _ _) as [st ev]. destruct Hp as (_ & Ha & Hr).
    exact (round_events id ev order removed s1 s2 Hno Hnd Hs1 Hs2 (iff_trans (Hin id) Ha) Hr). }
  destruct (emits_report true order o) as (s1 & (A1 & A2 & A3 & A4) & A5 & A0 & A6).
  destruct (each (fun id => emit id true) order o) as [[[]|err] o2]; cbn [fst snd] in *.
  2: { split; [done|]. intros id. destruct (Hev id s1 [] A5 (sublist_nil_l _)) as (ev & E1 & E2 & E3 & _).
       exists ev. split_and!; [|done|by intros Hc; apply E3, eq_refl; apply A0|done].
       unfold follows. rewrite A4, <- E1. by rewrite app_nil_r. }
  destruct (emits_report false removed o2) as (s2 & (B1 & B2 & B3 & B4) & B5 & B0 & B6).
  split; [split_and!; [congruence|auto|congruence]|]. intros id.
  destruct (Hev id s1 s2 A5 B5) as (ev & E1 & E2 & E3 & E4). exists ev. split_and!; [|done| |].
  - unfold follows. by rewrite B4, A4, <- app_assoc, E1.
  - intros Hc. apply E3; [by apply A0 | by apply B0, A2].
  - destruct (each (fun id => emit id false) removed o2) as [[[]|err] o3]; cbn [fst snd is_ok] in *; [|done].
    intros Hc%negb_true_iff. apply E4; [apply A6; [done|]|by apply B6].
    destruct (od_closed o2); [by rewrite B2 in Hc|done].
Qed.

Lemma round_quiet o o1 o2 id seen b :
  od_online o1 = od_online o → (od_closed o = true → od_closed o1 = true) →
  (∀ id, events_of id (od_calls o1) = events_of id (od_calls o)) →
  round o1 o2 id seen b → round o o2 id seen b.
Proof.
  intros H1 H2 H3 (ev & E1 & E2 & E3 & E4). exists ev. unfold follows in *. rewrite H3 in E1.
  rewrite H1 in E2, E4. split_and!; auto.
Qed.

Lemma observe_round o :
  1 <= FailureThreshold config < 256 → bounded (FailureThreshold config) (od_online o) →
  let '(r, o') := observe config o in
  same_counters o o' ∧
  ∃ devices : gset string,
    (∀ id, round o o' id (bool_decide (id ∈ devices)) (is_ok r && negb (od_closed o'))) ∧
    (∀ current, r = Ok current → bounded (FailureThreshold config) current ∧
       ∀ id, current !! id = (presence_step (FailureThreshold config) (od_online o !! id)
                                (bool_decide (id ∈ devices))).1).
Proof.
  intros HT Hb. unfold observe, mbind at 1, ME_bind at 1, oask at 1.
  destruct (oenv_observe (od_env o)) as [found e]. cbn [fst snd].
  set (o0 := {| od_online := od_online o; od_closed := od_closed o; od_done := od_done o;
     od_subscribed := od_subscribed o; od_running := od_running o; od_env := e; od_calls := od_calls o |}).
  assert (quiet o (cancel_point o0).2) as (Q1 & Q2 & Q3 & cs & Q4 & Q5).
  { eapply quiet_trans; [|apply cancel_point_quiet]. split_and!; try done. exists []. by rewrite app_nil_r. }
  unfold mbind at 1, ME_bind at 1. pose proof (cancel_point_ok o0) as Hok.
  destruct (cancel_point o0) as [r1 o1]. cbn [fst snd] in *. subst r1. clear o0 e.
  assert (∀ id, events_of id (od_calls o1) = events_of id (od_calls o)) as Q6.
  { intros id. by rewrite Q4, events_of_app, Q5, app_nil_r. }
  unfold mbind at 1, ME_bind at 1, lift at 1. destruct found as [devices|err].
  2: { split; [done|]. exists ∅. split; [|done]. intros id. by apply round_none. }
  unfold mbind at 1 2, ME_bind at 1 2, gets at 1 2. cbn [fst snd].
  rewrite <- Q1 in Hb |- *. 
  destruct (processDevices _ _ _ _) as [[added removed] current] eqn:E.
  pose proof (reports_round o1 added removed current devices (eq_sym E) HT Hb) as Hr. cbv zeta in Hr.
  pose proof (processDevices_refines _ HT _ _ devices (oenv_order_counts_perm (od_env o1) _) Hb) as Hp.
  pose proof (processDevices_bounded _ HT _ _ devices (oenv_order_counts_perm (od_env o1) _) Hb) as Hbc.
  rewrite E in Hp, Hbc. destruct Hp as [_ Hp]. cbn [snd] in Hbc.
  assert (∀ id, current !! id = (presence_step (FailureThreshold config) (od_online o1 !! id)
                                (bool_decide (id ∈ devices))).1) as Hcur.
  { intros id. specialize (Hp id). destruct (presence_step _ _ _). by destruct Hp as [-> _]. }
  unfold mbind, ME_bind, gets in *. cbn [fst snd] in *.
  destruct (each (fun id => emit id true) _ o1) as [[[]|err] o2]; cbn [fst snd] in *;
    [destruct (each (fun id => emit id false) removed o2) as [[[]|err] o3]; cbn [fst snd] in * |];
    destruct Hr as [(S1 & S2 & S3) Hr]; (split; [split_and!; [congruence|auto|congruence]|]);
    exists devices; (split; [intros id; eapply round_quiet, Hr; done | ]); try done.
  intros ? [= <-]. by split.
Qed.

Record OInv (o : Observer) : Prop := {
  oi_bounded : bounded (FailureThreshold config) (od_online o);
  oi_alternate : ∀ id, ∃ n, events_of id (od_calls o) = alternating n ∧
    (od_running o = true → od_closed o = false → (is_Some (od_online o !! id) ↔ Nat.odd n = true)) }.

Lemma OInv_quiet o o' :
  od_online o' = od_online o → (od_closed o = true → od_closed o' = true) →
  (od_running o' = true → od_running o = true) →
  (∀ id, events_of id (od_calls o') = events_of id (od_calls o)) → OInv o → OInv o'.
Proof.
  intros H1 H2 H3 H4 [Hb Ha]. split; [by rewrite H1|]. intros id. rewrite H4, H1.
  destruct (Ha id) as (n & Hn & Hs). exists n. split; [done|]. intros Hr Hc. apply Hs; [auto|].
  destruct (od_closed o); [by rewrite H2 in Hc|done].
Qed.

(** One event of the automaton extends the alternation. *)
Lemma alternating_step st seen n (T : Z) :
  (is_Some st ↔ Nat.odd n = true) →
  ∃ n', alternating n ++ option_list (presence_step T st seen).2 = alternating n' ∧
        (is_Some (presence_step T st seen).1 ↔ Nat.odd n' = true).
Proof.
  intros Hs. assert (∀ n, Nat.odd (S n) = negb (Nat.odd n)) as Hodd 
    by (intros m; by rewrite Nat.odd_succ, Nat.negb_odd).
  destruct st as [k|].
  - assert (Nat.odd n = true) as Ho by (apply Hs; eauto).
    assert (Nat.even n = false) as He by (by rewrite <- Nat.negb_odd, Ho).
    destruct seen; simpl; [exists n; rewrite app_nil_r; naive_solver|].
    destruct (k + 1 <? T); simpl; [exists n; rewrite app_nil_r; naive_solver|].
    exists (S n). cbn [alternating]. rewrite He, Hodd, Ho. simpl. split; [done|].
    split; [by intros [? ?]|done].
  - assert (Nat.odd n = false) as Ho.
    { destruct (Nat.odd n) eqn:E; [|done]. by destruct (proj2 Hs eq_refl). }
    assert (Nat.even n = true) as He by (by rewrite <- Nat.negb_odd, Ho).
    destruct seen; simpl; [|exists n; rewrite app_nil_r, Ho; split; [done|]; split; [by intros [? ?]|done]].
    exists (S n). cbn [alternating]. rewrite He, Hodd, Ho. simpl. split; [done|]. by split; eauto.
Qed.

Lemma handler_close_quiet o m :
  (m = handler_OnClose ∨ ∃ err, m = handler_Error err) →
  od_online (m o).2 = od_online o ∧ (od_closed o = true → od_closed (m o).2 = true) ∧
  ∀ id, events_of id (od_calls (m o).2) = events_of id (od_calls o).
Proof.
  intros [->|[err ->]].
  all: unfold handler_OnClose, handler_Error, removeSubscription, mbind, ME_bind, gets, modify.
  all: destruct (od_closed o) eqn:Ec; [done|]; cbn [fst snd].
  all: destruct (od_subscribed o) eqn:Es; simpl; rewrite ?Es; simpl; split_and!; try done;
    intros id; by rewrite events_of_app, app_nil_r.
Qed.

Lemma poll_inv o : 1 <= FailureThreshold config < 256 → od_running o = true → OInv o →
  let '(r, o') := poll config o in
  OInv (match r with
        | Ok true => o'
        | _ => set_flags (od_closed o') (od_done o') (od_subscribed o') false o'
        end).
Proof.
  intros HT Hrun [Hb Ha]. unfold poll, mbind, ME_bind, catch.
  pose proof (observe_round o HT Hb) as H. destruct (observe config o) as [r o1].
  destruct H as ((H1 & H2 & H3) & devices & H4 & H5).
  pose proof (cancel_point_ok o1) as Hok. destruct (cancel_point_quiet o1) as (Q1 & Q2 & Q3 & cs & Q4 & Q5).
  destruct (cancel_point o1) as [r2 o2]. cbn [fst snd] in *. subst r2. unfold gets. cbn [fst snd].
  assert (∀ id, events_of id (od_calls o2) = events_of id (od_calls o1)) as Q6.
  { intros id. by rewrite Q4, events_of_app, Q5, app_nil_r. }
  (* the events of one device after the round *)
  assert (∀ id, ∃ n, events_of id (od_calls o1) = alternating n ∧
    (is_ok r && negb (od_closed o1) = true →
     (is_Some (presence_step (FailureThreshold config) (od_online o !! id) (bool_decide (id ∈ devices))).1
      ↔ Nat.odd n = true))) as Hround.
  { intros id. destruct (Ha id) as (n & Hn & Hs). destruct (H4 id) as (ev & E1 & E2 & E3 & E4).
    unfold follows in E1. rewrite Hn in E1. destruct (od_closed o) eqn:Ec.
    - exists n. rewrite E1, (E3 eq_refl), app_nil_r. split; [done|]. by rewrite (H2 eq_refl), andb_false_r.
    - specialize (Hs Hrun eq_refl).
      destruct (alternating_step _ (bool_decide (id ∈ devices)) n (FailureThreshold config) Hs)
        as (n' & A1 & A2).
      destruct E2 as [->| ->]; [|by exists n'; rewrite E1].
      destruct (is_ok r && negb (od_closed o1)); [|by exists n; rewrite E1, app_nil_r].
      exists n'. by rewrite E1, (E4 eq_refl). }
  assert (∀ o3, od_online o3 = od_online o →
    (∀ id, events_of id (od_calls o3) = events_of id (od_calls o2)) →
    OInv (set_flags (od_closed o3) (od_done o3) (od_subscribed o3) false o3)) as Hstop.
  { intros o3 E1 E2. split; [simpl; by rewrite E1|]. intros id. simpl. rewrite E2, Q6.
    destruct (Hround id) as (n & Hn & _). by exists n. }
  destruct (od_done o2).
  - destruct (handler_close_quiet o2 handler_OnClose (or_introl eq_refl)) as (C1 & C2 & C3).
    destruct (handler_OnClose o2) as [[[]|e] o3]; cbn [fst snd] in *; apply Hstop; try done; congruence.
  - destruct r as [current|err].
    + simpl. destruct (H5 current eq_refl) as [Hbc Hcur]. split; [done|]. intros id. simpl. rewrite Q6, Hcur.
      destruct (Hround id) as (n & Hn & Hodd). exists n. split; [done|]. intros _ Hc. apply Hodd.
      simpl. destruct (od_closed o1); [by rewrite Q2 in Hc|done].
    + destruct (handler_close_quiet o2 (handler_Error err) (or_intror (ex_intro _ err eq_refl))) as (C1 & C2 & C3).
      destruct (handler_Error err o2) as [[[]|e] o3]; cbn [fst snd] in *; apply Hstop; try done; congruence.
Qed.

(** C10 The application sees every device go online first, then offline, then online, and
    so on, whatever polls find, whatever the handler answers, and whenever the observation
    is stopped; and while the observation is not stopped the last event of a device is
    ONLINE exactly if the observer has it in its table. *)
Theorem presence_events_alternate e ls o id :
  1 <= FailureThreshold config < 256 →
  runs (step config) (newDevicesObserver e) ls o →
  ∃ n, events_of id (od_calls o) = alternating n ∧
    (od_running o = true → od_closed o = false → (is_Some (od_online o !! id) ↔ Nat.odd n = true)).
Proof.
  intros HT Hr. refine (oi_alternate _ (runs_invariant _ OInv _ _ _ _ Hr _) id).
  - intros o1 l o2 HI Hst. destruct Hst as [o1 Hrun|o1 c].
    + pose proof (poll_inv o1 HT Hrun HI) as Hp. by destruct (poll config o1).
    + destruct (api_call_quiet o1 c) as (H1 & H2 & H3 & cs & H4 & H5).
      eapply OInv_quiet, HI; [done|done|congruence|]. intros id'. by rewrite H4, events_of_app, H5, app_nil_r.
  - split; [intros ? ?; simpl; by rewrite lookup_empty|]. intros id'. exists 0%nat. split; [done|].
    intros _ _. simpl. rewrite lookup_empty. split; [by intros [? ?]|done].
Qed.
End Alternate.

(** ** The properties at concrete inputs *)

Section Examples.
Definition ex_found (ids : list string) : gset string := list_to_set ids.

Lemma processDevices_refines_witness :
  let '(added, removed, current) :=
    processDevices 3 {[ "a" := 2; "b" := 1 ]} [("b", 1); ("a", 2)] (ex_found ["c"]) in
  removed = ["a"] ∧ current !! "b" = Some 2 ∧ "c" ∈ added.
Proof.
  pose proof (processDevices_refines 3 ltac:(lia) {[ "a" := 2; "b" := 1 ]} [("b", 1); ("a", 2)]
                (ex_found ["c"])) as H.
  destruct (processDevices _ _ _ _) as [[added removed] current] eqn:E.
  destruct H as [_ H].
  - apply (bool_decide_eq_true_1 _). vm_compute. reflexivity.
  - intros id k [[<- <-]|[_ [<- <-]%lookup_singleton_Some]]%lookup_insert_Some; lia.
  - split; [by injection E|]. split; [apply (H "b") | by apply (H "c")].
Defined.

Lemma offline_after_threshold_witness :
  polls 3 {[ "a" := 0 ]} [ex_found ["b"]; ex_found []] !! "a" = Some 2 ∧
  let '(_, removed, current) :=
    processDevices 3 (polls 3 {[ "a" := 0 ]} [ex_found ["b"]; ex_found []])
      (map_to_list (polls 3 {[ "a" := 0 ]} [ex_found ["b"]; ex_found []])) ∅ in "a" ∈ removed.
Proof.
  destruct (offline_after_threshold 3 ltac:(lia) {[ "a" := 0 ]} [ex_found ["b"]; ex_found []] ∅ "a")
    as [Hp Hr].
  - intros id k [<- <-]%lookup_singleton_Some. lia.
  - by apply lookup_singleton_Some.
  - repeat constructor; apply (bool_decide_eq_true_1 _); vm_compute; reflexivity.
  - set_solver.
  - simpl. lia.
  - split; [exact Hp|]. destruct (processDevices _ _ _ ∅) as [[added removed] current].
    by apply Hr.
Defined.

(** Four polls: they find the device, miss it twice, and find it again. *)
#[local] Instance ex_ObserverEnv : ObserverEnv := {|
  OEnv := nat;
  oenv_observe n := (Ok (if bool_decide (n ∈ [0; 3]%nat) then ex_found ["a"] else ∅), S n);
  oenv_order n X := elements X; oenv_order_counts n m := map_to_list m;
  oenv_handle ev n := (Ok tt, n);
  oenv_calls n := (if (n =? 0)%nat then [CInsert] else [], n) |}.
#[local] Instance ex_ObserverEnvLaws : ObserverEnvLaws.
Proof. split; intros; reflexivity. Qed.
Definition ex_observer_config : ObserverConfig := {| PollingInterval := 1; FailureThreshold := 2 |}.
Definition ex_poll (o : Observer) : Observer := (poll ex_observer_config o).2.
Definition ex_observer : Observer := Nat.iter 4 ex_poll (newDevicesObserver 0%nat).
Lemma ex_poll_step n : od_running (Nat.iter n ex_poll (newDevicesObserver 0%nat)) = true →
  (poll ex_observer_config (Nat.iter n ex_poll (newDevicesObserver 0%nat))).1 = Ok true →
  step ex_observer_config (Nat.iter n ex_poll (newDevicesObserver 0%nat)) OPoll
    (Nat.iter (S n) ex_poll (newDevicesObserver 0%nat)).
Proof.
  simpl. generalize (Nat.iter n ex_poll (newDevicesObserver (0%nat : OEnv))). intros o Hr Hp.
  pose proof (step_poll ex_observer_config o Hr) as Hs. unfold ex_poll.
  destruct (poll ex_observer_config o) as [r o']. simpl in Hp. by subst r.
Qed.
Lemma presence_events_alternate_witness :
  events_of "a" (od_calls ex_observer) = alternating 3 ∧
  ∃ n, events_of "a" (od_calls ex_observer) = alternating n.
Proof.
  split; [vm_compute; reflexivity|].
  destruct (presence_events_alternate (HOE := ex_ObserverEnv) ex_observer_config 0%nat
              [OPoll; OPoll; OPoll; OPoll] ex_observer "a") as (n & Hn & _).
  - simpl. lia.
  - eapply runs_cons; [apply (ex_poll_step 0); vm_compute; reflexivity|].
    eapply runs_cons; [apply (ex_poll_step 1); vm_compute; reflexivity|].
    eapply runs_cons; [apply (ex_poll_step 2); vm_compute; reflexivity|].
    eapply runs_cons; [apply (ex_poll_step 3); vm_compute; reflexivity|].
    apply runs_nil.
  - by exists n.
Defined.
End Examples.
