(* ===== verification/ClientObs.v ===== *)
(** * ClientObs: observation of resources in the client

    [src/client/observeResource.go]: the subscribers of a resource share one
    observation of the device.  The table of shared observations, the object of each
    of them, and its subscribers are modelled as a heap with the goroutines that work
    on it: the calls of the application ([ObserveResource],
    [StopObservingResource]), the notifications of the device, and the closing of an
    observation.

    [exec] is one atomic action.  The lock of an object is [oh_locked]; the map of an
    object and its last message are shared without it, as in the code.  The table has a
    mutex of its own: [LoadOrStoreWithFunc] calls the function that locks a stored object
    while it holds this mutex, so that a goroutine can wait for the object with the table
    locked, which is [c_locked]; the other uses of the table take the mutex for one action
    and wait while it is held.  The device-level observation (the core of the client)
    serialises the callbacks of one object, which is [oh_busy].  [c_trace] lists the events,
    latest first. *)

From S2P Require Import Prelude GoLib.

(** ** Identifiers *)

Definition getObservationID (resourceCacheID resourceObservationID : string) : string :=
  join [resourceCacheID; resourceObservationID] "/".
Definition parseIDs (id : string) : result (string * string) :=
  match split id "/" with
  | [a; b] => Ok (a, b)
  | _ => Err (ErrText "invalid ID")
  end.

(** ** State *)

(** Messages are numbered in the order of their arrival. *)
Record observationHandler := {
  su_obj : nat;                       (** the shared observation it belongs to *)
  su_isClosed : bool;
  su_firstMessage : option nat }.

Record observationsHandler := {
  oh_id : string;
  oh_locked : bool;
  oh_observationID : string;
  oh_device : option string;
  oh_lastMessage : option nat;
  oh_observations : gmap string nat;
  oh_busy : bool }.

Inductive COEvent :=
  | EvReturned (rid : string) (ok : bool)       (** [ObserveResource] returns *)
  | EvStopped (rid : string) (dev : bool)       (** [StopObservingResource] left the table *)
  | EvCoreObserve (o : nat) (obsID : string)    (** the device is observed for the object *)
  | EvCoreStop (obsID : string)                 (** [device.StopObservingResource] *)
  | EvHandle (s msg : nat)                      (** the application's [Handle] *)
  | EvClose (s : nat)                           (** the application's [OnClose] *)
  | EvError (s : nat).                          (** the application's [Error] *)

Inductive Thread :=
  (** [LoadOrStoreWithFunc], holding the mutex of the table and waiting for the object *)
  | TWait (o : nat) (rid : string)
  (** [ObserveResource], holding the lock of the object *)
  | TSubscribe (o : nat) (rid : string) (firstMessage : option nat) (loaded : bool)
  | TConnect (o : nat) (rid : string)
  (** [go obsHandler.HandleFirstMessage()] *)
  | TFirst (s : nat)
  (** [Handle] of the object: before the message is stored, before [Range], in [Range] *)
  | TMessage (o msg : nat)
  | TRange (o msg : nat)
  | THandle (o msg : nat) (todo : list (string * nat))
  (** [StopObservingResource] after the table *)
  | TStop (obsID : string)
  (** [OnClose] or [Error] of the object; [final]: called by the core *)
  | TClose (o : nat) (err final : bool)
  | TCloseStop (o : nat) (err final : bool)
  | TCloseHeld (o : nat) (err final : bool)    (** with the lock of the object *)
  | TCloseAll (o : nat) (err final : bool).

Record Client := {
  c_cache : gmap string nat;                   (** [observeResourceCache] *)
  c_locked : bool;                             (** its mutex, held by a waiting goroutine *)
  c_objs : gmap nat observationsHandler;
  c_subs : gmap nat observationHandler;
  c_threads : gmap nat Thread;
  c_next : nat;
  c_trace : list COEvent }.

Definition NewClient : Client :=
  {| c_cache := ∅; c_locked := false; c_objs := ∅; c_subs := ∅; c_threads := ∅; c_next := 0; c_trace := [] |}.

Definition set_cache (x : gmap string nat) (c : Client) : Client :=
  {| c_cache := x; c_locked := c_locked c; c_objs := c_objs c; c_subs := c_subs c; c_threads := c_threads c;
     c_next := c_next c; c_trace := c_trace c |}.
Definition set_locked (x : bool) (c : Client) : Client :=
  {| c_cache := c_cache c; c_locked := x; c_objs := c_objs c; c_subs := c_subs c;
     c_threads := c_threads c; c_next := c_next c; c_trace := c_trace c |}.
Definition set_obj (o : nat) (h : observationsHandler) (c : Client) : Client :=
  {| c_cache := c_cache c; c_locked := c_locked c; c_objs := <[o := h]> (c_objs c); c_subs := c_subs c;
     c_threads := c_threads c; c_next := c_next c; c_trace := c_trace c |}.
Definition set_sub (s : nat) (h : observationHandler) (c : Client) : Client :=
  {| c_cache := c_cache c; c_locked := c_locked c; c_objs := c_objs c; c_subs := <[s := h]> (c_subs c);
     c_threads := c_threads c; c_next := c_next c; c_trace := c_trace c |}.
Definition set_thread (t : nat) (th : option Thread) (c : Client) : Client :=
  {| c_cache := c_cache c; c_locked := c_locked c; c_objs := c_objs c; c_subs := c_subs c;
     c_threads := partial_alter (fun _ => th) t (c_threads c); c_next := c_next c;
     c_trace := c_trace c |}.
(** A number for a new object, subscriber, goroutine or message. *)
Definition bump (c : Client) : Client :=
  {| c_cache := c_cache c; c_locked := c_locked c; c_objs := c_objs c; c_subs := c_subs c; c_threads := c_threads c;
     c_next := S (c_next c); c_trace := c_trace c |}.
Definition cemit (ev : COEvent) (c : Client) : Client :=
  {| c_cache := c_cache c; c_locked := c_locked c; c_objs := c_objs c; c_subs := c_subs c; c_threads := c_threads c;
     c_next := c_next c; c_trace := ev :: c_trace c |}.

Definition oh_set (locked busy : bool) (last : option nat) (subs : gmap string nat)
    (h : observationsHandler) : observationsHandler :=
  {| oh_id := oh_id h; oh_locked := locked; oh_observationID := oh_observationID h;
     oh_device := oh_device h; oh_lastMessage := last; oh_observations := subs; oh_busy := busy |}.
Definition oh_set_locked (x : bool) (h : observationsHandler) : observationsHandler :=
  oh_set x (oh_busy h) (oh_lastMessage h) (oh_observations h) h.
Definition oh_set_observations (x : gmap string nat) (h : observationsHandler) : observationsHandler :=
  oh_set (oh_locked h) (oh_busy h) (oh_lastMessage h) x h.
Definition oh_set_busy (x : bool) (h : observationsHandler) : observationsHandler :=
  oh_set (oh_locked h) x (oh_lastMessage h) (oh_observations h) h.

(** ** ObserveResource *)

(** [LoadOrStoreWithFunc], which returns with the object locked: a new object is locked by its
    creator; for a stored one the goroutine goes on to wait, with the mutex of the table. *)
Definition observe_begin (key rid : string) (c : Client) : option Client :=
  if c_locked c then None
  else match c_cache c !! key with
  | Some o => Some (bump (set_thread (c_next c) (Some (TWait o rid)) (set_locked true c)))
  | None =>
      let o := c_next c in
      let h := {| oh_id := key; oh_locked := true; oh_observationID := ""; oh_device := None;
                  oh_lastMessage := None; oh_observations := ∅; oh_busy := false |} in
      Some (bump (set_thread o (Some (TSubscribe o rid None false))
              (set_cache (<[key := o]> (c_cache c)) (set_obj o h c))))
  end.
(** The object is locked, the mutex is given back, and the last message is loaded. *)
Definition observe_lock (t o : nat) (rid : string) (c : Client) : option Client :=
  h ← c_objs c !! o;
  if oh_locked h then None
  else Some (set_thread t (Some (TSubscribe o rid (oh_lastMessage h) true))
               (set_obj o (oh_set_locked true h) (set_locked false c))).

(** The subscriber is stored; a loaded object needs no connection. *)
Definition observe_subscribe (t o : nat) (rid : string) (first : option nat) (loaded : bool)
    (c : Client) : option Client :=
  h ← c_objs c !! o;
  let s := c_next c in
  let h := oh_set_observations (<[rid := s]> (oh_observations h)) h in
  let c := bump (set_sub s {| su_obj := o; su_isClosed := false; su_firstMessage := first |} c) in
  if loaded
  then Some (cemit (EvReturned rid true) (set_thread t (Some (TFirst s)) (set_obj o (oh_set_locked false h) c)))
  else Some (set_thread t (Some (TConnect o rid)) (set_obj o h c)).

(** [GetDeviceLinkForHref] and [ObserveResourceWithCodec] of the device: an error, or the
    device and the ID of its observation.  The object stays in the table on an error. *)
Definition observe_connect (t o : nat) (rid : string) (res : option (string * string))
    (c : Client) : option Client :=
  h ← c_objs c !! o;
  match res with
  | None => Some (cemit (EvReturned rid false) (set_thread t None (set_obj o (oh_set_locked false h) c)))
  | Some (device, obsID) =>
      let h := {| oh_id := oh_id h; oh_locked := false; oh_observationID := obsID;
                  oh_device := Some device; oh_lastMessage := oh_lastMessage h;
                  oh_observations := oh_observations h; oh_busy := oh_busy h |} in
      Some (cemit (EvReturned rid true) (cemit (EvCoreObserve o obsID)
              (set_thread t None (set_obj o h c))))
  end.

(** ** StopObservingResource *)

(** The function given to [ReplaceWithFunc], which does not take the lock of the object. *)
Definition stop (key rid : string) (c : Client) : option Client :=
  if c_locked c then None
  else match c_cache c !! key with
  | None => Some (cemit (EvStopped rid false) c)
  | Some o =>
      h ← c_objs c !! o;
      match oh_observations h !! rid with
      | None => Some (cemit (EvStopped rid false) c)
      | Some _ =>
          let subs := delete rid (oh_observations h) in
          let c := set_obj o (oh_set_observations subs h) c in
          if bool_decide (subs = ∅)
          then let c := set_cache (delete key (c_cache c)) c in
               match oh_device h with
               | None => Some (cemit (EvStopped rid false) c)
               | Some _ => Some (cemit (EvStopped rid true)
                                   (bump (set_thread (c_next c) (Some (TStop (oh_observationID h))) c)))
               end
          else Some (cemit (EvStopped rid false) c)
      end
  end.

(** ** Callbacks of the device-level observation *)

Definition callback_begin (o : nat) (mk : nat → Thread) (c : Client) : option Client :=
  h ← c_objs c !! o;
  if oh_busy h then None
  else Some (bump (set_thread (c_next c) (Some (mk (c_next c))) (set_obj o (oh_set_busy true h) c))).

(** The message is decoded and stored as the last one; when it cannot be decoded the
    object's [Error] runs. *)
Definition message_store (t o msg : nat) (decoded : bool) (c : Client) : option Client :=
  h ← c_objs c !! o;
  if decoded
  then Some (set_thread t (Some (TRange o msg))
               (set_obj o (oh_set (oh_locked h) (oh_busy h) (Some msg) (oh_observations h) h) c))
  else Some (set_thread t (Some (TClose o true false)) c).
(** [Range] over the subscribers the object has now, in an order of its own. *)
Definition message_range (t o msg : nat) (order : list (string * nat)) (c : Client) : option Client :=
  h ← c_objs c !! o;
  if bool_decide (order ≡ₚ map_to_list (oh_observations h))
  then Some (set_thread t (Some (THandle o msg order)) c) else None.

(** [HandleMessage] of one subscriber. *)
Definition handle_message (s msg : nat) (c : Client) : option Client :=
  h ← c_subs c !! s;
  let c := set_sub s {| su_obj := su_obj h; su_isClosed := su_isClosed h; su_firstMessage := None |} c in
  Some (if su_isClosed h then c else cemit (EvHandle s msg) c).

Definition handle_first (s : nat) (c : Client) : option Client :=
  h ← c_subs c !! s;
  Some (match su_firstMessage h with
        | None => c
        | Some msg => if su_isClosed h then c else cemit (EvHandle s msg) c
        end).

Definition callback_end (t o : nat) (c : Client) : option Client :=
  h ← c_objs c !! o; Some (set_thread t None (set_obj o (oh_set_busy false h) c)).

(** [closeObservingResource]: [LoadAndDelete] by the key of the object, its lock, and the
    device. *)
Definition close_begin (t o : nat) (err final : bool) (c : Client) : option Client :=
  if c_locked c then None
  else
    h ← c_objs c !! o;
    match c_cache c !! oh_id h with
    | None => Some (set_thread t (Some (TCloseAll o err final)) c)
    | Some _ => Some (set_thread t (Some (TCloseStop o err final))
                        (set_cache (delete (oh_id h) (c_cache c)) c))
    end.
Definition close_lock (t o : nat) (err final : bool) (c : Client) : option Client :=
  h ← c_objs c !! o;
  if oh_locked h then None
  else Some (set_thread t (Some (TCloseHeld o err final)) (set_obj o (oh_set_locked true h) c)).
Definition close_stop (t o : nat) (err final : bool) (c : Client) : option Client :=
  h ← c_objs c !! o;
  let c := set_thread t (Some (TCloseAll o err final)) (set_obj o (oh_set_locked false h) c) in
  Some (match oh_device h with
        | Some _ => cemit (EvCoreStop (oh_observationID h)) c
        | None => c
        end).
(** [LoadAndDeleteAll] and the calls of the application's handlers. *)
Definition close_all (t o : nat) (err final : bool) (c : Client) : option Client :=
  h ← c_objs c !! o;
  let c := foldr (fun rs c => cemit (if err then EvError rs.2 else EvClose rs.2) c) c
             (map_to_list (oh_observations h)) in
  Some (set_thread t None (set_obj o (oh_set (oh_locked h) final (oh_lastMessage h) ∅ h) c)).

(** ** Actions *)

(** What the environment decides for the next action of a goroutine. *)
Inductive Arg :=
  | ANone
  | AConnect (res : option (string * string))
  | ADecode (decoded : bool)
  | ARange (order : list (string * nat)).
Inductive CLabel :=
  | LObserve (key rid : string)
  | LStop (key rid : string)
  | LNotify (o : nat)
  | LCoreClose (o : nat) (err : bool)
  | LThread (t : nat) (a : Arg).

Definition exec_thread (t : nat) (th : Thread) (a : Arg) (c : Client) : option Client :=
  match th, a with
  | TWait o rid, ANone => observe_lock t o rid c
  | TSubscribe o rid first loaded, ANone => observe_subscribe t o rid first loaded c
  | TConnect o rid, AConnect res => observe_connect t o rid res c
  | TFirst s, ANone => set_thread t None <$> handle_first s c
  | TMessage o msg, ADecode decoded => message_store t o msg decoded c
  | TRange o msg, ARange order => message_range t o msg order c
  | THandle o msg [], ANone => callback_end t o c
  | THandle o msg ((rid, s) :: todo), ANone =>
      set_thread t (Some (THandle o msg todo)) <$> handle_message s msg c
  | TStop obsID, ANone => Some (cemit (EvCoreStop obsID) (set_thread t None c))
  | TClose o err final, ANone => close_begin t o err final c
  | TCloseStop o err final, ANone => close_lock t o err final c
  | TCloseHeld o err final, ANone => close_stop t o err final c
  | TCloseAll o err final, ANone => close_all t o err final c
  | _, _ => None
  end.

Definition exec (c : Client) (l : CLabel) : option Client :=
  match l with
  | LObserve key rid => observe_begin key rid c
  | LStop key rid => stop key rid c
  | LNotify o => callback_begin o (fun msg => TMessage o msg) c
  | LCoreClose o err => callback_begin o (fun _ => TClose o err true) c
  | LThread t a => th ← c_threads c !! t; exec_thread t th a c
  end.
Definition step (c : Client) (l : CLabel) (c' : Client) : Prop := exec c l = Some c'.


(** ** What is said of a state *)

Local Open Scope nat_scope.

(** The messages given to a subscriber, latest first. *)
Definition deliveries (s : nat) (tr : list COEvent) : list nat :=
  omap (fun ev => match ev with EvHandle s' m => if decide (s = s') then Some m else None
                              | _ => None end) tr.
Definition last_of (c : Client) (o : nat) : nat :=
  default 0 (c_objs c !! o ≫= oh_lastMessage).
Definition owner (c : Client) (s : nat) : option nat := su_obj <$> c_subs c !! s.
(** The object whose callback a goroutine runs. *)
Definition callback_of (th : Thread) : option nat :=
  match th with
  | TMessage o _ | TRange o _ | THandle o _ _ | TClose o _ _ | TCloseStop o _ _
  | TCloseHeld o _ _ | TCloseAll o _ _ => Some o
  | _ => None
  end.
(** The object a goroutine works on, and the subscriber. *)
Definition object_of (th : Thread) : option nat :=
  match th with
  | TWait o _ | TSubscribe o _ _ _ | TConnect o _ => Some o
  | TFirst _ | TStop _ => None
  | _ => callback_of th
  end.

Definition thread_ok (c : Client) (th : Thread) : Prop :=
  (∀ o, object_of th = Some o → is_Some (c_objs c !! o)) ∧
  match th with
  | TSubscribe o _ first _ => ∀ m, first = Some m → m ≤ last_of c o
  | TFirst s => is_Some (c_subs c !! s)
  | TMessage o m => last_of c o ≤ m ∧ m < c_next c
  | TRange o m => last_of c o = m
  | THandle o m todo => last_of c o = m ∧ Forall (fun rs => owner c rs.2 = Some o) todo
  | _ => True
  end.
Definition sub_ok (c : Client) (s : nat) (h : observationHandler) : Prop :=
  (∀ m, m ∈ deliveries s (c_trace c) → m ≤ last_of c (su_obj h)) ∧
  (∀ m, su_firstMessage h = Some m →
        m ≤ last_of c (su_obj h) ∧ ∀ m', m' ∈ deliveries s (c_trace c) → m' ≤ m).
Definition obj_ok (c : Client) (o : nat) (h : observationsHandler) : Prop :=
  o < c_next c ∧ last_of c o ≤ c_next c ∧
  (∀ rid s, oh_observations h !! rid = Some s → owner c s = Some o).

Record Inv (c : Client) : Prop := {
  inv_cache : ∀ key o, c_cache c !! key = Some o → ∃ h, c_objs c !! o = Some h ∧ oh_id h = key;
  inv_sub : ∀ s h, c_subs c !! s = Some h → s < c_next c ∧ sub_ok c s h;
  inv_sorted : ∀ s, StronglySorted ge (deliveries s (c_trace c));
  inv_none : ∀ s, c_subs c !! s = None → deliveries s (c_trace c) = [];
  inv_obj : ∀ o h, c_objs c !! o = Some h → obj_ok c o h;
  inv_thread : ∀ t th, c_threads c !! t = Some th → t < c_next c ∧ thread_ok c th;
  inv_busy : ∀ t th o h, c_threads c !! t = Some th → callback_of th = Some o →
               c_objs c !! o = Some h → oh_busy h = true;
  inv_one : ∀ t1 t2 th1 th2 o, c_threads c !! t1 = Some th1 → c_threads c !! t2 = Some th2 →
               callback_of th1 = Some o → callback_of th2 = Some o → t1 = t2 }.

(** ** The updates preserve the invariant *)

Lemma thread_ok_mono c c' th :
  (∀ o, is_Some (c_objs c !! o) → is_Some (c_objs c' !! o)) →
  (∀ o, last_of c' o = last_of c o) →
  (∀ s o, owner c s = Some o → owner c' s = Some o) → c_next c ≤ c_next c' →
  thread_ok c th → thread_ok c' th.
Proof.
  intros Ho Hl Hs Hn [Ht H]. split; [by eauto|].
  destruct th; try done; rewrite ?Hl; try done.
  - destruct H as [h Hh].
    assert (Ho' : owner c' s = Some (su_obj h)) by (apply Hs; unfold owner; by rewrite Hh).
    unfold owner in Ho'. destruct (c_subs c' !! s); [eauto|done].
  - split; [tauto|lia].
  - destruct H as [-> H]. split; [done|]. eapply Forall_impl; [exact H|]. by eauto.
Qed.

Lemma Inv_cache_delete key c : Inv c → Inv (set_cache (delete key (c_cache c)) c).
Proof.
  intros []. constructor; try done.
  simpl. intros k o [_ H]%lookup_delete_Some. by apply inv_cache0.
Qed.

Definition silent (ev : COEvent) : Prop := match ev with EvHandle _ _ => False | _ => True end.
Lemma deliveries_silent s ev tr : silent ev → deliveries s (ev :: tr) = deliveries s tr.
Proof. by destruct ev. Qed.
Lemma Inv_cemit ev c : silent ev → Inv c → Inv (cemit ev c).
Proof.
  intros He []. constructor; try done.
  - intros s h Hs. destruct (inv_sub0 s h Hs) as [? Hok]. split; [done|].
    unfold sub_ok in *. simpl c_trace. rewrite deliveries_silent; [exact Hok|done].
  - intros s. simpl c_trace. by rewrite deliveries_silent.
  - intros s. simpl c_trace. rewrite deliveries_silent; [exact (inv_none0 s)|done].
Qed.

Lemma Inv_bump c : Inv c → Inv (bump c).
Proof.
  intros []. constructor; try done.
  - intros s h Hs. destruct (inv_sub0 s h Hs). split; [simpl; lia|done].
  - intros o h Ho. destruct (inv_obj0 o h Ho) as (?&?&?). split; [simpl; lia|split; [|done]].
    change (last_of (bump c) o) with (last_of c o). simpl. lia.
  - intros t th Ht. destruct (inv_thread0 t th Ht). split; [simpl; lia|].
    eapply thread_ok_mono; [..|done]; try done. simpl. lia.
Qed.

(** A goroutine ends or goes on with the same callback. *)
Lemma Inv_thread_None t c : Inv c → Inv (set_thread t None c).
Proof.
  intros [].
  assert (Hl : ∀ t' th, c_threads (set_thread t None c) !! t' = Some th →
                        c_threads c !! t' = Some th).
  { intros t' th. simpl. destruct (decide (t = t')) as [<-|].
    - by rewrite lookup_partial_alter_eq. - by rewrite lookup_partial_alter_ne. }
  constructor; eauto.
Qed.
Lemma Inv_set_thread t th c :
  Inv c → t < c_next c → thread_ok c th →
  (∀ o, callback_of th = Some o → (∀ h, c_objs c !! o = Some h → oh_busy h = true) ∧
        ∀ t' u, c_threads c !! t' = Some u → callback_of u = Some o → t' = t) →
  Inv (set_thread t (Some th) c).
Proof.
  intros [] Hlt Hok Hcb.
  assert (Hl : ∀ t' u, c_threads (set_thread t (Some th) c) !! t' = Some u →
            (t' = t ∧ u = th) ∨ c_threads c !! t' = Some u).
  { intros t' u. simpl. destruct (decide (t = t')) as [<-|].
    - rewrite lookup_partial_alter_eq. intros [= <-]. by left.
    - rewrite lookup_partial_alter_ne; eauto. }
  constructor; eauto.
  - intros t' u [[-> ->]|Hu]%Hl; [done|]. by apply inv_thread0.
  - intros t' u o h [[-> ->]|Hu]%Hl Hc; [|by eauto]. intros Ho. by apply (Hcb o Hc).
  - intros t1 t2 u1 u2 o [[-> ->]|Hu1]%Hl [[-> ->]|Hu2]%Hl Hc1 Hc2; [done|..|by eauto].
    + destruct (Hcb o Hc1) as [_ Hn]. symmetry. by eapply Hn.
    + destruct (Hcb o Hc2) as [_ Hn]. by eapply Hn.
Qed.
Lemma Inv_thread_Some t th th' c :
  Inv c → c_threads c !! t = Some th → thread_ok c th' →
  (∀ o, callback_of th' = Some o → callback_of th = Some o) → Inv (set_thread t (Some th') c).
Proof.
  intros HI Ht Hok Hcb. destruct (inv_thread _ HI _ _ Ht) as [Hlt _].
  apply Inv_set_thread; [done..|]. intros o Ho%Hcb. split.
  - intros h. by eapply inv_busy.
  - intros t' u Hu Hc. by eapply inv_one.
Qed.
(** A goroutine that runs no callback starts. *)
Lemma Inv_thread_new th c :
  Inv c → thread_ok (bump c) th → callback_of th = None →
  Inv (bump (set_thread (c_next c) (Some th) c)).
Proof.
  intros HI Hok Hcb. apply (Inv_set_thread _ th (bump c)); [by apply Inv_bump|simpl; lia|done|].
  by rewrite Hcb.
Qed.

Lemma last_of_set_obj o h h' c o' :
  c_objs c !! o = Some h → oh_lastMessage h' = oh_lastMessage h →
  last_of (set_obj o h' c) o' = last_of c o'.
Proof.
  intros Ho Hl. unfold last_of. simpl. destruct (decide (o = o')) as [<-|].
  - rewrite lookup_insert_eq, Ho. simpl. by rewrite Hl.
  - by rewrite lookup_insert_ne.
Qed.
Lemma objs_set_obj o h' c o' : is_Some (c_objs c !! o') → is_Some (c_objs (set_obj o h' c) !! o').
Proof. intros H. simpl. apply lookup_insert_is_Some. destruct (decide (o = o')); eauto. Qed.

(** An object changes, but for its last message. *)
Lemma Inv_set_obj o h h' c :
  Inv c → c_objs c !! o = Some h → oh_id h' = oh_id h → oh_lastMessage h' = oh_lastMessage h →
  (∀ rid s, oh_observations h' !! rid = Some s → owner c s = Some o) →
  (∀ t u, c_threads c !! t = Some u → callback_of u = Some o → oh_busy h' = true) →
  Inv (set_obj o h' c).
Proof.
  intros [] Ho Hid Hlast Hsubs Hbusy.
  pose proof (fun o' => last_of_set_obj o h h' c o' Ho Hlast) as Hl.
  constructor; try done.
  - simpl. intros key o' Hk. destruct (inv_cache0 key o' Hk) as (h0&Hh0&Hid0).
    destruct (decide (o = o')) as [<-|].
    + rewrite lookup_insert_eq. exists h'. split; [done|]. congruence.
    + rewrite lookup_insert_ne by done. by eauto.
  - intros s hs Hs. destruct (inv_sub0 s hs Hs) as [? Hok]. split; [done|].
    unfold sub_ok in *. by rewrite Hl.
  - intros o' h0. simpl. intros [[<- <-]|[Hne H0]]%lookup_insert_Some; unfold obj_ok; rewrite Hl.
    + destruct (inv_obj0 o h Ho) as (?&?&?). done.
    + by destruct (inv_obj0 o' h0 H0).
  - intros t th Ht. destruct (inv_thread0 t th Ht). split; [done|].
    eapply thread_ok_mono; [..|done]; try done. intros o'. apply objs_set_obj.
  - intros t th o' h0 Ht Hc. simpl. intros [[<- <-]|[Hne H0]]%lookup_insert_Some; eauto.
Qed.

(** The callback's message becomes the last one. *)
Lemma co_Inv_store t o m h c :
  Inv c → c_threads c !! t = Some (TMessage o m) → c_objs c !! o = Some h →
  Inv (set_thread t (Some (TRange o m))
         (set_obj o (oh_set (oh_locked h) (oh_busy h) (Some m) (oh_observations h) h) c)).
Proof.
  intros HI Ht Ho. destruct (inv_thread _ HI _ _ Ht) as [? [_ [Hm Hmn]]].
  set (c' := set_thread _ _ _).
  assert (Hlo : last_of c' o = m) by (unfold last_of; simpl; by rewrite lookup_insert_eq).
  assert (Hln : ∀ o', o ≠ o' → last_of c' o' = last_of c o').
  { intros o' Hne. unfold last_of. simpl. by rewrite lookup_insert_ne. }
  assert (Hge : ∀ o', last_of c o' ≤ last_of c' o').
  { intros o'. destruct (decide (o = o')) as [<-|]; [lia|]. by rewrite Hln. }
  assert (Hth : ∀ t' u, c_threads c' !! t' = Some u →
            (t' = t ∧ u = TRange o m) ∨ (t' ≠ t ∧ c_threads c !! t' = Some u)).
  { intros t' u. simpl. destruct (decide (t = t')) as [<-|].
    - rewrite lookup_partial_alter_eq. intros [= <-]. by left.
    - rewrite lookup_partial_alter_ne; eauto. }
  destruct HI. constructor; try done.
  - simpl. intros key o' Hk. destruct (inv_cache0 key o' Hk) as (h0&Hh0&Hid0).
    destruct (decide (o = o')) as [<-|].
    + rewrite lookup_insert_eq. eexists. split; [done|]. simpl. congruence.
    + rewrite lookup_insert_ne by done. by eauto.
  - intros s hs Hs. destruct (inv_sub0 s hs Hs) as [? [H1 H2]]. split; [done|].
    pose proof (Hge (su_obj hs)). split.
    + intros m' Hm'. specialize (H1 m' Hm'). lia.
    + intros m' Hf. destruct (H2 m' Hf). split; [lia|done].
  - intros o' h0. simpl. intros [[<- <-]|[Hne H0]]%lookup_insert_Some.
    + destruct (inv_obj0 o h Ho) as (?&?&?). split; [done|split; [rewrite Hlo; simpl; lia|done]].
    + destruct (inv_obj0 o' h0 H0) as (?&?&?). split; [done|split; [rewrite Hln; done|done]].
  - intros t' u [[-> ->]|[Hne Hu]]%Hth.
    + split; [done|]. split; [|done]. simpl. intros ? [= <-]. rewrite lookup_insert_eq. eauto.
    + destruct (inv_thread0 t' u Hu) as [? [Hobj Hok]]. split; [done|]. split.
      { intros o' Ho'. apply objs_set_obj. by apply Hobj. }
      assert (Hnc : callback_of u ≠ Some o) by (intros Hc; apply Hne; by eapply inv_one0).
      destruct u; try done.
      * intros m' Hm'. specialize (Hok m' Hm'). specialize (Hge o0). lia.
      * rewrite Hln; [done|]. intros <-. by apply Hnc.
      * rewrite Hln; [done|]. intros <-. by apply Hnc.
      * rewrite Hln; [done|]. intros <-. by apply Hnc.
  - intros t' u o' h0 [[-> ->]|[Hne Hu]]%Hth Hc; simpl; intros [[<- <-]|[Hne' H0]]%lookup_insert_Some; eauto.
    eapply (inv_busy0 _ _ o h); eauto.
  - intros t1 t2 u1 u2 o' [[-> ->]|[? Hu1]]%Hth [[-> ->]|[? Hu2]]%Hth Hc1 Hc2; eauto.
Qed.

(** A subscriber drops its first message, or is created. *)
Lemma Inv_set_sub s h' c :
  Inv c → s < c_next c → sub_ok c s h' →
  (∀ h, c_subs c !! s = Some h → su_obj h' = su_obj h) → Inv (set_sub s h' c).
Proof.
  intros [] Hlt Hok Hobj.
  assert (Hown : ∀ s' o, owner c s' = Some o → owner (set_sub s h' c) s' = Some o).
  { intros s' o. unfold owner. simpl. destruct (decide (s = s')) as [<-|].
    - rewrite lookup_insert_eq. destruct (c_subs c !! s) as [h|]; [|done]. simpl.
      intros [= <-]. by rewrite (Hobj h).
    - by rewrite lookup_insert_ne. }
  constructor; try done.
  - intros s' h. simpl. intros [[<- <-]|[_ Hs]]%lookup_insert_Some; [done|by apply inv_sub0].
  - intros s'. simpl. intros [Hs _]%lookup_insert_None. by apply inv_none0.
  - intros o h Ho. destruct (inv_obj0 o h Ho) as (?&?&?). split; [done|split; [done|]]. by eauto.
  - intros t th Ht. destruct (inv_thread0 t th Ht). split; [done|].
    by eapply thread_ok_mono; [..|done].
Qed.

Lemma deliveries_handle s s' m tr :
  deliveries s (EvHandle s' m :: tr) = (if decide (s = s') then [m] else []) ++ deliveries s tr.
Proof. unfold deliveries. simpl. by destruct (decide (s = s')). Qed.

(** A message is given to a subscriber. *)
Lemma Inv_deliver s h m c :
  Inv c → c_subs c !! s = Some h → m ≤ last_of c (su_obj h) →
  (∀ m', m' ∈ deliveries s (c_trace c) → m' ≤ m) →
  (∀ m', su_firstMessage h = Some m' → m' = m) → Inv (cemit (EvHandle s m) c).
Proof.
  intros [] Hs Hm Hall Hf. constructor; try done.
  - intros s' h' Hs'. destruct (inv_sub0 s' h' Hs') as [? [H1 H2]]. split; [done|].
    unfold sub_ok. simpl c_trace. rewrite deliveries_handle.
    destruct (decide (s' = s)) as [->|]; [|by split].
    simpl in Hs'. rewrite Hs in Hs'. injection Hs' as <-. split.
    + intros m' [->%list_elem_of_singleton|Hm']%elem_of_app; [done|by apply H1].
    + intros m' Hm'. destruct (H2 m' Hm'). split; [done|].
      intros m'' [->%list_elem_of_singleton|?]%elem_of_app; [|by eauto]. by rewrite (Hf m' Hm').
  - intros s'. simpl c_trace. rewrite deliveries_handle.
    destruct (decide (s' = s)) as [->|]; [|apply inv_sorted0]. simpl. constructor; [apply inv_sorted0|].
    apply Forall_forall. intros m' Hm'. apply Hall. done.
  - intros s' Hn. simpl c_trace. rewrite deliveries_handle.
    destruct (decide (s' = s)) as [->|]; [simpl in Hn; by rewrite Hs in Hn|by apply inv_none0].
Qed.

(** A new object, and its entry in the table. *)
Lemma Inv_add_obj o h c :
  Inv c → c_objs c !! o = None → o < c_next c → oh_lastMessage h = None → oh_observations h = ∅ →
  Inv (set_obj o h c).
Proof.
  intros HI Hfresh Hlt Hlast Hsubs.
  assert (Hl : ∀ o', last_of (set_obj o h c) o' = last_of c o').
  { intros o'. unfold last_of. simpl. destruct (decide (o = o')) as [<-|].
    - by rewrite lookup_insert_eq, Hfresh; simpl; rewrite Hlast.
    - by rewrite lookup_insert_ne. }
  destruct HI. constructor; try done.
  - simpl. intros key o' Hk. destruct (inv_cache0 key o' Hk) as (h0&Hh0&Hid0).
    exists h0. split; [|done]. rewrite lookup_insert_ne; [done|]. intros <-. by rewrite Hfresh in Hh0.
  - intros s hs Hs. destruct (inv_sub0 s hs Hs) as [? Hok]. split; [done|].
    unfold sub_ok in *. by rewrite Hl.
  - intros o' h0. simpl. intros [[<- <-]|[Hne H0]]%lookup_insert_Some; unfold obj_ok; rewrite Hl.
    + split; [done|split]; [unfold last_of; rewrite Hfresh; simpl; lia|].
      rewrite Hsubs. intros rid s. by rewrite lookup_empty.
    + by destruct (inv_obj0 o' h0 H0).
  - intros t th Ht. destruct (inv_thread0 t th Ht). split; [done|].
    eapply thread_ok_mono; [..|done]; try done. intros o'. apply objs_set_obj.
  - intros t th o' h0 Ht Hc. simpl. intros [[<- <-]|[Hne H0]]%lookup_insert_Some; [|by eauto].
    destruct (inv_thread0 t th Ht) as [_ [Hobj _]]. destruct (Hobj o) as [? Hx]; [by destruct th|].
    by rewrite Hfresh in Hx.
Qed.
Lemma Inv_cache_insert key o h c :
  Inv c → c_objs c !! o = Some h → oh_id h = key → Inv (set_cache (<[key := o]> (c_cache c)) c).
Proof.
  intros [] Ho Hid. constructor; try done.
  simpl. intros k o' [[<- <-]|[_ H]]%lookup_insert_Some; [by exists h|by apply inv_cache0].
Qed.

(** ** The actions preserve the invariant *)

Lemma Inv_owned c o h rid s :
  Inv c → c_objs c !! o = Some h → oh_observations h !! rid = Some s → owner c s = Some o.
Proof. intros HI Ho Hs. destruct (inv_obj _ HI _ _ Ho) as (_&_&H). by eapply H. Qed.
Lemma Inv_locked o h b c : Inv c → c_objs c !! o = Some h → Inv (set_obj o (oh_set_locked b h) c).
Proof.
  intros HI Ho. eapply Inv_set_obj; try done; simpl.
  - intros rid s. by apply Inv_owned.
  - intros t u Ht Hc. by eapply inv_busy.
Qed.

Lemma Inv_set_locked b c : Inv c → Inv (set_locked b c).
Proof. intros []. by constructor. Qed.
Lemma Inv_observe_begin key rid c c' : Inv c → observe_begin key rid c = Some c' → Inv c'.
Proof.
  intros HI. unfold observe_begin. destruct (c_locked c); [done|]. destruct (c_cache c !! key) as [o|] eqn:Hc.
  - intros [= <-]. destruct (inv_cache _ HI key o Hc) as (h&Ho&_).
    apply (Inv_thread_new _ (set_locked true c)); [by apply Inv_set_locked| |done]. split; [|done].
    intros ? [= <-]. exists h. exact Ho.
  - intros [= <-]. set (h := {| oh_id := key |}). set (o := c_next c).
    assert (Hfresh : c_objs c !! o = None).
    { destruct (c_objs c !! o) as [h0|] eqn:E; [|done]. destruct (inv_obj _ HI _ _ E). unfold o in *. lia. }
    assert (Ho : c_objs (set_obj o h (bump c)) !! o = Some h) by apply lookup_insert_eq.
    apply (Inv_set_thread _ _ (set_cache (<[key := o]> (c_cache c)) (set_obj o h (bump c)))).
    + eapply (Inv_cache_insert key o h (set_obj o h (bump c))); [|done..].
      apply Inv_add_obj; try done; [by apply Inv_bump|simpl; unfold o; lia].
    + simpl. unfold o. lia.
    + split; [|done]. intros ? [= <-]. simpl. rewrite lookup_insert_eq. eauto.
    + done.
Qed.
Lemma Inv_observe_lock t o rid c c' :
  Inv c → c_threads c !! t = Some (TWait o rid) → observe_lock t o rid c = Some c' → Inv c'.
Proof.
  intros HI Ht. unfold observe_lock. destruct (c_objs c !! o) as [h|] eqn:Ho; [|done]. simpl.
  destruct (oh_locked h); [done|]. intros [= <-].
  eapply (Inv_thread_Some t _ _ (set_obj o _ (set_locked false c))); [|exact Ht| |done].
  - apply (Inv_locked o h true (set_locked false c)); [by apply Inv_set_locked|done].
  - split; [intros ? [= <-]; apply (objs_set_obj o); eauto|].
    intros m Hm. rewrite (last_of_set_obj o h); [|done..]. unfold last_of. simpl. by rewrite Ho; simpl; rewrite Hm.
Qed.

Lemma Inv_observe_subscribe t o rid first loaded c c' :
  Inv c → c_threads c !! t = Some (TSubscribe o rid first loaded) →
  observe_subscribe t o rid first loaded c = Some c' → Inv c'.
Proof.
  intros HI Ht. unfold observe_subscribe. destruct (c_objs c !! o) as [h|] eqn:Ho; [|done]. simpl.
  destruct (inv_thread _ HI _ _ Ht) as [Hlt [_ Hfirst]].
  set (s := c_next c). set (sub := {| su_obj := o |}).
  assert (Hnone : c_subs c !! s = None).
  { destruct (c_subs c !! s) as [h0|] eqn:E; [|done]. destruct (inv_sub _ HI _ _ E). unfold s in *. lia. }
  assert (HI1 : Inv (set_sub s sub (bump c))).
  { apply Inv_set_sub; [by apply Inv_bump|simpl; unfold s; lia| |by simpl; rewrite Hnone].
    pose proof (inv_none _ HI s Hnone) as Hd. unfold sub_ok. simpl. rewrite Hd.
    split; [intros m Hm; by apply not_elem_of_nil in Hm|].
    intros m Hm. split; [by apply Hfirst|]. intros m' Hm'. by apply not_elem_of_nil in Hm'. }
  assert (Hown : owner (set_sub s sub (bump c)) s = Some o).
  { unfold owner. simpl. by rewrite lookup_insert_eq. }
  assert (Hobs : ∀ b rid' s', oh_observations (oh_set_locked b (oh_set_observations
            (<[rid := s]> (oh_observations h)) h)) !! rid' = Some s' →
            owner (set_sub s sub (bump c)) s' = Some o).
  { intros b rid' s'. simpl. intros [[<- <-]|[_ Hs]]%lookup_insert_Some; [done|].
    unfold owner. simpl. rewrite lookup_insert_ne; [by eapply Inv_owned|].
    intros <-. pose proof (Inv_owned _ _ _ _ _ HI Ho Hs) as Hx. unfold owner in Hx. by rewrite Hnone in Hx. }
  destruct loaded; intros [= <-].
  - apply Inv_cemit; [done|].
    eapply (Inv_thread_Some t _ _ (set_obj o _ (set_sub s sub (bump c)))); [|exact Ht| |done].
    + eapply Inv_set_obj; try done; [apply (Hobs false)|]. intros t' u Hu Hcb. exact (inv_busy _ HI _ _ _ _ Hu Hcb Ho).
    + split; [done|]. simpl. rewrite lookup_insert_eq. eauto.
  - eapply (Inv_thread_Some t _ _ (set_obj o _ (set_sub s sub (bump c)))); [|exact Ht| |done].
    + eapply Inv_set_obj; try done; [apply (Hobs false)|]. intros t' u Hu Hcb. exact (inv_busy _ HI _ _ _ _ Hu Hcb Ho).
    + split; [|done]. intros ? [= <-]. apply objs_set_obj. simpl. eauto.
Qed.

(** The lock is released; [h'] differs in the device at most. *)
Lemma Inv_device o h h' c :
  Inv c → c_objs c !! o = Some h → oh_id h' = oh_id h → oh_lastMessage h' = oh_lastMessage h →
  oh_observations h' = oh_observations h → oh_busy h' = oh_busy h → Inv (set_obj o h' c).
Proof.
  intros HI Ho Hid Hlast Hobs Hb. eapply Inv_set_obj; try done.
  - intros rid s. rewrite Hobs. by apply Inv_owned.
  - intros t u Hu Hc. rewrite Hb. exact (inv_busy _ HI _ _ _ _ Hu Hc Ho).
Qed.

Lemma Inv_observe_connect t o rid res c c' :
  Inv c → observe_connect t o rid res c = Some c' → Inv c'.
Proof.
  intros HI. unfold observe_connect. destruct (c_objs c !! o) as [h|] eqn:Ho; [|done]. simpl.
  apply (Inv_thread_None t) in HI.
  destruct res as [[device obsID]|]; intros [= <-]; repeat (apply Inv_cemit; [done|]);
    by apply (Inv_device o h _ (set_thread t None c)).
Qed.

Lemma Inv_stop key rid c c' : Inv c → stop key rid c = Some c' → Inv c'.
Proof.
  intros HI. unfold stop. destruct (c_locked c); [done|]. destruct (c_cache c !! key) as [o|] eqn:Hc.
  2: { intros [= <-]. by apply Inv_cemit. }
  destruct (c_objs c !! o) as [h|] eqn:Ho; [|done]. simpl.
  destruct (oh_observations h !! rid) as [s|] eqn:Hs.
  2: { intros [= <-]. by apply Inv_cemit. }
  assert (HI1 : Inv (set_obj o (oh_set_observations (delete rid (oh_observations h)) h) c)).
  { eapply Inv_set_obj; try done; simpl.
    - intros rid' s'. intros [_ Hs']%lookup_delete_Some. by eapply Inv_owned.
    - intros t u Hu Hcb. exact (inv_busy _ HI _ _ _ _ Hu Hcb Ho). }
  case_bool_decide; [|intros [= <-]; by apply Inv_cemit].
  apply (Inv_cache_delete key) in HI1.
  destruct (oh_device h); intros [= <-]; apply Inv_cemit; [done| |done|exact HI1].
  by refine (Inv_thread_new _ _ HI1 _ _).
Qed.

Lemma Inv_callback_begin o mk c c' :
  Inv c → (∀ n, callback_of (mk n) = Some o) →
  (∀ c n, is_Some (c_objs c !! o) → last_of c o ≤ n → n < c_next c → thread_ok c (mk n)) →
  callback_begin o mk c = Some c' → Inv c'.
Proof.
  intros HI Hcb Hok. unfold callback_begin. destruct (c_objs c !! o) as [h|] eqn:Ho; [|done]. simpl.
  destruct (oh_busy h) eqn:Hb; [done|]. intros [= <-].
  assert (Hidle : ∀ t u, c_threads c !! t = Some u → callback_of u ≠ Some o).
  { intros t u Hu Hc. pose proof (inv_busy _ HI _ _ _ _ Hu Hc Ho) as E. by rewrite Hb in E. }
  destruct (inv_obj _ HI _ _ Ho) as (_&Hlast&_).
  apply (Inv_set_thread _ _ (set_obj o (oh_set_busy true h) (bump c))).
  - eapply Inv_set_obj; [by apply Inv_bump|exact Ho|try done..].
    intros rid s Hs. by eapply (Inv_owned c).
  - simpl. lia.
  - apply Hok; [apply objs_set_obj; simpl; eauto| |simpl; lia].
    by rewrite (last_of_set_obj o h).
  - intros o' E. rewrite Hcb in E. injection E as <-. split.
    + intros h'. simpl. rewrite lookup_insert_eq. by intros [= <-].
    + intros t u Hu Hc. by destruct (Hidle t u Hu).
Qed.

Lemma Inv_message_store t o msg decoded c c' :
  Inv c → c_threads c !! t = Some (TMessage o msg) → message_store t o msg decoded c = Some c' → Inv c'.
Proof.
  intros HI Ht. unfold message_store. destruct (c_objs c !! o) as [h|] eqn:Ho; [|done]. simpl.
  destruct decoded; intros [= <-]; [by apply co_Inv_store|].
  eapply Inv_thread_Some; [done..| |done]. split; [|done]. intros ? [= <-]. eauto.
Qed.

Lemma Inv_message_range t o msg order c c' :
  Inv c → c_threads c !! t = Some (TRange o msg) → message_range t o msg order c = Some c' → Inv c'.
Proof.
  intros HI Ht. unfold message_range. destruct (c_objs c !! o) as [h|] eqn:Ho; [|done]. simpl.
  case_bool_decide as Hp; [|done]. intros [= <-]. destruct (inv_thread _ HI _ _ Ht) as [_ [Hobj Hl]].
  eapply Inv_thread_Some; [done..| |done]. split; [done|]. split; [done|].
  apply Forall_forall. intros [rid s] Hrs. rewrite Hp in Hrs.
  apply elem_of_map_to_list in Hrs. simpl. by eapply Inv_owned.
Qed.

Lemma Inv_handle_message t o msg rid s todo c c1 :
  Inv c → c_threads c !! t = Some (THandle o msg ((rid, s) :: todo)) →
  handle_message s msg c = Some c1 → Inv (set_thread t (Some (THandle o msg todo)) c1).
Proof.
  intros HI Ht. destruct (inv_thread _ HI _ _ Ht) as [_ [Hobj [Hl Hown]]].
  apply Forall_cons in Hown as [Hs Hown]. simpl in Hs. unfold handle_message. unfold owner in Hs.
  destruct (c_subs c !! s) as [h|] eqn:Hsub; [|done]. simpl in Hs |- *. injection Hs as Hs.
  destruct (inv_sub _ HI _ _ Hsub) as [Hlt [H1 H2]].
  set (h' := {| su_obj := su_obj h |}).
  assert (HI1 : Inv (set_sub s h' c)).
  { apply Inv_set_sub; [done..|by split|]. intros h0. rewrite Hsub. by intros [= <-]. }
  assert (HI2 : Inv (cemit (EvHandle s msg) (set_sub s h' c))).
  { apply (Inv_deliver s h'); [done|apply lookup_insert_eq|..|done]; simpl.
    - change (last_of (set_sub s h' c) (su_obj h)) with (last_of c (su_obj h)). by rewrite Hs, Hl.
    - intros m' Hm'. specialize (H1 m' Hm'). by rewrite Hs, Hl in H1. }
  assert (Hok : ∀ c2, c_objs c2 = c_objs c → c_subs c2 = <[s := h']> (c_subs c) →
            thread_ok c2 (THandle o msg todo)).
  { intros c2 E1 E2. split; [by rewrite E1|]. split; [unfold last_of; by rewrite E1|].
    eapply Forall_impl; [exact Hown|]. intros [r s'] Hx. simpl in *. unfold owner in *. rewrite E2.
    destruct (decide (s = s')) as [<-|]; [|by rewrite lookup_insert_ne].
    rewrite lookup_insert_eq. rewrite Hsub in Hx. done. }
  intros [= <-]. destruct (su_isClosed h);
    (eapply Inv_thread_Some; [done|exact Ht|by apply Hok|done]).
Qed.

Lemma Inv_handle_first t s c c1 :
  Inv c → handle_first s c = Some c1 → Inv (set_thread t None c1).
Proof.
  intros HI. unfold handle_first. destruct (c_subs c !! s) as [h|] eqn:Hs; [|done]. simpl.
  destruct (inv_sub _ HI _ _ Hs) as [Hlt [H1 H2]].
  intros [= <-]. apply Inv_thread_None. destruct (su_firstMessage h) as [m|] eqn:Hf; [|done].
  destruct (su_isClosed h); [done|]. destruct (H2 m eq_refl) as [Hm Hall].
  apply (Inv_deliver s h); try done. intros m' Hm'. rewrite Hf in Hm'. by injection Hm'.
Qed.

(** The callback ends: its goroutine and, with [oh_busy], the object's claim. *)
Lemma Inv_callback_done t th o h h' c :
  Inv c → c_threads c !! t = Some th → callback_of th = Some o → c_objs c !! o = Some h →
  oh_id h' = oh_id h → oh_lastMessage h' = oh_lastMessage h →
  (∀ rid s, oh_observations h' !! rid = Some s → owner c s = Some o) →
  Inv (set_thread t None (set_obj o h' c)).
Proof.
  intros HI Ht Hcb Ho Hid Hlast Hsubs.
  apply (Inv_set_obj o h h' (set_thread t None c)); try done; [by apply Inv_thread_None|].
  intros t' u. simpl. destruct (decide (t = t')) as [<-|Hne]; [by rewrite lookup_partial_alter_eq|].
  rewrite lookup_partial_alter_ne by done. intros Hu Hc.
  destruct Hne. by eapply inv_one.
Qed.

Lemma Inv_close_all t o err final c c' :
  Inv c → c_threads c !! t = Some (TCloseAll o err final) → close_all t o err final c = Some c' → Inv c'.
Proof.
  intros HI Ht. unfold close_all. destruct (c_objs c !! o) as [h|] eqn:Ho; [|done]. simpl.
  intros [= <-]. set (c1 := foldr _ c _).
  assert (Hc1 : Inv c1 ∧ c_objs c1 = c_objs c ∧ c_threads c1 = c_threads c).
  { subst c1. induction (map_to_list (oh_observations h)) as [|rs l [IH1 IH2]]; simpl; [done|].
    split; [|done]. apply Inv_cemit; [by destruct err|done]. }
  destruct Hc1 as (HI1&Eo&Et). eapply (Inv_callback_done t _ o h); [done|by rewrite Et|done|by rewrite Eo|done..|].
  intros rid s. simpl. by rewrite lookup_empty.
Qed.

Lemma Inv_close_begin t o err final c c' :
  Inv c → c_threads c !! t = Some (TClose o err final) → close_begin t o err final c = Some c' → Inv c'.
Proof.
  intros HI Ht. unfold close_begin. destruct (c_locked c); [done|].
  destruct (c_objs c !! o) as [h|] eqn:Ho; [|done]. simpl.
  assert (Hok : ∀ th, callback_of th = Some o → object_of th = Some o →
            match th with TCloseAll _ _ _ | TCloseStop _ _ _ => True | _ => False end → thread_ok c th).
  { intros th Hc Ho' Hth. split; [rewrite Ho'; intros ? [= <-]; eauto|]. by destruct th. }
  destruct (c_cache c !! oh_id h); intros [= <-].
  - apply (Inv_cache_delete (oh_id h)) in HI as HI1. eapply Inv_thread_Some; [done|exact Ht| |done].
    by apply (Hok (TCloseStop o err final)).
  - eapply Inv_thread_Some; [done|exact Ht|by apply Hok|done].
Qed.

Lemma Inv_exec_thread t th a c c' :
  Inv c → c_threads c !! t = Some th → exec_thread t th a c = Some c' → Inv c'.
Proof.
  intros HI Ht. destruct th, a; simpl; try done.
  - by apply Inv_observe_lock.
  - by apply Inv_observe_subscribe.
  - by apply Inv_observe_connect.
  - destruct (handle_first s c) as [c1|] eqn:E; [|done]. simpl. intros [= <-]. by eapply Inv_handle_first.
  - by apply Inv_message_store.
  - by apply Inv_message_range.
  - destruct todo as [|[rid s] todo].
    + unfold callback_end. destruct (c_objs c !! o) as [h|] eqn:Ho; [|done]. simpl. intros [= <-].
      eapply Inv_callback_done; try done. intros rid s. simpl. by eapply Inv_owned.
    + destruct (handle_message s msg c) as [c1|] eqn:E; [|done]. simpl. intros [= <-].
      by eapply Inv_handle_message.
  - by destruct todo as [|[]].
  - by destruct todo as [|[]].
  - by destruct todo as [|[]].
  - intros [= <-]. apply Inv_cemit; [done|]. by apply Inv_thread_None.
  - by apply Inv_close_begin.
  - unfold close_lock. destruct (c_objs c !! o) as [h|] eqn:Ho; [|done]. simpl.
    destruct (oh_locked h); [done|]. intros [= <-].
    eapply (Inv_thread_Some t _ _ (set_obj o _ c)); [by apply Inv_locked|exact Ht| |done].
    split; [|done]. intros ? [= <-]. apply (objs_set_obj o). eauto.
  - unfold close_stop. destruct (c_objs c !! o) as [h|] eqn:Ho; [|done]. simpl. intros [= <-].
    assert (HI1 : Inv (set_thread t (Some (TCloseAll o err final)) (set_obj o (oh_set_locked false h) c))).
    { eapply (Inv_thread_Some t _ _ (set_obj o _ c)); [by apply Inv_locked|exact Ht| |done].
      split; [|done]. intros ? [= <-]. apply (objs_set_obj o). eauto. }
    destruct (oh_device h); [|done]. by apply (Inv_cemit (EvCoreStop (oh_observationID h))) in HI1.
  - by apply Inv_close_all.
Qed.

Lemma Inv_exec l c c' : Inv c → exec c l = Some c' → Inv c'.
Proof.
  intros HI. destruct l as [key rid|key rid|o|o err|t a]; simpl.
  - by apply Inv_observe_begin.
  - by apply Inv_stop.
  - apply Inv_callback_begin; try done. intros c0 n Ho Hl Hn. split; [|done]. by intros ? [= <-].
  - apply Inv_callback_begin; try done. intros c0 n Ho Hl Hn. split; [|done]. by intros ? [= <-].
  - destruct (c_threads c !! t) as [th|] eqn:Ht; [|done]. simpl. by apply Inv_exec_thread.
Qed.

Lemma Inv_NewClient : Inv NewClient.
Proof. constructor; try done; try (intros; by rewrite lookup_empty in * ). intros s. constructor. Qed.

Lemma Inv_runs ls c : runs step NewClient ls c → Inv c.
Proof.
  intros Hr. eapply runs_invariant; [|exact Hr|exact Inv_NewClient]. intros c1 l c2 HI. by apply Inv_exec.
Qed.

(** ** The locks *)

(** The mutex of the table and the locks of the objects, the goroutine that holds each, and
    whether it is taken. *)
Inductive Lock := LkTable | LkObj (o : nat).
#[export] Instance Lock_eq_dec : EqDecision Lock.
Proof. solve_decision. Defined.
Definition holds (th : Thread) : option Lock :=
  match th with
  | TWait _ _ => Some LkTable
  | TSubscribe o _ _ _ | TConnect o _ | TCloseHeld o _ _ => Some (LkObj o)
  | _ => None
  end.
Definition holder (c : Client) (t : nat) : option Lock := c_threads c !! t ≫= holds.
Definition taken (c : Client) (r : Lock) : bool :=
  match r with LkTable => c_locked c | LkObj o => from_option oh_locked false (c_objs c !! o) end.
(** A lock is taken exactly while one goroutine holds it. *)
Definition Locks (c : Client) : Prop :=
  (∀ r, taken c r = true ↔ ∃ t, holder c t = Some r) ∧
  ∀ t1 t2 r, holder c t1 = Some r → holder c t2 = Some r → t1 = t2.

(** One goroutine moves: it releases what it no longer holds, and takes free locks only. *)
Lemma Locks_move t c c' :
  Locks c → (∀ t', t' ≠ t → holder c' t' = holder c t') →
  (∀ r, taken c' r = if bool_decide (holder c' t = Some r) then true
                     else if bool_decide (holder c t = Some r) then false else taken c r) →
  (∀ r, holder c' t = Some r → holder c t = Some r ∨ taken c r = false) → Locks c'.
Proof.
  intros [Ht Hu] Hother Htk Hnew. split.
  - intros r. rewrite Htk. case_bool_decide as H1; [split; [by exists t|done]|].
    case_bool_decide as H2.
    + split; [done|]. intros [t' Ht']. destruct (decide (t' = t)) as [->|Hne]; [done|].
      rewrite Hother in Ht' by done. by destruct Hne, (Hu _ _ _ Ht' H2).
    + rewrite Ht. split; intros [t' Ht']; exists t'; destruct (decide (t' = t)) as [->|Hne]; try done;
        by rewrite ?Hother in * by done.
  - assert (Hone : ∀ t' r, t' ≠ t → holder c' t = Some r → holder c' t' ≠ Some r).
    { intros t' r Hne Hr Hr'. rewrite Hother in Hr' by done. destruct (Hnew r Hr) as [H|H].
      - by destruct Hne, (Hu _ _ _ Hr' H).
      - assert (taken c r = true) as E by (apply Ht; eauto). by rewrite E in H. }
    intros t1 t2 r H1 H2. destruct (decide (t1 = t)) as [->|N1], (decide (t2 = t)) as [->|N2]; try done.
    + by destruct (Hone t2 r N2 H1).
    + by destruct (Hone t1 r N1 H2).
    + rewrite Hother in H1, H2 by done. by eapply Hu.
Qed.

(** Two states with the same locks. *)
Definition same_locks (c c' : Client) : Prop := (∀ t, holder c' t = holder c t) ∧ ∀ r, taken c' r = taken c r.
Lemma Locks_same c c' : same_locks c c' → Locks c → Locks c'.
Proof.
  intros [Hh Ht] [H1 H2]. split.
  - intros r. rewrite Ht, H1. by setoid_rewrite Hh.
  - intros t1 t2 r. rewrite !Hh. apply H2.
Qed.
Lemma holder_set_thread t th c t' :
  holder (set_thread t th c) t' = if decide (t' = t) then th ≫= holds else holder c t'.
Proof.
  unfold holder. simpl. destruct (decide (t' = t)) as [->|]; [by rewrite lookup_partial_alter_eq|].
  by rewrite lookup_partial_alter_ne.
Qed.
Lemma taken_set_obj o h c r :
  taken (set_obj o h c) r = if decide (r = LkObj o) then oh_locked h else taken c r.
Proof.
  destruct r as [|o']; [by rewrite decide_False|]. cbn [taken c_objs set_obj]. destruct (decide (LkObj o' = LkObj o)) as [[= ->]|Hne].
  - by rewrite lookup_insert_eq.
  - rewrite lookup_insert_ne; [done|]. congruence.
Qed.
Lemma taken_set_thread t th c r : taken (set_thread t th c) r = taken c r.
Proof. by destruct r. Qed.
Lemma taken_obj c o h : c_objs c !! o = Some h → taken c (LkObj o) = oh_locked h.
Proof. intros H. simpl. by rewrite H. Qed.
(** The thread table after a move, and what else the move changed. *)
Lemma Locks_thread t th c c1 :
  Locks c → (∀ t', c_threads c1 !! t' = c_threads c !! t') →
  (∀ r, taken c1 r = if bool_decide (th ≫= holds = Some r) then true
                     else if bool_decide (holder c t = Some r) then false else taken c r) →
  (∀ r, th ≫= holds = Some r → holder c t = Some r ∨ taken c r = false) → Locks (set_thread t th c1).
Proof.
  intros HL Hth Htk Hnew. assert (Hh : ∀ t', holder c1 t' = holder c t') by (intros t'; unfold holder; by rewrite Hth).
  apply (Locks_move t c); [done|..].
  - intros t' Hne. by rewrite holder_set_thread, decide_False.
  - intros r. by rewrite taken_set_thread, holder_set_thread, decide_True, Htk.
  - intros r. rewrite holder_set_thread, decide_True by done. auto.
Qed.
(** A goroutine that holds nothing goes on without a lock, or ends. *)
Lemma Locks_idle t th c c1 :
  Locks c → (∀ t', c_threads c1 !! t' = c_threads c !! t') → (∀ r, taken c1 r = taken c r) →
  holder c t = None → th ≫= holds = None → Locks (set_thread t th c1).
Proof.
  intros HL Hth Htk H1 H2. apply Locks_thread with (c := c); [done..| |].
  - intros r. rewrite H1, H2. rewrite !bool_decide_false by done. apply Htk.
  - intros r. by rewrite H2.
Qed.
Lemma taken_same_lock o h h' c r :
  c_objs c !! o = Some h → oh_locked h' = oh_locked h → taken (set_obj o h' c) r = taken c r.
Proof.
  intros Ho Hl. rewrite taken_set_obj. destruct (decide _) as [->|]; [|done]. by rewrite (taken_obj c o h Ho), Hl.
Qed.
Lemma Locks_emit ev c : Locks c → Locks (cemit ev c).
Proof. apply Locks_same. by split; [|intros []]. Qed.
Lemma Locks_bump c : Locks c → Locks (bump c).
Proof. apply Locks_same. by split; [|intros []]. Qed.

Lemma holder_at c t th : c_threads c !! t = Some th → holder c t = holds th.
Proof. intros H. unfold holder. by rewrite H. Qed.
Lemma holder_fresh c : Inv c → holder c (c_next c) = None.
Proof.
  intros HI. unfold holder. destruct (c_threads c !! c_next c) as [th|] eqn:E; [|done].
  destruct (inv_thread _ HI _ _ E). lia.
Qed.
(** The lock of an object changes hands. *)
Lemma Locks_obj t th o h h' c :
  Locks c → c_objs c !! o = Some h →
  ((holder c t = Some (LkObj o) ∧ (th ≫= holds) = (if oh_locked h' then Some (LkObj o) else None)) ∨
   (holder c t = None ∧ oh_locked h = false ∧ oh_locked h' = true ∧ th ≫= holds = Some (LkObj o))) →
  Locks (set_thread t th (set_obj o h' c)).
Proof.
  intros HL Ho Hc. apply Locks_thread with (c := c); [done|done|..].
  - intros r. rewrite taken_set_obj. destruct Hc as [[H1 H2]|(H1&H2&H3&H4)].
    + rewrite H1, H2. destruct (decide (r = LkObj o)) as [->|Hne].
      * destruct (oh_locked h'); [by rewrite bool_decide_true|].
        rewrite bool_decide_false by done. by rewrite bool_decide_true.
      * rewrite !bool_decide_false; [done|congruence|destruct (oh_locked h'); congruence].
    + rewrite H1, H4. destruct (decide (r = LkObj o)) as [->|Hne]; [by rewrite bool_decide_true|].
      by rewrite !bool_decide_false by congruence.
  - intros r Hr. destruct Hc as [[H1 H2]|(H1&H2&H3&H4)].
    + rewrite H2 in Hr. destruct (oh_locked h'); [|done]. left. congruence.
    + rewrite H4 in Hr. injection Hr as <-. right. by rewrite (taken_obj c o h).
Qed.

(** The goroutines that hold nothing, before and after. *)
Lemma Locks_exec_idle t th a c c' :
  Inv c → Locks c → c_threads c !! t = Some th → holds th = None →
  (∀ o err final, th ≠ TCloseStop o err final) → exec_thread t th a c = Some c' → Locks c'.
Proof.
  intros HI HL Ht Hh Hns. pose proof (holder_at c t th Ht) as Hn. rewrite Hh in Hn.
  assert (Hidle : ∀ th' c1, (∀ t', c_threads c1 !! t' = c_threads c !! t') → (∀ r, taken c1 r = taken c r) →
    th' ≫= holds = None → Locks (set_thread t th' c1)).
  { intros th' c1 H1 H2 H3. by apply (Locks_idle t th' c c1). }
  destruct th, a; try done; simpl.
  - unfold handle_first. destruct (c_subs c !! s) as [h|]; [|done]. simpl.
    intros [= <-]. destruct (su_firstMessage h); [destruct (su_isClosed h)|]; by apply Hidle; [|intros []|].
  - unfold message_store. destruct (c_objs c !! o) as [h|] eqn:Ho; [|done]. simpl.
    destruct decoded; intros [= <-]; apply Hidle; try done. intros r. by apply (taken_same_lock o h).
  - unfold message_range. destruct (c_objs c !! o) as [h|] eqn:Ho; [|done]. simpl.
    case_bool_decide; [|done]. intros [= <-]. by apply Hidle.
  - destruct todo as [|[rid s] todo].
    + unfold callback_end. destruct (c_objs c !! o) as [h|] eqn:Ho; [|done]. simpl. intros [= <-].
      apply Hidle; try done. intros r. by apply (taken_same_lock o h).
    + unfold handle_message. destruct (c_subs c !! s) as [h|]; [|done]. simpl. intros [= <-].
      destruct (su_isClosed h); by apply Hidle; [|intros []|].
  - by destruct todo as [|[]].
  - by destruct todo as [|[]].
  - by destruct todo as [|[]].
  - intros [= <-]. apply Locks_emit. by apply Hidle.
  - unfold close_begin. destruct (c_locked c); [done|]. destruct (c_objs c !! o) as [h|]; [|done]. simpl.
    destruct (c_cache c !! oh_id h); intros [= <-]; by apply Hidle; [|intros []|].
  - by destruct (Hns o err final).
  - unfold close_all. destruct (c_objs c !! o) as [h|] eqn:Ho; [|done]. simpl. intros [= <-]. set (c1 := foldr _ c _).
    assert (Hc1 : c_threads c1 = c_threads c ∧ c_objs c1 = c_objs c ∧ c_locked c1 = c_locked c).
    { subst c1. by induction (map_to_list (oh_observations h)). }
    destruct Hc1 as (E1&E2&E3). apply Hidle; [intros t'; simpl; by rewrite E1| |done].
    intros r. rewrite (taken_same_lock o h) by (by rewrite ?E2). destruct r; simpl; by rewrite ?E2, ?E3.
Qed.
Lemma Locks_exec_thread t th a c c' :
  Inv c → Locks c → c_threads c !! t = Some th → exec_thread t th a c = Some c' → Locks c'.
Proof.
  intros HI HL Ht. pose proof (holder_at c t th Ht) as Hh.
  assert (Hheld : ∀ o h, holds th = Some (LkObj o) → c_objs c !! o = Some h → oh_locked h = true).
  { intros o h Ho Hoh. rewrite <- (taken_obj c o h Hoh). apply HL. exists t. congruence. }
  destruct (decide (holds th = None)) as [Hn|Hn].
  { assert (Hcs : (∃ o err final, th = TCloseStop o err final) ∨ ∀ o err final, th ≠ TCloseStop o err final)
      by (destruct th; first [by right|left; by eauto]).
    destruct Hcs as [(o&err&final&->)|Hns].
    - destruct a; try done. simpl. unfold close_lock. destruct (c_objs c !! o) as [h|] eqn:Ho; [|done]. simpl.
      destruct (oh_locked h) eqn:El; [done|]. intros [= <-]. apply (Locks_obj _ _ o h); [done..|]. right. by split_and!.
    - by apply Locks_exec_idle. }
  destruct th, a; try done; simpl.
  - unfold observe_lock. destruct (c_objs c !! o) as [h|] eqn:Ho; [|done]. simpl.
    destruct (oh_locked h) eqn:El; [done|]. intros [= <-]. apply (Locks_thread _ _ c); [done|done|..]; rewrite Hh; cbn [mbind option_bind holds].
    + intros r. rewrite taken_set_obj. destruct (decide (r = LkObj o)) as [->|Hne]; [by rewrite bool_decide_true|].
      rewrite bool_decide_false by congruence. destruct r; [by rewrite bool_decide_true|by rewrite bool_decide_false].
    + intros r [= <-]. right. by rewrite (taken_obj c o h).
  - unfold observe_subscribe. destruct (c_objs c !! o) as [h|] eqn:Ho; [|done]. simpl.
    assert (HL1 : ∀ s x, Locks (bump (set_sub s x c))) by (intros s x; eapply Locks_same; [|exact HL]; by split; [|intros []]).
    destruct loaded; intros [= <-].
    + apply Locks_emit, (Locks_obj _ _ o h); [apply HL1|done|]. left. split; [exact Hh|done].
    + apply (Locks_obj _ _ o h); [apply HL1|done|]. left. split; [exact Hh|]. simpl. by rewrite (Hheld o h).
  - unfold observe_connect. destruct (c_objs c !! o) as [h|] eqn:Ho; [|done]. simpl.
    destruct res as [[device obsID]|]; intros [= <-]; repeat apply Locks_emit; (apply (Locks_obj _ _ o h); [done..|]; by left).
  - unfold close_stop. destruct (c_objs c !! o) as [h|] eqn:Ho; [|done]. simpl. intros [= <-].
    assert (HL1 : Locks (set_thread t (Some (TCloseAll o err final)) (set_obj o (oh_set_locked false h) c)))
      by (apply (Locks_obj _ _ o h); [done..|]; by left).
    destruct (oh_device h); [by apply Locks_emit|done].
Qed.
Lemma Locks_exec l c c' : Inv c → Locks c → exec c l = Some c' → Locks c'.
Proof.
  intros HI HL. destruct l as [key rid|key rid|o|o err|t a]; simpl.
  - unfold observe_begin. destruct (c_locked c) eqn:El; [done|]. destruct (c_cache c !! key) as [o|]; intros [= <-].
    + apply Locks_bump. apply (Locks_thread _ _ c); [done|done|..]; rewrite holder_fresh by done; cbn [mbind option_bind holds].
      * intros []; cbn; [by rewrite bool_decide_true|by rewrite !bool_decide_false].
      * intros r [= <-]. by right.
    + apply Locks_bump. set (h := {| oh_id := key |}). set (o := c_next c).
      assert (Hfresh : c_objs c !! o = None).
      { destruct (c_objs c !! o) as [h0|] eqn:E; [|done]. destruct (inv_obj _ HI _ _ E). unfold o in *. lia. }
      apply (Locks_thread _ _ c); [done|done|..]; unfold o; rewrite holder_fresh by done; cbn [mbind option_bind holds]; fold o.
      * intros r. change (taken (set_cache ?x ?y) r) with (taken y r). rewrite taken_set_obj.
        destruct (decide (r = LkObj o)) as [->|Hne]; [by rewrite bool_decide_true|by rewrite !bool_decide_false by congruence].
      * intros r [= <-]. right. simpl. by rewrite Hfresh.
  - unfold stop. destruct (c_locked c); [done|]. destruct (c_cache c !! key) as [o|]; [|intros [= <-]; by apply Locks_emit].
    destruct (c_objs c !! o) as [h|] eqn:Ho; [|done]. simpl. destruct (oh_observations h !! rid); [|intros [= <-]; by apply Locks_emit].
    assert (HL1 : ∀ x, Locks (set_obj o (oh_set_observations x h) c)).
    { intros x. eapply Locks_same; [|exact HL]. split; [done|]. intros r. by apply (taken_same_lock o h). }
    case_bool_decide; [|intros [= <-]; by apply Locks_emit].
    destruct (oh_device h); intros [= <-]; apply Locks_emit.
    + apply Locks_bump. apply (Locks_idle _ _ c); [done|done| |by apply holder_fresh|done].
      intros r. exact (taken_same_lock o h (oh_set_observations _ h) c r Ho eq_refl).
    + eapply Locks_same; [|apply HL1]. by split; [|intros []].
  - unfold callback_begin. destruct (c_objs c !! o) as [h|] eqn:Ho; [|done]. simpl. destruct (oh_busy h); [done|].
    intros [= <-]. apply Locks_bump, (Locks_idle _ _ c); [done|done| |by apply holder_fresh|done].
    intros r. by apply (taken_same_lock o h).
  - unfold callback_begin. destruct (c_objs c !! o) as [h|] eqn:Ho; [|done]. simpl. destruct (oh_busy h); [done|].
    intros [= <-]. apply Locks_bump, (Locks_idle _ _ c); [done|done| |by apply holder_fresh|done].
    intros r. by apply (taken_same_lock o h).
  - destruct (c_threads c !! t) as [th|] eqn:Ht; [|done]. simpl. apply (Locks_exec_thread t th a c c' HI HL Ht).
Qed.

Lemma Locks_NewClient : Locks NewClient.
Proof.
  split; [|intros t1 t2 r H; by vm_compute in H].
  intros []; (split; [by vm_compute|intros [t Ht]; by vm_compute in Ht]).
Qed.
Lemma Locks_runs ls c : runs step NewClient ls c → Inv c ∧ Locks c.
Proof.
  intros Hr. eapply (runs_invariant step (fun c => Inv c ∧ Locks c)); [|exact Hr|exact (conj Inv_NewClient Locks_NewClient)].
  intros c1 l c2 [HI HL] Hs. split; [by eapply Inv_exec|by eapply Locks_exec].
Qed.

(** At most [n] actions of goroutines other than [t] lead to a state of [P] in which [t] is
    where it was. *)
Definition after_others (t n : nat) (P : Client → Prop) (c : Client) : Prop :=
  ∃ ls c', runs step c ls c' ∧ length ls ≤ n ∧
    Forall (fun l => ∃ u a, l = LThread u a ∧ u ≠ t) ls ∧
    c_threads c' !! t = c_threads c !! t ∧ P c'.
Lemma after_now t n (P : Client → Prop) c : P c → after_others t n P c.
Proof. intros H. exists [], c. split; [constructor|]. split; [simpl; lia|]. by split_and!. Qed.
Lemma after_step t u a (P : Client → Prop) c c1 :
  u ≠ t → step c (LThread u a) c1 → c_threads c1 !! t = c_threads c !! t → P c1 → after_others t 1 P c.
Proof.
  intros Hne Hs Ht HP. exists [LThread u a], c1. split; [econstructor; [exact Hs|constructor]|].
  split; [done|]. split; [repeat constructor; eauto|done].
Qed.
Lemma after_bind t n m (P Q : Client → Prop) c :
  after_others t n P c →
  (∀ c', c_threads c' !! t = c_threads c !! t → P c' → after_others t m Q c') → after_others t (n + m) Q c.
Proof.
  intros (ls&c1&Hr&Hl&Hf&Ht&HP) H. destruct (H c1 Ht HP) as (ls2&c2&Hr2&Hl2&Hf2&Ht2&HQ).
  exists (ls ++ ls2), c2. split; [by eapply runs_app|]. rewrite length_app. split; [lia|].
  split; [by apply Forall_app|]. split; [congruence|done].
Qed.
Lemma after_weaken t n m (P Q : Client → Prop) c :
  n ≤ m → (∀ c', c_threads c' !! t = c_threads c !! t → P c' → Q c') →
  after_others t n P c → after_others t m Q c.
Proof. intros Hle HQ (ls&c'&Hr&Hl&Hf&Ht&HP). exists ls, c'. split; [done|]. split; [lia|]. by eauto. Qed.

(** The lock of an object is free, and the goroutines that did not hold it are where they
    were. *)
Definition freed (o : nat) (c c' : Client) : Prop :=
  Inv c' ∧ Locks c' ∧ taken c' (LkObj o) = false ∧ c_locked c' = c_locked c ∧
  ∀ u, holder c u ≠ Some (LkObj o) → c_threads c' !! u = c_threads c !! u.

Lemma connect_frees t u o rid c :
  Inv c → Locks c → c_threads c !! u = Some (TConnect o rid) → u ≠ t → after_others t 1 (freed o c) c.
Proof.
  intros HI HL Hu Hne. destruct (inv_thread _ HI _ _ Hu) as [_ [Hobj _]].
  destruct (Hobj o eq_refl) as [h Ho].
  set (c1 := cemit (EvReturned rid false) (set_thread u None (set_obj o (oh_set_locked false h) c))).
  assert (Hs : step c (LThread u (AConnect None)) c1).
  { unfold step. simpl. rewrite Hu. simpl. unfold observe_connect. by rewrite Ho. }
  eapply (after_step t u _ _ c c1 Hne Hs).
  - simpl. by rewrite lookup_partial_alter_ne.
  - split; [by eapply Inv_exec|]. split; [by eapply Locks_exec|].
    split; [simpl; by rewrite lookup_insert_eq|]. split; [done|].
    intros u' Hu'. simpl. rewrite lookup_partial_alter_ne; [done|].
    intros <-. by rewrite (holder_at _ _ _ Hu) in Hu'.
Qed.

(** Whoever holds the lock of an object releases it within two actions. *)
Lemma obj_freed t o c :
  Inv c → Locks c → holder c t ≠ Some (LkObj o) → after_others t 2 (freed o c) c.
Proof.
  intros HI HL Hnt. destruct (taken c (LkObj o)) eqn:Etk; [|by apply after_now].
  apply HL in Etk as [u Hu]. assert (Hne : u ≠ t) by (intros ->; done).
  pose proof Hu as [th [Hth Hh]]%bind_Some. destruct (inv_thread _ HI _ _ Hth) as [_ [Hobj _]].
  assert (Hof : object_of th = Some o) by (destruct th; naive_solver). destruct (Hobj o Hof) as [h Ho].
  destruct th; try done; injection Hof as ->.
  - destruct (observe_subscribe u o rid firstMessage loaded c) as [c1|] eqn:E;
      [|unfold observe_subscribe in E; rewrite Ho in E; by destruct loaded].
    assert (Hs : step c (LThread u ANone) c1) by (unfold step; simpl; by rewrite Hth).
    assert (HI1 : Inv c1) by by eapply Inv_exec. assert (HL1 : Locks c1) by exact (Locks_exec _ c c1 HI HL Hs).
    unfold observe_subscribe in E. rewrite Ho in E. simpl in E.
    assert (Hoth : ∀ u', u' ≠ u → c_threads c1 !! u' = c_threads c !! u').
    { intros u' Hu'. destruct loaded; injection E as <-; simpl; by rewrite lookup_partial_alter_ne. }
    assert (Hlk : c_locked c1 = c_locked c) by (by destruct loaded; injection E as <-).
    assert (Hu1 : ∀ u', holder c u' ≠ Some (LkObj o) → u' ≠ u) by (intros u' H ->; done).
    destruct loaded.
    + apply (after_weaken t 1 2 (freed o c) _ c); [lia|done|].
      apply (after_step t u _ _ c c1 Hne Hs); [by apply Hoth|]. split; [done|]. split; [done|].
      split; [injection E as <-; simpl; by rewrite lookup_insert_eq|]. eauto.
    + apply (after_bind t 1 1 (fun c' => c' = c1)); [by apply (after_step t u _ _ c c1 Hne Hs); [apply Hoth|]|].
      intros ? _ ->. eapply after_weaken; [reflexivity| |apply (connect_frees t u o rid c1); try done].
      * intros c' _ (H1&H2&H3&H4&H5). split; [done|]. split; [done|]. split; [done|]. split; [congruence|].
        intros u' Hu'. rewrite H5; [by apply Hoth, Hu1|]. unfold holder. by rewrite Hoth by by apply Hu1.
      * injection E as <-. simpl. by rewrite lookup_partial_alter_eq.
  - eapply after_weaken; [| |by apply (connect_frees t u o rid c)]; [lia|done].
  - set (c1 := default c (close_stop u o err final c)).
    assert (Hs : step c (LThread u ANone) c1).
    { unfold step, c1. simpl. rewrite Hth. simpl. unfold close_stop. by rewrite Ho. }
    apply (after_weaken t 1 2 (freed o c) _ c); [lia|done|].
    assert (Hx : taken c1 (LkObj o) = false ∧ c_locked c1 = c_locked c ∧
                 ∀ u', u' ≠ u → c_threads c1 !! u' = c_threads c !! u').
    { unfold c1, close_stop. rewrite Ho. simpl. destruct (oh_device h); simpl; rewrite lookup_insert_eq;
        (split; [done|]; split; [done|]; intros u' Hu'; by rewrite lookup_partial_alter_ne). }
    destruct Hx as (Hx1&Hx2&Hx3). apply (after_step t u _ _ c c1 Hne Hs); [by apply Hx3|].
    split; [by eapply Inv_exec|]. split; [by eapply Locks_exec|]. split; [done|]. split; [done|].
    intros u' Hu'. apply Hx3. by intros ->.
Qed.

(** The mutex of the table becomes free within three actions: the goroutine that holds it
    waits for an object, and takes it. *)
Lemma table_freed t c :
  Inv c → Locks c → holder c t = None →
  after_others t 3 (fun c' => Inv c' ∧ c_locked c' = false) c.
Proof.
  intros HI HL Hnt. destruct (c_locked c) eqn:Etk; [|by apply after_now].
  destruct (proj1 (proj1 HL LkTable) Etk) as [u Hu]. assert (Hne : u ≠ t) by (intros ->; congruence).
  pose proof Hu as [th [Hth Hh]]%bind_Some. destruct th as [o rid| | | | | | | | | | |]; try done.
  eapply (after_bind t 2 1); [apply (obj_freed t o c HI HL); congruence|].
  intros c1 _ (HI1&HL1&Hf&_&Hoth).
  assert (Hth1 : c_threads c1 !! u = Some (TWait o rid)) by (rewrite Hoth by congruence; done).
  destruct (inv_thread _ HI1 _ _ Hth1) as [_ [Hobj _]]. destruct (Hobj o eq_refl) as [h Ho].
  rewrite (taken_obj c1 o h Ho) in Hf.
  set (c2 := set_thread u (Some (TSubscribe o rid (oh_lastMessage h) true))
               (set_obj o (oh_set_locked true h) (set_locked false c1))).
  assert (Hs : step c1 (LThread u ANone) c2).
  { unfold step. simpl. rewrite Hth1. simpl. unfold observe_lock. rewrite Ho. simpl. by rewrite Hf. }
  apply (after_step t u _ _ c1 c2 Hne Hs); [simpl; by rewrite lookup_partial_alter_ne|].
  split; [by eapply Inv_exec|done].
Qed.

(** A goroutine that waits for no lock has a next action. *)
Definition acts (t : nat) (c : Client) : Prop := ∃ a c', step c (LThread t a) c'.
Definition waits (th : Thread) : option Lock :=
  match th with
  | TWait o _ | TCloseStop o _ _ => Some (LkObj o)
  | TClose _ _ _ => Some LkTable
  | _ => None
  end.
Lemma acts_free t th c :
  Inv c → c_threads c !! t = Some th → (∀ r, waits th = Some r → taken c r = false) → acts t c.
Proof.
  intros HI Ht Hw. destruct (inv_thread _ HI _ _ Ht) as [_ [Hobj Hok]].
  assert (Hx : ∀ a, is_Some (exec_thread t th a c) → acts t c).
  { intros a [c' Hc']. exists a, c'. unfold step. simpl. by rewrite Ht. }
  destruct th; simpl in Hobj, Hw; try destruct (Hobj _ eq_refl) as [h Ho]; clear Hobj.
  - apply (Hx ANone). simpl. unfold observe_lock. specialize (Hw _ eq_refl). simpl in Hw.
    rewrite Ho in *. simpl in *. rewrite Hw. eauto.
  - apply (Hx ANone). simpl. unfold observe_subscribe. rewrite Ho. destruct loaded; eauto.
  - apply (Hx (AConnect None)). simpl. unfold observe_connect. rewrite Ho. eauto.
  - apply (Hx ANone). destruct Hok as [hs Hs]. simpl. unfold handle_first. rewrite Hs. eauto.
  - apply (Hx (ADecode true)). simpl. unfold message_store. rewrite Ho. eauto.
  - apply (Hx (ARange (map_to_list (oh_observations h)))). simpl. unfold message_range.
    rewrite Ho. simpl. rewrite bool_decide_true by done. eauto.
  - apply (Hx ANone). destruct todo as [|[rid s] todo]; simpl.
    + unfold callback_end. rewrite Ho. eauto.
    + destruct Hok as [_ Hs]. apply Forall_cons in Hs as [Hs _]. unfold owner in Hs. simpl in Hs.
      unfold handle_message. destruct (c_subs c !! s); [|done]. eauto.
  - apply (Hx ANone). simpl. eauto.
  - apply (Hx ANone). simpl. unfold close_begin. rewrite (Hw _ eq_refl : c_locked c = false), Ho. simpl.
    destruct (c_cache c !! oh_id h); eauto.
  - apply (Hx ANone). simpl. unfold close_lock. specialize (Hw _ eq_refl). simpl in Hw.
    rewrite Ho in *. simpl in *. rewrite Hw. eauto.
  - apply (Hx ANone). simpl. unfold close_stop. rewrite Ho. eauto.
  - apply (Hx ANone). simpl. unfold close_all. rewrite Ho. eauto.
Qed.

(** ** Theorems *)

(** C3 The messages given to a subscriber never go back: whatever the goroutines of the
    application, of the device observation and of [HandleFirstMessage] do, the messages
    that [Handle] of a subscriber gets are in the order of their arrival (the first
    message may come twice). *)
Theorem observer_messages_ordered ls c s :
  runs step NewClient ls c → StronglySorted ge (deliveries s (c_trace c)).
Proof. intros Hr. by apply inv_sorted, (Inv_runs ls). Qed.

Definition ex_connect : list CLabel :=
  [LObserve "k" "r1"; LThread 0 ANone; LThread 0 (AConnect (Some ("d", "obs")))]%string.
Definition ex_message (t : nat) (order : list (string * nat)) : list CLabel :=
  [LNotify 0; LThread t (ADecode true); LThread t (ARange order)] ++
  map (fun _ => LThread t ANone) order ++ [LThread t ANone].
Definition ex_two : list CLabel :=
  ex_connect ++ ex_message 2 [("r1"%string, 1)] ++
  [LObserve "k" "r2"; LThread 3 ANone; LThread 3 ANone; LThread 3 ANone] ++
  ex_message 5 [("r2"%string, 4); ("r1"%string, 1)].

Lemma observer_messages_ordered_witness :
  ∃ c, runs step NewClient ex_two c ∧ deliveries 4 (c_trace c) = [5; 2] ∧
       StronglySorted ge (deliveries 4 (c_trace c)).
Proof.
  destruct (execs exec NewClient ex_two) as [c|] eqn:E; [|by vm_compute in E].
  assert (Hr : runs step NewClient ex_two c) by by apply execs_runs.
  assert (Hd : (fun c => deliveries 4 (c_trace c)) <$> execs exec NewClient ex_two = Some [5; 2])
    by (vm_compute; reflexivity).
  rewrite E in Hd. injection Hd as Hd.
  exists c. split; [done|]. split; [exact Hd|by apply (observer_messages_ordered ex_two c 4)].
Defined.

(** C35 No reference dangles and nothing deadlocks.  In every reachable state an
    entry of the table is an object that carries the key of the entry, and an object's
    subscribers belong to it.  The mutex of the table and the lock of an object are taken
    exactly while one goroutine is at a point where it holds them.  And every goroutine can
    take its next action now or after at most three actions that others can take (when the
    calls of the device return), although [LoadOrStoreWithFunc] waits for an object while it holds the
    mutex of the table; in the same way a new call of [ObserveResource] or
    [StopObservingResource] gets the table. *)
Theorem observer_heap_typed ls c :
  runs step NewClient ls c →
  (∀ key o, c_cache c !! key = Some o → ∃ h, c_objs c !! o = Some h ∧ oh_id h = key) ∧
  (∀ o h rid s, c_objs c !! o = Some h → oh_observations h !! rid = Some s →
     ∃ hs, c_subs c !! s = Some hs ∧ su_obj hs = o) ∧
  Locks c ∧
  (∀ t th, c_threads c !! t = Some th → after_others t 3 (acts t) c) ∧
  ∀ key rid, after_others (c_next c) 3 (fun c' => (∃ c'', step c' (LObserve key rid) c'') ∧
                                                  ∃ c'', step c' (LStop key rid) c'') c.
Proof.
  intros [HI HL]%Locks_runs. split; [apply (inv_cache _ HI)|]. split.
  { intros o h rid s Ho Hs. pose proof (Inv_owned _ _ _ _ _ HI Ho Hs) as Hw. unfold owner in Hw.
    destruct (c_subs c !! s) as [hs|]; [|done]. injection Hw as <-. eauto. }
  split; [done|]. split.
  - intros t th Ht. pose proof (holder_at c t th Ht) as Hh. destruct (waits th) as [[|o]|] eqn:Hw.
    + eapply after_weaken; [reflexivity| |apply (table_freed t c HI HL)].
      * intros c' Ht' [HI' Hf]. apply (acts_free t th); [done|congruence|]. rewrite Hw. by intros ? [= <-].
      * rewrite Hh. by destruct th.
    + eapply after_weaken; [| |apply (obj_freed t o c HI HL)]; [lia| |].
      * intros c' Ht' (HI'&_&Hf&_). apply (acts_free t th); [done|congruence|]. rewrite Hw. by intros ? [= <-].
      * rewrite Hh. by destruct th.
    + apply after_now, (acts_free t th); [done..|]. by rewrite Hw.
  - intros key rid. eapply after_weaken; [reflexivity| |apply (table_freed (c_next c) c HI HL), holder_fresh, HI].
    intros c' _ [HI' Hf]. unfold step. simpl. unfold observe_begin, stop. rewrite Hf.
    destruct (c_cache c' !! key) as [o|] eqn:Hk; [|eauto]. split; [eauto|].
    destruct (inv_cache _ HI' _ _ Hk) as (h&Ho&_). rewrite Ho. simpl.
    destruct (oh_observations h !! rid); [|eauto]. case_bool_decide; [destruct (oh_device h)|]; eauto.
Qed.

(** A chain of waiting: goroutine 4 closes the observation of the first key and waits for the
    table; its mutex is held by goroutine 3, which waits for the object of the second key;
    goroutine 2, its creator, holds this one. *)
Definition ex_waiting : list CLabel :=
  ex_connect ++ [LObserve "j" "r2"; LObserve "j" "r3"; LCoreClose 0 false]%string.
Lemma observer_heap_typed_witness :
  ∃ c, runs step NewClient ex_waiting c ∧
    c_threads c !! 4 = Some (TClose 0 false true) ∧ exec c (LThread 4 ANone) = None ∧
    holder c 3 = Some LkTable ∧ exec c (LThread 3 ANone) = None ∧ holder c 2 = Some (LkObj 2) ∧
    after_others 4 3 (acts 4) c.
Proof.
  destruct (execs exec NewClient ex_waiting) as [c|] eqn:E; [|by vm_compute in E].
  assert (Hr : runs step NewClient ex_waiting c) by by apply execs_runs.
  destruct (observer_heap_typed ex_waiting c Hr) as (_&_&_&Hact&_).
  assert (Hk : (fun c => (c_threads c !! 4, exec c (LThread 4 ANone), holder c 3,
                          exec c (LThread 3 ANone), holder c 2)) <$> execs exec NewClient ex_waiting =
               Some (Some (TClose 0 false true), None, Some LkTable, None, Some (LkObj 2)))
    by (vm_compute; reflexivity).
  rewrite E in Hk. injection Hk as H1 H2 H3 H4 H5.
  exists c. split; [done|]. split; [exact H1|]. split; [exact H2|]. split; [exact H3|].
  split; [exact H4|]. split; [exact H5|]. exact (Hact 4 _ H1).
Defined.

(** The actions of [ObserveResource] as equations, for runs from a state that is not
    concrete. *)
Definition new_object (key : string) : observationsHandler :=
  {| oh_id := key; oh_locked := true; oh_observationID := ""; oh_device := None;
     oh_lastMessage := None; oh_observations := ∅; oh_busy := false |}.
Lemma exec_observe_new c key rid (o := c_next c) :
  c_locked c = false → c_cache c !! key = None →
  exec c (LObserve key rid) =
    Some (bump (set_thread o (Some (TSubscribe o rid None false))
            (set_cache (<[key := o]> (c_cache c)) (set_obj o (new_object key) c)))).
Proof. intros Hl H. unfold exec, observe_begin. by rewrite Hl, H. Qed.
Lemma exec_observe_loaded c key rid o :
  c_locked c = false → c_cache c !! key = Some o →
  exec c (LObserve key rid) =
    Some (bump (set_thread (c_next c) (Some (TWait o rid)) (set_locked true c))).
Proof. intros H1 H2. unfold exec, observe_begin. by rewrite H1, H2. Qed.
Lemma observe_lock_at t o rid c h :
  c_objs c !! o = Some h → oh_locked h = false →
  observe_lock t o rid c =
    Some (set_thread t (Some (TSubscribe o rid (oh_lastMessage h) true))
            (set_obj o (oh_set_locked true h) (set_locked false c))).
Proof. intros H1 H2. unfold observe_lock. rewrite H1. simpl. by rewrite H2. Qed.
Lemma thread_at (t : nat) (th : Thread) (m : gmap nat Thread) :
  partial_alter (fun _ => Some th) t m !! t = Some th.
Proof. apply lookup_partial_alter_eq. Qed.
Lemma exec_thread_at c t th a : c_threads c !! t = Some th → exec c (LThread t a) = exec_thread t th a c.
Proof. intros H. unfold exec. by rewrite H. Qed.
Lemma observe_subscribe_at t o rid first loaded c h :
  c_objs c !! o = Some h →
  observe_subscribe t o rid first loaded c =
    (let s := c_next c in
     let h := oh_set_observations (<[rid := s]> (oh_observations h)) h in
     let c := bump (set_sub s {| su_obj := o; su_isClosed := false; su_firstMessage := first |} c) in
     Some (if loaded
           then cemit (EvReturned rid true)
                  (set_thread t (Some (TFirst s)) (set_obj o (oh_set_locked false h) c))
           else set_thread t (Some (TConnect o rid)) (set_obj o h c))).
Proof. intros H. unfold observe_subscribe. rewrite H. by destruct loaded. Qed.
Lemma observe_connect_fails t o rid c h :
  c_objs c !! o = Some h →
  observe_connect t o rid None c =
    Some (cemit (EvReturned rid false) (set_thread t None (set_obj o (oh_set_locked false h) c))).
Proof. intros H. unfold observe_connect. by rewrite H. Qed.

(** A failed [ObserveResource] leaves its object in the table: when the mutex of the
    table is free and the first observation of a key fails, a second [ObserveResource] of the
    key reports success although the device is not observed, and its object has no device. *)
Theorem failed_observe_poisons c key rid1 rid2 (t := c_next c) :
  c_locked c = false → c_cache c !! key = None →
  ∃ c' h, runs step c [LObserve key rid1; LThread t ANone; LThread t (AConnect None);
                       LObserve key rid2; LThread (S (S t)) ANone; LThread (S (S t)) ANone] c' ∧
    c_trace c' = EvReturned rid2 true :: EvReturned rid1 false :: c_trace c ∧
    c_cache c' !! key = Some t ∧ c_objs c' !! t = Some h ∧ oh_device h = None ∧
    oh_locked h = false ∧ is_Some (oh_observations h !! rid2).
Proof.
  intros Hl Hc. eexists _, _. split.
  { econstructor; [by apply exec_observe_new|].
    econstructor; [etrans; [apply exec_thread_at, thread_at|];
                   apply observe_subscribe_at, lookup_insert_eq|].
    econstructor; [etrans; [apply exec_thread_at, thread_at|];
                   apply observe_connect_fails, lookup_insert_eq|].
    econstructor; [apply exec_observe_loaded; [exact Hl|apply lookup_insert_eq]|].
    econstructor; [etrans; [apply exec_thread_at, thread_at|];
                   by apply observe_lock_at; [apply lookup_insert_eq|]|].
    econstructor; [etrans; [apply exec_thread_at, thread_at|];
                   apply observe_subscribe_at, lookup_insert_eq|].
    constructor. }
  split; [reflexivity|]. split; [apply lookup_insert_eq|]. split; [apply lookup_insert_eq|].
  split; [reflexivity|]. split; [reflexivity|]. eexists. apply lookup_insert_eq.
Qed.

Lemma failed_observe_poisons_witness :
  c_locked NewClient = false ∧ c_cache NewClient !! "k"%string = None ∧
  ∃ c' h, runs step NewClient [LObserve "k" "r1"; LThread 0 ANone; LThread 0 (AConnect None);
                               LObserve "k" "r2"; LThread 2 ANone; LThread 2 ANone] c' ∧
    c_trace c' = [EvReturned "r2" true; EvReturned "r1" false] ∧
    c_cache c' !! "k"%string = Some 0 ∧ c_objs c' !! 0 = Some h ∧ oh_device h = None ∧
    oh_locked h = false ∧ is_Some (oh_observations h !! "r2"%string).
Proof.
  split; [reflexivity|]. split; [reflexivity|].
  exact (failed_observe_poisons NewClient "k" "r1" "r2" eq_refl eq_refl).
Defined.

(** [StopObservingResource] does not take the lock of the object: the last subscriber
    can leave while [ObserveResource] of another one holds it.  Then [ObserveResource]
    reports success, but the observation of the device is stopped, the object is out of
    the table, and stopping that observation finds nothing. *)
Theorem stop_orphans_subscriber :
  ∃ c h, runs step NewClient
      (ex_connect ++ [LObserve "k" "r2"; LThread 2 ANone; LStop "k" "r1"; LThread 2 ANone; LThread 3 ANone;
                      LStop "k" "r2"]) c ∧
    c_trace c = [EvStopped "r2" false; EvCoreStop "obs"; EvReturned "r2" true;
                 EvStopped "r1" true; EvReturned "r1" true; EvCoreObserve 0 "obs"] ∧
    c_cache c = ∅ ∧ c_objs c !! 0 = Some h ∧ oh_device h = Some "d"%string ∧
    is_Some (oh_observations h !! "r2"%string).
Proof.
  eexists _, _. split; [apply execs_runs; vm_compute; reflexivity|].
  split; [reflexivity|]. split; [reflexivity|]. split; [reflexivity|].
  split; [reflexivity|]. vm_compute. eauto.
Qed.

(** The ID that [ObserveResource] returns is taken apart by [StopObservingResource] as it
    was put together: the parts are UUIDs, without a slash. *)
Theorem parseIDs_getObservationID key rid :
  contains_char "/" key = false → contains_char "/" rid = false →
  parseIDs (getObservationID key rid) = Ok (key, rid).
Proof.
  intros Hk Hr. unfold parseIDs, getObservationID, split, join. simpl String.concat.
  change (key +:+ ("/" +:+ rid)%string) with (key +:+ String "/" rid).
  rewrite split_aux_sep by done. by rewrite split_aux_no_sep.
Qed.
Lemma parseIDs_getObservationID_witness :
  contains_char "/" "k1" = false ∧ parseIDs (getObservationID "k1" "r1") = Ok ("k1", "r1")%string.
Proof. split; [reflexivity|]. by apply parseIDs_getObservationID. Defined.
