(* ===== verification/ClientCoap.v ===== *)
(** * ClientCoap: the CoAP client of the SDK

    [src/pkg/net/coap/client.go], [response.go], [src/pkg/codec/ocf/codec.go] and the codec
    of [src/client/observeResource.go]: the requests for a resource with their options and
    codecs, the treatment of the answers, notifications, and the handlers that are called
    when a connection is closed.

    The connection is the class [ClientConn] of go-coap: its answers are arbitrary
    functions of an arbitrary environment state.  The value behind the [interface{}] that
    receives a response is a [Target]; a codec decodes into the value that is there, and may
    change it before it fails. *)

From S2P Require Export Coap.

(** ** Options of a request *)

Definition set_accept (f : Z) (m : Message) : Message :=
  {| m_code := m_code m; m_token := m_token m; m_id := m_id m; m_type := m_type m;
     m_path := m_path m; m_queries := m_queries m; m_observe := m_observe m;
     m_accept := Some f; m_format := m_format m; m_etag := m_etag m;
     m_body := m_body m; m_multicast := m_multicast m |}.

(** [message.Options] are the option fields of a message. *)
Definition OptionFunc : Type := Message → Message.
Definition WithQuery (query : string) : OptionFunc := add_query query.
Definition WithInterface (in_ : string) : OptionFunc := WithQuery ("if=" +:+ in_).
Definition WithResourceType (in_ : string) : OptionFunc := WithQuery ("rt=" +:+ in_).
Definition WithDeviceID (in_ : string) : OptionFunc := WithQuery ("di=" +:+ in_).
Definition WithAccept (contentFormat : Z) : OptionFunc := set_accept contentFormat.
Definition WithETag (etag : string) : OptionFunc := set_etag (Some etag).
Definition apply_options (options : list OptionFunc) : Message :=
  foldl (fun opts o => o opts) NewMessage options.

(** ** Codecs *)

(** CBOR is decoded into the caller's value in place: what the payload does not mention stays,
    and a failed decoding may leave the value changed in part. *)
Class CborInto (A : Type) := cbor_DecodeInto : string → A → result unit * A.

(** A codec at one Go type.  [codec_Decode] works on the value behind a pointer, and gives its
    error and the value that it leaves there. *)
Record Codec (A : Type) := {
  codec_ContentFormat : Z;
  codec_Encode : A → result string;
  codec_Decode : Message → A → result unit * A }.
Arguments codec_ContentFormat {A} _.
Arguments codec_Encode {A} _ _.
Arguments codec_Decode {A} _ _ _.

Definition ErrUnknownContentFormat : error := ErrText "unknown content format".
Definition ErrEmptyBody : error := ErrText "unexpected empty body".
Definition ErrOptionNotFound : error := ErrText "option not found".
Definition errUnknownContentFormat (err : error) : error := ErrWrap2 ErrUnknownContentFormat err.

(** The error of the decoding before the payload is looked at, or the payload. *)
Definition VNDOCFCBORCodec_payload (m : Message) : result string :=
  match m_format m with
  | None => Err (errUnknownContentFormat ErrOptionNotFound)
  | Some mt =>
      if negb (mt =? AppCBOR) && negb (mt =? AppOcfCbor)
      then Err (ErrText "not a CBOR content format")
      else match m_body m with None => Err ErrEmptyBody | Some b => Ok b end
  end.
Definition VNDOCFCBORCodec_DecodeInto {A} `{CborInto A} (m : Message) (v : A) : result unit * A :=
  match VNDOCFCBORCodec_payload m with
  | Err e => (Err e, v)
  | Ok b => match cbor_DecodeInto b v with
            | (Ok _, v') => (Ok tt, v')
            | (Err e, v') => (Err (ErrWrap "decoding failed for the message" e), v')
            end
  end.
(** [Decode] into a fresh variable, which is read only when there was no error. *)
Definition VNDOCFCBORCodec_Decode {A} `{Cbor A} (m : Message) : result A :=
  match m_format m with
  | None => Err (errUnknownContentFormat ErrOptionNotFound)
  | Some mt =>
      if negb (mt =? AppCBOR) && negb (mt =? AppOcfCbor)
      then Err (ErrText "not a CBOR content format")
      else match m_body m with
           | None => Err ErrEmptyBody
           | Some _ => match ReadFrom (m_body m) with
                       | Ok v => Ok v
                       | Err e => Err (ErrWrap "decoding failed for the message" e)
                       end
           end
  end.
Definition VNDOCFCBORCodec A `{Cbor A} `{CborInto A} : Codec A := {|
  codec_ContentFormat := AppOcfCbor;
  codec_Encode v := cbor_Encode v;
  codec_Decode m v := VNDOCFCBORCodec_DecodeInto m v |}.

(** [RawCodec] at [[]byte]. *)
Definition contains (a : list Z) (x : Z) : bool := existsb (fun n => x =? n) a.
Definition RawCodec (EncodeMediaType : Z) (DecodeMediaTypes : list Z) : Codec string := {|
  codec_ContentFormat := EncodeMediaType;
  codec_Encode p := Ok p;
  codec_Decode m v :=
    match m_format m with
    | None => match m_body m with
              | None => (Ok tt, v)
              | Some _ => (Err (errUnknownContentFormat ErrOptionNotFound), v)
              end
    | Some mt =>
        if negb (contains DecodeMediaTypes mt) then (Err (ErrText "unexpected content format"), v)
        else match m_body m with
             | None => (Err ErrEmptyBody, v)
             | Some b => (Ok tt, b)
             end
    end |}.
Definition MakeRawVNDOCFCBORCodec : Codec string := RawCodec AppOcfCbor [AppOcfCbor; AppCBOR].

(** [observerCodec]: the value is the message itself. *)
Definition observerCodec (contentFormat : Z) : Codec Message := {|
  codec_ContentFormat := contentFormat;
  codec_Encode _ := Err (ErrText "not supported");
  codec_Decode m v :=
    if negb (m_code m =? codes_Valid) && bool_decide (m_body m = None)
    then (Err (ErrText "unexpected empty body"), v) else (Ok tt, m) |}.

(** ** The receiver of a response *)

Record DetailedResponse (A : Type) := { dr_Code : Z; dr_ETag : option string; dr_Body : A }.
Arguments dr_Code {A} _.
Arguments dr_ETag {A} _.
Arguments dr_Body {A} _.
Definition SetCode {A} (c : Z) (d : DetailedResponse A) : DetailedResponse A :=
  {| dr_Code := c; dr_ETag := dr_ETag d; dr_Body := dr_Body d |}.
Definition SetETag {A} (e : string) (d : DetailedResponse A) : DetailedResponse A :=
  {| dr_Code := dr_Code d; dr_ETag := Some e; dr_Body := dr_Body d |}.

(** [nil], a pointer to a value, or a pointer to a detailed response. *)
Inductive Target (A : Type) :=
  | TNil
  | TPlain (v : A)
  | TDetailed (d : DetailedResponse A).
Arguments TNil {A}.
Arguments TPlain {A} _.
Arguments TDetailed {A} _.

(** A message has an ETag or [message.ErrOptionNotFound]. *)
Definition TrySetDetailedReponse {A} (response : Message) (v : Target A) : Target A :=
  match v with
  | TDetailed d =>
      let d := match m_etag response with Some etag => SetETag etag d | None => d end in
      TDetailed (SetCode (m_code response) d)
  | _ => v
  end.
(** [codec.Decode] into it: a [nil] receiver decodes nothing, and of a detailed response the
    body is decoded. *)
Definition decode_into {A} (codec : Codec A) (m : Message) (v : Target A) : result unit * Target A :=
  match v with
  | TNil => (Ok tt, TNil)
  | TPlain x => let (r, x) := codec_Decode codec m x in (r, TPlain x)
  | TDetailed d =>
      let (r, x) := codec_Decode codec m (dr_Body d) in
      (r, TDetailed {| dr_Code := dr_Code d; dr_ETag := dr_ETag d; dr_Body := x |})
  end.

(** ** Requests *)

Definition codes_Created : Z := 65.

Section Client.
(** [status.Error] of go-coap. *)
Context (status_Error : Message → error → error).

Definition requestError (m : Message) : error := ErrText "request failed".
Definition decodeError (href : string) (err : error) : error :=
  ErrWrap ("could not decode the response " +:+ href) err.

Class ClientConn := {
  ConnEnv : Type;
  cc_Post : string → Z → string → Message → ConnEnv → result Message * ConnEnv;
  cc_Get : string → Message → ConnEnv → result Message * ConnEnv;
  cc_Delete : string → Message → ConnEnv → result Message * ConnEnv;
  cc_Observe : string → Message → ConnEnv → result nat * ConnEnv }.
Context `{HConn : ClientConn}.

(** The outcome of a request: the error, the receiver, the environment. *)
Definition Outcome (A : Type) : Type := result unit * Target A * ConnEnv.

Definition finish {A} (codec : Codec A) (href : string) (resp : Message) (v : Target A) (e : ConnEnv)
    : Outcome A :=
  match decode_into codec resp v with
  | (Ok _, v') => (Ok tt, v', e)
  | (Err err, v') => (Err (status_Error resp (decodeError href err)), v', e)
  end.

(** The codec at the type of the request and at the type of the response. *)
Definition UpdateResourceWithCodec {A B} (href : string) (codecQ : Codec A) (codec : Codec B)
    (request : A) (response : Target B) (options : list OptionFunc) (e : ConnEnv) : Outcome B :=
  match codec_Encode codecQ request with
  | Err err => (Err (ErrWrap ("could not encode the request " +:+ href) err), response, e)
  | Ok body =>
      match cc_Post href (codec_ContentFormat codecQ) body (apply_options options) e with
      | (Err err, e) => (Err (ErrWrap ("could update request " +:+ href) err), response, e)
      | (Ok resp, e) =>
          let response := TrySetDetailedReponse resp response in
          if negb (m_code resp =? codes_Changed) && negb (m_code resp =? codes_Valid) &&
             negb (m_code resp =? codes_Created)
          then (Err (status_Error resp (requestError resp)), response, e)
          else if m_code resp =? codes_Valid then (Ok tt, response, e)
          else finish codec href resp response e
      end
  end.

Definition GetResourceWithCodec {A} (href : string) (codec : Codec A) (response : Target A)
    (options : list OptionFunc) (e : ConnEnv) : Outcome A :=
  match cc_Get href (apply_options options) e with
  | (Err err, e) => (Err (ErrWrap ("could not get " +:+ href) err), response, e)
  | (Ok resp, e) =>
      let response := TrySetDetailedReponse resp response in
      if m_code resp =? codes_Content then finish codec href resp response e
      else if negb (m_code resp =? codes_Valid)
      then (Err (status_Error resp (requestError resp)), response, e)
      else (Ok tt, response, e)
  end.

(** The receiver goes to the codec as it is: a detailed response is decoded as a whole,
    with the codec at that type. *)
Definition DeleteResourceWithCodec {A} (href : string) (codec : Codec A)
    (codecD : Codec (DetailedResponse A)) (response : Target A) (options : list OptionFunc)
    (e : ConnEnv) : Outcome A :=
  match cc_Delete href (apply_options options) e with
  | (Err err, e) => (Err (ErrWrap ("could not delete " +:+ href) err), response, e)
  | (Ok resp, e) =>
      if negb (m_code resp =? codes_Deleted)
      then (Err (status_Error resp (requestError resp)), response, e)
      else match response with
           | TDetailed d =>
               match codec_Decode codecD resp d with
               | (Ok _, d) => (Ok tt, TDetailed d, e)
               | (Err err, d) => (Err (status_Error resp (decodeError href err)), TDetailed d, e)
               end
           | _ => finish codec href resp response e
           end
  end.

Definition UpdateResource {A B} `{Cbor A} `{CborInto A} `{Cbor B} `{CborInto B} (href : string) (request : A) (response : Target B)
    (options : list OptionFunc) : ConnEnv → Outcome B :=
  UpdateResourceWithCodec href (VNDOCFCBORCodec A) (VNDOCFCBORCodec B) request response options.
Definition GetResource {A} `{Cbor A} `{CborInto A} (href : string) (response : Target A)
    (options : list OptionFunc) : ConnEnv → Outcome A :=
  GetResourceWithCodec href (VNDOCFCBORCodec A) response options.
Definition DeleteResource {A} `{Cbor A} `{CborInto A} `{Cbor (DetailedResponse A)} `{CborInto (DetailedResponse A)} (href : string)
    (response : Target A) (options : list OptionFunc) : ConnEnv → Outcome A :=
  DeleteResourceWithCodec href (VNDOCFCBORCodec A) (VNDOCFCBORCodec (DetailedResponse A)) response options.

(** ** Notifications *)

Definition decodeObservation {A} (codec : Codec A) (m : Message) (body : Target A)
    : result unit * Target A :=
  if negb (m_code m =? codes_Content) && negb (m_code m =? codes_Valid)
  then (Err (status_Error m (ErrText "observation failed")), body)
  else match decode_into codec m body with
       | (Ok _, v) => (Ok tt, v)
       | (Err e, v) => (Err (status_Error m (ErrWrap "could not decode observation" e)), v)
       end.

(** What the handler of an observation is called with, in order. *)
Inductive ObsCall (A : Type) :=
  | CallHandle (decode : Target A → result unit * Target A)
  | CallClose.
Arguments CallHandle {A} _.
Arguments CallClose {A}.

(** A message without the observe option: the resource does not support observation. *)
Definition observationHandler {A} (codec : Codec A) (msg : Message) : list (ObsCall A) :=
  let doClose := match m_observe msg with None => true | Some _ => false end in
  CallHandle (decodeObservation codec msg) :: (if doClose then [CallClose] else []).

Definition Observe {A} (href : string) (codec : Codec A) (options : list OptionFunc) (e : ConnEnv)
    : result (nat * (Message → list (ObsCall A))) * ConnEnv :=
  match cc_Observe href (apply_options options) e with
  | (Err err, e) => (Err (ErrWrap ("could not observe " +:+ href) err), e)
  | (Ok obs, e) => (Ok (obs, observationHandler codec), e)
  end.
End Client.
Arguments CallHandle {A} _.
Arguments CallClose {A}.

(** ** Close handlers of a connection *)

Section OnClose.
(** The handlers, and the order of an iteration over the map. *)
Context {Handler : Type} (map_order : gmap nat Handler → list (nat * Handler)).

Record OnCloseHandler := { handlers : gmap nat Handler; nextId : nat }.
Definition NewOnCloseHandler : OnCloseHandler := {| handlers := ∅; nextId := 0 |}.
Definition Add (onClose : Handler) (h : OnCloseHandler) : nat * OnCloseHandler :=
  (nextId h, {| handlers := <[nextId h := onClose]> (handlers h); nextId := S (nextId h) |}).
Definition Remove (onCloseID : nat) (h : OnCloseHandler) : OnCloseHandler :=
  {| handlers := delete onCloseID (handlers h); nextId := nextId h |}.
Definition getHandlers (h : OnCloseHandler) : list Handler := snd <$> map_order (handlers h).
(** [OnClose]: the handlers that are called, in order. *)
Definition OnClose (h : OnCloseHandler) : list Handler := getHandlers h.

Inductive OcLabel := LAdd (f : Handler) | LRemove (id : nat).
Definition oc_exec (h : OnCloseHandler) (l : OcLabel) : OnCloseHandler :=
  match l with LAdd f => (Add f h).2 | LRemove id => Remove id h end.
End OnClose.
Arguments OcLabel : clear implicits.
Arguments OnCloseHandler : clear implicits.

(** ** What an answered request does *)

Section Answers.
Context (status_Error : Message → error → error).
Context `{HConn : ClientConn}.

Definition body_of {A} (v : Target A) : option A :=
  match v with TNil => None | TPlain x => Some x | TDetailed d => Some (dr_Body d) end.
Definition same_shape {A} (v v' : Target A) : Prop :=
  match v, v' with
  | TNil, TNil | TPlain _, TPlain _ | TDetailed _, TDetailed _ => True
  | _, _ => False
  end.

(** The contract: [ok] are the codes of success, [decodes] those that carry a body. *)
Record answered {A} (ok decodes : Z → bool) (codec : Codec A) (resp : Message) (v : Target A)
    (r : result unit) (v' : Target A) : Prop := {
  an_ok : r = Ok tt ↔ ok (m_code resp) = true ∧
            (decodes (m_code resp) = true → ∀ x, body_of v = Some x → (codec_Decode codec resp x).1 = Ok tt);
  an_err : ∀ e, r = Err e → ∃ inner, e = status_Error resp inner;
  an_body : body_of v' = if decodes (m_code resp) then (fun x => (codec_Decode codec resp x).2) <$> body_of v
                         else body_of v;
  an_shape : same_shape v v';
  an_detail : ∀ d', v' = TDetailed d' → dr_Code d' = m_code resp ∧
            ∀ etag, m_etag resp = Some etag → dr_ETag d' = Some etag }.

Lemma TrySet_body {A} resp (v : Target A) : body_of (TrySetDetailedReponse resp v) = body_of v.
Proof. destruct v as [| |d]; try done. simpl. by destruct (m_etag resp). Qed.
Lemma TrySet_shape {A} resp (v : Target A) : same_shape v (TrySetDetailedReponse resp v).
Proof. by destruct v. Qed.
Lemma TrySet_nil {A} resp (v : Target A) : TrySetDetailedReponse resp v = TNil ↔ v = TNil.
Proof. by destruct v. Qed.
Lemma TrySet_detail {A} resp (v : Target A) d' : TrySetDetailedReponse resp v = TDetailed d' →
  dr_Code d' = m_code resp ∧ ∀ etag, m_etag resp = Some etag → dr_ETag d' = Some etag.
Proof.
  destruct v as [| |d]; try done. simpl. intros [= <-]. split; [by destruct (m_etag resp)|].
  by intros etag ->.
Qed.

(** The request fails with a status, or succeeds without a body. *)
Lemma answered_error {A} (ok decodes : Z → bool) (codec : Codec A) resp v inner :
  ok (m_code resp) = false → decodes (m_code resp) = false →
  answered ok decodes codec resp v (Err (status_Error resp inner)) (TrySetDetailedReponse resp v).
Proof.
  intros Hok Hd. split; [|by intros e [= <-]; eauto| |apply TrySet_shape|apply TrySet_detail].
  - split; [done|]. rewrite Hok. by intros [].
  - rewrite Hd. apply TrySet_body.
Qed.
Lemma answered_empty {A} (ok decodes : Z → bool) (codec : Codec A) resp v :
  ok (m_code resp) = true → decodes (m_code resp) = false →
  answered ok decodes codec resp v (Ok tt) (TrySetDetailedReponse resp v).
Proof.
  intros Hok Hd. split; [| | |apply TrySet_shape|apply TrySet_detail]; try done.
  - split; [|done]. intros _. split; [done|]. by rewrite Hd.
  - rewrite Hd. apply TrySet_body.
Qed.
(** What a decoding into a receiver leaves. *)
Lemma decode_into_spec {A} (codec : Codec A) m v :
  let r := decode_into codec m v in
  (r.1 = Ok tt ↔ ∀ x, body_of v = Some x → (codec_Decode codec m x).1 = Ok tt) ∧
  body_of r.2 = (fun x => (codec_Decode codec m x).2) <$> body_of v ∧ same_shape v r.2 ∧
  ∀ d', r.2 = TDetailed d' → ∃ d, v = TDetailed d ∧ dr_Code d' = dr_Code d ∧ dr_ETag d' = dr_ETag d.
Proof.
  destruct v as [|x|d]; simpl.
  - by split_and!.
  - destruct (codec_Decode codec m x) as [r x'] eqn:E. simpl. split_and!; try done.
    split; [intros -> y [= <-]; by rewrite E|]. intros H. specialize (H x eq_refl). by rewrite E in H.
  - destruct (codec_Decode codec m (dr_Body d)) as [r x'] eqn:E. simpl. split_and!; try done.
    + split; [intros -> y [= <-]; by rewrite E|]. intros H. specialize (H _ eq_refl). by rewrite E in H.
    + intros d' [= <-]. by exists d.
Qed.
Lemma answered_finish {A} (ok decodes : Z → bool) (codec : Codec A) href resp v e :
  ok (m_code resp) = true → decodes (m_code resp) = true →
  let r := finish status_Error codec href resp (TrySetDetailedReponse resp v) e in
  answered ok decodes codec resp v r.1.1 r.1.2 ∧ r.2 = e.
Proof.
  intros Hok Hd. unfold finish.
  destruct (decode_into_spec codec resp (TrySetDetailedReponse resp v)) as (Hr&Hb&Hs&Ht).
  rewrite TrySet_body in Hr, Hb.
  assert (Hs' : same_shape v (decode_into codec resp (TrySetDetailedReponse resp v)).2).
  { pose proof (TrySet_shape resp v). destruct v, (TrySetDetailedReponse resp _), (decode_into codec resp _).2; done. }
  assert (Hd' : ∀ d', (decode_into codec resp (TrySetDetailedReponse resp v)).2 = TDetailed d' →
    dr_Code d' = m_code resp ∧ ∀ etag, m_etag resp = Some etag → dr_ETag d' = Some etag).
  { intros d' (d&Hv&Hc&He)%Ht. rewrite Hc, He. by apply TrySet_detail in Hv. }
  destruct (decode_into codec resp (TrySetDetailedReponse resp v)) as [[[]|err] v'] eqn:E; cbn [fst snd] in *;
    (split; [|done]); split; try done; try (by rewrite Hd).
  - split; [|done]. intros _. split; [done|]. intros _. by apply Hr.
  - split; [done|]. intros [_ H]. by apply Hr in H.
  - intros e0 [= <-]. eauto.
Qed.

Definition get_ok (c : Z) : bool := (c =? codes_Content) || (c =? codes_Valid).
Definition get_decodes (c : Z) : bool := c =? codes_Content.
Definition update_ok (c : Z) : bool := (c =? codes_Changed) || (c =? codes_Valid) || (c =? codes_Created).
Definition update_decodes (c : Z) : bool := (c =? codes_Changed) || (c =? codes_Created).
Definition delete_ok (c : Z) : bool := c =? codes_Deleted.

(** C25 Every answered request keeps the contract of its method: a retrieval succeeds on
    Content and Valid and decodes on Content, an update succeeds on Changed, Created and
    Valid and decodes on the first two; otherwise the error carries the status of the
    answer.  When the answer carries a representation, the body of the receiver is what the
    codec leaves of it, in place and even when the decoding fails; without one the body is
    untouched; and a detailed receiver has the code and the ETag of the answer in every
    case. *)
Theorem requests_answered {A B} (codecQ : Codec A) (codec : Codec B) href request v options resp e e' :
  (cc_Get href (apply_options options) e = (Ok resp, e') →
   let r := GetResourceWithCodec status_Error href codec v options e in
   answered get_ok get_decodes codec resp v r.1.1 r.1.2 ∧ r.2 = e') ∧
  (∀ body, codec_Encode codecQ request = Ok body →
   cc_Post href (codec_ContentFormat codecQ) body (apply_options options) e = (Ok resp, e') →
   let r := UpdateResourceWithCodec status_Error href codecQ codec request v options e in
   answered update_ok update_decodes codec resp v r.1.1 r.1.2 ∧ r.2 = e').
Proof.
  split.
  - intros Hg. unfold GetResourceWithCodec. rewrite Hg. cbv zeta.
    destruct (Z.eqb_spec (m_code resp) codes_Content) as [Hc|Hc].
    { apply answered_finish; unfold get_ok, get_decodes; by rewrite Hc. }
    destruct (Z.eqb_spec (m_code resp) codes_Valid) as [Hv|Hv]; (split; [|done]).
    + apply answered_empty; unfold get_ok, get_decodes; by rewrite Hv.
    + apply answered_error; unfold get_ok, get_decodes; by rewrite ?(proj2 (Z.eqb_neq _ _) Hc), ?(proj2 (Z.eqb_neq _ _) Hv).
  - intros body He Hp. unfold UpdateResourceWithCodec. rewrite He, Hp. cbv zeta.
    destruct (Z.eqb_spec (m_code resp) codes_Changed) as [Hc|Hc].
    { simpl. rewrite Hc. apply answered_finish; unfold update_ok, update_decodes; by rewrite Hc. }
    destruct (Z.eqb_spec (m_code resp) codes_Valid) as [Hv|Hv]; simpl.
    { split; [|done]. apply answered_empty; unfold update_ok, update_decodes; by rewrite Hv. }
    destruct (Z.eqb_spec (m_code resp) codes_Created) as [Hd|Hd]; simpl.
    { apply answered_finish; unfold update_ok, update_decodes; by rewrite Hd. }
    split; [|done]. apply answered_error; unfold update_ok, update_decodes;
      by rewrite ?(proj2 (Z.eqb_neq _ _) Hc), ?(proj2 (Z.eqb_neq _ _) Hv), ?(proj2 (Z.eqb_neq _ _) Hd).
Qed.

(** A deletion keeps that contract for a plain receiver only: a detailed receiver is
    given to the codec as a whole, so its code and its ETag are what the codec read from
    the payload, whatever the code and the ETag of the answer were. *)
Theorem delete_answered {A} (codec : Codec A) codecD href v options resp e e' :
  cc_Delete href (apply_options options) e = (Ok resp, e') →
  let r := DeleteResourceWithCodec status_Error href codec codecD v options e in
  r.2 = e' ∧
  ((∀ d, v ≠ TDetailed d) → answered delete_ok delete_ok codec resp v r.1.1 r.1.2) ∧
  (∀ d, v = TDetailed d →
     r.1.2 = TDetailed (if m_code resp =? codes_Deleted then (codec_Decode codecD resp d).2 else d)).
Proof.
  intros Hd. unfold DeleteResourceWithCodec. rewrite Hd. cbv zeta.
  assert (Ht : (∀ d, v ≠ TDetailed d) → TrySetDetailedReponse resp v = v)
    by (intros Hv; destruct v as [| |d]; try done; by destruct (Hv d)).
  destruct (Z.eqb_spec (m_code resp) codes_Deleted) as [Hc|Hc]; simpl.
  2:{ split; [done|]. split; [|by intros d ->].
      intros Hv. rewrite <-(Ht Hv) at 2. apply answered_error; unfold delete_ok; by apply Z.eqb_neq. }
  assert (Hf : (∀ d, v ≠ TDetailed d) →
    let r := finish status_Error codec href resp v e' in
    answered delete_ok delete_ok codec resp v r.1.1 r.1.2 ∧ r.2 = e').
  { intros Hv. pose proof (answered_finish delete_ok delete_ok codec href resp v e') as Ha.
    rewrite (Ht Hv) in Ha. apply Ha; unfold delete_ok; by rewrite Hc. }
  destruct v as [|x|d].
  - destruct Hf as [Ha He]; [done|]. done.
  - destruct Hf as [Ha He]; [done|]. done.
  - clear Hf Ht. destruct (codec_Decode codecD resp d) as [[[]|err] d'] eqn:Ec; simpl;
      (split; [done|]); (split; [intros Hv; by destruct (Hv d)|]); intros d2 [= <-]; by rewrite Ec.
Qed.

(** A notification is handed to the observer before anything else, and the observation
    is closed right after it exactly when the message has no observe option; the observer
    decodes a message only with the code Content or Valid, into what it has: a message with
    another code leaves it alone. *)
Theorem notification_handled {A} (codec : Codec A) msg :
  ∃ decode, observationHandler status_Error codec msg =
      CallHandle decode :: (if bool_decide (m_observe msg = None) then [CallClose] else []) ∧
    ∀ v, let r := decode v in
      let good := (m_code msg =? codes_Content) || (m_code msg =? codes_Valid) in
      (r.1 = Ok tt ↔ good = true ∧ ∀ x, body_of v = Some x → (codec_Decode codec msg x).1 = Ok tt) ∧
      body_of r.2 = (if good then (fun x => (codec_Decode codec msg x).2) <$> body_of v else body_of v) ∧
      (∀ e, r.1 = Err e → ∃ inner, e = status_Error msg inner).
Proof.
  exists (decodeObservation status_Error codec msg). split.
  { unfold observationHandler. by destruct (m_observe msg). }
  intros v. unfold decodeObservation. rewrite <- negb_orb.
  destruct ((m_code msg =? codes_Content) || (m_code msg =? codes_Valid)); cbn [negb].
  2:{ split_and!; [split; [done|by intros []]|done|]. intros e [= <-]. eauto. }
  destruct (decode_into_spec codec msg v) as (Hr&Hb&_).
  destruct (decode_into codec msg v) as [[[]|err] v']; cbn [fst snd] in *; split_and!; try done.
  - split; [|done]. intros _. split; [done|by apply Hr].
  - split; [done|]. intros [_ H]. by apply Hr in H.
  - intros e [= <-]. eauto.
Qed.
End Answers.

(** ** Which close handlers run *)

Section OnCloseSpec.
Context {Handler : Type} (map_order : gmap nat Handler → list (nat * Handler)).
Hypothesis map_order_perm : ∀ m, map_order m ≡ₚ map_to_list m.

(** The registrations in their order: the n-th [Add] has the number n. *)
Fixpoint registrations (n : nat) (l : list (nat * Handler)) (ls : list (OcLabel Handler))
    : list (nat * Handler) :=
  match ls with
  | [] => l
  | LAdd f :: ls' => registrations (S n) (l ++ [(n, f)]) ls'
  | LRemove id :: ls' => registrations n (filter (fun p => p.1 ≠ id) l) ls'
  end.

Definition represents (n : nat) (l : list (nat * Handler)) (h : OnCloseHandler Handler) : Prop :=
  nextId h = n ∧ (∀ p, p ∈ l → (p.1 < n)%nat) ∧ map_to_list (handlers h) ≡ₚ l.

Lemma represents_add n l h f : represents n l h → represents (S n) (l ++ [(n, f)]) (Add f h).2.
Proof.
  intros (Hn&Hlt&Hm). subst n.
  assert (Hfresh : handlers h !! nextId h = None).
  { destruct (handlers h !! nextId h) as [g|] eqn:E; [|done]. exfalso.
    assert (Hin : (nextId h, g) ∈ l) by (rewrite <-Hm; by apply elem_of_map_to_list).
    specialize (Hlt _ Hin). simpl in Hlt. lia. }
  split; [done|]. split.
  - intros p [Hp| ->%list_elem_of_singleton]%elem_of_app; [specialize (Hlt _ Hp)|simpl]; lia.
  - simpl. rewrite map_to_list_insert by done. rewrite Hm. by rewrite (Permutation_app_comm l).
Qed.
Lemma represents_remove n l h id :
  represents n l h → represents n (filter (fun p => p.1 ≠ id) l) (Remove id h).
Proof.
  intros (Hn&Hlt&Hm). split; [done|]. split.
  - intros p [_ Hp]%list_elem_of_filter. by apply Hlt.
  - simpl. apply list.NoDup_Permutation.
    + apply NoDup_map_to_list.
    + apply NoDup_filter. rewrite <-Hm. apply NoDup_map_to_list.
    + intros [k g]. rewrite elem_of_map_to_list, list_elem_of_filter, lookup_delete_Some, <-Hm,
        elem_of_map_to_list. simpl. naive_solver.
Qed.

(** When a connection closes, exactly the handlers that were registered and not removed
    are called, each once, whatever the order of registrations and removals was: the
    numbers that [Add] returns are never reused. *)
Theorem on_close_registered ls :
  OnClose map_order (foldl oc_exec NewOnCloseHandler ls) ≡ₚ (registrations 0 [] ls).*2.
Proof.
  assert (H : ∀ n l h, represents n l h → OnClose map_order (foldl oc_exec h ls) ≡ₚ (registrations n l ls).*2).
  { induction ls as [|[f|id] ls IH]; intros n l h Hr; simpl.
    - destruct Hr as (_&_&Hm). unfold OnClose, getHandlers. by rewrite map_order_perm, Hm.
    - apply IH. by apply represents_add.
    - apply IH. by apply represents_remove. }
  apply H. split; [done|]. split; [set_solver|]. simpl. by rewrite map_to_list_empty.
Qed.
End OnCloseSpec.

Lemma on_close_registered_witness :
  OnClose map_to_list (foldl oc_exec NewOnCloseHandler
    [LAdd "a"; LAdd "b"; LRemove 0; LAdd "c"; LRemove 7]) ≡ₚ ["b"; "c"]%string.
Proof. exact (on_close_registered map_to_list (fun m => reflexivity (map_to_list m)) _). Defined.

(** ** Examples *)

#[local] Instance ex_conn : ClientConn := {|
  ConnEnv := unit;
  cc_Post href format body opts e := (Ok (set_body body (set_code codes_Changed NewMessage)), e);
  cc_Get href opts e :=
    (Ok (set_etag (Some "tag") (set_format AppCBOR (set_body href (set_code codes_Content NewMessage)))), e);
  cc_Delete href opts e := (Ok (set_etag (Some "tag") (set_code codes_Deleted NewMessage)), e);
  cc_Observe href opts e := (Ok 0%nat, e) |}.
Definition ex_status (m : Message) (e : error) : error := ErrWrap "status" e.
Definition ex_detailed : Target string := TDetailed {| dr_Code := 0; dr_ETag := None; dr_Body := "old" |}.
Definition ex_codecD : Codec (DetailedResponse string) := {|
  codec_ContentFormat := AppOcfCbor;
  codec_Encode _ := Ok "";
  codec_Decode _ d := (Ok tt, {| dr_Code := 7; dr_ETag := dr_ETag d; dr_Body := "" |}) |}.

Lemma requests_answered_witness :
  (GetResourceWithCodec ex_status "/light" MakeRawVNDOCFCBORCodec ex_detailed [WithDeviceID "d"] tt).1 =
    (Ok tt, TDetailed {| dr_Code := codes_Content; dr_ETag := Some "tag"; dr_Body := "/light" |}) ∧
  let r := GetResourceWithCodec ex_status "/light" MakeRawVNDOCFCBORCodec ex_detailed [WithDeviceID "d"] tt in
  answered ex_status get_ok get_decodes MakeRawVNDOCFCBORCodec
    (set_etag (Some "tag") (set_format AppCBOR (set_body "/light" (set_code codes_Content NewMessage))))
    ex_detailed r.1.1 r.1.2.
Proof.
  split; [reflexivity|].
  exact (proj1 (proj1 (requests_answered ex_status MakeRawVNDOCFCBORCodec MakeRawVNDOCFCBORCodec
    "/light" "" ex_detailed [WithDeviceID "d"] _ tt tt) eq_refl)).
Defined.

Lemma delete_answered_witness :
  let r := DeleteResourceWithCodec ex_status "/light" MakeRawVNDOCFCBORCodec ex_codecD ex_detailed [] tt in
  r.1.2 = TDetailed {| dr_Code := 7; dr_ETag := None; dr_Body := "" |} ∧ r.2 = tt.
Proof.
  split; [reflexivity|].
  exact (proj1 (delete_answered ex_status MakeRawVNDOCFCBORCodec ex_codecD "/light" ex_detailed []
    _ tt tt eq_refl)).
Defined.
