(* ===== verification/CoreObs.v ===== *)
(** * CoreObs: the observations of a device of the client core

    [src/client/core/observeResource.go] with the close handlers of
    [src/pkg/net/coap/client.go]: the table of observations of a device, the handler that
    guards the application's callbacks, and the goroutines that start, stop, notify and
    close observations.

    [exec] is one atomic action of a goroutine; the mutex of a handler is [ob_mutex].  An
    observation is known by its number, which stands for its UUID.  [d_trace] lists the
    events, latest first. *)

From S2P Require Export ClientCoap.

Local Open Scope nat_scope.

(** ** State *)

(** An [observation] with its [observationHandler]; [ob_obs] is the observation of go-coap,
    [None] before [Set]. *)
Record Observation := {
  ob_client : nat;
  ob_onCloseID : nat;
  ob_obs : option nat;
  ob_isClosed : bool;
  ob_mutex : bool }.

Inductive DEvent :=
  | EvHandle (o msg : nat)              (** the application's [Handle] *)
  | EvOnClose (o : nat)                 (** the application's [OnClose] *)
  | EvError (o : nat)                   (** the application's [Error] *)
  | EvCancel (o obs : nat)              (** [obs.Cancel] *)
  | EvObserved (o : nat) (ok : bool)    (** [ObserveResource] returns *)
  | EvStopped (ok : bool).              (** [StopObservingResource] returns *)

(** Where [StopObservingResource] returns to: the application, the close handlers of a
    connection, [closeObservations]. *)
Inductive Cont :=
  | KReturn
  | KOnClose (o : nat) (todo : list nat)
  | KAll (todo : list nat).

Inductive Goroutine :=
  (** [observeResource] after [RegisterCloseHandler], after [client.Observe], after [Set] *)
  | TObserve (o onCloseID : nat)
  | TSet (o onCloseID obs : nat)
  | TStore (o : nat)
  (** [stopObservingResource]: at [Load], at [Delete], in [stop], at the handler, at [Cancel] *)
  | TLoad (o : nat) (byClose : bool) (k : Cont)
  | TDelete (o : nat) (byClose : bool) (k : Cont)
  | TStop (o : nat) (byClose : bool) (k : Cont)
  | TStopHandler (o obs : nat) (byClose : bool) (k : Cont)
  | TCancel (o obs : nat) (k : Cont)
  (** the close handlers of a connection, and their call of [Error] *)
  | TOnClose (todo : list nat)
  | TError (o : nat) (todo : list nat)
  (** [closeObservations] after its [Range] *)
  | TAll (todo : list nat)
  (** [Handle] with the mutex, and the [Close] that follows it *)
  | THandle (o msg : nat) (doClose : bool)
  | TClose (o : nat).

Record DevObs := {
  d_observations : gset nat;                       (** the table of the device *)
  d_objs : gmap nat Observation;
  d_onClose : gmap nat (OnCloseHandler nat);       (** of each connection *)
  d_threads : gmap nat Goroutine;
  d_next : nat;
  d_trace : list DEvent }.

Definition NewDevObs : DevObs :=
  {| d_observations := ∅; d_objs := ∅; d_onClose := ∅; d_threads := ∅; d_next := 0; d_trace := [] |}.

Definition set_table (x : gset nat) (d : DevObs) : DevObs :=
  {| d_observations := x; d_objs := d_objs d; d_onClose := d_onClose d; d_threads := d_threads d;
     d_next := d_next d; d_trace := d_trace d |}.
Definition set_ob (o : nat) (b : Observation) (d : DevObs) : DevObs :=
  {| d_observations := d_observations d; d_objs := <[o := b]> (d_objs d); d_onClose := d_onClose d;
     d_threads := d_threads d; d_next := d_next d; d_trace := d_trace d |}.
Definition set_onClose (c : nat) (h : OnCloseHandler nat) (d : DevObs) : DevObs :=
  {| d_observations := d_observations d; d_objs := d_objs d; d_onClose := <[c := h]> (d_onClose d);
     d_threads := d_threads d; d_next := d_next d; d_trace := d_trace d |}.
Definition go (t : nat) (th : option Goroutine) (d : DevObs) : DevObs :=
  {| d_observations := d_observations d; d_objs := d_objs d; d_onClose := d_onClose d;
     d_threads := partial_alter (fun _ => th) t (d_threads d); d_next := d_next d; d_trace := d_trace d |}.
Definition tick (d : DevObs) : DevObs :=
  {| d_observations := d_observations d; d_objs := d_objs d; d_onClose := d_onClose d;
     d_threads := d_threads d; d_next := S (d_next d); d_trace := d_trace d |}.
Definition demit (ev : DEvent) (d : DevObs) : DevObs :=
  {| d_observations := d_observations d; d_objs := d_objs d; d_onClose := d_onClose d;
     d_threads := d_threads d; d_next := d_next d; d_trace := ev :: d_trace d |}.

Definition ob_set (closed mutex : bool) (b : Observation) : Observation :=
  {| ob_client := ob_client b; ob_onCloseID := ob_onCloseID b; ob_obs := ob_obs b;
     ob_isClosed := closed; ob_mutex := mutex |}.

(** The close handlers of a connection ([client.onClose]). *)
Definition onClose_of (c : nat) (d : DevObs) : OnCloseHandler nat :=
  default NewOnCloseHandler (d_onClose d !! c).
Definition RegisterCloseHandler (c o : nat) (d : DevObs) : nat * DevObs :=
  let (id, h) := Add o (onClose_of c d) in (id, set_onClose c h d).
Definition UnregisterCloseHandler (c id : nat) (d : DevObs) : DevObs :=
  set_onClose c (Remove id (onClose_of c d)) d.

(** ** The handler of an observation *)

(** [OnClose] (and [Close]) and [Error]: they wait for the mutex, and do nothing once the
    handler is closed. *)
Definition handler_end (o : nat) (ev : DEvent) (d : DevObs) : option DevObs :=
  b ← d_objs d !! o;
  if ob_mutex b then None
  else if ob_isClosed b then Some d
  else Some (demit ev (set_ob o (ob_set true false b) d)).
(** [disableHandlers] does not take the mutex. *)
Definition disableHandlers (o : nat) (d : DevObs) : option DevObs :=
  b ← d_objs d !! o; Some (set_ob o (ob_set true (ob_mutex b) b) d).
(** [Handle] up to the call of the application. *)
Definition handle_begin (o msg : nat) (doClose : bool) (d : DevObs) : option DevObs :=
  b ← d_objs d !! o;
  if ob_mutex b then None
  else if ob_isClosed b
  then Some (if doClose then tick (go (d_next d) (Some (TClose o)) d) else d)
  else Some (tick (go (d_next d) (Some (THandle o msg doClose)) (set_ob o (ob_set false true b) d))).
Definition handle_call (t o msg : nat) (doClose : bool) (d : DevObs) : option DevObs :=
  b ← d_objs d !! o;
  Some (demit (EvHandle o msg)
    (go t (if doClose then Some (TClose o) else None) (set_ob o (ob_set (ob_isClosed b) false b) d))).

(** ** Starting an observation on a connection *)

Definition observe_begin (c : nat) (d : DevObs) : DevObs :=
  let o := d_next d in
  let (id, d) := RegisterCloseHandler c o d in
  tick (go o (Some (TObserve o id))
    (set_ob o {| ob_client := c; ob_onCloseID := 0; ob_obs := None; ob_isClosed := false;
                 ob_mutex := false |} d)).
(** The answer of [client.Observe]. *)
Definition observe_answer (t o id : nat) (res : option nat) (d : DevObs) : option DevObs :=
  b ← d_objs d !! o;
  match res with
  | None => Some (demit (EvObserved o false) (go t None (UnregisterCloseHandler (ob_client b) id d)))
  | Some obs => Some (go t (Some (TSet o id obs)) d)
  end.
Definition observe_set (t o id obs : nat) (d : DevObs) : option DevObs :=
  b ← d_objs d !! o;
  Some (go t (Some (TStore o))
    (set_ob o {| ob_client := ob_client b; ob_onCloseID := id; ob_obs := Some obs;
                 ob_isClosed := ob_isClosed b; ob_mutex := ob_mutex b |} d)).
Definition observe_store (t o : nat) (d : DevObs) : DevObs :=
  demit (EvObserved o true) (go t None (set_table ({[o]} ∪ d_observations d) d)).

(** ** Stopping *)

(** [stopObservingResource] returns; [err]: with an error. *)
Definition resume (t : nat) (k : Cont) (ok err : bool) (d : DevObs) : DevObs :=
  match k with
  | KReturn => demit (EvStopped ok) (go t None d)
  | KOnClose o todo => go t (Some (if err then TError o todo else TOnClose todo)) d
  | KAll todo => go t (Some (TAll todo)) d
  end.
Definition stop_load (t o : nat) (byClose : bool) (k : Cont) (d : DevObs) : DevObs :=
  if bool_decide (o ∈ d_observations d) then go t (Some (TDelete o byClose k)) d
  else resume t k false false d.
Definition stop_delete (t o : nat) (byClose : bool) (k : Cont) (d : DevObs) : DevObs :=
  go t (Some (TStop o byClose k)) (set_table (d_observations d ∖ {[o]}) d).
Definition stop_run (t o : nat) (byClose : bool) (k : Cont) (d : DevObs) : option DevObs :=
  b ← d_objs d !! o;
  let d := UnregisterCloseHandler (ob_client b) (ob_onCloseID b) d in
  Some match ob_obs b with
       | Some obs => go t (Some (TStopHandler o obs byClose k)) d
       | None => resume t k true false d
       end.
Definition stop_handler (t o obs : nat) (byClose : bool) (k : Cont) (d : DevObs) : option DevObs :=
  go t (Some (TCancel o obs k)) <$>
    (if byClose then handler_end o (EvOnClose o) d else disableHandlers o d).
Definition stop_cancel (t o obs : nat) (k : Cont) (ok : bool) (d : DevObs) : DevObs :=
  resume t k ok (negb ok) (demit (EvCancel o obs) d).

(** ** Closing *)

(** The close handlers registered on the connection, in the order of the iteration. *)
Definition conn_closed (c : nat) (order : list nat) (d : DevObs) : option DevObs :=
  if bool_decide (order ≡ₚ (map_to_list (handlers (onClose_of c d))).*2)
  then Some (tick (go (d_next d) (Some (TOnClose order)) d)) else None.
(** The function given to [Range] returns false: the iteration ends after one entry. *)
Definition closeObservations (first : option nat) (d : DevObs) : option DevObs :=
  if match first with
     | Some o => bool_decide (o ∈ d_observations d)
     | None => bool_decide (d_observations d = ∅)
     end
  then Some (tick (go (d_next d) (Some (TAll (match first with Some o => [o] | None => [] end))) d))
  else None.

(** ** Actions *)

Inductive DArg := AGo | AObserve (res : option nat) | ACancel (ok : bool).
Inductive DLabel :=
  | LObserve (c : nat)
  | LStop (o : nat)
  | LCloseDevice (first : option nat)
  | LConnClosed (c : nat) (order : list nat)
  | LNotify (o msg : nat) (doClose : bool)
  | LGo (t : nat) (a : DArg).

Definition exec_go (t : nat) (th : Goroutine) (a : DArg) (d : DevObs) : option DevObs :=
  match th, a with
  | TObserve o id, AObserve res => observe_answer t o id res d
  | TSet o id obs, AGo => observe_set t o id obs d
  | TStore o, AGo => Some (observe_store t o d)
  | TLoad o byClose k, AGo => Some (stop_load t o byClose k d)
  | TDelete o byClose k, AGo => Some (stop_delete t o byClose k d)
  | TStop o byClose k, AGo => stop_run t o byClose k d
  | TStopHandler o obs byClose k, AGo => stop_handler t o obs byClose k d
  | TCancel o obs k, ACancel ok => Some (stop_cancel t o obs k ok d)
  | TOnClose [], AGo | TAll [], AGo => Some (go t None d)
  | TOnClose (o :: todo), AGo =>
      go t (Some (TLoad o false (KOnClose o todo))) <$> handler_end o (EvOnClose o) d
  | TError o todo, AGo => go t (Some (TOnClose todo)) <$> handler_end o (EvError o) d
  | TAll (o :: todo), AGo => Some (go t (Some (TLoad o true (KAll todo))) d)
  | THandle o msg doClose, AGo => handle_call t o msg doClose d
  | TClose o, AGo => go t None <$> handler_end o (EvOnClose o) d
  | _, _ => None
  end.

Definition exec (d : DevObs) (l : DLabel) : option DevObs :=
  match l with
  | LObserve c => Some (observe_begin c d)
  | LStop o => Some (tick (go (d_next d) (Some (TLoad o false KReturn)) d))
  | LCloseDevice first => closeObservations first d
  | LConnClosed c order => conn_closed c order d
  | LNotify o msg doClose => handle_begin o msg doClose d
  | LGo t a => th ← d_threads d !! t; exec_go t th a d
  end.
Definition step (d : DevObs) (l : DLabel) (d' : DevObs) : Prop := exec d l = Some d'.


(** ** The callbacks of the application *)

(** [OnClose] and [Error] end the life of an observation. *)
Definition terminal (o : nat) (ev : DEvent) : bool :=
  match ev with EvOnClose o' | EvError o' => bool_decide (o' = o) | _ => false end.
Definition callback (o : nat) (ev : DEvent) : bool :=
  match ev with EvHandle o' _ | EvOnClose o' | EvError o' => bool_decide (o' = o) | _ => false end.
Definition ended (o : nat) (tr : list DEvent) : Prop := Exists (fun ev => terminal o ev = true) tr.

(** Latest first: a callback is never preceded by an end. *)
Fixpoint well_ended (tr : list DEvent) : Prop :=
  match tr with
  | [] => True
  | ev :: tr' => (∀ o, callback o ev = true → ¬ ended o tr') ∧ well_ended tr'
  end.

Record Inv (d : DevObs) : Prop := {
  inv_well : well_ended (d_trace d);
  inv_ended : ∀ o, ended o (d_trace d) → ∃ b, d_objs d !! o = Some b ∧ ob_isClosed b = true;
  inv_obj : ∀ o b, d_objs d !! o = Some b → o < d_next d;
  inv_thread : ∀ t th, d_threads d !! t = Some th → t < d_next d;
  inv_handle : ∀ t o m c, d_threads d !! t = Some (THandle o m c) →
                 ¬ ended o (d_trace d) ∧ ∃ b, d_objs d !! o = Some b ∧ ob_mutex b = true;
  inv_one : ∀ t1 t2 o m1 c1 m2 c2, d_threads d !! t1 = Some (THandle o m1 c1) →
                 d_threads d !! t2 = Some (THandle o m2 c2) → t1 = t2 }.

Definition quiet_go (th : option Goroutine) : Prop :=
  match th with Some (THandle _ _ _) => False | _ => True end.

Lemma Inv_go t th d : Inv d → t < d_next d → quiet_go th → Inv (go t th d).
Proof.
  intros [] Ht Hq.
  assert (Hl : ∀ t' u, d_threads (go t th d) !! t' = Some u →
            (t' = t ∧ th = Some u) ∨ d_threads d !! t' = Some u).
  { intros t' u. simpl. destruct (decide (t = t')) as [<-|].
    - rewrite lookup_partial_alter_eq. by left.
    - rewrite lookup_partial_alter_ne; eauto. }
  constructor; try done.
  - intros t' u [[-> _]|Hu]%Hl; [done|by eauto].
  - intros t' o m c [[_ ->]|Hu]%Hl; [done|by eauto].
  - intros t1 t2 o m1 c1 m2 c2 [[_ E1]|Hu1]%Hl [[_ E2]|Hu2]%Hl; [by subst th..|by eauto].
Qed.
Lemma Inv_tick d : Inv d → Inv (tick d).
Proof.
  intros []. constructor; try done.
  - intros o b Hb. specialize (inv_obj0 o b Hb). simpl. lia.
  - intros t th Ht. specialize (inv_thread0 t th Ht). simpl. lia.
Qed.
(** A new goroutine. *)
Lemma Inv_go_new th d : Inv d → quiet_go (Some th) → Inv (tick (go (d_next d) (Some th) d)).
Proof. intros HI Hq. apply (Inv_go (d_next d) (Some th) (tick d)); [by apply Inv_tick|simpl; lia|done]. Qed.
Lemma Inv_set_table x d : Inv d → Inv (set_table x d).
Proof. by intros []. Qed.
Lemma Inv_set_onClose c h d : Inv d → Inv (set_onClose c h d).
Proof. by intros []. Qed.
Lemma Inv_Unregister c id d : Inv d → Inv (UnregisterCloseHandler c id d).
Proof. apply Inv_set_onClose. Qed.

Lemma ended_cons o ev tr : ended o (ev :: tr) ↔ terminal o ev = true ∨ ended o tr.
Proof. apply Exists_cons. Qed.
Lemma terminal_callback o ev : terminal o ev = true → callback o ev = true.
Proof. by destruct ev. Qed.
Lemma Inv_demit ev d : Inv d → (∀ o, callback o ev = false) → Inv (demit ev d).
Proof.
  intros [] He.
  assert (Hx : ∀ o, ended o (ev :: d_trace d) ↔ ended o (d_trace d)).
  { intros o. rewrite ended_cons. split; [|by right]. intros [Ht|]; [|done].
    apply terminal_callback in Ht. by rewrite He in Ht. }
  constructor; try done.
  - simpl. split; [|done]. intros o Ho. by rewrite He in Ho.
  - intros o. simpl. rewrite Hx. by apply inv_ended0.
  - intros t o m c Ht. simpl. rewrite Hx. by eapply inv_handle0.
Qed.

Lemma Inv_set_ob o b b' d :
  Inv d → d_objs d !! o = Some b → (ob_isClosed b = true → ob_isClosed b' = true) →
  (ob_mutex b = true → ob_mutex b' = true) → Inv (set_ob o b' d).
Proof.
  intros [] Hb Hc Hm. constructor; try done.
  - intros o' Ho'. destruct (inv_ended0 o' Ho') as (b0&H0&H1). simpl.
    destruct (decide (o = o')) as [<-|]; [|rewrite lookup_insert_ne by done; eauto].
    rewrite lookup_insert_eq. rewrite Hb in H0. injection H0 as <-. eauto.
  - intros o' b0. simpl. intros [[<- <-]|[_ H0]]%lookup_insert_Some; by eauto.
  - intros t o' m c Ht. destruct (inv_handle0 t o' m c Ht) as (He&b0&H0&H1). split; [done|]. simpl.
    destruct (decide (o = o')) as [<-|]; [|rewrite lookup_insert_ne by done; eauto].
    rewrite lookup_insert_eq. rewrite Hb in H0. injection H0 as <-. eauto.
Qed.

(** The end of an observation is announced once. *)
Lemma ob_Inv_handler_end o ev d d' :
  Inv d → (∀ o', callback o' ev = bool_decide (o = o')) → (∀ o', terminal o' ev = bool_decide (o = o')) →
  handler_end o ev d = Some d' → Inv d'.
Proof.
  intros HI Hcb Hterm. unfold handler_end. destruct (d_objs d !! o) as [b|] eqn:Hb; [|done]. simpl.
  destruct (ob_mutex b) eqn:Hm; [done|]. destruct (ob_isClosed b) eqn:Hcl; [by intros [= <-]|].
  intros [= <-].
  assert (Hne : ¬ ended o (d_trace d)).
  { intros He. destruct (inv_ended _ HI o He) as (b0&H0&H1). rewrite Hb in H0. injection H0 as <-.
    by rewrite Hcl in H1. }
  assert (HI1 : Inv (set_ob o (ob_set true false b) d)).
  { eapply Inv_set_ob; try done. by rewrite Hm. }
  assert (Hnh : ∀ t m c, d_threads d !! t ≠ Some (THandle o m c)).
  { intros t m c Ht. destruct (inv_handle _ HI _ _ _ _ Ht) as (_&b0&H0&H1). rewrite Hb in H0.
    injection H0 as <-. by rewrite Hm in H1. }
  destruct HI1. constructor; try done.
  - simpl. split; [|done]. intros o'. rewrite Hcb. by intros <-%bool_decide_eq_true.
  - intros o'. simpl. rewrite ended_cons, Hterm. intros [<-%bool_decide_eq_true|He].
    + rewrite lookup_insert_eq. eauto.
    + by apply inv_ended0.
  - intros t o' m c Ht. simpl. rewrite ended_cons, Hterm.
    destruct (inv_handle0 t o' m c Ht) as [He Hx]. split; [|done].
    intros [<-%bool_decide_eq_true|]; [by eapply Hnh|done].
Qed.

Lemma Inv_handle_begin o msg doClose d d' : Inv d → handle_begin o msg doClose d = Some d' → Inv d'.
Proof.
  intros HI. unfold handle_begin. destruct (d_objs d !! o) as [b|] eqn:Hb; [|done]. simpl.
  destruct (ob_mutex b) eqn:Hm; [done|]. destruct (ob_isClosed b) eqn:Hcl.
  { intros [= <-]. destruct doClose; [by apply Inv_go_new|done]. }
  intros [= <-].
  assert (Hne : ¬ ended o (d_trace d)).
  { intros He. destruct (inv_ended _ HI o He) as (b0&H0&H1). rewrite Hb in H0. injection H0 as <-.
    by rewrite Hcl in H1. }
  assert (Hnh : ∀ t m c, d_threads d !! t ≠ Some (THandle o m c)).
  { intros t m c Ht. destruct (inv_handle _ HI _ _ _ _ Ht) as (_&b0&H0&H1). rewrite Hb in H0.
    injection H0 as <-. by rewrite Hm in H1. }
  assert (HI1 : Inv (tick (set_ob o (ob_set false true b) d))).
  { apply Inv_tick. eapply Inv_set_ob; try done. by rewrite Hcl. }
  destruct HI1.
  assert (Hl : ∀ t' u, partial_alter (fun _ => Some (THandle o msg doClose)) (d_next d) (d_threads d) !! t'
            = Some u → (t' = d_next d ∧ u = THandle o msg doClose) ∨ d_threads d !! t' = Some u).
  { intros t' u. destruct (decide (d_next d = t')) as [<-|].
    - rewrite lookup_partial_alter_eq. intros [= <-]. by left.
    - rewrite lookup_partial_alter_ne; eauto. }
  constructor; try done.
  - intros t' u [[-> ->]|Hu]%Hl; [simpl; lia|by eauto].
  - intros t' o' m c [[-> [= -> -> ->]]|Hu]%Hl; [|by eauto]. split; [done|]. simpl.
    rewrite lookup_insert_eq. eauto.
  - intros t1 t2 o' m1 c1 m2 c2 [[-> [= -> -> ->]]|Hu1]%Hl [[-> E2]|Hu2]%Hl; try done.
    + exfalso. by eapply Hnh.
    + injection E2 as -> -> ->. exfalso. by eapply Hnh.
    + by eapply inv_one0.
Qed.

Lemma Inv_handle_call t o msg doClose d d' :
  Inv d → d_threads d !! t = Some (THandle o msg doClose) → handle_call t o msg doClose d = Some d' → Inv d'.
Proof.
  intros HI Ht. unfold handle_call. destruct (inv_handle _ HI _ _ _ _ Ht) as (Hne&b&Hb&Hm).
  rewrite Hb. simpl. intros [= <-]. set (th := if doClose then Some (TClose o) else None).
  assert (Hq : quiet_go th) by (by destruct doClose).
  assert (HI1 : Inv (go t th d)) by (apply Inv_go; [done|by eapply inv_thread|done]).
  assert (Hnh : ∀ t' m c, d_threads (go t th d) !! t' ≠ Some (THandle o m c)).
  { intros t' m c. simpl. destruct (decide (t = t')) as [<-|Hn].
    - rewrite lookup_partial_alter_eq. intros E. by rewrite E in Hq.
    - rewrite lookup_partial_alter_ne by done. intros Ht'. apply Hn. exact (inv_one _ HI _ _ _ _ _ _ _ Ht Ht'). }
  destruct HI1. constructor; try done.
  - simpl. split; [|done]. intros o'. simpl. by intros <-%bool_decide_eq_true.
  - intros o'. simpl. rewrite ended_cons. intros [|He]; [done|].
    destruct (inv_ended0 o' He) as (b0&H0&H1). simpl in H0. destruct (decide (o = o')) as [<-|].
    + rewrite lookup_insert_eq. rewrite Hb in H0. injection H0 as <-. eauto.
    + rewrite lookup_insert_ne by done. eauto.
  - intros o' b0. simpl. intros [[<- <-]|[_ H0]]%lookup_insert_Some;
      [exact (inv_obj0 _ _ Hb)|exact (inv_obj0 _ _ H0)].
  - intros t' o' m c Ht'. simpl. rewrite ended_cons. destruct (inv_handle0 t' o' m c Ht') as (He&b0&H0&H1).
    split; [by intros [|]|]. destruct (decide (o = o')) as [<-|]; [by destruct (Hnh t' m c)|].
    rewrite lookup_insert_ne by done. eauto.
Qed.

(** ** The actions preserve the invariant *)

Lemma Inv_handler_end_go t th o ev d d1 :
  Inv d → t < d_next d → quiet_go th →
  (ev = EvOnClose o ∨ ev = EvError o) → handler_end o ev d = Some d1 → Inv (go t th d1).
Proof.
  intros HI Ht Hq Hev Hd. assert (HI1 : Inv d1).
  { eapply ob_Inv_handler_end; [done| | |exact Hd]; intros o'; by destruct Hev as [-> | ->]. }
  apply Inv_go; [done| |done]. revert Hd. unfold handler_end.
  destruct (d_objs d !! o) as [b|]; [|done]. simpl.
  destruct (ob_mutex b); [done|]. by destruct (ob_isClosed b); intros [= <-].
Qed.

Lemma Inv_resume t k ok err d : Inv d → t < d_next d → Inv (resume t k ok err d).
Proof.
  intros HI Ht. destruct k; simpl; [apply Inv_demit; [|done]| |]; apply Inv_go; try done. by destruct err.
Qed.

Lemma ob_Inv_observe_begin c d : Inv d → Inv (observe_begin c d).
Proof.
  intros HI. unfold observe_begin. destruct (RegisterCloseHandler c (d_next d) d) as [id d0] eqn:E.
  unfold RegisterCloseHandler in E. simpl in E. injection E as <- <-.
  apply (Inv_go (d_next d) (Some (TObserve (d_next d) (nextId (onClose_of c d))))
           (tick (set_ob (d_next d) _ (set_onClose c _ d)))); [|simpl; lia|done].
  assert (Hf : d_objs d !! d_next d = None).
  { destruct (d_objs d !! d_next d) as [b|] eqn:Hb; [|done]. pose proof (inv_obj _ HI _ _ Hb). lia. }
  destruct HI. constructor; try done.
  - intros o Ho. destruct (inv_ended0 o Ho) as (b&H0&H1). exists b. split; [|done]. simpl.
    rewrite lookup_insert_ne; [done|]. intros <-. by rewrite Hf in H0.
  - intros o b. simpl. intros [[<- <-]|[_ H0]]%lookup_insert_Some; [lia|]. specialize (inv_obj0 o b H0). lia.
  - intros t th Ht. specialize (inv_thread0 t th Ht). simpl. lia.
  - intros t o m c' Ht. destruct (inv_handle0 t o m c' Ht) as (He&b&H0&H1). split; [done|]. exists b.
    split; [|done]. simpl. rewrite lookup_insert_ne; [done|]. intros <-. by rewrite Hf in H0.
Qed.

Lemma Inv_exec_go t th a d d' :
  Inv d → d_threads d !! t = Some th → exec_go t th a d = Some d' → Inv d'.
Proof.
  intros HI Ht. pose proof (inv_thread _ HI _ _ Ht) as Hlt.
  destruct th as [o id|o id obs|o|o bc k|o bc k|o bc k|o obs bc k|o obs k|todo|o todo|todo|o m c|o], a;
    simpl; try done; try (by destruct todo).
  - unfold observe_answer. destruct (d_objs d !! o) as [b|] eqn:Hb; [|done]. simpl.
    destruct res; intros [= <-]; [by apply Inv_go|].
    apply Inv_demit; [|done]. apply Inv_go; [by apply Inv_Unregister|done|done].
  - unfold observe_set. destruct (d_objs d !! o) as [b|] eqn:Hb; [|done]. simpl. intros [= <-].
    apply Inv_go; [|done|done]. by eapply Inv_set_ob.
  - intros [= <-]. apply Inv_demit; [|done]. apply Inv_go; [by apply Inv_set_table|done|done].
  - unfold stop_load. case_bool_decide; intros [= <-]; [by apply Inv_go|by apply Inv_resume].
  - intros [= <-]. apply Inv_go; [by apply Inv_set_table|done|done].
  - unfold stop_run. destruct (d_objs d !! o) as [b|] eqn:Hb; [|done]. simpl. intros [= <-].
    destruct (ob_obs b); [apply Inv_go|apply Inv_resume]; try done; by apply Inv_Unregister.
  - unfold stop_handler. destruct bc.
    + destruct (handler_end o (EvOnClose o) d) as [d1|] eqn:E; [|done]. simpl. intros [= <-].
      eapply Inv_handler_end_go; [exact HI|done|done|by left|exact E].
    + unfold disableHandlers. destruct (d_objs d !! o) as [b|] eqn:Hb; [|done]. simpl. intros [= <-].
      apply Inv_go; [|done|done]. by eapply Inv_set_ob.
  - intros [= <-]. apply Inv_resume; [by apply Inv_demit|done].
  - destruct todo as [|o todo]; [intros [= <-]; by apply Inv_go|].
    destruct (handler_end o (EvOnClose o) d) as [d1|] eqn:E; [|done]. simpl. intros [= <-].
    eapply Inv_handler_end_go; [exact HI|done|done|by left|exact E].
  - destruct (handler_end o (EvError o) d) as [d1|] eqn:E; [|done]. simpl. intros [= <-].
    eapply Inv_handler_end_go; [exact HI|done|done|by right|exact E].
  - destruct todo as [|o todo]; intros [= <-]; by apply Inv_go.
  - by apply Inv_handle_call.
  - destruct (handler_end o (EvOnClose o) d) as [d1|] eqn:E; [|done]. simpl. intros [= <-].
    eapply Inv_handler_end_go; [exact HI|done|done|by left|exact E].
Qed.

Lemma ob_Inv_exec l d d' : Inv d → exec d l = Some d' → Inv d'.
Proof.
  intros HI. destruct l as [c|o|first|c order|o m dc|t a]; simpl.
  - intros [= <-]. by apply ob_Inv_observe_begin.
  - intros [= <-]. by apply Inv_go_new.
  - unfold closeObservations. destruct (match first with Some _ => _ | None => _ end); [|done].
    intros [= <-]. by apply Inv_go_new.
  - unfold conn_closed. case_bool_decide; [|done]. intros [= <-]. by apply Inv_go_new.
  - by apply Inv_handle_begin.
  - destruct (d_threads d !! t) as [th|] eqn:Ht; [|done]. simpl. by apply Inv_exec_go.
Qed.
Lemma ob_Inv_runs ls d : runs step NewDevObs ls d → Inv d.
Proof.
  intros Hr. eapply runs_invariant; [|exact Hr|].
  - intros d1 l d2 HI. by apply ob_Inv_exec.
  - constructor; try done. intros o He. by apply Exists_nil in He.
Qed.

(** ** Theorems *)

(** C12 An observation ends once and for all: after [OnClose] or [Error] of an observation no
    callback of it is called again, however the goroutines that notify, stop and close
    observations and connections interleave.  ([tr1] is what follows the end.) *)
Theorem observation_ends_once ls d tr1 ev tr2 o :
  runs step NewDevObs ls d → d_trace d = tr1 ++ ev :: tr2 → terminal o ev = true →
  Forall (fun ev' => callback o ev' = false) tr1.
Proof.
  intros HI%ob_Inv_runs Htr Hev. pose proof (inv_well _ HI) as Hw. rewrite Htr in Hw. clear Htr.
  induction tr1 as [|ev' tr1 IH]; [done|]. simpl in Hw. destruct Hw as [Hc Hw].
  constructor; [|by apply IH]. destruct (callback o ev') eqn:E; [|done]. exfalso.
  apply (Hc o E). apply Exists_app. right. by left.
Qed.

Definition ex_observe (t : nat) : list DLabel :=
  [LObserve 5; LGo t (AObserve (Some 70)); LGo t AGo; LGo t AGo].
Definition ex_ended : list DLabel :=
  ex_observe 0 ++ [LNotify 0 9 false; LGo 1 AGo; LConnClosed 5 [0]; LGo 2 AGo; LNotify 0 10 false].

Lemma observation_ends_once_witness :
  ∃ d, runs step NewDevObs ex_ended d ∧ d_trace d = [] ++ EvOnClose 0 :: [EvHandle 0 9; EvObserved 0 true] ∧
       Forall (fun ev' => callback 0 ev' = false) [].
Proof.
  destruct (execs exec NewDevObs ex_ended) as [d|] eqn:E; [|by vm_compute in E].
  assert (Hd : d_trace <$> execs exec NewDevObs ex_ended = Some [EvOnClose 0; EvHandle 0 9; EvObserved 0 true])
    by (vm_compute; reflexivity).
  rewrite E in Hd. injection Hd as Hd. pose proof (execs_runs _ _ _ _ E) as Hr. clear E.
  exists d. split; [exact Hr|]. split; [exact Hd|].
  exact (observation_ends_once ex_ended d [] (EvOnClose 0) _ 0 Hr Hd eq_refl).
Defined.

(** [closeObservations] ends one observation: the function given to [Range] returns
    false, so with two observations the closing of the device leaves one in the table, with
    callbacks that are still enabled and were not told. *)
Theorem close_leaves_observation :
  ∃ d b, runs step NewDevObs
      (ex_observe 0 ++ ex_observe 1 ++
       [LCloseDevice (Some 0); LGo 2 AGo; LGo 2 AGo; LGo 2 AGo; LGo 2 AGo; LGo 2 AGo;
        LGo 2 (ACancel true); LGo 2 AGo]) d ∧
    d_threads d = ∅ ∧ d_observations d = {[1]} ∧ d_objs d !! 1 = Some b ∧ ob_isClosed b = false ∧
    d_trace d = [EvCancel 0 70; EvOnClose 0; EvObserved 1 true; EvObserved 0 true].
Proof.
  eexists _, _. split; [apply execs_runs; vm_compute; reflexivity|].
  repeat (split; [reflexivity|]). reflexivity.
Qed.

(** A connection that closes while [ObserveResource] has its answer but has not stored
    the observation: the application is told of the end, then [ObserveResource] reports
    success, and the dead observation stays in the table of the device. *)
Theorem closed_connection_leaks :
  ∃ d b, runs step NewDevObs
      [LObserve 5; LGo 0 (AObserve (Some 70)); LConnClosed 5 [0]; LGo 1 AGo; LGo 1 AGo; LGo 1 AGo;
       LGo 0 AGo; LGo 0 AGo] d ∧
    d_threads d = ∅ ∧ d_observations d = {[0]} ∧ d_objs d !! 0 = Some b ∧ ob_isClosed b = true ∧
    d_trace d = [EvObserved 0 true; EvOnClose 0].
Proof.
  eexists _, _. split; [apply execs_runs; vm_compute; reflexivity|].
  repeat (split; [reflexivity|]). reflexivity.
Qed.
