(* ===== verification/Discovery.v ===== *)
(** * Discovery: finding devices by multicast and by address

    [src/client/core/discover.go], [discoverDevices.go], [discoverDeviceCodec.go],
    [discoverDeviceOwnership.go], [getDevice.go], [getDevices.go] and the description of a
    device in [device.go]: the addresses a request is sent to, the treatment of the answers,
    and the handlers that collect them.

    A discovery is a [Multicast]: whether the sockets could be opened, and the list of what
    they delivered until the context ended.  The goroutines of [Discover] are a machine of
    their own. *)

From S2P Require Export CoreDevice ClientCoap.
From S2P Require BridgeNet.

Definition device_ResourceType : string := "oic.wk.d".
Definition device_ResourceURI : string := "/oic/d".
Definition resources_ResourceURI : string := "/oic/res".
Definition doxm_ResourceURI : string := "/oic/sec/doxm".
Definition MakeNotFound : error → error := MakeSdkError NotFound.

(** ** What is known of a device ([device.go]) *)

Record Found := {
  fd_deviceID : string;
  fd_deviceTypes : list string;
  fd_endpoints : Endpoints;             (** what [getEndpoints] returns *)
  fd_foundByIP : string }.
#[export] Instance Found_eq_dec : EqDecision Found.
Proof. solve_decision. Defined.

Definition NewDevice (deviceID : string) (deviceTypes : list string) (endpoints : Endpoints) : Found :=
  {| fd_deviceID := deviceID; fd_deviceTypes := deviceTypes; fd_endpoints := endpoints;
     fd_foundByIP := "" |}.
Definition setFoundByIP (ip : string) (d : Found) : Found :=
  {| fd_deviceID := fd_deviceID d; fd_deviceTypes := fd_deviceTypes d;
     fd_endpoints := fd_endpoints d; fd_foundByIP := ip |}.
Definition SetEndpoints (eps : Endpoints) (d : Found) : Found :=
  {| fd_deviceID := fd_deviceID d; fd_deviceTypes := fd_deviceTypes d;
     fd_endpoints := eps; fd_foundByIP := fd_foundByIP d |}.
Definition SetDeviceID (id : string) (d : Found) : Found :=
  {| fd_deviceID := id; fd_deviceTypes := fd_deviceTypes d;
     fd_endpoints := fd_endpoints d; fd_foundByIP := fd_foundByIP d |}.
(** The address a device was found by is only overwritten by another one. *)
Definition UpdateBy (d v : Found) : Found :=
  {| fd_deviceID := fd_deviceID v; fd_deviceTypes := fd_deviceTypes v;
     fd_endpoints := fd_endpoints v;
     fd_foundByIP := if bool_decide (fd_foundByIP v = "") then fd_foundByIP d else fd_foundByIP v |}.

(** ** Addresses *)

Definition DiscoveryAddressUDP4Local : string := "224.0.1.187:5683".
Definition DiscoveryAddressUDP6LinkLocal : string := "[ff02::158]:5683".
Definition DiscoveryAddressUDP6RealmLocal : string := "[ff03::158]:5683".
Definition DiscoveryAddressUDP6SiteLocal : string := "[ff05::158]:5683".
Definition DiscoveryAddressUDP4 : list string := [DiscoveryAddressUDP4Local].
Definition DiscoveryAddressUDP6 : list string :=
  [DiscoveryAddressUDP6LinkLocal; DiscoveryAddressUDP6RealmLocal; DiscoveryAddressUDP6SiteLocal].

Record DiscoveryConfiguration := {
  MulticastHopLimit : Z;
  MulticastAddressUDP4 : list string;
  MulticastAddressUDP6 : list string }.
Definition DefaultDiscoveryConfiguration : DiscoveryConfiguration :=
  {| MulticastHopLimit := 0; MulticastAddressUDP4 := DiscoveryAddressUDP4;
     MulticastAddressUDP6 := DiscoveryAddressUDP6 |}.

Definition defaultHopLimit : gmap string Z :=
  {[ DiscoveryAddressUDP4Local := 1; DiscoveryAddressUDP6LinkLocal := 1;
     DiscoveryAddressUDP6RealmLocal := 255; DiscoveryAddressUDP6SiteLocal := 255 ]}.
Definition getHopLimit (addr : string) (desiredHopLimit : Z) : Z :=
  if 0 <? desiredHopLimit then desiredHopLimit else default 1 (defaultHopLimit !! addr).

(** The address of a request and whether it is an IPv4 one. *)
Definition split_or_default (ip : string) : result (string * string) :=
  match BridgeNet.SplitHostPort ip with
  | Ok hp => Ok hp
  | Err _ => BridgeNet.SplitHostPort (ip +:+ ":5683")
  end.
Definition getAddress (ip : string) : result (string * bool) :=
  if contains_char "." ip
  then '(host, port) ← split_or_default ip; Ok (host +:+ ":" +:+ port, true)
  else
    let ip := if contains_char "[" ip then ip else "[" +:+ ip +:+ "]:5683" in
    '(host, port) ← split_or_default ip; Ok ("[" +:+ host +:+ "]:" +:+ port, false).

(** A socket that was opened: network, address, message ID and hop limit. *)
Record DiscoveryClient := {
  dc_network : string; dc_mcastaddr : string; dc_msgID : Z; dc_hopLimit : Z }.

Definition udp4_msgID (mid : Z) : Z := u16 mid.
(** [msgIDudp4 + ^uint16(0)/2] *)
Definition udp6_msgID (mid : Z) : Z := u16 (udp4_msgID mid + 32767).

(** [DialDiscoveryAddresses] with a deadline: an address whose socket cannot be opened is
    reported and left out. *)
Definition dial_addresses (opens : string → string → bool) (network : string) (msgID hop : Z)
    (addrs : list string) : list DiscoveryClient :=
  (fun a => {| dc_network := network; dc_mcastaddr := a; dc_msgID := msgID;
               dc_hopLimit := getHopLimit a hop |}) <$> List.filter (opens network) addrs.
Definition DialDiscoveryAddresses (deadline : bool) (mid : Z) (opens : string → string → bool)
    (cfg : DiscoveryConfiguration) : result (list DiscoveryClient) :=
  if negb deadline then Err (ErrText "context has not set deadline")
  else Ok (dial_addresses opens "udp4" (udp4_msgID mid) (MulticastHopLimit cfg) (MulticastAddressUDP4 cfg) ++
           dial_addresses opens "udp6" (udp6_msgID mid) (MulticastHopLimit cfg) (MulticastAddressUDP6 cfg)).

(** ** Answers *)

Record deviceLink := { dl_DeviceID : string; dl_Links : ResourceLinks }.

Definition fill_link (di : string) (l : ResourceLink) : ResourceLink :=
  {| ID := ID l; Href := Href l; ResourceTypes := ResourceTypes l; Interfaces := Interfaces l;
     LinkPolicy := LinkPolicy l; LinkEndpoints := LinkEndpoints l;
     Anchor := if bool_decide (Anchor l = "") then "ocf://" +:+ di else Anchor l;
     LinkDeviceID := if bool_decide (LinkDeviceID l = "") then di else LinkDeviceID l;
     InstanceID := InstanceID l; Title := Title l;
     SupportedContentTypes := SupportedContentTypes l |}.

Section Answers.
Context `{HKit : Kit}.
Context `{HLinks : Cbor ResourceLinks} `{HDevs : Cbor (list deviceLink)} `{HDoxm : Cbor Doxm}.

Definition decodeDiscoverDevices (msg : Message) : result ResourceLinks :=
  match (VNDOCFCBORCodec_Decode msg : result (list deviceLink)) with
  | Err err => Err (MakeInternal (ErrWrap "decoding failed" err))
  | Ok devices =>
      Ok (foldl (fun acc device => foldl (fun acc link => acc ++ [fill_link (dl_DeviceID device) link])
                                         acc (dl_Links device)) [] devices)
  end.

(** [DiscoverDeviceCodec.Decode] into resource links. *)
Definition DiscoverDeviceCodec_Decode (msg : Message) : result ResourceLinks :=
  match m_format msg with
  | None => Err (MakeUnimplemented (ErrText "content format not found"))
  | Some mt =>
      if mt =? AppOcfCbor
      then match VNDOCFCBORCodec_Decode msg with
           | Err err => Err (MakeInternal (ErrWrap "decoding failed" err))
           | Ok links => Ok links
           end
      else if mt =? AppCBOR then decodeDiscoverDevices msg
      else Err (MakeInternal (ErrText "not a VNDOCFCBOR content format"))
  end.

(** What a handler of a discovery is called with. *)
Inductive Answer (A : Type) :=
  | AnsHandle (x : A)
  | AnsError (err : error)
  | AnsNone.
Arguments AnsHandle {A} _.
Arguments AnsError {A} _.
Arguments AnsNone {A}.

(** [handleResponse]; [remoteAddr] is the result of parsing the address of the sender. *)
Definition handleResponse (remoteAddr : result Addr) (r : Message) : Answer ResourceLinks :=
  if negb (m_code r =? codes_Content) then AnsError (ErrText "request failed")
  else match DiscoverDeviceCodec_Decode r with
       | Err err => AnsError (ErrWrap "decoding failed" err)
       | Ok links =>
           match remoteAddr with
           | Err err => AnsError (ErrWrap "invalid address" err)
           | Ok addr => match Links_PatchEndpoint links addr [] with
                        | [] => AnsNone
                        | links => AnsHandle links
                        end
           end
       end.

Definition handleDiscoverOwnershipResponse (r : Message) : Answer Doxm :=
  if negb (m_code r =? codes_Content) then AnsError (ErrText "request failed")
  else match VNDOCFCBORCodec_Decode r with
       | Err err => AnsError (ErrWrap "decoding failed" err)
       | Ok doxm => AnsHandle doxm
       end.
End Answers.
Arguments AnsHandle {A} _.
Arguments AnsError {A} _.
Arguments AnsNone {A}.

(** ** Searching one device ([getDevice.go]) *)

Definition ErrCannotDetermineDeviceID : error := ErrText "cannot determine device ID".
Definition ANY_DEVICE : string := "anydevice".

Section Handlers.
Context `{HKit : Kit}.

Record deviceHandler := {
  dh_deviceID : string;
  dh_canceled : bool;             (** [cancel] was called *)
  dh_devices : list Found;
  dh_err : option error }.
Definition newDevicesHandler (deviceID : string) : deviceHandler :=
  {| dh_deviceID := deviceID; dh_canceled := false; dh_devices := []; dh_err := None |}.

(** The loop over the links of an answer: the devices and the errors so far. *)
Fixpoint handle_links (want : string) (links : ResourceLinks) (devices : list Found)
    (errs : option error) : list Found * option error :=
  match links with
  | [] => (devices, errs)
  | link :: links' =>
      let deviceID := GetDeviceID link in
      if bool_decide (deviceID = "")
      then handle_links want links' devices (err_append errs (MakeUnavailable ErrCannotDetermineDeviceID))
      else if negb (bool_decide (deviceID = want)) && negb (bool_decide (want = ANY_DEVICE))
      then handle_links want links' devices errs
      else if (length (ResourceTypes link) =? 0)%nat
      then handle_links want links' devices
             (err_append errs (MakeUnavailable (ErrText "cannot get resource types: is empty")))
      else handle_links want links'
             (devices ++ [NewDevice deviceID (ResourceTypes link) (GetEndpoints link)]) errs
  end.
Definition deviceHandler_Handle (links : ResourceLinks) (h : deviceHandler) : deviceHandler :=
  let links := GetResourceLinks links [device_ResourceType] in
  if (length links =? 0)%nat
  then {| dh_deviceID := dh_deviceID h; dh_canceled := dh_canceled h; dh_devices := dh_devices h;
          dh_err := Some (MakeUnavailable (ErrText "cannot get oic.wk.d resourceType for device: not found")) |}
  else if negb (length (dh_devices h) =? 0)%nat then h
  else
    let (devices, errs) := handle_links (dh_deviceID h) links (dh_devices h) None in
    {| dh_deviceID := dh_deviceID h;
       dh_canceled := dh_canceled h || negb (length devices =? 0)%nat;
       dh_devices := devices; dh_err := errs |}.
Definition deviceHandler_Error (err : error) (h : deviceHandler) : deviceHandler :=
  {| dh_deviceID := dh_deviceID h; dh_canceled := dh_canceled h; dh_devices := dh_devices h;
     dh_err := Some err |}.
Definition deliver (h : deviceHandler) (a : Answer ResourceLinks) : deviceHandler :=
  match a with
  | AnsHandle links => deviceHandler_Handle links h
  | AnsError err => deviceHandler_Error err h
  | AnsNone => h
  end.

(** What the sockets did: whether they could be opened, the answers until the context
    ended, and the error of [Discover]. *)
Record Multicast := {
  mc_dial : option error;
  mc_answers : list (Answer ResourceLinks);
  mc_err : option error }.

Definition GetDevicesByIP (ip : string) (net : string → Multicast) : result (list Found) :=
  match getAddress ip with
  | Err err => Err (MakeInvalidArgument (ErrWrap "could not get the device via ip" err))
  | Ok (addr, _) =>
      let m := net addr in
      match mc_dial m with
      | Some err => Err (MakeInvalidArgument (ErrWrap "could not get the device via ip" err))
      | None =>
          let h := foldl deliver (newDevicesHandler ANY_DEVICE) (mc_answers m) in
          match mc_err m with
          | Some err => Err (MakeDataLoss (ErrWrap "could not get the devices from ip" err))
          | None =>
              match dh_devices h with
              | [] => Err (MakeNotFound (ErrText "no response from the devices with ip"))
              | devices => Ok (setFoundByIP addr <$> devices)
              end
          end
      end
  end.
(** The first of them; the others are closed with it. *)
Definition GetDeviceByIP (ip : string) (net : string → Multicast) : result Found :=
  devices ← GetDevicesByIP ip net;
  match devices with
  | [] => Err (MakeNotFound (ErrText "no response from the device with ip"))
  | d :: _ => Ok d
  end.

Definition GetDeviceByMulticast (deviceID : string) (m : Multicast) : result Found :=
  match mc_dial m with
  | Some err => Err (MakeInvalidArgument (ErrWrap "could not get the device" err))
  | None =>
      let h := foldl deliver (newDevicesHandler deviceID) (mc_answers m) in
      match mc_err m with
      | Some err => Err (MakeDataLoss (ErrWrap "could not get the device" err))
      | None =>
          match dh_devices h with
          | d :: _ => Ok d
          | [] => match dh_err h with
                  | Some err => Err (MakeInternal (ErrWrap "no response from the device" err))
                  | None => Err (MakeInternal (ErrText "no response from the device"))
                  end
          end
      end
  end.

(** ** Collecting all devices ([getDevices.go]) *)

Inductive DhCall := DhHandle (d : Found) | DhError (err : error).
(** [filterDiscoveredDevices], and the calls of the application's handler, in order. *)
Record discoveryHandler := { sh_filter : gset string; sh_calls : list DhCall }.
Definition newDiscoveryHandler : discoveryHandler := {| sh_filter := ∅; sh_calls := [] |}.
Definition sh_call (c : DhCall) (h : discoveryHandler) : discoveryHandler :=
  {| sh_filter := sh_filter h; sh_calls := sh_calls h ++ [c] |}.

(** The links of an answer by their device, and the links without one. *)
Definition group (links : ResourceLinks) : gmap string ResourceLinks :=
  foldl (fun m link =>
           let deviceID := GetDeviceID link in
           if bool_decide (deviceID = "") then m
           else <[deviceID := default [] (m !! deviceID) ++ [link]]> m) ∅ links.
Definition without_device (links : ResourceLinks) : nat :=
  length (List.filter (fun l => bool_decide (GetDeviceID l = "")) links).

Definition core_GetResourceLink (links : ResourceLinks) (href : string) : result ResourceLink :=
  match GetResourceLink links href with
  | Some l => Ok l
  | None => Err (MakeUnavailable (ErrText ("resource " +:+ href +:+ " not found")))
  end.
Definition handle_device (h : discoveryHandler) (dl : string * ResourceLinks) : discoveryHandler :=
  let (deviceID, links) := dl in
  match (match core_GetResourceLink links device_ResourceURI with
         | Ok l => Ok l
         | Err _ => core_GetResourceLink links resources_ResourceURI
         end) with
  | Err err => sh_call (DhError err) h
  | Ok link =>
      if (length (ResourceTypes link) =? 0)%nat
      then sh_call (DhError (ErrText "cannot get resource types: is empty")) h
      else if bool_decide (deviceID ∈ sh_filter h) then h
      else sh_call (DhHandle (NewDevice deviceID (ResourceTypes link) (GetEndpoints link)))
             {| sh_filter := {[deviceID]} ∪ sh_filter h; sh_calls := sh_calls h |}
  end.
(** The first loop reports the links without a device, the second one runs over the groups in
    the order [order].  When the connection of the answer cannot be closed, the handler of the
    application gets this error first: such an answer is an [AnsError] followed by the links.
    [filterDiscoveredDevices] is the only state that answers share. *)
Definition discoveryHandler_Handle (order : gmap string ResourceLinks → list (string * ResourceLinks))
    (links : ResourceLinks) (h : discoveryHandler) : discoveryHandler :=
  foldl handle_device
    (Nat.iter (without_device links) (sh_call (DhError ErrCannotDetermineDeviceID)) h)
    (order (group links)).
Definition sh_deliver (order : gmap string ResourceLinks → list (string * ResourceLinks))
    (h : discoveryHandler) (a : Answer ResourceLinks) : discoveryHandler :=
  match a with
  | AnsHandle links => discoveryHandler_Handle order links h
  | AnsError err => sh_call (DhError err) h
  | AnsNone => h
  end.
Definition GetDevicesByMulticast (order : gmap string ResourceLinks → list (string * ResourceLinks))
    (m : Multicast) : result unit * list DhCall :=
  match mc_dial m with
  | Some err => (Err (MakeInvalidArgument (ErrWrap "could not get the devices" err)), [])
  | None =>
      (match mc_err m with Some err => Err err | None => Ok tt end,
       sh_calls (foldl (sh_deliver order) newDiscoveryHandler (mc_answers m)))
  end.
End Handlers.

(** The query of an ownership discovery; an unknown status is refused. *)
Definition DiscoverAllDevices : Z := 0.
Definition DiscoverOwnedDevices : Z := 1.
Definition DiscoverDisownedDevices : Z := 2.
Definition DiscoverDeviceOwnership (status : Z) : result (list OptionFunc) :=
  if status =? DiscoverAllDevices then Ok []
  else if status =? DiscoverOwnedDevices then Ok [WithQuery "Owned=TRUE"]
  else if status =? DiscoverDisownedDevices then Ok [WithQuery "Owned=FALSE"]
  else Err (MakeUnimplemented (ErrText "unsupported DiscoverOwnershipStatus")).

(** ** One device *)

Section One.
Context `{HKit : Kit}.

(** The devices an answer has for a search. *)
Definition device_of (l : ResourceLink) : Found :=
  NewDevice (GetDeviceID l) (ResourceTypes l) (GetEndpoints l).
Definition wanted (want : string) (l : ResourceLink) : bool :=
  negb (bool_decide (GetDeviceID l = "")) &&
  (bool_decide (GetDeviceID l = want) || bool_decide (want = ANY_DEVICE)).
Definition found_in (want : string) (a : Answer ResourceLinks) : list Found :=
  match a with
  | AnsHandle links => device_of <$> List.filter (wanted want) (GetResourceLinks links [device_ResourceType])
  | _ => []
  end.

Lemma GetResourceLinks_types links l :
  l ∈ GetResourceLinks links [device_ResourceType] → ResourceTypes l ≠ [].
Proof.
  unfold GetResourceLinks. intros Hl%list_elem_of_In%filter_In. destruct Hl as [_ Hl].
  intros E. rewrite E in Hl. done.
Qed.

Lemma handle_links_devices want links devices errs :
  (∀ l, l ∈ links → ResourceTypes l ≠ []) →
  (handle_links want links devices errs).1 = devices ++ (device_of <$> List.filter (wanted want) links).
Proof.
  revert devices errs. induction links as [|l links IH]; intros devices errs Ht; [by rewrite app_nil_r|].
  assert (Htl : ∀ l', l' ∈ links → ResourceTypes l' ≠ []) by (intros; apply Ht; by right).
  specialize (Ht l ltac:(by left)). cbn [handle_links List.filter]. unfold wanted at 1.
  case_bool_decide as Hd; simpl; [by apply IH|].
  destruct (bool_decide (GetDeviceID l = want) || bool_decide (want = ANY_DEVICE)) eqn:Ew.
  - rewrite <-negb_orb, Ew. simpl. destruct (ResourceTypes l) eqn:Er; [done|]. cbn [length Nat.eqb].
    rewrite IH by done. rewrite <-app_assoc. simpl. unfold device_of at 2. by rewrite Er.
  - rewrite <-negb_orb, Ew. simpl. by apply IH.
Qed.

Lemma deliver_devices h a :
  dh_devices (deliver h a) =
    match dh_devices h with [] => found_in (dh_deviceID h) a | devices => devices end ∧
  dh_deviceID (deliver h a) = dh_deviceID h.
Proof.
  destruct a as [links|err|]; simpl; [|by destruct (dh_devices h)..].
  unfold deviceHandler_Handle.
  destruct (GetResourceLinks links [device_ResourceType]) as [|l0 ls] eqn:El; simpl.
  { by destruct (dh_devices h). }
  destruct (dh_devices h) as [|d ds] eqn:Ed; simpl; [|by rewrite Ed].
  pose proof (handle_links_devices (dh_deviceID h) (l0 :: ls) [] None) as Hh.
  cbn [handle_links] in Hh |- *. destruct (if bool_decide _ then _ else _) as [devices errs]. simpl in *.
  split; [|done]. rewrite Hh; [done|]. rewrite <-El. apply GetResourceLinks_types.
Qed.

Lemma search_devices want answers h :
  dh_deviceID h = want → dh_devices h = [] →
  (dh_devices (foldl deliver h answers) = [] ∧ Forall (fun a => found_in want a = []) answers) ∨
  ∃ pre a post, answers = pre ++ a :: post ∧ Forall (fun a => found_in want a = []) pre ∧
    found_in want a ≠ [] ∧ dh_devices (foldl deliver h answers) = found_in want a.
Proof.
  revert h. induction answers as [|a answers IH]; intros h Hw Hd; [by left|]. simpl.
  destruct (deliver_devices h a) as [Hda Hwa]. rewrite Hd, Hw in Hda. rewrite Hw in Hwa.
  destruct (found_in want a) as [|d ds] eqn:Ef.
  - destruct (IH _ Hwa Hda) as [[H1 H2]|(pre&a'&post&->&H2&H3&H4)]; [left; by auto|].
    right. exists (a :: pre), a', post. by auto.
  - right. exists [], a, answers. split; [done|]. split; [done|]. rewrite Ef. split; [done|].
    assert (Hk : ∀ l h', dh_devices h' = d :: ds → dh_devices (foldl deliver h' l) = d :: ds).
    { induction l as [|b l IHl]; intros h' Hh'; [done|]. simpl. apply IHl.
      destruct (deliver_devices h' b) as [-> _]. by rewrite Hh'. }
    by apply Hk.
Qed.

(** A search by multicast returns the device of the first answer that has a link of a
    device resource with the wanted device ID: the answers before it are skipped, whatever
    they hold, the later ones are ignored, and without such an answer the search fails. *)
Theorem GetDeviceByMulticast_spec deviceID m d :
  GetDeviceByMulticast deviceID m = Ok d ↔
  mc_dial m = None ∧ mc_err m = None ∧
  ∃ pre a post, mc_answers m = pre ++ a :: post ∧
    Forall (fun a => found_in deviceID a = []) pre ∧ head (found_in deviceID a) = Some d.
Proof.
  unfold GetDeviceByMulticast. destruct (mc_dial m); [by split; [|intros []]|].
  pose proof (search_devices deviceID (mc_answers m) (newDevicesHandler deviceID) eq_refl eq_refl) as Hs.
  destruct (mc_err m); [by split; [|intros (_&?&_)]|].
  destruct Hs as [[Hd Hall]|(pre&a&post&Ha&Hpre&Hne&Hd)]; rewrite Hd; split.
  - by destruct (dh_err _).
  - intros (_&_&pre&a&post&Ha&_&Hh). rewrite Ha in Hall. apply Forall_app in Hall as [_ Hall].
    inversion Hall as [|? ? Hx _]; subst. by rewrite Hx in Hh.
  - destruct (found_in deviceID a) as [|d0 ds] eqn:Ef; [done|]. intros [= ->].
    split; [done|]. split; [done|]. exists pre, a, post. split; [done|]. split; [done|]. by rewrite Ef.
  - intros (_&_&pre'&a'&post'&Ha'&Hpre'&Hh). rewrite Ha in Ha'.
    assert (Haa : a = a').
    { clear -Ha' Hpre Hpre' Hne Hh. revert pre' Ha' Hpre'. induction pre as [|b pre IH]; intros [|b' pre'] E Hp'.
      - by injection E.
      - injection E as -> _. inversion Hp'; subst. done.
      - injection E as -> _. inversion Hpre as [|? ? Hx _]; subst. by rewrite Hx in Hh.
      - injection E as -> E. inversion Hpre; inversion Hp'; subst. by eapply IH. }
    subst a'. by destruct (found_in deviceID a) as [|d0 ds]; [|injection Hh as ->].
Qed.
End One.

(** ** All devices *)

Section All.
Context `{HKit : Kit}.
Context (order : gmap string ResourceLinks → list (string * ResourceLinks)).
Hypothesis order_perm : ∀ m, order m ≡ₚ map_to_list m.

Definition handled (calls : list DhCall) : list string :=
  omap (fun c => match c with DhHandle d => Some (fd_deviceID d) | DhError _ => None end) calls.
(** The links of a device announce it: a device or a discovery resource with types. *)
Definition announces (links : ResourceLinks) : Prop :=
  ∃ l, (GetResourceLink links device_ResourceURI = Some l ∨
        (GetResourceLink links device_ResourceURI = None ∧
         GetResourceLink links resources_ResourceURI = Some l)) ∧ ResourceTypes l ≠ [].

Lemma group_lookup links id :
  group links !! id =
    match FilterByDeviceID links id with
    | [] => None
    | ls => if bool_decide (id = "") then None else Some ls
    end.
Proof.
  unfold group. assert (H : ∀ m : gmap string ResourceLinks, foldl (fun m link =>
      if bool_decide (GetDeviceID link = "") then m
      else <[GetDeviceID link := default [] (m !! GetDeviceID link) ++ [link]]> m) m links !! id =
    match FilterByDeviceID links id with
    | [] => m !! id
    | ls => if bool_decide (id = "") then m !! id else Some (default [] (m !! id) ++ ls)
    end).
  { induction links as [|l links IH]; intros m; [done|]. cbn [foldl]. rewrite IH.
    unfold FilterByDeviceID. cbn [List.filter]. fold (FilterByDeviceID links id).
    destruct (bool_decide_reflect (GetDeviceID l = "")) as [Hn|Hn];
      destruct (bool_decide_reflect (GetDeviceID l = id)) as [Hi|Hi]; [|done|..].
    - subst id. rewrite Hn, !bool_decide_true by done. by destruct (FilterByDeviceID links "").
    - subst id. rewrite lookup_insert_eq, bool_decide_false by done. simpl.
      destruct (FilterByDeviceID links (GetDeviceID l)); [done|]. by rewrite <-app_assoc.
    - rewrite lookup_insert_ne by done. by destruct (FilterByDeviceID links id). }
  rewrite H, lookup_empty. simpl. done.
Qed.

Definition sh_ok (h : discoveryHandler) : Prop :=
  NoDup (handled (sh_calls h)) ∧ ∀ id, id ∈ handled (sh_calls h) ↔ id ∈ sh_filter h.

Lemma handled_app a b : handled (a ++ b) = handled a ++ handled b.
Proof. apply omap_app. Qed.
Lemma sh_ok_error err h : sh_ok h → sh_ok (sh_call (DhError err) h).
Proof. unfold sh_ok. simpl. by rewrite handled_app, app_nil_r. Qed.

Lemma handle_device_spec h id links :
  sh_ok h →
  sh_ok (handle_device h (id, links)) ∧
  ∀ id', id' ∈ sh_filter (handle_device h (id, links)) ↔ id' ∈ sh_filter h ∨ (id' = id ∧ announces links).
Proof.
  intros Hok. unfold handle_device, core_GetResourceLink.
  assert (Hno : ∀ err, ¬ announces links → sh_ok (sh_call (DhError err) h) ∧
    ∀ id', id' ∈ sh_filter (sh_call (DhError err) h) ↔ id' ∈ sh_filter h ∨ (id' = id ∧ announces links)).
  { intros err Hn. split; [by apply sh_ok_error|]. simpl. naive_solver. }
  assert (Hyes : ∀ l, announces links →
    let h' := if bool_decide (id ∈ sh_filter h) then h
              else sh_call (DhHandle (NewDevice id (ResourceTypes l) (GetEndpoints l)))
                     {| sh_filter := {[id]} ∪ sh_filter h; sh_calls := sh_calls h |} in
    sh_ok h' ∧ ∀ id', id' ∈ sh_filter h' ↔ id' ∈ sh_filter h ∨ (id' = id ∧ announces links)).
  { intros l Ha. case_bool_decide as Hin; simpl.
    - split; [done|]. intros id'. split; [by left|]. by intros [?|[-> _]].
    - split; [|intros id'; set_solver]. destruct Hok as [Hnd Hf]. unfold sh_ok. simpl.
      rewrite handled_app. simpl. split.
      + apply NoDup_app. split; [done|]. split; [|by apply NoDup_singleton].
        intros x Hx%Hf Hy%list_elem_of_singleton. by subst.
      + intros id'. rewrite elem_of_app, Hf, list_elem_of_singleton. set_solver. }
  destruct (GetResourceLink links device_ResourceURI) as [l|] eqn:E1.
  - destruct (ResourceTypes l) as [|t ts] eqn:Et; cbn [length Nat.eqb].
    + apply Hno. intros (l'&[Hl|[Hl _]]&Hne); rewrite E1 in Hl; [|done]. by injection Hl as <-.
    + rewrite <-Et. apply (Hyes l). exists l. rewrite Et. eauto.
  - destruct (GetResourceLink links resources_ResourceURI) as [l|] eqn:E2.
    + destruct (ResourceTypes l) as [|t ts] eqn:Et; cbn [length Nat.eqb].
      * apply Hno. intros (l'&[Hl|[_ Hl]]&Hne); [by rewrite E1 in Hl|]. rewrite E2 in Hl. by injection Hl as <-.
      * rewrite <-Et. apply (Hyes l). exists l. rewrite Et. eauto.
    + apply Hno. intros (l'&[Hl|[_ Hl]]&_); [by rewrite E1 in Hl|by rewrite E2 in Hl].
Qed.

Lemma handle_devices_spec l h :
  sh_ok h → sh_ok (foldl handle_device h l) ∧
  ∀ id, id ∈ sh_filter (foldl handle_device h l) ↔
    id ∈ sh_filter h ∨ ∃ links, (id, links) ∈ l ∧ announces links.
Proof.
  revert h. induction l as [|[i ls] l IH]; intros h Hok.
  { split; [done|]. intros id. split; [by left|]. intros [?|(?&Hx&_)]; [done|]. by apply not_elem_of_nil in Hx. }
  cbn [foldl]. destruct (handle_device_spec h i ls Hok) as [Hok1 Hf1].
  destruct (IH _ Hok1) as [Hok2 Hf2]. split; [done|]. intros id. rewrite Hf2, Hf1. split.
  - intros [[?|[-> ?]]|(links&?&?)]; [by left|right; exists ls; split; [by left|done]|].
    right. exists links. split; [by right|done].
  - intros [?|(links&[[= -> ->]|?]%elem_of_cons&?)]; eauto.
Qed.

(** The devices an answer announces. *)
Definition announced (a : Answer ResourceLinks) (id : string) : Prop :=
  match a with
  | AnsHandle links => id ≠ "" ∧ announces (FilterByDeviceID links id)
  | _ => False
  end.

Lemma sh_deliver_spec h a :
  sh_ok h → sh_ok (sh_deliver order h a) ∧
  ∀ id, id ∈ sh_filter (sh_deliver order h a) ↔ id ∈ sh_filter h ∨ announced a id.
Proof.
  intros Hok. destruct a as [links|err|]; simpl; [|split; [by apply sh_ok_error|naive_solver]|naive_solver].
  unfold discoveryHandler_Handle. set (h0 := Nat.iter _ _ h).
  assert (H0 : sh_ok h0 ∧ sh_filter h0 = sh_filter h).
  { subst h0. induction (without_device links) as [|n [IH1 IH2]]; simpl; [done|].
    split; [by apply sh_ok_error|done]. }
  destruct H0 as [Hok0 Hf0]. destruct (handle_devices_spec (order (group links)) h0 Hok0) as [H1 H2].
  split; [done|]. intros id. rewrite H2, Hf0.
  assert (Hg : (∃ ls, (id, ls) ∈ order (group links) ∧ announces ls) ↔
               id ≠ "" ∧ announces (FilterByDeviceID links id)); [|by rewrite Hg].
  setoid_rewrite order_perm. setoid_rewrite elem_of_map_to_list. setoid_rewrite group_lookup.
  destruct (FilterByDeviceID links id) as [|l ls]; [split|case_bool_decide].
  - by intros (?&?&_).
  - intros (_&l&[Hl|[_ Hl]]&_); done.
  - split; [by intros (?&?&_)|by intros [? _]].
  - split; [by intros (?&[= <-]&?)|intros [_ ?]; eauto].
Qed.

(** C31 A discovery hands each device to the application once, however often it answers, and
    it hands exactly the devices that some answer announced: those with an ID whose links
    hold a device resource, or else a discovery resource, that has types. *)
Theorem discovery_once m :
  let calls := (GetDevicesByMulticast order m).2 in
  NoDup (handled calls) ∧
  ∀ id, id ∈ handled calls ↔ mc_dial m = None ∧ ∃ a, a ∈ mc_answers m ∧ announced a id.
Proof.
  unfold GetDevicesByMulticast. destruct (mc_dial m) as [err|]; simpl.
  { split; [constructor|]. intros id. split; [by intros ?%not_elem_of_nil|by intros [? _]]. }
  assert (H : ∀ answers h, sh_ok h → sh_ok (foldl (sh_deliver order) h answers) ∧
    ∀ id, id ∈ sh_filter (foldl (sh_deliver order) h answers) ↔
          id ∈ sh_filter h ∨ ∃ a, a ∈ answers ∧ announced a id).
  { induction answers as [|a answers IH]; intros h Hok; simpl.
    - split; [done|]. intros id. split; [by left|]. intros [?|(?&Hx&_)]; [done|]. by apply not_elem_of_nil in Hx.
    - destruct (sh_deliver_spec h a Hok) as [Hok1 Hf1]. destruct (IH _ Hok1) as [Hok2 Hf2].
      split; [done|]. intros id. rewrite Hf2, Hf1. setoid_rewrite elem_of_cons. naive_solver. }
  destruct (H (mc_answers m) newDiscoveryHandler) as [[Hnd Hf] Hin].
  { split; [constructor|]. intros id. simpl. set_solver. }
  split; [done|]. intros id. rewrite Hf, Hin. simpl. set_solver.
Qed.
End All.

(** ** The goroutines of [Discover] *)

Local Open Scope nat_scope.

(** A goroutine of [runDiscovery]: it prepares the request; it sends its error to the
    channel, with or without watching the context; it waits for the context; it is done.
    [errors] has no buffer, so a send needs [Discover] at its select. *)
Inductive Runner := RStart | RSend | RSendOrDone | RWait | RDone.
(** [Discover] at its select, at [wg.Wait], and returned. *)
Inductive MainPc := MSelect | MWait | MReturned.
#[export] Instance Runner_eq_dec : EqDecision Runner.
Proof. solve_decision. Defined.
#[export] Instance MainPc_eq_dec : EqDecision MainPc.
Proof. solve_decision. Defined.

Record DiscoverSt := { ds_main : MainPc; ds_err : option nat; ds_ctx : bool; ds_runners : list Runner }.

Definition Discover_start (n : nat) : DiscoverSt :=
  {| ds_main := MSelect; ds_err := None; ds_ctx := false; ds_runners := replicate n RStart |}.
Definition set_runner (i : nat) (r : Runner) (s : DiscoverSt) : DiscoverSt :=
  {| ds_main := ds_main s; ds_err := ds_err s; ds_ctx := ds_ctx s; ds_runners := <[i := r]> (ds_runners s) |}.

Inductive Prepared := PSetupFailed | PPublishFailed | PPublished.
Inductive RLabel :=
  | LRun (i : nat) (p : Prepared)       (** the request is prepared and published *)
  | LSend (i : nat)                     (** the error is received by [Discover] *)
  | LDone (i : nat)                     (** the goroutine sees that the context is done *)
  | LCtx                                (** the caller's context ends *)
  | LMainCtx                            (** [Discover] sees that the context is done *)
  | LReturn.                            (** [wg.Wait] returns *)

Definition ds_exec (s : DiscoverSt) (l : RLabel) : option DiscoverSt :=
  match l with
  | LRun i p =>
      match ds_runners s !! i with
      | Some RStart => Some (set_runner i (match p with PSetupFailed => RSend
                                           | PPublishFailed => RSendOrDone | PPublished => RWait end) s)
      | _ => None
      end
  | LSend i =>
      match ds_main s, ds_runners s !! i with
      | MSelect, Some (RSend | RSendOrDone) =>
          Some {| ds_main := MWait; ds_err := Some i; ds_ctx := true;
                  ds_runners := <[i := RDone]> (ds_runners s) |}
      | _, _ => None
      end
  | LDone i =>
      match ds_runners s !! i with
      | Some (RSendOrDone | RWait) => if ds_ctx s then Some (set_runner i RDone s) else None
      | _ => None
      end
  | LCtx => Some {| ds_main := ds_main s; ds_err := ds_err s; ds_ctx := true; ds_runners := ds_runners s |}
  | LMainCtx =>
      match ds_main s with
      | MSelect => if ds_ctx s
                   then Some {| ds_main := MWait; ds_err := None; ds_ctx := true; ds_runners := ds_runners s |}
                   else None
      | _ => None
      end
  | LReturn =>
      match ds_main s with
      | MWait => if forallb (fun r => bool_decide (r = RDone)) (ds_runners s)
                 then Some {| ds_main := MReturned; ds_err := ds_err s; ds_ctx := ds_ctx s;
                              ds_runners := ds_runners s |}
                 else None
      | _ => None
      end
  end.
Definition ds_step (s : DiscoverSt) (l : RLabel) (s' : DiscoverSt) : Prop := ds_exec s l = Some s'.

(** The work that is left once the context is done. *)
Definition runner_work (r : Runner) : nat :=
  match r with RStart => 2 | RSend | RSendOrDone | RWait => 1 | RDone => 0 end.
Definition main_work (m : MainPc) : nat := match m with MSelect => 2 | MWait => 1 | MReturned => 0 end.
Definition work (s : DiscoverSt) : nat := main_work (ds_main s) + sum_list_with runner_work (ds_runners s).
Definition not_ctx (l : RLabel) : Prop := match l with LCtx => False | _ => True end.
(** Goroutines that can still block on the channel. *)
Definition senders (s : DiscoverSt) : nat :=
  length (filter (fun r => r = RSend) (ds_runners s)).

Lemma work_insert l i r r' :
  l !! i = Some r → sum_list_with runner_work (<[i := r']> l) + runner_work r =
                    sum_list_with runner_work l + runner_work r'.
Proof.
  revert i. induction l as [|x l IH]; intros [|i]; simpl; try done.
  - intros [= ->]. lia.
  - intros H. specialize (IH i H). lia.
Qed.

Lemma ds_step_work s l s' : ds_step s l s' → not_ctx l → work s' < work s.
Proof.
  unfold ds_step, work. destruct s as [m e c rs]. destruct l as [i p|i|i| | |]; simpl; try done.
  - destruct (rs !! i) as [[]|] eqn:E; try done. intros [= <-] _. simpl.
    pose proof (work_insert rs i RStart (match p with PSetupFailed => RSend
      | PPublishFailed => RSendOrDone | PPublished => RWait end) E). destruct p; simpl in *; lia.
  - destruct m; try done. destruct (rs !! i) as [[]|] eqn:E; try done; intros [= <-] _; simpl;
      pose proof (work_insert rs i _ RDone E); simpl in *; lia.
  - destruct (rs !! i) as [[]|] eqn:E; try done; destruct c; try done; intros [= <-] _; simpl;
      pose proof (work_insert rs i _ RDone E); simpl in *; lia.
  - destruct m; try done. destruct c; try done. intros [= <-] _. simpl. lia.
  - destruct m; try done. destruct (forallb _ rs); try done. intros [= <-] _. simpl. lia.
Qed.

Lemma all_done_or_not rs :
  forallb (fun r => bool_decide (r = RDone)) rs = true ∨ ∃ i r, rs !! i = Some r ∧ r ≠ RDone.
Proof.
  induction rs as [|r rs [IH|(i&r'&Hi&Hr)]]; [by left| |right; by exists (S i), r'].
  destruct (decide (r = RDone)) as [->|Hr]; [left; simpl; by rewrite IH|right; by exists 0, r].
Qed.

Definition setup_works (l : RLabel) : Prop := match l with LRun _ PSetupFailed => False | _ => True end.
Definition no_sender (s : DiscoverSt) : Prop := RSend ∉ ds_runners s.

Lemma not_in_insert {A} (x y : A) (i : nat) (l : list A) : x ∉ l → x ≠ y → x ∉ <[i:=y]> l.
Proof.
  intros Hx Hne [j Hj]%list_elem_of_lookup. apply list_lookup_insert_Some in Hj as [(_&E&_)|[_ Hj]]; [done|].
  apply Hx. by eapply list_elem_of_lookup_2.
Qed.

Lemma no_sender_step s l s' : no_sender s → setup_works l → ds_step s l s' → no_sender s'.
Proof.
  unfold ds_step, no_sender. destruct s as [m e c rs]. intros Hn Hl. simpl in Hn.
  destruct l as [i p|i|i| | |]; simpl.
  - destruct (rs !! i) as [[]|]; try done. intros [= <-]. simpl. apply not_in_insert; [done|]. by destruct p.
  - destruct m; try done. destruct (rs !! i) as [[]|]; try done; intros [= <-]; simpl; by apply not_in_insert.
  - destruct (rs !! i) as [[]|]; try done; destruct c; try done; intros [= <-]; simpl; by apply not_in_insert.
  - by intros [= <-].
  - destruct m; try done. destruct c; try done. by intros [= <-].
  - destruct m; try done. destruct (forallb _ rs); try done. by intros [= <-].
Qed.

Lemma ds_progress s : no_sender s → ds_ctx s = true → ds_main s ≠ MReturned →
  ∃ l s', not_ctx l ∧ setup_works l ∧ ds_step s l s'.
Proof.
  unfold ds_step, no_sender. destruct s as [m e c rs]. simpl. intros Hn -> Hm.
  destruct m; [exists LMainCtx; by eexists| |done].
  destruct (all_done_or_not rs) as [Hall|(i&r&Hi&Hr)].
  { exists LReturn. eexists. split; [done|]. split; [done|]. simpl. by rewrite Hall. }
  destruct r; [exists (LRun i PPublished)| |exists (LDone i)|exists (LDone i)|done];
    try (eexists; split; [done|]; split; [done|]; simpl; by rewrite Hi).
  destruct Hn. by eapply list_elem_of_lookup_2.
Qed.

(** [Discover] ends once its context is done, provided that the requests can be prepared:
    from every state that is reached it either has returned or some goroutine can go on,
    and after at most [work] further actions nothing is left to do. *)
Theorem discover_terminates n ls s :
  runs ds_step (Discover_start n) ls s → Forall setup_works ls → ds_ctx s = true →
  (ds_main s = MReturned ∨ ∃ l s', not_ctx l ∧ setup_works l ∧ ds_step s l s') ∧
  (∀ ls' s', runs ds_step s ls' s' → Forall not_ctx ls' → length ls' ≤ work s).
Proof.
  intros Hr Hls Hc. assert (Hn : no_sender s).
  { assert (H0 : no_sender (Discover_start n)).
    { unfold no_sender. simpl. intros [E _]%elem_of_replicate. done. }
    revert H0. clear Hc. induction Hr as [|s0 l s1 ls' s2 Hs _ IH]; [done|]. inversion Hls; subst.
    intros H0. apply IH; [done|]. by eapply no_sender_step. }
  split.
  - destruct (decide (ds_main s = MReturned)) as [?|Hm]; [by left|right]. by apply ds_progress.
  - clear. intros ls' s' Hr. induction Hr as [|s0 l s1 ls' s2 Hs _ IH]; intros Hf; [simpl; lia|].
    inversion Hf; subst. pose proof (ds_step_work _ _ _ Hs ltac:(done)). simpl. specialize (IH ltac:(done)). lia.
Qed.

Lemma senders_insert (rs : list Runner) i r r' :
  rs !! i = Some r →
  length (filter (fun x => x = RSend) (<[i:=r']> rs)) + (if decide (r = RSend) then 1 else 0) =
  length (filter (fun x => x = RSend) rs) + (if decide (r' = RSend) then 1 else 0).
Proof.
  revert i. induction rs as [|x rs IH]; intros [|i]; simpl; try done.
  - intros [= ->]. rewrite !filter_cons. destruct (decide (r' = RSend)), (decide (r = RSend)); simpl; lia.
  - intros H. specialize (IH i H). rewrite !filter_cons. destruct (decide (x = RSend)); simpl; lia.
Qed.

Definition blocked (s : DiscoverSt) : Prop :=
  match ds_main s with MSelect => 2 ≤ senders s | MWait => 1 ≤ senders s | MReturned => False end.
Lemma blocked_step s l s' : blocked s → ds_step s l s' → blocked s'.
Proof.
  unfold ds_step, blocked, senders. destruct s as [m e c rs]. intros Hb. simpl in Hb.
  destruct l as [i p|i|i| | |]; simpl.
  - destruct (rs !! i) as [[]|] eqn:E; try done. intros [= <-]. simpl.
    pose proof (senders_insert rs i _ (match p with PSetupFailed => RSend
      | PPublishFailed => RSendOrDone | PPublished => RWait end) E) as Hs.
    destruct (decide (RStart = RSend)); [done|]. destruct m; [..|done]; lia.
  - destruct m; try done. destruct (rs !! i) as [[]|] eqn:E; try done; intros [= <-]; simpl;
      pose proof (senders_insert rs i _ RDone E) as Hs; simpl in Hs; lia.
  - destruct (rs !! i) as [[]|] eqn:E; try done; destruct c; try done; intros [= <-]; simpl;
      pose proof (senders_insert rs i _ RDone E) as Hs; simpl in Hs; destruct m; try done; lia.
  - by intros [= <-].
  - destruct m; try done. destruct c; try done. intros [= <-]. simpl. lia.
  - destruct m; try done. destruct (forallb _ rs) eqn:E; try done. exfalso.
    destruct (filter (fun x => x = RSend) rs) as [|r l] eqn:Ef; [simpl in Hb; lia|].
    assert (Hr : r ∈ filter (fun x => x = RSend) rs) by (rewrite Ef; by left).
    apply list_elem_of_filter in Hr as [-> Hin]. apply list_elem_of_In in Hin.
    rewrite forallb_forall in E. by specialize (E _ Hin).
Qed.

(** When the requests of two sockets cannot be prepared, [Discover] never returns: the
    goroutines send their errors without watching the context, one of them is received,
    and [wg.Wait] waits for the other for ever. *)
Theorem discover_blocks s ls s' :
  2 ≤ senders s → ds_main s = MSelect → runs ds_step s ls s' → ds_main s' ≠ MReturned.
Proof.
  intros Hs Hm Hr. assert (Hb : blocked s) by (unfold blocked; by rewrite Hm).
  assert (Hb' : blocked s') by (eapply runs_invariant; [|exact Hr|exact Hb]; intros ???; apply blocked_step).
  intros E. unfold blocked in Hb'. by rewrite E in Hb'.
Qed.

(** ** Links of an answer *)

Section Links.
Context `{HLinks : Cbor ResourceLinks} `{HDevs : Cbor (list deviceLink)}.

Lemma GetDeviceID_fill di l : di ≠ "" → GetDeviceID (fill_link di l) ≠ "".
Proof.
  intros Hdi. unfold GetDeviceID, fill_link. simpl.
  destruct (bool_decide_reflect (LinkDeviceID l = "")); [by rewrite bool_decide_false|].
  by rewrite bool_decide_false.
Qed.

(** An answer in CBOR lists devices with their links: the decoded links are the links of
    the devices in their order, and when every device names itself every link has an owner:
    the device of the link, or else the device that lists it. *)
Theorem decodeDiscoverDevices_spec msg :
  match (VNDOCFCBORCodec_Decode msg : result (list deviceLink)) with
  | Err err => is_ok (decodeDiscoverDevices msg) = false
  | Ok devices =>
      decodeDiscoverDevices msg =
        Ok (mjoin ((fun d => fill_link (dl_DeviceID d) <$> dl_Links d) <$> devices)) ∧
      ((∀ d, d ∈ devices → dl_DeviceID d ≠ "") →
       ∀ links, decodeDiscoverDevices msg = Ok links → ∀ l, l ∈ links → GetDeviceID l ≠ "")
  end.
Proof.
  unfold decodeDiscoverDevices. destruct (VNDOCFCBORCodec_Decode msg) as [devices|err]; [|done].
  assert (H1 : ∀ di ls acc, foldl (fun acc link => acc ++ [fill_link di link]) acc ls =
                            acc ++ (fill_link di <$> ls)).
  { intros di ls. induction ls as [|l ls IH]; intros acc; simpl; [by rewrite app_nil_r|].
    rewrite IH. by rewrite <-app_assoc. }
  assert (H2 : ∀ ds acc, foldl (fun acc device => foldl (fun acc link => acc ++ [fill_link (dl_DeviceID device) link])
                 acc (dl_Links device)) acc ds =
               acc ++ mjoin ((fun d => fill_link (dl_DeviceID d) <$> dl_Links d) <$> ds)).
  { intros ds. induction ds as [|d ds IH]; intros acc; simpl; [by rewrite app_nil_r|].
    rewrite IH, H1. by rewrite <-app_assoc. }
  rewrite H2. split; [done|]. intros Hd links [= <-] l.
  intros (ls&Hl&Hls)%list_elem_of_join.
  apply list_elem_of_fmap in Hls as (d&->&Hin). apply list_elem_of_fmap in Hl as (l0&->&_).
  apply GetDeviceID_fill. by apply Hd.
Qed.
End Links.

(** Addresses are completed with the CoAP port and the brackets of IPv6; an address in
    which an IPv4 address is embedded is taken for an IPv4 one and loses its brackets, so
    it can no longer be split into a host and a port. *)
Theorem getAddress_embedded :
  getAddress "10.0.0.1" = Ok ("10.0.0.1:5683", true) ∧
  getAddress "10.0.0.1:61616" = Ok ("10.0.0.1:61616", true) ∧
  getAddress "fe80::1" = Ok ("[fe80::1]:5683", false) ∧
  getAddress "[fe80::1]" = Ok ("[fe80::1]:5683", false) ∧
  getAddress "[fe80::1]:61616" = Ok ("[fe80::1]:61616", false) ∧
  getAddress "[::ffff:10.0.0.1]:61616" = Ok ("::ffff:10.0.0.1:61616", true) ∧
  is_ok (BridgeNet.SplitHostPort "::ffff:10.0.0.1:61616") = false.
Proof. repeat split; vm_compute; reflexivity. Qed.

(** ** Examples *)

#[local] Instance ex_disc_Kit : Kit := {|
  Addr := string * string;
  ParseString s a := Ok (s, a);
  addr_GetScheme := fst;
  addr_GetHostname := snd;
  addr_GetPort _ := 5683%Z;
  addr_SetPort a _ := a;
  addr_SetScheme a s := (s, snd a);
  addr_String := snd;
  addr_URL a := fst a +:+ "://" +:+ snd a;
  ParseIPZone _ := (None, "");
  ip_String _ := "";
  str_contains _ _ := false;
  set_ToSlice X := elements X |}.
Definition ex_disc_link (id : string) : ResourceLink :=
  {| ID := ""; Href := "/oic/d"; ResourceTypes := ["oic.wk.d"]; Interfaces := []; LinkPolicy := None;
     LinkEndpoints := [{| URI := "coap://10.0.0.1:5683"; Priority := 1 |}]; Anchor := "ocf://" +:+ id;
     LinkDeviceID := ""; InstanceID := 0; Title := ""; SupportedContentTypes := [] |}.
Definition ex_disc : Multicast :=
  {| mc_dial := None;
     mc_answers := [AnsError (ErrText "decoding failed"); AnsHandle [ex_disc_link "a"; ex_disc_link "b"];
                    AnsHandle [ex_disc_link "b"; ex_disc_link "c"]];
     mc_err := None |}.

Lemma discovery_once_witness :
  handled (GetDevicesByMulticast map_to_list ex_disc).2 ≡ₚ ["a"; "b"; "c"]%string ∧
  NoDup (handled (GetDevicesByMulticast map_to_list ex_disc).2).
Proof.
  split; [vm_compute; reflexivity|].
  exact (proj1 (discovery_once map_to_list (fun m => reflexivity (map_to_list m)) ex_disc)).
Defined.

Definition ex_run : list RLabel := [LRun 0 PPublished; LCtx].
Lemma discover_terminates_witness :
  ∃ s, runs ds_step (Discover_start 2) ex_run s ∧ ds_ctx s = true ∧
    (ds_main s = MReturned ∨ ∃ l s', not_ctx l ∧ setup_works l ∧ ds_step s l s').
Proof.
  eexists. assert (Hr : runs ds_step (Discover_start 2) ex_run _)
    by (apply execs_runs; vm_compute; reflexivity).
  split; [exact Hr|]. split; [reflexivity|].
  apply (discover_terminates 2 ex_run _ Hr); [by repeat constructor|reflexivity].
Defined.
Lemma discover_blocks_witness :
  ∃ s s', runs ds_step (Discover_start 2) [LRun 0 PSetupFailed; LRun 1 PSetupFailed] s ∧
    runs ds_step s [LSend 0] s' ∧ ds_main s' ≠ MReturned.
Proof.
  do 2 eexists. split; [apply execs_runs; vm_compute; reflexivity|].
  assert (Hr : runs ds_step {| ds_main := MSelect; ds_err := None; ds_ctx := false; ds_runners := [RSend; RSend] |}
    [LSend 0] _) by (apply execs_runs; vm_compute; reflexivity).
  split; [exact Hr|]. apply (discover_blocks _ _ _) in Hr; [exact Hr|simpl; vm_compute; lia|reflexivity].
Defined.
