(* ===== verification/Details.v ===== *)
(** * Details: merging what is known of the devices

    The pure parts of [src/client/getDevices.go], [getDevice.go] and
    [patchResourceLinksEndpoints.go]: merging the endpoints and the details of devices that
    were found several times, deciding their ownership, and completing the endpoints of
    resource links. *)

From S2P Require Export Discovery.

(** ** Endpoints *)

Section Endpoints.
Context `{HKit : Kit}.

Definition filterTCPEndpoints (eps : Endpoints) : Endpoints :=
  List.filter (fun e => match Endpoint_GetAddr e with
                        | Err _ => false
                        | Ok addr => bool_decide (addr_GetScheme addr = TCPScheme) ||
                                     bool_decide (addr_GetScheme addr = TCPSecureScheme)
                        end) eps.

Definition patchResourceLinksEndpoints (links : ResourceLinks) (disableUDPEndpoints : bool)
    : ResourceLinks :=
  match GetResourceLink links device_ResourceURI with
  | None => links
  | Some devLink =>
      let tcpDevEps := GetEndpoints devLink in
      let tcpDevEps := if disableUDPEndpoints then filterTCPEndpoints tcpDevEps else tcpDevEps in
      (fun l =>
         let eps := GetEndpoints l in
         let eps := if disableUDPEndpoints then filterTCPEndpoints eps else eps in
         set_Endpoints (if (length eps =? 0)%nat then tcpDevEps else eps) l) <$> links
  end.
End Endpoints.

(** [sort.SliceStable] is a stable sort: the insertion sort of [GoLib]. *)
Fixpoint drop_repeated (last : string) (eps : Endpoints) : Endpoints :=
  match eps with
  | [] => []
  | e :: eps' => (if bool_decide (last = URI e) then [] else [e]) ++ drop_repeated (URI e) eps'
  end.
Definition mergeEndpoints (a b : Endpoints) : Endpoints :=
  let eps := a ++ b in
  let eps := insertion_sort (fun e1 e2 => String.ltb (URI e1) (URI e2)) eps in
  let eps := insertion_sort (fun e1 e2 => Priority e1 <? Priority e2) eps in
  drop_repeated "" eps.

(** ** Devices *)

Definition OwnershipStatus : Type := string.
Definition OwnershipStatus_ReadyToBeOwned : OwnershipStatus := "readytobeowned".
Definition OwnershipStatus_Owned : OwnershipStatus := "owned".
Definition OwnershipStatus_OwnedByOther : OwnershipStatus := "ownedbyother".
Definition OwnershipStatus_Unknown : OwnershipStatus := "unknown".

Section Devices.
(** What the application reads of a device ([interface{}], [None] for [nil]). *)
Context {T : Type}.

Record DeviceDetails := {
  dd_ID : string;
  dd_FoundByIP : string;
  dd_Details : option T;
  dd_IsSecured : bool;
  dd_Ownership : option Doxm;
  dd_Resources : ResourceLinks;
  dd_Endpoints : Endpoints;
  dd_OwnershipStatus : OwnershipStatus }.
Record ownership := { own_doxm : option Doxm; own_status : OwnershipStatus }.

Definition dd_set (details : option T) (eps : Endpoints) (d : DeviceDetails) : DeviceDetails :=
  {| dd_ID := dd_ID d; dd_FoundByIP := dd_FoundByIP d; dd_Details := details;
     dd_IsSecured := dd_IsSecured d; dd_Ownership := dd_Ownership d; dd_Resources := dd_Resources d;
     dd_Endpoints := eps; dd_OwnershipStatus := dd_OwnershipStatus d |}.
Definition dd_set_ownership (o : option Doxm) (st : OwnershipStatus) (d : DeviceDetails) : DeviceDetails :=
  {| dd_ID := dd_ID d; dd_FoundByIP := dd_FoundByIP d; dd_Details := dd_Details d;
     dd_IsSecured := dd_IsSecured d; dd_Ownership := o; dd_Resources := dd_Resources d;
     dd_Endpoints := dd_Endpoints d; dd_OwnershipStatus := st |}.

Definition merge_one (m : gmap string DeviceDetails) (i : DeviceDetails) : gmap string DeviceDetails :=
  let d := match m !! dd_ID i with
           | None => i
           | Some d => dd_set (dd_Details d) (mergeEndpoints (dd_Endpoints d) (dd_Endpoints i)) d
           end in
  let d := match dd_Details i with
           | Some x => dd_set (Some x) (dd_Endpoints d) d
           | None => d
           end in
  <[dd_ID i := d]> m.
Definition mergeDevices (list : list DeviceDetails) : gmap string DeviceDetails :=
  foldl merge_one ∅ list.

Definition set_one_ownership (ownerID : string) (o : ownership) (d : DeviceDetails) : DeviceDetails :=
  match own_doxm o with
  | None => dd_set_ownership (dd_Ownership d) (own_status o) d
  | Some doxm =>
      dd_set_ownership (Some doxm)
        (if bool_decide (doxm_OwnerID doxm = uuid_Nil) then OwnershipStatus_ReadyToBeOwned
         else if bool_decide (doxm_OwnerID doxm = ownerID) then OwnershipStatus_Owned
         else OwnershipStatus_OwnedByOther) d
  end.
(** [order] lists the entries of [owns] in the order of the iteration. *)
Definition setOwnership (ownerID : string) (devs : gmap string DeviceDetails)
    (order : list (string * ownership)) : gmap string DeviceDetails :=
  foldl (fun devs '(deviceID, o) =>
           match devs !! deviceID with
           | Some d => match dd_Ownership d with
                       | None => <[deviceID := set_one_ownership ownerID o d]> devs
                       | Some _ => devs
                       end
           | None => devs
           end) devs order.
End Devices.
Arguments DeviceDetails : clear implicits.

(** ** Merged endpoints *)

Lemma drop_repeated_In last eps e : e ∈ drop_repeated last eps → e ∈ eps.
Proof.
  revert last. induction eps as [|e0 eps IH]; intros last; [done|]. simpl.
  case_bool_decide; simpl; [|intros [->|H']%elem_of_cons; [by left|]]; try intros H'; right; by eapply IH.
Qed.
(** A dropped endpoint follows one with its URI. *)
Lemma drop_repeated_covers last p eps e :
  Sorted (fun a b => Priority a <= Priority b) eps → (∀ e0, e0 ∈ eps → p <= Priority e0) →
  e ∈ eps →
  (URI e = last ∨ ∃ e', e' ∈ drop_repeated last eps ∧ URI e' = URI e ∧ Priority e' <= Priority e).
Proof.
  revert last p. induction eps as [|e0 eps IH]; intros last p Hs Hp He; [by apply not_elem_of_nil in He|].
  apply Sorted_inv in Hs as Hinv. destruct Hinv as [Hs' Hhd].
  assert (Hp0 : ∀ e1, e1 ∈ eps → Priority e0 <= Priority e1).
  { apply Sorted_StronglySorted in Hs; [|intros x y z; lia]. inversion Hs as [|? ? _ Hall]; subst.
    intros e1 He1. rewrite Forall_forall in Hall. by apply Hall. }
  assert (Hkeep : ∀ e', e' ∈ drop_repeated (URI e0) eps → e' ∈ drop_repeated last (e0 :: eps)).
  { intros e' He'. simpl. apply elem_of_app. by right. }
  assert (He0 : URI e0 = last ∨ e0 ∈ drop_repeated last (e0 :: eps)).
  { simpl. case_bool_decide; [by left|right]. by left. }
  apply elem_of_cons in He as [->|He].
  - destruct He0 as [?|?]; [by left|right]. exists e0. split; [done|]. split; [done|lia].
  - destruct (IH (URI e0) (Priority e0) Hs' Hp0 He) as [Hu|(e'&He'&Hu&Hpr)].
    + destruct He0 as [Hl|Hin]; [left; congruence|right]. exists e0. split; [done|].
      split; [done|]. by apply Hp0.
    + right. exists e'. eauto.
Qed.
Lemma drop_repeated_sorted last eps :
  Sorted (fun a b => Priority a <= Priority b) eps →
  Sorted (fun a b => Priority a <= Priority b) (drop_repeated last eps).
Proof.
  intros Hs. apply Sorted_StronglySorted in Hs; [|intros x y z; lia]. apply StronglySorted_Sorted.
  revert last. induction Hs as [|e eps Hs IH Hall]; intros last; simpl; [constructor|].
  case_bool_decide; simpl; [done|]. constructor; [done|].
  apply Forall_forall. intros e' He'%drop_repeated_In. rewrite Forall_forall in Hall. by apply Hall.
Qed.

(** Merging two lists of endpoints gives a list in the order of the priorities that adds
    nothing and forgets no address: each endpoint with a URI is represented by one with the
    same URI and a priority that is at least as good. *)
Theorem mergeEndpoints_spec a b :
  Sorted (fun x y => Priority x <= Priority y) (mergeEndpoints a b) ∧
  (∀ e, e ∈ mergeEndpoints a b → e ∈ a ++ b) ∧
  (∀ e, e ∈ a ++ b → URI e ≠ "" →
     ∃ e', e' ∈ mergeEndpoints a b ∧ URI e' = URI e ∧ Priority e' <= Priority e).
Proof.
  unfold mergeEndpoints. cbv zeta.
  set (l := insertion_sort (fun e1 e2 => String.ltb (URI e1) (URI e2)) (a ++ b)).
  set (l' := insertion_sort (fun e1 e2 => Priority e1 <? Priority e2) l).
  assert (Hs : Sorted (fun x y => Priority x <= Priority y) l') by apply insertion_sort_sorted.
  assert (Hp : l' ≡ₚ a ++ b) by (unfold l', l; by rewrite !insertion_sort_perm).
  split; [by apply drop_repeated_sorted|]. split.
  - intros e He%drop_repeated_In. by rewrite <-Hp.
  - intros e He Hu. rewrite <-Hp in He.
    assert (Hmin : ∃ p, ∀ e0, e0 ∈ l' → p <= Priority e0).
    { clear. induction l' as [|x l' [p IH]]; [exists 0; by intros e0 ?%not_elem_of_nil|].
      exists (Z.min p (Priority x)). intros e0 [->|H0]%elem_of_cons; [lia|]. specialize (IH _ H0). lia. }
    destruct Hmin as [p Hmin].
    destruct (drop_repeated_covers "" p l' e Hs Hmin He) as [?|?]; [done|done].
Qed.

(** ** Merged devices *)

Section DevicesSpec.
Context {T : Type}.
Abbreviation DD := (DeviceDetails T).

Definition details_of (l : list DD) : option T := last (omap dd_Details l).
(** The reference: the devices of an ID as a list. *)
Definition merged (l : list DD) : option DD :=
  match l with
  | [] => None
  | d :: l' => Some (dd_set (details_of l) (foldl mergeEndpoints (dd_Endpoints d) (dd_Endpoints <$> l')) d)
  end.

Lemma details_of_snoc l (d : DD) :
  details_of (l ++ [d]) = match dd_Details d with Some x => Some x | None => details_of l end.
Proof.
  unfold details_of. rewrite omap_app. simpl. destruct (dd_Details d); [by rewrite last_snoc|].
  by rewrite app_nil_r.
Qed.
Lemma merged_snoc l (i : DD) :
  let d := match merged l with
           | None => i
           | Some d => dd_set (dd_Details d) (mergeEndpoints (dd_Endpoints d) (dd_Endpoints i)) d
           end in
  merged (l ++ [i]) = Some match dd_Details i with
                           | Some x => dd_set (Some x) (dd_Endpoints d) d
                           | None => d
                           end.
Proof.
  destruct l as [|d l]; simpl.
  - unfold details_of. simpl. destruct i as [i1 i2 [x|] i4 i5 i6 i7 i8]; done.
  - change (d :: l ++ [i]) with ((d :: l) ++ [i]). rewrite details_of_snoc, fmap_app, foldl_app. simpl.
    by destruct (dd_Details i).
Qed.

Definition with_id (id : string) (l : list DD) : list DD :=
  List.filter (fun d => bool_decide (dd_ID d = id)) l.
Lemma merge_lookup (l : list DD) acc m id :
  m !! id = merged (with_id id acc) →
  foldl merge_one m l !! id = merged (with_id id (acc ++ l)).
Proof.
  revert acc m. induction l as [|i l IH]; intros acc m Hm; [by rewrite app_nil_r|]. simpl.
  rewrite (IH (acc ++ [i])); [by rewrite <-app_assoc|]. unfold with_id in *.
  rewrite List.filter_app. simpl. unfold merge_one.
  destruct (bool_decide_reflect (dd_ID i = id)) as [Hi|Hi]; simpl.
  - rewrite Hi, lookup_insert_eq, Hm. by rewrite merged_snoc.
  - rewrite lookup_insert_ne by done. by rewrite app_nil_r.
Qed.

(** The devices that were found are merged by their IDs: the entry of an ID is its first
    device with the endpoints of all of them and with the last details that are not nil. *)
Theorem mergeDevices_spec (l : list DD) id : mergeDevices l !! id = merged (with_id id l).
Proof. unfold mergeDevices. apply (merge_lookup l []). by rewrite lookup_empty. Qed.

(** Ownership: a device gets the ownership that was found for it unless it has one; its
    status is that of the doxm resource (ready when the owner is the nil UUID, owned when
    it is the owner of the SDK, else owned by another), or the status that was noted; the
    other devices stay as they are, and none is added. *)
Theorem setOwnership_spec ownerID devs (owns : gmap string ownership) order id :
  order ≡ₚ map_to_list owns →
  @setOwnership T ownerID devs order !! id =
    match devs !! id with
    | None => None
    | Some d => match dd_Ownership d, owns !! id with
                | None, Some o => Some (set_one_ownership ownerID o d)
                | _, _ => Some d
                end
    end.
Proof.
  intros Hperm. assert (Hnd : NoDup order.*1) by (rewrite Hperm; apply NoDup_fst_map_to_list).
  assert (Hl : owns !! id = (list_to_map order : gmap string ownership) !! id).
  { assert (E : owns = list_to_map order); [|by rewrite <-E].
    rewrite <-(list_to_map_to_list owns). symmetry. by apply list_to_map_proper. }
  rewrite Hl. clear Hl Hperm owns. revert devs. unfold setOwnership.
  induction order as [|[k o] order IH]; intros devs; simpl.
  { rewrite lookup_empty. destruct (devs !! id) as [d|]; [|done]. by destruct (dd_Ownership d). }
  inversion Hnd as [|? ? Hk Hnd']; subst. rewrite IH by done. clear IH.
  destruct (decide (k = id)) as [->|Hne].
  - rewrite lookup_insert_eq. apply not_elem_of_list_to_map in Hk. rewrite Hk.
    destruct (devs !! id) as [d|] eqn:Ed; [|by rewrite Ed].
    destruct (dd_Ownership d) eqn:Eo; [by rewrite Ed, Eo|].
    rewrite lookup_insert_eq. by destruct (dd_Ownership (set_one_ownership ownerID o d)).
  - rewrite lookup_insert_ne by done. destruct (devs !! k) as [d|]; [|done].
    destruct (dd_Ownership d); [done|]. by rewrite lookup_insert_ne.
Qed.
End DevicesSpec.

(** ** Links *)

Section LinksSpec.
Context `{HKit : Kit}.

Definition over_tcp (e : Endpoint) : Prop :=
  ∃ addr, Endpoint_GetAddr e = Ok addr ∧
          (addr_GetScheme addr = TCPScheme ∨ addr_GetScheme addr = TCPSecureScheme).
Lemma filterTCPEndpoints_In eps e : e ∈ filterTCPEndpoints eps ↔ e ∈ eps ∧ over_tcp e.
Proof.
  unfold filterTCPEndpoints, over_tcp. rewrite list_elem_of_In, filter_In, <-list_elem_of_In.
  destruct (Endpoint_GetAddr e) as [addr|err].
  - rewrite orb_true_iff, !bool_decide_eq_true. naive_solver.
  - naive_solver.
Qed.

(** Links of a device that has a device resource: with the UDP endpoints disabled every
    endpoint of every link is a TCP one; a link keeps its usable endpoints, and one without
    any gets those of the device resource; nothing else of the links changes. *)
Theorem patchResourceLinksEndpoints_spec links (disable : bool) devLink :
  GetResourceLink links device_ResourceURI = Some devLink →
  let usable (l : ResourceLink) := if disable then filterTCPEndpoints (GetEndpoints l) else GetEndpoints l in
  let out := patchResourceLinksEndpoints links disable in
  length out = length links ∧
  (disable = true → ∀ l e, l ∈ out → e ∈ LinkEndpoints l → over_tcp e) ∧
  (∀ i l l', links !! i = Some l → out !! i = Some l' →
     LinkEndpoints l' = (if decide (usable l = []) then usable devLink else usable l) ∧
     set_Endpoints (LinkEndpoints l) l' = l).
Proof.
  intros Hd. cbv zeta. unfold patchResourceLinksEndpoints. rewrite Hd. split; [by rewrite length_fmap|]. split.
  - intros -> l e (l0&->&_)%list_elem_of_fmap. simpl.
    destruct (length (filterTCPEndpoints (GetEndpoints l0)) =? 0)%nat;
      intros He; by apply filterTCPEndpoints_In in He as [_ ?].
  - intros i l l' Hl. rewrite list_lookup_fmap, Hl. simpl. intros [= <-]. split; [|by destruct l].
    simpl. destruct (decide _) as [E|E]; [by rewrite E|].
    destruct (if disable then _ else _); done.
Qed.
End LinksSpec.

(** ** Examples *)

Definition ex_doxm (owner : string) : Doxm :=
  {| doxm_ResourceOwner := ""; doxm_SupportedOwnerTransferMethods := []; doxm_OwnerID := owner;
     doxm_DeviceID := "a"; doxm_Owned := true; doxm_Name := ""; doxm_InstanceID := "";
     doxm_SupportedCredentialTypes := 0; doxm_SelectedOwnerTransferMethod := 0; doxm_Interfaces := [];
     doxm_ResourceTypes := [] |}.
Definition ex_details (id : string) : DeviceDetails nat :=
  {| dd_ID := id; dd_FoundByIP := ""; dd_Details := Some 1%nat; dd_IsSecured := true; dd_Ownership := None;
     dd_Resources := []; dd_Endpoints := []; dd_OwnershipStatus := OwnershipStatus_Unknown |}.

Lemma setOwnership_spec_witness :
  dd_OwnershipStatus <$> (setOwnership "me" {[ "a" := ex_details "a" ]}
    [("a", {| own_doxm := Some (ex_doxm "me"); own_status := OwnershipStatus_Unknown |})] !! "a")%string =
  Some OwnershipStatus_Owned.
Proof.
  rewrite (setOwnership_spec "me" {[ "a"%string := ex_details "a" ]}
    {[ "a"%string := {| own_doxm := Some (ex_doxm "me"); own_status := OwnershipStatus_Unknown |} ]}
    _ "a"); [reflexivity|]. by rewrite map_to_list_singleton.
Defined.

Lemma patchResourceLinksEndpoints_spec_witness :
  GetResourceLink [ex_disc_link "a"] device_ResourceURI = Some (ex_disc_link "a") ∧
  length (patchResourceLinksEndpoints (HKit := ex_disc_Kit) [ex_disc_link "a"] true) = 1%nat.
Proof.
  split; [reflexivity|].
  exact (proj1 (patchResourceLinksEndpoints_spec (HKit := ex_disc_Kit) [ex_disc_link "a"] true
    (ex_disc_link "a") eq_refl)).
Defined.
