(* ===== verification/DeviceCache.v ===== *)
(** * DeviceCache: the devices the client keeps

    [src/client/deviceCache.go], [deleteDevices.go] and the cache movements of
    [ownDevice.go] and [disownDevice.go]: the cache of devices with their expirations.

    The cache itself is go-coap's: the class [GoCache] states what the code relies on, and
    the finite maps are an instance of it.  A device is a pointer into [w_devices]; the
    cache holds pointers, so an update through one of them is seen through all.  A time is
    a number of nanoseconds and 0 is the zero time, which never expires.  The methods are
    atomic. *)

From S2P Require Export Discovery.

(** ** The cache of go-coap *)

(** An element: the device and [ValidUntil]. *)
Definition Element : Type := nat * Z.

Class GoCache := {
  Cache : Type;
  cache_NewCache : Cache;
  elem_IsExpired : Z → Z → bool;              (** [IsExpired(now)] of a [ValidUntil] *)
  cache_Load : string → Z → Cache → option Element;
  cache_LoadOrStore : string → Element → Z → Cache → Element * bool * Cache;
  cache_SetValidUntil : string → Z → Cache → Cache;
  cache_LoadAndDelete : string → Cache → option Element * Cache;
  cache_LoadAndDeleteAll : Cache → list (string * Element) * Cache;
  cache_Range : Cache → list (string * Element);
  cache_CheckExpirations : Z → Cache → list nat * Cache;  (** the evicted devices *)
  entries : Cache → gmap string Element }.

Definition alive `{GoCache} (now : Z) (e : option Element) : option Element :=
  match e with Some e => if elem_IsExpired now e.2 then None else Some e | None => None end.

Class GoCacheLaws `{GoCache} := {
  zero_never_expires now : elem_IsExpired now 0 = false;
  valid_not_expired now v : now <= v → elem_IsExpired now v = false;
  entries_NewCache : entries cache_NewCache = ∅;
  entries_Load k now c : cache_Load k now c = alive now (entries c !! k);
  entries_LoadOrStore k e now c :
    let r := cache_LoadOrStore k e now c in
    match alive now (entries c !! k) with
    | Some e0 => r.1 = (e0, true) ∧ entries r.2 = entries c
    | None => r.1 = (e, false) ∧ entries r.2 = <[k := e]> (entries c)
    end;
  entries_SetValidUntil k v c :
    entries (cache_SetValidUntil k v c) = alter (fun e : Element => (e.1, v)) k (entries c);
  entries_LoadAndDelete k c :
    (cache_LoadAndDelete k c).1 = entries c !! k ∧
    entries (cache_LoadAndDelete k c).2 = delete k (entries c);
  entries_LoadAndDeleteAll c :
    (cache_LoadAndDeleteAll c).1 ≡ₚ map_to_list (entries c) ∧
    entries (cache_LoadAndDeleteAll c).2 = ∅;
  entries_Range c : cache_Range c ≡ₚ map_to_list (entries c);
  entries_CheckExpirations now c :
    entries (cache_CheckExpirations now c).2 =
      filter (fun ke => elem_IsExpired now ke.2.2 = false) (entries c) }.

Definition map_LoadOrStore (k : string) (e : Element) (now : Z) (m : gmap string Element)
    : Element * bool * gmap string Element :=
  match m !! k with
  | Some e0 => if negb (e0.2 =? 0) && (e0.2 <? now) then (e, false, <[k := e]> m) else (e0, true, m)
  | None => (e, false, <[k := e]> m)
  end.
#[export] Instance map_GoCache : GoCache := {|
  Cache := gmap string Element;
  cache_NewCache := ∅;
  elem_IsExpired now v := negb (v =? 0) && (v <? now);
  cache_Load k now m :=
    match m !! k with Some e => if negb (e.2 =? 0) && (e.2 <? now) then None else Some e | None => None end;
  cache_LoadOrStore := map_LoadOrStore;
  cache_SetValidUntil k v m := alter (fun e : Element => (e.1, v)) k m;
  cache_LoadAndDelete k m := (m !! k, delete k m);
  cache_LoadAndDeleteAll m := (map_to_list m, ∅);
  cache_Range m := map_to_list m;
  cache_CheckExpirations now m :=
    ((fun ke => ke.2.1) <$> map_to_list (filter (fun ke => negb (ke.2.2 =? 0) && (ke.2.2 <? now) = true) m),
     filter (fun ke => negb (ke.2.2 =? 0) && (ke.2.2 <? now) = false) m);
  entries m := m |}.
#[export] Instance map_GoCacheLaws : GoCacheLaws (H := map_GoCache).
Proof.
  constructor; try done; simpl.
  - intros now v Hv. destruct (v =? 0); [done|]. simpl. by apply Z.ltb_ge.
  - intros k e now c. unfold map_LoadOrStore, alive. simpl.
    destruct (c !! k) as [e0|]; [|done]. by destruct (negb (e0.2 =? 0) && (e0.2 <? now)).
Qed.

(** ** The client's cache *)

Section DeviceCache.
Context `{HCache : GoCache}.

(** [w_closed]: the devices that were closed, latest first. *)
Record CacheWorld := {
  w_devices : gmap nat Found;
  w_next : nat;
  w_cache : Cache;
  w_isClosed : bool;
  w_closed : list nat }.
Definition set_devices (x : gmap nat Found) (w : CacheWorld) : CacheWorld :=
  {| w_devices := x; w_next := w_next w; w_cache := w_cache w; w_isClosed := w_isClosed w;
     w_closed := w_closed w |}.
Definition set_w_cache (x : Cache) (w : CacheWorld) : CacheWorld :=
  {| w_devices := w_devices w; w_next := w_next w; w_cache := x; w_isClosed := w_isClosed w;
     w_closed := w_closed w |}.
(** [core.NewDevice]: a new pointer. *)
Definition alloc (d : Found) (w : CacheWorld) : nat * CacheWorld :=
  (w_next w, {| w_devices := <[w_next w := d]> (w_devices w); w_next := S (w_next w);
                w_cache := w_cache w; w_isClosed := w_isClosed w; w_closed := w_closed w |}).
(** [Device.Close]. *)
Definition close_device (p : nat) (w : CacheWorld) : CacheWorld :=
  {| w_devices := w_devices w; w_next := w_next w; w_cache := w_cache w; w_isClosed := w_isClosed w;
     w_closed := p :: w_closed w |}.
Definition device_at (p : nat) (w : CacheWorld) : Found :=
  default (NewDevice "" [] []) (w_devices w !! p).
Definition upd_device (p : nat) (f : Found → Found) (w : CacheWorld) : CacheWorld :=
  set_devices (alter f p (w_devices w)) w.
Definition with_cache {A} (r : A * Cache) (w : CacheWorld) : A * CacheWorld :=
  (r.1, set_w_cache r.2 w).

Definition NewDeviceCache : CacheWorld :=
  {| w_devices := ∅; w_next := 0; w_cache := cache_NewCache; w_isClosed := false; w_closed := [] |}.

Context (deviceExpiration : Z).

Definition getNextExpiration (now : Z) : Z :=
  if deviceExpiration <=? 0 then 0 else now + deviceExpiration.
Definition deviceIsStoredWithExpiration (e : Element) : bool := negb (e.2 =? 0).

Definition GetDevice (deviceID : string) (now : Z) (w : CacheWorld) : option nat * CacheWorld :=
  match cache_Load deviceID now (w_cache w) with
  | None => (None, w)
  | Some d =>
      (Some d.1,
       if deviceIsStoredWithExpiration d
       then set_w_cache (cache_SetValidUntil deviceID (getNextExpiration now) (w_cache w)) w else w)
  end.

(** The function given to [Range] stops it at the first device of the address. *)
Definition GetDeviceByFoundIP (ip : string) (now : Z) (w : CacheWorld) : list nat :=
  match List.find (fun ke => negb (elem_IsExpired now ke.2.2) &&
                             bool_decide (fd_foundByIP (device_at ke.2.1 w) = ip))
          (cache_Range (w_cache w)) with
  | Some ke => [ke.2.1]
  | None => []
  end.

Definition GetDeviceExpiration (deviceID : string) (now : Z) (w : CacheWorld) : option Z :=
  snd <$> cache_Load deviceID now (w_cache w).

Definition updateOrStoreDevice (device : nat) (expiration now : Z) (w : CacheWorld)
    : (nat * bool) * CacheWorld :=
  let deviceID := fd_deviceID (device_at device w) in
  let '(loadedDev, loaded, cache) := cache_LoadOrStore deviceID (device, expiration) now (w_cache w) in
  let w := set_w_cache cache w in
  let dev := loadedDev.1 in
  if loaded : bool
  then
    let w := if (dev =? device)%nat then w
             else upd_device dev (fun d => UpdateBy d (device_at device w)) w in
    let w := if deviceIsStoredWithExpiration loadedDev
             then set_w_cache (cache_SetValidUntil deviceID expiration (w_cache w)) w else w in
    ((dev, true), w)
  else ((dev, false), w).
Definition UpdateOrStoreDevice (device : nat) (now : Z) (w : CacheWorld) : (nat * bool) * CacheWorld :=
  updateOrStoreDevice device 0 now w.
Definition UpdateOrStoreDeviceWithExpiration (device : nat) (now : Z) (w : CacheWorld)
    : (nat * bool) * CacheWorld :=
  updateOrStoreDevice device (getNextExpiration now) now w.

Definition TryToChangeDeviceExpirationToDefault (deviceID : string) (now : Z) (w : CacheWorld)
    : bool * CacheWorld :=
  match cache_Load deviceID now (w_cache w) with
  | None => (false, w)
  | Some d =>
      if bool_decide (fd_foundByIP (device_at d.1 w) = "")
      then (true, set_w_cache (cache_SetValidUntil deviceID (getNextExpiration now) (w_cache w)) w)
      else (false, w)
  end.

Definition GetDevicesFoundByIP (now : Z) (w : CacheWorld) : gmap string string :=
  foldl (fun m ke =>
           if elem_IsExpired now ke.2.2 then m
           else let d := device_at ke.2.1 w in
                if bool_decide (fd_foundByIP d = "") then m
                else <[fd_deviceID d := fd_foundByIP d]> m) ∅ (cache_Range (w_cache w)).

Definition load_and_delete (deviceID : string) (w : CacheWorld) : option nat * CacheWorld :=
  let (r, w) := with_cache (cache_LoadAndDelete deviceID (w_cache w)) w in (fst <$> r, w).
Fixpoint load_and_delete_each (filter : list string) (w : CacheWorld) : list nat * CacheWorld :=
  match filter with
  | [] => ([], w)
  | deviceID :: filter' =>
      let (d, w) := load_and_delete deviceID w in
      let (ds, w) := load_and_delete_each filter' w in
      (match d with Some p => p :: ds | None => ds end, w)
  end.
Definition LoadAndDeleteDevices (deviceIDFilter : list string) (w : CacheWorld) : list nat * CacheWorld :=
  if (length deviceIDFilter =? 0)%nat
  then let (l, w) := with_cache (cache_LoadAndDeleteAll (w_cache w)) w in ((fun ke => ke.2.1) <$> l, w)
  else load_and_delete_each deviceIDFilter w.
Definition LoadAndDeleteDevice (deviceID : string) (w : CacheWorld) : option nat * CacheWorld :=
  let (devs, w) := LoadAndDeleteDevices [deviceID] w in (head devs, w).

(** One round of the goroutine that [NewDeviceCache] starts when devices expire: the
    evicted devices are closed. *)
Definition check_expirations (now : Z) (w : CacheWorld) : CacheWorld :=
  if deviceExpiration <=? 0 then w
  else let (evicted, w) := with_cache (cache_CheckExpirations now (w_cache w)) w in
       foldl (fun w p => close_device p w) w evicted.

Definition Close (w : CacheWorld) : CacheWorld :=
  let (l, w) := with_cache (cache_LoadAndDeleteAll (w_cache w)) w in
  let w := {| w_devices := w_devices w; w_next := w_next w; w_cache := w_cache w;
              w_isClosed := true; w_closed := w_closed w |} in
  foldl (fun w ke => close_device ke.2.1 w) w l.

(** ** Deleting and moving devices *)

Definition DeleteDevices (deviceIDFilter : list string) (w : CacheWorld) : list string * CacheWorld :=
  let (devs, w) := LoadAndDeleteDevices deviceIDFilter w in
  foldl (fun '(ids, w) p => (ids ++ [fd_deviceID (device_at p w)], close_device p w)) ([], w) devs.
Definition DeleteDevice (deviceID : string) (w : CacheWorld) : bool * CacheWorld :=
  let (devs, w) := DeleteDevices [deviceID] w in (negb (length devs =? 0)%nat, w).

Definition deleteDeviceNotFoundByIP (dev : nat) (w : CacheWorld) : CacheWorld :=
  let d := device_at dev w in
  let w := if bool_decide (fd_foundByIP d = "") then (LoadAndDeleteDevice (fd_deviceID d) w).2 else w in
  close_device dev w.
Definition removeTemporaryDeviceFromCache (dev : nat) (w : CacheWorld) : CacheWorld :=
  if bool_decide (fd_foundByIP (device_at dev w) = "") then deleteDeviceNotFoundByIP dev w else w.

(** After a transfer of ownership that changed the ID of the device. *)
Definition updateCache (d : nat) (oldDeviceID : string) (now : Z) (w : CacheWorld) : CacheWorld :=
  if bool_decide (fd_deviceID (device_at d w) = oldDeviceID) then w
  else
    let w := match GetDeviceExpiration oldDeviceID now w with
             | Some exp => if exp =? 0 then (UpdateOrStoreDevice d now w).2
                           else (UpdateOrStoreDeviceWithExpiration d now w).2
             | None => (UpdateOrStoreDeviceWithExpiration d now w).2
             end in
    (LoadAndDeleteDevice oldDeviceID w).2.
End DeviceCache.

(** ** The devices are under their IDs *)

Section Keyed.
Context `{HCache : GoCache} `{HLaws : !GoCacheLaws}.
Context (deviceExpiration : Z).

(** Every key but [o] holds a device with that ID. *)
Definition keyed (o : option string) (w : CacheWorld) : Prop :=
  ∀ k e, entries (w_cache w) !! k = Some e → o ≠ Some k →
         ∃ d, w_devices w !! e.1 = Some d ∧ fd_deviceID d = k.
Definition bounded_ptrs (w : CacheWorld) : Prop :=
  ∀ p, is_Some (w_devices w !! p) → (p < w_next w)%nat.

(** No key is added, the devices keep their IDs. *)
Definition shrinks (w w' : CacheWorld) : Prop :=
  (∀ k e', entries (w_cache w') !! k = Some e' → ∃ e, entries (w_cache w) !! k = Some e ∧ e.1 = e'.1) ∧
  (∀ p d, w_devices w !! p = Some d → ∃ d', w_devices w' !! p = Some d' ∧ fd_deviceID d' = fd_deviceID d) ∧
  (bounded_ptrs w → bounded_ptrs w').

Lemma shrinks_refl w : shrinks w w.
Proof. split; [by eauto|]. split; [by eauto|done]. Qed.
Lemma shrinks_trans w1 w2 w3 : shrinks w1 w2 → shrinks w2 w3 → shrinks w1 w3.
Proof.
  intros (H1&H2&H3) (H4&H5&H6). split; [|split; [|by auto]].
  - intros k e' He. destruct (H4 k e' He) as (e&He'&E). destruct (H1 k e He') as (e0&?&?).
    exists e0. split; [done|]. congruence.
  - intros p d Hp. destruct (H2 p d Hp) as (d'&Hd'&E). destruct (H5 p d' Hd') as (d2&?&?).
    exists d2. split; [done|]. congruence.
Qed.
Lemma shrinks_keyed o w w' : shrinks w w' → keyed o w → keyed o w'.
Proof.
  intros (H1&H2&_) Hk k e He Ho. destruct (H1 k e He) as (e0&He0&E).
  destruct (Hk k e0 He0 Ho) as (d&Hd&Hid). destruct (H2 _ d Hd) as (d'&Hd'&Hid').
  exists d'. rewrite <-E. split; [done|congruence].
Qed.

Lemma shrinks_cache c w :
  (∀ k e', entries c !! k = Some e' → ∃ e, entries (w_cache w) !! k = Some e ∧ e.1 = e'.1) →
  shrinks w (set_w_cache c w).
Proof. intros H. split; [exact H|]. split; [by eauto|done]. Qed.
Lemma shrinks_SetValidUntil k v w : shrinks w (set_w_cache (cache_SetValidUntil k v (w_cache w)) w).
Proof.
  apply shrinks_cache. intros k' e'. rewrite entries_SetValidUntil, lookup_alter_Some.
  intros [(<-&e&He&->)|[_ He]]; eauto.
Qed.
Lemma shrinks_close p w : shrinks w (close_device p w).
Proof. split; [simpl; by eauto|]. split; [simpl; by eauto|done]. Qed.
Lemma shrinks_foldl {A} (f : CacheWorld → A → CacheWorld) l w :
  (∀ w x, shrinks w (f w x)) → shrinks w (foldl f w l).
Proof.
  intros Hf. revert w. induction l as [|x l IH]; intros w; [apply shrinks_refl|].
  eapply shrinks_trans; [apply Hf|apply IH].
Qed.

Lemma shrinks_GetDevice k now w : shrinks w (GetDevice deviceExpiration k now w).2.
Proof.
  unfold GetDevice. destruct (cache_Load k now (w_cache w)) as [d|]; [|apply shrinks_refl]. simpl.
  destruct (deviceIsStoredWithExpiration d); [apply shrinks_SetValidUntil|apply shrinks_refl].
Qed.
Lemma shrinks_Try k now w : shrinks w (TryToChangeDeviceExpirationToDefault deviceExpiration k now w).2.
Proof.
  unfold TryToChangeDeviceExpirationToDefault.
  destruct (cache_Load k now (w_cache w)) as [d|]; [|apply shrinks_refl].
  case_bool_decide; [apply shrinks_SetValidUntil|apply shrinks_refl].
Qed.
Lemma load_and_delete_entries k w :
  entries (w_cache (load_and_delete k w).2) = delete k (entries (w_cache w)) ∧
  w_devices (load_and_delete k w).2 = w_devices w ∧ w_next (load_and_delete k w).2 = w_next w ∧
  (load_and_delete k w).1 = fst <$> entries (w_cache w) !! k.
Proof.
  unfold load_and_delete, with_cache. destruct (entries_LoadAndDelete k (w_cache w)) as [H1 H2].
  destruct (cache_LoadAndDelete k (w_cache w)) as [r c]. simpl in *. by rewrite H1, H2.
Qed.
Lemma shrinks_load_and_delete k w : shrinks w (load_and_delete k w).2.
Proof.
  destruct (load_and_delete_entries k w) as (H1&H2&H3&_). split; [|split].
  - intros k' e'. rewrite H1. intros [_ He]%lookup_delete_Some. eauto.
  - rewrite H2. eauto.
  - unfold bounded_ptrs. by rewrite H2, H3.
Qed.
Lemma shrinks_each ids w : shrinks w (load_and_delete_each ids w).2.
Proof.
  revert w. induction ids as [|k ids IH]; intros w; cbn [load_and_delete_each]; [apply shrinks_refl|].
  pose proof (shrinks_load_and_delete k w) as H1. destruct (load_and_delete k w) as [d w1].
  specialize (IH w1). destruct (load_and_delete_each ids w1) as [ds w2]. cbn [snd] in *.
  by eapply shrinks_trans.
Qed.
Lemma shrinks_delete_all w :
  shrinks w (with_cache (cache_LoadAndDeleteAll (w_cache w)) w).2.
Proof.
  apply shrinks_cache. intros k e'. destruct (entries_LoadAndDeleteAll (w_cache w)) as [_ ->].
  by rewrite lookup_empty.
Qed.
Lemma shrinks_LoadAndDeleteDevices ids w : shrinks w (LoadAndDeleteDevices ids w).2.
Proof.
  unfold LoadAndDeleteDevices. destruct (_ =? _)%nat; [|apply shrinks_each].
  pose proof (shrinks_delete_all w) as H. by destruct (with_cache _ w) as [l w1].
Qed.
Lemma shrinks_LoadAndDeleteDevice k w : shrinks w (LoadAndDeleteDevice k w).2.
Proof.
  unfold LoadAndDeleteDevice. pose proof (shrinks_LoadAndDeleteDevices [k] w) as H.
  by destruct (LoadAndDeleteDevices [k] w) as [devs w1].
Qed.
Lemma shrinks_DeleteDevices ids w : shrinks w (DeleteDevices ids w).2.
Proof.
  unfold DeleteDevices. pose proof (shrinks_LoadAndDeleteDevices ids w) as H.
  destruct (LoadAndDeleteDevices ids w) as [devs w1]. simpl in H. eapply shrinks_trans; [exact H|].
  assert (Hf : ∀ acc w1, shrinks w1 (foldl (fun '(ids, w) p =>
            (ids ++ [fd_deviceID (device_at p w)], close_device p w)) (acc, w1) devs).2); [|apply Hf].
  clear. induction devs as [|p devs IH]; intros acc w1; [apply shrinks_refl|].
  simpl. eapply shrinks_trans; [apply (shrinks_close p)|apply IH].
Qed.
Lemma shrinks_check now w : shrinks w (check_expirations deviceExpiration now w).
Proof.
  unfold check_expirations. destruct (deviceExpiration <=? 0); [apply shrinks_refl|].
  assert (H : shrinks w (with_cache (cache_CheckExpirations now (w_cache w)) w).2).
  { apply shrinks_cache. intros k e'. rewrite entries_CheckExpirations.
    intros [He _]%map_lookup_filter_Some. eauto. }
  destruct (with_cache _ w) as [evicted w1]. simpl in H. eapply shrinks_trans; [exact H|].
  apply shrinks_foldl. intros. apply shrinks_close.
Qed.
Lemma shrinks_Close w : shrinks w (Close w).
Proof.
  unfold Close. pose proof (shrinks_delete_all w) as H. destruct (with_cache _ w) as [l w1].
  simpl in H. eapply shrinks_trans; [exact H|].
  eapply shrinks_trans; [|apply shrinks_foldl; intros; apply shrinks_close].
  split; [simpl; by eauto|]. split; [simpl; by eauto|done].
Qed.
Lemma shrinks_deleteNotFoundByIP p w : shrinks w (deleteDeviceNotFoundByIP p w).
Proof.
  unfold deleteDeviceNotFoundByIP. eapply shrinks_trans; [|apply shrinks_close].
  case_bool_decide; [apply shrinks_LoadAndDeleteDevice|apply shrinks_refl].
Qed.

Definition ids_kept (w w' : CacheWorld) : Prop :=
  ∀ p d, w_devices w !! p = Some d → ∃ d', w_devices w' !! p = Some d' ∧ fd_deviceID d' = fd_deviceID d.

(** [updateOrStoreDevice] of a device of the heap. *)
Lemma updateOrStore_keyed o p d v now w :
  w_devices w !! p = Some d → o ≠ Some (fd_deviceID d) → keyed o w → bounded_ptrs w →
  let w' := (updateOrStoreDevice p v now w).2 in
  keyed o w' ∧ bounded_ptrs w' ∧ ids_kept w w'.
Proof.
  intros Hp Ho Hk Hb. unfold updateOrStoreDevice, device_at. rewrite Hp. simpl.
  pose proof (entries_LoadOrStore (fd_deviceID d) (p, v) now (w_cache w)) as HL.
  destruct (cache_LoadOrStore _ _ _ _) as [[[q v0] loaded] c]. simpl in HL.
  destruct (alive now (entries (w_cache w) !! fd_deviceID d)) as [e0|] eqn:Ea.
  - destruct HL as [[= <- ->] He].
    assert (Hq : ∃ dq, w_devices w !! q = Some dq ∧ fd_deviceID dq = fd_deviceID d).
    { unfold alive in Ea. destruct (entries (w_cache w) !! fd_deviceID d) as [e|] eqn:Ee; [|done].
      destruct (elem_IsExpired now e.2); [done|]. injection Ea as ->.
      destruct (Hk _ _ Ee Ho) as (dq&?&?). by exists dq. }
    destruct Hq as (dq&Hdq&Hid). simpl. rewrite Hp. simpl.
    set (w1 := if (q =? p)%nat then set_w_cache c w
               else upd_device q (fun d0 => UpdateBy d0 d) (set_w_cache c w)).
    assert (Hw1 : keyed o w1 ∧ bounded_ptrs w1 ∧ ids_kept w w1).
    { assert (Hw0 : keyed o (set_w_cache c w)) by (intros k e; simpl; rewrite He; apply Hk).
      subst w1. destruct (Nat.eqb_spec q p) as [->|Hne]; [by split; [|split; [|intros ???; eauto]]|].
      assert (Hi : ids_kept w (upd_device q (fun d0 => UpdateBy d0 d) (set_w_cache c w))).
      { intros p' d' Hp'. simpl. destruct (decide (q = p')) as [<-|]; [|rewrite lookup_alter_ne; eauto].
        rewrite lookup_alter_eq, Hp'. eexists. split; [done|]. simpl. rewrite Hdq in Hp'.
        injection Hp' as <-. done. }
      split; [|split; [|exact Hi]].
      - intros k e Hke Hok. simpl in Hke. rewrite He in Hke. destruct (Hk k e Hke Hok) as (d0&H0&Hid0).
        destruct (Hi _ _ H0) as (d1&H1&Hid1). exists d1. split; [done|congruence].
      - intros p' [d' Hp']. simpl in Hp'. apply lookup_alter_Some in Hp' as [(->&d0&H0&_)|[_ H0]];
          by apply (Hb p'); eauto. }
    destruct Hw1 as (H1&H2&H3).
    destruct (deviceIsStoredWithExpiration (q, v0)); [|by split].
    pose proof (shrinks_SetValidUntil (fd_deviceID d) v w1) as Hs. simpl. split; [|split].
    + by eapply shrinks_keyed.
    + by apply Hs.
    + intros p' d' Hp'. destruct (H3 p' d' Hp') as (d1&Hd1&?). destruct Hs as (_&Hs&_).
      destruct (Hs _ _ Hd1) as (d2&?&?). exists d2. split; [done|congruence].
  - destruct HL as [[= -> -> ->] He]. simpl. split; [|split].
    + intros k e. simpl. rewrite He. intros [[<- <-]|[_ Hke]]%lookup_insert_Some Hok; eauto.
    + done.
    + intros p' d' Hp'. eauto.
Qed.

(** ** All runs *)

Inductive CacheOp :=
  | OpStore (d : Found) (expires : bool) (now : Z)        (** a found device is stored *)
  | OpGet (k : string) (now : Z)
  | OpTry (k : string) (now : Z)
  | OpDelete (ids : list string)
  | OpRemove (p : nat)                                    (** a device that failed *)
  | OpCheck (now : Z)
  | OpOwned (p : nat) (old new : string) (now : Z)        (** ownership changed the ID *)
  | OpClose.

Definition cache_exec (w : CacheWorld) (op : CacheOp) : CacheWorld :=
  match op with
  | OpStore d expires now =>
      let (p, w) := alloc d w in
      (if expires then UpdateOrStoreDeviceWithExpiration deviceExpiration p now w
       else UpdateOrStoreDevice p now w).2
  | OpGet k now => (GetDevice deviceExpiration k now w).2
  | OpTry k now => (TryToChangeDeviceExpirationToDefault deviceExpiration k now w).2
  | OpDelete ids => (DeleteDevices ids w).2
  | OpRemove p => deleteDeviceNotFoundByIP p w
  | OpCheck now => check_expirations deviceExpiration now w
  | OpOwned p old new now =>
      match w_devices w !! p, entries (w_cache w) !! old with
      | Some _, Some (q, _) =>
          if (q =? p)%nat
          then updateCache deviceExpiration p old now (upd_device p (SetDeviceID new) w) else w
      | _, _ => w
      end
  | OpClose => Close w
  end.

Definition CacheInv (w : CacheWorld) : Prop := keyed None w ∧ bounded_ptrs w.

Lemma CacheInv_shrinks w w' : shrinks w w' → CacheInv w → CacheInv w'.
Proof. intros Hs [Hk Hb]. split; [by eapply shrinks_keyed|]. by apply Hs. Qed.

Lemma CacheInv_alloc d w : CacheInv w →
  let r := alloc d w in CacheInv r.2 ∧ w_devices r.2 !! r.1 = Some d.
Proof.
  intros [Hk Hb]. simpl. split; [|apply lookup_insert_eq]. split.
  - intros k e He _. destruct (Hk k e He ltac:(done)) as (d'&Hd'&Hid). exists d'. split; [|done]. simpl.
    rewrite lookup_insert_ne; [done|]. intros E. assert (e.1 < w_next w)%nat by (apply Hb; eauto). lia.
  - intros p [d' Hd']. simpl in *. apply lookup_insert_Some in Hd' as [[<- _]|[_ Hd']]; [lia|].
    assert (p < w_next w)%nat by (apply Hb; eauto). lia.
Qed.

Lemma LoadAndDeleteDevice_entries k w :
  entries (w_cache (LoadAndDeleteDevice k w).2) = delete k (entries (w_cache w)) ∧
  w_devices (LoadAndDeleteDevice k w).2 = w_devices w ∧ w_next (LoadAndDeleteDevice k w).2 = w_next w.
Proof.
  unfold LoadAndDeleteDevice, LoadAndDeleteDevices. cbn [length Nat.eqb load_and_delete_each].
  destruct (load_and_delete_entries k w) as (H1&H2&H3&_). by destruct (load_and_delete k w).
Qed.

(** The device [p] is renamed: its old key is the only one that does not match. *)
Lemma rename_keyed p d old new w :
  w_devices w !! p = Some d → fd_deviceID d = old → CacheInv w →
  let w1 := upd_device p (SetDeviceID new) w in
  keyed (Some old) w1 ∧ bounded_ptrs w1 ∧ w_devices w1 !! p = Some (SetDeviceID new d).
Proof.
  intros Hp Hid [Hk Hb]. cbv zeta. split; [|split].
  - intros k e He Ho. simpl in He. destruct (Hk k e He ltac:(done)) as (d0&H0&Hid0). exists d0.
    split; [|done]. simpl. rewrite lookup_alter_ne; [done|]. intros ->.
    rewrite Hp in H0. injection H0 as <-. congruence.
  - intros q [dq Hq]. simpl in Hq. apply lookup_alter_Some in Hq as [(->&d0&H0&_)|[_ H0]];
      by apply (Hb q); eauto.
  - simpl. by rewrite lookup_alter_eq, Hp.
Qed.

Lemma CacheInv_owned p old new now w : CacheInv w → CacheInv (cache_exec w (OpOwned p old new now)).
Proof.
  intros HI. cbn [cache_exec]. destruct (w_devices w !! p) as [d|] eqn:Hp; [|done].
  destruct (entries (w_cache w) !! old) as [[q v]|] eqn:He; [|done].
  destruct (Nat.eqb_spec q p) as [->|]; [|done].
  assert (Hid : fd_deviceID d = old).
  { destruct HI as [Hk _]. destruct (Hk _ _ He ltac:(done)) as (d0&H0&?). simpl in H0. congruence. }
  destruct (rename_keyed p d old new w Hp Hid HI) as (Hk&Hb&Hp1).
  assert (Hat : device_at p (upd_device p (SetDeviceID new) w) = SetDeviceID new d).
  { unfold device_at. by rewrite Hp1. }
  unfold updateCache. case_bool_decide as Hne; rewrite Hat in Hne; simpl in Hne.
  { split; [|done]. rewrite <-Hid in *. intros k e Hke _.
    destruct (decide (k = fd_deviceID d)) as [->|Hn]; [|apply Hk; [done|congruence]].
    simpl in Hke. rewrite He in Hke. injection Hke as <-. eexists. split; [exact Hp1|]. exact Hne. }
  set (w1 := upd_device p (SetDeviceID new) w) in *.
  assert (Hs : ∀ exp, let w2 := (updateOrStoreDevice p exp now w1).2 in
                keyed (Some old) w2 ∧ bounded_ptrs w2).
  { intros exp. destruct (updateOrStore_keyed (Some old) p _ exp now w1 Hp1) as (?&?&?); try done.
    intros [= E]. by apply Hne. }
  assert (Hd : ∀ w2, keyed (Some old) w2 → bounded_ptrs w2 → CacheInv (LoadAndDeleteDevice old w2).2).
  { intros w2 Hk2 Hb2. destruct (LoadAndDeleteDevice_entries old w2) as (E1&E2&E3). split.
    - intros k e. rewrite E1, E2. intros [Hn Hke]%lookup_delete_Some _. apply Hk2; [done|congruence].
    - unfold bounded_ptrs. by rewrite E2, E3. }
  destruct (GetDeviceExpiration old now w1) as [exp|]; [destruct (exp =? 0)|];
    apply Hd; apply Hs.
Qed.

Lemma CacheInv_exec w op : CacheInv w → CacheInv (cache_exec w op).
Proof.
  intros HI. destruct op as [d expires now|k0 now|k0 now|ids|p|now|p old new now|];
    [|eapply CacheInv_shrinks; [|exact HI]..| |eapply CacheInv_shrinks; [|exact HI]].
  - cbn [cache_exec]. destruct (CacheInv_alloc d w HI) as [[Hk Hb] Hp]. destruct (alloc d w) as [p w1].
    simpl in Hk, Hb, Hp. destruct expires;
      edestruct (updateOrStore_keyed None p d) as (?&?&?); [exact Hp|done|exact Hk|exact Hb|by split|
      exact Hp|done|exact Hk|exact Hb|by split].
  - apply shrinks_GetDevice.
  - apply shrinks_Try.
  - apply shrinks_DeleteDevices.
  - apply shrinks_deleteNotFoundByIP.
  - apply shrinks_check.
  - by apply CacheInv_owned.
  - apply shrinks_Close.
Qed.
Lemma CacheInv_execs ops w : CacheInv w → CacheInv (foldl cache_exec w ops).
Proof. revert w. induction ops as [|op ops IH]; intros w HI; [done|]. by apply IH, CacheInv_exec. Qed.
Lemma CacheInv_New : CacheInv NewDeviceCache.
Proof.
  split; [intros k' e'; simpl; by rewrite entries_NewCache, lookup_empty|].
  intros p [d Hp]. simpl in Hp; by rewrite lookup_empty in Hp.
Qed.

(** Every device in the cache is under its own ID, whatever was found, refreshed,
    expired, deleted or owned under a new ID: so no device is under two keys, and a device
    that was found again is updated where it is. *)
Theorem devices_keyed ops k e :
  entries (w_cache (foldl cache_exec NewDeviceCache ops)) !! k = Some e →
  ∃ d, w_devices (foldl cache_exec NewDeviceCache ops) !! e.1 = Some d ∧ fd_deviceID d = k.
Proof.
  intros He. destruct (CacheInv_execs ops _ CacheInv_New) as [Hk _]. by apply (Hk k e He).
Qed.

(** A device stays in the heap. *)
Definition allocated (p : nat) (w : CacheWorld) : Prop := is_Some (w_devices w !! p).
Lemma shrinks_allocated p w w' : shrinks w w' → allocated p w → allocated p w'.
Proof. intros (_&H&_) [d Hd]. destruct (H p d Hd) as (d'&?&_). by eexists. Qed.
Lemma allocated_upd p q f w : allocated p w → allocated p (upd_device q f w).
Proof.
  unfold allocated. simpl. intros [d Hd]. destruct (decide (q = p)) as [->|];
    [rewrite lookup_alter_eq, Hd|rewrite lookup_alter_ne, Hd by done]; by eexists.
Qed.
Lemma allocated_alloc p d w : bounded_ptrs w → allocated p w → allocated p (alloc d w).2.
Proof.
  intros Hb Hp. unfold allocated. simpl. rewrite lookup_insert_ne; [done|].
  specialize (Hb p Hp). lia.
Qed.
Lemma allocated_updateOrStore p q v now w : allocated p w → allocated p (updateOrStoreDevice q v now w).2.
Proof.
  intros Hp. unfold updateOrStoreDevice. destruct (cache_LoadOrStore _ _ _ _) as [[e l] c].
  assert (H0 : allocated p (set_w_cache c w)) by done.
  destruct l; [|done]. assert (H1 : allocated p (if (e.1 =? q)%nat then set_w_cache c w
      else upd_device e.1 (fun d => UpdateBy d (device_at q (set_w_cache c w))) (set_w_cache c w))).
  { destruct (_ =? _)%nat; [done|by apply allocated_upd]. }
  destruct (deviceIsStoredWithExpiration e); exact H1.
Qed.
Lemma allocated_owned p q old new now w :
  allocated p w → allocated p (cache_exec w (OpOwned q old new now)).
Proof.
  intros Hp. cbn [cache_exec]. destruct (w_devices w !! q); [|done].
  destruct (entries (w_cache w) !! old) as [[r v]|]; [|done]. destruct (r =? q)%nat; [|done].
  unfold updateCache. case_bool_decide; [by apply allocated_upd|].
  eapply shrinks_allocated; [apply shrinks_LoadAndDeleteDevice|].
  destruct (GetDeviceExpiration old now _) as [exp|]; [destruct (exp =? 0)|];
    by apply allocated_updateOrStore, allocated_upd.
Qed.
Lemma allocated_exec p w op : CacheInv w → allocated p w → allocated p (cache_exec w op).
Proof.
  intros [_ Hb] Hp. destruct op as [d expires now|k0 now|k0 now|ids|q|now|q old new now|];
    [|eapply shrinks_allocated; [|exact Hp]..|by apply allocated_owned|eapply shrinks_allocated; [|exact Hp]].
  - cbn [cache_exec]. pose proof (allocated_alloc p d w Hb Hp) as Ha. destruct (alloc d w) as [q w1].
    destruct expires; by apply allocated_updateOrStore.
  - apply shrinks_GetDevice.
  - apply shrinks_Try.
  - apply shrinks_DeleteDevices.
  - apply shrinks_deleteNotFoundByIP.
  - apply shrinks_check.
  - apply shrinks_Close.
Qed.
Lemma allocated_execs p ops w : CacheInv w → allocated p w → allocated p (foldl cache_exec w ops).
Proof.
  revert w. induction ops as [|op ops IH]; intros w HI Hp; [done|].
  apply IH; [by apply CacheInv_exec | by apply allocated_exec].
Qed.

(** ** Expirations *)

(** A device that is used stays: after [GetDevice] has found a device, it finds the same
    one again until the expiration of the cache has passed since then, and for ever when
    the cache has none or the device is stored without. *)
Theorem GetDevice_refreshes (k : string) now w p :
  (GetDevice deviceExpiration k now w).1 = Some p →
  let w' := (GetDevice deviceExpiration k now w).2 in
  ∀ now', now' <= now + deviceExpiration ∨ deviceExpiration <= 0 →
    (GetDevice deviceExpiration k now' w').1 = Some p.
Proof.
  unfold GetDevice. rewrite entries_Load. unfold alive at 1 2.
  destruct (entries (w_cache w) !! k) as [[q v]|] eqn:He; [|done]. simpl.
  destruct (elem_IsExpired now v) eqn:Ex; [done|]. simpl. intros [= ->] now' Hnow.
  unfold deviceIsStoredWithExpiration. simpl. destruct (Z.eqb_spec v 0) as [->|Hv]; simpl.
  - rewrite entries_Load, He. simpl. by rewrite zero_never_expires.
  - rewrite entries_Load, entries_SetValidUntil, lookup_alter_eq, He. simpl.
    unfold getNextExpiration. destruct (Z.leb_spec deviceExpiration 0) as [Hd|Hd].
    + by rewrite zero_never_expires.
    + rewrite valid_not_expired by lia. done.
Qed.

(** What takes a device out of the cache or gives it an expiration. *)
Definition touches (k : string) (w : CacheWorld) (op : CacheOp) : Prop :=
  match op with
  | OpStore _ _ _ | OpGet _ _ | OpCheck _ => False
  | OpTry k' _ => k' = k
  | OpDelete ids => ids = [] ∨ k ∈ ids
  | OpRemove p => fd_deviceID (device_at p w) = k ∧ fd_foundByIP (device_at p w) = ""
  | OpOwned _ old _ _ => old = k
  | OpClose => True
  end.

Lemma SetValidUntil_other (k k' : string) v c e :
  entries c !! k = Some e → k' ≠ k → entries (cache_SetValidUntil k' v c) !! k = Some e.
Proof. intros He Hn. by rewrite entries_SetValidUntil, lookup_alter_ne. Qed.
Lemma updateOrStore_permanent (k : string) p q exp now w :
  entries (w_cache w) !! k = Some ((p, 0) : Element) →
  entries (w_cache (updateOrStoreDevice q exp now w).2) !! k = Some ((p, 0) : Element).
Proof.
  intros He. unfold updateOrStoreDevice. set (id := fd_deviceID (device_at q w)).
  pose proof (entries_LoadOrStore id (q, exp) now (w_cache w)) as HL.
  destruct (cache_LoadOrStore _ _ _ _) as [[[r v0] loaded] c]. simpl in HL.
  assert (Hal : alive now (entries (w_cache w) !! k) = Some (p, 0 : Z)).
  { rewrite He. simpl. by rewrite zero_never_expires. }
  destruct (decide (id = k)) as [E|Hne].
  - rewrite E, Hal in HL. destruct HL as [[= -> -> ->] HL]. simpl. by destruct (p =? q)%nat; simpl; rewrite HL.
  - assert (Hc : entries c !! k = Some (p, 0)).
    { destruct (alive now (entries (w_cache w) !! id)); destruct HL as [_ ->]; [done|].
      by rewrite lookup_insert_ne. }
    destruct loaded; [|done]. destruct (deviceIsStoredWithExpiration (r, v0)); simpl.
    + apply SetValidUntil_other; [|done]. by destruct (r =? q)%nat.
    + by destruct (r =? q)%nat.
Qed.
Lemma each_other ids (k : string) w e :
  entries (w_cache w) !! k = Some e → k ∉ ids →
  entries (w_cache (load_and_delete_each ids w).2) !! k = Some e.
Proof.
  revert w. induction ids as [|i ids IH]; intros w He Hn; [done|]. cbn [load_and_delete_each].
  destruct (load_and_delete_entries i w) as (H1&_). destruct (load_and_delete i w) as [d w1]. simpl in H1.
  specialize (IH w1). destruct (load_and_delete_each ids w1) as [ds w2]. cbn [snd] in *. apply IH.
  - rewrite H1. rewrite lookup_delete_ne; [done|]. intros ->. apply Hn. by left.
  - intros Hin. apply Hn. by right.
Qed.
Lemma close_device_cache p w : w_cache (close_device p w) = w_cache w.
Proof. done. Qed.
Lemma close_foldl_cache {A} (f : A → nat) l w :
  w_cache (foldl (fun w x => close_device (f x) w) w l) = w_cache w.
Proof. revert w. induction l as [|x l IH]; intros w; [done|]. simpl. by rewrite IH. Qed.
Lemma DeleteDevices_cache ids w :
  w_cache (DeleteDevices ids w).2 = w_cache (LoadAndDeleteDevices ids w).2.
Proof.
  unfold DeleteDevices. destruct (LoadAndDeleteDevices ids w) as [devs w1]. simpl.
  assert (H : ∀ acc w1, w_cache (foldl (fun '(ids, w) p =>
            (ids ++ [fd_deviceID (device_at p w)], close_device p w)) (acc, w1) devs).2 = w_cache w1); [|apply H].
  clear. induction devs as [|p devs IH]; intros acc w1; [done|]. simpl. by rewrite IH.
Qed.

(** A device that is stored without an expiration stays in the cache, permanent and the
    same, whatever is found, used or expires: only deleting it, closing the cache, asking
    for its default expiration or owning it under a new ID changes that. *)
Theorem permanent_stays (k : string) p w op :
  entries (w_cache w) !! k = Some ((p, 0) : Element) → ¬ touches k w op →
  entries (w_cache (cache_exec w op)) !! k = Some ((p, 0) : Element).
Proof.
  intros He Ht. destruct op as [d expires now|k' now|k' now|ids|q|now|q old new now|]; simpl in Ht.
  - cbn [cache_exec]. destruct (alloc d w) as [q w1] eqn:Ea. injection Ea as <- <-.
    destruct expires; by apply updateOrStore_permanent.
  - simpl. unfold GetDevice. rewrite entries_Load. destruct (decide (k' = k)) as [->|Hn].
    + rewrite He. simpl. rewrite zero_never_expires. done.
    + destruct (alive now (entries (w_cache w) !! k')) as [e|]; [|done]. simpl.
      destruct (deviceIsStoredWithExpiration e); [by apply SetValidUntil_other|done].
  - simpl. unfold TryToChangeDeviceExpirationToDefault. destruct (cache_Load k' now (w_cache w)); [|done].
    case_bool_decide; [by apply SetValidUntil_other|done].
  - cbn [cache_exec]. rewrite DeleteDevices_cache. unfold LoadAndDeleteDevices.
    destruct ids as [|i ids]; [destruct Ht; by left|]. cbn [length Nat.eqb].
    apply each_other; [done|]. intros Hin. apply Ht. by right.
  - cbn [cache_exec]. unfold deleteDeviceNotFoundByIP. rewrite close_device_cache. case_bool_decide; [|done].
    destruct (LoadAndDeleteDevice_entries (fd_deviceID (device_at q w)) w) as (->&_).
    rewrite lookup_delete_ne; [done|]. intros E. by apply Ht.
  - simpl. unfold check_expirations. destruct (deviceExpiration <=? 0); [done|].
    pose proof (entries_CheckExpirations now (w_cache w)) as Hc. unfold with_cache.
    destruct (cache_CheckExpirations now (w_cache w)) as [ev c]. simpl in *.
    rewrite (close_foldl_cache (fun p => p)). simpl. rewrite Hc. apply map_lookup_filter_Some.
    split; [done|]. apply zero_never_expires.
  - simpl. destruct (w_devices w !! q); [|done]. destruct (entries (w_cache w) !! old) as [[r v]|]; [|done].
    destruct (r =? q)%nat; [|done]. unfold updateCache. case_bool_decide; [done|].
    match goal with |- context [LoadAndDeleteDevice old ?x] => set (w2 := x) end.
    destruct (LoadAndDeleteDevice_entries old w2) as (->&_). rewrite lookup_delete_ne by done. subst w2.
    destruct (GetDeviceExpiration old now _) as [exp|]; [destruct (exp =? 0)|];
      by apply updateOrStore_permanent.
  - by destruct Ht.
Qed.

(** ** An owned device that changes its ID *)

(** When a device is in the cache under its ID, [updateOrStoreDevice] changes no pointer. *)
Lemma updateOrStore_loaded p (id : string) e exp now w :
  fd_deviceID (device_at p w) = id → alive now (entries (w_cache w) !! id) = Some e →
  let r := updateOrStoreDevice p exp now w in
  r.1 = (e.1, true) ∧ w_closed r.2 = w_closed w ∧
  ∀ k e', entries (w_cache r.2) !! k = Some e' → ∃ e0, entries (w_cache w) !! k = Some e0 ∧ e0.1 = e'.1.
Proof.
  intros Hid Ha. unfold updateOrStoreDevice. rewrite Hid.
  pose proof (entries_LoadOrStore id (p, exp) now (w_cache w)) as HL. rewrite Ha in HL.
  destruct (cache_LoadOrStore _ _ _ _) as [[[q v0] loaded] c]. simpl in HL.
  destruct HL as [[= <- ->] He]. cbn [fst snd]. split; [done|].
  set (w1 := if (q =? p)%nat then set_w_cache c w else _).
  assert (Hw1 : w_closed w1 = w_closed w ∧ w_cache w1 = c) by (subst w1; by destruct (q =? p)%nat).
  destruct Hw1 as [E1 E2]. cbn [fst].
  destruct (deviceIsStoredWithExpiration (q, v0)).
  - split; [exact E1|]. intros k e'. cbn [w_cache set_w_cache].
    rewrite entries_SetValidUntil, E2, He, lookup_alter_Some. intros [(<-&e0&He0&->)|[_ He0]]; eauto.
  - split; [exact E1|]. intros k e'. rewrite E2, He. eauto.
Qed.

(** When ownership gives a device the ID of another device that is in the cache, the
    other one is kept and updated, the owned one leaves the cache, and it is not closed:
    no operation of the cache will close its connections. *)
Theorem updateCache_leaks p q v (old : string) now w :
  fd_deviceID (device_at p w) ≠ old → p ≠ q →
  alive now (entries (w_cache w) !! (fd_deviceID (device_at p w) : string)) = Some ((q, v) : Element) →
  (∀ k v, entries (w_cache w) !! k = Some ((p, v) : Element) → k = old) →
  let w' := updateCache deviceExpiration p old now w in
  (∀ k v, entries (w_cache w') !! k ≠ Some ((p, v) : Element)) ∧ w_closed w' = w_closed w.
Proof.
  intros Hid Hpq Ha Hone. cbv zeta. unfold updateCache. rewrite bool_decide_eq_false_2 by done.
  match goal with |- context [LoadAndDeleteDevice old ?x] => set (w2 := x) end.
  assert (H2 : w_closed w2 = w_closed w ∧ ∀ k e', entries (w_cache w2) !! k = Some e' →
                 ∃ e0, entries (w_cache w) !! k = Some e0 ∧ e0.1 = e'.1).
  { assert (Hu : ∀ exp, let r := updateOrStoreDevice p exp now w in
      w_closed r.2 = w_closed w ∧ ∀ k e', entries (w_cache r.2) !! k = Some e' →
                 ∃ e0, entries (w_cache w) !! k = Some e0 ∧ e0.1 = e'.1).
    { intros exp. by destruct (updateOrStore_loaded p _ _ exp now w eq_refl Ha) as (_&?&?). }
    subst w2. destruct (GetDeviceExpiration old now w) as [exp|]; [destruct (exp =? 0)|]; apply Hu. }
  destruct H2 as [Hc H2]. destruct (LoadAndDeleteDevice_entries old w2) as (E1&_&_). split.
  - intros k v'. rewrite E1. intros [Hk He]%lookup_delete_Some.
    destruct (H2 _ _ He) as ([p0 v0]&He0&Ep). simpl in Ep. subst p0. by apply Hk, eq_sym, (Hone k v0).
  - rewrite <-Hc. unfold LoadAndDeleteDevice, LoadAndDeleteDevices. cbn [length Nat.eqb load_and_delete_each].
    unfold load_and_delete, with_cache. by destruct (cache_LoadAndDelete old (w_cache w2)).
Qed.
End Keyed.

(** ** Witnesses *)

Definition ex_found (id : string) : Found := NewDevice id [] [].
(** Two devices are found, the second one again; the first one is then owned as ["c"]. *)
Definition ex_ops : list CacheOp :=
  [OpStore (ex_found "a") false 5; OpStore (ex_found "b") true 5; OpStore (ex_found "b") true 6;
   OpOwned 0 "a" "c" 7].

Lemma devices_keyed_witness :
  entries (w_cache (foldl (cache_exec 10) NewDeviceCache ex_ops)) !! "c" = Some (0%nat, 0) ∧
  ∃ d, w_devices (foldl (cache_exec 10) NewDeviceCache ex_ops) !! 0%nat = Some d ∧ fd_deviceID d = "c".
Proof.
  split; [vm_compute; reflexivity|].
  apply (devices_keyed 10 ex_ops "c" (0%nat, 0)). vm_compute. reflexivity.
Defined.

Definition ex_cache : CacheWorld := foldl (cache_exec 10) NewDeviceCache ex_ops.
Lemma GetDevice_refreshes_witness :
  (GetDevice 10 "b" 16 ex_cache).1 = Some 1%nat ∧
  (GetDevice 10 "b" 26 (GetDevice 10 "b" 16 ex_cache).2).1 = Some 1%nat.
Proof.
  split; [vm_compute; reflexivity|].
  apply (GetDevice_refreshes 10 "b" 16 ex_cache 1%nat); [vm_compute; reflexivity|left; lia].
Defined.

Lemma permanent_stays_witness :
  entries (w_cache (cache_exec 10 ex_cache (OpCheck 1000))) !! "c" = Some (0%nat, 0).
Proof. apply permanent_stays; [vm_compute; reflexivity|intros []]. Defined.

(** ["a"] is owned and becomes ["b"], which is in the cache. *)
Definition ex_renamed : CacheWorld :=
  upd_device 0 (SetDeviceID "b") (foldl (cache_exec 10) NewDeviceCache (firstn 2 ex_ops)).
Lemma updateCache_leaks_witness :
  let w' := updateCache 10 0 "a" 7 ex_renamed in
  (∀ k v, entries (w_cache w') !! k ≠ Some ((0%nat, v) : Element)) ∧ w_closed w' = w_closed ex_renamed.
Proof.
  apply (updateCache_leaks 10 0 1 15 "a" 7 ex_renamed); [by vm_compute|done|by vm_compute|].
  intros k v He. assert (H : entries (w_cache ex_renamed) = <["a" := (0%nat, 0)]> {["b" := (1%nat, 15)]})
    by (vm_compute; reflexivity).
  rewrite H in He. apply lookup_insert_Some in He as [[<- _]|[_ He]]; [done|].
  apply lookup_singleton_Some in He as [_ [=]].
Defined.
