(* ===== verification/ClientDevices.v ===== *)
(** * ClientDevices: getting a device

    [src/client/getDevice.go] with [GetResourceLinks] of [src/client/core/getResourceLinks.go]:
    a device is taken from the cache, found by multicast or by the address it was found by
    before, and its links are read each time.

    The answers of the network are those of [DevicesEnv]; the searches are the ones of
    Discovery, the cache is the one of DeviceCache.  While a call waits for the network,
    other goroutines may use the cache: [denv_others] says how. *)

From S2P Require Export DeviceCache Details.

Class DevicesEnv `{Kit} := {
  DvEnv : Type;
  denv_now : DvEnv → Z * DvEnv;                                   (** [time.Now] *)
  denv_multicast : string → DvEnv → Multicast * DvEnv;            (** a search of one device *)
  denv_byIP : DvEnv → (string → Multicast) * DvEnv;               (** searches at an address *)
  denv_resources : Found → DvEnv → result (Addr * ResourceLinks) * DvEnv;
      (** [connectToEndpoints], then the answer of /oic/res *)
  denv_others : DvEnv → list CacheOp * DvEnv }.

Definition ErrOutOfFuel : error := ErrText "out of fuel".
Definition ErrIndexOutOfRange : error := ErrText "index out of range".

Section ClientDevices.
Context `{HKit : Kit} `{HCache : GoCache} `{HDE : DevicesEnv}.
Context (deviceExpiration : Z) (disableUDPEndpoints : bool).

Record DvWorld := { dv_cache : CacheWorld; dv_env : DvEnv }.
Abbreviation DM := (ME DvWorld).

(** ** What the calls do to the world *)

Definition dv_ask {A} (f : DvEnv → A * DvEnv) : DM A :=
  fun w => let (a, e) := f (dv_env w) in (Ok a, {| dv_cache := dv_cache w; dv_env := e |}).
Definition cop {A} (f : CacheWorld → A * CacheWorld) : DM A :=
  fun w => let (a, c) := f (dv_cache w) in (Ok a, {| dv_cache := c; dv_env := dv_env w |}).
Definition others : DM unit :=
  ops ← dv_ask denv_others; cop (fun c => (tt, foldl (cache_exec deviceExpiration) c ops)).
Definition now : DM Z := dv_ask denv_now.
Definition newDevice (d : Found) : DM nat := cop (alloc d).
Definition closeDevice (p : nat) : DM unit := cop (fun c => (tt, close_device p c)).
Definition device (p : nat) : DM Found := gets (fun w => device_at p (dv_cache w)).

(** ** Links *)

Definition core_GetResourceLinks (dev : nat) : DM ResourceLinks :=
  d ← device dev;
  r ← dv_ask (denv_resources d);
  others;;
  match r with
  | Err err => fail (MakeDataLoss (ErrWrap "cannot get resource links" err))
  | Ok (addr, links) => mret (Links_PatchEndpoint links addr (fd_endpoints d))
  end.

Definition getLinksDevice (dev : nat) : DM ResourceLinks :=
  links ← core_GetResourceLinks dev;
  d ← device dev;
  let links := FilterByDeviceID links (fd_deviceID d) in
  if (length links =? 0)%nat then fail (ErrText "cannot get resource links for device: not found")
  else mret (patchResourceLinksEndpoints links disableUDPEndpoints).

(** ** By multicast *)

Definition GetDeviceByMulticast (deviceID : string) : DM (nat * ResourceLinks) :=
  m ← dv_ask (denv_multicast deviceID);
  others;;
  found ← lift (Discovery.GetDeviceByMulticast deviceID m);
  dev ← newDevice found;
  r ← catch (getLinksDevice dev);
  match r with
  | Err err => closeDevice dev;; fail (ErrWrap "cannot get links for device" err)
  | Ok links =>
      t ← now;
      r ← cop (UpdateOrStoreDeviceWithExpiration deviceExpiration dev t);
      let '(retDev, updated) := r in
      when updated (closeDevice dev);;
      mret (retDev, links)
  end.

(** ** By address *)

Fixpoint newDevices_loop (newDevices : list nat) (oldDevs : gmap string nat)
    : DM (list nat * gmap string nat) :=
  match newDevices with
  | [] => mret ([], oldDevs)
  | newDev :: newDevices' =>
      d ← device newDev;
      t ← now;
      r ← cop (UpdateOrStoreDevice newDev t);
      rest ← newDevices_loop newDevices' (delete (fd_deviceID d) oldDevs);
      mret (r.1 :: rest.1, rest.2)
  end.
Definition remove_old (oldDev : nat) : DM unit :=
  d ← device oldDev;
  tmp ← cop (LoadAndDeleteDevice (fd_deviceID d));
  match tmp with Some p => closeDevice p | None => mret tt end.
Fixpoint allocs (ds : list Found) : DM (list nat) :=
  match ds with
  | [] => mret []
  | d :: ds' => p ← newDevice d; ps ← allocs ds'; mret (p :: ps)
  end.

Definition getDeviceByIPWithUpdateCache (ip expectedDeviceID : string) : DM (list nat) :=
  net ← dv_ask denv_byIP;
  others;;
  found ← lift (GetDevicesByIP ip net);
  newDevices ← allocs found;
  t ← now;
  oldDevs ←
    (if bool_decide (expectedDeviceID = "")
     then ds ← cop (fun c => (GetDeviceByFoundIP ip t c, c));
          gets (fun w => foldl (fun m p => <[fd_deviceID (device_at p (dv_cache w)) := p]> m) ∅ ds)
     else r ← cop (GetDevice deviceExpiration expectedDeviceID t);
          mret (match r with Some d => {[ expectedDeviceID := d ]} | None => ∅ end));
  r ← newDevices_loop newDevices oldDevs;
  each (fun kd => remove_old kd.2) (map_to_list r.2);;
  mret r.1.

Fixpoint devsLinks_loop (expectedDeviceID : string) (devs : list nat) : DM (list (nat * ResourceLinks)) :=
  match devs with
  | [] => mret []
  | dev :: devs' =>
      d ← device dev;
      if negb (bool_decide (expectedDeviceID = "")) && negb (bool_decide (fd_deviceID d = expectedDeviceID))
      then devsLinks_loop expectedDeviceID devs'
      else
        r ← catch (getLinksDevice dev);
        match r with
        | Err _ => cop (fun c => (tt, deleteDeviceNotFoundByIP dev c));;
                   devsLinks_loop expectedDeviceID devs'
        | Ok links => rest ← devsLinks_loop expectedDeviceID devs'; mret ((dev, links) :: rest)
        end
  end.

Definition getDevicesByIP (ip expectedDeviceID : string) : DM (list (nat * ResourceLinks)) :=
  devs ← getDeviceByIPWithUpdateCache ip expectedDeviceID;
  devsLinks_loop expectedDeviceID devs.
Definition GetDevicesByIP (ip : string) : DM (list (nat * ResourceLinks)) := getDevicesByIP ip "".
(** [devices[0]] panics when there is none. *)
Definition GetDeviceByIP (ip : string) : DM (nat * ResourceLinks) :=
  devices ← GetDevicesByIP ip;
  match devices with
  | [] => fail ErrIndexOutOfRange
  | d :: _ => mret d
  end.

(** ** From the cache *)

Definition checkAndUpdateCacheByLinks (dev : nat) (links : ResourceLinks) : DM (nat * ResourceLinks) :=
  d ← device dev;
  match GetResourceLinks links [device_ResourceType] with
  | [] => fail (ErrText "cannot get resourceType for device: not found")
  | devLink :: _ =>
      if bool_decide (GetDeviceID devLink = fd_deviceID d) then mret (dev, links)
      else
        tmp ← cop (LoadAndDeleteDevice (fd_deviceID d));
        match tmp with
        | Some p =>
            cop (fun c => (tt, upd_device p (SetDeviceID (GetDeviceID devLink)) c));;
            t ← now;
            r ← cop (UpdateOrStoreDeviceWithExpiration deviceExpiration p t);
            when r.2 (closeDevice p)
        | None => mret tt
        end;;
        fail (ErrText "cannot get device: not found")
  end.

(** The recursive call is made after the device was taken out of the cache. *)
Fixpoint Client_GetDevice (fuel : nat) (deviceID : string) : DM (nat * ResourceLinks) :=
  match fuel with
  | O => fail ErrOutOfFuel
  | S fuel' =>
      t ← now;
      cached ← cop (GetDevice deviceExpiration deviceID t);
      match cached with
      | None => GetDeviceByMulticast deviceID
      | Some dev =>
          r ← catch (getLinksDevice dev);
          match r with
          | Ok links => checkAndUpdateCacheByLinks dev links
          | Err _ =>
              d ← device dev;
              if bool_decide (fd_foundByIP d = "")
              then cop (fun c => (tt, deleteDeviceNotFoundByIP dev c));;
                   Client_GetDevice fuel' deviceID
              else
                devLinks ← getDevicesByIP (fd_foundByIP d) deviceID;
                match devLinks with
                | [] => fail (ErrText "cannot get device: not found")
                | d :: _ => mret d
                end
          end
      end
  end.
End ClientDevices.
Arguments DvWorld {_ _ _}.

(** ** The cache stays well formed *)

Section Invariant.
Context `{HKit : Kit} `{HCache : GoCache} `{HLaws : !GoCacheLaws}.
Context `{HDE : !DevicesEnv}.
Context (deviceExpiration : Z) (disableUDPEndpoints : bool).
Abbreviation DM := (ME DvWorld).

(** The cache is well formed and the devices [ps] are allocated. *)
Definition DvI (ps : list nat) (w : DvWorld) : Prop :=
  CacheInv (dv_cache w) ∧ Forall (fun p => allocated p (dv_cache w)) ps.
(** A call that keeps this, and whose result holds the devices [f]. *)
Definition adds {A} (ps : list nat) (m : DM A) (f : A → list nat) : Prop :=
  triple (DvI ps) m (fun r w => match r with Ok a => DvI (f a ++ ps) w | Err _ => DvI ps w end).

Lemma DvI_app qs ps w : DvI (qs ++ ps) w → DvI ps w.
Proof. intros [HI Hp]. apply Forall_app in Hp as [_ Hp]. by split. Qed.
Lemma dvadds_bind {A B} ps (m : DM A) (k : A → DM B) f g :
  adds ps m f → (∀ a, adds (f a ++ ps) (k a) g) → adds ps (m ≫= k) g.
Proof.
  intros Hm Hk. apply triple_bind with (T := fun a => DvI (f a ++ ps)).
  - intros w Hw. specialize (Hm w Hw). by destruct (m w) as [[a|e] w'].
  - intros a w Hw. specialize (Hk a w Hw). destruct (k a w) as [[b|e] w']; simpl in *.
    + destruct Hk as [HI Hp]. split; [done|]. rewrite !Forall_app in Hp. rewrite Forall_app. tauto.
    + by apply DvI_app in Hk.
Qed.
Lemma dvadds_frame {A} ps (m : DM A) f :
  (∀ w, DvI [] w → CacheInv (dv_cache (m w).2)) →
  (∀ w p, DvI [] w → allocated p (dv_cache w) → allocated p (dv_cache (m w).2)) →
  (∀ a w, (m w).1 = Ok a → DvI ps w → Forall (fun p => allocated p (dv_cache (m w).2)) (f a)) →
  adds ps m f.
Proof.
  intros H1 H2 H3 w [HI Hp]. assert (Hw : DvI [] w) by by split.
  assert (Hps : Forall (fun p => allocated p (dv_cache (m w).2)) ps).
  { eapply Forall_impl; [exact Hp|]. intros p. by apply H2. }
  specialize (H1 w Hw). destruct (m w) as [[a|e] w'] eqn:E; simpl in *; [|by split].
  split; [done|]. apply Forall_app. split; [|done]. specialize (H3 a w). rewrite E in H3. by apply H3.
Qed.
(** Calls that leave the cache alone. *)
Lemma dvadds_same {A} ps (m : DM A) : (∀ w, dv_cache (m w).2 = dv_cache w) → adds ps m (fun _ => []).
Proof. intros H. apply dvadds_frame; [intros w [HI _]|intros w p _ Hp|by intros; apply Forall_nil_2]; by rewrite H. Qed.
Lemma dvadds_ret {A} ps (a : A) f : (∀ p, p ∈ f a → p ∈ ps) → adds ps (mret a) f.
Proof.
  intros H w [HI Hp]. simpl. split; [done|]. apply Forall_app. split; [|done].
  apply Forall_forall. intros p Hin. rewrite Forall_forall in Hp. auto.
Qed.
Lemma dvadds_fail {A} ps e (f : A → list nat) : adds ps (fail e) f.
Proof. by intros w Hw. Qed.
Lemma dvadds_lift {A} ps (r : result A) : adds ps (lift r) (fun _ => []).
Proof. by apply dvadds_same. Qed.
Lemma dvadds_catch {A} ps (m : DM A) f :
  adds ps m f → adds ps (catch m) (fun r => match r with Ok a => f a | Err _ => [] end).
Proof. intros Hm w Hw. specialize (Hm w Hw). unfold catch. by destruct (m w) as [[a|e] w']. Qed.
Lemma dvadds_ask {A} ps (f : DvEnv → A * DvEnv) : adds ps (dv_ask f) (fun _ => []).
Proof. apply dvadds_same. intros w. unfold dv_ask. by destruct (f (dv_env w)). Qed.
Lemma dvadds_now ps : adds ps now (fun _ => []).
Proof. apply dvadds_ask. Qed.
Lemma dvadds_device ps p : adds ps (device p) (fun _ => []).
Proof. by apply dvadds_same. Qed.
Lemma dvadds_gets {A} ps (f : DvWorld → A) : adds ps (gets f) (fun _ => []).
Proof. by apply dvadds_same. Qed.

Lemma cop_cache {A} (f : CacheWorld → A * CacheWorld) w :
  (cop f w).1 = Ok (f (dv_cache w)).1 ∧ dv_cache (cop f w).2 = (f (dv_cache w)).2.
Proof. unfold cop. by destruct (f (dv_cache w)). Qed.
Lemma dvadds_cop_shrinks {A} ps (f : CacheWorld → A * CacheWorld) :
  (∀ c, shrinks c (f c).2) → adds ps (cop f) (fun _ => []).
Proof.
  intros Hf. apply dvadds_frame; [intros w [HI _]|intros w p _ Hp|by intros; apply Forall_nil_2];
    destruct (cop_cache f w) as [_ ->]; [by eapply CacheInv_shrinks|by eapply shrinks_allocated].
Qed.
Lemma dvadds_others ps : adds ps (others deviceExpiration) (fun _ => []).
Proof.
  unfold others. apply dvadds_bind with (f := fun _ => []); [apply dvadds_ask|]. intros ops.
  apply dvadds_frame; [intros w [HI _]|intros w p [HI _] Hp|by intros; apply Forall_nil_2].
  - by apply CacheInv_execs.
  - by apply allocated_execs.
Qed.
Lemma dvadds_newDevice ps d : adds ps (newDevice d) (fun p => [p]).
Proof.
  apply dvadds_frame; [intros w [HI _]|intros w p [[_ Hb] _] Hp|intros a w Ha [HI _]].
  - by apply (CacheInv_alloc d).
  - by apply (allocated_alloc p d).
  - constructor; [|done]. destruct (CacheInv_alloc d _ HI) as [_ H].
    destruct (cop_cache (alloc d) w) as [E1 E2]. unfold newDevice in *. rewrite E1 in Ha. injection Ha as <-.
    rewrite E2. by eexists.
Qed.
Lemma dvadds_close ps p : adds ps (closeDevice p) (fun _ => []).
Proof. apply dvadds_cop_shrinks. intros c. apply shrinks_close. Qed.
Lemma dvadds_LoadAndDelete ps k : adds ps (cop (LoadAndDeleteDevice k)) (fun _ => []).
Proof. apply dvadds_cop_shrinks. apply shrinks_LoadAndDeleteDevice. Qed.

(** What [updateOrStoreDevice] returns is in the cache, under the ID of the device. *)
Lemma updateOrStore_returns p exp t c (id := fd_deviceID (device_at p c)) :
  let r := updateOrStoreDevice p exp t c in
  ∃ v, entries (w_cache r.2) !! (id : string) = Some ((r.1.1, v) : Element) ∧
       (exp = 0 → v = 0).
Proof.
  cbv zeta. subst id. unfold updateOrStoreDevice. set (id := fd_deviceID (device_at p c)).
  pose proof (entries_LoadOrStore id (p, exp) t (w_cache c)) as HL.
  destruct (cache_LoadOrStore _ _ _ _) as [[[q v0] loaded] c1]. simpl in HL.
  destruct (alive t (entries (w_cache c) !! id)) as [e0|] eqn:Ea.
  - destruct HL as [[= <- ->] He].
    assert (H1 : entries c1 !! id = Some ((q, v0) : Element)).
    { rewrite He. unfold alive in Ea. destruct (entries (w_cache c) !! id) as [e|]; [|done].
      destruct (elem_IsExpired t e.2); [done|]. by injection Ea as ->. }
    cbn [fst]. match goal with |- context [if (q =? p)%nat then ?x else ?y] =>
      set (w1 := if (q =? p)%nat then x else y) end.
    assert (Hw1 : w_cache w1 = c1) by (subst w1; by destruct (q =? p)%nat).
    unfold deviceIsStoredWithExpiration. cbn [snd fst]. destruct (Z.eqb_spec v0 0) as [->|Hv]; simpl.
    + exists 0. rewrite Hw1. by split.
    + exists exp. rewrite entries_SetValidUntil, lookup_alter_eq, Hw1, H1. by split.
  - destruct HL as [[= -> -> ->] He]. simpl. exists exp. rewrite He, lookup_insert_eq. by split.
Qed.
Lemma dvadds_updateOrStore ps p exp t :
  p ∈ ps → adds ps (cop (updateOrStoreDevice p exp t)) (fun r => [r.1]).
Proof.
  intros Hp w [HI Hps]. assert (Ha : allocated p (dv_cache w)) by by rewrite Forall_forall in Hps; apply Hps.
  destruct Ha as [d Hd]. destruct (cop_cache (updateOrStoreDevice p exp t) w) as [-> Ec].
  destruct HI as [Hk Hb]. unfold DvI. rewrite Ec.
  destruct (updateOrStore_keyed None p d exp t (dv_cache w) Hd) as (Hk'&Hb'&_); [done..|].
  destruct (updateOrStore_returns p exp t (dv_cache w)) as (v&He&_).
  split; [by split|]. constructor.
  - destruct (Hk' _ _ He ltac:(done)) as (dq&Hq&_). by eexists.
  - eapply Forall_impl; [exact Hps|]. intros q. apply allocated_updateOrStore.
Qed.

Lemma dvadds_nil {A} ps (m : DM A) f : adds ps m f → adds ps m (fun _ => []).
Proof.
  intros Hm w Hw. specialize (Hm w Hw). destruct (m w) as [[a|e] w']; [|exact Hm]. by apply (DvI_app (f a)).
Qed.
Lemma dvadds_when ps b (m : DM unit) : adds ps m (fun _ => []) → adds ps (when b m) (fun _ => []).
Proof. intros Hm. destruct b; [exact Hm|]. apply dvadds_ret. intros p Hp. by apply not_elem_of_nil in Hp. Qed.

Hint Resolve dvadds_ask dvadds_now dvadds_device dvadds_close dvadds_LoadAndDelete dvadds_others dvadds_newDevice
  dvadds_lift dvadds_gets dvadds_fail : adds.
Ltac in_list := intros; cbn in *; set_solver.
Ltac dvadds_bind_tac := eapply dvadds_bind; [solve [eauto with adds]|intros ?].

Lemma dvadds_getLinksDevice ps p : adds ps (getLinksDevice deviceExpiration disableUDPEndpoints p) (fun _ => []).
Proof.
  unfold getLinksDevice. apply dvadds_bind with (f := fun _ => []).
  - unfold core_GetResourceLinks. do 3 dvadds_bind_tac. case_match; [|apply dvadds_fail]. case_match.
    apply dvadds_ret; in_list.
  - intros links. dvadds_bind_tac. destruct (_ =? _)%nat; [apply dvadds_fail|apply dvadds_ret; in_list].
Qed.
Hint Resolve dvadds_getLinksDevice : adds.
Lemma dvadds_getLinks_catch ps p :
  adds ps (catch (getLinksDevice deviceExpiration disableUDPEndpoints p)) (fun _ => []).
Proof. eapply dvadds_nil, dvadds_catch, dvadds_getLinksDevice. Qed.
Hint Resolve dvadds_getLinks_catch : adds.

Lemma dvadds_GetDeviceByMulticast ps id :
  adds ps (GetDeviceByMulticast deviceExpiration disableUDPEndpoints id) (fun r => [r.1]).
Proof.
  unfold GetDeviceByMulticast. do 3 dvadds_bind_tac.
  eapply dvadds_bind; [apply dvadds_newDevice|intros p]. dvadds_bind_tac.
  case_match; [|dvadds_bind_tac; apply dvadds_fail]. dvadds_bind_tac.
  eapply dvadds_bind; [apply dvadds_updateOrStore; set_solver|intros [q updated]]. simpl.
  eapply dvadds_bind; [apply dvadds_when, dvadds_close|intros ?]. apply dvadds_ret; in_list.
Qed.

Lemma dvadds_newDevices_loop ps news oldDevs :
  (∀ p, p ∈ news → p ∈ ps) → adds ps (newDevices_loop news oldDevs) fst.
Proof.
  revert ps oldDevs. induction news as [|p news IH]; intros ps oldDevs Hp; cbn [newDevices_loop].
  { apply dvadds_ret; in_list. }
  do 2 dvadds_bind_tac. eapply dvadds_bind; [apply dvadds_updateOrStore; set_solver|intros [q l]]. simpl.
  eapply dvadds_bind; [apply IH; set_solver|intros [qs m]]. apply dvadds_ret; in_list.
Qed.
Lemma dvadds_allocs ps ds : adds ps (allocs ds) (fun l => l).
Proof.
  revert ps. induction ds as [|d ds IH]; intros ps; cbn [allocs]; [apply dvadds_ret; in_list|].
  eapply dvadds_bind; [apply dvadds_newDevice|intros p]. eapply dvadds_bind; [apply IH|intros qs].
  apply dvadds_ret; in_list.
Qed.
Lemma dvadds_remove_old ps p : adds ps (remove_old p) (fun _ => []).
Proof.
  unfold remove_old. do 2 dvadds_bind_tac. case_match; [apply dvadds_close|apply dvadds_ret; in_list].
Qed.
Lemma dvadds_each {A} ps (m : A → DM unit) l :
  (∀ x, adds ps (m x) (fun _ => [])) → adds ps (each m l) (fun _ => []).
Proof.
  intros Hm. induction l as [|x l IH]; cbn [each]; [apply dvadds_ret; in_list|].
  eapply dvadds_bind; [apply Hm|intros ?]. exact IH.
Qed.

Lemma dvadds_getDeviceByIP ps ip expected :
  adds ps (getDeviceByIPWithUpdateCache deviceExpiration ip expected) (fun l => l).
Proof.
  unfold getDeviceByIPWithUpdateCache. do 3 dvadds_bind_tac.
  eapply dvadds_bind; [apply dvadds_allocs|intros news]. dvadds_bind_tac.
  apply dvadds_bind with (f := fun _ => []).
  { case_bool_decide.
    - eapply dvadds_bind; [apply dvadds_cop_shrinks; intros c; apply shrinks_refl|intros ds; apply dvadds_gets].
    - eapply dvadds_bind; [apply dvadds_cop_shrinks, shrinks_GetDevice|intros r; apply dvadds_ret; in_list]. }
  intros oldDevs. eapply dvadds_bind; [apply dvadds_newDevices_loop; set_solver|intros [qs m]].
  eapply dvadds_bind; [apply dvadds_each; intros x; apply dvadds_remove_old|intros ?].
  apply dvadds_ret; in_list.
Qed.

Lemma dvadds_deleteNotFound ps p : adds ps (cop (fun c => (tt, deleteDeviceNotFoundByIP p c))) (fun _ => []).
Proof. apply dvadds_cop_shrinks. intros c. apply shrinks_deleteNotFoundByIP. Qed.
Hint Resolve dvadds_deleteNotFound : adds.

Lemma dvadds_devsLinks_loop ps expected devs :
  (∀ p, p ∈ devs → p ∈ ps) →
  adds ps (devsLinks_loop deviceExpiration disableUDPEndpoints expected devs) (fun l => l.*1).
Proof.
  revert ps. induction devs as [|p devs IH]; intros ps Hp; cbn [devsLinks_loop]; [apply dvadds_ret; in_list|].
  dvadds_bind_tac. destruct (_ && _); [apply IH; set_solver|]. dvadds_bind_tac. case_match.
  - eapply dvadds_bind; [apply IH; set_solver|intros l]. apply dvadds_ret; in_list.
  - dvadds_bind_tac. apply IH. set_solver.
Qed.
Lemma dvadds_getDevicesByIP ps ip expected :
  adds ps (getDevicesByIP deviceExpiration disableUDPEndpoints ip expected) (fun l => l.*1).
Proof.
  unfold getDevicesByIP. eapply dvadds_bind; [apply dvadds_getDeviceByIP|intros devs].
  apply dvadds_devsLinks_loop. set_solver.
Qed.
Lemma dvadds_GetDeviceByIP ps ip :
  adds ps (GetDeviceByIP deviceExpiration disableUDPEndpoints ip) (fun r => [r.1]).
Proof.
  unfold GetDeviceByIP. eapply dvadds_bind; [apply dvadds_getDevicesByIP|intros l].
  case_match; [apply dvadds_fail|apply dvadds_ret; in_list].
Qed.

Lemma LoadAndDeleteDevice_result k c : (LoadAndDeleteDevice k c).1 = fst <$> entries (w_cache c) !! k.
Proof.
  unfold LoadAndDeleteDevice, LoadAndDeleteDevices. cbn [length Nat.eqb load_and_delete_each].
  destruct (load_and_delete_entries k c) as (_&_&_&H). destruct (load_and_delete k c) as [d w]. simpl in *.
  rewrite H. by destruct (entries (w_cache c) !! k).
Qed.
(** A device that was taken out of the cache may be renamed. *)
Lemma renamed_CacheInv k p new c :
  CacheInv c → (LoadAndDeleteDevice k c).1 = Some p →
  let c' := upd_device p (SetDeviceID new) (LoadAndDeleteDevice k c).2 in
  CacheInv c' ∧ allocated p c'.
Proof.
  intros [Hk Hb] Hp. cbv zeta. rewrite LoadAndDeleteDevice_result in Hp.
  destruct (entries (w_cache c) !! k) as [[p0 v]|] eqn:He; [|done]. injection Hp as ->.
  destruct (Hk _ _ He ltac:(done)) as (d&Hd&Hid). simpl in Hd.
  destruct (LoadAndDeleteDevice_entries k c) as (E1&E2&E3). split; [split|].
  - intros k' e. cbn [w_cache upd_device set_devices]. rewrite E1. intros [Hn He']%lookup_delete_Some _.
    destruct (Hk _ _ He' ltac:(done)) as (d'&Hd'&Hid'). exists d'. split; [|done].
    cbn [w_devices upd_device set_devices]. rewrite E2, lookup_alter_ne; [done|]. intros ->. congruence.
  - intros q [dq Hq]. cbn [w_devices w_next upd_device set_devices] in *. rewrite E2 in Hq. rewrite E3.
    apply Hb.
    apply lookup_alter_Some in Hq as [(->&d0&H0&_)|[_ H0]]; by eexists.
  - apply allocated_upd. unfold allocated. rewrite E2. by eexists.
Qed.

(** The move of [checkAndUpdateCacheByLinks]. *)
Lemma moved_DvI ps q new w (w1 := {| dv_cache := upd_device q (SetDeviceID new) (dv_cache w);
                                     dv_env := dv_env w |}) :
  DvI ps w → DvI [q] w1 →
  DvI ps ((cop (fun c => (tt, upd_device q (SetDeviceID new) c));;
           t ← now;
           r ← cop (UpdateOrStoreDeviceWithExpiration deviceExpiration q t);
           when r.2 (closeDevice q)) w).2.
Proof.
  intros [_ Hps] [HI Hq].
  set (tail := t ← now; r ← cop (UpdateOrStoreDeviceWithExpiration deviceExpiration q t);
               when r.2 (closeDevice q)).
  change (DvI ps (tail w1).2).
  assert (Ht : adds (q :: ps) tail (fun _ => [])).
  { unfold tail. eapply dvadds_bind; [apply dvadds_now|intros t].
    eapply dvadds_bind; [apply dvadds_updateOrStore; set_solver|intros r]. apply dvadds_when, dvadds_close. }
  assert (Hw1 : DvI (q :: ps) w1).
  { split; [exact HI|]. constructor; [by inversion Hq|].
    eapply Forall_impl; [exact Hps|]. intros p. apply allocated_upd. }
  specialize (Ht w1 Hw1). destruct (tail w1) as [[[]|e] w2]; by apply (DvI_app [q]).
Qed.
Lemma dvadds_check ps p links :
  p ∈ ps → adds ps (checkAndUpdateCacheByLinks deviceExpiration p links) (fun r => [r.1]).
Proof.
  intros Hp. unfold checkAndUpdateCacheByLinks. eapply dvadds_bind; [apply dvadds_device|intros d].
  destruct (GetResourceLinks _ _) as [|devLink ls]; [apply dvadds_fail|].
  case_bool_decide as Hid; [apply dvadds_ret; in_list|].
  apply triple_bind with (T := fun tmp w => DvI ps w ∧ ∀ q new, tmp = Some q →
    DvI [q] {| dv_cache := upd_device q (SetDeviceID new) (dv_cache w); dv_env := dv_env w |}).
  - intros w Hw. pose proof (dvadds_LoadAndDelete ps (fd_deviceID d) w Hw) as Hl.
    destruct (cop_cache (LoadAndDeleteDevice (fd_deviceID d)) w) as [E1 E2].
    destruct (cop (LoadAndDeleteDevice (fd_deviceID d)) w) as [r w']. cbn [fst snd] in *. subst r.
    split; [exact Hl|]. intros q new Hq. unfold DvI. cbn [dv_cache]. rewrite E2.
    destruct (renamed_CacheInv _ _ new _ (proj1 Hw) Hq) as [H1 H2]. split; [exact H1|].
    constructor; [exact H2|done].
  - intros [q|] w [Hw Hq]; [|exact Hw].
    pose proof (moved_DvI ps q (GetDeviceID devLink) w Hw (Hq q _ eq_refl)) as Hm.
    unfold mbind, ME_bind in Hm |- *. by match type of Hm with DvI ps ?r.2 => destruct r as [[[]|e] w2] end.
Qed.

Lemma dvadds_GetDevice_cached ps id t :
  adds ps (cop (GetDevice deviceExpiration id t)) (fun r => match r with Some p => [p] | None => [] end).
Proof.
  apply dvadds_frame; [intros w [HI _]|intros w p _ Hp|intros a w Ha [HI _]];
    destruct (cop_cache (GetDevice deviceExpiration id t) w) as [E1 E2]; rewrite E2.
  - eapply CacheInv_shrinks; [apply shrinks_GetDevice|exact HI].
  - eapply shrinks_allocated; [apply shrinks_GetDevice|exact Hp].
  - rewrite E1 in Ha. injection Ha as <-. destruct (GetDevice _ _ _ _).1 as [p|] eqn:Eg; [|done].
    constructor; [|done]. eapply shrinks_allocated; [apply shrinks_GetDevice|].
    unfold GetDevice in Eg. rewrite entries_Load in Eg. unfold alive in Eg.
    destruct (entries (w_cache (dv_cache w)) !! id) as [e|] eqn:He; [|done].
    destruct (elem_IsExpired t e.2); [done|]. simpl in Eg. injection Eg as <-.
    destruct (proj1 HI _ _ He ltac:(done)) as (d&Hd&_). by eexists.
Qed.

Lemma dvadds_Client_GetDevice ps fuel id :
  adds ps (Client_GetDevice deviceExpiration disableUDPEndpoints fuel id) (fun r => [r.1]).
Proof.
  revert ps. induction fuel as [|fuel IH]; intros ps; cbn [Client_GetDevice]; [apply dvadds_fail|].
  eapply dvadds_bind; [apply dvadds_now|intros t].
  eapply dvadds_bind; [apply dvadds_GetDevice_cached|intros [p|]]; [|apply dvadds_GetDeviceByMulticast].
  eapply dvadds_bind; [apply dvadds_getLinks_catch|intros [links|err]]; [apply dvadds_check; set_solver|].
  eapply dvadds_bind; [apply dvadds_device|intros d]. case_bool_decide.
  - eapply dvadds_bind; [apply dvadds_deleteNotFound|intros ?]. apply IH.
  - eapply dvadds_bind; [apply dvadds_getDevicesByIP|intros l].
    case_match; [apply dvadds_fail|apply dvadds_ret; in_list].
Qed.
End Invariant.

(** *** All runs *)

Section Calls.
Context `{HKit : Kit} `{HCache : GoCache} `{HLaws : !GoCacheLaws} `{HDE : !DevicesEnv}.
Context (deviceExpiration : Z) (disableUDPEndpoints : bool).

Inductive ClientCall :=
  | CallGetDevice (fuel : nat) (deviceID : string)
  | CallGetDeviceByMulticast (deviceID : string)
  | CallGetDevicesByIP (ip : string)
  | CallGetDeviceByIP (ip : string)
  | CallCache (op : CacheOp).
Definition client_exec (w : DvWorld) (c : ClientCall) : DvWorld :=
  match c with
  | CallGetDevice fuel id => (Client_GetDevice deviceExpiration disableUDPEndpoints fuel id w).2
  | CallGetDeviceByMulticast id => (GetDeviceByMulticast deviceExpiration disableUDPEndpoints id w).2
  | CallGetDevicesByIP ip => (GetDevicesByIP deviceExpiration disableUDPEndpoints ip w).2
  | CallGetDeviceByIP ip => (GetDeviceByIP deviceExpiration disableUDPEndpoints ip w).2
  | CallCache op => {| dv_cache := cache_exec deviceExpiration (dv_cache w) op; dv_env := dv_env w |}
  end.

Lemma dvadds_CacheInv {A} (m : ME DvWorld A) f w : adds [] m f → CacheInv (dv_cache w) → CacheInv (dv_cache (m w).2).
Proof.
  intros Hm HI. assert (Hw : DvI [] w) by by split. specialize (Hm w Hw).
  by destruct (m w) as [[a|e] w']; destruct Hm.
Qed.
Lemma client_exec_CacheInv w c : CacheInv (dv_cache w) → CacheInv (dv_cache (client_exec w c)).
Proof.
  intros HI. destruct c; simpl; [..|by apply CacheInv_exec].
  all: eapply dvadds_CacheInv, HI.
  - apply dvadds_Client_GetDevice.
  - apply dvadds_GetDeviceByMulticast.
  - apply dvadds_getDevicesByIP.
  - apply dvadds_GetDeviceByIP.
Qed.

(** The cache of the client under its own calls: whatever the network answers, whatever
    other goroutines do to the cache while a call waits, and in any sequence of calls, every
    device in the cache is under the ID it has, so no device is cached twice. *)
Theorem client_devices_keyed calls e k el :
  let w := foldl client_exec {| dv_cache := NewDeviceCache; dv_env := e |} calls in
  entries (w_cache (dv_cache w)) !! k = Some el →
  ∃ d, w_devices (dv_cache w) !! el.1 = Some d ∧ fd_deviceID d = k.
Proof.
  intros w He. assert (HI : CacheInv (dv_cache w)).
  { subst w. assert (H : ∀ l w, CacheInv (dv_cache w) → CacheInv (dv_cache (foldl client_exec w l))).
    { induction l as [|c l IH]; intros w HI; [done|]. apply IH. by apply client_exec_CacheInv. }
    apply H, CacheInv_New. }
  destruct HI as [Hk _]. by apply (Hk k el He).
Qed.
End Calls.

(** ** What the calls return, when no other goroutine uses the cache *)

Class QuietCache `{DevicesEnv} := quiet_others : ∀ e, (denv_others e).1 = [].

Section Results.
Context `{HKit : Kit} `{HCache : GoCache} `{HLaws : !GoCacheLaws}.
Context `{HDE : !DevicesEnv} `{HQuiet : !QuietCache}.
Context (deviceExpiration : Z) (disableUDPEndpoints : bool).
Abbreviation DM := (ME DvWorld).

(** The links of one device. *)
Definition links_of (id : string) (links : ResourceLinks) : Prop :=
  links ≠ [] ∧ Forall (fun l => GetDeviceID l = id) links.
Definition at_cache (c : CacheWorld) (w : DvWorld) : Prop := dv_cache w = c.

Lemma others_quiet w : (others deviceExpiration w).1 = Ok tt ∧ dv_cache (others deviceExpiration w).2 = dv_cache w.
Proof.
  unfold others, mbind, ME_bind, dv_ask. pose proof (HQuiet (dv_env w)) as Hq. unfold QuietCache in Hq.
  destruct (denv_others (dv_env w)) as [ops e]. simpl in Hq. by subst ops.
Qed.
Lemma at_others c : triple (at_cache c) (others deviceExpiration) (fun r w => at_cache c w ∧ r = Ok tt).
Proof. intros w Hw. destruct (others_quiet w) as [-> E]. split; [|done]. unfold at_cache. by rewrite E. Qed.
Lemma at_ask {A} c (f : DvEnv → A * DvEnv) : triple (at_cache c) (dv_ask f) (fun _ => at_cache c).
Proof. intros w Hw. unfold dv_ask. by destruct (f (dv_env w)). Qed.
Lemma at_ask_bind {A B} c (f : DvEnv → A * DvEnv) (k : A → DM B) Q :
  (∀ a, triple (at_cache c) (k a) Q) → triple (at_cache c) (dv_ask f ≫= k) Q.
Proof.
  intros Hk w Hw. unfold mbind, ME_bind, dv_ask. destruct (f (dv_env w)) as [a e]. by apply Hk.
Qed.
Lemma at_others_bind {B} c (k : unit → DM B) Q :
  triple (at_cache c) (k tt) Q → triple (at_cache c) (others deviceExpiration ≫= k) Q.
Proof.
  intros Hk w Hw. unfold mbind, ME_bind. destruct (others_quiet w) as [E1 E2].
  destruct (others deviceExpiration w) as [r w']. simpl in *. subst r. apply Hk. unfold at_cache. by rewrite E2.
Qed.
Lemma at_device_bind {B} c p (k : Found → DM B) Q :
  triple (at_cache c) (k (device_at p c)) Q → triple (at_cache c) (device p ≫= k) Q.
Proof. intros Hk w Hw. unfold device, mbind, ME_bind, gets. rewrite Hw. by apply Hk. Qed.

Lemma at_cop_bind {A B} c (f : CacheWorld → A * CacheWorld) (k : A → DM B) Q :
  triple (at_cache (f c).2) (k (f c).1) Q → triple (at_cache c) (cop f ≫= k) Q.
Proof. intros Hk w Hw. unfold mbind, ME_bind, cop. rewrite Hw. destruct (f c). by apply Hk. Qed.
Lemma at_gets {A} c (f : DvWorld → A) (Q : result A → DvWorld → Prop) :
  (∀ e, Q (Ok (f {| dv_cache := c; dv_env := e |})) {| dv_cache := c; dv_env := e |}) →
  triple (at_cache c) (gets f) Q.
Proof. intros H [c' e] Hw. unfold at_cache in Hw. simpl in Hw. subst c'. apply H. Qed.
(** Fix the cache of the first state. *)
Lemma triple_at {A} (P : CacheWorld → Prop) (m : DM A) Q :
  (∀ c, P c → triple (at_cache c) m Q) → triple (fun w => P (dv_cache w)) m Q.
Proof. intros H w Hw. by apply (H _ Hw). Qed.
Lemma triple_pure {A S} (P : Prop) (I : S → Prop) (m : ME S A) Q :
  (P → triple I m Q) → triple (fun w => I w ∧ P) m Q.
Proof. intros H w [Hw HP]. by apply H. Qed.
Lemma at_ret {A} c (a : A) (Q : result A → DvWorld → Prop) :
  (∀ e, Q (Ok a) {| dv_cache := c; dv_env := e |}) → triple (at_cache c) (mret a) Q.
Proof. intros H [c' e] Hw. unfold at_cache in Hw. simpl in Hw. subst c'. apply H. Qed.

Lemma FilterByDeviceID_ids links id : Forall (fun l => GetDeviceID l = id) (FilterByDeviceID links id).
Proof.
  apply Forall_forall. intros l Hl%list_elem_of_In. unfold FilterByDeviceID in Hl.
  apply filter_In in Hl as [_ Hl]. by apply bool_decide_eq_true in Hl.
Qed.
Lemma patchResourceLinksEndpoints_ids links b id :
  links_of id links → links_of id (patchResourceLinksEndpoints links b).
Proof.
  intros [Hn Hf]. unfold patchResourceLinksEndpoints. case_match; [|by split]. split.
  - by destruct links.
  - apply Forall_fmap. eapply Forall_impl; [exact Hf|]. done.
Qed.

(** The links of a device are read without touching the cache; they are its own. *)
Lemma at_getLinks c p :
  triple (at_cache c) (getLinksDevice deviceExpiration disableUDPEndpoints p)
    (fun r w => at_cache c w ∧ match r with Ok links => links_of (fd_deviceID (device_at p c)) links
                               | Err _ => True end).
Proof.
  unfold getLinksDevice.
  apply triple_bind with (T := fun _ => at_cache c).
  - unfold core_GetResourceLinks. apply at_device_bind, at_ask_bind. intros r. apply at_others_bind.
    destruct r as [[addr links]|err]; intros w Hw; simpl; by try split.
  - intros links. apply at_device_bind. cbv zeta.
    destruct (Nat.eqb_spec (length (FilterByDeviceID links (fd_deviceID (device_at p c)))) 0) as [|Hn];
      intros w Hw; (split; [exact Hw|]); [done|].
    apply patchResourceLinksEndpoints_ids. split; [by intros E; rewrite E in Hn|].
    apply FilterByDeviceID_ids.
Qed.

(** A result for the device [id]. *)
Definition found_ok (id : string) (r : result (nat * ResourceLinks)) (w : DvWorld) : Prop :=
  match r with
  | Ok (p, links) =>
      fd_deviceID (device_at p (dv_cache w)) = id ∧ links_of id links ∧
      ∃ v, entries (w_cache (dv_cache w)) !! id = Some ((p, v) : Element)
  | Err _ => True
  end.

Lemma found_ok_at id p links c v e :
  fd_deviceID (device_at p c) = id → links_of id links →
  entries (w_cache c) !! (id : string) = Some ((p, v) : Element) →
  found_ok id (Ok (p, links)) {| dv_cache := c; dv_env := e |}.
Proof. intros Hid Hl He. unfold found_ok. split; [done|]. split; [done|]. by exists v. Qed.
Lemma keyed_device_at c k p v :
  CacheInv c → entries (w_cache c) !! k = Some ((p, v) : Element) → fd_deviceID (device_at p c) = k.
Proof.
  intros [Hk _] He. destruct (Hk _ _ He ltac:(done)) as (d&Hd&<-). unfold device_at. simpl in Hd. by rewrite Hd.
Qed.
Lemma found_in_id id m d :
  id ≠ ANY_DEVICE → Discovery.GetDeviceByMulticast id m = Ok d → fd_deviceID d = id.
Proof.
  intros Hid. unfold Discovery.GetDeviceByMulticast. destruct (mc_dial m); [done|].
  pose proof (search_devices id (mc_answers m) (newDevicesHandler id) eq_refl eq_refl) as Hs.
  destruct (mc_err m); [done|]. destruct Hs as [[-> _]|(pre&a&post&_&_&_&->)]; [by destruct (dh_err _)|].
  destruct (found_in id a) as [|d0 ds] eqn:Ef; [by destruct (dh_err _)|]. intros [= ->].
  destruct a as [links|err|]; [|done..]. simpl in Ef.
  assert (Hin : d ∈ device_of <$> List.filter (wanted id) (GetResourceLinks links [device_ResourceType]))
    by (rewrite Ef; by left).
  apply list_elem_of_fmap in Hin as (l & -> & Hl%list_elem_of_In%filter_In). destruct Hl as [_ Hl].
  unfold wanted in Hl. apply andb_true_iff in Hl as [_ Hl]. apply orb_true_iff in Hl as [Hl|Hl];
    apply bool_decide_eq_true in Hl; [done|by destruct Hid].
Qed.

Lemma multicast_ok id c :
  id ≠ ANY_DEVICE → CacheInv c →
  triple (at_cache c) (GetDeviceByMulticast deviceExpiration disableUDPEndpoints id) (found_ok id).
Proof.
  intros Hid HI. unfold GetDeviceByMulticast. apply at_ask_bind. intros m. apply at_others_bind.
  apply triple_bind_lift; [intros d Ed|by intros err _ w Hw]. apply found_in_id in Ed; [|done].
  unfold newDevice. apply at_cop_bind.
  pose proof (CacheInv_alloc d c HI) as [HI1 Hp]. destruct (alloc d c) as [p c1]. cbn [fst snd] in *.
  assert (Hpid : fd_deviceID (device_at p c1) = id) by (unfold device_at; by rewrite Hp).
  eapply triple_bind_catch; [apply at_getLinks|]. intros [links|err].
  2:{ intros w [Hw _]. done. }
  apply triple_pure. rewrite Hpid. intros Hl.
  apply at_ask_bind. intros t. apply at_cop_bind.
  destruct (updateOrStore_keyed None p d (getNextExpiration deviceExpiration t) t c1 Hp)
    as (Hk&Hb&_); [done|by apply HI1..|].
  destruct (updateOrStore_returns p (getNextExpiration deviceExpiration t) t c1) as (v&He&_).
  rewrite Hpid in He. unfold UpdateOrStoreDeviceWithExpiration.
  destruct (updateOrStoreDevice p (getNextExpiration deviceExpiration t) t c1) as [[q updated] c2].
  cbn [fst snd] in *. assert (Hc2 : CacheInv c2) by by split.
  assert (Hq : fd_deviceID (device_at q c2) = id) by by eapply keyed_device_at.
  destruct updated; simpl.
  - apply (at_cop_bind c2 (fun c => (tt, close_device p c))). apply at_ret. intros e.
    by apply (found_ok_at id q links (close_device p c2) v).
  - apply at_ret. intros e. by apply (found_ok_at id q links c2 v).
Qed.

(** The links were filtered by the ID of the device, so [checkAndUpdateCacheByLinks] never
    sees another one: it returns them, or refuses links without a device resource. *)
Lemma at_check c p links :
  links_of (fd_deviceID (device_at p c)) links →
  triple (at_cache c) (checkAndUpdateCacheByLinks deviceExpiration p links)
    (fun r w => at_cache c w ∧ match r with Ok r => r = (p, links) | Err _ => True end).
Proof.
  intros [_ Hl]. unfold checkAndUpdateCacheByLinks. apply at_device_bind.
  destruct (GetResourceLinks links [device_ResourceType]) as [|devLink ls] eqn:El; [by intros w Hw|].
  rewrite bool_decide_eq_true_2; [by apply at_ret|].
  rewrite Forall_forall in Hl. apply Hl. apply list_elem_of_In.
  assert (Hin : In devLink (GetResourceLinks links [device_ResourceType])) by (rewrite El; by left).
  unfold GetResourceLinks in Hin. by apply filter_In in Hin as [? _].
Qed.

(** *** Devices found by an address *)

Definition named (p : nat) (c : CacheWorld) : Prop := fd_foundByIP (device_at p c) ≠ "".
(** [p] is in the cache under its ID, without an expiration, and was found by an address. *)
Definition permanent (id : string) (p : nat) (c : CacheWorld) : Prop :=
  entries (w_cache c) !! id = Some ((p, 0) : Element) ∧
  fd_deviceID (device_at p c) = id ∧ named p c.

Lemma upd_named p q (d : Found) c :
  (q = p → fd_foundByIP d ≠ "" ∨ named p c) → named p c ∨ (q = p ∧ fd_foundByIP d ≠ "" ∧ allocated p c) →
  named p (upd_device q (fun d0 => UpdateBy d0 d) c).
Proof.
  intros H1 H2. unfold named, device_at in *. simpl. destruct (decide (q = p)) as [->|Hn].
  - rewrite lookup_alter_eq. destruct (w_devices c !! p) as [d0|] eqn:E.
    + simpl. case_bool_decide as Hb; [|done]. by destruct (H1 eq_refl).
    + simpl in *. destruct H2 as [H2|(_&_&[? ?])]; [done|]. congruence.
  - rewrite lookup_alter_ne by done. by destruct H2 as [|[? _]].
Qed.
Lemma named_updateOrStore p q exp t c : named p c → named p (updateOrStoreDevice q exp t c).2.
Proof.
  intros Hp. unfold updateOrStoreDevice. destruct (cache_LoadOrStore _ _ _ _) as [[e l] c1].
  destruct l; [|exact Hp]. assert (H1 : named p (if (e.1 =? q)%nat then set_w_cache c1 c
      else upd_device e.1 (fun d => UpdateBy d (device_at q (set_w_cache c1 c))) (set_w_cache c1 c))).
  { destruct (_ =? _)%nat; [exact Hp|]. apply upd_named; [by right|by left]. }
  destruct (deviceIsStoredWithExpiration e); exact H1.
Qed.
(** The device that stands for a found one has its address. *)
Lemma named_result p exp t c :
  CacheInv c → allocated p c → named p c →
  let r := updateOrStoreDevice p exp t c in named r.1.1 r.2.
Proof.
  intros [Hk Hb] Ha Hp. cbv zeta. unfold updateOrStoreDevice. set (id := fd_deviceID (device_at p c)).
  pose proof (entries_LoadOrStore id (p, exp) t (w_cache c)) as HL.
  destruct (cache_LoadOrStore _ _ _ _) as [[[q v0] loaded] c1]. simpl in HL.
  destruct (alive t (entries (w_cache c) !! id)) as [e0|] eqn:Ea.
  - destruct HL as [[= <- ->] _]. cbn [fst snd].
    assert (Hq : allocated q c).
    { unfold alive in Ea. destruct (entries (w_cache c) !! id) as [e|] eqn:Ee; [|done].
      destruct (elem_IsExpired t e.2); [done|]. injection Ea as ->.
      destruct (Hk _ _ Ee ltac:(done)) as (dq&?&?). by exists dq. }
    assert (H1 : named q (if (q =? p)%nat then set_w_cache c1 c
        else upd_device q (fun d => UpdateBy d (device_at p (set_w_cache c1 c))) (set_w_cache c1 c))).
    { destruct (Nat.eqb_spec q p) as [->|Hn]; [exact Hp|].
      apply upd_named; [by left|right; split; [done|by split]]. }
    destruct (deviceIsStoredWithExpiration (q, v0)); exact H1.
  - destruct HL as [[= -> -> ->] _]. exact Hp.
Qed.
Lemma ids_kept_at c c' p : ids_kept c c' → allocated p c → fd_deviceID (device_at p c') = fd_deviceID (device_at p c).
Proof. intros Hi [d Hd]. destruct (Hi p d Hd) as (d'&Hd'&E). unfold device_at. by rewrite Hd, Hd'. Qed.

(** One device found by an address is stored. *)
Lemma store_found p t c (r := UpdateOrStoreDevice p t c) (id := fd_deviceID (device_at p c)) :
  CacheInv c → allocated p c → named p c →
  CacheInv r.2 ∧ permanent id r.1.1 r.2 ∧
  (∀ q, allocated q c → allocated q r.2 ∧ fd_deviceID (device_at q r.2) = fd_deviceID (device_at q c)) ∧
  (∀ q, named q c → named q r.2) ∧ (∀ q id', permanent id' q c → allocated q c → permanent id' q r.2).
Proof.
  intros HI [d Hd] Hp. destruct (updateOrStore_keyed None p d 0 t c Hd) as (Hk&Hb&Hi); [done|by apply HI..|].
  destruct (updateOrStore_returns p 0 t c) as (v&He&Hv). rewrite Hv in He by done.
  pose proof (named_result p 0 t c HI (ex_intro _ d Hd) Hp) as Hn.
  assert (HI2 : CacheInv r.2) by by split. split; [exact HI2|]. split; [|split; [|split]].
  - split; [exact He|]. split; [|exact Hn]. by eapply keyed_device_at.
  - intros q Hq. split; [by apply allocated_updateOrStore|by apply ids_kept_at].
  - intros q. apply named_updateOrStore.
  - intros q id' (H1&H2&H3) Hq. split; [|split].
    + by apply updateOrStore_permanent.
    + rewrite <-H2. by apply ids_kept_at.
    + by apply named_updateOrStore.
Qed.

(** The devices [done] are permanent. *)
Definition Perms (done : list (string * nat)) (c : CacheWorld) : Prop :=
  CacheInv c ∧ Forall (fun iq => permanent iq.1 iq.2 c ∧ allocated iq.2 c) done.
Definition old_ok (old : gmap string nat) (c : CacheWorld) : Prop :=
  ∀ k p, old !! k = Some p → allocated p c ∧ fd_deviceID (device_at p c) = k.
Definition fresh_ok (news : list nat) (c : CacheWorld) : Prop :=
  Forall (fun p => allocated p c ∧ named p c) news.

(** What [newDevices_loop] leaves: the stored devices are permanent, and none of the old
    devices has the ID of one of them. *)
Definition stored (old : gmap string nat) (done : list (string * nat))
    (r : list nat * gmap string nat) (c : CacheWorld) : Prop :=
  ∃ ids, length ids = length r.1 ∧ Perms (done ++ zip ids r.1) c ∧ old_ok r.2 c ∧ Forall (fun id => r.2 !! id = None) ids ∧
    ∀ k, old !! k = None → r.2 !! k = None.

Lemma at_newDevices_loop news old done c :
  Perms done c → fresh_ok news c → old_ok old c →
  triple (at_cache c) (newDevices_loop news old)
    (fun r w => match r with Ok r => stored old done r (dv_cache w) | Err _ => True end).
Proof.
  revert old done c. induction news as [|p news IH]; intros old done c [HI HP] Hn Ho; cbn [newDevices_loop].
  { apply at_ret. intros e. exists []. cbn [zip zip_with]. rewrite app_nil_r.
    split; [done|]. split; [by split|]. split; [done|]. by split. }
  apply at_device_bind, at_ask_bind. intros t. apply at_cop_bind.
  apply Forall_cons in Hn as [[Hpa Hpn] Hn].
  destruct (store_found p t c HI Hpa Hpn) as (HI2&Hq&Hal&Hna&Hpe).
  set (id := fd_deviceID (device_at p c)) in *. destruct (UpdateOrStoreDevice p t c) as [[q l] c2].
  cbn [fst snd] in *.
  assert (Hqa : allocated q c2) by (destruct Hq as (He&_); destruct (proj1 HI2 _ _ He ltac:(done)) as (dq&?&_); by exists dq).
  apply triple_bind with (T := fun r w => stored (delete id old) (done ++ [(id, q)]) r (dv_cache w)).
  - apply IH.
    + split; [exact HI2|]. apply Forall_app. split; [|by constructor].
      eapply Forall_impl; [exact HP|]. intros [i r] [H1 H2]. split; [by apply Hpe|by apply Hal].
    + eapply Forall_impl; [exact Hn|]. intros r [H1 H2]. split; [by apply Hal|by apply Hna].
    + intros k r [_ Hk]%lookup_delete_Some. destruct (Ho k r Hk) as [H1 H2].
      destruct (Hal r H1) as [H3 H4]. split; [done|]. by rewrite H4.
  - intros [qs old'] w (ids&Hlen&HP'&Ho'&Hids&Hmono). simpl in *. exists (id :: ids). split; [simpl; by rewrite Hlen|].
    split; [by rewrite <-app_assoc in HP'|]. split; [done|]. split.
    + constructor; [|done]. apply Hmono. apply lookup_delete_eq.
    + intros k Hk. apply Hmono. apply lookup_delete_None. by right.
Qed.

Lemma Perms_shrinks done c c' :
  Perms done c → shrinks c c' → w_devices c' = w_devices c →
  Forall (fun iq => entries (w_cache c') !! iq.1 = entries (w_cache c) !! iq.1) done → Perms done c'.
Proof.
  intros [HI HP] Hs Hd He. split; [by eapply CacheInv_shrinks|]. rewrite Forall_forall in HP, He |- *.
  intros [i q] Hin. destruct (HP _ Hin) as [(H1&H2&H3) H4]. specialize (He _ Hin). simpl in *.
  unfold permanent, named, allocated, device_at in *. rewrite Hd, He. by split_and!.
Qed.
Lemma at_remove_old p k done c :
  Perms done c → fd_deviceID (device_at p c) = k → k ∉ done.*1 →
  triple (at_cache c) (remove_old p)
    (fun _ w => Perms done (dv_cache w) ∧ w_devices (dv_cache w) = w_devices c).
Proof.
  intros HP Hk Hn. unfold remove_old. apply at_device_bind, at_cop_bind. rewrite Hk.
  destruct (LoadAndDeleteDevice_entries k c) as (E1&E2&_).
  assert (HP2 : Perms done (LoadAndDeleteDevice k c).2).
  { eapply Perms_shrinks; [exact HP|apply shrinks_LoadAndDeleteDevice|exact E2|].
    apply Forall_forall. intros [i q] Hin. rewrite E1. simpl. apply lookup_delete_ne. intros ->.
    apply Hn. apply list_elem_of_fmap. by exists (i, q). }
  destruct (LoadAndDeleteDevice k c) as [[tmp|] c2]; cbn [fst snd] in *.
  - intros w Hw. unfold closeDevice, cop. rewrite Hw. simpl. split; [|exact E2].
    eapply Perms_shrinks; [exact HP2|apply shrinks_close|done|]. by apply Forall_forall.
  - apply at_ret. by intros e.
Qed.
Lemma at_remove_all l done c :
  Perms done c → Forall (fun kp : string * nat => fd_deviceID (device_at kp.2 c) = kp.1 ∧ kp.1 ∉ done.*1) l →
  triple (at_cache c) (each (fun kd => remove_old kd.2) l) (fun _ w => Perms done (dv_cache w)).
Proof.
  revert c. induction l as [|[k p] l IH]; intros c HP Hl; cbn [each]; [by apply at_ret; intros e|].
  apply Forall_cons in Hl as [[Hk Hn] Hl]. simpl in *. intros w Hw.
  pose proof (at_remove_old p k done c HP Hk Hn w Hw) as [HP2 Hd].
  unfold mbind, ME_bind. destruct (remove_old p w) as [[[]|e] w2]; [|exact HP2]. simpl in *.
  apply (IH (dv_cache w2) HP2); [|done]. eapply Forall_impl; [exact Hl|].
  intros [k' p'] [H1 H2]. unfold device_at in *. rewrite Hd. by split.
Qed.

Lemma getAddress_nonempty ip addr b : getAddress ip = Ok (addr, b) → addr ≠ "".
Proof.
  unfold getAddress. destruct (contains_char "." ip); intros H;
    apply bind_Ok_inv in H as ([host port]&_&[= <- _]); by destruct host.
Qed.
Lemma found_by_address ip net ds :
  Discovery.GetDevicesByIP ip net = Ok ds → Forall (fun d => fd_foundByIP d ≠ "") ds.
Proof.
  unfold Discovery.GetDevicesByIP. destruct (getAddress ip) as [[addr b]|e] eqn:Ea; [|done].
  apply getAddress_nonempty in Ea. destruct (mc_dial _); [done|]. destruct (mc_err _); [done|].
  destruct (dh_devices _) as [|d0 ds0]; [done|]. intros [= <-]. constructor; [done|].
  by apply Forall_fmap, Forall_true.
Qed.
Lemma at_allocs ds news c :
  CacheInv c → fresh_ok news c → Forall (fun d => fd_foundByIP d ≠ "") ds →
  triple (at_cache c) (allocs ds)
    (fun r w => match r with
                | Ok ps => CacheInv (dv_cache w) ∧ fresh_ok (news ++ ps) (dv_cache w)
                | Err _ => True end).
Proof.
  revert news c. induction ds as [|d ds IH]; intros news c HI Hf Hd; cbn [allocs].
  { apply at_ret. intros e. by rewrite app_nil_r. }
  apply Forall_cons in Hd as [Hd0 Hd]. unfold newDevice. apply at_cop_bind.
  pose proof (CacheInv_alloc d c HI) as [HI1 Hp].
  assert (Hf1 : fresh_ok (news ++ [(alloc d c).1]) (alloc d c).2).
  { apply Forall_app. split.
    - eapply Forall_impl; [exact Hf|]. intros q [Hq Hn]. split; [by apply allocated_alloc; [apply HI|]|].
      unfold named, device_at in *. simpl. rewrite lookup_insert_ne; [done|].
      assert (q < w_next c)%nat by by apply HI. lia.
    - constructor; [|done]. split; [by eexists|]. unfold named, device_at. by rewrite Hp. }
  destruct (alloc d c) as [p c1]. cbn [fst snd] in *.
  eapply triple_bind with (T := fun ps w => CacheInv (dv_cache w) ∧ fresh_ok ((news ++ [p]) ++ ps) (dv_cache w)).
  - apply IH; done.
  - intros ps w Hw. simpl. by rewrite <-app_assoc in Hw.
Qed.

Lemma old_by_id id t c :
  CacheInv c →
  let r := GetDevice deviceExpiration id t c in
  old_ok (match r.1 with Some d => {[ id := d ]} | None => ∅ end) r.2.
Proof.
  intros [Hk Hb]. simpl. unfold GetDevice. rewrite entries_Load. unfold alive.
  destruct (entries (w_cache c) !! id) as [[p v]|] eqn:He; [|intros k q Hq; simpl in Hq; by rewrite lookup_empty in Hq].
  simpl. destruct (elem_IsExpired _ _); [intros k q Hq; simpl in Hq; by rewrite lookup_empty in Hq|]. simpl.
  intros k q [<- <-]%lookup_singleton_Some. destruct (Hk _ _ He ltac:(done)) as (d&Hd&Hid).
  simpl in Hd. assert (Hq : ∀ c', w_devices c' = w_devices c → allocated p c' ∧ fd_deviceID (device_at p c') = id).
  { intros c' E. unfold allocated, device_at. rewrite E, Hd. split; [by eexists|done]. }
  by destruct (deviceIsStoredWithExpiration _); apply Hq.
Qed.
Lemma old_by_ip ip t c :
  CacheInv c →
  old_ok (foldl (fun m p => <[fd_deviceID (device_at p c) := p]> m) ∅ (GetDeviceByFoundIP ip t c)) c.
Proof.
  intros [Hk Hb]. unfold GetDeviceByFoundIP. destruct (List.find _ _) as [[k [p v]]|] eqn:Ef;
    [|intros k p Hp; simpl in Hp; by rewrite lookup_empty in Hp].
  simpl. intros k' q Hq. apply lookup_insert_Some in Hq as [[<- <-]|[_ Hq]]; [|by rewrite lookup_empty in Hq].
  split; [|done]. apply find_some in Ef as [Hin _]. apply list_elem_of_In in Hin.
  rewrite entries_Range in Hin. apply elem_of_map_to_list in Hin.
  destruct (Hk _ _ Hin ltac:(done)) as (d&Hd&_). by eexists.
Qed.

Lemma at_getDeviceByIP ip expected c :
  CacheInv c →
  triple (at_cache c) (getDeviceByIPWithUpdateCache deviceExpiration ip expected)
    (fun r w => match r with
                | Ok qs => ∃ ids, length ids = length qs ∧ Perms (zip ids qs) (dv_cache w)
                | Err _ => True end).
Proof.
  intros HI. unfold getDeviceByIPWithUpdateCache. apply at_ask_bind. intros net. apply at_others_bind.
  apply triple_bind_lift; [intros ds Hds%found_by_address|by intros err _ w Hw].
  apply triple_bind with (T := fun ps w => CacheInv (dv_cache w) ∧ fresh_ok ps (dv_cache w)).
  { apply (at_allocs ds [] c); [done|by constructor|done]. }
  intros news. apply (triple_at (fun c => CacheInv c ∧ fresh_ok news c)). intros c1 [HI1 Hn]. apply at_ask_bind. intros t.
  apply triple_bind with (T := fun old w => CacheInv (dv_cache w) ∧ fresh_ok news (dv_cache w) ∧
                                            old_ok old (dv_cache w)).
  { case_bool_decide as He.
    - apply at_cop_bind. apply at_gets. intros e. cbn [fst snd dv_cache].
      split; [done|]. split; [done|]. by apply old_by_ip.
    - apply at_cop_bind. apply at_ret. intros e. cbn [dv_cache].
      pose proof (shrinks_GetDevice deviceExpiration expected t c1) as Hs.
      split; [by eapply CacheInv_shrinks|]. split; [|by apply old_by_id].
      eapply Forall_impl; [exact Hn|]. intros p [H1 H2]. split; [by eapply shrinks_allocated|].
      unfold named, device_at in *. unfold GetDevice. destruct (cache_Load _ _ _); [|done].
      by destruct (deviceIsStoredWithExpiration _). }
  intros old. apply (triple_at (fun c => CacheInv c ∧ fresh_ok news c ∧ old_ok old c)). intros c2 (HI2&Hn2&Ho2).
  apply triple_bind with (T := fun r w => stored old [] r (dv_cache w)).
  { by apply at_newDevices_loop; [split| |]. }
  intros [qs old']. apply (triple_at (stored old [] (qs, old'))). intros c3 (ids&Hlen&HP&Ho&Hids&_). simpl in *.
  apply triple_bind with (T := fun _ w => Perms (zip ids qs) (dv_cache w)).
  - eapply triple_conseq; [apply (at_remove_all (map_to_list old') (zip ids qs) c3 HP)|done|].
    + apply Forall_forall. intros [k p] Hin%elem_of_map_to_list. simpl. split; [by apply Ho|].
      intros Hk. rewrite Forall_forall in Hids. apply list_elem_of_fmap in Hk as ([k' q]&->&Hz).
      apply elem_of_zip_l in Hz. specialize (Hids k' Hz). simpl in Hin. congruence.
    + by intros [[]|e] w Hw.
  - intros [] w Hw. simpl. by exists ids.
Qed.

(** The devices of a list of results. *)
Definition found_all (expected : string) (dn : list (string * nat)) (l : list (nat * ResourceLinks)) : Prop :=
  Forall (fun pl => ∃ id, (id, pl.1) ∈ dn ∧ links_of id pl.2 ∧ (expected = "" ∨ id = expected)) l.

Lemma close_Perms p dn c : Perms dn c → Perms dn (close_device p c).
Proof. intros HP. eapply Perms_shrinks; [exact HP|apply shrinks_close|done|]. by apply Forall_forall. Qed.
Lemma Perms_elem id p dn c : Perms dn c → (id, p) ∈ dn → permanent id p c.
Proof. intros [_ HP] Hin. rewrite Forall_forall in HP. by destruct (HP _ Hin). Qed.

Lemma at_devsLinks_loop expected devs dn c :
  Perms dn c → Forall (fun q => ∃ id, (id, q) ∈ dn) devs →
  triple (at_cache c) (devsLinks_loop deviceExpiration disableUDPEndpoints expected devs)
    (fun r w => match r with
                | Ok l => Perms dn (dv_cache w) ∧ found_all expected dn l
                | Err _ => True end).
Proof.
  revert c. induction devs as [|p devs IH]; intros c HP Hd; cbn [devsLinks_loop].
  { apply at_ret. intros e. split; [done|]. by constructor. }
  apply Forall_cons in Hd as [[id Hin] Hd]. apply at_device_bind.
  destruct (Perms_elem _ _ _ _ HP Hin) as (He&Hid&Hnamed). rewrite Hid.
  destruct (negb (bool_decide (expected = "")) && negb (bool_decide (id = expected))) eqn:Ex; [by apply IH|].
  assert (Hx : expected = "" ∨ id = expected).
  { apply andb_false_iff in Ex as [Ex|Ex]; apply negb_false_iff, bool_decide_eq_true in Ex; auto. }
  eapply triple_bind_catch; [apply at_getLinks|]. intros [links|err].
  - apply triple_pure. rewrite Hid. intros Hl.
    apply triple_bind with (T := fun l w => Perms dn (dv_cache w) ∧ found_all expected dn l); [by apply IH|].
    intros l w [HPw Hlw]. split; [done|]. constructor; [|done]. by exists id.
  - apply (triple_pre _ (at_cache c)); [by intros w [? _]|]. apply at_cop_bind. cbn [fst snd].
    unfold deleteDeviceNotFoundByIP. rewrite bool_decide_eq_false_2 by exact Hnamed.
    apply IH; [|done]. by apply close_Perms.
Qed.
Lemma zip_elem {A B} (ids : list A) (qs : list B) :
  length ids = length qs → Forall (fun q => ∃ id, (id, q) ∈ zip ids qs) qs.
Proof.
  revert qs. induction ids as [|i ids IH]; intros [|q qs] H; try done. constructor.
  - exists i. by left.
  - eapply Forall_impl; [apply IH; by injection H|]. intros q' [id Hin]. exists id. by right.
Qed.
Lemma at_getDevicesByIP ip expected c :
  CacheInv c →
  triple (at_cache c) (getDevicesByIP deviceExpiration disableUDPEndpoints ip expected)
    (fun r w => match r with
                | Ok l => ∃ dn, Perms dn (dv_cache w) ∧ found_all expected dn l
                | Err _ => True end).
Proof.
  intros HI. unfold getDevicesByIP.
  eapply triple_bind with (T := fun qs w => ∃ ids, length ids = length qs ∧ Perms (zip ids qs) (dv_cache w)).
  - by apply at_getDeviceByIP.
  - intros qs. apply (triple_at (fun c => ∃ ids, length ids = length qs ∧ Perms (zip ids qs) c)).
    intros c1 (ids&Hlen&HP). eapply triple_conseq; [apply (at_devsLinks_loop expected qs (zip ids qs) c1)|done|].
    + done.
    + by apply zip_elem.
    + intros [l|e] w; [|done]. intros [HPw Hl]. by exists (zip ids qs).
Qed.

(** What a search by an address returns: every device of the result has links, they are
    its own, and it is in the cache under its ID and without an expiration, as the comment
    of the method says. *)
Theorem GetDevicesByIP_spec ip w l :
  CacheInv (dv_cache w) → (GetDevicesByIP deviceExpiration disableUDPEndpoints ip w).1 = Ok l →
  let c := dv_cache (GetDevicesByIP deviceExpiration disableUDPEndpoints ip w).2 in
  Forall (fun '(p, links) =>
    let id := fd_deviceID (device_at p c) in
    links_of id links ∧ entries (w_cache c) !! (id : string) = Some ((p, 0) : Element) ∧
    fd_foundByIP (device_at p c) ≠ "") l.
Proof.
  intros HI Hl. pose proof (at_getDevicesByIP ip "" (dv_cache w) HI w eq_refl) as H.
  unfold GetDevicesByIP in *. rewrite Hl in H. destruct H as (dn&HP&Hall). cbv zeta.
  eapply Forall_impl; [exact Hall|]. intros [p links] (id&Hin&Hlinks&_). simpl in *.
  destruct (Perms_elem _ _ _ _ HP Hin) as (He&Hid&Hn). rewrite Hid. by split_and!.
Qed.

(** ** [GetDevice] *)

Lemma cached_found id t c p :
  (GetDevice deviceExpiration id t c).1 = Some p →
  ∃ v, entries (w_cache (GetDevice deviceExpiration id t c).2) !! id = Some ((p, v) : Element).
Proof.
  unfold GetDevice. rewrite entries_Load. unfold alive.
  destruct (entries (w_cache c) !! id) as [[q v]|] eqn:He; [|done]. simpl.
  destruct (elem_IsExpired t v); [done|]. simpl. intros [= ->].
  destruct (deviceIsStoredWithExpiration (p, v)); simpl; [|by exists v].
  rewrite entries_SetValidUntil, lookup_alter_eq, He. by eexists.
Qed.

Lemma at_Client_GetDevice fuel id c :
  id ≠ ANY_DEVICE → id ≠ "" → CacheInv c →
  triple (at_cache c) (Client_GetDevice deviceExpiration disableUDPEndpoints fuel id) (found_ok id).
Proof.
  intros Hany Hne. revert c. induction fuel as [|fuel IH]; intros c HI; cbn [Client_GetDevice]; [by intros w Hw|].
  apply at_ask_bind. intros t. apply at_cop_bind.
  assert (HI1 : CacheInv (GetDevice deviceExpiration id t c).2)
    by (eapply CacheInv_shrinks; [apply shrinks_GetDevice|exact HI]).
  pose proof (cached_found id t c) as Hf. destruct (GetDevice deviceExpiration id t c) as [[p|] c1].
  2:{ by apply multicast_ok. }
  cbn [fst snd] in *. destruct (Hf p eq_refl) as (v&He). pose proof (keyed_device_at _ _ _ _ HI1 He) as Hid.
  eapply triple_bind_catch; [apply at_getLinks|]. intros [links|err].
  - apply triple_pure. intros Hl. eapply triple_conseq; [by apply at_check|done|].
    intros [r|e] w [Hw Hr]; [|done]. subst r. destruct w as [cw e]. unfold at_cache in Hw. simpl in Hw. subst cw.
    rewrite Hid in Hl. by apply (found_ok_at id p links c1 v e).
  - apply (triple_pre _ (at_cache c1)); [by intros w [? _]|]. apply at_device_bind.
    case_bool_decide as Hip.
    + apply at_cop_bind. apply IH. cbn [snd]. eapply CacheInv_shrinks; [apply shrinks_deleteNotFoundByIP|exact HI1].
    + eapply triple_bind with (T := fun l w => ∃ dn, Perms dn (dv_cache w) ∧ found_all id dn l);
        [by apply at_getDevicesByIP|].
      intros l. apply (triple_at (fun c => ∃ dn, Perms dn c ∧ found_all id dn l)). intros c2 (dn&HP&Hl).
      destruct l as [|[q links] l]; [by intros w Hw|]. apply at_ret. intros e.
      apply Forall_cons in Hl as [(id'&Hin&Hlinks&[->|<-]) _]; [done|]. simpl in *.
      destruct (Perms_elem _ _ _ _ HP Hin) as (He2&Hid2&_). by apply (found_ok_at id' q links c2 0 e).
Qed.

(** C26 [GetDevice] returns the device it was asked for, however it found it: the device has
    the ID, it is in the cache under that ID, and the links are its own and not empty. *)
Theorem Client_GetDevice_spec fuel id w p links :
  id ≠ ANY_DEVICE → id ≠ "" → CacheInv (dv_cache w) →
  (Client_GetDevice deviceExpiration disableUDPEndpoints fuel id w).1 = Ok (p, links) →
  let c := dv_cache (Client_GetDevice deviceExpiration disableUDPEndpoints fuel id w).2 in
  fd_deviceID (device_at p c) = id ∧ links_of id links ∧
  ∃ v, entries (w_cache c) !! (id : string) = Some ((p, v) : Element).
Proof.
  intros Hany Hne HI Hr. pose proof (at_Client_GetDevice fuel id _ Hany Hne HI w eq_refl) as H.
  by rewrite Hr in H.
Qed.

(** *** Termination *)

Lemma bind_ext {A B} (m : DM A) (k1 k2 : A → DM B) w :
  (∀ a w', m w = (Ok a, w') → k1 a w' = k2 a w') → (m ≫= k1) w = (m ≫= k2) w.
Proof. intros H. unfold mbind, ME_bind. destruct (m w) as [[a|e] w'] eqn:E; [|done]. by apply H. Qed.
Lemma GetDevice_miss f id w :
  entries (w_cache (dv_cache w)) !! id = None →
  Client_GetDevice deviceExpiration disableUDPEndpoints (S f) id w =
  Client_GetDevice deviceExpiration disableUDPEndpoints 1 id w.
Proof.
  intros Hn. cbn [Client_GetDevice]. apply bind_ext. intros t w1 E1. apply bind_ext. intros [p|] w2 E2; [|done].
  exfalso. unfold now, dv_ask in E1. destruct (denv_now (dv_env w)) as [t' e]. injection E1 as <- <-.
  unfold cop, GetDevice in E2. simpl in E2. rewrite entries_Load, Hn in E2. simpl in E2. by injection E2.
Qed.

(** C36 On a well-formed cache [GetDevice] calls itself at most once: after it has taken a device that does not
    answer out of the cache, the search goes to the network, so its result does not depend
    on a fuel of two or more. *)
Theorem Client_GetDevice_terminates f id w :
  CacheInv (dv_cache w) →
  Client_GetDevice deviceExpiration disableUDPEndpoints (S (S f)) id w =
  Client_GetDevice deviceExpiration disableUDPEndpoints 2 id w.
Proof.
  intros HI. cbn [Client_GetDevice]. apply bind_ext. intros t w1 E1.
  unfold now, dv_ask in E1. destruct (denv_now (dv_env w)) as [t' e]. injection E1 as <- <-.
  apply bind_ext. intros [p|] w2 E2; [|done]. unfold cop in E2. cbn [dv_cache dv_env] in E2.
  assert (HI1 : CacheInv (GetDevice deviceExpiration id t' (dv_cache w)).2)
    by (eapply CacheInv_shrinks; [apply shrinks_GetDevice|exact HI]).
  pose proof (cached_found id t' (dv_cache w)) as Hf.
  destruct (GetDevice deviceExpiration id t' (dv_cache w)) as [r c1]. injection E2 as -> <-.
  destruct (Hf p eq_refl) as (v&He). pose proof (keyed_device_at _ _ _ _ HI1 He) as Hid. cbn [snd] in *.
  apply bind_ext. intros r w3 E3.
  pose proof (at_getLinks c1 p {| dv_cache := c1; dv_env := e |} eq_refl) as [H3 _].
  unfold catch in E3. destruct (getLinksDevice _ _ _ _) as [r3 w3']. injection E3 as <- <-.
  destruct r3 as [links|err]; [done|]. apply bind_ext. intros d w4 E4. unfold device, gets in E4.
  injection E4 as <- <-. simpl in H3. unfold at_cache in H3. rewrite H3. case_bool_decide as Hip; [|done].
  apply bind_ext. intros [] w5 E5. unfold cop in E5. injection E5 as <-. apply GetDevice_miss.
  cbn [dv_cache]. rewrite H3. unfold deleteDeviceNotFoundByIP. rewrite bool_decide_eq_true_2 by done.
  rewrite close_device_cache, Hid. destruct (LoadAndDeleteDevice_entries id c1) as (->&_). apply lookup_delete_eq.
Qed.
End Results.

(** ** The address of a device *)

(** An address that [GetDevicesByIP] stores has a colon. *)
Lemma getAddress_colon ip addr b : getAddress ip = Ok (addr, b) → contains_char ":" addr = true.
Proof.
  unfold getAddress. destruct (contains_char "." ip); intros H;
    apply bind_Ok_inv in H as ([host port]&_&[= <- _]); rewrite ?contains_app; simpl; by rewrite ?orb_true_r.
Qed.

Section ByAddress.
Context `{HKit : Kit} `{HCache : GoCache} `{HLaws : !GoCacheLaws}.

(** The devices that were found by an address are kept with the port, so a search by
    the plain IPv4 address never finds them in the cache: the devices that no longer answer
    at the address are not removed. *)
Theorem plain_address_finds_none ip t c :
  contains_char ":" ip = false → ip ≠ "" →
  (∀ k e, entries (w_cache c) !! k = Some e →
     fd_foundByIP (device_at e.1 c) = "" ∨ ∃ ip' b, getAddress ip' = Ok (fd_foundByIP (device_at e.1 c), b)) →
  GetDeviceByFoundIP ip t c = [].
Proof.
  intros Hip Hne Hall. unfold GetDeviceByFoundIP. destruct (List.find _ _) as [[k e]|] eqn:Ef; [|done].
  exfalso. apply find_some in Ef as [Hin Hb]. simpl in Hb. apply list_elem_of_In in Hin.
  rewrite entries_Range in Hin. apply elem_of_map_to_list in Hin.
  apply andb_true_iff in Hb as [_ Hb]. apply bool_decide_eq_true in Hb.
  destruct (Hall k e Hin) as [E|(ip'&b&E)]; [congruence|]. apply getAddress_colon in E. congruence.
Qed.
End ByAddress.

(** ** Examples *)

(** The device ["a"] answers searches; it answers /oic/res while the first component of the
    state is true.  The clock advances with each question. *)
#[local] Existing Instance ex_disc_Kit.
Definition ex_search : Multicast :=
  {| mc_dial := None; mc_answers := [AnsHandle [ex_disc_link "a"]]; mc_err := None |}.
Definition ex_tick {A} (a : A) (e : bool * Z) : A * (bool * Z) := (a, (e.1, e.2 + 1)).
#[local] Instance ex_DevicesEnv : DevicesEnv := {|
  DvEnv := bool * Z;
  denv_now e := ex_tick e.2 e;
  denv_multicast id := ex_tick ex_search;
  denv_byIP := ex_tick (fun _ => ex_search);
  denv_resources d e := ex_tick (if e.1 : bool
    then Ok (("coap", "10.0.0.1:5683"), [ex_disc_link "a"]) else Err (ErrText "timeout")) e;
  denv_others := ex_tick [] |}.
#[local] Instance ex_Quiet : QuietCache.
Proof. intros e. reflexivity. Qed.
Definition ex_client (online : bool) : DvWorld := {| dv_cache := NewDeviceCache; dv_env := (online, 1) |}.
Definition ex_links : ResourceLinks :=
  match (Client_GetDevice 10 false 2 "a" (ex_client true)).1 with Ok (_, links) => links | Err _ => [] end.

Lemma client_devices_keyed_witness :
  let w := foldl (client_exec 10 false) (ex_client true) [CallGetDevice 2 "a"; CallGetDevicesByIP "10.0.0.1"] in
  entries (w_cache (dv_cache w)) !! "a" = Some (0%nat, 0) ∧
  ∃ d, w_devices (dv_cache w) !! 0%nat = Some d ∧ fd_deviceID d = "a".
Proof.
  split; [vm_compute; reflexivity|].
  apply (client_devices_keyed (HDE := ex_DevicesEnv) 10 false [CallGetDevice 2 "a"; CallGetDevicesByIP "10.0.0.1"] (true, 1) "a"
    (0%nat, 0)). vm_compute. reflexivity.
Defined.

Lemma GetDevicesByIP_spec_witness :
  (GetDevicesByIP 10 false "10.0.0.1" (ex_client true)).1 = Ok [(0%nat, ex_links)] ∧
  let c := dv_cache (GetDevicesByIP 10 false "10.0.0.1" (ex_client true)).2 in
  Forall (fun '(p, links) =>
    let id := fd_deviceID (device_at p c) in
    links_of id links ∧ entries (w_cache c) !! (id : string) = Some ((p, 0) : Element) ∧
    fd_foundByIP (device_at p c) ≠ "") [(0%nat, ex_links)].
Proof.
  assert (H : (GetDevicesByIP 10 false "10.0.0.1" (ex_client true)).1 = Ok [(0%nat, ex_links)])
    by (vm_compute; reflexivity).
  split; [exact H|]. apply (GetDevicesByIP_spec 10 false "10.0.0.1" (ex_client true)); [|exact H].
  apply CacheInv_New.
Defined.

Lemma Client_GetDevice_spec_witness :
  (Client_GetDevice 10 false 2 "a" (ex_client true)).1 = Ok (0%nat, ex_links) ∧ links_of "a" ex_links.
Proof.
  assert (H : (Client_GetDevice 10 false 2 "a" (ex_client true)).1 = Ok (0%nat, ex_links))
    by (vm_compute; reflexivity).
  split; [exact H|]. refine (proj1 (proj2 (Client_GetDevice_spec 10 false 2 "a" (ex_client true) 0 ex_links
    _ _ _ H))); [done|done|apply CacheInv_New].
Defined.

(** The device is in the cache and no longer answers: it is searched once again. *)
Definition ex_offline : DvWorld :=
  {| dv_cache := dv_cache (Client_GetDevice 10 false 2 "a" (ex_client true)).2; dv_env := (false, 8) |}.
Lemma Client_GetDevice_terminates_witness :
  is_ok (Client_GetDevice 10 false 100 "a" ex_offline).1 = false ∧
  Client_GetDevice 10 false 100 "a" ex_offline = Client_GetDevice 10 false 2 "a" ex_offline.
Proof.
  split; [vm_compute; reflexivity|]. apply (Client_GetDevice_terminates 10 false 98 "a" ex_offline).
  unfold ex_offline. cbn [dv_cache]. eapply dvadds_CacheInv; [apply dvadds_Client_GetDevice|apply CacheInv_New].
Defined.

(** A device that answers the search but not the reading of its links makes
    [GetDevicesByIP] return an empty list, and [GetDeviceByIP] takes its first element. *)
Theorem GetDeviceByIP_panics :
  (GetDevicesByIP 10 false "10.0.0.1" (ex_client false)).1 = Ok [] ∧
  (GetDeviceByIP 10 false "10.0.0.1" (ex_client false)).1 = Err ErrIndexOutOfRange.
Proof. split; vm_compute; reflexivity. Qed.

Lemma plain_address_finds_none_witness :
  let c := dv_cache (GetDevicesByIP 10 false "10.0.0.1" (ex_client true)).2 in
  fd_foundByIP (device_at 0 c) = "10.0.0.1:5683" ∧ GetDeviceByFoundIP "10.0.0.1" 1 c = [].
Proof.
  intros c. split; [vm_compute; reflexivity|]. apply plain_address_finds_none; [reflexivity|done|].
  intros k e He. right. exists "10.0.0.1", true.
  assert (H : entries (w_cache c) = {[ "a" := (0%nat, 0) ]}) by (vm_compute; reflexivity).
  rewrite H in He. apply lookup_singleton_Some in He as [_ <-]. vm_compute. reflexivity.
Defined.
