(* ===== verification/ClientCommands.v ===== *)
(** * ClientCommands: the commands of the SDK on one device

    [src/client/getResource.go], [updateResource.go], [createResource.go],
    [deleteResource.go], [maitenance.go], [disownDevice.go], [ownDevice.go],
    [onboardDevice.go], [offboardDevice.go] and [GetDeviceLinkForHref] of [client.go], with
    the operations of the client core they call: [getResource.go], [updateResource.go],
    [deleteResource.go], [maintenance.go] and [isSecured.go] of [src/client/core].

    A command takes the device from ClientDevices and works on its connections, the
    [Device] of CoreDevice.  Both describe the same object: [on_core] runs an operation of
    the client core on the device behind a pointer, and keeps the ID and the connections it
    leaves.  When a call of ClientDevices closes a device, [dm] closes its connections.  While
    the calls of a command run, other goroutines work on the connections of the devices too:
    [renv_others] says how, after every call ([tables_others]); the connection on which
    [GetDevice] reads the links is one of them.  The requests of CoreDevice that carry a [Payload] (ownership, security
    and cloud resources) leave out the CoAP options they are sent with. *)

From S2P Require Export ClientDevices ClientCoap Ownership Reps.

(** ** Requests on a connection *)

(** What a goroutine does to the connections of a device: it connects to one of the endpoints,
    the handler of a connection that was closed runs, or it closes the device. *)
Inductive TableOp `{Kit} :=
  | TbConnect (endpoints : Endpoints)
  | TbConnClosed (addr : Addr) (conn : nat)
  | TbClose.

(** The answers of the peers to the requests with a codec, and what other goroutines do to the
    devices, by their pointers, during a call. *)
Class RequestEnv `{Kit} `{CoreEnv} := {
  renv_Post : nat → string → Z → string → Message → CEnv → result Message * CEnv;
  renv_Get : nat → string → Message → CEnv → result Message * CEnv;
  renv_Delete : nat → string → Message → CEnv → result Message * CEnv;
  renv_Observe : nat → string → Message → CEnv → result nat * CEnv;
  renv_others : CEnv → list (nat * TableOp) * CEnv }.
(** The connection [cc] of the client core as a connection of ClientCoap. *)
#[export] Instance conn_at `{RequestEnv} (cc : nat) : ClientConn | 100 := {|
  ConnEnv := CEnv;
  cc_Post := renv_Post cc;
  cc_Get := renv_Get cc;
  cc_Delete := renv_Delete cc;
  cc_Observe := renv_Observe cc |}.

Section CoreRequests.
Context `{HKit : Kit} `{HCore : CoreEnv} `{HReq : !RequestEnv}.
Context (status_Error : Message → error → error).
Abbreviation CM := (ME CWorld).

(** The error of a request and what is left in the receiver of its response. *)
Definition Answer (A : Type) : Type := result unit * Target A.
Definition on_conn {A} (f : CEnv → result unit * Target A * CEnv) : CM (Answer A) :=
  fun w => let '(r, v, e) := f (cw_env w) in
           (Ok (r, v), {| cw_d := cw_d w; cw_env := e; cw_trace := cw_trace w |}).

Definition GetResourceWithCodec {A} (link : ResourceLink) (codec : Codec A) (response : Target A)
    (options : list OptionFunc) : CM (Answer A) :=
  let options := options ++ [WithAccept (codec_ContentFormat codec)] in
  r ← catch (connectToEndpoints (Schema.GetEndpoints link));
  match r with
  | Err err => mret (Err (ErrWrap ("cannot get resource " +:+ Href link) err), response)
  | Ok (_, client) =>
      on_conn (ClientCoap.GetResourceWithCodec (HConn := conn_at client) status_Error (Href link) codec response options)
  end.

Definition UpdateResourceWithCodec {A B} (link : ResourceLink) (codecQ : Codec A) (codec : Codec B)
    (request : A) (response : Target B) (options : list OptionFunc) : CM (Answer B) :=
  r ← catch (connectToEndpoints (Schema.GetEndpoints link));
  match r with
  | Err err => mret (Err (MakeInternal (ErrWrap ("cannot update resource " +:+ Href link) err)), response)
  | Ok (_, client) =>
      let options := options ++ [WithAccept (codec_ContentFormat codec)] in
      on_conn (ClientCoap.UpdateResourceWithCodec (HConn := conn_at client) status_Error (Href link) codecQ codec request response
                 options)
  end.

Definition DeleteResourceWithCodec {A} (link : ResourceLink) (codec : Codec A)
    (codecD : Codec (DetailedResponse A)) (response : Target A) (options : list OptionFunc)
    : CM (Answer A) :=
  r ← catch (connectToEndpoints (Schema.GetEndpoints link));
  match r with
  | Err err => mret (Err (MakeInternal (ErrWrap ("cannot delete resource " +:+ Href link) err)), response)
  | Ok (_, client) =>
      let options := options ++ [WithAccept (codec_ContentFormat codec)] in
      on_conn (ClientCoap.DeleteResourceWithCodec (HConn := conn_at client) status_Error (Href link) codec codecD response options)
  end.

(** ** [core/maintenance.go] *)

Context `{HCborQ : Cbor MaintenanceUpdateRequest} `{HCborM : Cbor Maintenance}
  `{HIntoQ : !CborInto MaintenanceUpdateRequest} `{HIntoM : !CborInto Maintenance}.

Definition http_StatusBadRequest : Z := 400.
(** [http.StatusText] of the codes from 400 on. *)
Definition http_texts : list (Z * string) :=
  [(400, "Bad Request"); (401, "Unauthorized"); (402, "Payment Required"); (403, "Forbidden");
   (404, "Not Found"); (405, "Method Not Allowed"); (406, "Not Acceptable");
   (407, "Proxy Authentication Required"); (408, "Request Timeout"); (409, "Conflict"); (410, "Gone");
   (411, "Length Required"); (412, "Precondition Failed"); (413, "Request Entity Too Large");
   (414, "Request URI Too Long"); (415, "Unsupported Media Type"); (416, "Requested Range Not Satisfiable");
   (417, "Expectation Failed"); (418, "I'm a teapot"); (421, "Misdirected Request");
   (422, "Unprocessable Entity"); (423, "Locked"); (424, "Failed Dependency"); (425, "Too Early");
   (426, "Upgrade Required"); (428, "Precondition Required"); (429, "Too Many Requests");
   (431, "Request Header Fields Too Large"); (451, "Unavailable For Legal Reasons");
   (500, "Internal Server Error"); (501, "Not Implemented"); (502, "Bad Gateway");
   (503, "Service Unavailable"); (504, "Gateway Timeout"); (505, "HTTP Version Not Supported");
   (506, "Variant Also Negotiates"); (507, "Insufficient Storage"); (508, "Loop Detected");
   (510, "Not Extended"); (511, "Network Authentication Required")].
Definition http_StatusText (code : Z) : string :=
  from_option snd "" (List.find (fun ct => ct.1 =? code) http_texts).

(** The receiver is a pointer to a [Maintenance] that was zero before the request. *)
Definition updateMaintenanceResource (links : ResourceLinks) (req : MaintenanceUpdateRequest)
    (options : list OptionFunc) : CM unit :=
  match GetResourceLinks links [maintenance_ResourceType] with
  | [] => fail (MakeUnavailable (ErrText ("cannot find '" +:+ maintenance_ResourceType +:+ "'")))
  | link :: _ =>
      r ← UpdateResourceWithCodec link (VNDOCFCBORCodec MaintenanceUpdateRequest) (VNDOCFCBORCodec Maintenance)
            req (TPlain zero_Maintenance) options;
      let '(err, v) := r in
      lift err;;
      let resp := default zero_Maintenance (body_of v) in
      if http_StatusBadRequest <=? mnt_LastHTTPError resp
      then fail (ErrText (http_StatusText (mnt_LastHTTPError resp)))
      else mret tt
  end.

Definition Reboot (links : ResourceLinks) (options : list OptionFunc) : CM unit :=
  updateMaintenanceResource links {| mu_FactoryReset := false; mu_Reboot := true |} options.
Definition FactoryReset (ctxErr : bool) (links : ResourceLinks) (options : list OptionFunc) : CM unit :=
  r ← catch (updateMaintenanceResource links {| mu_FactoryReset := true; mu_Reboot := false |} options);
  match r with
  | Err err => if connectionWasClosed ctxErr err then mret tt else fail err
  | Ok _ => mret tt
  end.
End CoreRequests.

(** [core/isSecured.go]. *)
Definition IsSecured `{Kit} (d : Found) : bool :=
  negb (length (FilterSecureEndpoints (fd_endpoints d)) =? 0)%nat.

(** ** The world of the SDK *)

Section Commands.
Context `{HKit : Kit} `{HCache : GoCache} `{HDE : !DevicesEnv}.
Context `{HCore : CoreEnv} `{HReq : !RequestEnv}.
Context `{HCred : CredEnv} `{HPem : !PemOut} `{HUuid : Uuids}.
Context `{HCborQ : Cbor MaintenanceUpdateRequest} `{HCborM : Cbor Maintenance}
  `{HIntoQ : !CborInto MaintenanceUpdateRequest} `{HIntoM : !CborInto Maintenance}.
Context (status_Error : Message → error → error).
(** The configuration of the client; [fuel] is the one of [GetDevice], [ctxErr] says whether
    the context of the command is cancelled. *)
Context (deviceExpiration : Z) (disableUDPEndpoints useDeviceIDInQuery : bool).
Context (fuel : nat) (ctxErr : bool).

(** [sd_core]: the connections of the devices, by their pointers. *)
Record SdkWorld := {
  sd_dv : DvWorld;
  sd_core : gmap nat Device;
  sd_env : CEnv;
  sd_trace : list CEvent }.
Abbreviation SM := (ME SdkWorld).

Definition no_conns : Device :=
  {| d_deviceID := ""; d_getEndpoints := None; d_heap := ∅; d_conn := ∅ |}.
Definition core_at (p : nat) (w : SdkWorld) : Device :=
  let f := device_at p (dv_cache (sd_dv w)) in
  let d := default no_conns (sd_core w !! p) in
  {| d_deviceID := fd_deviceID f; d_getEndpoints := Some (fd_endpoints f);
     d_heap := d_heap d; d_conn := d_conn d |}.
Definition run_core {A} (p : nat) (m : ME CWorld A) : SM A :=
  fun w =>
    let (r, c) := m {| cw_d := core_at p w; cw_env := sd_env w; cw_trace := sd_trace w |} in
    let v := {| dv_cache := upd_device p (SetDeviceID (d_deviceID (cw_d c))) (dv_cache (sd_dv w));
                dv_env := dv_env (sd_dv w) |} in
    (r, {| sd_dv := v; sd_core := <[p := cw_d c]> (sd_core w); sd_env := cw_env c; sd_trace := cw_trace c |}).

(** *** Other goroutines *)

Definition table_exec (op : TableOp) : ME CWorld unit :=
  match op with
  | TbConnect endpoints => _ ← catch (connectToEndpoints endpoints); mret tt
  | TbConnClosed addr conn => onConnClosed addr conn
  | TbClose => _ ← catch closeConnections; mret tt
  end.
Definition tables_run (w : SdkWorld) (ops : list (nat * TableOp)) : SdkWorld :=
  foldl (fun w po => (run_core po.1 (table_exec po.2) w).2) w ops.
Definition tables_others (w : SdkWorld) : SdkWorld :=
  let (ops, e) := renv_others (sd_env w) in
  tables_run {| sd_dv := sd_dv w; sd_core := sd_core w; sd_env := e; sd_trace := sd_trace w |} ops.

(** *** Calls *)

(** The connections of the devices that a call has closed. *)
Definition close_new (old : list nat) (w : SdkWorld) : SdkWorld :=
  let closed := w_closed (dv_cache (sd_dv w)) in
  tables_run w (map (fun p => (p, TbClose)) (reverse (take (length closed - length old) closed))).
Definition run_dv {A} (m : DvWorld → result A * DvWorld) : SM A :=
  fun w => let (r, v) := m (sd_dv w) in
           (r, {| sd_dv := v; sd_core := sd_core w; sd_env := sd_env w; sd_trace := sd_trace w |}).
Definition dm {A} (m : DvWorld → result A * DvWorld) : SM A :=
  fun w => let (r, w1) := run_dv m w in
           (r, tables_others (close_new (w_closed (dv_cache (sd_dv w))) w1)).
Definition on_core {A} (p : nat) (m : ME CWorld A) : SM A :=
  fun w => let (r, w1) := run_core p m w in (r, tables_others w1).

(** [defer]: [after] runs in any case, its own error is only logged. *)
Definition deferred {A} (after : SM unit) (m : SM A) : SM A :=
  r ← catch m; _ ← catch after; lift r.

Abbreviation get_device deviceID := (dm (Client_GetDevice deviceExpiration disableUDPEndpoints fuel deviceID)).
Definition found (p : nat) : SM Found := gets (fun w => device_at p (dv_cache (sd_dv w))).

(** ** Commands on one resource *)

Definition LinkNotFoundCallback : Type := option (ResourceLinks → string → result ResourceLink).

Definition GetDeviceLinkForHref (deviceID href : string) (callback : LinkNotFoundCallback)
    : SM (nat * ResourceLink) :=
  dl ← get_device deviceID;
  let '(d, links) := dl in
  match Ownership.GetResourceLink links href with
  | Ok link => mret (d, link)
  | Err err =>
      match callback with
      | None => fail err
      | Some linkNotFoundCallback =>
          link ← lift (linkNotFoundCallback links href);
          mret (d, link)
      end
  end.

(** [if c.useDeviceIDInQuery { cfg.opts = append(cfg.opts, coap.WithDeviceID(deviceID)) }]. *)
Definition with_device_id (deviceID : string) (opts : list OptionFunc) : list OptionFunc :=
  if useDeviceIDInQuery then opts ++ [WithDeviceID deviceID] else opts.

(** [opts], [codec] and [callback] are what the options of the call give.  The error is that
    of finding the resource: it leaves the response alone. *)
Definition GetResource {A} (deviceID href : string) (codec : Codec A) (response : Target A)
    (opts : list OptionFunc) (callback : LinkNotFoundCallback) : SM (Answer A) :=
  dl ← GetDeviceLinkForHref deviceID href callback;
  on_core dl.1 (GetResourceWithCodec status_Error dl.2 codec response (with_device_id deviceID opts)).
Definition UpdateResource {A B} (deviceID href : string) (codecQ : Codec A) (codec : Codec B)
    (request : A) (response : Target B) (opts : list OptionFunc) (callback : LinkNotFoundCallback)
    : SM (Answer B) :=
  dl ← GetDeviceLinkForHref deviceID href callback;
  on_core dl.1 (UpdateResourceWithCodec status_Error dl.2 codecQ codec request response
                  (with_device_id deviceID opts)).
(** The options of the call come after the interface. *)
Definition CreateResource {A B} (deviceID href : string) (codecQ : Codec A) (codec : Codec B)
    (request : A) (response : Target B) (opts : list OptionFunc) (callback : LinkNotFoundCallback)
    : SM (Answer B) :=
  dl ← GetDeviceLinkForHref deviceID href callback;
  on_core dl.1 (UpdateResourceWithCodec status_Error dl.2 codecQ codec request response
                  (with_device_id deviceID (WithInterface "oic.if.create" :: opts))).
Definition DeleteResource {A} (deviceID href : string) (codec : Codec A)
    (codecD : Codec (DetailedResponse A)) (response : Target A) (opts : list OptionFunc)
    (callback : LinkNotFoundCallback) : SM (Answer A) :=
  dl ← GetDeviceLinkForHref deviceID href callback;
  on_core dl.1 (DeleteResourceWithCodec status_Error dl.2 codec codecD response
                  (with_device_id deviceID opts)).

(** ** Maintenance and ownership *)

Definition deleteDeviceNotFoundByIP (dev : nat) : SM unit :=
  dm (cop (fun c => (tt, DeviceCache.deleteDeviceNotFoundByIP dev c))).
Definition removeTemporaryDeviceFromCache (d : nat) : SM unit :=
  f ← found d;
  if negb (bool_decide (fd_foundByIP f = "")) then mret tt else deleteDeviceNotFoundByIP d.

Definition Client_FactoryReset (deviceID : string) (opts : list OptionFunc) : SM unit :=
  dl ← get_device deviceID;
  deferred (removeTemporaryDeviceFromCache dl.1)
    (on_core dl.1 (FactoryReset status_Error ctxErr dl.2 (with_device_id deviceID opts))).
Definition Client_Reboot (deviceID : string) (opts : list OptionFunc) : SM unit :=
  dl ← get_device deviceID;
  deferred (removeTemporaryDeviceFromCache dl.1)
    (on_core dl.1 (Reboot status_Error dl.2 (with_device_id deviceID opts))).

(** [ownerID] is the result of [GetSdkOwnerID]. *)
Definition DisownDevice (ownerID : result string) (deviceID : string) (opts : list OptionFunc) : SM unit :=
  dl ← get_device deviceID;
  deferred (removeTemporaryDeviceFromCache dl.1)
    (f ← found dl.1;
     if negb (IsSecured f)
     then on_core dl.1 (FactoryReset status_Error ctxErr dl.2 (with_device_id deviceID opts))
     else on_core dl.1 (Disown ctxErr ownerID dl.2)).

Definition ownDeviceWithSigners (rand : CEnv → result string * CEnv) (ownerID : result string)
    (deviceID : string) (otmClient : list Z) (opts : ownCfg) : SM string :=
  dl ← get_device deviceID;
  let '(d, links) := dl in
  f ← found d;
  if negb (IsSecured f) then mret (fd_deviceID f)
  else
    links ← (if disableUDPEndpoints
             then links ← dm (core_GetResourceLinks deviceExpiration d);
                  mret (patchResourceLinksEndpoints links false)
             else mret links);
    on_core d (Own rand opts ownerID links otmClient);;
    t ← dm now;
    dm (cop (fun c => (tt, updateCache deviceExpiration d deviceID t c)));;
    f ← found d;
    mret (fd_deviceID f).

(** ** Onboarding *)

Definition cloud_update (authorizationProvider authorizationCode cloudURL cloudID : string)
    : CloudState.ConfigurationUpdateRequest :=
  {| CloudState.upd_AuthorizationProvider := authorizationProvider; CloudState.upd_URL := cloudURL;
     CloudState.upd_AuthorizationCode := authorizationCode; CloudState.upd_CloudID := cloudID |}.
Definition setCloudResource (links : ResourceLinks) (ob : CloudState.ConfigurationUpdateRequest)
    : ME CWorld unit :=
  match GetResourceLinks links [cloud_ResourceType] with
  | l :: _ => CoreDevice.UpdateResource l (PCloud ob)
  | [] => fail (ErrText "cloud resource not found")
  end.
Definition cloud_acl (cloudID : string) (links : ResourceLinks) : AclUpdateRequest :=
  {| acl_ResourceOwner := "";
     AccessControlList :=
       [ace AllPermissions (subject_device cloudID)
          (AllResources ++ (acl_href <$> GetResourceHrefs links [softwareupdate_ResourceType]) ++
           (acl_href <$> GetResourceHrefs links [maintenance_ResourceType]))] |}.
Definition setACLForCloud (cloudID : string) (links : ResourceLinks) : ME CWorld unit :=
  link ← lift (Ownership.GetResourceLink links acl_ResourceURI);
  CoreDevice.UpdateResource link (PAcl (cloud_acl cloudID links)).

(** On the device behind the pointer, in one run: [Provision], then the body with the
    deferred [Close] of the provisioning. *)
Definition onboard_secured (links : ResourceLinks) (cloudID : string)
    (ob : CloudState.ConfigurationUpdateRequest) : ME CWorld unit :=
  provisioning_start links;;
  r ← catch (setACLForCloud cloudID links;; SetCloudResource links ob);
  _ ← catch (provisioning_Close links);
  lift r.
Definition OnboardDevice (deviceID authorizationProvider cloudURL authCode cloudID : string) : SM unit :=
  dl ← get_device deviceID;
  let '(d, links) := dl in
  f ← found d;
  let ob := cloud_update authorizationProvider authCode cloudURL cloudID in
  if IsSecured f then on_core d (onboard_secured links cloudID ob)
  else on_core d (setCloudResource links ob).
Definition OffboardDevice (deviceID : string) : SM unit :=
  dl ← get_device deviceID;
  on_core dl.1 (setCloudResource dl.2 (cloud_update "" "" "" "")).
End Commands.
Arguments SdkWorld {_ _ _ _}.
