(* ===== verification/ClientCommandsProps.v ===== *)
(** * ClientCommandsProps: the properties of the commands on one device

    The cache and the tables of connections stay in order whatever other goroutines do; what
    the commands ask for, and after which of them a device is forgotten. *)

From S2P Require Export ClientCommands.

(** ** The connection tables stay in order *)

Section Tables.
Context `{HKit : Kit} `{HCore : CoreEnv} `{HCred : CredEnv} `{HPem : !PemOut} `{HUuid : Uuids}.
Abbreviation CM := (ME CWorld).

(** The table of connections is in order and, for [Some id], the device has the ID. *)
Definition in_order (o : option string) (w : CWorld) : Prop :=
  slots_ok (cw_d w) ∧ match o with Some id => d_deviceID (cw_d w) = id | None => True end.
Context (o : option string).
(** Operations of the core that keep this. *)
Abbreviation orderly := (keeps (in_order o)).

Lemma orderly_same {A} (m : CM A) : (∀ w, cw_d (m w).2 = cw_d w) → orderly m.
Proof. intros H w Hw. unfold in_order. by rewrite H. Qed.
Lemma orderly_ask {A} (f : CEnv → result A * CEnv) : orderly (ask f).
Proof. apply orderly_same, ask_d. Qed.
Lemma orderly_emit e : orderly (emit e).
Proof. by apply orderly_same. Qed.
Lemma orderly_dial d a : orderly (dial_with d a).
Proof. apply orderly_same, dial_with_d. Qed.
(** Connecting does not touch the ID. *)
Abbreviation keeps_id id := (keeps (fun w => d_deviceID (cw_d w) = id)).
Lemma keeps_id_upd id f : (∀ d, d_deviceID (f d) = d_deviceID d) → keeps_id id (upd f).
Proof. intros Hf w Hw. cbn. by rewrite Hf. Qed.
Lemma keeps_id_connectToEndpoint id ep : keeps_id id (connectToEndpoint ep).
Proof.
  assert (Hdial : ∀ addr, keeps_id id (dial addr)) by (intros addr w Hw; by rewrite dial_d).
  unfold connectToEndpoint, loadORCreate, conn_Dial, set_slot. keeps_tac; try apply Hdial;
    apply keeps_id_upd; intros d; unfold removeConn; repeat case_match; done.
Qed.
Lemma keeps_id_connect id eps : keeps_id id (connectToEndpoints eps).
Proof.
  unfold connectToEndpoints. generalize (@None error). induction eps as [|ep eps IH]; intros errs;
    cbn [connect_loop]; keeps_tac; first [apply keeps_id_connectToEndpoint|apply IH].
Qed.
Lemma orderly_connect eps : orderly (connectToEndpoints eps).
Proof.
  intros w [Hw Hid]. pose proof (connectToEndpoints_spec eps w Hw) as H.
  split; [by destruct (connectToEndpoints eps w) as [r w']; apply H|].
  destruct o as [id|]; [|done]. by apply keeps_id_connect.
Qed.
Lemma slots_ok_empty d h : slots_ok (set_slots h ∅ d).
Proof. by split; intros a; cbn; intros ??; rewrite lookup_empty in *. Qed.
Lemma orderly_pop : orderly popConnections.
Proof. intros w [_ Hid]. split; [apply slots_ok_empty|exact Hid]. Qed.

Lemma orderly_onConnClosed addr c : orderly (onConnClosed addr c).
Proof.
  assert (Hdel : ∀ d a, slots_ok d → slots_ok (set_slots (d_heap d) (delete a (d_conn d)) d)).
  { intros d a [H1 H2]. split; [intros b p Hb|intros b1 b2 p Hb1 Hb2]; cbn in *;
      repeat match goal with H : delete _ _ !! _ = Some _ |- _ => apply lookup_delete_Some in H as [_ H] end; eauto. }
  intros w [Hw Hid]. cbn. unfold in_order, removeConn. cbn. split; [repeat case_match; try done; by apply Hdel|].
  destruct o; [|done]. by repeat case_match.
Qed.
#[local] Hint Resolve orderly_ask orderly_emit orderly_dial orderly_connect orderly_pop : keeps.
Lemma orderly_update c href p : orderly (update c href p).
Proof. unfold update. keeps_tac. Qed.
Lemma orderly_delete c href : orderly (delete_ c href).
Proof. unfold delete_. keeps_tac. Qed.
Lemma orderly_get {A} (f : nat → CEnv → result A * CEnv) c href : orderly (get_ f c href).
Proof. unfold get_. keeps_tac. Qed.
Lemma orderly_close c : orderly (close_conn c).
Proof. unfold close_conn. keeps_tac. Qed.
#[local] Hint Resolve orderly_update orderly_delete orderly_get orderly_close : keeps.
Lemma orderly_UpdateResource link p : orderly (CoreDevice.UpdateResource link p).
Proof. unfold CoreDevice.UpdateResource. keeps_tac. Qed.
Lemma orderly_GetOwnership links : orderly (GetOwnership links).
Proof. unfold GetOwnership, CoreDevice.GetResource. keeps_tac. Qed.
Lemma orderly_close_all conns errs : orderly (close_all conns errs).
Proof. revert errs. induction conns as [|[c|] conns IH]; intros errs; cbn [close_all]; keeps_tac; apply IH. Qed.
#[local] Hint Resolve orderly_UpdateResource orderly_GetOwnership orderly_close_all : keeps.
Lemma orderly_closeConnections : orderly closeConnections.
Proof. unfold closeConnections. keeps_tac. Qed.
#[local] Hint Resolve orderly_closeConnections : keeps.
Lemma orderly_Disown ctxErr ownerID links : orderly (Disown ctxErr ownerID links).
Proof. unfold Disown. keeps_tac. Qed.
Lemma orderly_update_secure links href msg p : orderly (update_secure links href msg p).
Proof. unfold update_secure. keeps_tac. Qed.
#[local] Hint Resolve orderly_update_secure : keeps.
Lemma orderly_onboard links cloudID ob : orderly (onboard_secured links cloudID ob).
Proof.
  unfold onboard_secured, provisioning_start, provisioning_Close, setACLForCloud, SetCloudResource. keeps_tac.
Qed.
Lemma orderly_setCloudResource links ob : orderly (setCloudResource links ob).
Proof. unfold setCloudResource. keeps_tac. Qed.
End Tables.

(** ** The transfer of ownership keeps the table in order *)

Section Transfer.
Context `{HKit : Kit} `{HCore : CoreEnv} `{HCred : CredEnv} `{HPem : !PemOut} `{HUuid : Uuids}.
Abbreviation orderly := (keeps (in_order None)).
#[local] Hint Resolve orderly_ask orderly_emit orderly_dial orderly_update orderly_delete orderly_get orderly_close
  orderly_GetOwnership : keeps.

Lemma orderly_setID id : orderly (upd (set_deviceID id)).
Proof. by intros w Hw. Qed.
#[local] Hint Resolve orderly_setID : keeps.
Lemma orderly_getTLSClient links oc errs : orderly (getTLSClient links oc errs).
Proof.
  revert errs. induction links as [|l links IH]; intros errs; cbn [getTLSClient]; unfold try_otm; keeps_tac;
    first [apply IH | idtac].
Qed.
Lemma orderly_Provision c owner k o : orderly (ProvisionOwnerCredentials c owner k o).
Proof. unfold ProvisionOwnerCredentials, setup_credentials. keeps_tac. Qed.
#[local] Hint Resolve orderly_getTLSClient orderly_Provision : keeps.
Lemma orderly_transfer rand cfg id c oc : orderly (ownershipTransfer rand cfg id c oc).
Proof.
  unfold ownershipTransfer, checkProvisionState, run_during, setDoxmDeviceID, provisionOwner, setResourceOwner.
  keeps_tac.
Qed.
Lemma orderly_configure tls oc owner addr act links k : orderly (configure tls oc owner addr act links k).
Proof. unfold configure, updateOperationalState, getDTLSClient, setACL, run_after, with_conn. keeps_tac. Qed.
#[local] Hint Resolve orderly_transfer orderly_configure : keeps.
Lemma orderly_Own rand cfg ownerID links otms : orderly (Own rand cfg ownerID links otms).
Proof. unfold Own, selectOTM, setOTM, own_with, disownAndLogError, updateOperationalState, with_conn. keeps_tac. Qed.
End Transfer.

(** ** Requests with a codec *)

Section CoreRequests.
Context `{HKit : Kit} `{HCore : CoreEnv} `{HReq : !RequestEnv}.
Context (status_Error : Message → error → error).
Context `{HCborQ : Cbor MaintenanceUpdateRequest} `{HCborM : Cbor Maintenance}
  `{HIntoQ : !CborInto MaintenanceUpdateRequest} `{HIntoM : !CborInto Maintenance}.
Abbreviation CM := (ME CWorld).
Context (o : option string).

Lemma orderly_on_conn {A} (f : CEnv → result unit * Target A * CEnv) : keeps (in_order o) (on_conn f).
Proof. intros w Hw. unfold on_conn. by destruct (f (cw_env w)) as [[r v] e]. Qed.
#[local] Hint Resolve orderly_on_conn orderly_connect : keeps.
Lemma orderly_GetC {A} link (codec : Codec A) v opts :
  keeps (in_order o) (GetResourceWithCodec status_Error link codec v opts).
Proof. unfold GetResourceWithCodec. keeps_tac. Qed.
Lemma orderly_UpdateC {A B} link (codecQ : Codec A) (codec : Codec B) q v opts :
  keeps (in_order o) (UpdateResourceWithCodec status_Error link codecQ codec q v opts).
Proof. unfold UpdateResourceWithCodec. keeps_tac. Qed.
Lemma orderly_DeleteC {A} link (codec : Codec A) codecD v opts :
  keeps (in_order o) (DeleteResourceWithCodec status_Error link codec codecD v opts).
Proof. unfold DeleteResourceWithCodec. keeps_tac. Qed.
#[local] Hint Extern 1 (keeps _ (UpdateResourceWithCodec _ _ _ _ _ _ _)) => apply orderly_UpdateC : keeps.
Lemma orderly_maintenance links req opts : keeps (in_order o) (updateMaintenanceResource status_Error links req opts).
Proof.
  unfold updateMaintenanceResource. keeps_tac.
Qed.
#[local] Hint Resolve orderly_maintenance : keeps.
Lemma orderly_Reboot links opts : keeps (in_order o) (Reboot status_Error links opts).
Proof. unfold Reboot. keeps_tac. Qed.
Lemma orderly_FactoryReset c links opts : keeps (in_order o) (FactoryReset status_Error c links opts).
Proof. unfold FactoryReset. keeps_tac. Qed.

(** [r] and [v] are what [run] returned on a connection that the table of [d] holds for an
    endpoint of the link. *)
Definition asked {A} (link : ResourceLink) (d : Device) (run : nat → CEnv → result unit * Target A * CEnv)
    (r : result unit) (v : Target A) : Prop :=
  ∃ ep addr slot cc e e', ep ∈ Schema.GetEndpoints link ∧ Endpoint_GetAddr ep = Ok addr ∧
    d_conn d !! addr_URL addr = Some slot ∧
    d_heap d !! slot = Some {| conn_c := Some cc; conn_err := None |} ∧ run cc e = (r, v, e').

(** The common part of the requests: it connects, or it reports the error of the connection. *)
Lemma request_spec {A} link (response : Target A) (wrap : error → error)
    (run : nat → CEnv → result unit * Target A * CEnv) w :
  slots_ok (cw_d w) →
  let '(a, w') :=
    (r ← catch (connectToEndpoints (Schema.GetEndpoints link));
     match r with
     | Err err => mret (Err (wrap err), response)
     | Ok (_, client) => on_conn (run client)
     end) w in
  ∃ r v, a = Ok (r, v) ∧
    ((∃ err, r = Err (wrap err) ∧ v = response) ∨ asked link (cw_d w') run r v).
Proof.
  intros Hok. unfold mbind, ME_bind, catch. pose proof (connectToEndpoints_spec (Schema.GetEndpoints link) w Hok) as H.
  destruct (connectToEndpoints _ w) as [[[addr cc]|err] w1]; destruct H as [_ H].
  - destruct H as (ep&p&Hin&Hep&Hp&Hc). unfold on_conn. destruct (run cc (cw_env w1)) as [[r v] e'] eqn:E.
    exists r, v. split; [done|]. right. by exists ep, addr, p, cc, (cw_env w1), e'.
  - do 2 eexists. split; [done|]. left. by eexists.
Qed.
End CoreRequests.

(** ** The state of the SDK *)

Section Sdk.
Context `{HKit : Kit} `{HCache : GoCache} `{HLaws : !GoCacheLaws} `{HDE : !DevicesEnv}.
Context `{HCore : CoreEnv} `{HReq : !RequestEnv}.
Context `{HCred : CredEnv} `{HPem : !PemOut} `{HUuid : Uuids}.
Context `{HCborQ : Cbor MaintenanceUpdateRequest} `{HCborM : Cbor Maintenance}
  `{HIntoQ : !CborInto MaintenanceUpdateRequest} `{HIntoM : !CborInto Maintenance}.
Context (status_Error : Message → error → error).
Context (deviceExpiration : Z) (disableUDPEndpoints useDeviceIDInQuery : bool).
Context (fuel : nat) (ctxErr : bool).
Abbreviation SM := (ME SdkWorld).

(** The cache is keyed by the IDs of its devices, and every table of connections is in order. *)
Definition conns_ok (w : SdkWorld) : Prop := ∀ p d, sd_core w !! p = Some d → slots_ok d.
Definition SdkInv (w : SdkWorld) : Prop := CacheInv (dv_cache (sd_dv w)) ∧ conns_ok w.

Lemma core_at_ok p w : conns_ok w → slots_ok (core_at p w).
Proof.
  intros Hw. unfold core_at. destruct (sd_core w !! p) as [d|] eqn:E; cbn.
  - destruct (Hw p d E) as [H1 H2]. by split.
  - split; intros a; cbn; intros ??; by rewrite lookup_empty in *.
Qed.
Lemma conns_ok_insert p d w v e t :
  conns_ok w → slots_ok d →
  conns_ok {| sd_dv := v; sd_core := <[p := d]> (sd_core w); sd_env := e; sd_trace := t |}.
Proof. intros Hw Hd q d' H. cbn in H. apply lookup_insert_Some in H as [[-> <-]|[_ H]]; [done|]. by eapply Hw. Qed.
(** Writing back the ID that the device has does not change the cache. *)
Lemma upd_same_id p c : upd_device p (SetDeviceID (fd_deviceID (device_at p c))) c = c.
Proof.
  unfold upd_device, set_devices, device_at. destruct c as [devs n c b l]; cbn. f_equal.
  apply map_eq. intros q. destruct (decide (q = p)) as [->|Hne]; [|by rewrite lookup_alter_ne].
  rewrite lookup_alter_eq. destruct (devs !! p) as [[]|]; done.
Qed.

(** What an operation of the core does to the world of the SDK. *)
Lemma run_core_spec {A} p (m : ME CWorld A) w :
  conns_ok w → keeps (in_order (Some (fd_deviceID (device_at p (dv_cache (sd_dv w)))))) m →
  let c := m {| cw_d := core_at p w; cw_env := sd_env w; cw_trace := sd_trace w |} in
  run_core p m w = (c.1, {| sd_dv := sd_dv w; sd_core := <[p := cw_d c.2]> (sd_core w);
                            sd_env := cw_env c.2; sd_trace := cw_trace c.2 |}) ∧
  slots_ok (cw_d c.2).
Proof.
  intros Hw Hm. cbv zeta. specialize (Hm {| cw_d := core_at p w; cw_env := sd_env w; cw_trace := sd_trace w |}).
  unfold run_core. destruct (m _) as [r c]. cbn in *.
  destruct Hm as [Hs Hid]; [split; [by apply core_at_ok|done]|]. split; [|done]. rewrite Hid, upd_same_id.
  by destruct (sd_dv w).
Qed.

Lemma run_core_frame {A} p (m : ME CWorld A) w :
  conns_ok w → keeps (in_order (Some (fd_deviceID (device_at p (dv_cache (sd_dv w)))))) m →
  conns_ok (run_core p m w).2 ∧ sd_dv (run_core p m w).2 = sd_dv w.
Proof.
  intros Hw Hm. destruct (run_core_spec p m w Hw Hm) as [-> Hs]. split; [by apply conns_ok_insert|done].
Qed.

(** The other goroutines keep the tables in order, and do not touch the cache. *)
Lemma orderly_table op o : keeps (in_order o) (table_exec op).
Proof.
  destruct op; cbn [table_exec].
  - apply keeps_bind; [apply keeps_catch, orderly_connect|intros; apply keeps_ret].
  - apply orderly_onConnClosed.
  - apply keeps_bind; [apply keeps_catch, orderly_closeConnections|intros; apply keeps_ret].
Qed.
Lemma tables_run_frame ops w : conns_ok w → conns_ok (tables_run w ops) ∧ sd_dv (tables_run w ops) = sd_dv w.
Proof.
  revert w. induction ops as [|[p op] ops IH]; intros w Hw; [done|]. unfold tables_run. cbn [foldl fst snd].
  destruct (run_core_frame p (table_exec op) w Hw (orderly_table op _)) as [H1 H2].
  destruct (IH _ H1) as [H3 H4]. split; [exact H3|exact (eq_trans H4 H2)].
Qed.
Lemma tables_others_frame w : conns_ok w → conns_ok (tables_others w) ∧ sd_dv (tables_others w) = sd_dv w.
Proof.
  intros Hw. unfold tables_others. destruct (renv_others (sd_env w)) as [ops e].
  match goal with |- context [tables_run ?w1 ops] => exact (tables_run_frame ops w1 Hw) end.
Qed.

Lemma dm_frame {A} (m : DvWorld → result A * DvWorld) w :
  conns_ok w → (dm m w).1 = (m (sd_dv w)).1 ∧ sd_dv (dm m w).2 = (m (sd_dv w)).2 ∧ conns_ok (dm m w).2.
Proof.
  intros Hw. unfold dm, run_dv. destruct (m (sd_dv w)) as [r v]. cbn [fst snd]. split; [done|].
  unfold close_new. match goal with |- context [tables_run ?w1 ?l] =>
    destruct (tables_run_frame l w1) as [H1 H2]; [exact Hw|]; destruct (tables_others_frame (tables_run w1 l) H1) as [H3 H4] end.
  split; [by rewrite H4, H2|done].
Qed.
Lemma on_core_frame {A} p (m : ME CWorld A) w :
  conns_ok w → keeps (in_order (Some (fd_deviceID (device_at p (dv_cache (sd_dv w)))))) m →
  sd_dv (on_core p m w).2 = sd_dv w ∧ conns_ok (on_core p m w).2.
Proof.
  intros Hw Hm. unfold on_core. destruct (run_core_frame p m w Hw Hm) as [H1 H2].
  destruct (run_core p m w) as [r w1]. destruct (tables_others_frame w1 H1) as [H3 H4].
  split; [exact (eq_trans H4 H2)|done].
Qed.
Lemma keeps_on_core {A} p (m : ME CWorld A) :
  (∀ o, keeps (in_order o) m) → keeps SdkInv (on_core p m).
Proof. intros Hm w [HC Hw]. destruct (on_core_frame p m w Hw (Hm _)) as [E Hc]. split; [by rewrite E|done]. Qed.
Lemma keeps_dm {A} (m : DvWorld → result A * DvWorld) :
  (∀ v, CacheInv (dv_cache v) → CacheInv (dv_cache (m v).2)) → keeps SdkInv (dm m).
Proof.
  intros Hm w [HC Hw]. destruct (dm_frame m w Hw) as (_&E&Hc). split; [|exact Hc]. rewrite E. by apply Hm.
Qed.
Lemma keeps_get_device id :
  keeps SdkInv (dm (Client_GetDevice deviceExpiration disableUDPEndpoints fuel id)).
Proof. apply keeps_dm. intros v. eapply dvadds_CacheInv, dvadds_Client_GetDevice. Qed.
Lemma keeps_found p : keeps SdkInv (found p).
Proof. apply keeps_gets. Qed.
Lemma keeps_deleteNotFound p : keeps SdkInv (deleteDeviceNotFoundByIP p).
Proof.
  unfold deleteDeviceNotFoundByIP. apply keeps_dm. intros v HC. cbn.
  eapply CacheInv_shrinks; [apply shrinks_deleteNotFoundByIP|exact HC].
Qed.
#[local] Hint Resolve keeps_get_device keeps_found keeps_deleteNotFound : keeps.
Lemma keeps_deferred {A} (after : SM unit) (m : SM A) :
  keeps SdkInv after → keeps SdkInv m → keeps SdkInv (deferred after m).
Proof. intros Ha Hm. unfold deferred. keeps_tac. Qed.
Lemma keeps_removeTemporary p : keeps SdkInv (removeTemporaryDeviceFromCache p).
Proof. unfold removeTemporaryDeviceFromCache. keeps_tac. Qed.
Lemma keeps_link id href cb :
  keeps SdkInv (GetDeviceLinkForHref deviceExpiration disableUDPEndpoints fuel id href cb).
Proof. unfold GetDeviceLinkForHref. keeps_tac. Qed.
#[local] Hint Resolve keeps_removeTemporary keeps_link : keeps.

(** The commands of the client, with everything the application can pass to them. *)
Inductive SdkCall :=
  | CallGet {A} (deviceID href : string) (codec : Codec A) (response : Target A) (opts : list OptionFunc)
      (cb : LinkNotFoundCallback)
  | CallUpdate {A B} (deviceID href : string) (codecQ : Codec A) (codec : Codec B) (request : A)
      (response : Target B) (opts : list OptionFunc) (cb : LinkNotFoundCallback)
  | CallCreate {A B} (deviceID href : string) (codecQ : Codec A) (codec : Codec B) (request : A)
      (response : Target B) (opts : list OptionFunc) (cb : LinkNotFoundCallback)
  | CallDelete {A} (deviceID href : string) (codec : Codec A) (codecD : Codec (DetailedResponse A))
      (response : Target A) (opts : list OptionFunc) (cb : LinkNotFoundCallback)
  | CallFactoryReset (deviceID : string) (opts : list OptionFunc)
  | CallReboot (deviceID : string) (opts : list OptionFunc)
  | CallDisown (ownerID : result string) (deviceID : string) (opts : list OptionFunc)
  | CallOnboard (deviceID authorizationProvider cloudURL authCode cloudID : string)
  | CallOffboard (deviceID : string)
  | CallDv (c : ClientCall).                    (** the other calls, of ClientDevices *)
Definition sdk_exec (w : SdkWorld) (c : SdkCall) : SdkWorld :=
  match c with
  | CallGet id href codec v opts cb =>
      (GetResource status_Error deviceExpiration disableUDPEndpoints useDeviceIDInQuery fuel
         id href codec v opts cb w).2
  | CallUpdate id href cq codec q v opts cb =>
      (UpdateResource status_Error deviceExpiration disableUDPEndpoints useDeviceIDInQuery fuel
         id href cq codec q v opts cb w).2
  | CallCreate id href cq codec q v opts cb =>
      (CreateResource status_Error deviceExpiration disableUDPEndpoints useDeviceIDInQuery fuel
         id href cq codec q v opts cb w).2
  | CallDelete id href codec cd v opts cb =>
      (DeleteResource status_Error deviceExpiration disableUDPEndpoints useDeviceIDInQuery fuel
         id href codec cd v opts cb w).2
  | CallFactoryReset id opts =>
      (Client_FactoryReset status_Error deviceExpiration disableUDPEndpoints useDeviceIDInQuery fuel ctxErr
         id opts w).2
  | CallReboot id opts =>
      (Client_Reboot status_Error deviceExpiration disableUDPEndpoints useDeviceIDInQuery fuel id opts w).2
  | CallDisown ownerID id opts =>
      (DisownDevice status_Error deviceExpiration disableUDPEndpoints useDeviceIDInQuery fuel ctxErr
         ownerID id opts w).2
  | CallOnboard id provider url code cloudID =>
      (OnboardDevice deviceExpiration disableUDPEndpoints fuel id provider url code cloudID w).2
  | CallOffboard id => (OffboardDevice deviceExpiration disableUDPEndpoints fuel id w).2
  | CallDv c => (dm (fun v => (Ok tt, client_exec deviceExpiration disableUDPEndpoints v c)) w).2
  end.

Lemma SdkInv_exec w c : SdkInv w → SdkInv (sdk_exec w c).
Proof.
  destruct c; cbn [sdk_exec].
  all: match goal with |- _ → SdkInv (?m _).2 => enough (keeps SdkInv m) as H by (apply H) end.
  - unfold GetResource. apply keeps_bind; [auto with keeps|intros]. apply keeps_on_core; intros; apply orderly_GetC.
  - unfold UpdateResource. apply keeps_bind; [auto with keeps|intros]. apply keeps_on_core; intros; apply orderly_UpdateC.
  - unfold CreateResource. apply keeps_bind; [auto with keeps|intros]. apply keeps_on_core; intros; apply orderly_UpdateC.
  - unfold DeleteResource. apply keeps_bind; [auto with keeps|intros]. apply keeps_on_core; intros; apply orderly_DeleteC.
  - unfold Client_FactoryReset. apply keeps_bind; [auto with keeps|intros].
    apply keeps_deferred; [auto with keeps|]. apply keeps_on_core; intros; apply orderly_FactoryReset.
  - unfold Client_Reboot. apply keeps_bind; [auto with keeps|intros].
    apply keeps_deferred; [auto with keeps|]. apply keeps_on_core; intros; apply orderly_Reboot.
  - unfold DisownDevice. apply keeps_bind; [auto with keeps|intros].
    apply keeps_deferred; [auto with keeps|]. apply keeps_bind; [auto with keeps|intros f].
    destruct (negb (IsSecured f)); apply keeps_on_core; intros;
      [apply orderly_FactoryReset|apply orderly_Disown].
  - unfold OnboardDevice. apply keeps_bind; [auto with keeps|intros [p links]].
    apply keeps_bind; [auto with keeps|intros f]. destruct (IsSecured f); apply keeps_on_core; intros;
      [apply orderly_onboard|apply orderly_setCloudResource].
  - unfold OffboardDevice. apply keeps_bind; [auto with keeps|intros].
    apply keeps_on_core; intros; apply orderly_setCloudResource.
  - apply keeps_dm. intros v. apply client_exec_CacheInv.
Qed.

(** C17 The state of the SDK under all its commands but the transfer of ownership: whatever the
    network answers and whatever the application passes, the cache is keyed by the IDs of its
    devices, and the table of connections of every device has one slot per address, each with
    a live entry and without a recorded error.  Other goroutines may use the cache while
    [GetDevice] waits for an answer, and the tables between the calls of a command: they
    connect to any endpoints of any device, as [GetDevice] does to read the links, run the
    handlers of closed connections, and close devices; and a call closes the connections of
    the devices that it closes. *)
Theorem sdk_commands_invariant calls v e t p d :
  dv_cache v = NewDeviceCache →
  let w := foldl sdk_exec {| sd_dv := v; sd_core := ∅; sd_env := e; sd_trace := t |} calls in
  CacheInv (dv_cache (sd_dv w)) ∧ (sd_core w !! p = Some d → slots_ok d).
Proof.
  intros Hv w. enough (SdkInv w) as [HC Hw] by (split; [exact HC|apply Hw]).
  assert (Hi : SdkInv {| sd_dv := v; sd_core := ∅; sd_env := e; sd_trace := t |}).
  { split; [cbn; rewrite Hv; apply CacheInv_New|]. intros q d'. cbn. by rewrite lookup_empty. }
  subst w. revert Hi. generalize {| sd_dv := v; sd_core := ∅; sd_env := e; sd_trace := t |}.
  induction calls as [|c calls IH]; intros w Hw; [exact Hw|]. cbn [foldl]. by apply IH, SdkInv_exec.
Qed.
End Sdk.

(** ** What the commands do, when no other goroutine uses the connections *)

Class QuietTables `{RequestEnv} := quiet_tables : ∀ e, renv_others e = ([], e).

Section Quiet.
Context `{HKit : Kit} `{HCache : GoCache} `{HDE : !DevicesEnv} `{HCore : CoreEnv} `{HReq : !RequestEnv}.
Context `{HTables : !QuietTables}.

Lemma tables_others_quiet w : tables_others w = w.
Proof. unfold tables_others. rewrite (HTables (sd_env w)). by destruct w. Qed.
Lemma on_core_quiet {A} p (m : ME CWorld A) w : on_core p m w = run_core p m w.
Proof. unfold on_core. destruct (run_core p m w) as [r w']. by rewrite tables_others_quiet. Qed.
Lemma on_core_spec {A} p (m : ME CWorld A) w :
  conns_ok w → keeps (in_order (Some (fd_deviceID (device_at p (dv_cache (sd_dv w)))))) m →
  let c := m {| cw_d := core_at p w; cw_env := sd_env w; cw_trace := sd_trace w |} in
  on_core p m w = (c.1, {| sd_dv := sd_dv w; sd_core := <[p := cw_d c.2]> (sd_core w);
                           sd_env := cw_env c.2; sd_trace := cw_trace c.2 |}) ∧
  slots_ok (cw_d c.2).
Proof. rewrite on_core_quiet. apply run_core_spec. Qed.
End Quiet.

Section Results.
Context `{HKit : Kit} `{HCache : GoCache} `{HLaws : !GoCacheLaws} `{HDE : !DevicesEnv} `{HQuiet : !QuietCache}.
Context `{HCore : CoreEnv} `{HReq : !RequestEnv} `{HTables : !QuietTables}.
Context `{HCred : CredEnv} `{HPem : !PemOut} `{HUuid : Uuids}.
Context `{HCborQ : Cbor MaintenanceUpdateRequest} `{HCborM : Cbor Maintenance}
  `{HIntoQ : !CborInto MaintenanceUpdateRequest} `{HIntoM : !CborInto Maintenance}.
Context (status_Error : Message → error → error).
Context (deviceExpiration : Z) (disableUDPEndpoints useDeviceIDInQuery : bool).
Context (fuel : nat) (ctxErr : bool).
Abbreviation SM := (ME SdkWorld).
Abbreviation get_device id := (dm (Client_GetDevice deviceExpiration disableUDPEndpoints fuel id)).

(** The device that a command works on. *)
Lemma get_device_Ok id p links w w1 :
  id ≠ ANY_DEVICE → id ≠ "" → SdkInv w → get_device id w = (Ok (p, links), w1) →
  SdkInv w1 ∧ fd_deviceID (device_at p (dv_cache (sd_dv w1))) = id ∧ links_of id links ∧
  ∃ v, entries (w_cache (dv_cache (sd_dv w1))) !! id = Some ((p, v) : Element).
Proof.
  intros Hany Hne HI E. pose proof (keeps_get_device deviceExpiration disableUDPEndpoints fuel id w HI) as HI1.
  pose proof (at_Client_GetDevice deviceExpiration disableUDPEndpoints fuel id _ Hany Hne (proj1 HI) (sd_dv w) eq_refl) as Hf.
  destruct (dm_frame (Client_GetDevice deviceExpiration disableUDPEndpoints fuel id) w (proj2 HI)) as (H1&H2&_).
  rewrite E in H1, H2, HI1. cbn [fst snd] in *.
  destruct (Client_GetDevice _ _ _ _ (sd_dv w)) as [r v]. cbn [fst snd] in *. subst r v.
  destruct Hf as (Hid&Hl&He). by split_and!.
Qed.
Lemma GetResourceLink_Ok links href link :
  Ownership.GetResourceLink links href = Ok link → link ∈ links ∧ Href link = href.
Proof.
  unfold Ownership.GetResourceLink. destruct (Schema.GetResourceLink links href) as [l|] eqn:E; [|done].
  intros [= ->]. revert E. induction links as [|l links IH]; cbn; [done|].
  case_bool_decide; [intros [= ->]; split; [by left|done]|]. intros H1. destruct (IH H1) as [? ?].
  split; [by right|done].
Qed.
Lemma GetDeviceLinkForHref_Ok id href p link w w1 :
  id ≠ ANY_DEVICE → id ≠ "" → SdkInv w →
  GetDeviceLinkForHref deviceExpiration disableUDPEndpoints fuel id href None w = (Ok (p, link), w1) →
  SdkInv w1 ∧ fd_deviceID (device_at p (dv_cache (sd_dv w1))) = id ∧ GetDeviceID link = id ∧ Href link = href.
Proof.
  intros Hany Hne HI E. unfold GetDeviceLinkForHref in E. apply run_bind_Ok in E as ([q links]&w2&E1&E2).
  destruct (get_device_Ok id q links w w2 Hany Hne HI E1) as (HI2&Hid&[_ Hl]&_).
  destruct (Ownership.GetResourceLink links href) as [l|] eqn:El; [|done]. injection E2 as -> -> ->.
  destruct (GetResourceLink_Ok _ _ _ El) as [Hin Hh]. rewrite Forall_forall in Hl. by split_and!; auto.
Qed.

Lemma on_core_Ok {A} p (m : ME CWorld A) w w' r :
  SdkInv w → (∀ o, keeps (in_order o) m) → on_core p m w = (r, w') →
  ∃ c, m {| cw_d := core_at p w; cw_env := sd_env w; cw_trace := sd_trace w |} = (r, c) ∧
    slots_ok (core_at p w) ∧ sd_dv w' = sd_dv w ∧ sd_core w' = <[p := cw_d c]> (sd_core w) ∧
    sd_trace w' = cw_trace c.
Proof.
  intros [_ Hw] Hm E. destruct (on_core_spec p m w Hw (Hm _)) as [E' _]. rewrite E' in E. injection E as <- <-.
  eexists. split; [apply surjective_pairing|]. split; [by apply core_at_ok|done].
Qed.

(** The options of every request: those of the call, the ID of the device if the client is
    configured so, and the format that the codec accepts. *)
Abbreviation options_of id opts codec :=
  (with_device_id useDeviceIDInQuery id opts ++ [WithAccept (codec_ContentFormat codec)]).
Lemma options_of_spec {A} id opts (codec : Codec A) :
  let m := apply_options (options_of id opts codec) in
  m_accept m = Some (codec_ContentFormat codec) ∧
  (useDeviceIDInQuery = true → ("di=" +:+ id) ∈ default [] (m_queries m)).
Proof.
  unfold apply_options, with_device_id. rewrite foldl_app. split; [done|]. intros ->. rewrite foldl_app. cbn.
  apply elem_of_app. right. by left.
Qed.

(** A command that finds its resource and sends one request. *)
Lemma command_spec {A} id href (wrap : ResourceLink → error → error) (response : Target A)
    (run : ResourceLink → nat → CEnv → result unit * Target A * CEnv) w r v w' :
  id ≠ ANY_DEVICE → id ≠ "" → SdkInv w →
  (∀ link o, keeps (in_order o) (r ← catch (connectToEndpoints (Schema.GetEndpoints link));
     match r with Err err => mret (Err (wrap link err), response) | Ok (_, cc) => on_conn (run link cc) end)) →
  (dl ← GetDeviceLinkForHref deviceExpiration disableUDPEndpoints fuel id href None;
   on_core dl.1 (r ← catch (connectToEndpoints (Schema.GetEndpoints dl.2));
     match r with Err err => mret (Err (wrap dl.2 err), response) | Ok (_, cc) => on_conn (run dl.2 cc) end))
    w = (Ok (r, v), w') →
  ∃ p link, fd_deviceID (device_at p (dv_cache (sd_dv w'))) = id ∧ GetDeviceID link = id ∧ Href link = href ∧
    ((∃ err, r = Err (wrap link err) ∧ v = response) ∨
     ∃ d, sd_core w' !! p = Some d ∧ asked link d (run link) r v).
Proof.
  intros Hany Hne HI Hm E. apply run_bind_Ok in E as ([p link]&w1&E1&E2). cbn [fst snd] in E2.
  destruct (GetDeviceLinkForHref_Ok _ _ _ _ _ _ Hany Hne HI E1) as (HI1&Hid&Hl&Hh).
  destruct (on_core_Ok p _ w1 w' _ HI1 (Hm link) E2) as (c&Ec&Hs&Hdv&Hcore&_).
  pose proof (request_spec link response (wrap link) (run link)
    {| cw_d := core_at p w1; cw_env := sd_env w1; cw_trace := sd_trace w1 |} Hs) as H. rewrite Ec in H.
  destruct H as (r'&v'&[= <- <-]&H). exists p, link. rewrite Hdv. split_and!; [done..|].
  destruct H as [H|H]; [by left|right]. exists (cw_d c). rewrite Hcore, lookup_insert_eq. by split.
Qed.

(** [GetResource] asks the right device for the right resource: the device has the ID of
    the call, the link is one of that device and has the address of the call, and the result
    and the value left in the response are those of a GET with the options of the call on a
    connection to an endpoint of the link, unless no endpoint could be connected, when the
    response is left alone. *)
Lemma GetResource_asks {A} id href (codec : Codec A) response opts w r v w' :
  id ≠ ANY_DEVICE → id ≠ "" → SdkInv w →
  GetResource status_Error deviceExpiration disableUDPEndpoints useDeviceIDInQuery fuel
    id href codec response opts None w = (Ok (r, v), w') →
  ∃ p link, fd_deviceID (device_at p (dv_cache (sd_dv w'))) = id ∧ GetDeviceID link = id ∧ Href link = href ∧
    ((∃ err, r = Err (ErrWrap ("cannot get resource " +:+ href) err) ∧ v = response) ∨
     ∃ d, sd_core w' !! p = Some d ∧
       asked link d (fun cc => ClientCoap.GetResourceWithCodec (HConn := conn_at cc) status_Error href codec response
                                 (options_of id opts codec)) r v).
Proof.
  intros Hany Hne HI E. apply (command_spec id href (fun link => ErrWrap ("cannot get resource " +:+ Href link))
    response (fun link cc => ClientCoap.GetResourceWithCodec (HConn := conn_at cc) status_Error (Href link) codec response
                (options_of id opts codec))) in E; [|done..|intros; apply orderly_GetC].
  destruct E as (p&link&Hid&Hl&<-&H). by exists p, link.
Qed.

(** [CreateResource] is an update with the create interface before the options of the call. *)
Lemma CreateResource_asks {A B} id href (codecQ : Codec A) (codec : Codec B) request response opts w r v w' :
  id ≠ ANY_DEVICE → id ≠ "" → SdkInv w →
  CreateResource status_Error deviceExpiration disableUDPEndpoints useDeviceIDInQuery fuel
    id href codecQ codec request response opts None w = (Ok (r, v), w') →
  ∃ p link, fd_deviceID (device_at p (dv_cache (sd_dv w'))) = id ∧ GetDeviceID link = id ∧ Href link = href ∧
    ((∃ err, r = Err (MakeInternal (ErrWrap ("cannot update resource " +:+ href) err)) ∧ v = response) ∨
     ∃ d, sd_core w' !! p = Some d ∧
       asked link d (fun cc => ClientCoap.UpdateResourceWithCodec (HConn := conn_at cc) status_Error href codecQ codec
                       request response (options_of id (WithInterface "oic.if.create" :: opts) codec)) r v).
Proof.
  intros Hany Hne HI E.
  apply (command_spec id href (fun link err => MakeInternal (ErrWrap ("cannot update resource " +:+ Href link) err))
    response (fun link cc => ClientCoap.UpdateResourceWithCodec (HConn := conn_at cc) status_Error (Href link) codecQ codec
       request response (options_of id (WithInterface "oic.if.create" :: opts) codec))) in E;
    [|done..|intros; apply orderly_UpdateC].
  destruct E as (p&link&Hid&Hl&<-&H). by exists p, link.
Qed.

(** ** Commands after which the device is forgotten *)

Lemma close_all_d conns errs d : keeps (fun w => cw_d w = d) (close_all conns errs).
Proof.
  assert (Hask : ∀ A (f : CEnv → result A * CEnv), keeps (fun w => cw_d w = d) (ask f))
    by (intros A f w Hw; by rewrite ask_d).
  revert errs. induction conns as [|[c|] conns IH]; intros errs; cbn [close_all]; [keeps_tac| |apply IH].
  unfold close_conn, emit, modify. keeps_tac; first [apply Hask|apply IH|by intros w Hw].
Qed.
Lemma closeConnections_conn (w : CWorld) : d_conn (cw_d (closeConnections w).2) = ∅.
Proof.
  assert (Hp : d_conn (cw_d (popConnections w).2) = ∅) by done.
  unfold closeConnections, mbind, ME_bind. destruct (popConnections w) as [[conns|e] w1]; [|exact Hp].
  cbn [snd] in Hp. pose proof (close_all_d conns None _ w1 eq_refl) as H.
  destruct (close_all conns None w1) as [[[err|]|e] w']; cbn in *; by rewrite H.
Qed.
Lemma LoadAndDeleteDevice_closed k c : w_closed (LoadAndDeleteDevice k c).2 = w_closed c.
Proof.
  unfold LoadAndDeleteDevice, LoadAndDeleteDevices. cbn [length Nat.eqb load_and_delete_each].
  unfold load_and_delete, with_cache. by destruct (cache_LoadAndDelete k (w_cache c)).
Qed.
Lemma deleteNotFound_run p w :
  conns_ok w →
  let w' := (deleteDeviceNotFoundByIP p w).2 in
  dv_cache (sd_dv w') = DeviceCache.deleteDeviceNotFoundByIP p (dv_cache (sd_dv w)) ∧
  ∃ d, sd_core w' !! p = Some d ∧ d_conn d = ∅.
Proof.
  intros Hw w'. subst w'. unfold deleteDeviceNotFoundByIP, dm, run_dv, cop.
  set (c' := DeviceCache.deleteDeviceNotFoundByIP p (dv_cache (sd_dv w))). cbn [fst snd].
  assert (Hcl : w_closed c' = p :: w_closed (dv_cache (sd_dv w))).
  { subst c'. unfold DeviceCache.deleteDeviceNotFoundByIP. cbn [close_device w_closed].
    case_bool_decide; [|done]. by rewrite LoadAndDeleteDevice_closed. }
  rewrite tables_others_quiet. unfold close_new. cbn [sd_dv dv_cache]. rewrite Hcl.
  replace (length (p :: w_closed (dv_cache (sd_dv w))) - length (w_closed (dv_cache (sd_dv w))))%nat with 1%nat
    by (cbn [length]; lia).
  rewrite firstn_cons, firstn_O. unfold tables_run. cbn [reverse rev_append map foldl fst snd table_exec].
  match goal with |- context [run_core p ?m ?w1] => destruct (run_core_spec p m w1 Hw (orderly_table TbClose _)) as [-> _] end.
  cbn [snd sd_dv sd_core dv_cache]. split; [done|]. eexists. split; [apply lookup_insert_eq|].
  unfold mbind, ME_bind, catch. cbv beta.
  match goal with |- context [closeConnections ?c] => pose proof (closeConnections_conn c) as Hc; destruct (closeConnections c) end.
  exact Hc.
Qed.
Lemma deleteNotFound_spec p w :
  SdkInv w → fd_foundByIP (device_at p (dv_cache (sd_dv w))) = "" →
  let id := fd_deviceID (device_at p (dv_cache (sd_dv w))) in
  let w' := (deleteDeviceNotFoundByIP p w).2 in
  entries (w_cache (dv_cache (sd_dv w'))) !! (id : string) = None ∧ p ∈ w_closed (dv_cache (sd_dv w')) ∧
  ∃ d, sd_core w' !! p = Some d ∧ d_conn d = ∅.
Proof.
  intros [_ Hw] Hip id w'. destruct (deleteNotFound_run p w Hw) as [E Hd]. subst w'. rewrite E.
  unfold DeviceCache.deleteDeviceNotFoundByIP. rewrite bool_decide_eq_true_2 by done.
  cbn [close_device w_cache w_closed]. fold id. destruct (LoadAndDeleteDevice_entries id (dv_cache (sd_dv w))) as (-> & _).
  split; [apply lookup_delete_eq|]. split; [by left|exact Hd].
Qed.
Lemma found_run p (w : SdkWorld) : found p w = (Ok (device_at p (dv_cache (sd_dv w))), w).
Proof. by destruct w. Qed.
Lemma deferred_remove_spec p (m : SM unit) w :
  SdkInv w → keeps SdkInv m → sd_dv (m w).2 = sd_dv w → fd_foundByIP (device_at p (dv_cache (sd_dv w))) = "" →
  let id := fd_deviceID (device_at p (dv_cache (sd_dv w))) in
  let w' := (deferred (removeTemporaryDeviceFromCache p) m w).2 in
  (deferred (removeTemporaryDeviceFromCache p) m w).1 = (m w).1 ∧
  entries (w_cache (dv_cache (sd_dv w'))) !! (id : string) = None ∧ p ∈ w_closed (dv_cache (sd_dv w')) ∧
  ∃ d, sd_core w' !! p = Some d ∧ d_conn d = ∅.
Proof.
  intros HI Hm Hdv Hip id w'. subst w'. unfold deferred, mbind, ME_bind, catch.
  specialize (Hm w HI). destruct (m w) as [r w1]. cbn [fst snd] in *. unfold removeTemporaryDeviceFromCache.
  unfold mbind, ME_bind. rewrite found_run, Hdv, Hip. rewrite bool_decide_eq_true_2 by done. cbn [negb].
  subst id. rewrite <-Hdv in Hip |- *. pose proof (deleteNotFound_spec p w1 Hm Hip) as H. cbv zeta in H.
  destruct (deleteDeviceNotFoundByIP p w1) as [r' w']. exact (conj eq_refl H).
Qed.

(** The commands that end the relation with a device. *)
Definition resets_device (c : SdkCall) : option string :=
  match c with
  | CallFactoryReset id _ | CallReboot id _ | CallDisown _ id _ => Some id
  | _ => None
  end.
(** A device that is reset, rebooted or disowned is forgotten: whether the request succeeds or
    fails, a device that was not found by an address is no longer in the cache under its ID,
    it is closed, and no connection to it is left in its table. *)
Theorem reset_forgets c id p links w w1 :
  resets_device c = Some id → id ≠ ANY_DEVICE → id ≠ "" → SdkInv w →
  get_device id w = (Ok (p, links), w1) → fd_foundByIP (device_at p (dv_cache (sd_dv w1))) = "" →
  let w' := sdk_exec status_Error deviceExpiration disableUDPEndpoints useDeviceIDInQuery fuel ctxErr w c in
  entries (w_cache (dv_cache (sd_dv w'))) !! id = None ∧ p ∈ w_closed (dv_cache (sd_dv w')) ∧
  ∃ d, sd_core w' !! p = Some d ∧ d_conn d = ∅.
Proof.
  intros Hc Hany Hne HI E Hip w'. destruct (get_device_Ok id p links w w1 Hany Hne HI E) as (HI1&Hid&_).
  assert (Hrun : ∀ (k : nat * ResourceLinks → SM unit), ((get_device id ≫= k) w).2 = (k (p, links) w1).2).
  { intros k. unfold mbind, ME_bind. by rewrite E. }
  assert (Hdef : ∀ m : SM unit, keeps SdkInv m → sd_dv (m w1).2 = sd_dv w1 →
    let w' := (deferred (removeTemporaryDeviceFromCache p) m w1).2 in
    entries (w_cache (dv_cache (sd_dv w'))) !! id = None ∧ p ∈ w_closed (dv_cache (sd_dv w')) ∧
    ∃ d, sd_core w' !! p = Some d ∧ d_conn d = ∅).
  { intros m Hm Hdv. destruct (deferred_remove_spec p m w1 HI1 Hm Hdv Hip) as (_&H). by rewrite Hid in H. }
  assert (Hcore : ∀ m : ME CWorld unit, (∀ o, keeps (in_order o) m) →
    keeps SdkInv (on_core p m) ∧ sd_dv (on_core p m w1).2 = sd_dv w1).
  { intros m Hm. split; [by apply keeps_on_core|].
    by destruct (on_core_spec p m w1 (proj2 HI1) (Hm _)) as [-> _]. }
  subst w'. destruct c; try done; injection Hc as ->; cbn [sdk_exec].
  - unfold Client_FactoryReset. rewrite Hrun. apply Hdef; apply Hcore; intros; apply orderly_FactoryReset.
  - unfold Client_Reboot. rewrite Hrun. apply Hdef; apply Hcore; intros; apply orderly_Reboot.
  - unfold DisownDevice. rewrite Hrun. apply Hdef.
    + apply keeps_bind; [apply keeps_found|intros f]. destruct (negb (IsSecured f)); apply keeps_on_core; intros;
        [apply orderly_FactoryReset|apply orderly_Disown].
    + cbn [fst snd]. unfold mbind, ME_bind. rewrite found_run. destruct (negb _); apply Hcore; intros; [apply orderly_FactoryReset|apply orderly_Disown].
Qed.
End Results.
