(* ===== verification/ClientOwnProps.v ===== *)
(** * ClientOwnProps: onboarding and taking ownership through the SDK

    The exchange of an onboarding, what taking ownership does to the cache of the client,
    and what a failed transfer of ownership leaves behind. *)

From S2P Require Export ClientCommandsProps.
From S2P Require Import OwnershipProps.

(** ** The exchange of an onboarding *)

Section Onboarding.
Context `{HKit : Kit} `{HCore : CoreEnv} `{HCred : CredEnv} `{HPem : !PemOut} `{HUuid : Uuids}.

(** The updates of a trace: address, body, and whether the device accepted it. *)
Definition Update : Type := string * Payload * bool.
Definition update_of (e : CEvent) : option Update :=
  match e with EvUpdate _ href p ok => Some (href, p, ok) | _ => None end.
Definition updates (l : list CEvent) : list Update := omap update_of l.

Lemma updates_app l1 l2 : updates (l1 ++ l2) = updates l1 ++ updates l2.
Proof. apply omap_app. Qed.
Lemma updates_reading l : Forall is_reading l → updates l = [].
Proof. induction 1 as [|[] l ? _ IH]; done. Qed.

(** [m] sends the updates that [P] allows for its result. *)
Definition sends {A} (P : result A → list Update → Prop) (m : ME CWorld A) : Prop :=
  OwnershipProps.adds (fun r l => P r (updates l)) m.
Lemma sends_bind {A B} (P : result A → list Update → Prop) (R : result B → list Update → Prop) m
    (k : A → ME CWorld B) (Q : A → result B → list Update → Prop) :
  sends P m → (∀ a, sends (Q a) (k a)) → (∀ e l, P (Err e) l → R (Err e) l) →
  (∀ a l1 r l2, P (Ok a) l1 → Q a r l2 → R r (l1 ++ l2)) → sends R (m ≫= k).
Proof.
  intros Hm Hk HE HO. unfold sends in *. eapply OwnershipProps.adds_bind; [exact Hm|exact Hk|auto|].
  intros a l1 r l2 H1 H2. cbn in *. rewrite updates_app. exact (HO a _ r _ H1 H2).
Qed.

Lemma sends_conseq {A} (P Q : result A → list Update → Prop) m :
  sends P m → (∀ r u, P r u → Q r u) → sends Q m.
Proof. intros Hm HPQ. eapply OwnershipProps.adds_conseq; [exact Hm|]. auto. Qed.
Lemma sends_catch {A} (P : result (result A) → list Update → Prop) (m : ME CWorld A) :
  sends (fun r => P (Ok r)) m → sends P (catch m).
Proof. apply (OwnershipProps.adds_catch (fun r l => P r (updates l))). Qed.
Lemma sends_wrap {A} (P : result A → list Update → Prop) f (m : ME CWorld A) :
  sends (fun r => P (match r with Ok a => Ok a | Err e => Err (f e) end)) m → sends P (wrap_err f m).
Proof. apply (OwnershipProps.adds_wrap (fun r l => P r (updates l))). Qed.
Lemma sends_lift {A} (P : result A → list Update → Prop) r : P r [] → sends P (lift r).
Proof. apply (OwnershipProps.adds_lift (fun r l => P r (updates l))). Qed.
Lemma sends_fail {A} (P : result A → list Update → Prop) e : P (Err e) [] → sends P (fail e).
Proof. apply (OwnershipProps.adds_fail (fun r l => P r (updates l))). Qed.

(** An update over one of the endpoints of a link: nothing is sent when none can be connected. *)
Lemma UpdateResource_sends link p :
  sends (fun r u => u = [(Href link, p, is_ok r)] ∨ (u = [] ∧ is_ok r = false)) (CoreDevice.UpdateResource link p).
Proof.
  unfold CoreDevice.UpdateResource.
  apply sends_bind with (P := fun r u => u = []) (Q := fun a r u =>
    match a with Ok _ => u = [(Href link, p, is_ok r)] | Err _ => u = [] ∧ is_ok r = false end).
  - apply sends_catch. eapply OwnershipProps.adds_conseq; [apply only_connectToEndpoints|].
    intros r l. apply updates_reading.
  - intros [[a cc]|err]; [|by apply sends_fail].
    eapply OwnershipProps.adds_conseq; [apply update_adds|]. by intros r l ->.
  - intros e l ->; by right.
  - intros [[a cc]|err] l1 r l2 ->; cbn; [intros ->; by left|intros [-> ->]; by right].
Qed.
Lemma update_secure_sends links href msg p :
  sends (fun r u => u = [(href, p, is_ok r)] ∨ (u = [] ∧ is_ok r = false)) (update_secure links href msg p).
Proof.
  unfold update_secure. apply sends_bind with (P := fun r u => u = [] ∧ ∀ link, r = Ok link → Href link = href)
    (Q := fun link r u => Href link = href → u = [(href, p, is_ok r)] ∨ (u = [] ∧ is_ok r = false)).
  - apply sends_wrap, sends_lift. split; [done|]. intros link.
    destruct (GetResourceLink links href) as [l|] eqn:E; [|done]. intros [= <-].
    by eapply GetResourceLink_Ok.
  - intros link. apply sends_wrap.
    eapply sends_conseq; [apply UpdateResource_sends|]. cbn. intros r l H <-.
    by destruct r.
  - intros e l [-> _]. by right.
  - intros link l1 r l2 [-> Hl] H. cbn. apply H. by apply Hl.
Qed.

(** The link of the cloud resource that [SetCloudResource] takes. *)
Definition cloud_href (links : ResourceLinks) : string :=
  Href (default zero_link
    (List.find (fun l => existsb (fun t => bool_decide (t = cloud_ResourceType)) (ResourceTypes l)) links)).
Definition complete (ob : CloudState.ConfigurationUpdateRequest) : Prop :=
  CloudState.upd_AuthorizationProvider ob ≠ "" ∧ CloudState.upd_AuthorizationCode ob ≠ "" ∧
  CloudState.upd_URL ob ≠ "".
Definition set_state (state : Z) (ok : bool) : Update := (pstat_ResourceURI, PPstat (pstat_state state), ok).
Definition set_cloud_acl (cloudID : string) (links : ResourceLinks) (ok : bool) : Update :=
  (acl_ResourceURI, PAcl (cloud_acl cloudID links), ok).

(** The updates between the two changes of the state. *)
Definition onboard_body (links : ResourceLinks) (cloudID : string)
    (ob : CloudState.ConfigurationUpdateRequest) (r : result unit) (u : list Update) : Prop :=
  if is_ok r
  then complete ob ∧ u = [set_cloud_acl cloudID links true; (cloud_href links, PCloud ob, true)]
  else u = [] ∨ u = [set_cloud_acl cloudID links false] ∨ u = [set_cloud_acl cloudID links true] ∨
       u = [set_cloud_acl cloudID links true; (cloud_href links, PCloud ob, false)].
(** The device can be connected over the link for the changes of its state. *)
Definition state_endpoints (link : ResourceLink) : Endpoints :=
  Schema.GetEndpoints (set_Endpoints (GetSecureEndpoints link) link).
Definition reachable (links : ResourceLinks) (c : CWorld) : Prop :=
  ∃ link, Ownership.GetResourceLink links pstat_ResourceURI = Ok link ∧
    is_ok (connectToEndpoints (state_endpoints link) c).1 = true.
(** All updates from the state [c] to [c']: without the first change nothing else is sent; with
    it, the last change is sent when the steps have ended, in the state [c2], whatever their
    result is, unless the device cannot be connected any more. *)
Definition onboard_exchange (links : ResourceLinks) (cloudID : string)
    (ob : CloudState.ConfigurationUpdateRequest) (r : result unit) (c c' : CWorld) : Prop :=
  (∃ l, cw_trace c' = cw_trace c ++ l ∧ is_ok r = false ∧
     (updates l = [] ∨ updates l = [set_state OperationalState_RFPRO false])) ∨
  ∃ l1 l2 c1 c2 mid, provisioning_start links c = (Ok tt, c1) ∧
    (setACLForCloud cloudID links;; SetCloudResource links ob) c1 = (r, c2) ∧
    cw_trace c2 = cw_trace c ++ l1 ∧ cw_trace c' = cw_trace c2 ++ l2 ∧
    updates l1 = set_state OperationalState_RFPRO true :: mid ∧ onboard_body links cloudID ob r mid ∧
    ((∃ ok, updates l2 = [set_state OperationalState_RFNOP ok]) ∨ (updates l2 = [] ∧ ¬ reachable links c2)).

Lemma setACLForCloud_sends cloudID links :
  sends (fun r u => u = [set_cloud_acl cloudID links (is_ok r)] ∨ (u = [] ∧ is_ok r = false))
    (setACLForCloud cloudID links).
Proof.
  unfold setACLForCloud. apply sends_bind with
    (P := fun r u => u = [] ∧ ∀ link, r = Ok link → Href link = acl_ResourceURI)
    (Q := fun link r u => u = [(Href link, PAcl (cloud_acl cloudID links), is_ok r)] ∨ (u = [] ∧ is_ok r = false)).
  - apply sends_lift. split; [done|]. intros link. apply GetResourceLink_Ok.
  - intros link. apply UpdateResource_sends.
  - intros e l [-> _]. by right.
  - intros link l1 r l2 [-> Hl] H. cbn. by rewrite (Hl link eq_refl) in H.
Qed.
Lemma SetCloudResource_sends links ob :
  sends (fun r u => (complete ob ∧ u = [(cloud_href links, PCloud ob, is_ok r)]) ∨ (u = [] ∧ is_ok r = false))
    (SetCloudResource links ob).
Proof.
  unfold SetCloudResource. do 4 (case_bool_decide; [by apply sends_fail; right|]).
  apply sends_wrap. eapply sends_conseq; [apply UpdateResource_sends|].
  intros r u [->|[-> Hr]]; [left|right; by destruct r]. split; [done|]. by destruct r.
Qed.
Lemma onboard_body_sends links cloudID ob :
  sends (onboard_body links cloudID ob) (setACLForCloud cloudID links;; SetCloudResource links ob).
Proof.
  eapply sends_bind; [apply setACLForCloud_sends|intros a; apply SetCloudResource_sends| |].
  - intros e l [->|[-> _]]; cbn; auto.
  - intros [] l1 r l2 [->|[_ [=]]] [[Hc ->]|[-> Hr]]; unfold onboard_body; [destruct r; cbn; auto|].
    rewrite Hr. cbn. auto.
Qed.
Lemma sends_run {A} (P : result A → list Update → Prop) m c :
  sends P m → ∃ l, cw_trace (m c).2 = cw_trace c ++ l ∧ P (m c).1 (updates l).
Proof. intros H. exact (H c). Qed.
(** An update is sent when the device can be connected. *)
Lemma UpdateResource_reached link p c :
  is_ok (connectToEndpoints (Schema.GetEndpoints link) c).1 = true →
  ∃ l ok, cw_trace (CoreDevice.UpdateResource link p c).2 = cw_trace c ++ l ∧ updates l = [(Href link, p, ok)].
Proof.
  intros Hc. unfold CoreDevice.UpdateResource, catch, mbind, ME_bind.
  destruct (only_connectToEndpoints (Schema.GetEndpoints link) c) as (l0&Hl0&Hr0).
  destruct (connectToEndpoints _ c) as [[[a cc]|e] c1]; [|done]. cbn [fst snd] in *.
  destruct (update_adds cc (Href link) p c1) as (l1&Hl1&->).
  exists (l0 ++ [EvUpdate cc (Href link) p (is_ok (update cc (Href link) p c1).1)]), (is_ok (update cc (Href link) p c1).1).
  rewrite Hl1, Hl0, app_assoc. split; [done|]. by rewrite updates_app, (updates_reading _ Hr0).
Qed.
Lemma wrap_err_run {A} f (m : ME CWorld A) c : (wrap_err f m c).2 = (m c).2.
Proof. unfold wrap_err. by destruct (m c) as [[|]]. Qed.
Lemma GetResourceLink_href links href link : Ownership.GetResourceLink links href = Ok link → Href link = href.
Proof. apply GetResourceLink_Ok. Qed.

(** The last change: sent, or the device cannot be connected. *)
Lemma provisioning_Close_run links c :
  ∃ l, cw_trace (provisioning_Close links c).2 = cw_trace c ++ l ∧
    ((∃ ok, updates l = [set_state OperationalState_RFNOP ok]) ∨ (updates l = [] ∧ ¬ reachable links c)).
Proof.
  set (ps := PPstat (pstat_state OperationalState_RFNOP)).
  destruct (sends_run _ _ c (update_secure_sends links pstat_ResourceURI
    "could not finalize provisioning the device" ps)) as (l&Hl&Hu).
  assert (Hsent : reachable links c → ∃ l ok, cw_trace (provisioning_Close links c).2 = cw_trace c ++ l ∧
    updates l = [set_state OperationalState_RFNOP ok]).
  { intros (link&El&Hc). unfold provisioning_Close, update_secure, mbind, ME_bind. rewrite El. cbn [lift wrap_err].
    rewrite wrap_err_run. destruct (UpdateResource_reached (set_Endpoints (GetSecureEndpoints link) link) ps c Hc) as (l'&ok&H1&H2).
    exists l', ok. split; [exact H1|]. rewrite H2. unfold set_state. by rewrite <- (GetResourceLink_href _ _ _ El). }
  exists l. split; [exact Hl|]. destruct Hu as [Hu|[Hu _]]; [left; by eexists|].
  right. split; [done|]. intros (l'&ok&H1&H2)%Hsent. unfold provisioning_Close in H1. fold ps in H1. rewrite Hl in H1.
  apply app_inv_head in H1 as ->. congruence.
Qed.
Lemma onboard_secured_run links cloudID ob c :
  onboard_secured links cloudID ob c =
    match provisioning_start links c with
    | (Err e, c1) => (Err e, c1)
    | (Ok _, c1) => let (r, c2) := (setACLForCloud cloudID links;; SetCloudResource links ob) c1 in
                    (r, (provisioning_Close links c2).2)
    end.
Proof.
  unfold onboard_secured. unfold mbind at 1, ME_bind at 1. destruct (provisioning_start links c) as [[[]|e] c1]; [|done].
  unfold mbind at 1, ME_bind at 1. unfold catch at 1.
  destruct ((setACLForCloud cloudID links;; SetCloudResource links ob) c1) as [r c2].
  unfold mbind, ME_bind, catch. by destruct (provisioning_Close links c2).
Qed.
Lemma onboard_sends links cloudID ob c :
  onboard_exchange links cloudID ob (onboard_secured links cloudID ob c).1 c (onboard_secured links cloudID ob c).2.
Proof.
  rewrite onboard_secured_run.
  destruct (sends_run _ _ c (update_secure_sends links pstat_ResourceURI "could not start provisioning the device"
    (PPstat (pstat_state OperationalState_RFPRO)))) as (l1&Hl1&Hu1). fold (provisioning_start links) in Hl1, Hu1.
  destruct (provisioning_start links c) as [[[]|e] c1] eqn:E1; cbn [fst snd is_ok] in *.
  2:{ left. exists l1. split; [done|]. split; [done|]. destruct Hu1 as [->|[-> _]]; auto. }
  destruct Hu1 as [Hu1|[_ [=]]]. right.
  destruct (sends_run _ _ c1 (onboard_body_sends links cloudID ob)) as (l2&Hl2&Hb).
  destruct ((setACLForCloud cloudID links;; SetCloudResource links ob) c1) as [r c2] eqn:E2. cbn [fst snd] in *.
  destruct (provisioning_Close_run links c2) as (l3&Hl3&Hc).
  exists (l1 ++ l2), l3, c1, c2, (updates l2). split_and!; try done.
  - by rewrite Hl2, Hl1, app_assoc.
  - by rewrite updates_app, Hu1.
Qed.
End Onboarding.

(** ** What sends no update *)

Section Harmless.
Context `{HKit : Kit} `{HCache : GoCache} `{HDE : !DevicesEnv} `{HCore : CoreEnv} `{HReq : !RequestEnv}.
Context `{HCred : CredEnv} `{HPem : !PemOut} `{HUuid : Uuids}.
Abbreviation SM := (ME SdkWorld).

(** The events of connecting, reading and closing. *)
Definition is_link (e : CEvent) : bool :=
  match e with EvDial _ _ _ | EvGet _ _ | EvClose _ => true | _ => false end.
Lemma updates_link l : Forall is_link l → updates l = [].
Proof. induction 1 as [|[] l ? _ IH]; done. Qed.
Lemma only_link {A} (m : ME CWorld A) : only is_reading m → only is_link m.
Proof.
  intros Hm. eapply adds_conseq; [exact Hm|]. intros r l H. eapply Forall_impl; [exact H|]. by intros [].
Qed.
Lemma link_close_all conns errs : only is_link (close_all conns errs).
Proof.
  revert errs. induction conns as [|[c|] conns IH]; intros errs; cbn [close_all]; [apply only_ret| |apply IH].
  apply only_bind; [|intros r; apply IH]. apply only_catch. eapply adds_conseq; [apply close_adds|].
  intros r l ->. by constructor.
Qed.
Lemma link_closeConnections : only is_link closeConnections.
Proof.
  unfold closeConnections. apply only_bind; [|intros conns].
  - unfold popConnections. apply only_bind; [apply only_gets|intros d]. apply only_bind; [apply only_upd|intros []].
    apply only_ret.
  - apply only_bind; [apply link_close_all|intros [e|]]; [apply only_fail|apply only_ret].
Qed.
Lemma link_table op : only is_link (table_exec op).
Proof.
  destruct op; cbn [table_exec].
  - apply only_bind; [apply only_catch, only_link, only_connectToEndpoints|intros r; apply only_ret].
  - apply only_upd.
  - apply only_bind; [apply only_catch, link_closeConnections|intros r; apply only_ret].
Qed.

(** A change of the world, and a call, that updates nothing on any device. *)
Definition no_update (w w' : SdkWorld) : Prop := ∃ l, sd_trace w' = sd_trace w ++ l ∧ updates l = [].
Definition harmless {A} (m : SM A) : Prop := ∀ w, no_update w (m w).2.
Lemma no_update_refl w w' : sd_trace w' = sd_trace w → no_update w w'.
Proof. exists []. by rewrite app_nil_r. Qed.
Lemma no_update_trans w1 w2 w3 : no_update w1 w2 → no_update w2 w3 → no_update w1 w3.
Proof.
  intros (l1&E1&U1) (l2&E2&U2). exists (l1 ++ l2). by rewrite E2, E1, app_assoc, updates_app, U1, U2.
Qed.
Lemma harmless_run_core {A} p (m : ME CWorld A) : only is_link m → harmless (run_core p m).
Proof.
  intros Hm w. unfold run_core.
  destruct (Hm {| cw_d := core_at p w; cw_env := sd_env w; cw_trace := sd_trace w |}) as (l & Hl & Hr).
  destruct (m _) as [r c]. exists l. split; [exact Hl|by apply updates_link].
Qed.
Lemma no_update_tables ops w : no_update w (tables_run w ops).
Proof.
  revert w. induction ops as [|[p op] ops IH]; intros w; [by apply no_update_refl|].
  eapply no_update_trans; [apply (harmless_run_core p (table_exec op)), link_table|apply IH].
Qed.
Lemma no_update_others w : no_update w (tables_others w).
Proof.
  unfold tables_others. destruct (renv_others (sd_env w)) as [ops e].
  eapply no_update_trans; [|apply no_update_tables]. by apply no_update_refl.
Qed.
Lemma harmless_dm {A} (m : DvWorld → result A * DvWorld) : harmless (dm m).
Proof.
  intros w. unfold dm, run_dv. destruct (m (sd_dv w)) as [r v]. cbn [snd].
  eapply no_update_trans; [|apply no_update_others]. eapply no_update_trans; [|apply no_update_tables].
  by apply no_update_refl.
Qed.
Lemma harmless_core {A} p (m : ME CWorld A) : only is_link m → harmless (on_core p m).
Proof.
  intros Hm w. unfold on_core. pose proof (harmless_run_core p m Hm w) as H.
  destruct (run_core p m w) as [r w1]. eapply no_update_trans; [exact H|apply no_update_others].
Qed.
End Harmless.

(** ** The commands of the SDK *)

Section Commands.
Context `{HKit : Kit} `{HCache : GoCache} `{HLaws : !GoCacheLaws} `{HDE : !DevicesEnv} `{HQuiet : !QuietCache}.
Context `{HCore : CoreEnv} `{HReq : !RequestEnv} `{HTables : !QuietTables}.
Context `{HCred : CredEnv} `{HPem : !PemOut} `{HUuid : Uuids}.
Context `{HCborQ : Cbor MaintenanceUpdateRequest} `{HCborM : Cbor Maintenance}
  `{HIntoQ : !CborInto MaintenanceUpdateRequest} `{HIntoM : !CborInto Maintenance}.
Context (deviceExpiration : Z) (disableUDPEndpoints : bool) (fuel : nat).
Abbreviation get_device id := (dm (Client_GetDevice deviceExpiration disableUDPEndpoints fuel id)).

(** C18 Onboarding a secured device, when no other goroutine uses the client: finding the
    device updates nothing, and then the client first sets the device to RFPRO; if that is
    refused nothing else is sent.  Otherwise it sends the access control list for the cloud
    and then the configuration of the cloud, each only if the step before succeeded; and when
    the steps have ended, whatever their result is, the change to RFNOP is sent as the last
    update, unless the device cannot be connected any more at that time.  The call succeeds
    exactly when both steps did, which needs a provider, a code and an address. *)
Theorem OnboardDevice_exchange id provider url code cloudID p links w w1 :
  id ≠ ANY_DEVICE → id ≠ "" → SdkInv w → get_device id w = (Ok (p, links), w1) →
  IsSecured (device_at p (dv_cache (sd_dv w1))) = true →
  let '(r, w') := OnboardDevice deviceExpiration disableUDPEndpoints fuel id provider url code cloudID w in
  ∃ l c c', cw_trace c = sd_trace w ++ l ∧ updates l = [] ∧ cw_trace c' = sd_trace w' ∧
    onboard_exchange links cloudID (cloud_update provider code url cloudID) r c c'.
Proof.
  intros Hany Hne HI E Hs.
  destruct (get_device_Ok deviceExpiration disableUDPEndpoints fuel id p links w w1 Hany Hne HI E)
    as (HI1&_).
  destruct (harmless_dm (Client_GetDevice deviceExpiration disableUDPEndpoints fuel id) w) as (l&Ht&Hu).
  rewrite E in Ht. unfold OnboardDevice. unfold mbind at 1, ME_bind at 1. rewrite E. unfold mbind, ME_bind. rewrite found_run, Hs.
  destruct (on_core_spec p (onboard_secured links cloudID (cloud_update provider code url cloudID)) w1 (proj2 HI1))
    as [-> _]; [apply orderly_onboard|].
  eexists l, {| cw_d := core_at p w1; cw_env := sd_env w1; cw_trace := sd_trace w1 |}, _.
  split; [exact Ht|]. split; [exact Hu|]. split; [reflexivity|]. apply onboard_sends.
Qed.

(** ** Taking ownership *)

(** Without an assumption on the ID: the operation may have changed it. *)
Lemma on_core_renames {A} p (m : ME CWorld A) w :
  SdkInv w → keeps (in_order None) m →
  ∃ new, dv_cache (sd_dv (on_core p m w).2) = upd_device p (SetDeviceID new) (dv_cache (sd_dv w)) ∧
         conns_ok (on_core p m w).2.
Proof.
  intros [_ Hw] Hm. rewrite on_core_quiet. unfold run_core.
  specialize (Hm {| cw_d := core_at p w; cw_env := sd_env w; cw_trace := sd_trace w |}
    (conj (core_at_ok p w Hw) I)).
  destruct (m _) as [r c]. exists (d_deviceID (cw_d c)). split; [done|]. cbn.
  apply conns_ok_insert; [done|apply Hm].
Qed.

(** The cache after a change of the ID of a cached device. *)
Lemma updateCache_renamed p (id new : string) t c v :
  CacheInv c → entries (w_cache c) !! id = Some ((p, v) : Element) →
  let c1 := upd_device p (SetDeviceID new) c in
  let c' := updateCache deviceExpiration p id t c1 in
  CacheInv c' ∧ fd_deviceID (device_at p c') = new ∧ is_Some (entries (w_cache c') !! (new : string)).
Proof.
  intros HI He c1 c'. destruct (proj1 HI _ _ He ltac:(done)) as (d&Hd&Hid). cbn [fst] in Hd.
  assert (Hrun : cache_exec deviceExpiration c (OpOwned p id new t) = c').
  { cbn [cache_exec]. rewrite Hd. destruct (entries (w_cache c) !! id) as [[q u]|] eqn:Eq; [|done].
    injection He as -> ->. by rewrite Nat.eqb_refl. }
  split; [rewrite <-Hrun; by apply CacheInv_owned|]. clear Hrun.
  destruct (rename_keyed p d id new c Hd Hid HI) as (Hk&Hb&Hp1). fold c1 in Hk, Hb, Hp1.
  assert (Hat : fd_deviceID (device_at p c1) = new) by (unfold device_at; by rewrite Hp1).
  subst c'. unfold updateCache. rewrite Hat. case_bool_decide as Hne.
  { split; [done|]. rewrite Hne. by exists (p, v). }
  assert (Hstep : ∀ exp, let c2 := (updateOrStoreDevice p exp t c1).2 in
    fd_deviceID (device_at p (LoadAndDeleteDevice id c2).2) = new ∧
    is_Some (entries (w_cache (LoadAndDeleteDevice id c2).2) !! (new : string))).
  { intros exp c2. destruct (updateOrStore_keyed (Some id) p _ exp t c1 Hp1) as (_&_&Hids); [|done..|].
    { intros [= E]. by apply Hne. }
    destruct (updateOrStore_returns p exp t c1) as (v'&Hv'&_). rewrite Hat in Hv'.
    destruct (LoadAndDeleteDevice_entries id c2) as (Ee&Ed&_). destruct (Hids _ _ Hp1) as (d'&Hd'&Hid').
    unfold device_at. rewrite Ed. fold c2 in Hd', Hv'. rewrite Hd', Ee, lookup_delete_ne by done.
    rewrite Hv'. by split. }
  destruct (GetDeviceExpiration id t c1) as [exp|]; [destruct (exp =? 0)|]; apply Hstep.
Qed.

Lemma at_core_links c p : triple (at_cache c) (core_GetResourceLinks deviceExpiration p) (fun _ => at_cache c).
Proof.
  unfold core_GetResourceLinks. apply at_device_bind, at_ask_bind. intros r. apply at_others_bind.
  destruct r as [[addr links]|err]; intros w Hw; exact Hw.
Qed.

(** Taking ownership keeps the cache right: when it succeeds, the ID it returns is a key of
    the cache, which is again keyed by the IDs of its devices, even if the transfer changed
    the ID of the device; and every table of connections is in order. *)
Theorem ownDeviceWithSigners_spec rand ownerID (id : string) otms cfg w (id' : string) w' :
  id ≠ ANY_DEVICE → id ≠ "" → SdkInv w →
  ownDeviceWithSigners deviceExpiration disableUDPEndpoints fuel rand ownerID id otms cfg w = (Ok id', w') →
  SdkInv w' ∧ is_Some (entries (w_cache (dv_cache (sd_dv w'))) !! (id' : string)).
Proof.
  intros Hany Hne HI E. unfold ownDeviceWithSigners in E. apply run_bind_Ok in E as ([p links]&w1&E1&E).
  destruct (get_device_Ok deviceExpiration disableUDPEndpoints fuel id p links w w1 Hany Hne HI E1)
    as (HI1&Hid&_&[v He]).
  unfold mbind at 1, ME_bind at 1 in E. rewrite found_run in E.
  destruct (negb (IsSecured _)).
  { injection E as <- <-. split; [done|]. rewrite Hid. by exists (p, v). }
  apply run_bind_Ok in E as (links2&w2&E2&E).
  assert (H2 : dv_cache (sd_dv w2) = dv_cache (sd_dv w1) ∧ conns_ok w2).
  { destruct disableUDPEndpoints; [|injection E2 as _ <-; split; [done|apply HI1]].
    apply run_bind_Ok in E2 as (l&w3&E3&[= <- <-]).
    destruct (dm_frame (core_GetResourceLinks deviceExpiration p) w1 (proj2 HI1)) as (_&Hv&Hc). rewrite E3 in Hv, Hc.
    split; [|exact Hc]. cbn [snd] in Hv. rewrite Hv. pose proof (at_core_links _ p (sd_dv w1) eq_refl) as Hat.
    by destruct (core_GetResourceLinks deviceExpiration p (sd_dv w1)). }
  assert (HI2 : SdkInv w2).
  { destruct HI1 as [HC Hw]. destruct H2 as [H2 H3]. split; [by rewrite H2|exact H3]. }
  apply run_bind_Ok in E as ([]&w3&E3&E).
  destruct (on_core_renames p (Own rand cfg ownerID links2 otms) w2 HI2) as (new&Hc3&Hw3); [apply orderly_Own|].
  rewrite E3, (proj1 H2) in Hc3. rewrite E3 in Hw3. cbn [snd] in *.
  apply run_bind_Ok in E as (t&w4&E4&E). apply run_bind_Ok in E as ([]&w5&E5&E).
  apply run_bind_Ok in E as (f&w6&E6&[= <- <-]). rewrite found_run in E6. injection E6 as <- <-.
  assert (H5 : dv_cache (sd_dv w5) = updateCache deviceExpiration p id t (upd_device p (SetDeviceID new) (dv_cache (sd_dv w1)))
               ∧ conns_ok w5).
  { destruct (dm_frame now w3 Hw3) as (_&Hv4&Hc4). rewrite E4 in Hv4, Hc4. cbn [snd] in Hv4, Hc4.
    destruct (dm_frame (cop (fun c => (tt, updateCache deviceExpiration p id t c))) w4 Hc4) as (_&Hv5&Hc5). rewrite E5 in Hv5, Hc5. cbn [snd] in Hv5, Hc5.
    split; [|exact Hc5]. rewrite Hv5. unfold cop. cbn [snd dv_cache]. f_equal. rewrite Hv4. unfold now, dv_ask.
    destruct (denv_now (dv_env (sd_dv w3))) as [t' e]. exact Hc3. }
  destruct (updateCache_renamed p id new t _ v (proj1 HI1) He) as (HC&Hnew&Hin). rewrite <-(proj1 H5) in HC, Hnew, Hin.
  rewrite Hnew. split; [|done]. split; [done|]. exact (proj2 H5).
Qed.

(** ** After a failed transfer *)

(** The device [f] answers /oic/res with an error, or without a link of its ID. *)
Definition unknown_to_itself (f : Found) : Prop :=
  ∀ e, match (denv_resources f e).1 with
       | Ok (_, links) => Forall (fun l => GetDeviceID l ≠ fd_deviceID f) links
       | Err _ => True
       end.
(** The entry [id] of the cache, which does not expire, holds a device with another ID. *)
Definition misplaced (id : string) (p : nat) (f : Found) (c : CacheWorld) : Prop :=
  entries (w_cache c) !! id = Some ((p, 0) : Element) ∧ device_at p c = f ∧
  fd_deviceID f ≠ id ∧ fd_foundByIP f = "".

Lemma PatchEndpoint_ID l addr eps : GetDeviceID (PatchEndpoint l addr eps) = GetDeviceID l.
Proof. unfold PatchEndpoint, patchEndpoint. repeat (done || case_match). Qed.
Lemma FilterByDeviceID_none links id :
  Forall (fun l => GetDeviceID l ≠ id) links → FilterByDeviceID links id = [].
Proof.
  induction 1 as [|l links Hl _ IH]; [done|]. unfold FilterByDeviceID in *. cbn.
  by rewrite bool_decide_eq_false_2, IH.
Qed.
Lemma at_answer_bind {A B} c (f : DvEnv → A * DvEnv) (k : A → ME DvWorld B) Q :
  (∀ e, triple (at_cache c) (k (f e).1) Q) → triple (at_cache c) (dv_ask f ≫= k) Q.
Proof.
  intros Hk w Hw. unfold mbind, ME_bind, dv_ask. specialize (Hk (dv_env w)).
  destruct (f (dv_env w)) as [a e]. by apply Hk.
Qed.
Lemma at_getLinks_none c p :
  unknown_to_itself (device_at p c) →
  triple (at_cache c) (getLinksDevice deviceExpiration disableUDPEndpoints p) (fun r w => at_cache c w ∧ is_ok r = false).
Proof.
  intros Hun. unfold getLinksDevice. eapply triple_bind with
    (T := fun links w => at_cache c w ∧ FilterByDeviceID links (fd_deviceID (device_at p c)) = []).
  - unfold core_GetResourceLinks. apply at_device_bind, at_answer_bind. intros e. specialize (Hun e).
    destruct (denv_resources (device_at p c) e).1 as [[addr links]|err]; apply at_others_bind;
      [|by intros w Hw]. apply at_ret. intros e'. split; [done|]. apply FilterByDeviceID_none.
    unfold Links_PatchEndpoint. apply Forall_fmap. eapply Forall_impl; [exact Hun|]. intros l. cbn.
    by rewrite PatchEndpoint_ID.
  - intros links. apply triple_pure. intros Hn. apply at_device_bind. cbv zeta. rewrite Hn.
    by intros w Hw.
Qed.
Lemma GetDevice_misplaced id p f t c :
  misplaced id p f c → GetDevice deviceExpiration id t c = (Some p, c).
Proof.
  intros (He&_). unfold GetDevice. rewrite entries_Load, He. cbn. by rewrite zero_never_expires.
Qed.
Lemma misplaced_delete id p f c :
  misplaced id p f c → misplaced id p f (DeviceCache.deleteDeviceNotFoundByIP p c).
Proof.
  intros (He&Hf&Hid&Hip). unfold DeviceCache.deleteDeviceNotFoundByIP. rewrite Hf, Hip.
  rewrite bool_decide_eq_true_2 by done. destruct (LoadAndDeleteDevice_entries (fd_deviceID f) c) as (Ee&Ed&_).
  unfold misplaced, close_device, device_at. cbn [w_cache w_devices]. rewrite Ee, Ed, lookup_delete_ne by done. by split_and!.
Qed.
(** Then [GetDevice] calls itself for ever: every fuel is too small. *)
Lemma GetDevice_loops n id p f w :
  unknown_to_itself f → misplaced id p f (dv_cache w) →
  (Client_GetDevice deviceExpiration disableUDPEndpoints n id w).1 = Err ErrOutOfFuel.
Proof.
  intros Hun. revert w. induction n as [|n IH]; intros w Hm; [done|]. cbn [Client_GetDevice].
  enough (H : triple (at_cache (dv_cache w)) (Client_GetDevice deviceExpiration disableUDPEndpoints (S n) id)
                (fun r _ => r = Err ErrOutOfFuel)) by exact (H w eq_refl).
  cbn [Client_GetDevice]. apply at_ask_bind. intros t. apply at_cop_bind.
  rewrite (GetDevice_misplaced id p f t _ Hm). cbn [fst snd].
  eapply triple_bind_catch; [apply at_getLinks_none; by rewrite (proj1 (proj2 Hm))|].
  intros [links|err]; [by intros w' [_ [=]]|]. apply (triple_pre _ (at_cache (dv_cache w))); [by intros w' [? _]|].
  apply at_device_bind. destruct Hm as (He&Hf&Hid&Hip). rewrite Hf, Hip. rewrite bool_decide_eq_true_2 by done.
  apply at_cop_bind. intros w' Hw'. apply IH. rewrite Hw'. apply misplaced_delete. by split_and!.
Qed.

(** C19 A failed transfer that changed the ID of the device can ruin its entry in the cache.
    For a client with UDP endpoints that no other goroutine uses, and a device that was found
    by multicast, not by its address, and is kept without an expiration: the command returns
    without moving the entry to the new ID, and then, as long as the device does not answer
    under that new ID, [GetDevice] of the old ID never ends: it deletes the entry of the wrong
    ID and calls itself again. *)
Theorem failed_own_diverges rand ownerID (id : string) otms cfg w p links w1 err w' n :
  id ≠ ANY_DEVICE → id ≠ "" → SdkInv w → disableUDPEndpoints = false →
  get_device id w = (Ok (p, links), w1) →
  entries (w_cache (dv_cache (sd_dv w1))) !! id = Some ((p, 0) : Element) →
  fd_foundByIP (device_at p (dv_cache (sd_dv w1))) = "" →
  ownDeviceWithSigners deviceExpiration disableUDPEndpoints fuel rand ownerID id otms cfg w = (Err err, w') →
  let f := device_at p (dv_cache (sd_dv w')) in
  fd_deviceID f ≠ id → unknown_to_itself f →
  (Client_GetDevice deviceExpiration disableUDPEndpoints n id (sd_dv w')).1 = Err ErrOutOfFuel.
Proof.
  intros Hany Hne HI Hudp E He Hip E' f Hf Hun. apply (GetDevice_loops n id p f); [exact Hun|].
  destruct (get_device_Ok deviceExpiration disableUDPEndpoints fuel id p links w w1 Hany Hne HI E)
    as (HI1&Hid&_&_).
  unfold ownDeviceWithSigners in E'. unfold mbind at 1, ME_bind at 1 in E'. rewrite E in E'.
  unfold mbind at 1, ME_bind at 1 in E'. rewrite found_run in E'. destruct (negb (IsSecured _)); [done|].
  rewrite Hudp in E'. unfold mbind at 1 2, ME_bind at 1 2 in E'. cbn in E'.
  destruct (on_core_renames p (Own rand cfg ownerID links otms) w1 HI1) as (new&Hc3&_); [apply orderly_Own|].
  destruct (on_core p (Own rand cfg ownerID links otms) w1) as [[[]|err'] w3].
  - exfalso. unfold mbind, ME_bind, dm, run_dv, now, dv_ask, cop, found in E'.
    destruct (denv_now (dv_env (sd_dv w3))) as [t e]. cbn in E'. done.
  - injection E' as _ <-. cbn [snd] in Hc3. unfold misplaced. split; [|split; [done|split; [done|]]].
    + rewrite Hc3. exact He.
    + subst f. rewrite Hc3. unfold device_at, upd_device in *. cbn. rewrite lookup_alter_eq.
      by destruct (w_devices (dv_cache (sd_dv w1)) !! p).
Qed.
End Commands.
