(* ===== verification/CloudExamples.v ===== *)
(** * CloudExamples: the cloud client on concrete inputs

    Instances of the interfaces (addresses, UUIDs, CBOR, a cloud that accepts
    every request and one that rejects the sign-in), runs of the client on them,
    and the instantiation of the cloud properties that have hypotheses. *)

From S2P Require Export CloudSpec CloudServe.

(** ** Instances *)

(** An address is a scheme and a text without slashes. *)
Fixpoint strip (s : string) : string :=
  match s with
  | EmptyString => ""
  | String c s' => if Ascii.eqb c "/" then strip s' else String c (strip s')
  end.
#[export] Instance ex_Kit : Kit := {|
  Addr := string * string;
  ParseString s t := Ok (s, t);
  addr_GetScheme := fst;
  addr_GetHostname a := strip a.2;
  addr_GetPort a := 0;
  addr_SetPort a p := (a.1, strip a.2 +:+ ":" +:+ format_uint p);
  addr_SetScheme a s := (s, a.2);
  addr_String a := strip a.2;
  addr_URL a := a.1 +:+ "://" +:+ strip a.2;
  ParseIPZone s := (None, "");
  ip_String ip := "";
  str_contains s t := false;
  set_ToSlice X := elements X |}.
Lemma strip_strip s : strip (strip s) = strip s.
Proof.
  induction s as [|c s IH]; simpl; [done|]. destruct (Ascii.eqb c "/") eqn:E; [done|].
  simpl. rewrite E. by f_equal.
Qed.
#[export] Instance ex_KitLaws : KitLaws.
Proof.
  split; simpl.
  - by intros s a x [= <-].
  - intros s a x [= <-]. simpl. apply strip_strip.
  - done.
  - intros [s t] c. simpl. induction t as [|d t IH]; simpl; [done|].
    destruct (Ascii.eqb_spec d "/"); [done|]. simpl.
    intros [Hc%bool_decide_eq_true|Hc]%orb_prop; [congruence | auto].
  - done.
Qed.

#[export] Instance ex_Uuids : Uuids := {|
  uuid_Parse s := if (String.length s =? 36)%nat then Ok s else Err (ErrText "invalid UUID length");
  uuid_NewSHA1 s := uuid_Nil |}.
Definition ex_di : UUID := "11111111-2222-3333-4444-555555555555".
Definition ex_cloud : UUID := "99999999-2222-3333-4444-555555555555".

(** Toy encodings: the tests only need that they are total where they must be. *)
#[export] Instance ex_Cbor_cfg : Cbor Configuration :=
  {| cbor_Encode c := Ok (cfg_URL c); cbor_Decode s := Err (ErrText "EOF") |}.
#[export] Instance ex_Cbor_upd : Cbor ConfigurationUpdateRequest := {|
  cbor_Encode c := Ok (upd_URL c);
  cbor_Decode s := Ok {| upd_AuthorizationProvider := "plgd"; upd_URL := s;
    upd_AuthorizationCode := "code"; upd_CloudID := ex_cloud |} |}.
#[export] Instance ex_Cbor_su : Cbor CoapSignUpRequest :=
  {| cbor_Encode r := Ok (su_AuthorizationCode r); cbor_Decode s := Err (ErrText "EOF") |}.
#[export] Instance ex_Cbor_sur : Cbor CoapSignUpResponse := {|
  cbor_Encode r := Ok (AccessToken r);
  cbor_Decode s := Ok {| AccessToken := s; UserID := "user"; RefreshToken := "refresh";
                         RedirectURI := ""; ExpiresIn := 3600; ValidUntil := 0 |} |}.
#[export] Instance ex_Cbor_si : Cbor CoapSignInRequest :=
  {| cbor_Encode r := Ok (si_AccessToken r); cbor_Decode s := Err (ErrText "EOF") |}.
#[export] Instance ex_Cbor_sir : Cbor CoapSignInResponse :=
  {| cbor_Encode r := Ok ""; cbor_Decode s := Ok {| sir_ExpiresIn := 3600 |} |}.
#[export] Instance ex_Cbor_rf : Cbor CoapRefreshTokenRequest :=
  {| cbor_Encode r := Ok (rf_RefreshToken r); cbor_Decode s := Err (ErrText "EOF") |}.
#[export] Instance ex_Cbor_rfr : Cbor CoapRefreshTokenResponse := {|
  cbor_Encode r := Ok (rfr_AccessToken r);
  cbor_Decode s := Ok {| rfr_AccessToken := s; rfr_RefreshToken := "refresh2";
                         rfr_ExpiresIn := 3600 |} |}.
#[export] Instance ex_Cbor_pub : Cbor PublishResourcesRequest :=
  {| cbor_Encode r := Ok (join (Href <$> pub_Links r) " "); cbor_Decode s := Err (ErrText "EOF") |}.

(** A peer with one certificate that the only pool trusts. *)
#[export] Instance ex_X509 : X509 := {|
  CertPool := unit;
  x509_ParseCertificate s := Ok {| ExtKeyUsage := []; UnknownExtKeyUsage := []; CommonName := s |};
  x509_Verify _ _ _ _ := Ok tt |}.

(** The published links, and the answers of the cloud. *)
Definition ex_link (href : string) : ResourceLink := set_Href href zero_link.
Definition ex_answer (sign_in : Z) (q : Message) : Message :=
  set_body "token" (set_code
    match rank q with 2%nat => sign_in | 4%nat => codes_Deleted | _ => codes_Changed end NewMessage).
(** The state of the environment is the clock, in nanoseconds. *)
Definition ex_env (sign_in : Z) : CloudEnv := {|
  Env := Z;
  env_now e := (e, e + 1);
  env_token e := (Ok "t", e);
  env_ca_pool e := (Ok tt, e);
  env_dial a v e := (Ok 7%nat, e);
  env_alive c e := true;
  env_close c e := (Ok tt, e);
  env_do c q e := (Ok (ex_answer sign_in q), e);
  env_ctx_err e := None;
  env_links e := [ex_link "/a"; ex_link "/b"; ex_link "/new"];
  env_order e X := elements X;
  env_calls e := ([], e) |}.

Section Accepting.
#[local] Instance good_env : CloudEnv := ex_env codes_Changed.
#[local] Instance good_laws : CloudEnvLaws.
Proof. by split. Qed.
#[local] Instance good_cooperative : Cooperative.
Proof.
  apply Build_Cooperative with (coop_certs := ["cert"]); try (simpl; eauto; done).
  intros c q e. eexists. split; [done|]. unfold good_answer, ex_answer.
  assert (rank q <= 4)%nat as Hr by (unfold rank; repeat case_match; lia).
  destruct (rank q) as [|[|[|[|[|n]]]]]; [..|lia]; try done.
  all: split; [done|]; eexists; by split.
Qed.

(** The client of a device that is configured for a cloud. *)
Definition ex_cfg : Config :=
  {| c_AccessToken := "stored"; c_UserID := "user"; c_RefreshToken := "refresh"; c_ValidUntil := 0;
     c_AuthorizationProvider := "plgd"; c_CloudID := ex_cloud; c_CloudURL := "coaps+tcp://cloud" |}.
Definition ex_tick : Z := 10000000000.
Definition ex_start : World :=
  {| w_m := match New true ex_cfg with Ok m => Init m | Err _ => zero_manager end;
     w_env := 1000; w_trace := [] |}.
Abbreviation ex_handleTrigger := (handleTrigger ex_di ex_tick 5).
Abbreviation ex_handleTimer := (handleTimer ex_di ex_tick 5).
Definition pop_trigger (w : World) : World :=
  {| w_m := set_m_trigger (tail (m_trigger (w_m w))) (w_m w); w_env := w_env w;
     w_trace := w_trace w |}.
Definition call (c : ApiCall) (w : World) : World :=
  {| w_m := api_call c (w_m w); w_env := w_env w; w_trace := w_trace w |}.
(** Connected and with everything published. *)
Definition ex_online : World := (ex_handleTrigger false (pop_trigger ex_start)).2.
(** Ready to be registered, with two resources to remove. *)
Definition ex_ready : World := pop_trigger (call (CallUnpublish ["/a"; "/b"]) ex_start).

Example ex_online_paths :
  omap (fun ev => match ev with EvReq _ q => m_path q | _ => None end) (w_trace ex_online) =
    [SignIn_uri; ResourceDirectory_uri] ∧
  m_resourcesPublished (w_m ex_online) = true ∧ m_signedIn (w_m ex_online) = true.
Proof. vm_compute. done. Qed.

(** ** The properties at these inputs *)

Lemma step_pop b rest w :
  m_trigger (w_m w) = b :: rest → m_removed (w_m w) = false →
  step ex_di ex_tick 5 w (LTrigger b) (ex_handleTrigger b (pop_trigger w)).2.
Proof. intros E Hr. eapply step_trigger; [exact E | exact Hr|]. unfold pop_trigger. by rewrite E. Qed.

Lemma manager_invariant_witness :
  runs (step ex_di ex_tick 5) ex_start [LTrigger false; LApi (CallUnpublish ["/a"]); LTimer]
    (ex_handleTimer (call (CallUnpublish ["/a"]) ex_online)).2 ∧
  Inv (w_m (ex_handleTimer (call (CallUnpublish ["/a"]) ex_online)).2).
Proof.
  assert (runs (step ex_di ex_tick 5) ex_start [LTrigger false; LApi (CallUnpublish ["/a"]); LTimer]
    (ex_handleTimer (call (CallUnpublish ["/a"]) ex_online)).2) as Hr.
  { apply (runs_cons _ _ _ ex_online); [apply (step_pop false []); by vm_compute|].
    eapply runs_cons; [apply step_api|]. eapply runs_cons; [apply step_timer|apply runs_nil].
    by vm_compute. }
  split; [exact Hr|].
  apply (manager_invariant (HEnv := good_env) ex_di ex_tick 5 ex_cfg true (importConfig ex_cfg zero_manager) 1000
    [LTrigger false; LApi (CallUnpublish ["/a"]); LTimer]); [reflexivity | exact Hr].
Defined.

(** A device that is not configured cannot connect. *)
Definition ex_unconfigured : World (HEnv := good_env) :=
  {| w_m := zero_manager; w_env := 0; w_trace := [] |}.
Lemma connect_error_disconnects_witness :
  m_client (w_m (connect ex_di ex_tick 5 ex_unconfigured).2) = None ∧
  m_signedIn (w_m (connect ex_di ex_tick 5 ex_unconfigured).2) = false.
Proof.
  apply (connect_error_disconnects ex_di ex_tick 5 ex_unconfigured
    (ErrWrap "cannot get address" (ErrText "invalid address"))). vm_compute. reflexivity.
Defined.

Lemma connect_success_settled_witness :
  m_readyToUnpublish (w_m ex_ready) ≠ None ∧
  let m := w_m (connect ex_di ex_tick 5 ex_ready).2 in
  is_Some (m_client m) ∧ m_signedIn m = true ∧ AccessToken (m_creds m) ≠ "" ∧
  m_readyToPublish m = None ∧ m_readyToUnpublish m = None.
Proof.
  split; [by vm_compute|].
  apply (connect_success_settled ex_di ex_tick 5 ex_ready); [|vm_compute; reflexivity].
  split; [apply disjoint_empty_l | vm_compute; lia | done | done].
Defined.

Lemma timer_registers_witness :
  let m := w_m (ex_handleTimer ex_ready).2 in
  cfg_ProvisioningStatus (m_cfg m) = REGISTERED ∧ is_Some (m_client m) ∧ m_signedIn m = true ∧
  m_readyToPublish m = None ∧ m_readyToUnpublish m = None.
Proof.
  apply (timer_registers ex_di ex_tick 5 ex_ready); [by vm_compute|].
  split_and!; [left; by vm_compute | by vm_compute | vm_compute; lia].
Defined.

Lemma unregister_spec_witness : ∃ tr,
  w_trace (ex_handleTrigger true
    {| w_m := set_m_trigger [] (Unregister (w_m ex_online)); w_env := w_env ex_online;
       w_trace := w_trace ex_online |}).2 =
  w_trace ex_online ++ tr ++ [EvSave; EvRemoveCAs [""; ex_cloud]].
Proof.
  destruct (unregister_spec ex_di ex_tick 5 ex_online []) as (tr & _ & _ & _ & _ & _ & _ & E).
  exists tr. exact E.
Defined.

Lemma unpublish_batch_witness : ∃ l,
  let (r, w') := popReadyToUnpublishResources unpublish_limit ex_ready in
  r = Ok l ∧ (length l <= 10)%nat ∧ NoDup l ∧
  default ∅ (m_readyToUnpublish (w_m ex_ready)) =
    list_to_set l ∪ default ∅ (m_readyToUnpublish (w_m w')) ∧
  list_to_set l ## default ∅ (m_readyToUnpublish (w_m w')) ∧
  (String.length (toQuery ex_di l) <= 255)%nat.
Proof. apply (unpublish_batch ex_di ex_ready). vm_compute. reflexivity. Defined.

Definition ex_removing : World := call (CallUnpublish ["/a"; "/b"]) ex_online.
Lemma unpublish_complete_witness :
  let (r, w') := unpublishResources ex_di 5 ex_removing in
  r = Ok tt ∧ m_readyToUnpublish (w_m w') = None ∧
  ∀ h, h ∈ default ∅ (m_readyToUnpublish (w_m ex_removing)) →
       covered ex_di h (drop (length (w_trace ex_removing)) (w_trace w')).
Proof.
  apply (unpublish_complete ex_di 5 ex_removing); [split|..].
  - vm_compute. eauto.
  - vm_compute. lia.
  - vm_compute. reflexivity.
  - vm_compute. reflexivity.
Defined.

Lemma isCredsExpiring_two_ticks_witness :
  isCredsExpiring_at ex_tick 3600000000000 0 1000 = false ∧
  (isCredsExpiring_at ex_tick 3600000000000 3580000000001 3580000000002 = true ↔
   3600000000000 ≠ 0 ∧ 3600000000000 - 3580000000001 < 2 * ex_tick).
Proof.
  split; [reflexivity|].
  apply (isCredsExpiring_two_ticks ex_tick 3600000000000 3580000000001 3580000000002);
    unfold ex_tick; lia.
Defined.

(** Resources published while the connection is down: the trigger drops them,
    and as the first publication succeeded before, no later one includes them. *)
Definition publications (w : World) : list Message :=
  omap (fun ev => match ev with
                  | EvReq _ q => if bool_decide (m_path q = Some ResourceDirectory_uri) &&
                                    (m_code q =? POST) then Some q else None
                  | _ => None end) (w_trace w).
Definition ex_lost : World :=
  (ex_handleTrigger false (pop_trigger
     (call (CallPublish ["/new"]) (call (CallConnClosed 7) ex_online)))).2.

(** A lost publication: a client that had published its resources loses the
    connection, [PublishResources] schedules another one, and the trigger of that
    call is handled.  The client is registered again, the resource is no longer
    scheduled, and the cloud was sent no publication after the first one. *)
Theorem lost_publication :
  "/new" ∈ default ∅ (m_readyToPublish (api_call (CallPublish ["/new"]) (w_m ex_online))) ∧
  cfg_ProvisioningStatus (m_cfg (w_m ex_lost)) = REGISTERED ∧ m_signedIn (w_m ex_lost) = true ∧
  m_readyToPublish (w_m ex_lost) = None ∧ m_resourcesPublished (w_m ex_lost) = true ∧
  publications ex_lost = publications ex_online.
Proof.
  split; [|vm_compute; by split_and!].
  change (m_readyToPublish _) with (Some (({["/new"]} ∪ ∅) : gset string)). simpl. set_solver.
Qed.

(** ** Requests from the cloud *)

#[local] Instance ex_Cbor_links : Cbor ResourceLinks :=
  {| cbor_Encode l := Ok (join (Href <$> l) " "); cbor_Decode s := Err (ErrText "EOF") |}.
#[local] Instance ex_Status : CoapStatus := fun e => None.
Definition ex_get (path : string) : Message := set_code GET (set_path path NewMessage).
Definition ex_handler (r : Request) : result (option Message) :=
  Ok (Some (set_body (DeviceID r +:+ URIPath r) (set_code codes_Content NewMessage))).
Definition ex_device_links (rts : list string) : ResourceLinks :=
  [set_Href "/x/d" {| ID := ""; Href := ""; ResourceTypes := ["oic.wk.d"]; Interfaces := [];
     LinkPolicy := None; LinkEndpoints := []; Anchor := ""; LinkDeviceID := ""; InstanceID := 0;
     Title := ""; SupportedContentTypes := [] |}].
Lemma serveCOAP_spec_witness :
  m_body <$> serveCOAP ex_di ex_handler ex_device_links NewMessage "conn" (ex_get "/oic/d") =
    Some (Some (ex_di +:+ "/x/d")) ∧
  ∃ r, DeviceID r = ex_di ∧ ex_handler r = Ok (Some
    (set_body (DeviceID r +:+ "/x/d") (set_code codes_Content NewMessage))).
Proof.
  split; [by vm_compute|].
  destruct (serveCOAP_spec ex_di ex_handler ex_device_links NewMessage "conn" (ex_get "/oic/d"))
    as (r & Hd & _ & _ & Hp & _); [by vm_compute | by intros q Hq%elem_of_nil | done |].
  exists r. split; [exact Hd|]. unfold ex_handler, URIPath. rewrite Hp. reflexivity.
Defined.
End Accepting.

Section Rejecting.
#[local] Instance bad_env : CloudEnv := ex_env codes_Unauthorized.
#[local] Instance bad_quiet : QuietEnv.
Proof. done. Qed.
Definition ex_signed_up : World :=
  {| w_m := set_m_client (Some 7%nat) (importConfig ex_cfg zero_manager); w_env := 0;
     w_trace := [] |}.
Lemma signIn_unauthorized_witness :
  let (r, w') := signIn ex_di ex_signed_up in
  r = Err (errCannotSignIn ErrUnexpectedCode) ∧ m_signedIn (w_m w') = false ∧
  m_creds (w_m w') = m_creds (w_m ex_signed_up) ∧ m_client (w_m w') = Some 7%nat ∧
  m_forceRefreshToken (w_m w') = true.
Proof.
  apply (signIn_unauthorized ex_di ex_signed_up 7%nat); try reflexivity.
  - by vm_compute.
  - intros e. exists "t". reflexivity.
  - intros d. exists (si_AccessToken d). reflexivity.
  - intros q e Hq. exists (ex_answer codes_Unauthorized q). split; [reflexivity|].
    unfold ex_answer, rank. rewrite Hq. reflexivity.
Defined.
End Rejecting.

(** ** Links with ports in their policy *)

Definition ex_policy : Policy :=
  {| Policy_BitMask := 1; UDPPort := 5684; TCPPort := 0; TCPTLSPort := 443; Secured := Some true |}.
Definition ex_port_link : ResourceLink :=
  {| ID := ""; Href := "/light"; ResourceTypes := []; Interfaces := []; LinkPolicy := Some ex_policy;
     LinkEndpoints := []; Anchor := ""; LinkDeviceID := ""; InstanceID := 0; Title := "";
     SupportedContentTypes := [] |}.
Definition ex_addr : @Addr ex_Kit := ("coap", "10.0.0.1").
Lemma patchEndpoint_spec_witness :
  match Endpoints_GetAddr (LinkEndpoints (patchEndpoint ex_port_link ex_addr [])) "coaps" with
  | Ok x => (5684 : Z) ≠ 0 ∧ addr_GetScheme x = "coaps" ∧
            addr_String x = addr_String (addr_SetPort ex_addr 5684)
  | Err _ => (5684 : Z) = 0
  end.
Proof.
  apply (patchEndpoint_spec ex_port_link ex_addr [] ex_policy "coaps").
  - reflexivity.
  - reflexivity.
  - left. done.
  - right. by left.
Defined.
