(* ===== verification/CertGenProps.v ===== *)
(** * CertGenProps: what generated certificates are

    The key usages and extended key usages of a signing request are those of the
    configuration; when an identity certificate is issued, and what its validity is; the
    chain that is returned parses back; and a generated identity certificate passes the
    checks that devices and clients make on it. *)

From S2P Require Import CertGen.

(** ** Key usages *)

(** The names of the configuration, by the number of their bit in RFC 5280. *)
Definition key_usage_names : list string :=
  ["digitalSignature"; "contentCommitment"; "keyEncipherment"; "dataEncipherment"; "keyAgreement";
   "certSign"; "crlSign"; "encipherOnly"; "decipherOnly"].
(** [asn1.BitString.At]: bit 0 is the highest one of the first byte. *)
Definition bit_at (bytes : list Z) (i : nat) : bool :=
  Z.testbit (nth (i / 8) bytes 0) (7 - Z.of_nat (i mod 8)).

Lemma key_usage_spec k :
  match key_usage k with
  | Ok f => (k = "" ∧ f = 0) ∨ ∃ i, key_usage_names !! i = Some k ∧ f = Z.shiftl 1 (Z.of_nat i)
  | Err _ => k ≠ "" ∧ k ∉ key_usage_names
  end.
Proof.
  unfold key_usage. repeat (case_bool_decide; [subst k|]); try (by left); try (split; [done|]).
  all: try (right; first [by exists 0%nat | by exists 1%nat | by exists 2%nat | by exists 3%nat | by exists 4%nat
              | by exists 5%nat | by exists 6%nat | by exists 7%nat | by exists 8%nat]).
  unfold key_usage_names. rewrite !elem_of_cons, elem_of_nil. naive_solver.
Qed.

Lemma key_usage_names_inj i j k : key_usage_names !! i = Some k → key_usage_names !! j = Some k → i = j.
Proof. assert (NoDup key_usage_names) as H by (by apply (bool_decide_unpack _)). by apply (NoDup_lookup _ _ _ _ H). Qed.
Lemma key_usage_names_lt i k : key_usage_names !! i = Some k → (i < 9)%nat ∧ k ≠ "".
Proof.
  intros E. split; [by apply lookup_lt_Some in E|]. intros ->. apply list_elem_of_lookup_2 in E. revert E.
  by apply (bool_decide_unpack ("" ∉ key_usage_names)).
Qed.

Lemma testbit_above_9 ku l : 0 <= ku < 512 → 9 <= l → Z.testbit ku l = false.
Proof. intros Hk. apply (proj1 (Z.bounded_iff_bits_nonneg 9 ku ltac:(lia) ltac:(lia))). lia. Qed.
Lemma lor_lt_512 a b : 0 <= a < 512 → 0 <= b < 512 → 0 <= Z.lor a b < 512.
Proof.
  intros Ha Hb. split; [apply Z.lor_nonneg; lia|]. change 512 with (2 ^ 9).
  apply Z.bounded_iff_bits_nonneg; [lia|apply Z.lor_nonneg; lia|]. intros l Hl.
  by rewrite Z.lor_spec, !testbit_above_9.
Qed.

Lemma key_usages_spec ks acc :
  0 <= acc < 512 →
  match key_usages ks acc with
  | Ok ku => Forall (fun name => name = "" ∨ name ∈ key_usage_names) ks ∧ 0 <= ku < 512 ∧
      ∀ i name, key_usage_names !! i = Some name →
        Z.testbit ku (Z.of_nat i) = Z.testbit acc (Z.of_nat i) || bool_decide (name ∈ ks)
  | Err _ => ∃ k, k ∈ ks ∧ k ≠ "" ∧ k ∉ key_usage_names
  end.
Proof.
  revert acc. induction ks as [|k ks IH]; intros acc Ha; cbn [key_usages].
  - split; [done|]. split; [done|]. intros i name _. rewrite bool_decide_false by set_solver. by rewrite orb_false_r.
  - pose proof (key_usage_spec k) as Hk. destruct (key_usage k) as [f|e]; cbn; [|exists k; set_solver].
    assert (Hkn : k = "" ∨ k ∈ key_usage_names)
      by (destruct Hk as [[? _]|(i & Hi & _)]; [by left|right; by apply list_elem_of_lookup_2 in Hi]).
    assert (Hf : 0 <= f < 512 ∧ ∀ i name, key_usage_names !! i = Some name →
              Z.testbit f (Z.of_nat i) = bool_decide (name = k)).
    { destruct Hk as [[-> ->]|(j & Hj & ->)].
      - split; [lia|]. intros i name Hi. rewrite Z.bits_0, bool_decide_false; [done|].
        apply key_usage_names_lt in Hi. naive_solver.
      - apply key_usage_names_lt in Hj as Hlt. rewrite Z.shiftl_1_l. split.
        { change 512 with (2 ^ 9). split; [lia|]. apply Z.pow_lt_mono_r; lia. }
        intros i name Hi. rewrite Z.pow2_bits_eqb by lia. case_bool_decide as E; [subst|].
        + apply Z.eqb_eq. f_equal. by eapply key_usage_names_inj.
        + apply Z.eqb_neq. intros ?%Nat2Z.inj. subst. congruence. }
    destruct Hf as [Hf Hbit]. specialize (IH (Z.lor acc f)).
    destruct (key_usages ks (Z.lor acc f)) as [ku|e].
    + destruct IH as [Hn [Hb IH]]; [by apply lor_lt_512|].
      split; [by constructor|]. split; [done|]. intros i name Hi. rewrite (IH i name Hi), Z.lor_spec, (Hbit i name Hi), <- orb_assoc.
      f_equal. rewrite (bool_decide_ext (name ∈ k :: ks) (name = k ∨ name ∈ ks)) by apply elem_of_cons.
      by rewrite bool_decide_or.
    + destruct IH as (k' & ? & ?); [by apply lor_lt_512|exists k'; set_solver].
Qed.

(** The encoding of every set of usages, by evaluation. *)
Definition asn_ok (ku : Z) : bool :=
  let '(bytes, n) := asn_of ku in
  forallb (fun b => (0 <=? b) && (b <? 256)) bytes && (length bytes <=? 2)%nat &&
  forallb (fun i => Bool.eqb (bit_at bytes i) (Z.testbit ku (Z.of_nat i))) (seq 0 16) &&
  (n =? (if ku =? 0 then 0 else Z.log2 ku + 1)).
Lemma asn_ok_all ku : 0 <= ku < 512 → asn_ok ku = true.
Proof.
  intros Hk. assert (H : forallb asn_ok (Z.of_nat <$> seq 0 512) = true) by (by vm_compute).
  rewrite forallb_forall in H. apply H, list_elem_of_In, list_elem_of_fmap.
  exists (Z.to_nat ku). split; [lia|]. apply elem_of_seq. lia.
Qed.

Lemma asn_of_spec ku bytes n :
  0 <= ku < 512 → asn_of ku = (bytes, n) →
  Forall (fun b => 0 <= b < 256) bytes ∧ (∀ i, bit_at bytes i = Z.testbit ku (Z.of_nat i)) ∧
  (∀ i, bit_at bytes i = true → Z.of_nat i < n) ∧ (n = 0 ∨ bit_at bytes (Z.to_nat (n - 1)) = true).
Proof.
  intros Hk E. pose proof (asn_ok_all ku Hk) as H. unfold asn_ok in H. rewrite E in H. breflect.
  match goal with H : forallb _ bytes = true |- _ => rename H into Hb end.
  match goal with H : forallb _ (seq _ _) = true |- _ => rename H into Hbits end.
  match goal with H : (_ <=? _)%nat = true |- _ => apply Nat.leb_le in H; rename H into Hlen end.
  assert (Hbit : ∀ i, bit_at bytes i = Z.testbit ku (Z.of_nat i)).
  { intros i. destruct (decide (i < 16)%nat) as [Hi|Hi].
    - rewrite forallb_forall in Hbits. apply eqb_prop, Hbits, in_seq. lia.
    - unfold bit_at. rewrite nth_overflow; [|pose proof (Nat.div_le_lower_bound i 8 2); lia].
      rewrite Z.bits_0. symmetry. apply testbit_above_9; lia. }
  split; [|split; [done|]].
  - apply Forall_forall. rewrite forallb_forall in Hb. intros b Hin%list_elem_of_In%Hb. breflect. lia.
  - setoid_rewrite Hbit. subst n. destruct (Z.eqb_spec ku 0) as [->|Hne].
    + split; [|by left]. intros i. by rewrite Z.bits_0.
    + pose proof (Z.log2_nonneg ku). split.
      * intros i Hi. destruct (decide (Z.log2 ku < Z.of_nat i)); [|lia].
        by rewrite Z.bits_above_log2 in Hi by lia.
      * right. rewrite Z2Nat.id, Z.add_simpl_r by lia. apply Z.bit_log2. lia.
Qed.

(** C40 The key usage extension of a signing request is the one of the configuration: in the
    DER bit string a bit is set exactly when its usage is named, the bit length is the least
    one that holds the set bits (as DER demands), and the conversion fails exactly when a name
    that does not exist is among the usages; an empty name counts for nothing. *)
Theorem AsnKeyUsages_spec cfg :
  match AsnKeyUsages cfg with
  | Ok (bytes, n) =>
      Forall (fun name => name = "" ∨ name ∈ key_usage_names) (KeyUsages cfg) ∧
      Forall (fun b => 0 <= b < 256) bytes ∧
      (∀ i, bit_at bytes i = true ↔ ∃ name, key_usage_names !! i = Some name ∧ name ∈ KeyUsages cfg) ∧
      (∀ i, bit_at bytes i = true → Z.of_nat i < n) ∧ (n = 0 ∨ bit_at bytes (Z.to_nat (n - 1)) = true)
  | Err _ => ∃ name, name ∈ KeyUsages cfg ∧ name ≠ "" ∧ name ∉ key_usage_names
  end.
Proof.
  unfold AsnKeyUsages, X509KeyUsages. pose proof (key_usages_spec (KeyUsages cfg) 0 ltac:(lia)) as H.
  unfold mbind, result_bind. destruct (key_usages (KeyUsages cfg) 0) as [ku|e]; [|done]. destruct H as [Hn [Hk Hb]].
  destruct (asn_of ku) as [bytes n] eqn:E. destruct (asn_of_spec ku bytes n Hk E) as (H1 & H2 & H3).
  split; [done|]. split; [done|]. split; [|done]. intros i. rewrite H2.
  destruct (key_usage_names !! i) as [name|] eqn:Ei.
  - rewrite (Hb i name Ei), Z.bits_0. simpl. rewrite bool_decide_eq_true. naive_solver.
  - apply lookup_ge_None in Ei. simpl in Ei. rewrite testbit_above_9 by lia. naive_solver.
Qed.

(** The request of an identity certificate has the bits of [digitalSignature] and
    [keyAgreement] but, unlike [AsnKeyUsages], a length of seven bits: the last two are
    zeros, where five would do. *)
Lemma identity_bits_not_minimal :
  identity_bits.1 = (asn_of (Z.lor KeyUsageDigitalSignature KeyUsageKeyAgreement)).1 ∧
  identity_bits.2 = 7 ∧ (asn_of (Z.lor KeyUsageDigitalSignature KeyUsageKeyAgreement)).2 = 5.
Proof. done. Qed.

(** ** Extended key usages *)

Lemma mapM_cons_Ok {A B} (f : A → result B) x l y ys :
  f x = Ok y → mapM f l = Ok ys → mapM f (x :: l) = Ok (y :: ys).
Proof.
  intros Hx Hl. change (mapM f (x :: l)) with (y ← f x; k ← mapM f l; Ok (y :: k)). by rewrite Hx, Hl.
Qed.

(** An entry of the configuration: a name, or an identifier in dotted form. *)
Inductive Eku := EkuServer | EkuClient | EkuOid (o : oid).
Definition dotted (o : oid) : string := join (format_uint <$> o) ".".
Definition eku_text (e : Eku) : string :=
  match e with EkuServer => "server" | EkuClient => "client" | EkuOid o => dotted o end.
Definition eku_known (e : Eku) : option oid :=
  match e with
  | EkuServer => Some [1; 3; 6; 1; 5; 5; 7; 3; 1]
  | EkuClient => Some [1; 3; 6; 1; 5; 5; 7; 3; 2]
  | EkuOid _ => None
  end.
Definition eku_unknown (e : Eku) : option oid := match e with EkuOid o => Some o | _ => None end.
(** The numbers of an identifier are non-negative [int]s. *)
Definition eku_ok (e : Eku) : Prop :=
  match e with EkuOid o => o ≠ [] ∧ Forall (fun n => 0 <= n < 2 ^ 63) o | _ => True end.

Lemma format_aux_ind (P : string → Prop) fuel n acc :
  (∀ d s, 0 <= d < 10 → P s → P (String (digit d) s)) → P acc → P (format_aux fuel n acc).
Proof.
  intros Hd. revert n acc. induction fuel as [|f IH]; intros n acc Ha; simpl; [done|].
  pose proof (Z.mod_pos_bound n 10 ltac:(lia)). destruct (_ =? 0); [|apply IH]; auto.
Qed.
Lemma digit_cases d (P : ascii → Prop) :
  0 <= d < 10 → Forall P ["0"; "1"; "2"; "3"; "4"; "5"; "6"; "7"; "8"; "9"]%char → P (digit d).
Proof.
  intros Hd HP. rewrite Forall_forall in HP. apply HP.
  assert (d = 0 ∨ d = 1 ∨ d = 2 ∨ d = 3 ∨ d = 4 ∨ d = 5 ∨ d = 6 ∨ d = 7 ∨ d = 8 ∨ d = 9) as Hc by lia.
  repeat (destruct Hc as [->|Hc]; [by apply (bool_decide_unpack _)|]). subst. by apply (bool_decide_unpack _).
Qed.
Lemma format_uint_chars n :
  all_digits (format_uint n) = true ∧ contains_char "." (format_uint n) = false.
Proof.
  unfold format_uint. split; apply format_aux_ind; try done; intros d s Hd IH; cbn [all_digits contains_char];
    rewrite IH.
  - rewrite andb_true_r. apply (digit_cases d (fun c => (0 <=? digit_val c) && (digit_val c <=? 9) = true)); [done|].
    by repeat constructor.
  - rewrite orb_false_r. apply bool_decide_eq_false, (digit_cases d (fun c => "."%char ≠ c)); [done|].
    by repeat constructor.
Qed.
Lemma format_uint_head n : ∃ d s, 0 <= d < 10 ∧ format_uint n = String (digit d) s.
Proof.
  cut (∀ f, ∃ d s, 0 <= d < 10 ∧ format_aux (S f) n "" = String (digit d) s); [by intros H; apply (H 19%nat)|].
  intros f. pose proof (Z.mod_pos_bound n 10 ltac:(lia)). cbn [format_aux].
  destruct (_ =? 0); [by eexists _, _|].
  apply (format_aux_ind (fun t => ∃ d s, 0 <= d < 10 ∧ t = String (digit d) s)); by eauto.
Qed.

Lemma Atoi_format_uint n : 0 <= n < 2 ^ 63 → Atoi (format_uint n) = Ok n.
Proof.
  intros Hn. destruct (format_uint_chars n) as [Hc _]. pose proof (parse_format_uint n ltac:(lia)) as Hp.
  destruct (format_uint_head n) as (d & s & Hd & E). rewrite E in Hc, Hp |- *.
  assert (H : match String (digit d) s with
              | String "-" t => (true, t) | String "+" t => (false, t) | _ => (false, String (digit d) s)
              end = (false, String (digit d) s)).
  { apply (digit_cases d (fun c => match String c s with
              | String "-" t => (true, t) | String "+" t => (false, t) | _ => (false, String c s)
              end = (false, String c s))); [done|]. by repeat constructor. }
  unfold Atoi. rewrite H, Hc, Hp, bool_decide_false by done. cbn [negb orb]. rewrite Z.mul_1_l.
  by rewrite (proj2 (Z.leb_le _ _)), (proj2 (Z.ltb_lt _ _)) by lia.
Qed.
Lemma split_dotted o : o ≠ [] → Forall (fun n => 0 <= n < 2 ^ 63) o → mapM Atoi (split (dotted o) ".") = Ok o.
Proof.
  intros Ho Hn. unfold dotted. rewrite split_join.
  - clear Ho. induction Hn as [|n o Hn _ IH]; [done|]. rewrite fmap_cons.
    by apply mapM_cons_Ok; [apply Atoi_format_uint|].
  - by destruct o.
  - intros x (n & -> & _)%list_elem_of_fmap. by apply format_uint_chars.
Qed.
Lemma dotted_not_name o s :
  o ≠ [] → all_digits s = false → contains_char "." s = false → s ≠ "" → dotted o ≠ s.
Proof.
  intros Ho Hs Hd Hne E. destruct o as [|n o]; [done|]. unfold dotted, join in E. rewrite fmap_cons in E.
  destruct (format_uint_chars n) as [Hc _]. destruct (format_uint <$> o) as [|x l].
  - change (format_uint n = s) in E. by rewrite E, Hs in Hc.
  - change (format_uint n +:+ "." +:+ String.concat "." (x :: l) = s) in E. subst s.
    rewrite !contains_app in Hd. by rewrite orb_true_r in Hd.
Qed.
Lemma dotted_nonempty o : o ≠ [] → dotted o ≠ "".
Proof.
  intros Ho E. destruct o as [|n o]; [done|]. unfold dotted, join in E. rewrite fmap_cons in E.
  destruct (format_uint_head n) as (d & s & _ & Hn). rewrite Hn in E. by destruct (format_uint <$> o).
Qed.
Lemma parse_eku_spec es ekus unknown :
  Forall eku_ok es →
  ∃ ks, parse_eku (eku_text <$> es) ekus unknown = Ok (ekus ++ ks, unknown ++ omap eku_unknown es) ∧
        mapM (fun e => match OidFromExtKeyUsage e with
                       | Some v => Ok v
                       | None => Err (ErrText "cannot convert x509.KeyUsage to oid: oid representation not found")
                       end) ks = Ok (omap eku_known es).
Proof.
  intros Hes. revert ekus unknown. induction Hes as [|e es He _ IH]; intros ekus unknown.
  { exists []. cbn. by rewrite !app_nil_r. }
  destruct e as [| |o]; cbn [fmap list_fmap eku_text parse_eku].
  - destruct (IH (ekus ++ [ExtKeyUsageServerAuth]) unknown) as (ks & Hp & Hm).
    exists (ExtKeyUsageServerAuth :: ks). rewrite <- app_assoc in Hp. split; [done|]. by apply mapM_cons_Ok.
  - destruct (IH (ekus ++ [ExtKeyUsageClientAuth]) unknown) as (ks & Hp & Hm).
    exists (ExtKeyUsageClientAuth :: ks). rewrite <- app_assoc in Hp. split; [done|]. by apply mapM_cons_Ok.
  - destruct He as [Ho Hn]. destruct (IH ekus (unknown ++ [o])) as (ks & Hp & Hm). exists ks. split; [|done].
    rewrite (bool_decide_false (dotted o = "server")), (bool_decide_false (dotted o = "client")),
      (bool_decide_false (dotted o = "")) by (by apply dotted_nonempty || by apply dotted_not_name).
    rewrite split_dotted by done. unfold mbind, result_bind. destruct o as [|n o]; [done|].
    change (0 <? length (n :: o))%nat with true. cbv iota. etransitivity; [exact Hp|].
    by rewrite <- app_assoc.
Qed.

(** The extended key usages of a signing request: for any list of the names [server] and
    [client] and of object identifiers in dotted form, the extension holds the identifiers
    of the names and then the others, each in the order of the configuration; the text of an
    identifier parses back to its numbers. *)
Theorem AsnExtensionKeyUsages_spec cfg es :
  Forall eku_ok es → ExtensionKeyUsages cfg = eku_text <$> es →
  AsnExtensionKeyUsages cfg = Ok (omap eku_known es ++ omap eku_unknown es).
Proof.
  intros Hes Hc. unfold AsnExtensionKeyUsages, X509ExtKeyUsages. rewrite Hc.
  destruct (parse_eku_spec es [] [] Hes) as (ks & -> & Hm). unfold mbind, result_bind at 1.
  cbn [fst snd app]. by rewrite Hm.
Qed.

(** ** CRL distribution points *)

Lemma ascii_compare_spec a b : CompareSpec (a = b) (N_of_ascii a < N_of_ascii b)%N (N_of_ascii b < N_of_ascii a)%N (Ascii.compare a b).
Proof.
  unfold Ascii.compare. destruct (N.compare_spec (N_of_ascii a) (N_of_ascii b)) as [E| |]; constructor; try done.
  rewrite <- (ascii_N_embedding a), <- (ascii_N_embedding b). by f_equal.
Qed.
Lemma leb_refl s : String.leb s s = true.
Proof. by destruct (String.leb_total s s). Qed.
Lemma leb_trans s1 s2 s3 : String.leb s1 s2 = true → String.leb s2 s3 = true → String.leb s1 s3 = true.
Proof.
  unfold String.leb. revert s2 s3. induction s1 as [|a s1 IH]; intros s2 s3 H12 H23; [by destruct s3|].
  destruct s2 as [|b s2]; [done|]. destruct s3 as [|c s3]; [done|]. cbn in *.
  destruct (ascii_compare_spec a b) as [->| |], (ascii_compare_spec b c) as [->| |]; try done.
  - by apply (IH s2).
  - by destruct (ascii_compare_spec a c) as [->| |]; try lia.
  - by destruct (ascii_compare_spec a c) as [->| |]; try lia.
Qed.

Lemma compact_cons y z l :
  compact (y :: z :: l) = if bool_decide (y = z) then compact (z :: l) else y :: compact (z :: l).
Proof. done. Qed.
Lemma elem_of_compact x l : x ∈ compact l ↔ x ∈ l.
Proof.
  induction l as [|y l IH]; [done|]. destruct l as [|z l]; [done|]. rewrite compact_cons. case_bool_decide as E.
  - subst. rewrite IH. set_solver.
  - rewrite !elem_of_cons, IH. set_solver.
Qed.
Lemma compact_NoDup l :
  StronglySorted (fun a b => String.leb a b = true) l →
  NoDup (compact l) ∧ StronglySorted (fun a b => String.leb a b = true) (compact l).
Proof.
  induction 1 as [|y l Hs [IHn IHs] Hy]; [split; constructor|].
  destruct l as [|z l]; [split; [apply NoDup_singleton|by repeat constructor]|].
  rewrite compact_cons. case_bool_decide as E; [done|]. split.
  - constructor; [|done]. rewrite elem_of_compact. intros Hin. apply E.
    apply String.leb_antisym; [by inversion Hy|]. apply elem_of_cons in Hin as [->|Hin]; [apply leb_refl|].
    inversion Hs as [|? ? _ Hz]; subst. rewrite Forall_forall in Hz. by apply Hz.
  - constructor; [done|]. rewrite Forall_forall in Hy |- *. intros x Hx. by apply Hy, elem_of_compact.
Qed.

Section Laws.
Context `{HCred : CredEnv} `{HPem : !PemOut} `{HLib : !CertLib} `{HCreate : !CertCreate}.

Lemma ValidateCRL_spec l :
  match ValidateCRLDistributionPoints l with
  | Ok _ => ∀ url, url ∈ l → is_ok (url_ParseRequestURI url) = true
  | Err _ => ∃ url, url ∈ l ∧ is_ok (url_ParseRequestURI url) = false
  end.
Proof.
  induction l as [|crl l IH]; cbn [ValidateCRLDistributionPoints]; [set_solver|].
  destruct (url_ParseRequestURI crl) as [u|err] eqn:E.
  - destruct (ValidateCRLDistributionPoints l); [|set_solver].
    intros url [->|Hin]%elem_of_cons; [by rewrite E|by apply IH].
  - exists crl. rewrite E. set_solver.
Qed.

(** The CRL distribution points of a certificate are those of the configuration, sorted and
    each once; they are refused exactly when one of them is not a URI. *)
Theorem ToCRLDistributionPoints_spec cfg :
  match ToCRLDistributionPoints cfg with
  | Ok l => StronglySorted (fun a b => String.leb a b = true) l ∧ NoDup l ∧
            (∀ url, url ∈ l ↔ url ∈ CRLDistributionPoints cfg) ∧
            (∀ url, url ∈ l → is_ok (url_ParseRequestURI url) = true)
  | Err _ => ∃ url, url ∈ CRLDistributionPoints cfg ∧ is_ok (url_ParseRequestURI url) = false
  end.
Proof.
  unfold ToCRLDistributionPoints. pose proof (ValidateCRL_spec (CRLDistributionPoints cfg)) as H.
  destruct (ValidateCRLDistributionPoints _) as [u|e]; [|done]. cbn -[compact].
  set (l := insertion_sort String.ltb (CRLDistributionPoints cfg)).
  assert (Hl : ∀ url, url ∈ compact l ↔ url ∈ CRLDistributionPoints cfg).
  { intros url. rewrite elem_of_compact. unfold l. by rewrite insertion_sort_perm. }
  assert (Hs : StronglySorted (fun a b => String.leb a b = true) l).
  { apply Sorted_StronglySorted; [intros a b c; apply leb_trans|]. apply insertion_sort_Sorted; intros a b.
    - unfold String.ltb, String.leb. by destruct (a ?= b)%string.
    - unfold String.ltb, String.leb. rewrite (String.compare_antisym b a). by destruct (a ?= b)%string. }
  apply compact_NoDup in Hs as [Hn Hs]. split; [done|]. split; [done|]. split; [done|].
  intros url Hu%Hl. by apply H.
Qed.

(** ** The validity of an identity certificate *)

(** Within the range the caller asked for and the validity of every CA. *)
Definition in_ranges (s : Signer) (t : Z) : Prop :=
  s_validNotBefore s <= t <= s_validNotAfter s ∧
  ∀ ca, ca ∈ s_caCert s → ca_NotBefore ca <= t <= ca_NotAfter ca.

Lemma clamp_in cas r t :
  (foldl clamp r cas).1 <= t <= (foldl clamp r cas).2 ↔
  r.1 <= t <= r.2 ∧ ∀ ca, ca ∈ cas → ca_NotBefore ca <= t <= ca_NotAfter ca.
Proof.
  revert r. induction cas as [|ca cas IH]; intros r; cbn [foldl]; [set_solver|].
  rewrite IH. setoid_rewrite elem_of_cons. unfold clamp. cbn [fst snd]. rewrite Z.gtb_ltb.
  destruct (Z.ltb_spec r.1 (ca_NotBefore ca)), (Z.ltb_spec (ca_NotAfter ca) r.2); split;
    (intros [Hr Hc]; split; [|intros ca' [->|Hin]]) || (intros [Hr Hc]; split; [|intros ca' Hin]);
    try pose proof (Hc ca (or_introl eq_refl)); auto; try lia.
Qed.

Lemma window_in_ranges s now :
  match identity_window s now with
  | Ok w => in_ranges s now ∧ ∀ t, w.1 <= t <= w.2 ↔ in_ranges s t
  | Err _ => ¬ in_ranges s now
  end.
Proof.
  unfold identity_window, in_ranges.
  pose proof (λ t, clamp_in (s_caCert s) (s_validNotBefore s, s_validNotAfter s) t) as H. cbn [fst snd] in H.
  destruct (foldl clamp _ _) as [nb na]. cbn [fst snd] in H. rewrite !Z.gtb_ltb.
  destruct (Z.ltb_spec na nb); [rewrite <- H; lia|]. destruct (Z.ltb_spec now nb); [rewrite <- H; lia|].
  destruct (Z.ltb_spec na now); [rewrite <- H; lia|]. split; [apply H; lia|done].
Qed.
(** ** The chain that is returned *)

(** A block that was encoded is decoded, with what follows it; a certificate parses from its
    own DER. *)
Class PemLaws := {
  pem_Decode_Encode : ∀ t der rest, t ∈ ["CERTIFICATE"; "CERTIFICATE REQUEST"] →
    pem_Decode (pem_Encode t der +:+ rest) = (Some der, rest);
  x509_Parse_Raw : ∀ c, x509_ParseCertificates (cert_Raw c) = Ok [c] }.
Context `{HCredL : !CredEnvLaws} `{HPemL : !PemLaws}.

Definition blocks (ders : list string) : string :=
  foldr (fun der s => pem_Encode "CERTIFICATE" der +:+ s) "" ders.
Lemma CreatePemChain_blocks cas der : CreatePemChain cas der = blocks (der :: (cert_Raw <$> cas)).
Proof.
  unfold CreatePemChain. cbn [blocks foldr]. generalize (pem_Encode "CERTIFICATE" der).
  induction cas as [|ca cas IH]; intros buf; cbn; [by rewrite str_app_nil_r|]. by rewrite IH, str_app_assoc.
Qed.
Lemma parse_pem_blocks l f acc :
  l ≠ [] → (String.length (blocks l.*1) < f)%nat →
  Forall (fun p => x509_ParseCertificates p.1 = Ok [p.2]) l →
  parse_pem f (blocks l.*1) acc = Ok (acc ++ l.*2).
Proof.
  intros Hl Hf HF. revert f acc Hl Hf. induction HF as [|[der c] l Hd _ IH]; intros f acc Hl Hf; [done|].
  destruct f as [|f]; [lia|]. cbn [fmap list_fmap fst snd blocks foldr] in *. fold (blocks l.*1) in *.
  pose proof (pem_Decode_Encode "CERTIFICATE" der (blocks l.*1) ltac:(set_solver)) as Hdec.
  cbn [parse_pem]. rewrite Hdec, Hd. unfold mbind, result_bind.
  apply pem_Decode_rest in Hdec. destruct l as [|p l].
  - done.
  - destruct (Nat.eqb_spec (String.length (blocks (p :: l).*1)) 0) as [E|E].
    + exfalso. cbn [fmap list_fmap blocks foldr] in E. fold (blocks l.*1) in E.
      pose proof (pem_Decode_Encode "CERTIFICATE" p.1 (blocks l.*1) ltac:(set_solver)) as Hd'.
      apply pem_Decode_rest in Hd'. lia.
    + rewrite IH by (done || lia). by rewrite <- app_assoc.
Qed.

Lemma pem_chain_parses cas der leaf :
  x509_ParseCertificates der = Ok [leaf] →
  ParsePemCertificates (Some (CreatePemChain cas der)) = Ok (leaf :: cas).
Proof.
  intros Hd. rewrite CreatePemChain_blocks. unfold ParsePemCertificates. cbn [default id].
  assert (E : der :: (cert_Raw <$> cas) = ((der, leaf) :: ((λ c, (cert_Raw c, c)) <$> cas)).*1).
  { cbn. f_equal. rewrite <- list_fmap_compose. by apply list_fmap_ext. }
  rewrite E, parse_pem_blocks; [|done|lia|].
  - cbn. do 2 f_equal. rewrite <- list_fmap_compose. by rewrite list_fmap_id.
  - constructor; [done|]. apply Forall_fmap, Forall_true. intros c. cbn. apply x509_Parse_Raw.
Qed.
(** The chain in PEM that the signers return parses back to the new certificate followed by
    the certificates of the signer, in order. *)
Theorem PemChain_roundtrip cas der leaf :
  x509_ParseCertificates der = Ok [leaf] →
  ParsePemCertificates (Some (CreatePemChain cas der)) = Ok (leaf :: cas).
Proof. apply pem_chain_parses. Qed.

(** ** Identity certificates pass their own checks *)

(** The times of a certificate are whole seconds. *)
Definition second : Z := 10 ^ 9.
Definition truncate_second (t : Z) : Z := t / second * second.
(** What crypto/x509 parses of what it created; extended key usages that it knows are not
    found among the unknown ones. *)
Class CertLaws := {
  cert_fields : Cert → Certificate;
  cert_PublicKey : Cert → PublicKey;
  cert_seconds : ∀ c, truncate_second (ca_NotBefore c) = ca_NotBefore c ∧
                      truncate_second (ca_NotAfter c) = ca_NotAfter c;
  x509_Parse_Create : ∀ t parent pub key g der,
    t_ExtraExtensions t = [] → (∀ o, o ∈ t_UnknownExtKeyUsage t → o ∉ extKeyUsageOIDs.*2) →
    (x509_CreateCertificate t parent pub key g).1 = Ok der →
    ∃ c, x509_ParseCertificates der = Ok [c] ∧
      cert_fields c = {| ExtKeyUsage := t_ExtKeyUsage t; UnknownExtKeyUsage := t_UnknownExtKeyUsage t;
                         CommonName := pn_CommonName (t_Subject t) |} ∧
      cert_PublicKey c = pub ∧ ca_NotBefore c = truncate_second (t_NotBefore t) ∧
      ca_NotAfter c = truncate_second (t_NotAfter t);
  x509_Parse_CreateRequest : ∀ t key g der, (x509_CreateCertificateRequest t key g).1 = Ok der →
    ∃ r, x509_ParseCertificateRequest der = Ok r ∧
      pn_CommonName (req_Subject r) = pn_CommonName (ct_Subject t) ∧ req_PublicKey r = public_key key }.
Context `{HCertL : !CertLaws} `{HUuid : Uuids}.

Lemma truncate_le a b : a <= b → truncate_second a <= truncate_second b.
Proof. intros H. apply Z.mul_le_mono_nonneg_r; [done|]. by apply Z.div_le_mono. Qed.

Lemma GenerateIdentityCSR_spec cfg deviceID key g csr g' :
  GenerateIdentityCSR cfg deviceID key g = (Ok csr, g') →
  ∃ r, (∀ r', ParseAndCheckCertificateRequest csr = Ok r' → r' = r) ∧
       pn_CommonName (req_Subject r) = "uuid:" +:+ deviceID ∧ req_PublicKey r = public_key key.
Proof.
  unfold GenerateIdentityCSR, lift. intros (template & g1 & Ht & H)%run_bind_Ok.
  apply run_bind_Ok in H as (alg & g2 & _ & H). apply run_bind_Ok in H as (der & g3 & Hc & H).
  assert (HCN : pn_CommonName (ct_Subject template) = "uuid:" +:+ deviceID).
  { injection Ht as Ht _. unfold NewIdentityCSRTemplate in Ht.
    apply bind_Ok_inv in Ht as (? & _ & Ht). apply bind_Ok_inv in Ht as (? & _ & Ht).
    apply bind_Ok_inv in Ht as (? & _ & Ht). by injection Ht as <-. }
  apply (f_equal fst), x509_Parse_CreateRequest in Hc as (r & Hp & Hn & Hk). cbn in Hn. rewrite HCN in Hn.
  injection H as <- _. exists r. split; [|done]. intros r'. unfold ParseAndCheckCertificateRequest.
  pose proof (pem_Decode_Encode "CERTIFICATE REQUEST" der "" ltac:(set_solver)) as Hd.
  rewrite str_app_nil_r in Hd. rewrite Hd. cbn [fst]. rewrite Hp. unfold mbind, result_bind.
  by destruct (CheckSignature r); intros [= <-].
Qed.

Lemma identity_Sign_spec s csr g pem g' :
  identity_Sign s csr g = (Ok pem, g') →
  ∃ r der leaf w, ParseAndCheckCertificateRequest csr = Ok r ∧ (∃ now, identity_window s now = Ok w) ∧
    pem = CreatePemChain (s_caCert s) der ∧ x509_ParseCertificates der = Ok [leaf] ∧
    cert_fields leaf = {| ExtKeyUsage := [ExtKeyUsageClientAuth; ExtKeyUsageServerAuth];
                          UnknownExtKeyUsage := [ExtendedKeyUsage_IDENTITY_CERTIFICATE];
                          CommonName := pn_CommonName (req_Subject r) |} ∧
    cert_PublicKey leaf = req_PublicKey r ∧
    ca_NotBefore leaf = truncate_second w.1 ∧ ca_NotAfter leaf = truncate_second w.2.
Proof.
  unfold identity_Sign, lift. intros (now & g1 & _ & H)%run_bind_Ok.
  apply run_bind_Ok in H as (w & g2 & Hw & H). apply run_bind_Ok in H as (r & g3 & Hr & H).
  injection Hw as Hw ->. injection Hr as Hr ->. destruct (s_caCert s) as [|ca cas] eqn:Eca; [done|].
  apply run_bind_Ok in H as (sn & g4 & _ & H). apply run_bind_Ok in H as (der & g5 & Hc & H).
  apply (f_equal fst) in Hc. injection H as <- _.
  destruct (x509_Parse_Create (identity_template s w ca r sn) (Some ca) (req_PublicKey r) (s_caKey s) g4 der)
    as (leaf & Hp & Hf & Hk & Hb & Ha); [done| |done|].
  - intros o ->%list_elem_of_singleton. by apply (bool_decide_unpack _).
  - exists r, der, leaf, w. split; [done|]. split; [by exists now|].
    split; [by rewrite <- Eca|]. split; [done|]. by rewrite Hf, Hk, Hb, Ha.
Qed.

(** [Sign] creates the certificate [der] with the validity [w]. *)
Definition issues (s : Signer) (csr : string) (g : GenEnv) (w : Z * Z) (der : string) : Prop :=
  ∃ now g1 r ca rest sn g2 g3,
    time_Now g = (Ok now, g1) ∧ in_ranges s now ∧ ParseAndCheckCertificateRequest csr = Ok r ∧
    s_caCert s = ca :: rest ∧ rand_Int serialNumberLimit g1 = (Ok sn, g2) ∧
    x509_CreateCertificate (identity_template s w ca r sn) (Some ca) (req_PublicKey r) (s_caKey s) g2 = (Ok der, g3).
(** The validity is the intersection of all the ranges. *)
Definition is_window (s : Signer) (w : Z * Z) : Prop := ∀ t, w.1 <= t <= w.2 ↔ in_ranges s t.

Lemma is_window_unique s w w' t : is_window s w → is_window s w' → in_ranges s t → w = w'.
Proof.
  intros H H' Ht. assert (E : ∀ x, w.1 <= x <= w.2 ↔ w'.1 <= x <= w'.2) by (intros x; by rewrite (H x), (H' x)).
  apply H in Ht. pose proof (E t). pose proof (E w.1). pose proof (E w.2). pose proof (E w'.1). pose proof (E w'.2).
  destruct w as [a b], w' as [a' b']. cbn in *. clear H H' E. f_equal; lia.
Qed.
Lemma identity_Sign_issues s csr g pem :
  (identity_Sign s csr g).1 = Ok pem ↔
  ∃ w der, is_window s w ∧ issues s csr g w der ∧ pem = CreatePemChain (s_caCert s) der.
Proof.
  split.
  - destruct (identity_Sign s csr g) as [res g'] eqn:H. cbn. intros ->. unfold identity_Sign, lift in H.
    apply run_bind_Ok in H as (now & g1 & Hnow & H).
    apply run_bind_Ok in H as (w & g2 & Hw & H). apply run_bind_Ok in H as (r & g3 & Hr & H).
    injection Hw as Hw ->. injection Hr as Hr ->. destruct (s_caCert s) as [|ca cas] eqn:Eca; [done|].
    apply run_bind_Ok in H as (sn & g4 & Hsn & H). apply run_bind_Ok in H as (der & g5 & Hc & H). injection H as <- _.
    pose proof (window_in_ranges s now) as Hin. rewrite Hw in Hin. destruct Hin as [Hin Hwin].
    exists w, der. split; [exact Hwin|]. split; [|done].
    exists now, g3, r, ca, cas, sn, g4, g5. by split_and!.
  - intros (w & der & Hw & (now & g1 & r & ca & rest & sn & g2 & g3 & Ht & Hin & Hr & Hca & Hsn & Hc) & ->).
    pose proof (window_in_ranges s now) as Hwin. unfold identity_Sign, lift, mbind, ME_bind. rewrite Ht.
    destruct (identity_window s now) as [w'|e]; [|done]. destruct Hwin as [_ Hw'].
    rewrite (is_window_unique s w' w now Hw' Hw Hin). rewrite Hr. cbn. rewrite Hca, Hsn, Hc. done.
Qed.

(** C39 Signing an identity certificate succeeds exactly when the clock can be read, the
    present is within the range that the caller asked for and within the validity of every
    certificate of the signer, the signing request is accepted, the signer has a certificate,
    a serial number can be drawn and the certificate can be created.  What is returned then
    parses to the new certificate and the chain of the signer, and its validity is the
    intersection of all these ranges, cut to whole seconds. *)
Theorem identity_Sign_validity s csr g :
  (is_ok (identity_Sign s csr g).1 = true ↔ ∃ w der, is_window s w ∧ issues s csr g w der) ∧
  ∀ pem, (identity_Sign s csr g).1 = Ok pem →
    ∃ leaf w, ParsePemCertificates (Some pem) = Ok (leaf :: s_caCert s) ∧ is_window s w ∧
      ca_NotBefore leaf = truncate_second w.1 ∧ ca_NotAfter leaf = truncate_second w.2.
Proof.
  split.
  - split.
    + destruct (identity_Sign s csr g).1 as [pem|e] eqn:E; [|done]. intros _.
      apply identity_Sign_issues in E as (w & der & Hw & Hi & _). by exists w, der.
    + intros (w & der & Hw & Hi). rewrite (proj2 (identity_Sign_issues s csr g (CreatePemChain (s_caCert s) der))); [done|].
      by exists w, der.
  - intros pem (w & der & Hw & (now & g1 & r & ca & rest & sn & g2 & g3 & _ & _ & _ & _ & _ & Hc) & ->)%identity_Sign_issues.
    apply (f_equal fst) in Hc.
    destruct (x509_Parse_Create (identity_template s w ca r sn) (Some ca) (req_PublicKey r) (s_caKey s) g2 der)
      as (leaf & Hp & _ & _ & Hb & Ha); [done| |done|].
    { intros o ->%list_elem_of_singleton. by apply (bool_decide_unpack _). }
    exists leaf, w. split; [by apply pem_chain_parses|]. by split_and!.
Qed.

(** The fields of an identity certificate for a device. *)
Definition identity_fields (deviceID : string) : Certificate :=
  {| ExtKeyUsage := [ExtKeyUsageClientAuth; ExtKeyUsageServerAuth];
     UnknownExtKeyUsage := [ExtendedKeyUsage_IDENTITY_CERTIFICATE]; CommonName := "uuid:" +:+ deviceID |}.
Lemma identity_fields_valid deviceID id :
  contains_char ":" deviceID = false → uuid_Parse deviceID = Ok id →
  VerifyIdentityCertificate (identity_fields deviceID) = Ok tt ∧
  GetDeviceIDFromIdentityCertificate (identity_fields deviceID) = Ok id.
Proof.
  intros Hid Hu. assert (HgetID : getUUIDFromSubjectCommonName (identity_fields deviceID) = Ok id).
  { apply getUUID_ok. exists "uuid", deviceID. cbn [identity_fields CommonName]. split; [|done].
    unfold split. change ("uuid:" +:+ deviceID) with ("uuid" +:+ String ":" deviceID).
    rewrite split_aux_sep by done. by rewrite split_aux_no_sep. }
  unfold VerifyIdentityCertificate, GetDeviceIDFromIdentityCertificate. by rewrite HgetID.
Qed.

(** What [GenerateIdentityCert] returns. *)
Lemma identity_cert_valid cfg deviceID id key signerCA signerKey g pem :
  contains_char ":" deviceID = false → uuid_Parse deviceID = Ok id →
  (GenerateIdentityCert cfg deviceID key signerCA signerKey g).1 = Ok pem →
  ∃ leaf, ParsePemCertificates (Some pem) = Ok (leaf :: signerCA) ∧
    VerifyIdentityCertificate (cert_fields leaf) = Ok tt ∧
    GetDeviceIDFromIdentityCertificate (cert_fields leaf) = Ok id ∧
    cert_PublicKey leaf = public_key key ∧
    ∀ ca, ca ∈ signerCA → ca_NotBefore ca <= ca_NotBefore leaf ∧ ca_NotAfter leaf <= ca_NotAfter ca.
Proof.
  intros Hid Hu. destruct (GenerateIdentityCert _ _ _ _ _ _) as [res g'] eqn:H. intros [= ->].
  revert H. unfold GenerateIdentityCert, lift at 1.
  intros (csr & g1 & Hcsr & H)%run_bind_Ok. apply run_bind_Ok in H as (nb & g2 & _ & H).
  apply run_bind_Ok in H as (crl & g3 & _ & H). apply run_bind_Ok in H as (s & g4 & Hs & H).
  apply GenerateIdentityCSR_spec in Hcsr as (r & Hr & HCN & Hkey).
  apply identity_Sign_spec in H as (r' & der & leaf & w & Hr' & [now Hw] & -> & Hp & Hf & Hk & Hb & Ha).
  apply Hr in Hr'. subst r'. unfold lift in Hs. injection Hs as Hs _. unfold NewOCFIdentityCertificate in Hs.
  apply bind_Ok_inv in Hs as (u & _ & Hs). injection Hs as <-. cbn [s_caCert].
  apply (pem_chain_parses signerCA) in Hp.
  destruct (identity_fields_valid deviceID id Hid Hu) as [Hver Hget]. rewrite HCN in Hf.
  exists leaf. split; [done|]. rewrite Hf. split; [exact Hver|]. split; [exact Hget|]. split; [by rewrite Hk|].
  intros ca Hca. pose proof (window_in_ranges {| s_caCert := signerCA; s_caKey := signerKey;
      s_validNotBefore := nb; s_validNotAfter := nb + ValidFor cfg; s_crlDistributionPoints := crl |} now) as Hspec.
  rewrite Hw in Hspec. destruct Hspec as [Hnow Hin]. apply Hin in Hnow as Hle.
  destruct (proj1 (Hin w.1) ltac:(lia)) as [_ H1]. destruct (proj1 (Hin w.2) ltac:(lia)) as [_ H2].
  specialize (H1 ca Hca). specialize (H2 ca Hca). destruct (cert_seconds ca) as [Eb Ee].
  rewrite Hb, Ha, <- Eb, <- Ee. split; apply truncate_le; lia.
Qed.
(** C21 A generated identity certificate is one: for a device ID that is a UUID (and has no
    colon), the PEM that [GenerateIdentityCert] returns parses to a chain of the new certificate and the certificates of the signer; the new
    certificate passes [VerifyIdentityCertificate], the device ID read from it is the one it
    was generated for, it holds the public key of the private key, and its validity lies
    within that of every certificate of the signer. *)
Theorem GenerateIdentityCert_valid cfg deviceID id key signerCA signerKey g pem :
  contains_char ":" deviceID = false → uuid_Parse deviceID = Ok id →
  (GenerateIdentityCert cfg deviceID key signerCA signerKey g).1 = Ok pem →
  ∃ leaf, ParsePemCertificates (Some pem) = Ok (leaf :: signerCA) ∧
    VerifyIdentityCertificate (cert_fields leaf) = Ok tt ∧
    GetDeviceIDFromIdentityCertificate (cert_fields leaf) = Ok id ∧
    cert_PublicKey leaf = public_key key ∧
    ∀ ca, ca ∈ signerCA → ca_NotBefore ca <= ca_NotBefore leaf ∧ ca_NotAfter leaf <= ca_NotAfter ca.
Proof. apply identity_cert_valid. Qed.
End Laws.

(** ** Instances and witnesses *)

Module Examples.

(** A block: every character after an [x], and a stop. *)
Fixpoint block (s : string) : string :=
  match s with "" => "." | String c s => String "x" (String c (block s)) end.
Fixpoint unblock (s : string) : option (string * string) :=
  match s with
  | String "x" (String c s) => p ← unblock s; Some (String c p.1, p.2)
  | String "." s => Some ("", s)
  | _ => None
  end.
Lemma unblock_block s rest : unblock (block s +:+ rest) = Some (s, rest).
Proof. induction s as [|c s IH]; [done|]. cbn [block]. rewrite !str_app_cons. cbn [unblock]. by rewrite IH. Qed.
Lemma unblock_rest n s der rest :
  (String.length s <= n)%nat → unblock s = Some (der, rest) → (String.length rest < String.length s)%nat.
Proof.
  revert s der rest. induction n as [|n IH]; intros s der rest Hn E; [by destruct s; [|cbn in Hn; lia]|].
  destruct s as [|[[] [] [] [] [] [] [] []] s]; try done.
  - cbn in *. simplify_eq. lia.
  - destruct s as [|c s]; [done|]. cbn in *. destruct (unblock s) as [[d r]|] eqn:Eu; [|done].
    cbn in E. simplify_eq. apply IH in Eu; lia.
Qed.

Definition ExCert : Type := list Z * list (list Z) * string * Z * Z * Z.
#[local] Instance ex_gen_Cred : CredEnv := {|
  Cert := ExCert;
  pem_Decode data := match unblock data with Some (der, rest) => (Some der, rest) | None => (None, data) end;
  x509_ParseCertificates der :=
    match of_text der with Some c => Ok [c] | None => Err (ErrText "malformed certificate") end;
  cred_order m := map_to_list m |}.
#[local] Instance ex_gen_Cred_laws : CredEnvLaws.
Proof.
  split; [done|]. intros data der rest. cbn. destruct (unblock data) as [[d r]|] eqn:E; [|done].
  intros [= -> ->]. by eapply unblock_rest.
Qed.
#[local] Instance ex_gen_Pem : PemOut := {|
  pem_Encode t s := block s; cert_Raw c := to_text (A := ExCert) c; uuid_MarshalBinary u := u |}.
#[local] Instance ex_gen_PemLaws : PemLaws.
Proof.
  split; [intros t der rest _|intros c]; cbn; [by rewrite unblock_block|by rewrite of_to_text].
Qed.
Definition ExReq : Type := string * Z.
(** The clock stands at one second and a half; keys are numbers, serial numbers count. *)
#[local] Instance ex_gen_Lib : CertLib := {|
  GenEnv := Z; PrivateKey := Z; PublicKey := Z; public_key k := k;
  ecdsa_GenerateKey c g := (Ok g, g + 1);
  rand_Int limit g := (Ok g, g + 1);
  time_Now g := (Ok 1500000000, g);
  time_Parse s := Err (ErrText "no time");
  net_ParseIP s := None;
  url_ParseRequestURI s := if has_prefix "http" s then Ok tt else Err (ErrText "invalid URI for request");
  asn1_Marshal_bool b := Ok ""; asn1_Marshal_bits b := Ok ""; asn1_Marshal_oids o := Ok "";
  CertificateRequest := ExReq;
  req_Subject r := name_of r.1; req_PublicKeyAlgorithm r := 3; req_PublicKey r := r.2;
  req_DNSNames r := []; req_IPAddresses r := []; req_URIs r := []; req_EmailAddresses r := [];
  req_Extensions r := [];
  x509_CreateCertificateRequest t k g := (Ok (to_text (pn_CommonName (ct_Subject t), k)), g);
  x509_ParseCertificateRequest der :=
    match of_text der with Some r => Ok r | None => Err (ErrText "malformed request") end;
  CheckSignature r := Ok tt;
  ca_NotBefore c := let '(_, _, _, b, _, _) := c : ExCert in truncate_second b;
  ca_NotAfter c := let '(_, _, _, _, e, _) := c : ExCert in truncate_second e;
  ca_SignatureAlgorithm c := x509_ECDSAWithSHA256 |}.
#[local] Instance ex_gen_Create : CertCreate := {|
  x509_CreateCertificate t parent pub key g :=
    (Ok (to_text (t_ExtKeyUsage t, t_UnknownExtKeyUsage t, pn_CommonName (t_Subject t),
                  t_NotBefore t, t_NotAfter t, pub)), g) |}.
Lemma truncate_twice t : truncate_second (truncate_second t) = truncate_second t.
Proof. unfold truncate_second. by rewrite Z.div_mul. Qed.
#[local] Instance ex_gen_CertLaws : CertLaws.
Proof.
  refine {| cert_fields (c : Cert) := let '(e, u, n, _, _, _) := c : ExCert in
              {| ExtKeyUsage := e; UnknownExtKeyUsage := u; CommonName := n |};
            cert_PublicKey (c : Cert) := let '(_, _, _, _, _, k) := c : ExCert in k |}.
  - intros [[[[[e u] n] b] a] k]. cbn. by rewrite !truncate_twice.
  - intros t parent pub key g der _ _ [= <-]. eexists. split; [cbn; by rewrite of_to_text|]. done.
  - intros t key g der [= <-]. eexists. split; [cbn; by rewrite of_to_text|]. done.
Defined.
#[local] Instance ex_gen_Uuids : Uuids := {| uuid_Parse s := Ok s; uuid_NewSHA1 s := s |}.

Definition ex_ca : Cert := ([], [], "ca", 0, 10 * second, 7) : ExCert.
Definition ex_cfg : Configuration :=
  {| sub_Country := []; sub_Organization := []; sub_OrganizationalUnit := []; sub_Locality := [];
     sub_CommonName := ""; sub_Province := []; sub_StreetAddress := []; sub_PostalCode := [];
     sub_SerialNumber := ""; san_DNSNames := []; san_IPAddresses := []; bc_Ignore := false; bc_MaxPathLen := 0;
     ValidFrom := "now"; ValidFor := 3600 * second; cfg_NotBefore := ""; cfg_NotAfter := "";
     KeyUsages := ["keyAgreement"; "decipherOnly"]; ExtensionKeyUsages := ["1.3.6.1.4.1.44924.1.6"; "client"];
     EllipticCurve := ""; SignatureAlgorithm := ""; CRLDistributionPoints := ["http://b"; "http://a"; "http://b"] |}.

Example ex_key_usages : AsnKeyUsages ex_cfg = Ok ([8; 128], 9).
Proof. done. Qed.
Example ex_crl : ToCRLDistributionPoints ex_cfg = Ok ["http://a"; "http://b"].
Proof. by vm_compute. Qed.
(** The window ends with the certificate of the signer. *)
Example ex_window :
  identity_window {| s_caCert := [ex_ca]; s_caKey := 7 : PrivateKey; s_validNotBefore := 1500000000;
    s_validNotAfter := 3600 * second; s_crlDistributionPoints := [] |} 1500000000 = Ok (1500000000, 10 * second).
Proof. done. Qed.

Lemma AsnExtensionKeyUsages_spec_witness :
  AsnExtensionKeyUsages ex_cfg =
    Ok [[1; 3; 6; 1; 5; 5; 7; 3; 2]; [1; 3; 6; 1; 4; 1; 44924; 1; 6]].
Proof.
  apply (AsnExtensionKeyUsages_spec ex_cfg [EkuOid [1; 3; 6; 1; 4; 1; 44924; 1; 6]; EkuClient]).
  - repeat constructor; done.
  - by vm_compute.
Defined.
Lemma PemChain_roundtrip_witness :
  ParsePemCertificates (Some (CreatePemChain [ex_ca] (to_text (ex_ca : ExCert)))) = Ok [ex_ca; ex_ca].
Proof. apply (PemChain_roundtrip [ex_ca] (to_text (ex_ca : ExCert)) ex_ca). by vm_compute. Defined.

Definition ex_key : PrivateKey := 42.
Definition ex_ca_key : PrivateKey := 7.
Definition ex_random : GenEnv := 0.
(** A request signed one and a half seconds after the start of time: the certificate starts
    with the second and ends with the certificate of the signer. *)
Definition ex_signer : Signer :=
  {| s_caCert := [ex_ca]; s_caKey := ex_ca_key; s_validNotBefore := 1500000000;
     s_validNotAfter := 3600 * second; s_crlDistributionPoints := [] |}.
Definition ex_csr : string :=
  match (GenerateIdentityCSR ex_cfg "dev" ex_key ex_random).1 with Ok csr => csr | Err _ => "" end.
Definition ex_signed : string :=
  match (identity_Sign ex_signer ex_csr ex_random).1 with Ok pem => pem | Err _ => "" end.
Lemma identity_Sign_validity_witness :
  ∃ leaf w, ParsePemCertificates (Some ex_signed) = Ok [leaf; ex_ca] ∧ is_window ex_signer w ∧
    ca_NotBefore leaf = truncate_second w.1 ∧ ca_NotAfter leaf = truncate_second w.2.
Proof.
  apply (proj2 (identity_Sign_validity ex_signer ex_csr ex_random)). by vm_compute.
Defined.

Definition ex_pem : string :=
  match (GenerateIdentityCert ex_cfg "dev" ex_key [ex_ca] ex_ca_key ex_random).1 with Ok pem => pem | Err _ => "" end.
Lemma GenerateIdentityCert_valid_witness :
  ∃ leaf, ParsePemCertificates (Some ex_pem) = Ok (leaf :: [ex_ca]) ∧
    VerifyIdentityCertificate (cert_fields leaf) = Ok tt ∧
    GetDeviceIDFromIdentityCertificate (cert_fields leaf) = Ok "dev" ∧
    cert_PublicKey leaf = public_key ex_key ∧
    ∀ ca, ca ∈ [ex_ca] → ca_NotBefore ca <= ca_NotBefore leaf ∧ ca_NotAfter leaf <= ca_NotAfter ca.
Proof.
  apply (GenerateIdentityCert_valid ex_cfg "dev" "dev" ex_key [ex_ca] ex_ca_key ex_random ex_pem); by vm_compute.
Defined.
End Examples.
