(* ===== verification/Options.v ===== *)
(** * Options: the options of the SDK

    [src/client/options.go]: what a caller may pass to a command, and the option records that
    the commands resolve them to; with the options of [Own] of [src/client/core/ownDevice.go].

    The methods of the option structs are definitions of their own.  An option interface of
    the code is a type with one constructor for every struct that implements it, and its
    [applyOn...] dispatches to their methods.  Codecs and
    the functions that read the details of a device are abstract here; a [nil] callback is
    [None]. *)

From S2P Require Export ClientCommands Discovery.

(** ** The options of [Own] *)

Section Own.
Context `{HCore : CoreEnv}.
Definition core_OwnOption : Type := ownCfg → ownCfg.
Definition WithActionDuringOwn (f : option ActionDuring) : core_OwnOption := fun o =>
  {| psk := psk o; sign := sign o; actionDuringOwn := f; actionAfterOwn := actionAfterOwn o |}.
Definition WithActionAfterOwn (f : option (nat → CEnv → result unit * CEnv)) : core_OwnOption := fun o =>
  {| psk := psk o; sign := sign o; actionDuringOwn := actionDuringOwn o; actionAfterOwn := f |}.
Definition WithPresharedKey (k : string) : core_OwnOption := fun o =>
  {| psk := k; sign := sign o; actionDuringOwn := actionDuringOwn o; actionAfterOwn := actionAfterOwn o |}.
Definition WithSetupCertificates (s : option (string → CEnv → result string * CEnv)) : core_OwnOption := fun o =>
  {| psk := psk o; sign := s; actionDuringOwn := actionDuringOwn o; actionAfterOwn := actionAfterOwn o |}.
(** The configuration that [Own] starts from, and its loop over the options. *)
Definition own_cfg (options : list core_OwnOption) : ownCfg :=
  foldl (fun cfg opt => opt cfg)
    {| psk := ""; sign := None; actionDuringOwn := Some SetDoxmDeviceID; actionAfterOwn := None |} options.
End Own.

Section Options.
Context {C G : Type}.
Context `{HCore : CoreEnv}.

(** ** The structs of the options *)

Definition UseDeviceIDInQueryOption : Type := bool.
Definition ResourceETagOption : Type := option string.
Definition ResourceInterfaceOption : Type := string.
Definition ResourceQueryOption : Type := string.
Definition DiscoveryConfigurationOption : Type := DiscoveryConfiguration.
Definition GetDetailsOption : Type := G.
Definition ResourceTypesOption : Type := list string.
Definition CodecOption : Type := C.
Definition OTMType : Type := Z.
Definition OTMType_Manufacturer : OTMType := 0.
Definition OTMType_JustWorks : OTMType := 1.

(** [getOptions], [updateOptions], [createOptions] and [deleteOptions] have the same fields. *)
Record getOptions := {
  go_opts : list OptionFunc; go_codec : C; go_discoveryConfiguration : DiscoveryConfiguration;
  go_linkNotFoundCallback : LinkNotFoundCallback }.
Definition updateOptions : Type := getOptions.
Definition createOptions : Type := getOptions.
Definition deleteOptions : Type := getOptions.
Record observeOptions := {
  ob_codec : C; ob_opts : list OptionFunc; ob_resourceInterface : string;
  ob_discoveryConfiguration : DiscoveryConfiguration; ob_linkNotFoundCallback : LinkNotFoundCallback }.
Record getDevicesOptions := {
  gd_resourceTypes : list string; gd_getDetails : G;
  gd_discoveryConfiguration : DiscoveryConfiguration; gd_useDeviceID : bool }.
Record getDeviceOptions := {
  dv_getDetails : G; dv_discoveryConfiguration : DiscoveryConfiguration; dv_opts : list OptionFunc }.
Record getDeviceByIPOptions := { ip_getDetails : G; ip_opts : list OptionFunc }.
Record getDevicesWithHandlerOptions := { wh_discoveryConfiguration : DiscoveryConfiguration }.
Record observeDevicesOptions := { od_discoveryConfiguration : DiscoveryConfiguration }.
Record ownOptions := {
  ow_opts : list core_OwnOption; ow_otmTypes : list OTMType;
  ow_discoveryConfiguration : DiscoveryConfiguration }.
Record commonCommandOptions := {
  cc_discoveryConfiguration : DiscoveryConfiguration; cc_opts : list OptionFunc }.

(** [opts.opts = append(opts.opts, o...)], [opts.codec = c] and so on. *)
Definition go_append (l : list OptionFunc) (o : getOptions) : getOptions :=
  {| go_opts := go_opts o ++ l; go_codec := go_codec o;
     go_discoveryConfiguration := go_discoveryConfiguration o;
     go_linkNotFoundCallback := go_linkNotFoundCallback o |}.
Definition go_set_codec (c : C) (o : getOptions) : getOptions :=
  {| go_opts := go_opts o; go_codec := c; go_discoveryConfiguration := go_discoveryConfiguration o;
     go_linkNotFoundCallback := go_linkNotFoundCallback o |}.
Definition go_set_discovery (d : DiscoveryConfiguration) (o : getOptions) : getOptions :=
  {| go_opts := go_opts o; go_codec := go_codec o; go_discoveryConfiguration := d;
     go_linkNotFoundCallback := go_linkNotFoundCallback o |}.
Definition go_set_callback (cb : LinkNotFoundCallback) (o : getOptions) : getOptions :=
  {| go_opts := go_opts o; go_codec := go_codec o;
     go_discoveryConfiguration := go_discoveryConfiguration o; go_linkNotFoundCallback := cb |}.
(** [if s != "" { opts.opts = append(opts.opts, f(s)) }]. *)
Definition nonempty (s : string) (f : string → OptionFunc) : list OptionFunc :=
  if bool_decide (s = "") then [] else [f s].

(** ** The methods *)

Definition UseDeviceIDInQueryOption_applyOnGetDevices (r : UseDeviceIDInQueryOption) (opts : getDevicesOptions) : getDevicesOptions :=
  {| gd_resourceTypes := gd_resourceTypes opts; gd_getDetails := gd_getDetails opts;
     gd_discoveryConfiguration := gd_discoveryConfiguration opts; gd_useDeviceID := r |}.
Definition ResourceETagOption_applyOnGet (r : ResourceETagOption) (opts : getOptions) : getOptions :=
  match r with Some etag => go_append [WithETag etag] opts | None => opts end.

Definition ResourceInterfaceOption_applyOnGet (r : ResourceInterfaceOption) (opts : getOptions) : getOptions :=
  go_append (nonempty r WithInterface) opts.
Definition ResourceInterfaceOption_applyOnObserve (r : ResourceInterfaceOption) (opts : observeOptions) : observeOptions :=
  if bool_decide (r = "") then opts
  else {| ob_codec := ob_codec opts; ob_opts := ob_opts opts ++ [WithInterface r]; ob_resourceInterface := r;
          ob_discoveryConfiguration := ob_discoveryConfiguration opts;
          ob_linkNotFoundCallback := ob_linkNotFoundCallback opts |}.
Definition ResourceInterfaceOption_applyOnUpdate (r : ResourceInterfaceOption) (opts : updateOptions) : updateOptions :=
  go_append (nonempty r WithInterface) opts.
Definition ResourceInterfaceOption_applyOnDelete (r : ResourceInterfaceOption) (opts : deleteOptions) : deleteOptions :=
  go_append (nonempty r WithInterface) opts.

Definition ResourceQueryOption_applyOnGet (r : ResourceQueryOption) (opts : getOptions) : getOptions :=
  go_append (nonempty r WithQuery) opts.
Definition ResourceQueryOption_applyOnObserve (r : ResourceQueryOption) (opts : observeOptions) : observeOptions :=
  {| ob_codec := ob_codec opts; ob_opts := ob_opts opts ++ nonempty r WithQuery;
     ob_resourceInterface := ob_resourceInterface opts;
     ob_discoveryConfiguration := ob_discoveryConfiguration opts;
     ob_linkNotFoundCallback := ob_linkNotFoundCallback opts |}.
Definition ResourceQueryOption_applyOnUpdate (r : ResourceQueryOption) (opts : updateOptions) : updateOptions :=
  go_append (nonempty r WithQuery) opts.
Definition ResourceQueryOption_applyOnCreate (r : ResourceQueryOption) (opts : createOptions) : createOptions :=
  go_append (nonempty r WithQuery) opts.
Definition ResourceQueryOption_applyOnDelete (r : ResourceQueryOption) (opts : deleteOptions) : deleteOptions :=
  go_append (nonempty r WithQuery) opts.
Definition ResourceQueryOption_applyOnCommonCommand (r : ResourceQueryOption) (opts : commonCommandOptions) : commonCommandOptions :=
  {| cc_discoveryConfiguration := cc_discoveryConfiguration opts; cc_opts := cc_opts opts ++ nonempty r WithQuery |}.
Definition ResourceQueryOption_applyOnGetDevice (r : ResourceQueryOption) (opts : getDeviceOptions) : getDeviceOptions :=
  {| dv_getDetails := dv_getDetails opts; dv_discoveryConfiguration := dv_discoveryConfiguration opts;
     dv_opts := dv_opts opts ++ nonempty r WithQuery |}.
Definition ResourceQueryOption_applyOnGetDeviceByIP (r : ResourceQueryOption) (opts : getDeviceByIPOptions) : getDeviceByIPOptions :=
  {| ip_getDetails := ip_getDetails opts; ip_opts := ip_opts opts ++ nonempty r WithQuery |}.

Definition DiscoveryConfigurationOption_applyOnGetDevice (r : DiscoveryConfigurationOption) (opts : getDeviceOptions) : getDeviceOptions :=
  {| dv_getDetails := dv_getDetails opts; dv_discoveryConfiguration := r; dv_opts := dv_opts opts |}.
Definition DiscoveryConfigurationOption_applyOnGetDevices (r : DiscoveryConfigurationOption) (opts : getDevicesOptions) : getDevicesOptions :=
  {| gd_resourceTypes := gd_resourceTypes opts; gd_getDetails := gd_getDetails opts;
     gd_discoveryConfiguration := r; gd_useDeviceID := gd_useDeviceID opts |}.
Definition DiscoveryConfigurationOption_applyOnGetGetDevicesWithHandler (r : DiscoveryConfigurationOption)
    (opts : getDevicesWithHandlerOptions) : getDevicesWithHandlerOptions := {| wh_discoveryConfiguration := r |}.
Definition DiscoveryConfigurationOption_applyOnObserveDevices (r : DiscoveryConfigurationOption)
    (opts : observeDevicesOptions) : observeDevicesOptions := {| od_discoveryConfiguration := r |}.
Definition DiscoveryConfigurationOption_applyOnGet (r : DiscoveryConfigurationOption) (opts : getOptions) : getOptions :=
  go_set_discovery r opts.
Definition DiscoveryConfigurationOption_applyOnUpdate (r : DiscoveryConfigurationOption) (opts : updateOptions) : updateOptions :=
  go_set_discovery r opts.
Definition DiscoveryConfigurationOption_applyOnOwn (r : DiscoveryConfigurationOption) (opts : ownOptions) : ownOptions :=
  {| ow_opts := ow_opts opts; ow_otmTypes := ow_otmTypes opts; ow_discoveryConfiguration := r |}.
Definition DiscoveryConfigurationOption_applyOnCommonCommand (r : DiscoveryConfigurationOption) (opts : commonCommandOptions) : commonCommandOptions :=
  {| cc_discoveryConfiguration := r; cc_opts := cc_opts opts |}.
Definition DiscoveryConfigurationOption_applyOnObserve (r : DiscoveryConfigurationOption) (opts : observeOptions) : observeOptions :=
  {| ob_codec := ob_codec opts; ob_opts := ob_opts opts; ob_resourceInterface := ob_resourceInterface opts;
     ob_discoveryConfiguration := r; ob_linkNotFoundCallback := ob_linkNotFoundCallback opts |}.
Definition DiscoveryConfigurationOption_applyOnCreate (r : DiscoveryConfigurationOption) (opts : createOptions) : createOptions :=
  go_set_discovery r opts.
Definition DiscoveryConfigurationOption_applyOnDelete (r : DiscoveryConfigurationOption) (opts : deleteOptions) : deleteOptions :=
  go_set_discovery r opts.

Definition LinkNotFoundCallback_applyOnCreate (r : LinkNotFoundCallback) (opts : createOptions) : createOptions :=
  go_set_callback r opts.
Definition LinkNotFoundCallback_applyOnGet (r : LinkNotFoundCallback) (opts : getOptions) : getOptions :=
  go_set_callback r opts.
Definition LinkNotFoundCallback_applyOnUpdate (r : LinkNotFoundCallback) (opts : updateOptions) : updateOptions :=
  go_set_callback r opts.
Definition LinkNotFoundCallback_applyOnObserve (r : LinkNotFoundCallback) (opts : observeOptions) : observeOptions :=
  {| ob_codec := ob_codec opts; ob_opts := ob_opts opts; ob_resourceInterface := ob_resourceInterface opts;
     ob_discoveryConfiguration := ob_discoveryConfiguration opts; ob_linkNotFoundCallback := r |}.
Definition LinkNotFoundCallback_applyOnDelete (r : LinkNotFoundCallback) (opts : deleteOptions) : deleteOptions :=
  go_set_callback r opts.

Definition GetDetailsOption_applyOnGetDevices (r : GetDetailsOption) (opts : getDevicesOptions) : getDevicesOptions :=
  {| gd_resourceTypes := gd_resourceTypes opts; gd_getDetails := r;
     gd_discoveryConfiguration := gd_discoveryConfiguration opts; gd_useDeviceID := gd_useDeviceID opts |}.
Definition GetDetailsOption_applyOnGetDevice (r : GetDetailsOption) (opts : getDeviceOptions) : getDeviceOptions :=
  {| dv_getDetails := r; dv_discoveryConfiguration := dv_discoveryConfiguration opts; dv_opts := dv_opts opts |}.
Definition GetDetailsOption_applyOnGetDeviceByIP (r : GetDetailsOption) (opts : getDeviceByIPOptions) : getDeviceByIPOptions :=
  {| ip_getDetails := r; ip_opts := ip_opts opts |}.

Definition ResourceTypesOption_applyOnGetDevices (r : ResourceTypesOption) (opts : getDevicesOptions) : getDevicesOptions :=
  {| gd_resourceTypes := r; gd_getDetails := gd_getDetails opts;
     gd_discoveryConfiguration := gd_discoveryConfiguration opts; gd_useDeviceID := gd_useDeviceID opts |}.
Definition ResourceTypesOption_applyOnGet (r : ResourceTypesOption) (opts : getOptions) : getOptions :=
  foldl (fun opts r => go_append [WithResourceType r] opts) opts r.

Definition CodecOption_applyOnCreate (r : CodecOption) (opts : createOptions) : createOptions := go_set_codec r opts.
Definition CodecOption_applyOnDelete (r : CodecOption) (opts : deleteOptions) : deleteOptions := go_set_codec r opts.
Definition CodecOption_applyOnGet (r : CodecOption) (opts : getOptions) : getOptions := go_set_codec r opts.
Definition CodecOption_applyOnUpdate (r : CodecOption) (opts : updateOptions) : updateOptions := go_set_codec r opts.
Definition CodecOption_applyOnObserve (r : CodecOption) (opts : observeOptions) : observeOptions :=
  {| ob_codec := r; ob_opts := ob_opts opts; ob_resourceInterface := ob_resourceInterface opts;
     ob_discoveryConfiguration := ob_discoveryConfiguration opts;
     ob_linkNotFoundCallback := ob_linkNotFoundCallback opts |}.

Definition ow_append (c : core_OwnOption) (opts : ownOptions) : ownOptions :=
  {| ow_opts := ow_opts opts ++ [c]; ow_otmTypes := ow_otmTypes opts;
     ow_discoveryConfiguration := ow_discoveryConfiguration opts |}.
Definition presharedKeyOption_applyOnOwn (presharedKey : string) (opts : ownOptions) : ownOptions :=
  ow_append (WithPresharedKey presharedKey) opts.
Definition actionDuringOwnOption_applyOnOwn (f : option ActionDuring) (opts : ownOptions) : ownOptions :=
  ow_append (WithActionDuringOwn f) opts.
Definition actionAfterOwnOption_applyOnOwn (f : option (nat → CEnv → result unit * CEnv)) (opts : ownOptions) : ownOptions :=
  ow_append (WithActionAfterOwn f) opts.
Definition otmOption_applyOnOwn (otmTypes : list OTMType) (opts : ownOptions) : ownOptions :=
  {| ow_opts := ow_opts opts; ow_otmTypes := otmTypes; ow_discoveryConfiguration := ow_discoveryConfiguration opts |}.

(** The resolved options of a command are themselves an option of [GetDevice]. *)
Definition commonCommandOptions_applyOnGetDevice (r : commonCommandOptions) (opts : getDeviceOptions) : getDeviceOptions :=
  {| dv_getDetails := dv_getDetails opts; dv_discoveryConfiguration := cc_discoveryConfiguration r; dv_opts := dv_opts opts |}.

(** ** The interfaces *)

Inductive GetOption :=
  | GetETag (r : ResourceETagOption) | GetInterface (r : ResourceInterfaceOption)
  | GetQuery (r : ResourceQueryOption) | GetDiscovery (r : DiscoveryConfigurationOption)
  | GetLinkNotFound (r : LinkNotFoundCallback) | GetResourceTypes (r : ResourceTypesOption)
  | GetCodec (r : CodecOption).
Definition applyOnGet (o : GetOption) : getOptions → getOptions :=
  match o with
  | GetETag r => ResourceETagOption_applyOnGet r
  | GetInterface r => ResourceInterfaceOption_applyOnGet r
  | GetQuery r => ResourceQueryOption_applyOnGet r
  | GetDiscovery r => DiscoveryConfigurationOption_applyOnGet r
  | GetLinkNotFound r => LinkNotFoundCallback_applyOnGet r
  | GetResourceTypes r => ResourceTypesOption_applyOnGet r
  | GetCodec r => CodecOption_applyOnGet r
  end.

Inductive UpdateOption :=
  | UpdateInterface (r : ResourceInterfaceOption) | UpdateQuery (r : ResourceQueryOption)
  | UpdateDiscovery (r : DiscoveryConfigurationOption) | UpdateLinkNotFound (r : LinkNotFoundCallback)
  | UpdateCodec (r : CodecOption).
Definition applyOnUpdate (o : UpdateOption) : updateOptions → updateOptions :=
  match o with
  | UpdateInterface r => ResourceInterfaceOption_applyOnUpdate r
  | UpdateQuery r => ResourceQueryOption_applyOnUpdate r
  | UpdateDiscovery r => DiscoveryConfigurationOption_applyOnUpdate r
  | UpdateLinkNotFound r => LinkNotFoundCallback_applyOnUpdate r
  | UpdateCodec r => CodecOption_applyOnUpdate r
  end.

Inductive CreateOption :=
  | CreateQuery (r : ResourceQueryOption) | CreateDiscovery (r : DiscoveryConfigurationOption)
  | CreateLinkNotFound (r : LinkNotFoundCallback) | CreateCodec (r : CodecOption).
Definition applyOnCreate (o : CreateOption) : createOptions → createOptions :=
  match o with
  | CreateQuery r => ResourceQueryOption_applyOnCreate r
  | CreateDiscovery r => DiscoveryConfigurationOption_applyOnCreate r
  | CreateLinkNotFound r => LinkNotFoundCallback_applyOnCreate r
  | CreateCodec r => CodecOption_applyOnCreate r
  end.

Inductive DeleteOption :=
  | DeleteInterface (r : ResourceInterfaceOption) | DeleteQuery (r : ResourceQueryOption)
  | DeleteDiscovery (r : DiscoveryConfigurationOption) | DeleteLinkNotFound (r : LinkNotFoundCallback)
  | DeleteCodec (r : CodecOption).
Definition applyOnDelete (o : DeleteOption) : deleteOptions → deleteOptions :=
  match o with
  | DeleteInterface r => ResourceInterfaceOption_applyOnDelete r
  | DeleteQuery r => ResourceQueryOption_applyOnDelete r
  | DeleteDiscovery r => DiscoveryConfigurationOption_applyOnDelete r
  | DeleteLinkNotFound r => LinkNotFoundCallback_applyOnDelete r
  | DeleteCodec r => CodecOption_applyOnDelete r
  end.

Inductive ObserveOption :=
  | ObserveInterface (r : ResourceInterfaceOption) | ObserveQuery (r : ResourceQueryOption)
  | ObserveDiscovery (r : DiscoveryConfigurationOption) | ObserveLinkNotFound (r : LinkNotFoundCallback)
  | ObserveCodec (r : CodecOption).
Definition applyOnObserve (o : ObserveOption) : observeOptions → observeOptions :=
  match o with
  | ObserveInterface r => ResourceInterfaceOption_applyOnObserve r
  | ObserveQuery r => ResourceQueryOption_applyOnObserve r
  | ObserveDiscovery r => DiscoveryConfigurationOption_applyOnObserve r
  | ObserveLinkNotFound r => LinkNotFoundCallback_applyOnObserve r
  | ObserveCodec r => CodecOption_applyOnObserve r
  end.

Inductive CommonCommandOption :=
  | CommonQuery (r : ResourceQueryOption) | CommonDiscovery (r : DiscoveryConfigurationOption).
Definition applyOnCommonCommand (o : CommonCommandOption) : commonCommandOptions → commonCommandOptions :=
  match o with
  | CommonQuery r => ResourceQueryOption_applyOnCommonCommand r
  | CommonDiscovery r => DiscoveryConfigurationOption_applyOnCommonCommand r
  end.
Definition applyCommonOptions (opts : list CommonCommandOption) : commonCommandOptions :=
  foldl (fun cfg o => applyOnCommonCommand o cfg)
    {| cc_discoveryConfiguration := DefaultDiscoveryConfiguration; cc_opts := [] |} opts.

Inductive GetDeviceOption :=
  | DeviceQuery (r : ResourceQueryOption) | DeviceDiscovery (r : DiscoveryConfigurationOption)
  | DeviceDetailsOf (r : GetDetailsOption) | DeviceCommon (r : commonCommandOptions).
Definition applyOnGetDevice (o : GetDeviceOption) : getDeviceOptions → getDeviceOptions :=
  match o with
  | DeviceQuery r => ResourceQueryOption_applyOnGetDevice r
  | DeviceDiscovery r => DiscoveryConfigurationOption_applyOnGetDevice r
  | DeviceDetailsOf r => GetDetailsOption_applyOnGetDevice r
  | DeviceCommon r => commonCommandOptions_applyOnGetDevice r
  end.
Inductive GetDeviceByIPOption := ByIPQuery (r : ResourceQueryOption) | ByIPDetails (r : GetDetailsOption).
Definition applyOnGetDeviceByIP (o : GetDeviceByIPOption) : getDeviceByIPOptions → getDeviceByIPOptions :=
  match o with
  | ByIPQuery r => ResourceQueryOption_applyOnGetDeviceByIP r
  | ByIPDetails r => GetDetailsOption_applyOnGetDeviceByIP r
  end.
Inductive GetDevicesOption :=
  | DevicesUseDeviceID (r : UseDeviceIDInQueryOption) | DevicesDiscovery (r : DiscoveryConfigurationOption)
  | DevicesDetails (r : GetDetailsOption) | DevicesResourceTypes (r : ResourceTypesOption).
Definition applyOnGetDevices (o : GetDevicesOption) : getDevicesOptions → getDevicesOptions :=
  match o with
  | DevicesUseDeviceID r => UseDeviceIDInQueryOption_applyOnGetDevices r
  | DevicesDiscovery r => DiscoveryConfigurationOption_applyOnGetDevices r
  | DevicesDetails r => GetDetailsOption_applyOnGetDevices r
  | DevicesResourceTypes r => ResourceTypesOption_applyOnGetDevices r
  end.

Inductive OwnOption :=
  | presharedKeyOption (presharedKey : string)
  | actionDuringOwnOption (f : option ActionDuring)
  | actionAfterOwnOption (f : option (nat → CEnv → result unit * CEnv))
  | otmOption (otmTypes : list OTMType)
  | OwnDiscovery (r : DiscoveryConfigurationOption).
Definition applyOnOwn (o : OwnOption) : ownOptions → ownOptions :=
  match o with
  | presharedKeyOption k => presharedKeyOption_applyOnOwn k
  | actionDuringOwnOption f => actionDuringOwnOption_applyOnOwn f
  | actionAfterOwnOption f => actionAfterOwnOption_applyOnOwn f
  | otmOption ts => otmOption_applyOnOwn ts
  | OwnDiscovery r => DiscoveryConfigurationOption_applyOnOwn r
  end.

(** ** The functions of the callers *)

(** For bridged devices, with the device ID in a query. *)
Definition sdk_WithDeviceID (deviceID : string) : ResourceQueryOption := "di=" +:+ deviceID.
Definition sdk_WithOTMs (otmTypes : list OTMType) : OwnOption := otmOption otmTypes.
Definition sdk_WithOTM (otmType : OTMType) : OwnOption := otmOption [otmType].
End Options.
Arguments getOptions : clear implicits.
Arguments observeOptions : clear implicits.
