(* ===== verification/ClientApi.v ===== *)
(** * ClientApi: the SDK as its callers see it

    The commands of ClientCommands with their options resolved ([getResource.go],
    [updateResource.go], [createResource.go], [deleteResource.go], [maitenance.go],
    [disownDevice.go], the head of [observeResource.go]), and the owners of devices: the
    identity of the client, from no identity ([deviceOwnershipNone.go]), from a signer in the
    configuration ([deviceOwnershipSDK.go]) or from a backend ([deviceOwnershipBackend.go]),
    with [initialization.go] and [OwnDevice] of [ownDevice.go].

    The interface [DeviceOwner] is a class; [OwnDevice] of the client is written against it. *)

From S2P Require Export Options CertGen.

(** ** Commands with options *)

Section Commands.
Context `{HKit : Kit} `{HCache : GoCache} `{HDE : !DevicesEnv}.
Context `{HCore : CoreEnv} `{HReq : !RequestEnv}.
Context `{HCred : CredEnv} `{HPem : !PemOut} `{HUuid : Uuids}.
Context `{HCborQ : Cbor MaintenanceUpdateRequest} `{HCborM : Cbor Maintenance}
  `{HIntoQ : !CborInto MaintenanceUpdateRequest} `{HIntoM : !CborInto Maintenance}.
Context (status_Error : Message → error → error).
Context (deviceExpiration : Z) (disableUDPEndpoints useDeviceIDInQuery : bool).
Context (fuel : nat) (ctxErr : bool).
Abbreviation SM := (ME SdkWorld).

(** The loop of the commands over their options. *)
Definition resolve {O R : Type} (applyOn : O → R → R) (cfg : R) (opts : list O) : R :=
  foldl (fun cfg o => applyOn o cfg) cfg opts.
Definition default_options {C} (codec : C) (opts : list OptionFunc) : getOptions C :=
  {| go_opts := opts; go_codec := codec; go_discoveryConfiguration := DefaultDiscoveryConfiguration;
     go_linkNotFoundCallback := None |}.

Definition Client_GetResource {A} `{Cbor A} `{CborInto A} (deviceID href : string) (response : Target A)
    (opts : list (@GetOption (Codec A))) : SM (ClientCommands.Answer A) :=
  let cfg := resolve applyOnGet (default_options (VNDOCFCBORCodec A) []) opts in
  ClientCommands.GetResource status_Error deviceExpiration disableUDPEndpoints useDeviceIDInQuery fuel
    deviceID href (go_codec cfg) response (go_opts cfg) (go_linkNotFoundCallback cfg).

(** One codec of the code is a pair here: at the type of the request and of the response. *)
Definition Client_UpdateResource {A B} `{Cbor A} `{CborInto A} `{Cbor B} `{CborInto B} (deviceID href : string) (request : A)
    (response : Target B) (opts : list (@UpdateOption (Codec A * Codec B))) : SM (ClientCommands.Answer B) :=
  let cfg := resolve applyOnUpdate (default_options (VNDOCFCBORCodec A, VNDOCFCBORCodec B) []) opts in
  ClientCommands.UpdateResource status_Error deviceExpiration disableUDPEndpoints useDeviceIDInQuery fuel
    deviceID href (go_codec cfg).1 (go_codec cfg).2 request response (go_opts cfg) (go_linkNotFoundCallback cfg).

Definition Client_CreateResource {A B} `{Cbor A} `{CborInto A} `{Cbor B} `{CborInto B} (deviceID href : string) (request : A)
    (response : Target B) (opts : list (@CreateOption (Codec A * Codec B))) : SM (ClientCommands.Answer B) :=
  let cfg := resolve applyOnCreate
    (default_options (VNDOCFCBORCodec A, VNDOCFCBORCodec B) [WithInterface "oic.if.create"]) opts in
  dl ← GetDeviceLinkForHref deviceExpiration disableUDPEndpoints fuel deviceID href (go_linkNotFoundCallback cfg);
  on_core dl.1 (ClientCommands.UpdateResourceWithCodec status_Error dl.2 (go_codec cfg).1 (go_codec cfg).2 request response
                  (with_device_id useDeviceIDInQuery deviceID (go_opts cfg))).

Definition Client_DeleteResource {A} `{Cbor A} `{CborInto A} `{Cbor (DetailedResponse A)}
    `{CborInto (DetailedResponse A)} (deviceID href : string)
    (response : Target A) (opts : list (@DeleteOption (Codec A * Codec (DetailedResponse A)))) : SM (ClientCommands.Answer A) :=
  let cfg := resolve applyOnDelete
    (default_options (VNDOCFCBORCodec A, VNDOCFCBORCodec (DetailedResponse A)) []) opts in
  ClientCommands.DeleteResource status_Error deviceExpiration disableUDPEndpoints useDeviceIDInQuery fuel
    deviceID href (go_codec cfg).1 (go_codec cfg).2 response (go_opts cfg) (go_linkNotFoundCallback cfg).

(** The options of an observation and the key under which it is shared. *)
Definition observe_cfg {C} (codec : C) (opts : list (@ObserveOption C)) : observeOptions C :=
  resolve applyOnObserve
    {| ob_codec := codec; ob_opts := []; ob_resourceInterface := "";
       ob_discoveryConfiguration := DefaultDiscoveryConfiguration; ob_linkNotFoundCallback := None |} opts.
Definition observe_key {C} (deviceID href : string) (cfg : observeOptions C) : string :=
  uuid_NewSHA1 (deviceID +:+ href +:+ "?if=" +:+ ob_resourceInterface cfg).

(** ** The identity of the client *)

(** [tls.Certificate]: the certificates as DER, and the private key. *)
Record TlsCertificate `{CertLib} := { tls_Certificate : list string; tls_PrivateKey : option PrivateKey }.
End Commands.

Definition zero_TlsCertificate `{CertLib} : TlsCertificate := {| tls_Certificate := []; tls_PrivateKey := None |}.

(** crypto/tls, tparse and the JWT library; the claims are those that are set, printed with
    [%v].  The environment of certificate generation is a part of that of the client. *)
Class OwnerLib `{CoreEnv} `{CertLib} := {
  tls_X509KeyPair : string → string → result TlsCertificate;
  x509_MarshalECPrivateKey : PrivateKey → result string;
  time_ParseDuration : string → result Z;
  tparse_ParseNow : string → GenEnv → result Z * GenEnv;
  jwt_ParseUnverified : string → result (gmap string string);
  gen_get : CEnv → GenEnv;
  gen_set : GenEnv → CEnv → CEnv }.

Section Owners.
Context `{HCore : CoreEnv} `{HCred : CredEnv} `{HPem : !PemOut} `{HLib : !CertLib} `{HOwn : !OwnerLib}.
Context `{HUuid : Uuids}.
Abbreviation EM := (ME CEnv).

Definition on_gen {A} (m : ME GenEnv A) : EM A :=
  fun e => let (r, g) := m (gen_get e) in (r, gen_set g e).
(** A function that signs a request in PEM. *)
Definition SignFunc : Type := string → CEnv → result string * CEnv.

(** The chain has at least one certificate when it parses. *)
Definition generateSDKCertificate (csr : string) (sign : SignFunc) (priv : PrivateKey)
    : EM (TlsCertificate * list Cert) :=
  cert ← wrap_err (ErrWrap "cannot sign csr") (sign csr);
  derKey ← wrap_err (ErrWrap "cannot marhsal private key") (lift (x509_MarshalECPrivateKey priv));
  let key := pem_Encode "EC PRIVATE KEY" derKey in
  tlsCert ← wrap_err (ErrWrap "cannot create tls certificate") (lift (tls_X509KeyPair cert key));
  certsFromChain ← wrap_err (ErrWrap "cannot parse cert chain") (lift (ParsePemCertificates (Some cert)));
  match last certsFromChain with
  | Some ca => mret (tlsCert, [ca])
  | None => fail (ErrText "runtime error: index out of range")
  end.
Definition GenerateSDKIdentityCertificate (sign : SignFunc) (sdkDeviceID : string)
    : EM (TlsCertificate * list Cert) :=
  priv ← wrap_err (ErrWrap "cannot generate private key") (on_gen (ecdsa_GenerateKey P256));
  csr ← wrap_err (ErrWrap "cannot generate identity csr")
    (on_gen (GenerateIdentityCSR zero_Configuration sdkDeviceID priv));
  generateSDKCertificate csr sign priv.
Definition manufacturer_cfg (id : string) : Configuration :=
  let c := zero_Configuration in
  {| sub_Country := sub_Country c; sub_Organization := sub_Organization c;
     sub_OrganizationalUnit := sub_OrganizationalUnit c; sub_Locality := sub_Locality c;
     sub_CommonName := "Manufacturer certificate for" +:+ id; sub_Province := sub_Province c;
     sub_StreetAddress := sub_StreetAddress c; sub_PostalCode := sub_PostalCode c;
     sub_SerialNumber := sub_SerialNumber c; san_DNSNames := san_DNSNames c;
     san_IPAddresses := san_IPAddresses c; bc_Ignore := bc_Ignore c; bc_MaxPathLen := bc_MaxPathLen c;
     ValidFrom := ValidFrom c; ValidFor := ValidFor c; cfg_NotBefore := cfg_NotBefore c;
     cfg_NotAfter := cfg_NotAfter c; KeyUsages := KeyUsages c; ExtensionKeyUsages := ["client"];
     EllipticCurve := EllipticCurve c; SignatureAlgorithm := SignatureAlgorithm c;
     CRLDistributionPoints := CRLDistributionPoints c |}.
Definition GenerateSDKManufacturerCertificate (sign : SignFunc) (id : string)
    : EM (TlsCertificate * list Cert) :=
  priv ← wrap_err (ErrWrap "cannot generate private key") (on_gen (ecdsa_GenerateKey P256));
  csr ← wrap_err (ErrWrap "cannot generate identity csr") (on_gen (GenerateCSR (manufacturer_cfg id) priv));
  generateSDKCertificate csr sign priv.

(** ** The transfer methods *)

(** What the application gives; its root certificates are for the dial functions. *)
Record ApplicationCallback := {
  GetManufacturerCertificateAuthorities : EM (list Cert);
  GetManufacturerCertificate : EM TlsCertificate }.
(** A transfer method is known by its type: its certificates are used by its dial. *)
Definition getOTMManufacturer (app : ApplicationCallback) : EM Z :=
  _ ← GetManufacturerCertificateAuthorities app;
  _ ← GetManufacturerCertificate app;
  mret ManufacturerCertificate.
Fixpoint getOtmClients_loop (app : ApplicationCallback) (otmTypes : list OTMType) (otmClients : list Z) : EM (list Z) :=
  match otmTypes with
  | [] => mret otmClients
  | otmType :: otmTypes =>
      if otmType =? OTMType_Manufacturer
      then otm ← getOTMManufacturer app; getOtmClients_loop app otmTypes (otmClients ++ [otm])
      else if otmType =? OTMType_JustWorks
      then getOtmClients_loop app otmTypes (otmClients ++ [JustWorks])
      else fail (ErrText ("unsupported ownership transfer method: " +:+
                  (if otmType <? 0 then "-" +:+ format_uint (- otmType) else format_uint otmType)))
  end.
Definition getOtmClients (app : ApplicationCallback) (otmTypes : list OTMType) : EM (list Z) :=
  getOtmClients_loop app otmTypes [].

(** ** Device owners *)

(** The interface.  The last action of [OwnDevice] is to call the function [own] of its
    argument: the model returns the transfer methods and the options that it is called with. *)
Class DeviceOwner (O : Type) := {
  (** [authorization] is the header of the outgoing metadata. *)
  owner_Initialization : string → O → EM (option error * O);
  owner_OwnDevice : O → list OTMType → list core_OwnOption → EM (list Z * list core_OwnOption);
  owner_GetIdentityCertificate : O → result TlsCertificate;
  owner_GetIdentityCACerts : O → result (list Cert) }.

Definition NotSupported : error := ErrText "not supported".
Record deviceOwnershipNone := newDeviceOwnershipNone {}.
#[export] Instance none_DeviceOwner : DeviceOwner deviceOwnershipNone := {|
  owner_Initialization _ o := mret (None, o);
  owner_OwnDevice _ _ opts := mret ([], opts);
  owner_GetIdentityCertificate _ := Err NotSupported;
  owner_GetIdentityCACerts _ := Err NotSupported |}.

Definition CreateSignerFunc : Type := list Cert → option PrivateKey → Z → Z → list string → result SignFunc.
Record DeviceOwnershipSDKConfig := {
  oc_ID : string; oc_Cert : string; oc_CertKey : string; oc_ValidFrom : string;
  oc_CertExpiry : option string; oc_CRLDistributionPoints : list string;
  oc_CreateSignerFunc : option CreateSignerFunc }.
Record deviceOwnershipSDK := {
  sdk_sdkDeviceID : string; sdk_createIdentitySigner : EM SignFunc;
  sdk_identityCertificate : TlsCertificate; sdk_identityCACert : option (list Cert);
  sdk_app : ApplicationCallback }.

Definition createIdentitySigner (createSigner : option CreateSignerFunc) (signerCAs : list Cert)
    (signerKey : option PrivateKey) (validFrom : string) (certExpiry : Z)
    (crlDistributionPoints : list string) : EM SignFunc :=
  match createSigner with
  | None => fail (ErrText "create signer is not set")
  | Some createSigner =>
      notBefore ← wrap_err (ErrWrap ("invalid validFrom(" +:+ validFrom +:+ ")")) (on_gen (tparse_ParseNow validFrom));
      let notAfter := notBefore + certExpiry in
      lift (createSigner signerCAs signerKey notBefore notAfter crlDistributionPoints)
  end.
Definition newDeviceOwnershipSDK (app : ApplicationCallback) (sdkDeviceID : string) (signerCert : TlsCertificate)
    (validFrom : string) (certExpiry : Z) (crlDistributionPoints : list string)
    (createSigner : option CreateSignerFunc) : EM deviceOwnershipSDK :=
  let validFrom := if bool_decide (validFrom = "") then "now-1m" else validFrom in
  _ ← wrap_err (ErrWrap ("invalid validFrom(" +:+ validFrom +:+ ") for device ownership SDK"))
        (on_gen (tparse_ParseNow validFrom));
  match ParseCertificates (tls_Certificate signerCert) with
  | Err _ => fail (ErrText "could not parse signer certificates")
  | Ok signerCAs =>
      mret {| sdk_sdkDeviceID := sdkDeviceID;
              sdk_createIdentitySigner := createIdentitySigner createSigner signerCAs (tls_PrivateKey signerCert)
                                            validFrom certExpiry crlDistributionPoints;
              sdk_identityCertificate := zero_TlsCertificate; sdk_identityCACert := None; sdk_app := app |}
  end.
(** [time.Hour * 24 * 365 * 10]. *)
Definition defaultCertExpiry : Z := 3600 * 10 ^ 9 * 24 * 365 * 10.
Definition newDeviceOwnershipSDKFromConfig (app : ApplicationCallback) (cfg : DeviceOwnershipSDKConfig)
    : EM deviceOwnershipSDK :=
  certExpiry ← (match oc_CertExpiry cfg with
                | Some d => wrap_err (ErrWrap "invalid cert expiry for device ownership SDK") (lift (time_ParseDuration d))
                | None => mret defaultCertExpiry
                end);
  signerCert ← wrap_err (ErrWrap "invalid cert or key for device ownership SDK")
                 (lift (tls_X509KeyPair (oc_Cert cfg) (oc_CertKey cfg)));
  uid ← wrap_err (ErrWrap "invalid ID for device ownership SDK") (lift (uuid_Parse (oc_ID cfg)));
  newDeviceOwnershipSDK app uid signerCert (oc_ValidFrom cfg) certExpiry (oc_CRLDistributionPoints cfg)
    (oc_CreateSignerFunc cfg).

Definition sdk_set_identity (cert : TlsCertificate) (ca : option (list Cert)) (o : deviceOwnershipSDK) : deviceOwnershipSDK :=
  {| sdk_sdkDeviceID := sdk_sdkDeviceID o; sdk_createIdentitySigner := sdk_createIdentitySigner o;
     sdk_identityCertificate := cert; sdk_identityCACert := ca; sdk_app := sdk_app o |}.
(** The results of a failed generation are assigned as well. *)
Definition sdk_Initialization (o : deviceOwnershipSDK) : EM (option error * deviceOwnershipSDK) :=
  r ← catch (sdk_createIdentitySigner o);
  match r with
  | Err err => mret (Some err, o)
  | Ok signer =>
      r ← catch (GenerateSDKIdentityCertificate signer (sdk_sdkDeviceID o));
      match r with
      | Ok (cert, caCert) => mret (None, sdk_set_identity cert (Some caCert) o)
      | Err err => mret (Some err, sdk_set_identity zero_TlsCertificate None o)
      end
  end.
Definition sdk_OwnDevice (o : deviceOwnershipSDK) (otmTypes : list OTMType) (opts : list core_OwnOption)
    : EM (list Z * list core_OwnOption) :=
  signer ← sdk_createIdentitySigner o;
  otmClients ← getOtmClients (sdk_app o) otmTypes;
  mret (otmClients, WithSetupCertificates (Some signer) :: opts).
Definition identity_certificate (c : TlsCertificate) : result TlsCertificate :=
  match tls_PrivateKey c with
  | None => Err (ErrText "client is not initialized")
  | Some _ => Ok c
  end.
Definition identity_ca (c : option (list Cert)) : result (list Cert) :=
  match c with
  | None => Err (ErrText "client is not initialized")
  | Some ca => Ok ca
  end.
#[export] Instance sdk_DeviceOwner : DeviceOwner deviceOwnershipSDK := {|
  owner_Initialization _ := sdk_Initialization;
  owner_OwnDevice := sdk_OwnDevice;
  owner_GetIdentityCertificate o := identity_certificate (sdk_identityCertificate o);
  owner_GetIdentityCACerts o := identity_ca (sdk_identityCACert o) |}.

(** The backend. *)

Record DeviceOwnershipBackendConfig := { bc_JWTClaimOwnerID : string; bc_Sign : SignFunc }.
Record deviceOwnershipBackend := {
  be_identityCertificate : TlsCertificate; be_identityCACert : option (list Cert);
  be_jwtClaimOwnerID : string; be_app : ApplicationCallback; be_sign : SignFunc }.
Definition newDeviceOwnershipBackendFromConfig (app : ApplicationCallback) (cfg : option DeviceOwnershipBackendConfig)
    : result deviceOwnershipBackend :=
  match cfg with
  | None => Err (ErrText "missing device ownership backend config")
  | Some cfg =>
      Ok {| be_identityCertificate := zero_TlsCertificate; be_identityCACert := None;
            be_jwtClaimOwnerID := if bool_decide (bc_JWTClaimOwnerID cfg = "") then "sub" else bc_JWTClaimOwnerID cfg;
            be_app := app; be_sign := bc_Sign cfg |}
  end.
Definition backend_OwnDevice (o : deviceOwnershipBackend) (otmTypes : list OTMType) (opts : list core_OwnOption)
    : EM (list Z * list core_OwnOption) :=
  otmClients ← getOtmClients (be_app o) otmTypes;
  mret (otmClients, WithSetupCertificates (Some (be_sign o)) :: opts).
Definition owner_of_token (ownerStr : string) : string :=
  match uuid_Parse ownerStr with
  | Ok ownerID => if bool_decide (ownerStr = uuid_Nil) then uuid_NewSHA1 ownerStr else ownerID
  | Err _ => uuid_NewSHA1 ownerStr
  end.
Definition setIdentityCertificate (o : deviceOwnershipBackend) (accessToken : string) : EM deviceOwnershipBackend :=
  c ← wrap_err (ErrWrap "cannot parse jwt token") (lift (jwt_ParseUnverified accessToken));
  match c !! be_jwtClaimOwnerID o with
  | None => fail (ErrText ("cannot get '" +:+ be_jwtClaimOwnerID o +:+ "' from jwt token: is not set"))
  | Some ownerStr =>
      p ← GenerateSDKIdentityCertificate (be_sign o) (owner_of_token ownerStr);
      mret {| be_identityCertificate := p.1; be_identityCACert := Some p.2;
              be_jwtClaimOwnerID := be_jwtClaimOwnerID o; be_app := be_app o; be_sign := be_sign o |}
  end.
(** [status.Errorf(codes.Unauthenticated, ...)]. *)
Definition unauthenticated (desc : string) : error := ErrText ("rpc error: code = Unauthenticated desc = " +:+ desc).
Definition TokenFromOutgoingMD (authorization : string) : result string :=
  let expectedScheme := "bearer" in
  if bool_decide (authorization = "") then Err (unauthenticated ("Request unauthenticated with " +:+ expectedScheme))
  else match split_n2 authorization " " with
       | [scheme; token] =>
           if negb (bool_decide (to_lower scheme = expectedScheme))
           then Err (unauthenticated ("Request unauthenticated with " +:+ scheme +:+ ", expected " +:+ expectedScheme))
           else Ok token
       | _ => Err (unauthenticated "Bad authorization string")
       end.
Definition backend_Initialization (authorization : string) (o : deviceOwnershipBackend)
    : EM (option error * deviceOwnershipBackend) :=
  match TokenFromOutgoingMD authorization with
  | Err err => mret (Some err, o)
  | Ok token =>
      r ← catch (setIdentityCertificate o token);
      match r with
      | Err err => mret (Some err, o)
      | Ok o => mret (None, o)
      end
  end.
#[export] Instance backend_DeviceOwner : DeviceOwner deviceOwnershipBackend := {|
  owner_Initialization := backend_Initialization;
  owner_OwnDevice := backend_OwnDevice;
  owner_GetIdentityCertificate o := identity_certificate (be_identityCertificate o);
  owner_GetIdentityCACerts o := identity_ca (be_identityCACert o) |}.
End Owners.

(** ** [OwnDevice] of the client *)

Section OwnDevice.
Context `{HKit : Kit} `{HCache : GoCache} `{HDE : !DevicesEnv}.
Context `{HCore : CoreEnv} `{HReq : !RequestEnv}.
Context `{HCred : CredEnv} `{HPem : !PemOut} `{HUuid : Uuids} `{HLib : !CertLib} `{HOwn : !OwnerLib}.
Context {O : Type} `{HOwner : !DeviceOwner O}.
Context (deviceExpiration : Z) (disableUDPEndpoints : bool) (fuel : nat).
(** [x509.ParseCertificate] and [rand.Read]. *)
Context (parse : string → result Certificate) (rand : CEnv → result string * CEnv).
Abbreviation SM := (ME SdkWorld).

Definition sm_env {A} (m : ME CEnv A) : SM A :=
  fun w => let (r, e) := m (sd_env w) in
           (r, {| sd_dv := sd_dv w; sd_core := sd_core w; sd_env := e; sd_trace := sd_trace w |}).

(** The owner ID that a device of this client reads from the certificate of the owner. *)
Definition sdk_owner_id (o : O) : result string :=
  GetSdkOwnerID parse None (Some (c ← owner_GetIdentityCertificate o; Ok (tls_Certificate c))).

Definition Client_OwnDevice (o : O) (deviceID : string) (opts : list OwnOption) : SM string :=
  let cfg := resolve applyOnOwn
    {| ow_opts := []; ow_otmTypes := [OTMType_JustWorks];
       ow_discoveryConfiguration := DefaultDiscoveryConfiguration |} opts in
  dl ← dm (Client_GetDevice deviceExpiration disableUDPEndpoints fuel deviceID);
  f ← found dl.1;
  if negb (IsSecured f) then mret deviceID
  else
    own ← sm_env (owner_OwnDevice o (ow_otmTypes cfg) (ow_opts cfg));
    ownDeviceWithSigners deviceExpiration disableUDPEndpoints fuel rand (sdk_owner_id o) deviceID
      own.1 (own_cfg own.2).
End OwnDevice.
