(* ===== verification/ClientConfig.v ===== *)
(** * ClientConfig: the construction of the client

    [src/client/client.go] and [src/client/core/client.go]: the durations of the
    configuration, the options of the dial functions, the options of both clients, the choice
    of the device owner, and the table of subscriptions.

    A dial function is known by the function of [src/pkg/net/coap] it calls and the options
    it appends; loggers are abstract. *)

From S2P Require Export ClientApi.

(** ** Durations *)

Definition time_Second : Z := 10 ^ 9.
Definition maxDurationSeconds : Z := (2 ^ 63 - 1) / time_Second.
(** The product is one of [uint64], the result a [time.Duration], that is [int64]. *)
Definition toDuration (seconds def : Z) : result Z :=
  if seconds =? 0 then Ok def
  else if seconds >? maxDurationSeconds
  then Err (ErrText "invalid value: interval overflows maximal duration")
  else Ok (i64 (u64 (seconds * u64 time_Second))).

(** ** Dial functions *)

(** The options of go-coap that are set. *)
Inductive DialOption :=
  | WithErrors
  | WithKeepAlive (maxRetries timeout : Z)
  | WithMaxMessageSize (maxMessageSize : Z)
  | WithDisablePeerTCPSignalMessageCSMs
  | WithBlockwise (enable : bool) (szx : Z) (transferTimeout : Z).
Definition blockwise_SZX1024 : Z := 6.
Inductive DialFunc :=
  | DialUDPSecure (opts : list DialOption) | DialTCPSecure (opts : list DialOption)
  | DialTCP (opts : list DialOption) | DialUDP (opts : list DialOption)
  | DialOther (id : nat).

(** ** The client of the core *)

Section Core.
Context {Logger Cert_ CAs : Type}.
(** The functions of a [TLSConfig] give a certificate or an error. *)
Record TLSConfig := {
  tc_GetCertificate : option (result Cert_); tc_GetCertificateAuthorities : option (result CAs) }.
Record CoreConfig := {
  cfg_TLSConfig : option TLSConfig; cfg_Logger : option Logger; cfg_DialDTLS : option DialFunc;
  cfg_DialTLS : option DialFunc; cfg_DialTCP : option DialFunc; cfg_DialUDP : option DialFunc }.
Definition core_OptionFunc : Type := CoreConfig → CoreConfig.
(** [x] when it is set, else the value so far. *)
Definition if_set {A} (x old : option A) : option A := match x with Some _ => x | None => old end.
Definition core_WithTLS (tlsConfig : option TLSConfig) : core_OptionFunc := fun cfg =>
  {| cfg_TLSConfig := if_set tlsConfig (cfg_TLSConfig cfg); cfg_Logger := cfg_Logger cfg; cfg_DialDTLS := cfg_DialDTLS cfg;
     cfg_DialTLS := cfg_DialTLS cfg; cfg_DialTCP := cfg_DialTCP cfg; cfg_DialUDP := cfg_DialUDP cfg |}.
Definition core_WithLogger (logger : option Logger) : core_OptionFunc := fun cfg =>
  {| cfg_TLSConfig := cfg_TLSConfig cfg; cfg_Logger := if_set logger (cfg_Logger cfg); cfg_DialDTLS := cfg_DialDTLS cfg;
     cfg_DialTLS := cfg_DialTLS cfg; cfg_DialTCP := cfg_DialTCP cfg; cfg_DialUDP := cfg_DialUDP cfg |}.
Definition core_WithDialDTLS (dial : option DialFunc) : core_OptionFunc := fun cfg =>
  {| cfg_TLSConfig := cfg_TLSConfig cfg; cfg_Logger := cfg_Logger cfg; cfg_DialDTLS := if_set dial (cfg_DialDTLS cfg);
     cfg_DialTLS := cfg_DialTLS cfg; cfg_DialTCP := cfg_DialTCP cfg; cfg_DialUDP := cfg_DialUDP cfg |}.
Definition core_WithDialTLS (dial : option DialFunc) : core_OptionFunc := fun cfg =>
  {| cfg_TLSConfig := cfg_TLSConfig cfg; cfg_Logger := cfg_Logger cfg; cfg_DialDTLS := cfg_DialDTLS cfg;
     cfg_DialTLS := if_set dial (cfg_DialTLS cfg); cfg_DialTCP := cfg_DialTCP cfg; cfg_DialUDP := cfg_DialUDP cfg |}.
Definition core_WithDialTCP (dial : option DialFunc) : core_OptionFunc := fun cfg =>
  {| cfg_TLSConfig := cfg_TLSConfig cfg; cfg_Logger := cfg_Logger cfg; cfg_DialDTLS := cfg_DialDTLS cfg;
     cfg_DialTLS := cfg_DialTLS cfg; cfg_DialTCP := if_set dial (cfg_DialTCP cfg); cfg_DialUDP := cfg_DialUDP cfg |}.
Definition core_WithDialUDP (dial : option DialFunc) : core_OptionFunc := fun cfg =>
  {| cfg_TLSConfig := cfg_TLSConfig cfg; cfg_Logger := cfg_Logger cfg; cfg_DialDTLS := cfg_DialDTLS cfg;
     cfg_DialTLS := cfg_DialTLS cfg; cfg_DialTCP := cfg_DialTCP cfg; cfg_DialUDP := if_set dial (cfg_DialUDP cfg) |}.

Definition checkTLSConfig (cfg : option TLSConfig) : TLSConfig :=
  let cfg := default {| tc_GetCertificate := None; tc_GetCertificateAuthorities := None |} cfg in
  {| tc_GetCertificate :=
       Some (default (Err (MakeUnimplemented (ErrText "not supported"))) (tc_GetCertificate cfg));
     tc_GetCertificateAuthorities :=
       Some (default (Err (MakeUnimplemented (ErrText "not supported"))) (tc_GetCertificateAuthorities cfg)) |}.
Record CoreClient := {
  core_tlsConfig : TLSConfig; core_logger : Logger; core_dialDTLS : option DialFunc;
  core_dialTLS : option DialFunc; core_dialTCP : option DialFunc; core_dialUDP : option DialFunc }.
(** [DeviceConfiguration] of a device of the client. *)
Definition getDeviceConfiguration (c : CoreClient) : CoreConfig :=
  {| cfg_TLSConfig := Some (core_tlsConfig c); cfg_Logger := Some (core_logger c); cfg_DialDTLS := core_dialDTLS c;
     cfg_DialTLS := core_dialTLS c; cfg_DialTCP := core_dialTCP c; cfg_DialUDP := core_dialUDP c |}.

Context (defaultLogger nilLogger : Logger).
Definition core_NewClient (opts : list core_OptionFunc) : CoreClient :=
  let cfg := {| cfg_TLSConfig := None; cfg_Logger := Some defaultLogger; cfg_DialDTLS := Some (DialUDPSecure []);
                cfg_DialTLS := Some (DialTCPSecure []); cfg_DialTCP := Some (DialTCP []);
                cfg_DialUDP := Some (DialUDP []) |} in
  let cfg := foldl (fun cfg o => o cfg) cfg opts in
  {| core_tlsConfig := checkTLSConfig (cfg_TLSConfig cfg); core_logger := default nilLogger (cfg_Logger cfg);
     core_dialDTLS := cfg_DialDTLS cfg; core_dialTLS := cfg_DialTLS cfg; core_dialTCP := cfg_DialTCP cfg;
     core_dialUDP := cfg_DialUDP cfg |}.

(** ** The options of the client of the SDK *)

Record ObserverConfig := { PollingInterval : Z; FailureThreshold : Z }.
Record ClientConfig := {
  CoreOptions : list core_OptionFunc; CacheExpiration : Z; Observer : ObserverConfig; UseDeviceIDInQuery : bool }.
Definition ClientOptionFunc : Type := ClientConfig → ClientConfig.
Definition WithObserverConfig (observerConfig : ObserverConfig) : ClientOptionFunc := fun cfg =>
  {| CoreOptions := CoreOptions cfg; CacheExpiration := CacheExpiration cfg;
     Observer := {| PollingInterval := if PollingInterval observerConfig <=? 0 then 3 * time_Second
                                       else PollingInterval observerConfig;
                    FailureThreshold := if FailureThreshold observerConfig <=? 0 then 3
                                        else FailureThreshold observerConfig |};
     UseDeviceIDInQuery := UseDeviceIDInQuery cfg |}.
Definition WithCacheExpiration (cacheExpiration : Z) : ClientOptionFunc := fun cfg =>
  {| CoreOptions := CoreOptions cfg; CacheExpiration := cacheExpiration; Observer := Observer cfg;
     UseDeviceIDInQuery := UseDeviceIDInQuery cfg |}.
Definition WithUseDeviceIDInQuery (useDeviceIDInQuery : bool) : ClientOptionFunc := fun cfg =>
  {| CoreOptions := CoreOptions cfg; CacheExpiration := CacheExpiration cfg; Observer := Observer cfg;
     UseDeviceIDInQuery := useDeviceIDInQuery |}.
(** [if x != nil { cfg.CoreOptions = append(cfg.CoreOptions, f(x)) }]. *)
Definition with_core {A} (f : option A → core_OptionFunc) (x : option A) : ClientOptionFunc := fun cfg =>
  match x with
  | None => cfg
  | Some _ => {| CoreOptions := CoreOptions cfg ++ [f x]; CacheExpiration := CacheExpiration cfg;
                 Observer := Observer cfg; UseDeviceIDInQuery := UseDeviceIDInQuery cfg |}
  end.
Definition WithTLS (tlsConfig : option TLSConfig) : ClientOptionFunc := with_core core_WithTLS tlsConfig.
Definition WithLogger (logger : option Logger) : ClientOptionFunc := with_core core_WithLogger logger.
Definition WithDialDTLS (dial : option DialFunc) : ClientOptionFunc := with_core core_WithDialDTLS dial.
Definition WithDialTLS (dial : option DialFunc) : ClientOptionFunc := with_core core_WithDialTLS dial.
Definition WithDialTCP (dial : option DialFunc) : ClientOptionFunc := with_core core_WithDialTCP dial.
Definition WithDialUDP (dial : option DialFunc) : ClientOptionFunc := with_core core_WithDialUDP dial.

(** What [NewClient] decides; the caches and tables are empty. *)
Record NewClientResult := {
  nc_core : CoreClient; nc_cacheExpiration : Z; nc_pollInterval : Z; nc_observerConfig : ObserverConfig;
  nc_logger : Logger; nc_useDeviceIDInQuery : bool; nc_disableUDPEndpoints : bool }.
(** [app] and [owner] say whether these arguments are not nil; the identity functions are
    those of the owner. *)
Definition NewClient (app owner : bool) (getIdentityCertificate : result Cert_)
    (getIdentityCACerts : result CAs) (opt : list ClientOptionFunc) : result NewClientResult :=
  if negb app then Err (ErrText "missing application callback")
  else if negb owner then Err (ErrText "missing device owner callback")
  else
    let clientCfg := {| CoreOptions := []; CacheExpiration := 3600 * time_Second;
                        Observer := {| PollingInterval := 3 * time_Second; FailureThreshold := 3 |};
                        UseDeviceIDInQuery := false |} in
    let clientCfg := foldl (fun cfg o => o cfg) clientCfg opt in
    let coreCfg := {| cfg_TLSConfig := None; cfg_Logger := None; cfg_DialDTLS := None; cfg_DialTLS := None;
                      cfg_DialTCP := None; cfg_DialUDP := None |} in
    let coreCfg := foldl (fun cfg o => o cfg) coreCfg (CoreOptions clientCfg) in
    let logger := default nilLogger (cfg_Logger coreCfg) in
    let tls := {| tc_GetCertificate := Some getIdentityCertificate;
                  tc_GetCertificateAuthorities := Some getIdentityCACerts |} in
    let coreOptions := [core_WithTLS (Some tls); core_WithLogger (Some logger)] ++ CoreOptions clientCfg in
    let half := Z.quot (CacheExpiration clientCfg) 2 in
    Ok {| nc_core := core_NewClient coreOptions; nc_cacheExpiration := CacheExpiration clientCfg;
          nc_pollInterval := if half >? 10 * time_Second then half else 10 * time_Second;
          nc_observerConfig := Observer clientCfg; nc_logger := logger;
          nc_useDeviceIDInQuery := UseDeviceIDInQuery clientCfg; nc_disableUDPEndpoints := false |}.
End Core.

(** ** From the configuration *)

Record Config `{OwnerLib} `{Uuids} := {
  DeviceCacheExpirationSeconds : Z; ObserverPollingIntervalSeconds : Z; ObserverFailureThreshold : Z;
  KeepAliveConnectionTimeoutSeconds : Z; MaxMessageSize : Z; DisablePeerTCPSignalMessageCSMs : bool;
  DefaultTransferDurationSeconds : Z; cfg_UseDeviceIDInQuery : bool;
  DeviceOwnershipSDK : option DeviceOwnershipSDKConfig;
  DeviceOwnershipBackend : option DeviceOwnershipBackendConfig }.

Section FromConfig.
Context `{HCore : CoreEnv} `{HCred : CredEnv} `{HPem : !PemOut} `{HLib : !CertLib} `{HOwn : !OwnerLib}.
Context `{HUuid : Uuids}.
Context {Logger : Type} (defaultLogger nilLogger : Logger).
Abbreviation EM := (ME CEnv).

(** The owners behind the interface. *)
Inductive AnyOwner :=
  | OwnerNone (o : deviceOwnershipNone) | OwnerSDK (o : deviceOwnershipSDK) | OwnerBackend (o : deviceOwnershipBackend).
Definition on_owner {A} (f : ∀ O, DeviceOwner O → O → A) (o : AnyOwner) : A :=
  match o with
  | OwnerNone o => f _ _ o
  | OwnerSDK o => f _ _ o
  | OwnerBackend o => f _ _ o
  end.
Definition any_Initialization (authorization : string) (o : AnyOwner) : EM (option error * AnyOwner) :=
  match o with
  | OwnerNone o => r ← owner_Initialization authorization o; mret (r.1, OwnerNone r.2)
  | OwnerSDK o => r ← owner_Initialization authorization o; mret (r.1, OwnerSDK r.2)
  | OwnerBackend o => r ← owner_Initialization authorization o; mret (r.1, OwnerBackend r.2)
  end.
#[export] Instance any_DeviceOwner : DeviceOwner AnyOwner := {|
  owner_Initialization := any_Initialization;
  owner_OwnDevice := on_owner (fun _ _ => owner_OwnDevice);
  owner_GetIdentityCertificate := on_owner (fun _ _ => owner_GetIdentityCertificate);
  owner_GetIdentityCACerts := on_owner (fun _ _ => owner_GetIdentityCACerts) |}.

Definition NewDeviceOwnerFromConfig (cfg : Config) (app : ApplicationCallback) : EM AnyOwner :=
  match DeviceOwnershipSDK cfg with
  | Some sdk =>
      o ← wrap_err (ErrWrap "cannot create sdk signers") (newDeviceOwnershipSDKFromConfig app sdk);
      mret (OwnerSDK o)
  | None =>
      match DeviceOwnershipBackend cfg with
      | Some backend =>
          o ← wrap_err (ErrWrap "cannot create server signers") (lift (newDeviceOwnershipBackendFromConfig app (Some backend)));
          mret (OwnerBackend o)
      | None => mret (OwnerNone newDeviceOwnershipNone)
      end
  end.

(** The settings that are taken from the configuration, before the owner is made. *)
Definition dial_options (cfg : Config) (keepAlive transfer : Z) : list DialOption * list DialOption :=
  let maxMessageSize := if MaxMessageSize cfg >? 0 then MaxMessageSize cfg else u32 (512 * 1024) in
  let common := [WithErrors; WithKeepAlive 3 (Z.quot keepAlive 3); WithMaxMessageSize maxMessageSize] in
  (common ++ (if DisablePeerTCPSignalMessageCSMs cfg then [WithDisablePeerTCPSignalMessageCSMs] else []) ++
     [WithBlockwise true blockwise_SZX1024 transfer],
   common ++ [WithBlockwise true blockwise_SZX1024 transfer]).
Definition invalid (field : string) {A} (r : result A) : result A :=
  match r with Ok a => Ok a | Err _ => Err (ErrText ("invalid " +:+ field +:+ " value")) end.
Definition client_options (cfg : Config) (logger : Logger)
    : result (list (@ClientOptionFunc Logger TlsCertificate (list Cert))) :=
  cacheExpiration ← invalid "DeviceCacheExpirationSeconds" (toDuration (DeviceCacheExpirationSeconds cfg) 0);
  observerPollingInterval ← invalid "ObserverPollingIntervalSeconds"
    (toDuration (ObserverPollingIntervalSeconds cfg) (time_Second * 3));
  keepAliveConnectionTimeout ← invalid "KeepAliveConnectionTimeoutSeconds"
    (toDuration (KeepAliveConnectionTimeoutSeconds cfg) (time_Second * 60));
  defaultTransferDuration ← invalid "DefaultTransferDurationSeconds"
    (toDuration (DefaultTransferDurationSeconds cfg) (time_Second * 15));
  let '(tcpDialOpts, udpDialOpts) := dial_options cfg keepAliveConnectionTimeout defaultTransferDuration in
  Ok [WithDialDTLS (Some (DialUDPSecure udpDialOpts)); WithDialTLS (Some (DialTCPSecure tcpDialOpts));
      WithDialTCP (Some (DialTCP tcpDialOpts)); WithDialUDP (Some (DialUDP udpDialOpts));
      WithLogger (Some logger);
      WithObserverConfig {| PollingInterval := observerPollingInterval; FailureThreshold := ObserverFailureThreshold cfg |};
      WithCacheExpiration cacheExpiration; WithUseDeviceIDInQuery (cfg_UseDeviceIDInQuery cfg)].
(** The application callback is not nil.  The owner is called when a certificate is needed;
    the result has its answers at the time of the construction. *)
Definition NewClientFromConfig (cfg : Config) (app : ApplicationCallback) (logger : option Logger)
    : EM (@NewClientResult Logger TlsCertificate (list Cert) * AnyOwner) :=
  opts ← lift (client_options cfg (default nilLogger logger));
  deviceOwner ← NewDeviceOwnerFromConfig cfg app;
  client ← lift (NewClient defaultLogger nilLogger true true (owner_GetIdentityCertificate deviceOwner)
                   (owner_GetIdentityCACerts deviceOwner) opts);
  mret (client, deviceOwner).
End FromConfig.

(** ** Subscriptions *)

Section Subscriptions.
Context {Subscription : Type}.
Abbreviation Subscriptions := (gmap string Subscription).
Definition popSubscriptions (c : Subscriptions) : Subscriptions * Subscriptions := (c, ∅).
Definition popSubscription (id : string) (c : Subscriptions) : result Subscription * Subscriptions :=
  match c !! id with
  | None => (Err (ErrText ("cannot find observation " +:+ id)), c)
  | Some v => (Ok v, delete id c)
  end.
Definition insertSubscription (id : string) (s : Subscription) (c : Subscriptions) : Subscriptions := <[id := s]> c.
End Subscriptions.
