(* ===== verification/Presence.v ===== *)
(** * Presence: one round of an observer of devices, and the observers of a client

    The rest of [src/client/observeDevices.go]: what a round finds, by multicast and by asking
    the devices that were found by address; and [ObserveDevices] and [StopObservingDevices],
    with the subscriptions of the client.

    The observers are those of ObserveDevices; their goroutines are the steps of a machine. *)

From S2P Require Export ClientDevices ObserveDevices.

(** ** What a round finds *)

Section Round.
Context `{HKit : Kit} `{HCache : GoCache} `{HDE : !DevicesEnv}.
Context (deviceExpiration : Z).
Abbreviation DM := (ME DvWorld).

(** The devices that were listed, and the errors that were logged. *)
Record listDeviceIds := { ld_devices : gset string; ld_err : list error }.
(** [closed] is the result of closing the connection of the answer. *)
Definition listDeviceIds_Handle (closed : option error) (dev : ResourceLinks) (o : listDeviceIds) : listDeviceIds :=
  let o := match Schema.GetResourceLink dev "/oic/d" with
           | None => o
           | Some d => {| ld_devices := {[ GetDeviceID d ]} ∪ ld_devices o; ld_err := ld_err o |}
           end in
  match closed with
  | Some err => {| ld_devices := ld_devices o; ld_err := ld_err o ++ [ErrWrap "device connection handler error" err] |}
  | None => o
  end.
Definition listDeviceIds_Error (err : error) (o : listDeviceIds) : listDeviceIds :=
  {| ld_devices := ld_devices o; ld_err := ld_err o ++ [err] |}.

(** What the discovery gives its handler, with the closing of each connection; [rd_err] is
    what it returns, [rd_closes] the errors of closing its sockets. *)
Record RoundDiscovery := {
  rd_dial : option error;
  rd_answers : list (Answer (option error * ResourceLinks));
  rd_err : option error;
  rd_closes : list error }.
Definition list_answer (o : listDeviceIds) (a : Answer (option error * ResourceLinks)) : listDeviceIds :=
  match a with
  | AnsHandle (closed, dev) => listDeviceIds_Handle closed dev o
  | AnsError err => listDeviceIds_Error err o
  | AnsNone => o
  end.
Definition observer_discover (d : RoundDiscovery) (o : listDeviceIds) : option error * listDeviceIds :=
  match rd_dial d with
  | Some err => (Some (ErrWrap "could not discover devices" err), o)
  | None =>
      let o := foldl list_answer o (rd_answers d) in
      (rd_err d, {| ld_devices := ld_devices o; ld_err := ld_err o ++ (ErrWrap "discover devices error" <$> rd_closes d) |})
  end.

(** The goroutine of one device that was found by its address. *)
Definition ping (devices : gset string) (dev : string * string) : DM (gset string) :=
  r ← catch (getDeviceByIPWithUpdateCache deviceExpiration dev.2 dev.1);
  mret (match r with Ok _ => {[ dev.1 ]} ∪ devices | Err _ => devices end).
Fixpoint pings (devicesByIP : list (string * string)) (devices : gset string) : DM (gset string) :=
  match devicesByIP with
  | [] => mret devices
  | dev :: devicesByIP' => devices ← ping devices dev; pings devicesByIP' devices
  end.
(** The devices of a round ([observe] of ObserveDevices goes on with them): the goroutines of
    the devices run in the order of the list, [canceled] says whether the context was
    cancelled when the discovery was over. *)
Definition round_devices (d : RoundDiscovery) (canceled : bool) (devicesByIP : list (string * string))
    : DM (result (gset string)) :=
  let (err, o) := observer_discover d {| ld_devices := ∅; ld_err := [] |} in
  devices ← pings devicesByIP (ld_devices o);
  mret (match err with
        | Some err => Err err
        | None => if canceled then Err (ErrText "context canceled") else Ok devices
        end).

(** What the multicast of a round lists. *)
Lemma listed_devices answers o id :
  id ∈ ld_devices (foldl list_answer o answers) ↔
  id ∈ ld_devices o ∨ ∃ closed dev l, AnsHandle (closed, dev) ∈ answers ∧
    Schema.GetResourceLink dev "/oic/d" = Some l ∧ id = GetDeviceID l.
Proof.
  revert o. induction answers as [|a answers IH]; intros o; cbn [foldl].
  { split; [by left|]. intros [?|(?&?&?&Hin&_)]; [done|]. by apply not_elem_of_nil in Hin. }
  rewrite IH. assert (Ha : id ∈ ld_devices (list_answer o a) ↔ id ∈ ld_devices o ∨
    ∃ closed dev l, a = AnsHandle (closed, dev) ∧ Schema.GetResourceLink dev "/oic/d" = Some l ∧ id = GetDeviceID l).
  { destruct a as [[closed dev]|err|]; simpl; [|by naive_solver..]. unfold listDeviceIds_Handle.
    destruct (Schema.GetResourceLink dev "/oic/d") as [l|] eqn:El; destruct closed; simpl;
      rewrite ?elem_of_union, ?elem_of_singleton; naive_solver. }
  rewrite Ha. setoid_rewrite elem_of_cons. naive_solver.
Qed.

Lemma pings_spec l X w :
  ∃ Y w', pings l X w = (Ok (Y ∪ X), w') ∧ pings l ∅ w = (Ok Y, w') ∧ ∀ id, id ∈ Y → id ∈ l.*1.
Proof.
  assert (Hgen : ∃ (Y : gset string) w', (∀ X, ∃ X' : gset string, pings l X w = (Ok X', w') ∧ ∀ id, id ∈ X' ↔ id ∈ Y ∨ id ∈ X) ∧ ∀ id, id ∈ Y → id ∈ l.*1).
  { revert w. induction l as [|[id ip] l IH]; intros w.
    - exists ∅, w. split; [intros X0; exists X0; split; [done|set_solver]|set_solver].
    - unfold pings, ping, catch, mbind, ME_bind, mret, ME_ret. fold pings.
      destruct (getDeviceByIPWithUpdateCache deviceExpiration (id, ip).2 (id, ip).1 w) as [r w1] eqn:Er.
      destruct (IH w1) as (Y&w'&HX&HY).
      exists (match r with Ok _ => {[ id ]} ∪ Y | Err _ => Y end), w'. split.
      + intros X0. destruct r as [?|?]; [destruct (HX ({[id]} ∪ X0)) as (X'&E&Hi)|destruct (HX X0) as (X'&E&Hi)];
          exists X'; (split; [exact E|set_solver]).
      + intros i Hi. cbn. destruct r; set_solver. }
  destruct Hgen as (Y&w'&HX&HY). destruct (HX X) as (X1&E1&H1). destruct (HX ∅) as (X2&E2&H2).
  exists X2, w'. assert (X1 = X2 ∪ X) as -> by (apply set_eq; set_solver). split; [done|]. split; [done|]. set_solver.
Qed.

(** A round whose discovery ends without an error finds the devices that announced [/oic/d] and
    those of its own that answered at their address, and no others. *)
Theorem round_devices_spec d devicesByIP w :
  rd_dial d = None → rd_err d = None →
  ∃ found answered w', round_devices d false devicesByIP w = (Ok (Ok found), w') ∧
    pings devicesByIP ∅ w = (Ok answered, w') ∧ (∀ id, id ∈ answered → id ∈ devicesByIP.*1) ∧
    ∀ id, id ∈ found ↔ id ∈ answered ∨ ∃ closed dev l, AnsHandle (closed, dev) ∈ rd_answers d ∧
      Schema.GetResourceLink dev "/oic/d" = Some l ∧ id = GetDeviceID l.
Proof.
  intros Hd He. unfold round_devices, observer_discover. rewrite Hd, He. cbn [ld_devices].
  set (o := foldl list_answer _ _).
  destruct (pings_spec devicesByIP (ld_devices o) w) as (Y&w'&E1&E2&HY).
  exists (Y ∪ ld_devices o), Y, w'. unfold mbind, ME_bind. rewrite E1. split; [done|]. split; [done|]. split; [done|].
  intros id. rewrite elem_of_union. unfold o. rewrite listed_devices. cbn [ld_devices]. set_solver.
Qed.
End Round.

(** ** The observers of a client *)

Section Client.
Context `{HOE : ObserverEnv}.
Context (config : ObserverConfig).

(** The observers that were made; those that the client lists are [od_subscribed]. *)
Abbreviation Observers := (gmap string Observer).

(** A round of the goroutine. *)
Definition run_poll (o : Observer) : Observer :=
  let '(r, o') := poll config o in
  match r with
  | Ok true => o'
  | _ => ObserveDevices.set_flags (od_closed o') (od_done o') (od_subscribed o') false o'
  end.

(** [ObserveDevices] in its two steps: the observer with its goroutine, under a fresh ID, and
    then its subscription. *)
Definition observe_start (ID : result string) (e : OEnv) (obs : Observers) : result string * Observers :=
  match ID with
  | Err err => (Err err, obs)
  | Ok id => (Ok id, <[id := newDevicesObserver e]> obs)
  end.
Definition observe_insert (id : string) (obs : Observers) : Observers := alter (fun o => api_call o CInsert) id obs.

(** [stopObservingDevices], and the wait for the goroutine: a cancelled observer runs the rest
    of its round at most. *)
Definition stopObservingDevices (id : string) (obs : Observers) : bool * Observers :=
  match obs !! id with
  | Some o => if od_subscribed o then (true, <[id := ObserveDevices.Cancel o]> obs) else (false, obs)
  | None => (false, obs)
  end.
Definition observer_Wait (id : string) (obs : Observers) : Observers :=
  alter (fun o => if od_running o then run_poll o else o) id obs.
Definition StopObservingDevices (id : string) (obs : Observers) : bool * Observers :=
  let (ok, obs) := stopObservingDevices id obs in
  if ok then (true, observer_Wait id obs) else (false, obs).

Inductive ObsLabel :=
  | ObStart (id : string) (e : OEnv) | ObInsert (id : string) | ObPoll (id : string) | ObStop (id : string).
(** An ID is drawn once; a goroutine runs while its last round returned true. *)
Inductive obs_step : Observers → ObsLabel → Observers → Prop :=
  | obs_start obs id e : obs !! id = None → obs_step obs (ObStart id e) (observe_start (Ok id) e obs).2
  | obs_insert obs id : obs_step obs (ObInsert id) (observe_insert id obs)
  | obs_poll obs id o : obs !! id = Some o → od_running o = true → obs_step obs (ObPoll id) (<[id := run_poll o]> obs)
  | obs_stop obs id : obs_step obs (ObStop id) (StopObservingDevices id obs).2.

(** ** A stopped observation is silent *)

(** [m] makes no call once the observer is closed, and keeps it closed. *)
Definition silent {A} (m : ME Observer A) : Prop := ∀ o, od_closed o = true →
  od_closed (m o).2 = true ∧ od_calls (m o).2 = od_calls o.

Lemma silent_ret {A} (a : A) : silent (mret a). Proof. by intros o Ho. Qed.
Lemma silent_bind {A B} (m : ME Observer A) (k : A → ME Observer B) :
  silent m → (∀ a, silent (k a)) → silent (m ≫= k).
Proof.
  intros Hm Hk o Ho. unfold mbind, ME_bind. specialize (Hm o Ho). destruct (m o) as [[a|err] o1]; simpl in *; [|done].
  destruct Hm as [Hc Ht]. destruct (Hk a o1 Hc) as [Hc2 Ht2]. split; [done|congruence].
Qed.
Lemma silent_catch {A} (m : ME Observer A) : silent m → silent (catch m).
Proof. intros Hm o Ho. specialize (Hm o Ho). unfold catch. by destruct (m o). Qed.
Lemma silent_gets {A} (f : Observer → A) : silent (gets f). Proof. by intros o Ho. Qed.
Lemma silent_lift {A} (r : result A) : silent (lift r). Proof. by intros o Ho. Qed.
Lemma silent_oask {A} (f : OEnv → A * OEnv) : silent (oask f).
Proof. intros o Ho. unfold oask. by destruct (f (od_env o)). Qed.
Lemma silent_each {A} (f : A → ME Observer unit) l : (∀ a, silent (f a)) → silent (each f l).
Proof. intros Hf. induction l as [|a l IH]; [apply silent_ret|]. cbn [each]. apply silent_bind; [done|by intros []]. Qed.
Lemma silent_closed (f : ME Observer unit) :
  silent (closed ← gets od_closed; if closed : bool then mret tt else f).
Proof. intros o Ho. unfold gets, mbind, ME_bind. by rewrite Ho. Qed.
Lemma api_call_silent o c : od_closed o = true → od_closed (api_call o c) = true ∧ od_calls (api_call o c) = od_calls o.
Proof. destruct c; simpl; [done|]. by destruct (od_subscribed o). Qed.
Lemma silent_cancel_point : silent cancel_point.
Proof.
  apply silent_bind; [apply silent_oask|]. intros cs o Ho. cbn. revert o Ho.
  induction cs as [|c cs IH]; intros o Ho; [done|]. cbn [foldl]. destruct (api_call_silent o c Ho) as [Hc Ht].
  destruct (IH _ Hc) as [Hc2 Ht2]. split; [done|congruence].
Qed.
Lemma silent_handlers : (∀ ev, silent (handler_Handle ev)) ∧ silent handler_OnClose ∧ ∀ err, silent (handler_Error err).
Proof. split; [intros ev|split; [|intros err]]; apply silent_closed. Qed.
Lemma silent_emit id b : silent (emit id b).
Proof. apply silent_bind; [apply silent_cancel_point|]. intros []. apply silent_handlers. Qed.
Lemma silent_observe : silent (observe config).
Proof.
  apply silent_bind; [apply silent_oask|]. intros found. apply silent_bind; [apply silent_cancel_point|]. intros [].
  apply silent_bind; [apply silent_lift|]. intros nd. apply silent_bind; [apply silent_gets|]. intros online.
  apply silent_bind; [apply silent_gets|]. intros order. destruct (processDevices _ _ _ _) as [[added removed] current].
  apply silent_bind; [apply silent_gets|]. intros ao.
  apply silent_bind; [apply silent_each; intros; apply silent_emit|]. intros [].
  apply silent_bind; [apply silent_each; intros; apply silent_emit|]. intros []. apply silent_ret.
Qed.
Lemma silent_modify_online x : silent (modify (set_online x)). Proof. by intros o Ho. Qed.
Lemma silent_poll : silent (poll config).
Proof.
  destruct silent_handlers as (_&Hc&He). apply silent_bind; [apply silent_catch, silent_observe|]. intros r.
  apply silent_bind; [apply silent_cancel_point|]. intros []. apply silent_bind; [apply silent_gets|]. intros [].
  - apply silent_bind; [done|]. intros []. apply silent_ret.
  - destruct r; (apply silent_bind; [apply silent_modify_online || apply He|]); intros []; apply silent_ret.
Qed.
Lemma run_poll_silent o : od_closed o = true →
  od_closed (run_poll o) = true ∧ od_calls (run_poll o) = od_calls o.
Proof.
  intros Ho. destruct (silent_poll o Ho) as [Hc Ht]. unfold run_poll. destruct (poll config o) as [[[]|] o']; done.
Qed.

(** A cancelled observer stays cancelled, and its goroutine ends with the round. *)
Definition is_done (o : Observer) : Prop := od_done o = true.
Lemma api_call_done o c : is_done o → is_done (api_call o c).
Proof. destruct c; simpl; [done|]. by destruct (od_subscribed o). Qed.
Lemma done_cancel_point : keeps is_done cancel_point.
Proof.
  apply keeps_bind; [intros o Ho; unfold oask; by destruct (oenv_calls (od_env o))|]. intros cs o Ho. cbn.
  revert o Ho. induction cs as [|c cs IH]; intros o Ho; [done|]. by apply IH, api_call_done.
Qed.
Lemma done_oask {A} (f : OEnv → A * OEnv) : keeps is_done (oask f).
Proof. intros o Ho. unfold oask. by destruct (f (od_env o)). Qed.
Lemma done_removeSubscription : keeps is_done removeSubscription.
Proof. intros o Ho. unfold removeSubscription, gets, mbind, ME_bind, when, modify. by destruct (od_subscribed o). Qed.
Lemma done_call ev : keeps is_done (call ev). Proof. by intros o Ho. Qed.
Lemma done_Handle ev : keeps is_done (handler_Handle ev).
Proof.
  apply keeps_bind; [by intros o Ho|]. intros []; [by intros o Ho|]. apply keeps_bind; [apply done_call|]. intros [].
  apply keeps_bind; [apply done_oask|]. by intros r o Ho.
Qed.
Lemma done_observe : keeps is_done (observe config).
Proof.
  assert (He : ∀ id b, keeps is_done (emit id b)).
  { intros id b. apply keeps_bind; [apply done_cancel_point|]. intros []. apply done_Handle. }
  assert (Hall : ∀ b l, keeps is_done (each (fun id => emit id b) l)).
  { intros b l. induction l as [|a l IH]; [by intros o Ho|]. cbn [each]. apply keeps_bind; [apply He|by intros []]. }
  apply keeps_bind; [apply done_oask|]. intros found. apply keeps_bind; [apply done_cancel_point|]. intros [].
  apply keeps_bind; [by intros o Ho|]. intros nd. apply keeps_bind; [by intros o Ho|]. intros online.
  apply keeps_bind; [by intros o Ho|]. intros order. destruct (processDevices _ _ _ _) as [[added removed] current].
  apply keeps_bind; [by intros o Ho|]. intros ao. apply keeps_bind; [apply Hall|]. intros [].
  apply keeps_bind; [apply Hall|]. intros []. by intros o Ho.
Qed.
Lemma run_poll_cancelled o : is_done o → od_running (run_poll o) = false.
Proof.
  intros Ho. unfold run_poll, poll, catch, gets, mbind, ME_bind, mret, ME_ret.
  pose proof (done_observe o Ho) as H1. destruct (observe config o) as [r o1]. simpl in H1.
  pose proof (done_cancel_point o1 H1) as H2. destruct (cancel_point o1) as [[[]|err] o2]; [|done]. simpl in H2.
  unfold is_done in H2. rewrite H2. by destruct (handler_OnClose o2) as [[[]|err] o3].
Qed.

(** The observer [id] will call its handler no more. *)
Definition silenced (id : string) (calls : list OEvent) (obs : Observers) : Prop :=
  ∃ o, obs !! id = Some o ∧ od_closed o = true ∧ od_calls o = calls.

Lemma step_silenced id calls obs l obs' :
  obs_step obs l obs' → silenced id calls obs → silenced id calls obs'.
Proof.
  assert (Halter : ∀ f id' (m : Observers), (∀ o, od_closed o = true → od_closed (f o) = true ∧ od_calls (f o) = od_calls o) →
    silenced id calls m → silenced id calls (alter f id' m)).
  { intros f id' m Hf (o&Ho&Hc&Hl). destruct (decide (id' = id)) as [->|Hne].
    - exists (f o). rewrite lookup_alter_eq, Ho. destruct (Hf o Hc) as [? ?]. split; [done|]. split; [done|congruence].
    - exists o. by rewrite lookup_alter_ne. }
  assert (Hins : ∀ o' id' (m : Observers) o1, m !! id' = Some o1 →
    (od_closed o1 = true → od_closed o' = true ∧ od_calls o' = od_calls o1) →
    silenced id calls m → silenced id calls (<[id' := o']> m)).
  { intros o' id' m o1 Ho1 Hf (o&Ho&Hc&Hl). destruct (decide (id' = id)) as [->|Hne].
    - exists o'. rewrite lookup_insert_eq. rewrite Ho in Ho1. injection Ho1 as ->. destruct (Hf Hc) as [? ?].
      split; [done|]. split; [done|congruence].
    - exists o. by rewrite lookup_insert_ne. }
  intros Hst Hs. destruct Hst as [obs id' e Hn|obs id'|obs id' o Ho Hr|obs id'].
  - destruct Hs as (o&Ho&Hc&Hl). exists o. simpl. rewrite lookup_insert_ne; [done|]. intros ->. congruence.
  - apply Halter; [|done]. intros o Ho. by apply api_call_silent.
  - eapply Hins; [exact Ho| |done]. apply run_poll_silent.
  - unfold StopObservingDevices, stopObservingDevices. destruct (obs !! id') as [o|] eqn:Ho; [|done].
    destruct (od_subscribed o); [|done]. simpl. apply Halter.
    + intros o1 Hc1. destruct (od_running o1); [by apply run_poll_silent|done].
    + eapply Hins; [exact Ho| |done]. by intros Hc.
Qed.

(** C23 [StopObservingDevices] says whether the observation was there, and once it has returned
    true the handler of the application is never called again, whatever the client and the
    goroutines of its observers do from then on. *)
Theorem stopped_is_silent id obs obs1 ls obs2 :
  StopObservingDevices id obs = (true, obs1) → runs obs_step obs1 ls obs2 →
  (∃ o, obs !! id = Some o ∧ od_subscribed o = true) ∧
  ∃ o1 o2, obs1 !! id = Some o1 ∧ obs2 !! id = Some o2 ∧ od_running o1 = false ∧ od_calls o2 = od_calls o1.
Proof.
  intros Hstop Hr. unfold StopObservingDevices, stopObservingDevices in Hstop.
  destruct (obs !! id) as [o|] eqn:Ho; [|done]. destruct (od_subscribed o) eqn:Es; [|done].
  injection Hstop as <-. split; [by exists o|].
  set (o1 := if od_running (Cancel o) then run_poll (Cancel o) else Cancel o).
  assert (H1 : observer_Wait id (<[id:=Cancel o]> obs) !! id = Some o1).
  { unfold observer_Wait. by rewrite lookup_alter_eq, lookup_insert_eq. }
  assert (Hc1 : od_closed o1 = true).
  { unfold o1. destruct (od_running _); [by apply run_poll_silent|done]. }
  assert (Hr1 : od_running o1 = false).
  { unfold o1. destruct (od_running (Cancel o)) eqn:Er; [by apply run_poll_cancelled|done]. }
  destruct (runs_invariant obs_step (silenced id (od_calls o1)) (fun a l b HI Hst => step_silenced id _ a l b Hst HI) _ _ _ Hr)
    as (o2&Ho2&_&Hl); [by exists o1|].
  exists o1, o2. done.
Qed.
End Client.

(** ** At concrete inputs *)

Section Examples.
(** The discovery of the first round fails. *)
#[local] Instance ex_pr_env : ObserverEnv := {|
  OEnv := nat;
  oenv_observe e := (Err (ErrText "no network"), e);
  oenv_order e X := elements X;
  oenv_order_counts e m := map_to_list m;
  oenv_handle ev e := (Ok tt, e);
  oenv_calls e := ([], e) |}.
Definition ex_pr_config : ObserverConfig := {| PollingInterval := 1; FailureThreshold := 2 |}.
Definition ex_pr_observed : gmap string Observer := observe_insert "a" (observe_start (Ok "a") 0%nat ∅).2.

Lemma stopped_is_silent_witness :
  let obs1 := (StopObservingDevices ex_pr_config "a" ex_pr_observed).2 in
  (∃ o, ex_pr_observed !! "a" = Some o ∧ od_subscribed o = true) ∧
  ∃ o1 o2, obs1 !! "a" = Some o1 ∧ observe_insert "a" obs1 !! "a" = Some o2 ∧ od_running o1 = false ∧
    od_calls o2 = od_calls o1.
Proof.
  refine (stopped_is_silent ex_pr_config "a" ex_pr_observed _ [ObInsert "a"] _ _ _); [by vm_compute|].
  eapply runs_cons; [apply obs_insert|apply runs_nil].
Defined.

(** A goroutine that ends before [ObserveDevices] has inserted the subscription finds nothing
    to remove: the subscription of the ended observer stays. *)
Theorem ended_subscription_stays :
  ∃ o, observe_insert "a" (<["a" := run_poll ex_pr_config (newDevicesObserver 0%nat)]> ∅) !! "a" = Some o ∧
    od_running o = false ∧ od_calls o = [OError (ErrText "no network")] ∧ od_subscribed o = true.
Proof. eexists. by vm_compute. Qed.
End Examples.
