(* ===== verification/Logging.v ===== *)
(** * Logging: log levels and loggers, and the texts that are logged of messages

    [src/pkg/log/stdLogger.go], [NewLogger] of [src/bridge/device/device.go], the logging of
    requests in [src/bridge/net/network.go] and the dumps of [src/pkg/codec/ocf/codec.go].

    The standard logger of the Go library is one shared object: it is the state.  A line is
    kept with the prefix it was printed under, without the date.  The JSON and CBOR libraries
    are functions. *)

From S2P Require Export ClientCoap.
From S2P Require Import SecSchema.

(** ** Levels *)

Definition Level := Z.                                             (** int8 *)
Definition LevelNone : Level := 0.
Definition LevelDebug : Level := 1.
Definition LevelInfo : Level := 2.
Definition LevelWarn : Level := 3.
Definition LevelError : Level := 4.

Definition Level_String (l : Level) : string :=
  if l =? LevelNone then "none"
  else if l =? LevelDebug then "debug"
  else if l =? LevelInfo then "info"
  else if l =? LevelWarn then "warn"
  else if l =? LevelError then "error"
  else "Level(" +:+ format_int l +:+ ")".
Definition unmarshalText (text : string) : option Level :=
  if bool_decide (text = "") || bool_decide (text = "none") then Some LevelNone
  else if bool_decide (text = "debug") then Some LevelDebug
  else if bool_decide (text = "info") then Some LevelInfo
  else if bool_decide (text = "warn") then Some LevelWarn
  else if bool_decide (text = "error") then Some LevelError
  else None.

(** [bytes.ToLower], as far as the result can be a text of ASCII letters: the capitals of
    ASCII, and U+0130, whose lower case is [i].  Other bytes are kept. *)
Definition lower_ascii (c : ascii) : ascii :=
  let n := N_of_ascii c in if (65 <=? n)%N && (n <=? 90)%N then ascii_of_N (n + 32) else c.
Fixpoint ToLower (s : string) : string :=
  match s with
  | EmptyString => EmptyString
  | String c s' =>
      match s' with
      | String c2 s'' => if bool_decide (c = "196"%char) && bool_decide (c2 = "176"%char)
                         then String "i" (ToLower s'')
                         else String (lower_ascii c) (ToLower s')
      | EmptyString => String (lower_ascii c) EmptyString
      end
  end.
Definition UnmarshalText (text : string) : result Level :=
  match unmarshalText text with
  | Some l => Ok l
  | None => match unmarshalText (ToLower text) with
            | Some l => Ok l
            | None => Err (ErrText ("unrecognized level: " +:+ text))
            end
  end.
Definition ParseLevel (text : string) : result Level := UnmarshalText text.
Definition MarshalText (l : Level) : string := Level_String l.

(** ** The logger *)

(** [log.Default()]. *)
Record StdLog := { lg_prefix : string; lg_msgprefix : bool; lg_lines : list (string * string) }.
Definition SetPrefix (p : string) (s : StdLog) : StdLog :=
  {| lg_prefix := p; lg_msgprefix := lg_msgprefix s; lg_lines := lg_lines s |}.
Definition log_Println (msg : string) (s : StdLog) : StdLog :=
  {| lg_prefix := lg_prefix s; lg_msgprefix := lg_msgprefix s; lg_lines := lg_lines s ++ [(lg_prefix s, msg)] |}.

(** A [StdLogger] is the shared logger and a level. *)
Record StdLogger := { sl_level : Level }.
Definition NewStdLogger (logLevel : Level) : StdLogger := {| sl_level := logLevel |}.
Definition checkLevel (l : StdLogger) (level : Level) : bool :=
  negb (sl_level l =? LevelNone) && (sl_level l <=? level).
Definition LogWithLevel (l : StdLogger) (level : Level) (msg : string) (s : StdLog) : StdLog :=
  if checkLevel l level then log_Println msg s else s.
Definition log_Debug (l : StdLogger) := LogWithLevel l LevelDebug.
Definition log_Info (l : StdLogger) := LogWithLevel l LevelInfo.
Definition log_Warn (l : StdLogger) := LogWithLevel l LevelWarn.
Definition log_Error (l : StdLogger) := LogWithLevel l LevelError.
(** With the formatted text; [Printf] with a final newline prints the line of [Println]. *)
Definition LogWithLevelf (l : StdLogger) (level : Level) (text : string) (s : StdLog) : StdLog :=
  if checkLevel l level then log_Println text s else s.
Definition log_Debugf (l : StdLogger) := LogWithLevelf l LevelDebug.
Definition log_Infof (l : StdLogger) := LogWithLevelf l LevelInfo.
Definition log_Warnf (l : StdLogger) := LogWithLevelf l LevelWarn.
Definition log_Errorf (l : StdLogger) := LogWithLevelf l LevelError.

(** The logger of a bridged device: the prefix is that of the shared logger. *)
Definition device_NewLogger (id : UUID) (level : Level) (s : StdLog) : StdLogger * StdLog :=
  let l := NewStdLogger level in
  if bool_decide (id = uuid_Nil) then (l, s)
  else (l, {| lg_prefix := "[" +:+ id +:+ "] "; lg_msgprefix := true; lg_lines := lg_lines s |}).

(** ** Texts of messages *)

Section Messages.
(** [cbor.ReadFrom] into any value with [json.Encode] of it; [cbor.ToJSON]; [String] of a media
    type and of a message. *)
Context (cbor_to_json : string → result string) (ToJSON : string → result string)
  (media_String : Z → string) (message_String : Message → string).

(** The body is read and put back to its start. *)
Definition getLogContent (r : option Message) : string :=
  match r with
  | None => ""
  | Some m =>
      match m_body m with
      | None => ""
      | Some body =>
          let contentFormat := default TextPlain (m_format m) in
          if (contentFormat =? AppCBOR) || (contentFormat =? AppOcfCbor)
          then match cbor_to_json body with Ok data => data | Err _ => "" end
          else if contentFormat =? TextPlain then body else ""
      end
  end.
Definition logReqResp (logger : StdLogger) (remote : string) (r : Message) (resp : option Message) (s : StdLog) : StdLog :=
  let content := getLogContent resp in
  if bool_decide (m_path r = Some "/.well-known/core") then s
  else log_Debugf logger (remote +:+ ", req=" +:+ message_String r +:+ " resp=" +:+
         match resp with Some m => message_String m | None => "" end +:+ ", content=" +:+ content) s.
(** The handler runs first; its response is logged. *)
Definition CreateLoggingMiddleware {W} (logger : StdLogger) (next : Message → W → option Message * W)
    (remote : string) (r : Message) (w : W) (s : StdLog) : option Message * W * StdLog :=
  let (resp, w') := next r w in (resp, w', logReqResp logger remote r resp s).

(** A dump reads the body and leaves it at its end: the second result is the message as its
    next reader finds it. *)
Definition read_all (m : Message) : Message := match m_body m with Some _ => set_body "" m | None => m end.
Definition DumpPayload (m : Message) : result string * Message :=
  match m_body m with
  | None => (Ok "nil", m)
  | Some b =>
      match m_format m with
      | None => (Err (errUnknownContentFormat ErrOptionNotFound), m)
      | Some mt =>
          if (mt =? TextPlain) || (mt =? AppJSON) then (Ok b, read_all m)
          else if (mt =? AppCBOR) || (mt =? AppOcfCbor) then (ToJSON b, read_all m)
          else (Err (ErrText ("unknown content format " +:+ media_String mt)), m)
      end
  end.
Definition newline : string := String "010" EmptyString.
(** The path is printed when there is none. *)
Definition DumpHeader (m : Message) : string :=
  let buf := match m_path m with None => "Path: " +:+ newline | Some _ => "" end in
  let buf := match m_format m with Some cf => buf +:+ "Format: " +:+ media_String cf +:+ newline | None => buf end in
  match m_queries m with
  | Some queries => buf +:+ "Queries: [" +:+ join queries " " +:+ "]" +:+ newline
  | None => buf
  end.
(** [err_Error]: the text of an error. *)
Definition Dump (err_Error : error → string) (m : Message) : string * Message :=
  let header := DumpHeader m in
  let (payload, m') := DumpPayload m in
  (header +:+ newline +:+ "Content: " +:+ match payload with Ok p => p | Err err => err_Error err end +:+ newline, m').
End Messages.

(** ** Properties *)

Lemma level_cases l : LevelNone <= l <= LevelError → l = 0 ∨ l = 1 ∨ l = 2 ∨ l = 3 ∨ l = 4.
Proof. unfold LevelNone, LevelError. lia. Qed.
Lemma Level_String_inj l l' :
  LevelNone <= l <= LevelError → LevelNone <= l' <= LevelError → Level_String l = Level_String l' → l = l'.
Proof.
  intros [->|[->|[->|[->| ->]]]]%level_cases [->|[->|[->|[->| ->]]]]%level_cases; by intros [=].
Qed.
Lemma Level_String_lower l : LevelNone <= l <= LevelError → ToLower (Level_String l) = Level_String l.
Proof. by intros [->|[->|[->|[->| ->]]]]%level_cases. Qed.
Lemma unmarshalText_spec text l :
  unmarshalText text = Some l ↔ (text = "" ∧ l = LevelNone) ∨ (LevelNone <= l <= LevelError ∧ text = Level_String l).
Proof.
  unfold unmarshalText, LevelNone, LevelDebug, LevelInfo, LevelWarn, LevelError. split.
  - repeat case_bool_decide; subst; simpl; intros H'; try discriminate; injection H' as <-;
      (by left) || (right; split; [lia|done]).
  - intros [[-> ->]|[Hl ->]]; [done|].
    assert (l = 0 ∨ l = 1 ∨ l = 2 ∨ l = 3 ∨ l = 4) as [->|[->|[->|[->| ->]]]] by lia; done.
Qed.

(** Exactly the names of the levels are read, as their level and in any case of their letters,
    and the empty text as no logging; so a level that is written is read back. *)
Theorem ParseLevel_spec text l :
  ParseLevel text = Ok l ↔
  (text = "" ∧ l = LevelNone) ∨ (LevelNone <= l <= LevelError ∧ (text = MarshalText l ∨ ToLower text = MarshalText l)).
Proof.
  unfold ParseLevel, UnmarshalText, MarshalText. split.
  - destruct (unmarshalText text) as [l1|] eqn:E1.
    { intros [= ->]. apply unmarshalText_spec in E1 as [?|[? ?]]; auto. }
    destruct (unmarshalText (ToLower text)) as [l2|] eqn:E2; [|done]. intros [= ->].
    apply unmarshalText_spec in E2 as [[Ht ->]|[? ?]]; [|auto]. left. split; [|done].
    destruct text as [|c [|c2 s]]; [done..|]. cbn in Ht. by destruct (_ && _).
  - intros H. destruct (unmarshalText text) as [l1|] eqn:E1.
    + f_equal. destruct H as [[-> ->]|[Hl [->|Ht]]].
      * by injection E1.
      * assert (unmarshalText (Level_String l) = Some l) by (apply unmarshalText_spec; auto). congruence.
      * apply unmarshalText_spec in E1 as [[-> ->]|[Hl1 ->]].
        { symmetry in Ht. by apply level_cases in Hl as [->|[->|[->|[->| ->]]]]. }
        rewrite Level_String_lower in Ht by done. by apply Level_String_inj.
    + destruct H as [[-> ->]|[Hl [->|Ht]]]; [done| |].
      * exfalso. assert (unmarshalText (Level_String l) = Some l) by (apply unmarshalText_spec; auto). congruence.
      * assert (unmarshalText (ToLower text) = Some l) as -> by (apply unmarshalText_spec; auto). done.
Qed.

(** The loggers of two devices print under the prefix of the one that was made last. *)
Theorem device_prefix_shared a b level msg s :
  a ≠ uuid_Nil → b ≠ uuid_Nil → LevelDebug <= level <= LevelInfo →
  let (la, s1) := device_NewLogger a level s in
  let (lb, s2) := device_NewLogger b level s1 in
  lg_lines (log_Info la msg s2) = lg_lines s ++ [("[" +:+ b +:+ "] ", msg)].
Proof.
  intros Ha Hb Hl. unfold device_NewLogger. rewrite !bool_decide_false by done.
  unfold log_Info, LogWithLevel, checkLevel, NewStdLogger, LevelDebug, LevelInfo, LevelNone in *. cbn [sl_level].
  destruct (Z.eqb_spec level 0); [lia|]. by destruct (Z.leb_spec level 2); [|lia].
Qed.

(** The path of a message that has one is not in its dump. *)
Theorem DumpHeader_without_path media_String path m m' :
  m_path m = Some path → m_path m' = Some "" → m_format m' = m_format m → m_queries m' = m_queries m →
  DumpHeader media_String m = DumpHeader media_String m'.
Proof. intros Hp Hp' Hf Hq. unfold DumpHeader. by rewrite Hp, Hp', Hf, Hq. Qed.

(** A dumped message has nothing left to decode. *)
Theorem Dump_consumes ToJSON media_String err_Error m b :
  m_body m = Some b → m_format m = Some AppOcfCbor →
  m_body (Dump ToJSON media_String err_Error m).2 = Some "".
Proof. intros Hb Hf. unfold Dump, DumpPayload. rewrite Hb, Hf. simpl. unfold read_all. by rewrite Hb. Qed.
