(* ===== verification/Dialing.v ===== *)
(** * Dialing: connections and the transfer methods

    The dial functions of [src/pkg/net/coap/client.go]; the two methods by which a device is
    taken ([src/client/core/otm/manufacturer], [src/client/core/otm/just-works] with its
    cipher suite); and the certificates of an application ([src/client/app]).

    go-coap, DTLS, TLS and the ciphers are classes.  A connection is a number, and the
    world records what is opened and closed and which close callbacks a connection has. *)

From S2P Require Export ClientConfig.

(** ** Options of go-coap *)

(** [tls.Config] and [dtls.Config], in what the code sets: whether the check of the library is
    skipped, the cipher suites by their IDs, those made by the caller, the certificates, and
    the check of the caller. *)
Record SecConfig {C : Type} := {
  InsecureSkipVerify : bool;
  CipherSuites : list Z;
  CustomCipherSuites : option (list Z);
  Certificates : list C;
  VerifyPeerCertificate : option (Z → list string → result unit) }.
Arguments SecConfig : clear implicits.
(** The defaults that are set here, then the options of the caller. *)
Inductive SockOption {C : Type} :=
  | SockErrors | SockMessagePool | SockTLS (cfg : SecConfig C) | SockDialer (timeout : Z)
  | SockUser (o : DialOption).
Arguments SockOption : clear implicits.

Section Dial.
Context {C H : Type}.

(** [c.NetConn()] of a DTLS connection is one of pion, or another. *)
Class Sockets (E : Type) := {
  udp_Dial : string → list (SockOption C) → E → result nat * E;
  tcp_Dial : string → list (SockOption C) → E → result nat * E;
  dtls_Dial : string → SecConfig C → list (SockOption C) → E → result nat * E;
  is_dtls : nat → bool;
  HandshakeContext : nat → E → result unit * E;
  sock_Close : nat → E → result unit * E }.
Context {E : Type} `{HSock : Sockets E}.

(** [net_open]: the connections that were opened and not closed.  [net_onClose]: the close
    handlers that the connections call, in the heap [net_handlers] of [OnCloseHandler]s. *)
Record NetWorld := {
  net_env : E; net_open : list nat; net_onClose : gmap nat (list nat);
  net_handlers : gmap nat (OnCloseHandler H) }.
Abbreviation NM := (ME NetWorld).
Record ClientCloseHandler := { cch_conn : nat; cch_onClose : nat }.

Definition with_net {A} (m : ME E A) (opens : A → list nat → list nat) : NM A := fun w =>
  let (r, e) := m (net_env w) in
  (r, {| net_env := e; net_open := match r with Ok a => opens a (net_open w) | Err _ => net_open w end;
         net_onClose := net_onClose w; net_handlers := net_handlers w |}).
Definition opened (m : ME E nat) : NM nat := with_net m (fun c l => l ++ [c]).
(** A connection is closed whatever [Close] returns. *)
Definition conn_Close (c : nat) : NM unit := fun w =>
  let (r, e) := sock_Close c (net_env w) in
  (r, {| net_env := e; net_open := filter (λ c', c' ≠ c) (net_open w); net_onClose := net_onClose w;
         net_handlers := net_handlers w |}).
(** [NewOnCloseHandler()], in the heap. *)
Definition new_handler : NM nat := fun w =>
  let h := fresh (dom (net_handlers w)) in
  (Ok h, {| net_env := net_env w; net_open := net_open w; net_onClose := net_onClose w;
            net_handlers := <[h := NewOnCloseHandler]> (net_handlers w) |}).
Definition AddOnClose (c h : nat) : NM unit :=
  modify (fun w => {| net_env := net_env w; net_open := net_open w;
                      net_onClose := <[c := default [] (net_onClose w !! c) ++ [h]]> (net_onClose w);
                      net_handlers := net_handlers w |}).

(** [deadline] is that of the context, if it has one, and [now] the time. *)
Context (now : Z) (deadline : option Z).
Definition dialer : list (SockOption C) := match deadline with Some d => [SockDialer (d - now)] | None => [] end.
Definition getDefaultTCPOptions (tlsCfg : option (SecConfig C)) : list (SockOption C) :=
  [SockErrors; SockMessagePool] ++ match tlsCfg with Some c => [SockTLS c] | None => [] end ++ dialer.
Definition getDefaultUDPOptions : list (SockOption C) := [SockErrors; SockMessagePool] ++ dialer.

Definition dialed (h : nat) (m : NM nat) : NM ClientCloseHandler :=
  c ← m; AddOnClose c h;; mret {| cch_conn := c; cch_onClose := h |}.
Definition net_DialUDP (addr : string) (opts : list DialOption) : NM ClientCloseHandler :=
  h ← new_handler; dialed h (opened (udp_Dial addr (getDefaultUDPOptions ++ map SockUser opts))).
Definition net_DialTCP (addr : string) (opts : list DialOption) : NM ClientCloseHandler :=
  h ← new_handler; dialed h (opened (tcp_Dial addr (getDefaultTCPOptions None ++ map SockUser opts))).
Definition net_DialTCPSecure (addr : string) (tlsCfg : SecConfig C) (opts : list DialOption) : NM ClientCloseHandler :=
  h ← new_handler; dialed h (opened (tcp_Dial addr (getDefaultTCPOptions (Some tlsCfg) ++ map SockUser opts))).
(** The handshake of a DTLS connection; when it fails the connection is closed. *)
Definition handshake (c : nat) : NM nat :=
  r ← catch (with_net (HandshakeContext c) (fun _ l => l));
  match r with
  | Ok _ => mret c
  | Err err =>
      rc ← catch (conn_Close c);
      fail (match rc with
            | Ok _ => default err (err_append None err)
            | Err errC => default err (err_append (err_append None err) errC)
            end)
  end.
Definition net_DialUDPSecure (addr : string) (dtlsCfg : SecConfig C) (opts : list DialOption) : NM ClientCloseHandler :=
  h ← new_handler;
  dialed h (c ← opened (dtls_Dial addr dtlsCfg (getDefaultUDPOptions ++ map SockUser opts));
            if is_dtls c then handshake c else mret c).

(** ** The handlers of a dialled connection *)

Definition on_handler {A} (h : nat) (f : OnCloseHandler H → A * OnCloseHandler H) : NM A := fun w =>
  match net_handlers w !! h with
  | None => (Err (ErrText "runtime error: nil pointer dereference"), w)
  | Some oc => let (a, oc) := f oc in
               (Ok a, {| net_env := net_env w; net_open := net_open w; net_onClose := net_onClose w;
                         net_handlers := <[h := oc]> (net_handlers w) |})
  end.
Definition RegisterCloseHandler (f : H) (c : ClientCloseHandler) : NM nat := on_handler (cch_onClose c) (ClientCoap.Add f).
Definition UnregisterCloseHandler (closeHandlerID : nat) (c : ClientCloseHandler) : NM unit :=
  on_handler (cch_onClose c) (fun oc => (tt, ClientCoap.Remove closeHandlerID oc)).
(** The handlers that are called when a connection is closed. *)
Context (map_order : gmap nat H → list (nat * H)).
Definition closed_calls (c : nat) (w : NetWorld) : list H :=
  concat (map (fun h => match net_handlers w !! h with Some oc => ClientCoap.OnClose map_order oc | None => [] end)
            (default [] (net_onClose w !! c))).
End Dial.
Arguments Sockets : clear implicits.
Arguments NetWorld : clear implicits.

(** ** The transfer methods ([otm]) *)

(** [x509.NewCertPool] and [AddCert]. *)
Class CertPools `{X509} (C : Type) := { NewCertPool : CertPool; AddCert : CertPool → C → CertPool }.

Section Transfer.
Context `{HX : X509} `{HKit : Kit} {E H TC CA : Type} `{HPool : !CertPools CA}.
Context `{HSock : !Sockets TC E}.
Abbreviation NM := (ME (NetWorld H E)).
Abbreviation Dialer := (string → SecConfig TC → NM ClientCloseHandler).

(** *** The manufacturer *)

Record ManufacturerClient := {
  mc_certificate : TC; mc_CA : list CA; mc_dialDTLS : Dialer; mc_dialTLS : Dialer }.
Definition ManufacturerOption : Type := ManufacturerClient → ManufacturerClient.
Definition mfg_WithDialDTLS (dial : option Dialer) : ManufacturerOption := fun cfg =>
  {| mc_certificate := mc_certificate cfg; mc_CA := mc_CA cfg;
     mc_dialDTLS := default (mc_dialDTLS cfg) dial; mc_dialTLS := mc_dialTLS cfg |}.
Definition mfg_WithDialTLS (dial : option Dialer) : ManufacturerOption := fun cfg =>
  {| mc_certificate := mc_certificate cfg; mc_CA := mc_CA cfg; mc_dialDTLS := mc_dialDTLS cfg;
     mc_dialTLS := default (mc_dialTLS cfg) dial |}.
(** [now] and [deadline] belong to the context of the dial. *)
Context (now : Z) (deadline : option Z).
Definition mfg_NewClient (manufacturerCertificate : TC) (manufacturerCA : list CA)
    (opts : list ManufacturerOption) : ManufacturerClient :=
  foldl (fun c o => o c)
    {| mc_certificate := manufacturerCertificate; mc_CA := manufacturerCA;
       mc_dialDTLS := fun addr cfg => net_DialUDPSecure now deadline addr cfg [];
       mc_dialTLS := fun addr cfg => net_DialTCPSecure now deadline addr cfg [] |} opts.
Definition mfg_Type (c : ManufacturerClient) : OwnerTransferMethod := ManufacturerCertificate.

Definition TLS_ECDHE_ECDSA_WITH_AES_128_CCM : Z := 49324.
Definition TLS_ECDHE_ECDSA_WITH_AES_128_CCM_8 : Z := 49326.
Definition root_pool (cas : list CA) : CertPool := foldl AddCert NewCertPool cas.
Definition mfg_config (suites : list Z) (c : ManufacturerClient) : SecConfig TC :=
  {| InsecureSkipVerify := true; CipherSuites := suites; CustomCipherSuites := None;
     Certificates := [mc_certificate c];
     VerifyPeerCertificate := Some (NewVerifyPeerCertificate (root_pool (mc_CA c)) (Some (fun _ => Ok tt))) |}.
Definition unsupported (addr : Addr) : error :=
  ErrText ("cannot dial to url " +:+ addr_URL addr +:+ ": scheme " +:+ addr_GetScheme addr +:+ " not supported").
Definition mfg_Dial (c : ManufacturerClient) (addr : Addr) : NM ClientCloseHandler :=
  if bool_decide (addr_GetScheme addr = UDPSecureScheme)
  then mc_dialDTLS c (addr_String addr)
         (mfg_config [TLS_ECDHE_ECDSA_WITH_AES_128_CCM_8; TLS_ECDHE_ECDSA_WITH_AES_128_CCM] c)
  else if bool_decide (addr_GetScheme addr = TCPSecureScheme)
  then mc_dialTLS c (addr_String addr) (mfg_config [] c)
  else fail (unsupported addr).

(** *** Just works *)

Record JustWorksClient := { jw_dialDTLS : Dialer }.
Definition JustWorksOption : Type := JustWorksClient → JustWorksClient.
Definition jw_WithDialDTLS (dial : option Dialer) : JustWorksOption := fun cfg =>
  {| jw_dialDTLS := default (jw_dialDTLS cfg) dial |}.
Definition jw_NewClient (opts : list JustWorksOption) : JustWorksClient :=
  foldl (fun c o => o c) {| jw_dialDTLS := fun addr cfg => net_DialUDPSecure now deadline addr cfg [] |} opts.
Definition jw_Type (c : JustWorksClient) : OwnerTransferMethod := JustWorks.
Definition jw_suite : Z := 65280.
Definition jw_config : SecConfig TC :=
  {| InsecureSkipVerify := false; CipherSuites := []; CustomCipherSuites := Some [jw_suite]; Certificates := [];
     VerifyPeerCertificate := None |}.
Definition jw_Dial (c : JustWorksClient) (addr : Addr) : NM ClientCloseHandler :=
  if bool_decide (addr_GetScheme addr = UDPSecureScheme)
  then jw_dialDTLS c (addr_String addr) jw_config
  else fail (unsupported addr).
End Transfer.

(** ** The cipher suite of just works *)

(** The keys derived from the secrets; a CBC cipher as the pointer that [NewCBC] returns,
    with or without an error, given to the methods as it is; the hash by its name.  [R] is
    the randomness of the encryption. *)
Class CbcLib (R : Type) := {
  Keys : Type;
  key_ClientMAC : Keys → string; key_ServerMAC : Keys → string;
  key_ClientWrite : Keys → string; key_ServerWrite : Keys → string;
  key_ClientIV : Keys → string; key_ServerIV : Keys → string;
  prf_GenerateEncryptionKeys : string → string → string → Z → Z → Z → string → result Keys;
  CBC : Type;
  NewCBC : string → string → string → string → string → string → string → CBC * result unit;
  RecordLayer : Type;
  RecordHeader : Type;
  cbc_Encrypt : CBC → RecordLayer → string → R → result string * R;
  cbc_Decrypt : CBC → RecordHeader → string → result string;
  CipherSuiteKeyExchangeAlgorithmEcdhe : Z;
  CipherSuiteAuthenticationTypeAnonymous : Z }.

Section Cipher.
Context {R : Type} `{HCbc : CbcLib R}.

(** [cbc]: nothing, or what was stored. *)
Record TLSAecdhAes128Sha256 := { cs_cbc : option CBC; cs_id : Z }.
Definition NewTLSAecdhAes128Sha256 (id : Z) : TLSAecdhAes128Sha256 := {| cs_cbc := None; cs_id := id |}.
Definition CertificateType (c : TLSAecdhAes128Sha256) : Z := 0.
Definition ID (c : TLSAecdhAes128Sha256) : Z := cs_id c.
Definition KeyExchangeAlgorithm (c : TLSAecdhAes128Sha256) : Z := CipherSuiteKeyExchangeAlgorithmEcdhe.
Definition ECC (c : TLSAecdhAes128Sha256) : bool := true.
Definition suite_String (c : TLSAecdhAes128Sha256) : string := "AECDH-AES128-SHA256".
Definition HashFunc (c : TLSAecdhAes128Sha256) : string := "sha256".
Definition AuthenticationType (c : TLSAecdhAes128Sha256) : Z := CipherSuiteAuthenticationTypeAnonymous.
Definition IsInitialized (c : TLSAecdhAes128Sha256) : bool :=
  match cs_cbc c with None => false | Some _ => true end.

Definition prfMacLen : Z := 32.
Definition prfKeyLen : Z := 16.
Definition prfIvLen : Z := 16.
(** What [NewCBC] returns is stored before its error is looked at. *)
Definition suite_Init (masterSecret clientRandom serverRandom : string) (isClient : bool)
    (c : TLSAecdhAes128Sha256) : result unit * TLSAecdhAes128Sha256 :=
  match prf_GenerateEncryptionKeys masterSecret clientRandom serverRandom prfMacLen prfKeyLen prfIvLen (HashFunc c) with
  | Err err => (Err err, c)
  | Ok keys =>
      let (cbc, err) :=
        if isClient
        then NewCBC (key_ClientWrite keys) (key_ClientIV keys) (key_ClientMAC keys)
               (key_ServerWrite keys) (key_ServerIV keys) (key_ServerMAC keys) "sha256"
        else NewCBC (key_ServerWrite keys) (key_ServerIV keys) (key_ServerMAC keys)
               (key_ClientWrite keys) (key_ClientIV keys) (key_ClientMAC keys) "sha256" in
      (err, {| cs_cbc := Some cbc; cs_id := cs_id c |})
  end.
Definition ErrCipherSuiteNotReady : error := ErrText "CipherSuite is not ready".
Definition suite_Encrypt (c : TLSAecdhAes128Sha256) (pkt : RecordLayer) (raw : string) : ME R string :=
  match cs_cbc c with
  | None => fail (ErrWrap "unable to encrypt" ErrCipherSuiteNotReady)
  | Some cbc => cbc_Encrypt cbc pkt raw
  end.
Definition suite_Decrypt (c : TLSAecdhAes128Sha256) (h : RecordHeader) (raw : string) : result string :=
  match cs_cbc c with
  | None => Err (ErrWrap "unable to decrypt" ErrCipherSuiteNotReady)
  | Some cbc => cbc_Decrypt cbc h raw
  end.
End Cipher.

(** ** The certificates of an application ([app]) *)

Section App.
Context `{HCore : CoreEnv} `{HCred : CredEnv} `{HLib : !CertLib} `{HOwn : !OwnerLib}.

Record ManufacturerCerts := { mfg_CA : string; mfg_Cert : string; mfg_CertKey : string }.
Record AppConfig := { app_RootCA : string; app_Manufacturer : option ManufacturerCerts }.
Record App := { rootCA : list Cert; manufacturerCA : list Cert; manufacturerCert : option TlsCertificate }.
Definition NewApp (cfg : option AppConfig) : result App :=
  match cfg with
  | None => Ok {| rootCA := []; manufacturerCA := []; manufacturerCert := None |}
  | Some cfg =>
      let pem wrap data := match ParsePemCertificates (Some data) with Ok c => Ok c | Err err => Err (ErrWrap wrap err) end in
      rootCA ← (if bool_decide (app_RootCA cfg = "") then Ok [] else pem "invalid Root CA" (app_RootCA cfg));
      manufacturerCA ← match app_Manufacturer cfg with
                       | Some m => if bool_decide (mfg_CA m = "") then Ok [] else pem "invalid Manufacturer's CA" (mfg_CA m)
                       | None => Ok []
                       end;
      manufacturerCert ← match app_Manufacturer cfg with
                         | Some m => if bool_decide (mfg_Cert m = "") || bool_decide (mfg_CertKey m = "") then Ok zero_TlsCertificate
                                     else match tls_X509KeyPair (mfg_Cert m) (mfg_CertKey m) with
                                          | Ok c => Ok c
                                          | Err err => Err (ErrWrap "invalid Manufacturer's cert" err)
                                          end
                         | None => Ok zero_TlsCertificate
                         end;
      Ok {| rootCA := rootCA; manufacturerCA := manufacturerCA; manufacturerCert := Some manufacturerCert |}
  end.
Definition app_GetRootCertificateAuthorities (a : App) : result (list Cert) :=
  if (length (rootCA a) =? 0)%nat then Err (ErrText "missing Root CA") else Ok (rootCA a).
Definition app_GetManufacturerCertificateAuthorities (a : App) : result (list Cert) :=
  if (length (manufacturerCA a) =? 0)%nat then Err (ErrText "missing Manufacturer's CA") else Ok (manufacturerCA a).
Definition app_GetManufacturerCertificate (a : App) : result TlsCertificate :=
  match manufacturerCert a with
  | None => Err (ErrText "missing Manufacturer's certificate")
  | Some c => Ok c
  end.
(** As the SDK sees it. *)
Definition app_callback (a : App) : ApplicationCallback :=
  {| GetManufacturerCertificateAuthorities := lift (app_GetManufacturerCertificateAuthorities a);
     GetManufacturerCertificate := lift (app_GetManufacturerCertificate a) |}.
End App.
