(* ===== verification/DialingProps.v ===== *)
(** * DialingProps: what a dial leaves behind, and what the transfer methods accept

    A dial that fails leaves no connection open, whichever step failed; one that succeeds
    leaves one, which calls the registered handlers when it is closed.  The manufacturer
    method accepts the peers that its authorities verify; the cipher suite of just works
    reads and writes the records of a peer that derives its keys as RFC 5246 says. *)

From S2P Require Import Dialing Verify ClientCoap.

(** Unfold one sequence of steps. *)
Ltac mrun := unfold mret, mbind, ME_ret, ME_bind, fail, modify, lift; cbn [fst snd].

(** ** Dials *)

(** A dial gives a number that no connection had: [handed e] are those of [e]. *)
Class SocketLaws (C E : Type) `{Sockets C E} := {
  handed : E → nat → Prop;
  udp_fresh addr o e c e' : udp_Dial addr o e = (Ok c, e') → ¬ handed e c ∧ ∀ x, handed e' x ↔ handed e x ∨ x = c;
  tcp_fresh addr o e c e' : tcp_Dial addr o e = (Ok c, e') → ¬ handed e c ∧ ∀ x, handed e' x ↔ handed e x ∨ x = c;
  dtls_fresh addr cfg o e c e' :
    dtls_Dial addr cfg o e = (Ok c, e') → ¬ handed e c ∧ ∀ x, handed e' x ↔ handed e x ∨ x = c;
  udp_failed addr o e err e' x : udp_Dial addr o e = (Err err, e') → handed e' x ↔ handed e x;
  tcp_failed addr o e err e' x : tcp_Dial addr o e = (Err err, e') → handed e' x ↔ handed e x;
  dtls_failed addr cfg o e err e' x : dtls_Dial addr cfg o e = (Err err, e') → handed e' x ↔ handed e x;
  handshake_handed c e x : handed (HandshakeContext c e).2 x ↔ handed e x;
  close_handed c e x : handed (sock_Close c e).2 x ↔ handed e x }.

Section Dials.
Context {C H E : Type} `{HSock : Sockets C E} `{HLaws : !SocketLaws C E}.
Abbreviation World := (NetWorld H E).

Definition net_wf (w : World) : Prop :=
  (∀ c, c ∈ net_open w → handed (net_env w) c) ∧ (∀ c, is_Some (net_onClose w !! c) → handed (net_env w) c).

(** The connection [c] was opened between [w] and [w'], and nothing else is different. *)
Definition opens (c : nat) (w w' : World) : Prop :=
  c ∉ net_open w ∧ net_onClose w !! c = None ∧ handed (net_env w') c ∧
  (∀ x, handed (net_env w) x → handed (net_env w') x) ∧
  net_open w' = net_open w ++ [c] ∧ net_onClose w' = net_onClose w ∧ net_handlers w' = net_handlers w.
(** Nothing is different, but the numbers that were given. *)
Definition closes (w w' : World) : Prop :=
  (∀ x, handed (net_env w) x → handed (net_env w') x) ∧
  net_open w' = net_open w ∧ net_onClose w' = net_onClose w ∧ net_handlers w' = net_handlers w.
(** What opens a connection or leaves none. *)
Definition connects (m : ME World nat) : Prop := ∀ w, net_wf w →
  match m w with (Ok c, w') => opens c w w' | (Err _, w') => closes w w' end.

Lemma opened_connects (m : ME E nat) :
  (∀ e c e', m e = (Ok c, e') → ¬ handed e c ∧ ∀ x, handed e' x ↔ handed e x ∨ x = c) →
  (∀ e err e' x, m e = (Err err, e') → handed e' x ↔ handed e x) → connects (opened m).
Proof.
  intros Hok Herr w [Ho Hc]. unfold opened, with_net. destruct (m (net_env w)) as [[c|err] e'] eqn:Em.
  - destruct (Hok _ _ _ Em) as [Hn Hx]. split; [intros Hin; by apply Hn, Ho|].
    split; [|split; [by apply Hx; right|split; [by intros x ?; apply Hx; left|done]]].
    destruct (net_onClose w !! c) eqn:El; [|done]. exfalso. apply Hn, Hc. by rewrite El.
  - split; [|done]. intros x Hx. simpl. by apply (Herr _ _ _ _ Em).
Qed.

Lemma filter_fresh (c : nat) l : c ∉ l → filter (λ x, x ≠ c) (l ++ [c]) = l.
Proof.
  intros Hc. rewrite filter_app, (filter_cons_False _ c []) by auto. rewrite app_nil_r.
  induction l as [|x l IH]; [done|]. rewrite filter_cons_True by set_solver. f_equal. apply IH. set_solver.
Qed.

(** The handshake keeps the connection or closes it. *)
Lemma handshake_connects c w w1 :
  opens c w w1 →
  match handshake c w1 with (Ok c', w') => c' = c ∧ opens c w w' | (Err _, w') => closes w w' end.
Proof.
  intros (Hc&Hn&Hh&Hx&Ho&Hcl&Hhd). unfold handshake, with_net, catch, conn_Close. mrun.
  destruct (HandshakeContext c (net_env w1)) as [r e1] eqn:E1.
  pose proof (fun x => handshake_handed c (net_env w1) x) as L1. rewrite E1 in L1. simpl in L1.
  destruct r as [[]|err]; mrun.
  - split; [done|]. split; [done|]. split; [done|]. split; [by apply L1|]. split; [|done].
    intros x ?. apply L1, Hx. done.
  - destruct (sock_Close c e1) as [r2 e2] eqn:E2.
    pose proof (fun x => close_handed c e1 x) as L2. rewrite E2 in L2. simpl in L2.
    simpl. rewrite E2. destruct r2 as [[]|errC]; simpl; (split; [intros x ?; apply L2, L1, Hx; done|]);
      (split; [simpl; rewrite Ho; by apply filter_fresh|done]).
Qed.

Lemma dtls_connects addr cfg o :
  connects (c ← opened (dtls_Dial addr cfg o); if is_dtls c then handshake c else mret c).
Proof.
  intros w Hw. mrun. pose proof (opened_connects _ (dtls_fresh addr cfg o) (dtls_failed addr cfg o) w Hw) as H1.
  destruct (opened _ w) as [[c|err] w1]; [|done]. destruct (is_dtls c); [|done].
  pose proof (handshake_connects c w w1 H1) as H2. destruct (handshake c w1) as [[c'|err] w2]; [|done].
  by destruct H2 as [-> H2].
Qed.

(** The four dials, with what they share: a handler in the heap before, a callback after. *)
Inductive DialCall :=
  | CallUDP (addr : string) (opts : list DialOption) | CallTCP (addr : string) (opts : list DialOption)
  | CallTCPSecure (addr : string) (cfg : SecConfig C) (opts : list DialOption)
  | CallUDPSecure (addr : string) (cfg : SecConfig C) (opts : list DialOption).
Definition run_dial (now : Z) (deadline : option Z) (d : DialCall) : ME World ClientCloseHandler :=
  match d with
  | CallUDP addr opts => net_DialUDP now deadline addr opts
  | CallTCP addr opts => net_DialTCP now deadline addr opts
  | CallTCPSecure addr cfg opts => net_DialTCPSecure now deadline addr cfg opts
  | CallUDPSecure addr cfg opts => net_DialUDPSecure now deadline addr cfg opts
  end.

(** What a dial did to the world. *)
Definition dial_outcome (w : World) (r : result ClientCloseHandler) (w' : World) : Prop :=
  net_wf w' ∧
  match r with
  | Ok cl => net_open w' = net_open w ++ [cch_conn cl] ∧ cch_conn cl ∉ net_open w ∧
             net_onClose w' = <[cch_conn cl := [cch_onClose cl]]> (net_onClose w) ∧
             net_handlers w !! cch_onClose cl = None ∧
             net_handlers w' = <[cch_onClose cl := NewOnCloseHandler]> (net_handlers w)
  | Err _ => net_open w' = net_open w ∧ net_onClose w' = net_onClose w ∧
             ∃ h, net_handlers w !! h = None ∧ net_handlers w' = <[h := NewOnCloseHandler]> (net_handlers w)
  end.

Lemma dialed_outcome (m : ME World nat) w :
  connects m → net_wf w →
  let (r, w') := (h ← new_handler; dialed h m) w in dial_outcome w r w'.
Proof.
  intros Hm [Ho Hc]. unfold new_handler, dialed, AddOnClose. mrun.
  set (h := fresh (dom (net_handlers w))).
  assert (Hh : net_handlers w !! h = None) by (apply not_elem_of_dom, is_fresh).
  set (w1 := Build_NetWorld _ _ _ _).
  specialize (Hm w1 (conj Ho Hc)). destruct (m w1) as [[c|err] w2]; unfold dial_outcome, net_wf; simpl.
  - destruct Hm as (Hn&Hcl&Hh2&Hx&Ho2&Hc2&Hhd). rewrite Ho2, Hc2, Hhd. simpl in *. rewrite Hcl. simpl.
    split; [|done]. split.
    + intros x [Hin|Heq]%elem_of_app; [by apply Hx, Ho|].
      apply list_elem_of_singleton in Heq. by subst x.
    + intros x Hs. destruct (decide (x = c)) as [->|]; [done|].
      rewrite lookup_insert_ne in Hs by done. by apply Hx, Hc.
  - destruct Hm as (Hx&Ho2&Hc2&Hhd). rewrite Ho2, Hc2, Hhd. simpl in *.
    split; [split; [intros c ?; by apply Hx, Ho|intros c ?; by apply Hx, Hc]|]. split; [done|]. split; [done|].
    by exists h.
Qed.

Lemma run_dial_outcome now deadline d w :
  net_wf w → let (r, w') := run_dial now deadline d w in dial_outcome w r w'.
Proof.
  intros Hw. destruct d; cbn [run_dial].
  - apply (dialed_outcome _ w (opened_connects _ (udp_fresh _ _) (udp_failed _ _)) Hw).
  - apply (dialed_outcome _ w (opened_connects _ (tcp_fresh _ _) (tcp_failed _ _)) Hw).
  - apply (dialed_outcome _ w (opened_connects _ (tcp_fresh _ _) (tcp_failed _ _)) Hw).
  - apply (dialed_outcome _ w (dtls_connects _ _ _) Hw).
Qed.

(** C16 No dial leaks: whatever fails, the handshake of a DTLS connection included, the open
    connections and their close callbacks are those of before; a dial that succeeds adds one
    open connection, with one callback, that of its own fresh set of handlers. *)
Theorem dial_leaks_nothing now deadline d w :
  net_wf w → let (r, w') := run_dial now deadline d w in dial_outcome w r w'.
Proof. apply run_dial_outcome. Qed.

(** ** Closing a dialled connection *)

Context (map_order : gmap nat H → list (nat * H)).
Hypothesis map_order_perm : ∀ m, map_order m ≡ₚ map_to_list m.

Definition handler_op (cl : ClientCloseHandler) (l : OcLabel H) : ME World unit :=
  match l with
  | LAdd f => (RegisterCloseHandler f cl;; mret tt)
  | LRemove id => UnregisterCloseHandler id cl
  end.

Lemma handler_ops_run cl oc (ls : list (OcLabel H)) w :
  net_handlers w !! cch_onClose cl = Some oc →
  ∃ w', each (handler_op cl) ls w = (Ok tt, w') ∧ net_onClose w' = net_onClose w ∧ net_open w' = net_open w ∧
    net_handlers w' !! cch_onClose cl = Some (foldl oc_exec oc ls).
Proof.
  revert oc w. induction ls as [|l ls IH]; intros oc w Hoc; [by exists w|].
  assert (∃ w1, handler_op cl l w = (Ok tt, w1) ∧ net_onClose w1 = net_onClose w ∧ net_open w1 = net_open w ∧
    net_handlers w1 !! cch_onClose cl = Some (oc_exec oc l)) as (w1&E1&Hc1&Ho1&Hh1).
  { destruct l; unfold handler_op, RegisterCloseHandler, UnregisterCloseHandler, on_handler; mrun;
      rewrite Hoc; eexists; (split; [done|split; [done|split; [done|apply lookup_insert_eq]]]). }
  destruct (IH _ _ Hh1) as (w'&E'&Hc'&Ho'&Hh'). exists w'. cbn [each]. mrun. rewrite E1. by rewrite Hc', Ho', Hc1, Ho1.
Qed.

(** When a dialled connection is closed, exactly the handlers run that were registered
    with it and not removed, each as often as it was registered. *)
Theorem dialed_close_calls now deadline d w cl w1 ls :
  net_wf w → run_dial now deadline d w = (Ok cl, w1) →
  ∃ w2, each (handler_op cl) ls w1 = (Ok tt, w2) ∧ net_open w2 = net_open w1 ∧
    closed_calls map_order (cch_conn cl) w2 ≡ₚ (registrations 0 [] ls).*2.
Proof using map_order_perm HLaws.
  intros Hw Ed. pose proof (run_dial_outcome now deadline d w Hw) as Ho. rewrite Ed in Ho.
  destruct Ho as (_&_&_&Hc&_&Hh).
  destruct (handler_ops_run cl NewOnCloseHandler ls w1) as (w2&E2&Hc2&Ho2&Hh2).
  { rewrite Hh. apply lookup_insert_eq. }
  exists w2. split; [done|]. split; [done|]. unfold closed_calls.
  rewrite Hc2, Hc, lookup_insert_eq. cbn [default from_option map concat id].
  rewrite Hh2, app_nil_r. apply (on_close_registered map_order map_order_perm).
Qed.
End Dials.

(** ** The transfer methods *)

Section Methods.
Context `{HX : X509} `{HKit : Kit} {E H TC CA : Type} `{HPool : !CertPools CA} `{HSock : !Sockets TC E}.
Abbreviation World := (NetWorld H E).

Definition dial_cfg (d : DialCall (C := TC)) : option (SecConfig TC) :=
  match d with CallTCPSecure _ cfg _ | CallUDPSecure _ cfg _ => Some cfg | _ => None end.
(** A configuration that shows [cert] and accepts what the authorities verify. *)
Definition trusts (cert : TC) (cas : list CA) (cfg : SecConfig TC) : Prop :=
  Certificates cfg = [cert] ∧
  ∃ check, VerifyPeerCertificate cfg = Some check ∧
    ∀ t rawCerts, check t rawCerts = Ok tt ↔
      ∃ leaf intermediates, mapM x509_ParseCertificate rawCerts = Ok (leaf :: intermediates) ∧
        x509_Verify (root_pool cas) leaf intermediates t = Ok tt.

(** The manufacturer method dials secure addresses only: there it makes one secure dial,
    which shows the manufacturer's certificate and accepts exactly the peers whose chain
    verifies against the manufacturer's authorities; anywhere else it fails and does nothing. *)
Theorem mfg_Dial_spec now deadline cert cas addr (w : World) :
  let r := mfg_Dial (mfg_NewClient now deadline cert cas []) addr w in
  if bool_decide (addr_GetScheme addr ∈ [UDPSecureScheme; TCPSecureScheme])
  then ∃ d cfg, r = run_dial now deadline d w ∧ dial_cfg d = Some cfg ∧ trusts cert cas cfg
  else r = (Err (unsupported addr), w).
Proof.
  assert (Ht : ∀ suites, trusts cert cas (mfg_config suites (mfg_NewClient (H := H) now deadline cert cas []))).
  { intros suites. split; [done|]. eexists. split; [done|]. intros t raw. rewrite NewVerifyPeerCertificate_callback.
    apply verified_chain. }
  unfold mfg_Dial. cbv zeta.
  destruct (decide (addr_GetScheme addr = UDPSecureScheme)) as [E1|E1].
  { rewrite E1, !bool_decide_true by (done || set_solver).
    eexists (CallUDPSecure _ _ []), _. by split; [|split; [|apply Ht]]. }
  rewrite (bool_decide_false (_ = UDPSecureScheme)) by done.
  destruct (decide (addr_GetScheme addr = TCPSecureScheme)) as [E2|E2].
  { rewrite E2, !bool_decide_true by (done || set_solver).
    eexists (CallTCPSecure _ _ []), _. by split; [|split; [|apply Ht]]. }
  rewrite !bool_decide_false by set_solver. done.
Qed.

(** Just works dials DTLS only, with its own cipher suite and no certificate. *)
Theorem jw_Dial_spec now deadline addr (w : World) :
  jw_Dial (jw_NewClient (TC := TC) now deadline []) addr w =
  if bool_decide (addr_GetScheme addr = UDPSecureScheme)
  then net_DialUDPSecure now deadline (addr_String addr) jw_config [] w
  else (Err (unsupported addr), w).
Proof. unfold jw_Dial. by destruct (bool_decide _). Qed.
End Methods.

(** ** The cipher suite *)

(** The keys of one direction: for the MAC, for the cipher, and the initial vector. *)
Record WriteKeys := { wk_MAC : string; wk_Key : string; wk_IV : string }.
(** The keys that RFC 5246 (6.3) takes from a key block: the MAC keys of the client and the
    server, then their cipher keys, then their initial vectors. *)
Definition key_partition (block : string) (mac key iv : nat) (client : bool) : WriteKeys :=
  let at_ off len := String.substring (if client then off else off + len)%nat len block in
  {| wk_MAC := at_ 0%nat mac; wk_Key := at_ (2 * mac)%nat key; wk_IV := at_ (2 * mac + 2 * key)%nat iv |}.
Definition NewCBC_of `{CbcLib R} (own peer : WriteKeys) (h : string) : CBC * result unit :=
  NewCBC (wk_Key own) (wk_IV own) (wk_MAC own) (wk_Key peer) (wk_IV peer) (wk_MAC peer) h.

(** What is documented of the library: the keys are those of RFC 5246, from the key block that
    the secrets expand to; and a record that one cipher encrypts with its own keys, other than
    a change of the cipher, is decrypted to the same content by every cipher that has these as
    the keys of its peer, whatever the keys of the other direction are. *)
Class CbcLaws (R : Type) `{CbcLib R} := {
  key_block : string → string → string → string → Z → string;
  prf_partition m c s mac key iv h keys :
    prf_GenerateEncryptionKeys m c s mac key iv h = Ok keys →
    let block := key_block m c s h (2 * mac + 2 * key + 2 * iv) in
    let part := key_partition block (Z.to_nat mac) (Z.to_nat key) (Z.to_nat iv) in
    part true = {| wk_MAC := key_ClientMAC keys; wk_Key := key_ClientWrite keys; wk_IV := key_ClientIV keys |} ∧
    part false = {| wk_MAC := key_ServerMAC keys; wk_Key := key_ServerWrite keys; wk_IV := key_ServerIV keys |};
  header_of : RecordLayer → RecordHeader;
  changes_cipher : RecordLayer → bool;
  content : string → string;
  cbc_reads own other1 other2 h x y pkt raw r out r' :
    NewCBC_of own other1 h = (x, Ok tt) → NewCBC_of other2 own h = (y, Ok tt) →
    changes_cipher pkt = false → cbc_Encrypt x pkt raw r = (Ok out, r') →
    ∃ raw', cbc_Decrypt y (header_of pkt) out = Ok raw' ∧ content raw' = content raw }.
(** A peer that follows the standard for AES-128-CBC with SHA-256: MAC keys of 32 bytes, cipher
    keys and initial vectors of 16. *)
Definition standard_keys `{CbcLaws R} (m c s : string) : bool → WriteKeys :=
  key_partition (key_block m c s "sha256" 128) 32 16 16.
Definition standard_peer `{CbcLaws R} (m c s : string) (client : bool) : CBC * result unit :=
  NewCBC_of (standard_keys m c s client) (standard_keys m c s (negb client)) "sha256".

Section Suite.
Context {R : Type} `{HCbc : CbcLib R} `{HLaws : !CbcLaws R}.

Lemma suite_Init_ok master cr sr client c c1 :
  suite_Init master cr sr client c = (Ok tt, c1) →
  ∃ keys cbc, prf_GenerateEncryptionKeys master cr sr 32 16 16 "sha256" = Ok keys ∧ cs_cbc c1 = Some cbc ∧
    (if client
     then NewCBC (key_ClientWrite keys) (key_ClientIV keys) (key_ClientMAC keys)
            (key_ServerWrite keys) (key_ServerIV keys) (key_ServerMAC keys) "sha256"
     else NewCBC (key_ServerWrite keys) (key_ServerIV keys) (key_ServerMAC keys)
            (key_ClientWrite keys) (key_ClientIV keys) (key_ClientMAC keys) "sha256") = (cbc, Ok tt).
Proof.
  unfold suite_Init, HashFunc, prfMacLen, prfKeyLen, prfIvLen.
  destruct (prf_GenerateEncryptionKeys _ _ _ _ _ _ _) as [keys|err]; [|done].
  destruct client, (NewCBC _ _ _ _ _ _ _) as [cbc err] eqn:En; intros [= -> <-]; by exists keys, cbc.
Qed.

Lemma suite_Init_standard master cr sr client c c1 :
  suite_Init master cr sr client c = (Ok tt, c1) →
  ∃ x, cs_cbc c1 = Some x ∧ standard_peer master cr sr client = (x, Ok tt).
Proof using HLaws.
  intros (keys&x&Ek&Hx&Nx)%suite_Init_ok. exists x. split; [done|].
  pose proof (prf_partition _ _ _ _ _ _ _ _ Ek) as [Hc Hs]. cbv zeta in Hc, Hs.
  unfold standard_peer, standard_keys. change 128 with (2 * 32 + 2 * 16 + 2 * 16).
  change 32%nat with (Z.to_nat 32). change 16%nat with (Z.to_nat 16).
  destruct client; cbn [negb]; rewrite Hc, Hs; exact Nx.
Qed.

(** C38 The cipher suite of just works interoperates: after [Init], as the client or as the
    server, with the secrets of a handshake, a peer on the other side that takes its keys from
    the same secrets as the standard says for AES-128-CBC with SHA-256 reads what the suite
    encrypts, and the suite reads what this peer encrypts; changes of the cipher, which are not
    encrypted, apart. *)
Theorem just_works_interoperates master cr sr client c c1 y :
  suite_Init master cr sr client c = (Ok tt, c1) → standard_peer master cr sr (negb client) = (y, Ok tt) →
  ∀ pkt raw r out r', changes_cipher pkt = false →
  (suite_Encrypt c1 pkt raw r = (Ok out, r') →
   ∃ raw', cbc_Decrypt y (header_of pkt) out = Ok raw' ∧ content raw' = content raw) ∧
  (cbc_Encrypt y pkt raw r = (Ok out, r') →
   ∃ raw', suite_Decrypt c1 (header_of pkt) out = Ok raw' ∧ content raw' = content raw).
Proof using HLaws.
  intros (x&Hx&Nx)%suite_Init_standard Ny pkt raw r out r' Hp. unfold suite_Encrypt, suite_Decrypt. rewrite Hx.
  unfold standard_peer in Nx, Ny. rewrite negb_involutive in Ny. split; intros He.
  - exact (cbc_reads _ _ _ _ _ _ _ _ _ _ _ Nx Ny Hp He).
  - exact (cbc_reads _ _ _ _ _ _ _ _ _ _ _ Ny Nx Hp He).
Qed.

(** When only the ciphers could not be made, [Init] fails, yet the suite says that it is
    initialised and no longer refuses to encrypt. *)
Theorem failed_Init_initializes master cr sr client c keys err :
  prf_GenerateEncryptionKeys master cr sr 32 16 16 "sha256" = Ok keys →
  (∀ k1 i1 m1 k2 i2 m2, ∃ x, NewCBC k1 i1 m1 k2 i2 m2 "sha256" = (x, Err err)) →
  ∃ c1, suite_Init master cr sr client c = (Err err, c1) ∧ IsInitialized c1 = true.
Proof.
  intros Ek Hn. unfold suite_Init, HashFunc, prfMacLen, prfKeyLen, prfIvLen. rewrite Ek.
  destruct client;
    match goal with |- context [NewCBC ?a ?b ?c ?d ?e ?f "sha256"] => destruct (Hn a b c d e f) as [x ->] end;
    by eexists.
Qed.
End Suite.

(** ** Applications *)

Section Apps.
Context `{HCore : CoreEnv} `{HCred : CredEnv} `{HLib : !CertLib} `{HOwn : !OwnerLib}.

(** An application without a configuration says that the certificate is missing; one with a
    configuration that has none gives the empty certificate. *)
Theorem app_without_manufacturer root a :
  (∀ b, NewApp None = Ok b → app_GetManufacturerCertificate b = Err (ErrText "missing Manufacturer's certificate")) ∧
  (NewApp (Some {| app_RootCA := root; app_Manufacturer := None |}) = Ok a →
   app_GetManufacturerCertificate a = Ok zero_TlsCertificate ∧
   app_GetManufacturerCertificateAuthorities a = Err (ErrText "missing Manufacturer's CA")).
Proof.
  split; [by intros b [= <-]|]. unfold NewApp. simpl.
  destruct (bool_decide _); [by intros [= <-]|].
  destruct (ParsePemCertificates _); simpl; [by intros [= <-]|done].
Qed.
End Apps.
