(* ===== verification/DialingExamples.v ===== *)
(** * DialingExamples: the dials and the cipher suite on concrete libraries *)

From S2P Require Import DialingProps Dialing ClientCoap.

(** Sockets that number their connections; the address "down" does not answer, and the
    handshake with an odd connection fails. *)
Module Net.
#[local] Instance sockets : Sockets string nat := {|
  udp_Dial addr o e := if bool_decide (addr = "down") then (Err (ErrText "refused"), e) else (Ok e, S e);
  tcp_Dial addr o e := if bool_decide (addr = "down") then (Err (ErrText "refused"), e) else (Ok e, S e);
  dtls_Dial addr cfg o e := if bool_decide (addr = "down") then (Err (ErrText "refused"), e) else (Ok e, S e);
  is_dtls c := true;
  HandshakeContext c e := (if Nat.odd c then Err (ErrText "handshake") else Ok tt, e);
  sock_Close c e := (Ok tt, e) |}.

Lemma dial_law (b : bool) (e c e' : nat) :
  (if b then (Err (ErrText "refused"), e) else (Ok e, S e)) = (Ok c, e') →
  ¬ (c < e)%nat ∧ ∀ x, (x < e')%nat ↔ (x < e)%nat ∨ x = c.
Proof. destruct b; [done|]. intros [= <- <-]. split; [lia|]. intros x. lia. Qed.
Lemma fail_law (b : bool) (e : nat) err e' x :
  (if b then (Err (ErrText "refused"), e) else (Ok e, S e)) = (Err err, e') → (x < e')%nat ↔ (x < e)%nat.
Proof. destruct b; [|done]. by intros [= _ <-]. Qed.
#[local] Instance laws : SocketLaws string nat.
Proof.
  refine {| handed (e c : nat) := (c < e)%nat |}; intros; simpl in *;
    first [by eapply dial_law | by eapply fail_law | done].
Defined.

Definition world (next : nat) : NetWorld string nat :=
  {| net_env := next; net_open := []; net_onClose := ∅; net_handlers := ∅ |}.
Definition cfg : SecConfig string :=
  {| InsecureSkipVerify := true; CipherSuites := []; CustomCipherSuites := None; Certificates := [];
     VerifyPeerCertificate := None |}.
Lemma world_wf next : net_wf (world next).
Proof. split; intros c Hc; simpl in *; [by apply not_elem_of_nil in Hc|]. rewrite lookup_empty in Hc. by destruct Hc. Defined.

(** Connection 1 is closed after its failed handshake; connection 2 stays open. *)
Lemma dial_leaks_nothing_witness :
  net_open (run_dial 0 None (CallUDPSecure "host" cfg []) (world 1)).2 = [] ∧
  net_open (run_dial 0 (Some 5) (CallUDPSecure "host" cfg []) (world 2)).2 = [2%nat] ∧
  let (r, w') := run_dial 0 None (CallUDPSecure "host" cfg []) (world 1) in dial_outcome (world 1) r w'.
Proof.
  split; [by vm_compute|]. split; [by vm_compute|].
  exact (dial_leaks_nothing 0 None (CallUDPSecure "host" cfg []) (world 1) (world_wf 1)).
Defined.

Definition dialed_world : NetWorld string nat :=
  {| net_env := 3%nat; net_open := [2%nat]; net_onClose := {[2%nat := [0%nat]]};
     net_handlers := {[0%nat := NewOnCloseHandler]} |}.
Lemma dialed_close_calls_witness :
  ∃ w2, each (handler_op {| cch_conn := 2; cch_onClose := 0 |}) [LAdd "a"; LAdd "b"; LRemove 0; LAdd "c"]
          dialed_world = (Ok tt, w2) ∧ net_open w2 = [2%nat] ∧
    closed_calls map_to_list 2 w2 ≡ₚ ["b"; "c"].
Proof.
  refine (dialed_close_calls map_to_list (fun m => reflexivity (map_to_list m)) 0 None
            (CallTCP "host" []) (world 2) {| cch_conn := 2; cch_onClose := 0 |} dialed_world
            [LAdd "a"; LAdd "b"; LRemove 0; LAdd "c"] (world_wf 2) _).
  by vm_compute.
Defined.
End Net.

(** A cipher that writes its key before the record and takes it off again. *)
Module Cipher.
Definition untag (k raw : string) : result string :=
  if String.prefix k raw then Ok (String.substring (String.length k) (String.length raw - String.length k) raw)
  else Err (ErrText "bad record MAC").
(** The keys of both directions; a record is tagged with the MAC key and the cipher key. *)
Definition ex_block (m c s h : string) (n : Z) : string :=
  String.substring 0 (Z.to_nat n)
    ("client-mac-012345678901234567890" +:+ "server-mac-01234567890123456789" +:+ m +:+
     "client-key-01234" +:+ "server-key-01234" +:+ "client-iv-012345" +:+ "server-iv-012345").
Definition ex_keys (m c s : string) (mac key iv : Z) (h : string) : WriteKeys * WriteKeys :=
  let part := key_partition (ex_block m c s h (2 * mac + 2 * key + 2 * iv)) (Z.to_nat mac) (Z.to_nat key) (Z.to_nat iv) in
  (part true, part false).
#[local] Instance cbc : CbcLib unit := {|
  Keys := WriteKeys * WriteKeys;
  key_ClientMAC k := wk_MAC k.1; key_ServerMAC k := wk_MAC k.2; key_ClientWrite k := wk_Key k.1;
  key_ServerWrite k := wk_Key k.2; key_ClientIV k := wk_IV k.1; key_ServerIV k := wk_IV k.2;
  prf_GenerateEncryptionKeys m c s mac key iv h := Ok (ex_keys m c s mac key iv h);
  CBC := string * string;
  NewCBC k1 _ m1 k2 _ m2 _ := ((m1 +:+ k1, m2 +:+ k2), Ok tt);
  RecordLayer := unit;
  RecordHeader := unit;
  cbc_Encrypt c _ raw r := (Ok (c.1 +:+ raw), r);
  cbc_Decrypt c _ raw := untag c.2 raw;
  CipherSuiteKeyExchangeAlgorithmEcdhe := 4;
  CipherSuiteAuthenticationTypeAnonymous := 3 |}.

Lemma untag_prefix k raw : String.prefix k (k +:+ raw) = true.
Proof. induction k as [|a k IH]; [by destruct raw|]. simpl. by destruct (ascii_dec a a). Qed.
Lemma untag_substring k raw : String.substring (String.length k) (String.length raw) (k +:+ raw) = raw.
Proof.
  induction k as [|a k IH]; [|apply IH]. simpl. induction raw as [|b raw IH]; [done|]. simpl. by f_equal.
Qed.
Lemma untag_tag k raw : untag k (k +:+ raw) = Ok raw.
Proof.
  unfold untag. rewrite untag_prefix, str_length_app.
  replace (String.length k + String.length raw - String.length k)%nat with (String.length raw) by lia.
  by rewrite untag_substring.
Qed.
#[local] Instance laws : CbcLaws unit.
Proof.
  refine {| key_block := ex_block; header_of _ := tt; changes_cipher _ := false; content s := s |}.
  - intros m c s mac key iv h keys [= <-]. by split.
  - intros own o1 o2 h x y pkt raw r out r' [= <-] [= <-] _ [= <- <-]. exists raw. split; [apply untag_tag|done].
Defined.

Definition suite : TLSAecdhAes128Sha256 := NewTLSAecdhAes128Sha256 jw_suite.
Definition client_tag : string := "client-mac-012345678901234567890client-key-01234".
Definition server_tag : string := "server-mac-01234567890123456789mserver-key-01234".

(** A client that was not initialised refuses; initialised, it writes with the keys of the
    client and reads what a standard server writes. *)
Lemma just_works_interoperates_witness :
  suite_Encrypt suite tt "hello" tt = (Err (ErrWrap "unable to encrypt" ErrCipherSuiteNotReady), tt) ∧
  (∃ raw', cbc_Decrypt (server_tag, client_tag) tt (client_tag +:+ "hello") = Ok raw' ∧ content raw' = "hello") ∧
  (∃ raw', suite_Decrypt (suite_Init "m" "c" "s" true suite).2 tt (server_tag +:+ "hello") = Ok raw' ∧ content raw' = "hello").
Proof.
  split; [done|].
  assert (Hi : suite_Init "m" "c" "s" true suite = (Ok tt, (suite_Init "m" "c" "s" true suite).2)) by (by vm_compute).
  assert (Hp : standard_peer "m" "c" "s" false = ((server_tag, client_tag), Ok tt)) by (by vm_compute).
  split.
  - apply (proj1 (just_works_interoperates "m" "c" "s" true suite _ (server_tag, client_tag) Hi Hp tt "hello" tt
      (client_tag +:+ "hello") tt eq_refl)). by vm_compute.
  - apply (proj2 (just_works_interoperates "m" "c" "s" true suite _ (server_tag, client_tag) Hi Hp tt "hello" tt
      (server_tag +:+ "hello") tt eq_refl)). by vm_compute.
Defined.
End Cipher.
