(* ===== verification/ClientDetails.v ===== *)
(** * ClientDetails: searching devices with their details

    [GetDevicesDetails], [GetDevicesWithHandler] and the discovery handler of
    [src/client/getDevices.go], [GetDeviceDetailsByMulticast] and [GetDeviceDetailsByIP] of
    [getDevice.go], [src/client/core/getOwnerships.go], and the observation of the links of a
    device ([observeDeviceResources.go]).

    The search runs one goroutine per device that was found by an address before and one per
    device that answers the multicast.  What they share is the cache, which DvWorld already
    shares with all goroutines, the list of the details, the ownerships and the flags of the
    handler; the calls of one flag exclude each other and the lists are under one lock, so
    that the goroutines run here one after another, in any order. *)

From S2P Require Export ClientConfig.
From S2P Require ClientObs.

(** [HasOneOf] of the sets of strings, and [errors.As] for [x509.UnknownAuthorityError]. *)
Class DetailsLib := {
  set_HasOneOf : list string → list string → bool;
  as_UnknownAuthority : error → bool }.

(** [isDeviceOwnedByOther]. *)
Definition isDeviceOwnedByOther `{CoapStatus} `{DetailsLib} (err : error) : bool :=
  match status_FromError err with
  | Some code => if code =? codes_Unauthorized then true else as_UnknownAuthority err
  | None => as_UnknownAuthority err
  end.

Section Details.
Context `{HKit : Kit} `{HCache : GoCache} `{HDE : !DevicesEnv}.
Context `{HCore : CoreEnv} `{HReq : !RequestEnv} `{HStatus : CoapStatus} `{HLib : DetailsLib} `{HCborD : Cbor DeviceRep} `{HIntoD : !CborInto DeviceRep}.
Context (status_Error : Message → error → error).
Context (deviceExpiration : Z) (disableUDPEndpoints useDeviceIDInQuery : bool).
(** [GetSdkOwnerID] of the client. *)
Context (ownerID : result string).
(** What the callback of the application reads of a device ([interface{}]). *)
Context {T : Type} (of_device : DeviceRep → T).

(** The state of a search: the SDK, the details ([res]), the ownerships ([resOwnerships]) and
    the flags of the handler ([getDetailsWasCalled]). *)
Record DetWorld := {
  dw_sdk : SdkWorld;
  dw_res : list (DeviceDetails T);
  dw_owns : gmap string ownership;
  dw_wasSet : gmap string bool }.
Abbreviation LM := (ME DetWorld).

Definition in_sdk {A} (m : ME SdkWorld A) : LM A :=
  fun w => let (r, s) := m (dw_sdk w) in
           (r, {| dw_sdk := s; dw_res := dw_res w; dw_owns := dw_owns w; dw_wasSet := dw_wasSet w |}).
Definition devices (d : DeviceDetails T) : LM unit :=
  modify (fun w => {| dw_sdk := dw_sdk w; dw_res := dw_res w ++ [d]; dw_owns := dw_owns w;
                      dw_wasSet := dw_wasSet w |}).
Definition ownerships (deviceID : string) (o : ownership) : LM unit :=
  modify (fun w => {| dw_sdk := dw_sdk w; dw_res := dw_res w; dw_owns := <[deviceID := o]> (dw_owns w);
                      dw_wasSet := dw_wasSet w |}).
Definition set_wasSet (deviceID : string) : LM unit :=
  modify (fun w => {| dw_sdk := dw_sdk w; dw_res := dw_res w; dw_owns := dw_owns w;
                      dw_wasSet := <[deviceID := true]> (dw_wasSet w) |}).

(** ** The details of one device *)

(** What the application gives as [GetDetailsFunc], and the closures of the search. *)
Definition GetDetailsFunc : Type := nat → ResourceLinks → list OptionFunc → ME SdkWorld (option T).
Definition SearchDetailsFunc : Type := nat → ResourceLinks → list OptionFunc → LM (option T).
Definition of_app (f : GetDetailsFunc) : SearchDetailsFunc := fun d links optsArgs => in_sdk (f d links optsArgs).

(** The default: the device resource itself. *)
Definition getDetails : GetDetailsFunc := fun d links optsArgs =>
  match GetResourceLinks links [device_ResourceType] with
  | [] => fail (ErrText "cannot find device resource at links")
  | link :: _ =>
      let opts := WithInterface "oic.if.baseline" :: optsArgs in
      r ← on_core d (ClientCommands.GetResourceWithCodec status_Error link (VNDOCFCBORCodec DeviceRep)
                       (TPlain zero_DeviceRep) opts);
      lift r.1;;
      mret (match r.2 with TPlain dev => Some (of_device dev) | _ => None end)
  end.

Definition found_of (d : nat) : LM Found := in_sdk (found d).

Definition getDeviceDetails (dev : nat) (links : ResourceLinks) (getDetails : option SearchDetailsFunc)
    (opts : list OptionFunc) : LM (DeviceDetails T) :=
  let eps := match Schema.GetResourceLink links device_ResourceURI with
             | Some link => Schema.GetEndpoints link
             | None => []
             end in
  f ← found_of dev;
  let isSecured := IsSecured f in
  details ← match getDetails with
            | Some getDetails => getDetails dev links opts
            | None => mret None
            end;
  f ← found_of dev;
  mret {| dd_ID := fd_deviceID f; dd_FoundByIP := fd_foundByIP f; dd_Details := details;
          dd_IsSecured := isSecured; dd_Ownership := None; dd_Resources := links; dd_Endpoints := eps;
          dd_OwnershipStatus := OwnershipStatus_Unknown |}.

(** The zero value of [ownership]. *)
Definition no_ownership : ownership := {| own_doxm := None; own_status := "" |}.
Definition sdk_ownerID : string := match ownerID with Ok id => id | Err _ => "" end.
Definition zero_details : DeviceDetails T :=
  {| dd_ID := ""; dd_FoundByIP := ""; dd_Details := None; dd_IsSecured := false; dd_Ownership := None;
     dd_Resources := []; dd_Endpoints := []; dd_OwnershipStatus := "" |}.
Definition Client_getDeviceDetails (dev : nat) (links : ResourceLinks) (getDetails : option SearchDetailsFunc)
    (optsArgs : list OptionFunc) : LM (DeviceDetails T) :=
  devDetails ← getDeviceDetails dev links getDetails optsArgs;
  o ← (if dd_IsSecured devDetails then
         r ← catch (in_sdk (on_core dev (GetOwnership links)));
         match r with
         | Err ownErr =>
             mret (if isDeviceOwnedByOther ownErr
                   then {| own_doxm := None; own_status := OwnershipStatus_OwnedByOther |} else no_ownership)
         | Ok d => mret {| own_doxm := Some d; own_status := "" |}
         end
       else mret no_ownership);
  mret (default zero_details
          (setOwnership sdk_ownerID {[ dd_ID devDetails := devDetails ]} [(dd_ID devDetails, o)] !! dd_ID devDetails)).

(** The functions of the options are taken as not [nil]. *)
Definition GetDeviceDetailsByMulticast (fuel : nat) (deviceID : string) (opts : list (@GetDeviceOption GetDetailsFunc))
    : LM (DeviceDetails T) :=
  let cfg := resolve applyOnGetDevice
    {| dv_getDetails := getDetails; dv_discoveryConfiguration := DefaultDiscoveryConfiguration; dv_opts := [] |} opts in
  dl ← in_sdk (dm (Client_GetDevice deviceExpiration disableUDPEndpoints fuel deviceID));
  Client_getDeviceDetails dl.1 dl.2 (Some (of_app (dv_getDetails cfg))) (dv_opts cfg).
Definition GetDeviceDetailsByIP (ip : string) (opts : list (@GetDeviceByIPOption SearchDetailsFunc)) : LM (DeviceDetails T) :=
  let cfg := resolve applyOnGetDeviceByIP {| ip_getDetails := of_app getDetails; ip_opts := [] |} opts in
  dl ← in_sdk (dm (ClientDevices.GetDeviceByIP deviceExpiration disableUDPEndpoints ip));
  Client_getDeviceDetails dl.1 dl.2 (Some (ip_getDetails cfg)) (ip_opts cfg).

(** ** The handler of the multicast *)

(** [dev.Close]. *)
Definition close_found (d : nat) : LM unit :=
  in_sdk (dm (closeDevice d)).

Record discoveryHandler := {
  dh_typeFilter : list string;
  dh_getDetails : SearchDetailsFunc;
  dh_useDeviceID : bool }.

Definition handler_getDeviceDetails (h : discoveryHandler) (d : nat) (links : ResourceLinks) : LM (DeviceDetails T) :=
  f ← found_of d;
  wasSet ← gets (fun w => default false (dw_wasSet w !! fd_deviceID f));
  let getDetails := if (wasSet : bool) then None else Some (dh_getDetails h) in
  let opts := if dh_useDeviceID h then [WithDeviceID (fd_deviceID f)] else [] in
  devDetails ← getDeviceDetails d links getDetails opts;
  set_wasSet (fd_deviceID f);;
  mret devDetails.

(** The device as an object, stored in the cache. *)
Definition store_discovered (newdev : Found) : ME DvWorld (nat * bool) :=
  p ← newDevice newdev;
  t ← now;
  cop (UpdateOrStoreDeviceWithExpiration deviceExpiration p t).

Definition handler_Handle (h : discoveryHandler) (newdev : Found) : LM unit :=
  r ← in_sdk (dm (store_discovered newdev));
  let dev := r.1 in
  links ← catch (in_sdk (dm (getLinksDevice deviceExpiration disableUDPEndpoints dev)));
  match links with
  | Err _ =>
      f ← found_of dev;
      dev2 ← in_sdk (dm (cop (LoadAndDeleteDevice (fd_deviceID f))));
      match dev2 with Some p => close_found p | None => mret tt end
  | Ok links =>
      f ← found_of dev;
      if negb (set_HasOneOf (fd_deviceTypes f) (dh_typeFilter h)) then mret tt
      else
        r ← catch (handler_getDeviceDetails h dev links);
        match r with
        | Err _ => mret tt
        | Ok devDetails => devices devDetails
        end
  end.

(** ** The search *)

Fixpoint append_first (resourceTypes deviceTypes : list string) (d : DeviceDetails T) : LM unit :=
  match resourceTypes with
  | [] => mret tt
  | t :: resourceTypes' => if bool_decide (t ∈ deviceTypes) then devices d else append_first resourceTypes' deviceTypes d
  end.
(** A panic is not an error that the caller can drop. *)
Definition getDevicesAppendDeviceByIP (ip : string) (resourceTypes : list string) (getDetails : SearchDetailsFunc)
    : LM unit :=
  r ← catch (GetDeviceDetailsByIP ip [ByIPDetails getDetails]);
  match r with
  | Err err => if bool_decide (err = ErrIndexOutOfRange) then fail err else mret tt
  | Ok d =>
      match GetResourceLinks (dd_Resources d) [device_ResourceType] with
      | [] => mret tt
      | devLink :: _ =>
          match resourceTypes with
          | [] => devices d
          | _ => append_first resourceTypes (ResourceTypes devLink) d
          end
      end
  end.

(** The closure [getDetails] of [GetDevicesDetails]: it notes the ownership of the device. *)
Definition getDetails_noting (cfg_getDetails : GetDetailsFunc) : SearchDetailsFunc := fun d links optsArgs =>
  let links := patchResourceLinksEndpoints links disableUDPEndpoints in
  details ← of_app cfg_getDetails d links optsArgs;
  f ← found_of d;
  when (IsSecured f)
    (r ← catch (in_sdk (on_core d (GetOwnership links)));
     f ← found_of d;
     match r with
     | Ok doxm => ownerships (fd_deviceID f) {| own_doxm := Some doxm; own_status := OwnershipStatus_Unknown |}
     | Err ownErr =>
         when (isDeviceOwnedByOther ownErr)
           (ownerships (fd_deviceID f) {| own_doxm := None; own_status := OwnershipStatus_OwnedByOther |})
     end);;
  mret details.

(** A goroutine of the search: for an address, or one that runs a call of the handler. *)
Inductive SearchJob := JobByIP (ip : string) | JobCall (c : DhCall).
Definition run_job (resourceTypes : list string) (getDetails : SearchDetailsFunc) (useDeviceID : bool) (j : SearchJob) : LM unit :=
  match j with
  | JobByIP ip => getDevicesAppendDeviceByIP ip resourceTypes getDetails
  | JobCall (DhHandle d) => handler_Handle {| dh_typeFilter := resourceTypes; dh_getDetails := getDetails;
                                              dh_useDeviceID := useDeviceID |} d
  | JobCall (DhError _) => mret tt
  end.

(** What the goroutines of a search do on their own account: [sc_order] interleaves the
    addresses with the calls of the handler, the other two are orders of iteration. *)
Record Schedule := {
  sc_order : list string → list DhCall → list SearchJob;
  sc_groups : gmap string ResourceLinks → list (string * ResourceLinks);
  sc_owns : gmap string ownership → list (string * ownership) }.

(** [net] is what the sockets of the multicast do. *)
Definition GetDevicesDetails (opts : list (@GetDevicesOption GetDetailsFunc)) (sch : Schedule) (net : Multicast)
    : LM (gmap string (DeviceDetails T)) :=
  let cfg := resolve applyOnGetDevices
    {| gd_resourceTypes := []; gd_getDetails := getDetails;
       gd_discoveryConfiguration := DefaultDiscoveryConfiguration; gd_useDeviceID := useDeviceIDInQuery |} opts in
  t ← in_sdk (dm now);
  devicesFoundByIP ← in_sdk (dm (cop (fun c => (GetDevicesFoundByIP t c, c))));
  let '(r, calls) := Discovery.GetDevicesByMulticast (sc_groups sch) net in
  each (run_job (gd_resourceTypes cfg) (getDetails_noting (gd_getDetails cfg)) (gd_useDeviceID cfg))
    (sc_order sch (map_to_list devicesFoundByIP).*2 calls);;
  lift r;;
  w ← gets (fun w => w);
  mret (setOwnership sdk_ownerID (mergeDevices (dw_res w)) (sc_owns sch (dw_owns w))).
End Details.

(** The same search with a handler of the caller: the calls it gets. *)
Definition GetDevicesWithHandler `{Kit} (opts : list DiscoveryConfigurationOption)
    (groups : gmap string ResourceLinks → list (string * ResourceLinks))
    (net : DiscoveryConfiguration → Multicast) : result unit * list DhCall :=
  let cfg := resolve DiscoveryConfigurationOption_applyOnGetGetDevicesWithHandler
    {| wh_discoveryConfiguration := DefaultDiscoveryConfiguration |} opts in
  Discovery.GetDevicesByMulticast groups (net (wh_discoveryConfiguration cfg)).

(** ** Closing the client ([client.go], [Close] of [deviceCache.go]) *)

Section Close.
Context `{HKit : Kit} `{HCache : GoCache} `{HDE : !DevicesEnv} `{HCore : CoreEnv} `{HReq : !RequestEnv}.
Abbreviation SM := (ME SdkWorld).

Fixpoint close_each (ps : list nat) (errors : option error) : SM (option error) :=
  match ps with
  | [] => mret errors
  | p :: ps' =>
      r ← catch (on_core p closeConnections);
      close_each ps' (match r with Err err => err_append errors err | Ok _ => errors end)
  end.
(** The subscriptions that are cancelled, and the error. *)
Definition Client_Close {S} (subscriptions : gmap string S) : SM (gmap string S * gmap string S * option error) :=
  let '(popped, subscriptions) := ClientConfig.popSubscriptions subscriptions in
  ps ← run_dv (gets (fun w => (fun ke => ke.2.1) <$> (cache_LoadAndDeleteAll (w_cache (dv_cache w))).1));
  run_dv (cop (fun c => (tt, DeviceCache.Close c)));;
  err ← close_each ps None;
  mret (popped, subscriptions, err).
End Close.

(** ** Ownerships by multicast ([core/getOwnerships.go]) *)

Inductive OhCall := OhHandle (doxm : Doxm) | OhError (err : error).

(** An answer comes with the result of closing its connection. *)
Definition ownershipHandler_Handle (closed : option error) (doxm : Doxm) : list OhCall :=
  match closed with
  | Some errC => [OhError (ErrWrap "ownership handler cannot close connection" errC)]
  | None => []
  end ++ [OhHandle doxm].
Definition ownershipHandler_Error (err : error) : list OhCall := [OhError err].
Definition oh_deliver (a : Answer Doxm * option error) : list OhCall :=
  match a.1 with
  | AnsHandle doxm => ownershipHandler_Handle a.2 doxm
  | AnsError err => ownershipHandler_Error err
  | AnsNone => []
  end.

(** What the sockets do: the dialling, the answers to a search with these options, its end. *)
Record OwnershipNet := {
  on_dial : option error;
  on_answers : list OptionFunc → list (Answer Doxm * option error);
  on_err : option error }.
Definition GetOwnerships (status : Z) (net : OwnershipNet) : result unit * list OhCall :=
  match on_dial net with
  | Some err => (Err (MakeInvalidArgument (ErrWrap "could not get the ownerships" err)), [])
  | None =>
      match DiscoverDeviceOwnership status with
      | Err err => (Err err, [])
      | Ok opts => (match on_err net with Some err => Err err | None => Ok tt end,
                    concat (oh_deliver <$> on_answers net opts))
      end
  end.

(** ** The links of a device, observed ([observeDeviceResources.go]) *)

Inductive RoCall := RoHandle (links : ResourceLinks) | RoError (err : error) | RoClose.
Definition resourcesObserver_Handle (body : Target ResourceLinks → result unit * Target ResourceLinks) : RoCall :=
  match body (TPlain []) with
  | (Err err, _) => RoError err
  | (Ok _, TPlain links) => RoHandle links
  | (Ok _, _) => RoHandle []
  end.
Definition resourcesObserver_Error (err : error) : RoCall := RoError err.
Definition resourcesObserver_OnClose : RoCall := RoClose.
(** [ObserveResource] without options, of [/oic/res]. *)
Definition ObserveDeviceResources `{Uuids} `{Cbor ResourceLinks} `{CborInto ResourceLinks} (deviceID resourceObservationID : string)
    (c : ClientObs.Client) : option ClientObs.Client :=
  ClientObs.observe_begin
    (observe_key deviceID resources_ResourceURI (observe_cfg (VNDOCFCBORCodec ResourceLinks) []))
    resourceObservationID c.

(** ** Reading several resources ([core/getResource.go]) *)

Section Iterator.
Context `{HKit : Kit} `{HCore : CoreEnv} `{HReq : !RequestEnv}.
Context (status_Error : Message → error → error).
Context {A : Type} `{HCbor : Cbor A} `{HInto : !CborInto A}.
Abbreviation CM := (ME CWorld).

Record ResourceIterator := { it_Err : option error; it_links : ResourceLinks; it_i : nat }.
Definition GetResources (links : ResourceLinks) : ResourceIterator :=
  {| it_Err := None; it_links := links; it_i := 0 |}.
(** The answer, what is left in the receiver, and the iterator. *)
Definition Next (v : Target A) (it : ResourceIterator) : CM (bool * Target A * ResourceIterator) :=
  match it_Err it, it_links it !! it_i it with
  | None, Some link =>
      r ← ClientCommands.GetResourceWithCodec status_Error link (VNDOCFCBORCodec A) v [];
      match r.1 with
      | Err err =>
          mret (false, r.2, {| it_Err := Some (MakeDataLoss (ErrWrap "could not get a resource value for the device" err));
                               it_links := it_links it; it_i := it_i it |})
      | Ok _ => mret (true, r.2, {| it_Err := None; it_links := it_links it; it_i := S (it_i it) |})
      end
  | _, _ => mret (false, v, it)
  end.
End Iterator.
