(* ===== verification/ClientTool.v ===== *)
(** * ClientTool: the command line client

    [src/cmd/ocfclient] and the readers of [src/pkg/security/x509/parse.go]: the options of
    the command line, the certificate files that are read and generated, the client that is
    made of them, and the menu.

    A file system is a table of nodes with the paths whose operations fail; it holds the
    files of one directory.  A write writes all of its data or nothing.  The text that
    [Error()] gives of an error is not computed: a printed line keeps the error. *)

From S2P Require Export ClientConfig ClientDetails.

(** ** Files *)

Inductive FileNode := FileData (data : string) | FileDir.
(** [fs_stat_err] is an error of [os.Stat] other than that the file does not exist. *)
Record FileSystem := {
  fs_nodes : gmap string FileNode; fs_unreadable : gset string; fs_unwritable : gset string;
  fs_full : gset string; fs_bad_close : gset string; fs_stat_err : option error }.
Definition set_node (path : string) (n : FileNode) (fs : FileSystem) : FileSystem :=
  {| fs_nodes := <[path := n]> (fs_nodes fs); fs_unreadable := fs_unreadable fs;
     fs_unwritable := fs_unwritable fs; fs_full := fs_full fs; fs_bad_close := fs_bad_close fs;
     fs_stat_err := fs_stat_err fs |}.

Definition os_ReadFile (path : string) (fs : FileSystem) : result string :=
  if bool_decide (path = "") then Err (ErrText "open : no such file or directory")
  else match fs_nodes fs !! path with
       | None => Err (ErrText ("open " +:+ path +:+ ": no such file or directory"))
       | Some n =>
           if bool_decide (path ∈ fs_unreadable fs) then Err (ErrText ("open " +:+ path +:+ ": permission denied"))
           else match n with
                | FileData data => Ok data
                | FileDir => Err (ErrText ("read " +:+ path +:+ ": is a directory"))
                end
       end.
(** [os.Create], and [os.OpenFile] with [O_WRONLY|O_CREATE|O_TRUNC]. *)
Definition os_Create (path : string) : ME FileSystem unit := fun fs =>
  if bool_decide (path = "") then (Err (ErrText "open : no such file or directory"), fs)
  else if bool_decide (path ∈ fs_unwritable fs) then (Err (ErrText ("open " +:+ path +:+ ": permission denied")), fs)
  else match fs_nodes fs !! path with
       | Some FileDir => (Err (ErrText ("open " +:+ path +:+ ": is a directory")), fs)
       | _ => (Ok tt, set_node path (FileData "") fs)
       end.
(** The first write to a file that was opened by [os_Create]. *)
Definition file_Write (path data : string) : ME FileSystem unit := fun fs =>
  if bool_decide (path ∈ fs_full fs) then (Err (ErrText ("write " +:+ path +:+ ": no space left on device")), fs)
  else (Ok tt, set_node path (FileData data) fs).
Definition file_Close (path : string) : ME FileSystem unit := fun fs =>
  (if bool_decide (path ∈ fs_bad_close fs) then Err (ErrText ("close " +:+ path +:+ ": input/output error")) else Ok tt, fs).
Inductive StatResult := StatInfo (isDir : bool) | StatNotExist | StatErr (err : error).
Definition os_Stat (path : string) (fs : FileSystem) : StatResult :=
  match fs_stat_err fs with
  | Some err => StatErr err
  | None => match fs_nodes fs !! path with
            | Some FileDir => StatInfo true
            | Some (FileData _) => StatInfo false
            | None => StatNotExist
            end
  end.

(** [filepath.Clean]: the elements, the last one first. *)
Definition clean_step (rooted : bool) (out : list string) (elem : string) : list string :=
  if bool_decide (elem = "") || bool_decide (elem = ".") then out
  else if bool_decide (elem = "..")
  then match out with
       | top :: out' => if bool_decide (top = "..") then elem :: out else out'
       | [] => if rooted then [] else [elem]
       end
  else elem :: out.
Definition filepath_Clean (path : string) : string :=
  let rooted := has_prefix "/" path in
  let out := join (rev (foldl (clean_step rooted) [] (split path "/"))) "/" in
  if rooted then "/" +:+ out else if bool_decide (out = "") then "." else out.

(** ** Private keys *)

(** A PKCS#8 key that is not an ECDSA one is [None]. *)
Class KeyLib `{CertLib} := {
  x509_ParsePKCS8PrivateKey : string → result (option PrivateKey);
  x509_ParseECPrivateKey : string → result PrivateKey }.

Section Tool.
Context `{HCore : CoreEnv} `{HCred : CredEnv} `{HPem : !PemOut} `{HLib : !CertLib} `{HCreate : !CertCreate}.
Context `{HOwn : !OwnerLib} `{HKey : !KeyLib} `{HUuid : Uuids}.

Definition ReadPemCertificates (path : string) (fs : FileSystem) : result (list Cert) :=
  certPEMBlock ← os_ReadFile (filepath_Clean path) fs;
  ParsePemCertificates (Some certPEMBlock).
Definition ParsePemEcdsaPrivateKey (pemBlock : string) : result PrivateKey :=
  match (pem_Decode pemBlock).1 with
  | None => Err (ErrText "cannot decode pem block")
  | Some der =>
      match x509_ParsePKCS8PrivateKey der with
      | Ok (Some key) => Ok key
      | Ok None => Err (ErrText "found unknown private key type in PKCS#8 wrapping")
      | Err _ =>
          match x509_ParseECPrivateKey der with
          | Ok key => Ok key
          | Err _ => Err (ErrText "failed to parse private key")
          end
      end
  end.
Definition ReadPemEcdsaPrivateKey (path : string) (fs : FileSystem) : result PrivateKey :=
  certPEMBlock ← os_ReadFile (filepath_Clean path) fs;
  ParsePemEcdsaPrivateKey certPEMBlock.

(** ** The state of the program *)

(** The package variables. *)
Inductive Var :=
  | CertIdentity | MfgCert | MfgKey | MfgTrustedCA | MfgTrustedCAKey
  | IdentityTrustedCA | IdentityTrustedCAKey | IdentityIntermediateCA | IdentityIntermediateCAKey
  | IdentityCert | IdentityKey.
#[export] Instance Var_eq_dec : EqDecision Var.
Proof. solve_decision. Defined.
Definition initial_vars (x : Var) : string :=
  match x with CertIdentity => "00000000-0000-0000-0000-000000000001" | _ => "" end.

(** A printed text, with or without the end of the line, and a text with that of an error. *)
Inductive Line := Println (s : string) | Print (s : string) | PrintlnErr (s : string) (err : error).
Record World := { w_env : CEnv; w_fs : FileSystem; w_vars : Var → string; w_out : list Line }.
Abbreviation WM := (ME World).

Definition in_fs {A} (m : ME FileSystem A) : WM A := fun w =>
  let (r, fs) := m (w_fs w) in
  (r, {| w_env := w_env w; w_fs := fs; w_vars := w_vars w; w_out := w_out w |}).
Definition in_gen {A} (m : ME GenEnv A) : WM A := fun w =>
  let (r, e) := on_gen m (w_env w) in
  (r, {| w_env := e; w_fs := w_fs w; w_vars := w_vars w; w_out := w_out w |}).
Definition read_fs {A} (f : FileSystem → result A) : WM A := fun w => (f (w_fs w), w).
Definition set_var (x : Var) (v : string) : WM unit :=
  modify (fun w => {| w_env := w_env w; w_fs := w_fs w;
                      w_vars := fun y => if bool_decide (y = x) then v else w_vars w y; w_out := w_out w |}).
Definition print (l : Line) : WM unit :=
  modify (fun w => {| w_env := w_env w; w_fs := w_fs w; w_vars := w_vars w; w_out := w_out w ++ [l] |}).

(** ** Generating files *)

Definition pemBlockForKey (k : PrivateKey) : result (string * string) :=
  b ← x509_MarshalECPrivateKey k; Ok ("EC PRIVATE KEY", b).
Definition WriteCertOut (filename cert : string) : ME FileSystem unit :=
  wrap_err (ErrWrap ("failed to open " +:+ filename +:+ " for writing")) (os_Create filename);;
  wrap_err (ErrWrap ("failed to write " +:+ filename)) (file_Write filename cert);;
  wrap_err (ErrWrap ("error closing " +:+ filename)) (file_Close filename).
Definition WritePrivateKey (filename : string) (priv : PrivateKey) : ME FileSystem unit :=
  privBlock ← wrap_err (ErrWrap ("failed to encode priv key " +:+ filename +:+ " for writing")) (lift (pemBlockForKey priv));
  wrap_err (ErrWrap ("failed to open " +:+ filename +:+ " for writing")) (os_Create filename);;
  wrap_err (ErrWrap ("failed to write data to " +:+ filename)) (file_Write filename (pem_Encode privBlock.1 privBlock.2));;
  wrap_err (ErrWrap ("error closing " +:+ filename)) (file_Close filename).

Definition generateRootCA (certConfig : Configuration) (outCert outKey : string) : WM unit :=
  priv ← in_gen (ecdsa_GenerateKey P256);
  cert ← in_gen (GenerateRootCA certConfig priv);
  in_fs (WriteCertOut outCert cert);;
  in_fs (WritePrivateKey outKey priv).
Definition generateIntermediateCertificate (certConfig : Configuration) (signCert signKey outCert outKey : string) : WM unit :=
  priv ← in_gen (ecdsa_GenerateKey P256);
  signerCert ← read_fs (ReadPemCertificates signCert);
  signerKey ← read_fs (ReadPemEcdsaPrivateKey signKey);
  cert ← in_gen (GenerateIntermediateCA certConfig priv signerCert signerKey);
  in_fs (WriteCertOut outCert cert);;
  in_fs (WritePrivateKey outKey priv).
Definition generateIdentityCertificate (certConfig : Configuration) (identity signCert signKey outCert outKey : string) : WM unit :=
  priv ← in_gen (ecdsa_GenerateKey P256);
  signerCert ← read_fs (ReadPemCertificates signCert);
  signerKey ← read_fs (ReadPemEcdsaPrivateKey signKey);
  cert ← in_gen (GenerateIdentityCert certConfig identity priv signerCert signerKey);
  in_fs (WriteCertOut outCert cert);;
  in_fs (WritePrivateKey outKey priv).

(** [info.IsDir()] of a nil [info] panics. *)
Definition fileExists (filename : string) : WM bool :=
  read_fs (fun fs => match os_Stat filename fs with
                     | StatNotExist => Ok false
                     | StatInfo isDir => Ok (negb isDir)
                     | StatErr _ => Err ErrNilPointer
                     end).

(** ** The options of the command line *)

Record Options := {
  opt_CertIdentity : string; opt_DiscoveryTimeout : Z;
  opt_MfgCert : string; opt_MfgKey : string; opt_MfgTrustCA : string; opt_MfgTrustCAKey : string;
  opt_IdentityCert : string; opt_IdentityKey : string;
  opt_IdentityIntermediateCA : string; opt_IdentityIntermediateCAKey : string;
  opt_IdentityTrustCA : string; opt_IdentityTrustCAKey : string }.

Definition validFromNow : string := "now".
Definition validForYear : Z := 8760 * (3600 * 10 ^ 9).
(** A configuration with the fields that the program sets. *)
Definition tool_config (organization : list string) (commonName : string) (maxPathLen : Z) (validFrom : string)
    (validFor : Z) : Configuration :=
  let c := zero_Configuration in
  {| sub_Country := sub_Country c; sub_Organization := organization;
     sub_OrganizationalUnit := sub_OrganizationalUnit c; sub_Locality := sub_Locality c;
     sub_CommonName := commonName; sub_Province := sub_Province c;
     sub_StreetAddress := sub_StreetAddress c; sub_PostalCode := sub_PostalCode c;
     sub_SerialNumber := sub_SerialNumber c; san_DNSNames := san_DNSNames c;
     san_IPAddresses := san_IPAddresses c; bc_Ignore := bc_Ignore c; bc_MaxPathLen := maxPathLen;
     ValidFrom := validFrom; ValidFor := validFor; cfg_NotBefore := cfg_NotBefore c;
     cfg_NotAfter := cfg_NotAfter c; KeyUsages := KeyUsages c; ExtensionKeyUsages := ExtensionKeyUsages c;
     EllipticCurve := EllipticCurve c; SignatureAlgorithm := SignatureAlgorithm c;
     CRLDistributionPoints := CRLDistributionPoints c |}.
Definition ca_config (commonName : string) : Configuration :=
  tool_config ["TEST"] commonName (-1) validFromNow validForYear.
Definition mfg_config : Configuration := tool_config ["TEST"] "" 0 validFromNow validForYear.

(** Read a file into a variable, and say so. *)
Definition load (what : string) (path : string) (x : Var) : WM unit :=
  r ← catch (read_fs (os_ReadFile path));
  match r with
  | Err err => print (PrintlnErr ("Unable to read " +:+ what +:+ ": ") err)
  | Ok data =>
      print (Println ("Reading " +:+ what +:+ " from " +:+ path +:+ " was successful."));;
      set_var x data
  end.
(** Generate a certificate and its key when one of their files is missing, and say so. *)
Definition generate (what outCert outKey : string) (gen : WM unit) : WM unit :=
  c ← fileExists outCert;
  missing ← (if negb c then mret true else k ← fileExists outKey; mret (negb k));
  if missing : bool then
    r ← catch gen;
    match r with
    | Err err => print (PrintlnErr ("Unable to generate " +:+ what +:+ ": ") err)
    | Ok _ => print (Println ("Generating " +:+ what +:+ " to " +:+ outCert +:+ ", " +:+ outKey +:+ " was successful."))
    end
  else mret tt.
Definition if_given (path : string) (m : WM unit) : WM unit := if bool_decide (path = "") then mret tt else m.
Definition if_missing (path1 path2 : string) (m : WM unit) : WM unit :=
  if bool_decide (path1 = "") || bool_decide (path2 = "") then m else mret tt.

Definition loadCertificateIdentity (certIdentity : string) : WM unit :=
  if_given certIdentity (set_var CertIdentity certIdentity).
Definition loadMfgTrustCA (mTrustCA : string) : WM unit :=
  if_given mTrustCA (load "Manufacturer Trust CA's Certificate" mTrustCA MfgTrustedCA).
Definition loadMfgTrustCAKey (mTrustCAKey : string) : WM unit :=
  if_given mTrustCAKey (load "Manufacturer Trust CA's Private Key" mTrustCAKey MfgTrustedCAKey).
Definition generateMfgTrustCA (mTrustCA mTrustCAKey : string) : WM unit :=
  if_missing mTrustCA mTrustCAKey
    (generate "Manufacturer Trust CA" "mfg_rootca.crt" "mfg_rootca.key"
       (generateRootCA (ca_config "TEST Mfg ROOT CA") "mfg_rootca.crt" "mfg_rootca.key")).
Definition load_mfg (opts : Options) : WM unit :=
  if negb (bool_decide (opt_MfgCert opts = "")) && negb (bool_decide (opt_MfgKey opts = ""))
  then load "Manufacturer Certificate" (opt_MfgCert opts) MfgCert;;
       load "Manufacturer Certificate's Private Key" (opt_MfgKey opts) MfgKey
  else mret tt.
Definition generate_mfg (opts : Options) : WM unit :=
  if_missing (opt_MfgCert opts) (opt_MfgKey opts)
    (identity ← gets (fun w => w_vars w CertIdentity);
     generate "Manufacturer Certificate" "mfg_cert.crt" "mfg_cert.key"
       (generateIdentityCertificate mfg_config identity "mfg_rootca.crt" "mfg_rootca.key" "mfg_cert.crt" "mfg_cert.key")).
Definition load_trust (opts : Options) : WM unit :=
  load "Identity Trust CA's Certificate" (opt_IdentityTrustCA opts) IdentityTrustedCA.
Definition load_trust_key (opts : Options) : WM unit :=
  load "Identity Trust CA's Private Key" (opt_IdentityTrustCAKey opts) IdentityTrustedCAKey.
(** What is read after the generation are the paths of the options, not the new files. *)
Definition identity_trust (opts : Options) : WM unit :=
  if_given (opt_IdentityTrustCA opts) (load_trust opts);;
  if_given (opt_IdentityTrustCAKey opts) (load_trust_key opts);;
  if_missing (opt_IdentityTrustCA opts) (opt_IdentityTrustCAKey opts)
    (generate "Identity Trust CA" "rootca_cert.crt" "rootca_cert.key"
       (generateRootCA (ca_config "TEST ROOT CA") "rootca_cert.crt" "rootca_cert.key");;
     load_trust opts;; load_trust_key opts).
Definition identity_intermediate (opts : Options) : WM unit :=
  let cert := "Identity Intermediate CA's Certificate" in
  let key := "Identity Intermediate CA's Private Key" in
  if_given (opt_IdentityIntermediateCA opts) (load cert (opt_IdentityIntermediateCA opts) IdentityIntermediateCA);;
  if_given (opt_IdentityIntermediateCAKey opts) (load key (opt_IdentityIntermediateCAKey opts) IdentityIntermediateCAKey);;
  if_missing (opt_IdentityIntermediateCA opts) (opt_IdentityIntermediateCAKey opts)
    (generate "Identity Intermediate CA" "subca_cert.crt" "subca_cert.key"
       (generateIntermediateCertificate (ca_config "TEST Intermediate CA") "rootca_cert.crt" "rootca_cert.key"
          "subca_cert.crt" "subca_cert.key");;
     load cert "subca_cert.crt" IdentityIntermediateCA;; load key "subca_cert.key" IdentityIntermediateCAKey).
Definition identity_end (opts : Options) : WM unit :=
  (if negb (bool_decide (opt_IdentityCert opts = "")) && negb (bool_decide (opt_IdentityKey opts = ""))
   then load "Identity Certificate" (opt_IdentityCert opts) IdentityCert;;
        load "Identity Private Key" (opt_IdentityKey opts) IdentityKey
   else mret tt);;
  if_missing (opt_IdentityCert opts) (opt_IdentityKey opts)
    (identity ← gets (fun w => w_vars w CertIdentity);
     generate "Identity Certificate" "end_cert.crt" "end_cert.key"
       (generateIdentityCertificate zero_Configuration identity "subca_cert.crt" "subca_cert.key" "end_cert.crt" "end_cert.key");;
     load "Identity Certificate" "end_cert.crt" IdentityCert;; load "Identity Private Key" "end_cert.key" IdentityKey).
Definition usage : list string :=
  ["Usage of OCF Client Options :";
   "    --discoveryTimeout=<Duration>                              i.e. 5s";
   "    --certIdentity=<Device UUID>                               i.e. 00000000-0000-0000-0000-000000000001";
   "    --mfgCert=<Manufacturer Certificate>                       i.e. mfg_cert.crt";
   "    --mfgKey=<Manufacturer Private Key>                        i.e. mfg_cert.key";
   "    --mfgTrustCA=<Manufacturer Trusted CA Certificate>         i.e. mfg_rootca.crt";
   "    --mfgTrustCAKey=<Manufacturer Trusted CA Private Key>      i.e. mfg_rootca.key";
   "    --identityCert=<Identity Certificate>                      i.e. end_cert.crt";
   "    --identityKey=<Identity Certificate>                       i.e. end_cert.key";
   "    --identityIntermediateCA=<Identity Intermediate CA Certificate>     i.e. subca_cert.crt";
   "    --identityIntermediateCAKey=<Identity Intermediate CA Private Key>  i.e. subca_cert.key";
   "    --identityTrustCA=<Identity Trusted CA Certificate>        i.e. rootca_cert.crt";
   "    --identityTrustCA=<Identity Trusted CA Private Key>        i.e. rootca_cert.key";
   ""].
Definition ReadCommandOptions (opts : Options) : WM unit :=
  each (fun s => print (Println s)) usage;;
  loadCertificateIdentity (opt_CertIdentity opts);;
  loadMfgTrustCA (opt_MfgTrustCA opts);;
  loadMfgTrustCAKey (opt_MfgTrustCAKey opts);;
  generateMfgTrustCA (opt_MfgTrustCA opts) (opt_MfgTrustCAKey opts);;
  load_mfg opts;;
  generate_mfg opts;;
  identity_trust opts;;
  identity_intermediate opts;;
  identity_end opts.

(** ** The client *)

Record SetupSecureClient := { ca : list Cert; mfgCA : list Cert; mfgCert : TlsCertificate }.
Definition tool_GetManufacturerCertificate (c : SetupSecureClient) : result TlsCertificate :=
  match tls_PrivateKey (mfgCert c) with
  | None => Err (ErrText "private key not set")
  | Some _ => Ok (mfgCert c)
  end.
Definition tool_GetManufacturerCertificateAuthorities (c : SetupSecureClient) : result (list Cert) :=
  if (length (mfgCA c) =? 0)%nat then Err (ErrText "certificate authority not set") else Ok (mfgCA c).
Definition tool_GetRootCertificateAuthorities (c : SetupSecureClient) : result (list Cert) :=
  if (length (ca c) =? 0)%nat then Err (ErrText "certificate authorities not set") else Ok (ca c).
Definition tool_app (c : SetupSecureClient) : ApplicationCallback :=
  {| GetManufacturerCertificateAuthorities := lift (tool_GetManufacturerCertificateAuthorities c);
     GetManufacturerCertificate := lift (tool_GetManufacturerCertificate c) |}.

(** A key pair has a private key. *)
Definition tool_signer : CreateSignerFunc := fun caCert caKey validNotBefore validNotAfter crlDistributionPoints =>
  match caKey with
  | None => Err (ErrText "no key")
  | Some k => s ← NewOCFIdentityCertificate caCert k validNotBefore validNotAfter crlDistributionPoints;
              Ok (fun csr => on_gen (identity_Sign s csr))
  end.
Definition client_config (expiration : Z) (ownership : DeviceOwnershipSDKConfig) : Config :=
  {| DeviceCacheExpirationSeconds := expiration; ObserverPollingIntervalSeconds := 0; ObserverFailureThreshold := 0;
     KeepAliveConnectionTimeoutSeconds := 0; MaxMessageSize := 0; DisablePeerTCPSignalMessageCSMs := false;
     DefaultTransferDurationSeconds := 0; cfg_UseDeviceIDInQuery := false;
     DeviceOwnershipSDK := Some ownership; DeviceOwnershipBackend := None |}.
Definition secure_config (vars : Var → string) : Config :=
  let nonempty x := negb (bool_decide (vars x = "")) in
  if nonempty IdentityIntermediateCA && nonempty IdentityIntermediateCAKey
  then client_config 0
         {| oc_ID := vars CertIdentity; oc_Cert := vars IdentityIntermediateCA;
            oc_CertKey := vars IdentityIntermediateCAKey; oc_ValidFrom := ""; oc_CertExpiry := None;
            oc_CRLDistributionPoints := []; oc_CreateSignerFunc := Some tool_signer |}
  else client_config 3600
         {| oc_ID := vars CertIdentity; oc_Cert := ""; oc_CertKey := ""; oc_ValidFrom := ""; oc_CertExpiry := None;
            oc_CRLDistributionPoints := []; oc_CreateSignerFunc := None |}.
(** The certificates of the first PEM block of a variable. *)
Definition first_block (data : string) (none : string) (wrap : error → error) : result (list Cert) :=
  match (pem_Decode data).1 with
  | None => Err (ErrText none)
  | Some der => match x509_ParseCertificates der with Ok certs => Ok certs | Err err => Err (wrap err) end
  end.
Definition secure_setup (vars : Var → string) : result SetupSecureClient :=
  let nonempty x := negb (bool_decide (vars x = "")) in
  mfgCA ← (if nonempty MfgTrustedCA
           then first_block (vars MfgTrustedCA) "mfgTrustedCABlock is empty" id else Ok []);
  mfgCert ← (if nonempty MfgCert && nonempty MfgKey
             then match tls_X509KeyPair (vars MfgCert) (vars MfgKey) with
                  | Ok c => Ok c
                  | Err err => Err (ErrWrap "cannot X509KeyPair" err)
                  end
             else Ok zero_TlsCertificate);
  ca ← (if nonempty IdentityTrustedCA
        then first_block (vars IdentityTrustedCA) "identityTrustedCABlock is empty" (ErrWrap "cannot parse cert") else Ok []);
  Ok {| ca := ca; mfgCA := mfgCA; mfgCert := mfgCert |}.

Context {Logger : Type} (defaultLogger nilLogger : Logger).
(** The client, with its owner after [Initialization]. *)
Definition NewSecureClient (vars : Var → string)
    : ME CEnv (@NewClientResult Logger TlsCertificate (list Cert) * AnyOwner) :=
  setupSecureClient ← lift (secure_setup vars);
  client ← NewClientFromConfig defaultLogger nilLogger (secure_config vars) (tool_app setupSecureClient) None;
  r ← owner_Initialization "" client.2;
  match r with
  | (Some err, _) => fail err
  | (None, owner) => mret (client.1, owner)
  end.
Definition in_env {A} (m : ME CEnv A) : WM A := fun w =>
  let (r, e) := m (w_env w) in
  (r, {| w_env := e; w_fs := w_fs w; w_vars := w_vars w; w_out := w_out w |}).
(** [OCFClient.client], nil when there is none. *)
Definition Initialize : WM (@NewClientResult Logger TlsCertificate (list Cert) * AnyOwner) :=
  vars ← gets w_vars; in_env (NewSecureClient vars).
(** [main] up to the menu: a failed initialization leaves the client nil. *)
Definition tool_start (opts : Options)
    : WM (option (@NewClientResult Logger TlsCertificate (list Cert) * AnyOwner)) :=
  ReadCommandOptions opts;;
  r ← catch Initialize;
  match r with
  | Err err => print (PrintlnErr "OCF Client has failed to initialize : " err);; mret None
  | Ok client => mret (Some client)
  end.
End Tool.
