(* ===== verification/ClientMenu.v ===== *)
(** * ClientMenu: the operations and the menu of the command line client

    [src/cmd/ocfclient/ocfclient.go] over the SDK, and [scanner] of
    [src/cmd/ocfclient/main.go].

    The operations of [OCFClient] are an interface of the menu; the instance
    makes them of the SDK.  What the network does during a search, and the JSON library, are
    parameters. *)

From S2P Require Export ClientTool.

(** ** The operations *)

(** [E] is the state of the client and of its environment, [D] the data of an update. *)
Class OCF (E D : Type) := {
  ocf_Discover : Z → ME E string;
  ocf_OwnDevice : string → ME E string;
  ocf_GetResources : string → ME E string;
  ocf_GetResource : string → string → ME E string;
  ocf_UpdateResource : string → string → D → ME E unit;
  ocf_DisownDevice : string → ME E unit;
  ocf_Close : ME E unit;
  ocf_json_Decode : string → result D;
  ocf_json_Encode : D → result string }.

Section Operations.
Context `{HKit : Kit} `{HCache : GoCache} `{HDE : !DevicesEnv}.
Context `{HCore : CoreEnv} `{HReq : !RequestEnv} `{HStatus : CoapStatus} `{HDet : DetailsLib}.
Context `{HCred : CredEnv} `{HPem : !PemOut} `{HUuid : Uuids} `{HLib : !CertLib} `{HOwn : !OwnerLib}.
Context `{HCborD : Cbor DeviceRep} `{HCborQ : Cbor MaintenanceUpdateRequest} `{HCborM : Cbor Maintenance}
  `{HIntoD : !CborInto DeviceRep} `{HIntoQ : !CborInto MaintenanceUpdateRequest} `{HIntoM : !CborInto Maintenance}.
Context (status_Error : Message → error → error).
Context (deviceExpiration : Z) (disableUDPEndpoints useDeviceIDInQuery : bool) (fuel : nat) (ctxErr : bool).
Context (parse : string → result Certificate) (rand : CEnv → result string * CEnv).
Context {O : Type} `{HOwner : !DeviceOwner O} (owner : O).
Context {T : Type} (of_device : DeviceRep → T).
(** The representations of resources ([interface{}]); [nothing] is its nil. *)
Context {D : Type} `{HCborV : Cbor D} `{HIntoV : !CborInto D} (nothing : D).

(** A device as it is printed. *)
Record DeviceInfo := {
  di_id : string; di_name : string; di_owned : bool; di_ownerID : string; di_details : option T }.
(** [MarshalIndent] of the devices and of the references, and the encoding of [D]. *)
Class JsonLib := {
  marshal_devices : list DeviceInfo → result string;
  marshal_hrefs : list string → result string;
  json_Encode : D → result string;
  json_Decode : string → result D;
  json_Indent : string → result string }.
Context `{HJson : JsonLib}.

(** [devices] is a field of the client; [tw_net] is what happens during a search of a duration. *)
Record ToolWorld := {
  tw_sdk : SdkWorld; tw_devices : list (DeviceDetails T); tw_net : Z → Schedule * Multicast }.
Abbreviation TM := (ME ToolWorld).
Definition sdk {A} (m : ME SdkWorld A) : TM A := fun w =>
  let (r, s) := m (tw_sdk w) in
  (r, {| tw_sdk := s; tw_devices := tw_devices w; tw_net := tw_net w |}).
Definition set_devices (ds : list (DeviceDetails T)) : TM unit :=
  modify (fun w => {| tw_sdk := tw_sdk w; tw_devices := ds; tw_net := tw_net w |}).

(** The details of a search that starts with none. *)
Definition search (discoveryTimeout : Z) : TM (gmap string (DeviceDetails T)) := fun w =>
  let '(sch, net) := tw_net w discoveryTimeout in
  let (r, d) := GetDevicesDetails status_Error deviceExpiration disableUDPEndpoints useDeviceIDInQuery
                  (sdk_owner_id parse owner) of_device [] sch net
                  {| dw_sdk := tw_sdk w; dw_res := []; dw_owns := ∅; dw_wasSet := ∅ |} in
  (r, {| tw_sdk := dw_sdk d; tw_devices := tw_devices w; tw_net := tw_net w |}).
(** The devices that are kept: secured ones whose ownership is known. *)
Definition shown (device : DeviceDetails T) : option (DeviceDetails T * DeviceInfo) :=
  match dd_Ownership device with
  | Some own => if dd_IsSecured device
                then Some (device, {| di_id := dd_ID device; di_name := doxm_Name own; di_owned := doxm_Owned own;
                                      di_ownerID := doxm_OwnerID own; di_details := dd_Details device |})
                else None
  | None => None
  end.
(** [order] is the order in which the map is iterated. *)
Definition tool_Discover (order : gmap string (DeviceDetails T) → list (DeviceDetails T)) (discoveryTimeout : Z) : TM string :=
  res ← search discoveryTimeout;
  let found := omap shown (order res) in
  set_devices found.*1;;
  lift (marshal_devices found.*2).
Definition tool_OwnDevice (deviceID : string) : TM string :=
  sdk (Client_OwnDevice deviceExpiration disableUDPEndpoints fuel parse rand owner deviceID [otmOption [OTMType_JustWorks]]).
Definition tool_GetResources (deviceID : string) : TM string :=
  dl ← sdk (dm (ClientDevices.GetDeviceByMulticast deviceExpiration disableUDPEndpoints deviceID));
  lift (marshal_hrefs (map Href dl.2)).
Definition tool_GetResource (deviceID href : string) : TM string :=
  r ← sdk (Client_GetResource status_Error deviceExpiration disableUDPEndpoints useDeviceIDInQuery fuel deviceID href
             (TPlain nothing) [GetInterface "oic.if.baseline"]);
  lift r.1;;
  let got := match r.2 with TPlain v => v | _ => nothing end in
  resourceBytes ← lift (json_Encode got);
  lift (json_Indent resourceBytes).
Definition tool_UpdateResource (deviceID href : string) (data : D) : TM unit :=
  r ← sdk (Client_UpdateResource (B := D) status_Error deviceExpiration disableUDPEndpoints useDeviceIDInQuery fuel
             deviceID href data TNil [UpdateInterface "oic.if.rw"]);
  lift r.1.
Definition tool_DisownDevice (deviceID : string) : TM unit :=
  sdk (ClientCommands.DisownDevice status_Error deviceExpiration disableUDPEndpoints useDeviceIDInQuery fuel ctxErr
         (sdk_owner_id parse owner) deviceID []).
(** The tool never observes, so there are no subscriptions. *)
Definition tool_Close : TM unit :=
  r ← sdk (Client_Close (S := unit) ∅);
  match r.2 with Some err => fail err | None => mret tt end.

Definition sdk_OCF (order : gmap string (DeviceDetails T) → list (DeviceDetails T)) : OCF ToolWorld D := {|
  ocf_Discover := tool_Discover order; ocf_OwnDevice := tool_OwnDevice; ocf_GetResources := tool_GetResources;
  ocf_GetResource := tool_GetResource; ocf_UpdateResource := tool_UpdateResource; ocf_DisownDevice := tool_DisownDevice;
  ocf_Close := tool_Close; ocf_json_Decode := json_Decode; ocf_json_Encode := json_Encode |}.
End Operations.

(** ** The menu *)

(** [strconv.ParseInt(s, 10, 32)] without its error: 0 when [s] is not a number, the nearest
    number of 32 bits when it is out of range. *)
Definition ParseInt32 (s : string) : Z :=
  let '(neg, t) := match s with
                   | String "-" t => (true, t)
                   | String "+" t => (false, t)
                   | _ => (false, s)
                   end in
  if negb (all_digits t) || bool_decide (t = "") then 0
  else Z.max (- 2 ^ 31) (Z.min (2 ^ 31 - 1) ((if neg : bool then -1 else 1) * parse_uint t)).

(** Why an entry of the menu or the program ends. *)
Inductive Stop := Break | Exit0 | Panic (err : error).
#[export] Instance Stop_eq_dec : EqDecision Stop.
Proof. solve_decision. Defined.

Section Menu.
Context {E D : Type} `{HOcf : !OCF E D}.
(** [initialized] says whether [client.client] is not nil. *)
Context (initialized : bool) (discoveryTimeout : Z).

(** The client, the lines of the input that are left, and what was printed. *)
Record MenuWorld := { m_env : E; m_in : list string; m_out : list Line }.
Definition MM (A : Type) : Type := MenuWorld → (A + Stop) * MenuWorld.
#[export] Instance MM_ret : MRet MM := fun A a w => (inl a, w).
#[export] Instance MM_bind : MBind MM := fun A B k m w =>
  match m w with
  | (inl a, w') => k a w'
  | (inr s, w') => (inr s, w')
  end.
Definition stop {A} (s : Stop) : MM A := fun w => (inr s, w).
Definition out (l : Line) : MM unit := fun w =>
  (inl tt, {| m_env := m_env w; m_in := m_in w; m_out := m_out w ++ [l] |}).
(** [scanner.Scan()]: whether there was a line; [scanner.Text()] is empty after the last. *)
Definition Scan : MM (bool * string) := fun w =>
  match m_in w with
  | [] => (inl (false, ""), w)
  | l :: rest => (inl (true, l), {| m_env := m_env w; m_in := rest; m_out := m_out w |})
  end.
Definition nl : string := String (ascii_of_nat 10) "".

(** Run an operation of the client; an error is printed and ends the entry.  The methods of
    a nil client dereference it. *)
Definition call {A} (op : ME E A) (failed : string) : MM A := fun w =>
  if initialized then
    match op (m_env w) with
    | (Ok a, e) => (inl a, {| m_env := e; m_in := m_in w; m_out := m_out w |})
    | (Err err, e) => (inr Break, {| m_env := e; m_in := m_in w; m_out := m_out w ++ [PrintlnErr failed err] |})
    end
  else (inr (Panic ErrNilPointer), w).
Definition pure {A} (r : result A) (failed : string) : MM A := fun w =>
  match r with
  | Ok a => (inl a, w)
  | Err err => (inr Break, {| m_env := m_env w; m_in := m_in w; m_out := m_out w ++ [PrintlnErr failed err] |})
  end.
Definition prompt (what : string) : MM string :=
  out (Print (nl +:+ "Input " +:+ what +:+ " : "));; l ← Scan; mret l.2.
Definition say (s : string) : MM unit := out (Println (nl +:+ s)).

Definition printMenu : MM unit :=
  out (Println (nl +:+ "#################### OCF Client for D2D ####################"));;
  out (Println "[0] Display this menu");;
  out (Println "--------------------------------------------------------------");;
  out (Println "[1] Discover devices");;
  out (Println "[2] Transfer ownership to the device (On-boarding)");;
  out (Println "[3] Retrieve resources of the device");;
  out (Println "[4] Retrieve a resource of the device");;
  out (Println "[5] Update a resource of the device");;
  out (Println "[6] Reset ownership of the device (Off-boarding)");;
  out (Println "--------------------------------------------------------------");;
  out (Println "[99] Exit");;
  out (Println "##############################################################");;
  out (Print (nl +:+ "Select menu : ")).

Definition select_device : MM string := prompt "device ID".
Definition show_resources (deviceID : string) : MM unit :=
  res ← call (ocf_GetResources deviceID) (nl +:+ "Getting Resources has failed : ");
  say ("Resources of " +:+ deviceID +:+ " : " +:+ nl +:+ res).
Definition show_resource (deviceID : string) : MM string :=
  href ← prompt "resource href";
  aRes ← call (ocf_GetResource deviceID href) (nl +:+ "Getting Resource has failed : ");
  say ("Resource properties of " +:+ deviceID +:+ href +:+ " : " +:+ nl +:+ aRes);;
  mret href.

(** The text of the update; the value is what the user typed. *)
Definition quote : string := String (ascii_of_nat 34) "".
Definition jsonString (key value : string) : string :=
  "{" +:+ quote +:+ key +:+ quote +:+ ": " +:+ value +:+ "}".

Definition entry_discover : MM unit :=
  res ← call (ocf_Discover discoveryTimeout) (nl +:+ "Discovering devices has failed : ");
  say ("Discovered devices : " +:+ nl +:+ res).
Definition entry_own : MM unit :=
  deviceID ← select_device;
  res ← call (ocf_OwnDevice deviceID) (nl +:+ "Transferring Ownership has failed : ");
  say ("Transferring Ownership of " +:+ deviceID +:+ " was successful : " +:+ nl +:+ res).
Definition entry_resources : MM unit := deviceID ← select_device; show_resources deviceID.
Definition entry_resource : MM unit :=
  deviceID ← select_device; show_resources deviceID;; _ ← show_resource deviceID; mret tt.
Definition entry_update : MM unit :=
  deviceID ← select_device;
  show_resources deviceID;;
  href ← show_resource deviceID;
  key ← prompt "property name";
  value ← prompt "property value";
  data ← pure (ocf_json_Decode (jsonString key value)) (nl +:+ "Decoding resource property has failed : ");
  dataBytes ← pure (ocf_json_Encode data) (nl +:+ "Encoding resource property has failed : ");
  say ("Property data to update : " +:+ dataBytes);;
  call (ocf_UpdateResource deviceID href data) (nl +:+ "Updating resource property has failed : ");;
  say ("Updating resource property of " +:+ deviceID +:+ href +:+ " was successful.").
Definition entry_disown : MM unit :=
  deviceID ← select_device;
  call (ocf_DisownDevice deviceID) (nl +:+ "Off-boarding has failed : ");;
  say ("Off-boarding " +:+ deviceID +:+ " was successful.").
(** [OCFClient.Close] checks for a nil client. *)
Definition entry_exit : MM unit := fun w =>
  if initialized then
    match ocf_Close (m_env w) with
    | (Ok _, e) => (inr Exit0, {| m_env := e; m_in := m_in w; m_out := m_out w |})
    | (Err err, e) => (inr Exit0, {| m_env := e; m_in := m_in w;
                                     m_out := m_out w ++ [PrintlnErr (nl +:+ "Cannot close client: %v") err] |})
    end
  else (inr Exit0, w).

Definition entry (selMenu : Z) : MM unit :=
  if selMenu =? 0 then printMenu
  else if selMenu =? 1 then entry_discover
  else if selMenu =? 2 then entry_own
  else if selMenu =? 3 then entry_resources
  else if selMenu =? 4 then entry_resource
  else if selMenu =? 5 then entry_update
  else if selMenu =? 6 then entry_disown
  else if selMenu =? 99 then entry_exit
  else mret tt.
(** A [break] leaves the switch only. *)
Definition breaking (m : MM unit) : MM unit := fun w =>
  match m w with
  | (inr Break, w') => (inl tt, w')
  | r => r
  end.
(** The loop: [Some] when it ended with the input, or by the program; [fuel] bounds its rounds. *)
Fixpoint scan_loop (fuel : nat) (w : MenuWorld) : option (unit + Stop) * MenuWorld :=
  match fuel with
  | O => (None, w)
  | S f =>
      match Scan w with
      | (inl (true, text), w) =>
          match (breaking (entry (ParseInt32 text));; printMenu) w with
          | (inl _, w) => scan_loop f w
          | (inr s, w) => (Some (inr s), w)
          end
      | (_, w) => (Some (inl tt), w)
      end
  end.
Definition scanner (fuel : nat) (w : MenuWorld) : option (unit + Stop) * MenuWorld :=
  let '(_, w) := printMenu w in scan_loop fuel w.
End Menu.
(** The timeout of the searches that [scanner] makes of that of the options. *)
Definition menu_timeout (discoveryTimeout : Z) : Z :=
  if discoveryTimeout <=? 0 then 5 * time_Second else discoveryTimeout.
