(* ===== verification/BridgeTool.v ===== *)
(** * BridgeTool: the example bridge

    [src/cmd/bridge-device]: its configuration, the options it makes of it, the test resources
    of its devices with the goroutine that notifies their observers, its thing description,
    and [main].

    The device, its resources and the service are those of BridgeDevice, BridgeResource and
    Service; the test resource is the application behind their class of handlers.  YAML, CBOR
    and the thing description library are classes.  A request to a device and a run of the
    notifying goroutine come one after another.  The files are those of ClientTool. *)

From S2P Require Import ClientCoap ClientTool CertGen.
From S2P Require Export BridgeNet Service BridgeOptions ThingDesc.

(** ** Configuration ([device/config.go]) *)

Record TLSConfig := { CAPoolPath : string; KeyPath : string; CertPath : string; UseSystemCAPool : bool }.
Record ToolCloudConfig := { cc_Enabled : bool; cc_CloudID : string; cc_TLS : TLSConfig }.
Record ThingDescriptionConfig := { tdc_Enabled : bool; tdc_File : string }.
Record ToolConfig := {
  tc_Service : CoAPConfig; tc_LogLevel : Z; tc_Cloud : ToolCloudConfig; tc_CredentialEnabled : bool;
  tc_ThingDescription : ThingDescriptionConfig;
  NumGeneratedBridgedDevices : Z; NumResourcesPerDevice : Z }.

Definition TLSConfig_Validate (c : TLSConfig) : result unit :=
  if bool_decide (CAPoolPath c = "") && negb (UseSystemCAPool c) then Err (ErrText "caPool is required")
  else if (bool_decide (KeyPath c = "") && negb (bool_decide (CertPath c = "")))
          || (negb (bool_decide (KeyPath c = "")) && bool_decide (CertPath c = ""))
  then Err (ErrText "keyFile and certFile must be set together")
  else Ok tt.
Definition CloudConfig_Validate (c : ToolCloudConfig) : result unit :=
  if cc_Enabled c then TLSConfig_Validate (cc_TLS c) else Ok tt.
(** The part of the service is completed in place. *)
Definition ToolConfig_Validate `{Resolver} (c : ToolConfig) : result ToolConfig :=
  s ← Service.Config_Validate (tc_Service c);
  if NumGeneratedBridgedDevices c <=? 0 then Err (ErrText "numGeneratedBridgedDevices - must be > 0")
  else Ok {| tc_Service := s; tc_LogLevel := tc_LogLevel c; tc_Cloud := tc_Cloud c;
             tc_CredentialEnabled := tc_CredentialEnabled c; tc_ThingDescription := tc_ThingDescription c;
             NumGeneratedBridgedDevices := NumGeneratedBridgedDevices c;
             NumResourcesPerDevice := NumResourcesPerDevice c |}.
(** The decoder reads the opened file: it is given what a read of the file returns. *)
Definition LoadConfig `{Resolver} (yaml_Decode : result string → result ToolConfig) (configFile : string)
    (fs : FileSystem) : result ToolConfig :=
  let configFile := filepath_Clean configFile in
  match fs_nodes fs !! configFile with
  | None => Err (ErrWrap ("failed to load config from " +:+ configFile)
                   (ErrText ("open " +:+ configFile +:+ ": no such file or directory")))
  | Some n =>
      if bool_decide (configFile ∈ fs_unreadable fs)
      then Err (ErrWrap ("failed to load config from " +:+ configFile)
                  (ErrText ("open " +:+ configFile +:+ ": permission denied")))
      else match yaml_Decode (os_ReadFile configFile fs) with
           | Err err => Err (ErrWrap "failed to decode config" err)
           | Ok cfg => ToolConfig_Validate cfg
           end
  end.

(** ** Options of the devices ([main.go]) *)

Section Opts.
Context {OnDeviceUpdated RemoveCloudCAs Logger Loop : Type}.
Context `{HCore : CoreEnv} `{HCred : CredEnv} `{HLib : !CertLib} `{HOwn : !OwnerLib}.
(** The additional properties of a response, the description of a device as a function. *)
Context {GetThingDescription : Type}.
Context (SystemCertPool : result (list Cert)).
Abbreviation DeviceOption :=
  (device_Option (OnDeviceUpdated := OnDeviceUpdated) (GetProperties := gmap string string)
     (GetCertificates := string → list TlsCertificate) (RemoveCloudCAs := RemoveCloudCAs) (Logger := Logger)
     (Loop := Loop) (GetThingDescription := GetThingDescription)).

Definition tls_LoadX509KeyPair (certFile keyFile : string) (fs : FileSystem) : result TlsCertificate :=
  certPEMBlock ← os_ReadFile certFile fs;
  keyPEMBlock ← os_ReadFile keyFile fs;
  tls_X509KeyPair certPEMBlock keyPEMBlock.

Definition getCloudTLS (cfg : ToolCloudConfig) (credentialEnabled : bool) (fs : FileSystem)
    : result (CAPoolGetter * option TlsCertificate) :=
  let tls := cc_TLS cfg in
  if bool_decide (CAPoolPath tls = "") && negb credentialEnabled
  then Err (ErrText "cannot load ca: caPoolPath is empty")
  else
    ca ← (if bool_decide (CAPoolPath tls = "") then Ok None
          else match ReadPemCertificates (CAPoolPath tls) fs with
               | Ok ca => Ok (Some ca)
               | Err err => Err (ErrWrap ("cannot load ca('" +:+ CAPoolPath tls +:+ "')") err)
               end);
    let caPool := cloud_MakeCAPool SystemCertPool (Some ca) (UseSystemCAPool tls) in
    if bool_decide (KeyPath tls = "") then Ok (caPool, None)
    else match tls_LoadX509KeyPair (CertPath tls) (KeyPath tls) fs with
         | Ok cert => Ok (caPool, Some cert)
         | Err err => Err (ErrWrap ("cannot load cert(" +:+ CertPath tls +:+ ", " +:+ KeyPath tls +:+ ")") err)
         end.
Definition getCloudOpts (cfg : ToolConfig) (fs : FileSystem) : result (list DeviceOption) :=
  r ← getCloudTLS (tc_Cloud cfg) (tc_CredentialEnabled cfg) fs;
  Ok ([device_WithCAPool r.1] ++
      match r.2 with Some cert => [device_WithGetCertificates (fun _ => [cert])] | None => [] end).

Definition DeviceResourceType : string := "oic.d.virtual".
Definition TestResourcePropertyKey : string := "my-property".
Definition TestResourceType : string := "x.plgd.test".
Definition GetAdditionalProperties : gmap string string := {[ TestResourcePropertyKey := "my-value" ]}.

(** [getTDOpts] is the function that the thing description file gives, below. *)
Definition getOpts (getTDOpts : ToolConfig → FileSystem → result GetThingDescription) (cfg : ToolConfig)
    (fs : FileSystem) : result (list DeviceOption) :=
  let opts := [device_WithGetAdditionalPropertiesForResponse GetAdditionalProperties] in
  cloudOpts ← (if cc_Enabled (tc_Cloud cfg) then getCloudOpts cfg fs else Ok []);
  tdOpts ← (if tdc_Enabled (tc_ThingDescription cfg)
            then f ← getTDOpts cfg fs; Ok [device_WithThingDescription f] else Ok []);
  Ok (opts ++ cloudOpts ++ tdOpts).
End Opts.

(** ** The test resources ([device.go]) *)

Definition GetTestResourceHref (id : nat) : string := "/test/" +:+ format_int (Z.of_nat id).

Record resourceData := { rd_Name : string }.

(** The connections of the clients, and the handlers of the built-in resources of a device
    (modelled in BridgeReps, CloudServe and ThingDesc). *)
Class ToolConn := {
  TConn : Type;
  tconn_write : string → Message → TConn → result unit * TConn;
  tconn_etag : TConn → Z * TConn;
  builtin_get : Request → TConn → result (option Message) * TConn;
  builtin_post : Request → TConn → result (option Message) * TConn;
  builtin_subscribe : Request → TConn → result nat * TConn }.

Section TestResources.
Context `{HConn : ToolConn} `{HData : Cbor resourceData}.

(** The test resources of one device: the data of each, the counter of its subscriptions
    (uint64), and the map of the callbacks, which all of them share. *)
Record TestEnv := {
  te_data : gmap string resourceData;
  te_subID : gmap string nat;
  te_watcher : gmap nat (string * Request);
  te_conn : TConn }.
Definition set_data (x : gmap string resourceData) (e : TestEnv) : TestEnv :=
  {| te_data := x; te_subID := te_subID e; te_watcher := te_watcher e; te_conn := te_conn e |}.
Definition set_watcher (x : gmap nat (string * Request)) (e : TestEnv) : TestEnv :=
  {| te_data := te_data e; te_subID := te_subID e; te_watcher := x; te_conn := te_conn e |}.
Definition on_conn {A} (f : TConn → A * TConn) (e : TestEnv) : A * TestEnv :=
  let (a, c) := f (te_conn e) in
  (a, {| te_data := te_data e; te_subID := te_subID e; te_watcher := te_watcher e; te_conn := c |}).

(** The handlers of the test resource with the data [rds].  The name of the method in the
    error is not computed. *)
Definition resHandler (rds : resourceData) (req : Request) : result (option Message) :=
  let code := m_code (req_msg req) in
  resp ← (if code =? GET then Ok (set_code codes_Content NewMessage)
          else if code =? POST then Ok (set_code codes_Changed NewMessage)
          else Err (ErrText "invalid method"));
  data ← cbor_Encode rds;
  Ok (Some (set_body data (set_format AppOcfCbor resp))).
Definition resPostHandler (req : Request) (rds : resourceData) : result (option Message) * resourceData :=
  match VNDOCFCBORCodec_Decode (req_msg req) with
  | Err err => (Err err, rds)
  | Ok newData => (resHandler newData req, newData)
  end.
(** The callback is stored in the shared map under the number of the resource's own counter. *)
Definition res_subscribe (href : string) (req : Request) (e : TestEnv) : result nat * TestEnv :=
  let sub := S (default 0%nat (te_subID e !! href)) in
  (Ok sub, {| te_data := te_data e; te_subID := <[href := sub]> (te_subID e);
              te_watcher := <[sub := (href, req)]> (te_watcher e); te_conn := te_conn e |}).

(** The handlers of a device: those of a test resource work on the data they captured. *)
#[export] Instance test_ResourceEnv : ResourceEnv := {|
  REnv := TestEnv;
  renv_get c req e := match te_data e !! cap_href c with
                      | Some rds => (resHandler rds req, e)
                      | None => on_conn (builtin_get req) e
                      end;
  renv_post c req e := match te_data e !! cap_href c with
                       | Some rds => let (r, rds) := resPostHandler req rds in
                                     (r, set_data (<[cap_href c := rds]> (te_data e)) e)
                       | None => on_conn (builtin_post req) e
                       end;
  renv_subscribe c req e := if bool_decide (is_Some (te_data e !! cap_href c))
                            then res_subscribe (cap_href c) req e
                            else on_conn (builtin_subscribe req) e;
  renv_write addr m e := on_conn (tconn_write addr m) e;
  renv_etag e := on_conn tconn_etag e;
  renv_notifications e := ([], e) |}.

(** The cancellations of the subscriptions of a test resource since the trace [before]: each
    deletes its number from the shared map. *)
Definition cancelled_since (before after : list REvent) : list nat :=
  omap (fun ev => match ev with EvCancel id => Some id | _ => None end) (drop (length before) after).
Definition cancel_watchers (c : Captured) (before after : list REvent) (e : TestEnv) : TestEnv :=
  if bool_decide (is_Some (te_data e !! cap_href c))
  then set_watcher (foldl (fun m id => delete id m) (te_watcher e) (cancelled_since before after)) e
  else e.
Definition run_cancels (c : Captured) (before : list REvent) (w : DWorld) : DWorld :=
  {| dw_d := dw_d w; dw_env := cancel_watchers c before (dw_trace w) (dw_env w); dw_trace := dw_trace w |}.
Definition tool_HandleRequest (req : Request) (w : DWorld) : result (option Message) * DWorld :=
  let (r, w') := BridgeDevice.HandleRequest req w in
  (r, match d_resources (dw_d w) !! URIPath req with
      | Some res => run_cancels (r_captured res) (dw_trace w) w'
      | None => w'
      end).

(** The whole bridge: the environment of each of its devices. *)
Record BridgeEnv := { be_devices : gmap UUID TestEnv; be_conn : TConn }.
Definition set_device (id : UUID) (t : TestEnv) (e : BridgeEnv) : BridgeEnv :=
  {| be_devices := <[id := t]> (be_devices e); be_conn := be_conn e |}.
Definition at_device {A} (id : UUID) (f : TestEnv → result A * TestEnv) (e : BridgeEnv) : result A * BridgeEnv :=
  match be_devices e !! id with
  | Some t => let (a, t) := f t in (a, set_device id t e)
  | None => (Err (ErrText "model: no such device"), e)
  end.
Definition on_bridge {A} (f : TConn → A * TConn) (e : BridgeEnv) : A * BridgeEnv :=
  let (a, c) := f (be_conn e) in (a, {| be_devices := be_devices e; be_conn := c |}).
(** A handler works on the data of the device it was made for. *)
Definition bridge_ResourceEnv : ResourceEnv := {|
  REnv := BridgeEnv;
  renv_get c req e := at_device (cap_device c) (renv_get c req) e;
  renv_post c req e := at_device (cap_device c) (renv_post c req) e;
  renv_subscribe c req e := at_device (cap_device c) (renv_subscribe c req) e;
  renv_write addr m e := on_bridge (tconn_write addr m) e;
  renv_etag e := on_bridge tconn_etag e;
  renv_notifications e := ([], e) |}.
Section Bridge.
Context `{HUuid : Uuids} `{HOrder : ResourceOrder} `{HLinks : Cbor ResourceLinks}.
Abbreviation bridge_device := (bridged_ServiceDevice (HREnv := bridge_ResourceEnv)).
Context (dev_order : gmap UUID (SDev (ServiceDevice := bridge_device)) → list (UUID * SDev (ServiceDevice := bridge_device))).
(** A request to the service, with the cancellations of the subscriptions. *)
Definition bridge_HandleRequest (req : Request) (s : Service (HSDev := bridge_device))
    : result (option Message) * Service (HSDev := bridge_device) :=
  let (r, s') := DefaultRequestHandler (HSDev := bridge_device) dev_order req s in
  let '(e, tr) := (sv_env (HSDev := bridge_device) s' : BridgeEnv * list REvent) in
  let before := (sv_env (HSDev := bridge_device) s : BridgeEnv * list REvent).2 in
  let e' := match sv_devices (HSDev := bridge_device) s !! DeviceID req ≫= fun d => d_resources d !! URIPath req with
            | Some res =>
                let c := r_captured res in
                match be_devices e !! cap_device c with
                | Some t => set_device (cap_device c) (cancel_watchers c before tr t) e
                | None => e
                end
            | None => e
            end in
  (r, {| sv_ID := sv_ID (HSDev := bridge_device) s'; sv_devices := sv_devices (HSDev := bridge_device) s';
         sv_env := (e', tr) : SEnv (ServiceDevice := bridge_device); sv_trace := sv_trace (HSDev := bridge_device) s' |}).
End Bridge.

Definition addResource (etag : Z) (d : Device) (idx : nat) : Device :=
  AddResources [SetObserveHandler true true
    (NewResource (GetTestResourceHref idx) (of_device (cfg_ID (d_cfg d)) (GetTestResourceHref idx)) true true [TestResourceType] [OC_IF_BASELINE; OC_IF_RW] etag)] d.
Definition addResources (etag : nat → Z) (d : Device) (numResources : Z) : Device :=
  if numResources <=? 0 then d
  else foldl (fun d i => addResource (etag i) d i) d (seq 0 (Z.to_nat numResources)).
Definition test_data (numResources : Z) : gmap string resourceData :=
  list_to_map ((fun i => (GetTestResourceHref i, {| rd_Name := "test-" +:+ format_int (Z.of_nat i) |}))
                 <$> seq 0 (Z.to_nat numResources)).

(** The environment of the devices with the IDs [uuid_New 0], [uuid_New 1], ... as they are made. *)
Definition start_env (uuid_New : nat → UUID) (n : nat) (numResources : Z) (c : TConn) : BridgeEnv :=
  {| be_devices := list_to_map ((fun i => (uuid_New i,
       {| te_data := test_data numResources; te_subID := ∅; te_watcher := ∅; te_conn := c |})) <$> seq 0 n);
     be_conn := c |}.

(** One run of the goroutine of [addResources]: [Range] visits the numbers of the map in some
    order, and calls what the map holds under a number when it is reached.  The callback ends
    in the subscription of the resource that its handler was made for; the program takes no
    test resource out of a device. *)
Context (watcher_order : gmap nat (string * Request) → list (nat * (string * Request))).
Definition tick_call (w : DWorld) (sub : nat) (href : string) (req : Request) : DWorld :=
  match d_resources (dw_d w) !! href, te_data (dw_env w) !! href with
  | Some res, Some rds =>
      let arg := match resHandler rds req with
                 | Ok (Some m) => Ok m
                 | Ok None => Err ErrNilPointer
                 | Err err => Err err
                 end in
      let rw := (notify sub arg {| rw_r := res; rw_env := dw_env w; rw_trace := dw_trace w |}).2 in
      run_cancels (r_captured res) (dw_trace w)
        {| dw_d := set_resources (<[href := rw_r rw]> (d_resources (dw_d w))) (dw_d w);
           dw_env := rw_env rw; dw_trace := rw_trace rw |}
  | _, _ => w
  end.
Definition tick_one (w : DWorld) (sub : nat) : DWorld :=
  match te_watcher (dw_env w) !! sub with
  | Some (href, req) => tick_call w sub href req
  | None => w
  end.
Definition tick (w : DWorld) : DWorld := foldl tick_one w (watcher_order (te_watcher (dw_env w))).*1.
End TestResources.

(** ** The thing description ([device/device.go], [main.go]) *)

Inductive DataType := TypeObject | TypeString.
Record DataSchema := { ds_Title : option string; ds_Type : option DataType; ds_ReadOnly : option bool }.

(** The rest of a property element: its title, type and the schemas of its properties, if it
    has them; the description of a file. *)
Class ToolTd `{TdEnv} := {
  rest_of : option string → option DataType → option (gmap string DataSchema) → PeRest;
  rest_schemas : PeRest → option (gmap string DataSchema);
  rest_set_schemas : gmap string DataSchema → PeRest → PeRest;
  td_UnmarshalJSON : string → result ThingDescription;
  tool_MarshalJSON : ThingDescription → result string }.

Section Td.
Context `{HTd : TdEnv} `{HTool : !ToolTd} `{HOrder : ResourceOrder}.

Definition GetPropertyDescriptionForTestResource : PropertyElement :=
  {| pe_Type := Some [TestResourceType]; pe_Observable := BoolToPtr true; pe_ReadOnly := None; pe_WriteOnly := None;
     pe_Forms := [];
     pe_rest := rest_of (StringToPtr "Test Property") (Some TypeObject)
                  (Some {[ "name" := {| ds_Title := StringToPtr "Name"; ds_Type := Some TypeString;
                                        ds_ReadOnly := None |} ]}) |}.
Definition PatchTestResourcePropertyElement (pe : PropertyElement) (deviceID : UUID) (href : string)
    (contentType : Z) (createForms : option CreateFormsFunc) : result PropertyElement :=
  PatchPropertyElement pe [TestResourceType] deviceID href (ToSupportedOperations (GetPropertyElementOperations pe))
    contentType createForms.
Definition GetDataSchemaForAdditionalProperties : gmap string DataSchema :=
  {[ TestResourcePropertyKey := {| ds_Title := None; ds_Type := Some TypeString; ds_ReadOnly := Some true |} ]}.
Definition GetThingDescription (path : string) (numResources : Z) (fs : FileSystem) : result ThingDescription :=
  tdJson ← os_ReadFile (filepath_Clean path) fs;
  td ← td_UnmarshalJSON tdJson;
  Ok {| td_Context := td_Context td; td_ID := td_ID td; td_Title := td_Title td; td_Base := td_Base td;
        td_Security := td_Security td; td_SecurityDefinitions := td_SecurityDefinitions td;
        td_Properties := Some (foldl (fun m i => <[GetTestResourceHref i := GetPropertyDescriptionForTestResource]> m)
                                 (default ∅ (td_Properties td)) (seq 0 (Z.to_nat numResources)));
        td_rest := td_rest td |}.

Definition set_rest (rest : PeRest) (pe : PropertyElement) : PropertyElement :=
  {| pe_Type := pe_Type pe; pe_Observable := pe_Observable pe; pe_ReadOnly := pe_ReadOnly pe;
     pe_WriteOnly := pe_WriteOnly pe; pe_Forms := pe_Forms pe; pe_rest := rest |}.
(** The element of [/oic/d] with the schemas of the additional properties.  The code adds
    them to the map of the embedded description itself, which every device shares: the second
    result is that description after the call. *)
Definition with_additional (ocf : ThingDescription) (resourceHref : string)
    : option PropertyElement * ThingDescription :=
  match GetOCFResourcePropertyElement ocf resourceHref with
  | None => (None, ocf)
  | Some pe =>
      match rest_schemas (pe_rest pe) with
      | Some schemas =>
          if bool_decide (resourceHref = oic_d)
          then let pe := set_rest (rest_set_schemas (GetDataSchemaForAdditionalProperties ∪ schemas) (pe_rest pe)) pe in
               (Some pe,
                {| td_Context := td_Context ocf; td_ID := td_ID ocf; td_Title := td_Title ocf; td_Base := td_Base ocf;
                   td_Security := td_Security ocf; td_SecurityDefinitions := td_SecurityDefinitions ocf;
                   td_Properties := (fun props => <[resourceHref := pe]> props) <$> td_Properties ocf;
                   td_rest := td_rest ocf |})
          else (Some pe, ocf)
      | None => (Some pe, ocf)
      end
  end.
Definition patchPropertyElement (ocf td : ThingDescription) (dev : Device) (endpoint resourceHref : string)
    (resource : Resource) : option PropertyElement :=
  match match td_Properties td ≫= (fun props => props !! resourceHref) with
        | Some pe => Some pe
        | None => (with_additional ocf resourceHref).1
        end with
  | None => None
  | Some pe =>
      match PatchPropertyElement pe (r_types resource) (cfg_ID (d_cfg dev)) (r_Href resource)
              (SupportsOperations resource) AppCBOR
              (if bool_decide (endpoint = "") then None else Some CreateCOAPForms) with
      | Ok pe => Some pe
      | Err _ => None
      end
  end.
(** The text of the file is parsed again for every description. *)
Definition getTDOpts (ocf : ThingDescription) (cfg : ToolConfig) (fs : FileSystem)
    : result (Device → Endpoints → option ThingDescription) :=
  tdLoaded ← GetThingDescription (tdc_File (tc_ThingDescription cfg)) (NumResourcesPerDevice cfg) fs;
  tdRaw ← tool_MarshalJSON tdLoaded;
  Ok (fun dev endpoints =>
        match td_UnmarshalJSON tdRaw with
        | Err _ => None
        | Ok deviceTD =>
            let endpoint := match endpoints with ep :: _ => URI ep | [] => "" end in
            Some (PatchThingDescription deviceTD dev endpoint (patchPropertyElement ocf deviceTD dev endpoint))
        end).
End Td.

(** ** [main] *)

Section Main.
Context {OnDeviceUpdated RemoveCloudCAs Logger Loop TdFun : Type}.
Context `{HUuid : Uuids} `{HCore : CoreEnv} `{HCred : CredEnv} `{HLib : !CertLib} `{HOwn : !OwnerLib}.
Context `{HOrder : ResourceOrder} `{HREnv : ResourceEnv} `{HRes : Resolver}.
Abbreviation DeviceOption :=
  (device_Option (OnDeviceUpdated := OnDeviceUpdated) (GetProperties := gmap string string)
     (GetCertificates := string → list TlsCertificate) (RemoveCloudCAs := RemoveCloudCAs) (Logger := Logger)
     (Loop := Loop) (GetThingDescription := TdFun)).
(** The defaults of a device; [NewLogger] by ID and level; the entity tags of the resources
    of a device. *)
Context (doNothing : OnDeviceUpdated) (noProperties : gmap string string) (defaultLogger : UUID → Logger) (newLoop : Loop).
Context (SystemCertPool : result (list Cert)).
Context (NewLogger : UUID → Z → Logger) (etag : string → Z) (test_etag : nat → Z) (fuel : nat).

Definition zero_cloud (cloudID : string) : CloudState.Config :=
  {| c_AccessToken := ""; c_UserID := ""; c_RefreshToken := ""; c_ValidUntil := 0; c_AuthorizationProvider := "";
     c_CloudID := cloudID; c_CloudURL := "" |}.
Definition zero_credentials : Credential.Config :=
  {| crsp_ResourceOwner := ""; crsp_Interfaces := []; crsp_ResourceTypes := []; crsp_Name := ""; crsp_Credentials := [] |}.
Definition bridged_config (cfg : ToolConfig) (i : nat) (id piid : UUID) : BridgeDevice.Config :=
  {| cfg_ID := id; cfg_DeviceName := "bridged-device-" +:+ format_int (Z.of_nat i);
     cfg_ProtocolIndependentID := piid; cfg_DeviceTypes := [DeviceResourceType];
     cfg_MaxMessageSize := BridgeNet.MaxMessageSize (coap_Config (tc_Service cfg));
     cfg_CloudEnabled := cc_Enabled (tc_Cloud cfg); cfg_Cloud := zero_cloud (cc_CloudID (tc_Cloud cfg));
     cfg_CredentialEnabled := tc_CredentialEnabled cfg; cfg_Credential := zero_credentials |}.
Definition newDevice (cfg : ToolConfig) (opts : list DeviceOption) (i : nat) (id piid : UUID) : result Device :=
  New_with doNothing noProperties defaultLogger newLoop SystemCertPool etag fuel (bridged_config cfg i id piid)
    (opts ++ [device_WithLogger (NewLogger id (tc_LogLevel cfg))]).

(** One round: the error of a device is dropped.  [Init] starts the loop and the cloud client
    of the device, whose runs are those of EventLoop and CloudManager. *)
Definition create_one (cfg : ToolConfig) (opts : list DeviceOption) (uuid_New : nat → UUID) (i : nat)
    : ME (Service (HSDev := bridged_ServiceDevice)) unit :=
  let id := uuid_New i in
  r ← catch (CreateDevice (HSDev := bridged_ServiceDevice) id (newDevice cfg opts i));
  match r with
  | Ok d => modify (fun s => set_devices (HSDev := bridged_ServiceDevice)
                               (<[id := addResources test_etag d (NumResourcesPerDevice cfg)]>
                                  (sv_devices (HSDev := bridged_ServiceDevice) s)) s)
  | Err _ => mret tt
  end.
Definition create_devices (cfg : ToolConfig) (opts : list DeviceOption) (uuid_New : nat → UUID)
    : ME (Service (HSDev := bridged_ServiceDevice)) unit :=
  each (create_one cfg opts uuid_New) (seq 0 (Z.to_nat (NumGeneratedBridgedDevices cfg))).

(** How the program ends: a panic with an error, [os.Exit], or a shutdown of the service. *)
Inductive Ending := Panics (err : error) | Exits (code : Z) | ShutsDown.
Inductive Signal := SIGINT | SIGTERM.
(** The first signal decides. *)
Definition handleSignals (sigCh : list Signal) : option Ending :=
  match sigCh with
  | SIGINT :: _ => Some (Exits 0)
  | SIGTERM :: _ => Some ShutsDown
  | [] => None
  end.

(** [main] up to [Serve]: the service with its devices, or the panic.  [service.New] validates
    again; [net_New] is the result of the network that it makes (BridgeNet). *)
Definition tool_main (yaml_Decode : result string → result ToolConfig) (net_New : result unit) (env : SEnv (ServiceDevice := bridged_ServiceDevice))
    (getTDOpts : ToolConfig → FileSystem → result TdFun) (uuid_New : nat → UUID) (configFile : string) (fs : FileSystem)
    : Ending + Service (HSDev := bridged_ServiceDevice) :=
  match LoadConfig yaml_Decode configFile fs with
  | Err err => inl (Panics err)
  | Ok cfg =>
      match (_ ← Service.Config_Validate (tc_Service cfg); net_New) with
      | Err err => inl (Panics err)
      | Ok _ =>
          match getOpts SystemCertPool getTDOpts cfg fs with
          | Err err => inl (Panics err)
          | Ok opts =>
              inr (create_devices cfg opts uuid_New
                     (Service.New (HSDev := bridged_ServiceDevice) (coap_ID (tc_Service cfg)) env)).2
          end
      end
  end.
End Main.
