(* ===== verification/BridgeToolProps.v ===== *)
(** * BridgeToolProps: what the example bridge does

    The devices that [main] makes, the test resources as their clients see them, what a run of
    the notifying goroutine writes, and which configurations are accepted. *)

From S2P Require Import ClientTool CertGenProps BridgeTool BridgeResourceProps BridgeDevice BridgeNet Service ThingDesc.

(** ** Configuration *)

(** The validation of the configuration does not look at the part of the cloud. *)
Theorem cloud_not_validated `{Resolver} c c' cloud :
  ToolConfig_Validate c = Ok c' →
  ∃ c'', ToolConfig_Validate {| tc_Service := tc_Service c; tc_LogLevel := tc_LogLevel c; tc_Cloud := cloud;
      tc_CredentialEnabled := tc_CredentialEnabled c; tc_ThingDescription := tc_ThingDescription c;
      NumGeneratedBridgedDevices := NumGeneratedBridgedDevices c;
      NumResourcesPerDevice := NumResourcesPerDevice c |} = Ok c'' ∧ tc_Cloud c'' = cloud.
Proof.
  unfold ToolConfig_Validate. simpl. destruct (Service.Config_Validate _) as [s|]; [|done]. simpl.
  destruct (_ <=? 0); [done|]. intros _. by eexists.
Qed.

(** A configuration of the cloud that its own check accepts, with the pool of the system and
    no file, is refused when the options are made, unless there is a credential manager. *)
Theorem system_pool_needs_file `{HCore : CoreEnv} `{HCred : CredEnv} `{HLib : !CertLib} `{HOwn : !OwnerLib} pool id fs :
  let cfg := {| cc_Enabled := true; cc_CloudID := id;
                cc_TLS := {| CAPoolPath := ""; KeyPath := ""; CertPath := ""; UseSystemCAPool := true |} |} in
  CloudConfig_Validate cfg = Ok tt ∧
  getCloudTLS pool cfg false fs = Err (ErrText "cannot load ca: caPoolPath is empty").
Proof. done. Qed.

(** ** The resources of a device *)

Lemma format_uint_inj a b : 0 <= a < 2 ^ 63 → 0 <= b < 2 ^ 63 → format_uint a = format_uint b → a = b.
Proof.
  intros Ha Hb E. pose proof (Atoi_format_uint a Ha) as Ea. pose proof (Atoi_format_uint b Hb) as Eb. congruence.
Qed.
Lemma GetTestResourceHref_inj i j :
  (Z.of_nat i < 2 ^ 63) → (Z.of_nat j < 2 ^ 63) → GetTestResourceHref i = GetTestResourceHref j → i = j.
Proof.
  intros Hi Hj. unfold GetTestResourceHref, format_int.
  rewrite !(proj2 (Z.ltb_ge _ _)) by lia. intros E%(f_equal (str_drop (String.length "/test/"))).
  rewrite !str_drop_app in E. apply format_uint_inj in E; lia.
Qed.

Definition test_resource (id : UUID) (etag : Z) (idx : nat) : Resource :=
  SetObserveHandler true true
    (NewResource (GetTestResourceHref idx) (of_device id (GetTestResourceHref idx)) true true [TestResourceType] [OC_IF_BASELINE; OC_IF_RW] etag).

Lemma addResource_resources etag d i :
  d_resources (addResource etag d i) = <[GetTestResourceHref i := test_resource (cfg_ID (d_cfg d)) etag i]> (d_resources d) ∧
  d_cfg (addResource etag d i) = d_cfg d.
Proof. unfold addResource. rewrite AddResources_eq. simpl. by destruct (d_cloudManager d). Qed.

Lemma add_all_resources etag d n :
  Z.of_nat n < 2 ^ 63 →
  let d' := foldl (fun d i => addResource (etag i) d i) d (seq 0 n) in
  d_cfg d' = d_cfg d ∧
  (∀ i, (i < n)%nat → d_resources d' !! GetTestResourceHref i = Some (test_resource (cfg_ID (d_cfg d)) (etag i) i)) ∧
  (∀ href, (∀ i, (i < n)%nat → href ≠ GetTestResourceHref i) → d_resources d' !! href = d_resources d !! href).
Proof.
  induction n as [|n IH]; intros Hn; [split; [done|split; [lia|done]]|].
  rewrite seq_S, foldl_app. cbn [foldl Nat.add]. cbv zeta. destruct IH as (Hc&Hin&Hout); [lia|].
  set (d1 := foldl _ d (seq 0 n)) in *. destruct (addResource_resources (etag n) d1 n) as [Hr Hcfg].
  rewrite Hr, Hc. split; [congruence|]. split.
  - intros i Hi. destruct (decide (i = n)) as [->|Hne]; [by rewrite lookup_insert_eq|].
    rewrite lookup_insert_ne; [apply Hin; lia|]. intros E. apply Hne.
    symmetry. by apply GetTestResourceHref_inj in E; [| lia..].
  - intros href Hh. rewrite lookup_insert_ne; [apply Hout; intros i ?; apply Hh; lia|].
    intros E. by apply (Hh n); [lia|].
Qed.

(** ** The devices of the bridge *)

(** What clients can rely on in the device number [i]: its name, and its test resources, which
    can be read, written and observed. *)
Definition bridged (cfg : ToolConfig) (i : nat) (d : Device) : Prop :=
  cfg_DeviceName (d_cfg d) = "bridged-device-" +:+ format_int (Z.of_nat i) ∧
  ∀ k, (k < Z.to_nat (NumResourcesPerDevice cfg))%nat → ∃ r, d_resources d !! GetTestResourceHref k = Some r ∧
    r_types r = [TestResourceType] ∧
    SupportsOperations r =
      Z.lor (Z.lor SupportedOperationRead SupportedOperationWrite) SupportedOperationObserve.

Section Devices.
Context {OnDeviceUpdated RemoveCloudCAs Logger Loop TdFun : Type}.
Context `{HUuid : Uuids} `{HCore : CoreEnv} `{HCred : CredEnv} `{HLib : !CertLib} `{HOwn : !OwnerLib}.
Context `{HOrder : ResourceOrder} `{HREnv : ResourceEnv}.
Context (doNothing : OnDeviceUpdated) (noProperties : gmap string string) (defaultLogger : UUID → Logger) (newLoop : Loop).
Context (SystemCertPool : result (list Cert)).
Context (NewLogger : UUID → Z → Logger) (etag : string → Z) (test_etag : nat → Z) (fuel : nat).
Context (cfg : ToolConfig).
Abbreviation DeviceOption :=
  (device_Option (OnDeviceUpdated := OnDeviceUpdated) (GetProperties := gmap string string)
     (GetCertificates := string → list TlsCertificate) (RemoveCloudCAs := RemoveCloudCAs) (Logger := Logger)
     (Loop := Loop) (GetThingDescription := TdFun)).
Context (opts : list DeviceOption) (uuid_New : nat → UUID).
Abbreviation Svc := (Service (HSDev := bridged_ServiceDevice)).
Abbreviation devs := (sv_devices (HSDev := bridged_ServiceDevice)).
Abbreviation make i s := (newDevice doNothing noProperties defaultLogger newLoop SystemCertPool NewLogger etag fuel cfg opts i
                        (uuid_New i) (ToUUID (sv_ID (HSDev := bridged_ServiceDevice) s))).
Abbreviation one := (create_one doNothing noProperties defaultLogger newLoop SystemCertPool NewLogger etag test_etag fuel cfg opts uuid_New).

(** A new device keeps the configuration it was given, but for the types. *)
Lemma New_cfg c o d : BridgeDevice.New etag fuel c o = Ok d → cfg_DeviceName (d_cfg d) = cfg_DeviceName c ∧ cfg_ID (d_cfg d) = cfg_ID c.
Proof.
  unfold BridgeDevice.New. intros H. apply bind_Ok_inv in H as (d1&E1&H). apply bind_Ok_inv in H as (d2&E2&H).
  injection H as <-.
  assert (Ha : ∀ rs x, d_cfg (AddResources rs x) = d_cfg x).
  { intros rs x. rewrite AddResources_eq. by destruct (d_cloudManager x). }
  rewrite !Ha. assert (Hd2 : d_cfg d2 = d_cfg d1).
  { destruct (cfg_CloudEnabled _); [|by injection E2 as <-].
    destruct (CloudState.New _ _); [|done]. injection E2 as <-. by rewrite Ha. }
  assert (Hd1 : cfg_DeviceName (d_cfg d1) = cfg_DeviceName c ∧ cfg_ID (d_cfg d1) = cfg_ID c).
  { destruct (cfg_CredentialEnabled _); [|by injection E1 as <-].
    destruct (Credential.New _ _); [|done]. injection E1 as <-. by rewrite Ha. }
  by destruct (o_getThingDescription o); [simpl; rewrite ?Ha|]; rewrite Hd2.
Qed.

Lemma made_bridged i s d :
  NumResourcesPerDevice cfg < 2 ^ 63 → make i s = Ok d →
  bridged cfg i (addResources test_etag d (NumResourcesPerDevice cfg)).
Proof.
  intros Hn Hd. apply New_cfg in Hd as [Hd _]. unfold bridged, addResources.
  destruct (Z.leb_spec (NumResourcesPerDevice cfg) 0); [split; [done|lia]|].
  destruct (add_all_resources test_etag d (Z.to_nat (NumResourcesPerDevice cfg))) as (Hc&Hin&_); [lia|].
  rewrite Hc. split; [done|]. intros k Hk. eexists. split; [by apply Hin|]. by split.
Qed.

Lemma create_one_run i (s : Svc) :
  devs s !! uuid_New i = None →
  ∃ s', one i s = (Ok tt, s') ∧ (sv_ID s' = sv_ID s ∧ sv_env (HSDev := bridged_ServiceDevice) s' = sv_env (HSDev := bridged_ServiceDevice) s) ∧
    devs s' = match make i s with
              | Ok d => <[uuid_New i := addResources test_etag d (NumResourcesPerDevice cfg)]> (devs s)
              | Err _ => devs s
              end.
Proof.
  intros Hn. unfold create_one, catch, CreateDevice, gets, sv_emit, modify, mbind, ME_bind. rewrite Hn. cbn [fst snd].
  destruct (newDevice _ _ _ _ _ _ _ _ _ _ _ _ _) as [d|err] eqn:Ed;
    (eexists; split; [done|split; [done|]]); unfold set_devices; cbn [sv_devices].
  - by rewrite insert_insert_eq.
  - by apply delete_id.
Qed.

Lemma create_devices_run l (s : Svc) :
  NoDup (uuid_New <$> l) → (∀ i, i ∈ l → devs s !! uuid_New i = None) →
  ∃ s', each one l s = (Ok tt, s') ∧ (sv_ID s' = sv_ID s ∧ sv_env (HSDev := bridged_ServiceDevice) s' = sv_env (HSDev := bridged_ServiceDevice) s) ∧
    (∀ i, i ∈ l → devs s' !! uuid_New i =
       match make i s with Ok d => Some (addResources test_etag d (NumResourcesPerDevice cfg)) | Err _ => None end) ∧
    (∀ id, id ∉ uuid_New <$> l → devs s' !! id = devs s !! id).
Proof.
  revert s. induction l as [|i l IH]; intros s Hnd Hfresh.
  { exists s. split; [done|split; [done|split; [set_solver|done]]]. }
  apply NoDup_cons in Hnd as [Hi Hnd]. destruct (create_one_run i s (Hfresh i ltac:(set_solver))) as (s1&E1&[Hid1 Hev1]&Hd1).
  assert (Hother : ∀ id, id ≠ uuid_New i → devs s1 !! id = devs s !! id).
  { intros id Hne. rewrite Hd1. destruct (make i s); [by rewrite lookup_insert_ne by done|done]. }
  destruct (IH s1 Hnd) as (s'&E'&[Hid' Hev']&Hin&Hout).
  { intros j Hj. rewrite Hother; [apply Hfresh; set_solver|]. intros E. apply Hi. rewrite <- E. by apply list_elem_of_fmap_2. }
  exists s'. cbn [each]. unfold mbind, ME_bind. rewrite E1. split; [done|]. split; [split; congruence|]. split.
  - intros j [->|Hj]%elem_of_cons; [|by rewrite Hin, Hid1].
    rewrite Hout by done. rewrite Hd1. destruct (make i s); [by rewrite lookup_insert_eq|].
    apply Hfresh. set_solver.
  - intros id Hnin. rewrite Hout by set_solver. apply Hother. set_solver.
Qed.

(** C13 The bridge starts with one device for each number below the configured one whose
    construction succeeds, under the ID that was drawn for it, and with no other: each carries
    its number in its name and all the test resources, which can be read, written and
    observed.  A device that cannot be constructed is left out, and the start goes on. *)
Theorem bridge_devices (s : Svc) :
  let n := Z.to_nat (NumGeneratedBridgedDevices cfg) in
  NoDup (uuid_New <$> seq 0 n) → devs s = ∅ → NumResourcesPerDevice cfg < 2 ^ 63 →
  ∃ s', create_devices doNothing noProperties defaultLogger newLoop SystemCertPool NewLogger etag test_etag fuel cfg opts
          uuid_New s = (Ok tt, s') ∧
    (∀ i, (i < n)%nat → match make i s with
                        | Ok _ => ∃ d, devs s' !! uuid_New i = Some d ∧ bridged cfg i d
                        | Err _ => devs s' !! uuid_New i = None
                        end) ∧
    (∀ id d, devs s' !! id = Some d → ∃ i, (i < n)%nat ∧ id = uuid_New i).
Proof.
  intros n Hnd He Hn. destruct (create_devices_run (seq 0 n) s Hnd) as (s'&E&_&Hin&Hout).
  { intros i _. by rewrite He, lookup_empty. }
  exists s'. split; [exact E|]. split.
  - intros i Hi. specialize (Hin i ltac:(apply elem_of_seq; lia)).
    destruct (make i s) as [d|] eqn:Ed; [|done]. rewrite Hin. eexists. split; [done|]. by eapply made_bridged.
  - intros id d Hd. destruct (decide (id ∈ uuid_New <$> seq 0 n)) as [(i&->&Hi%elem_of_seq)%list_elem_of_fmap|Hnin].
    { exists i. split; [lia|done]. }
    rewrite (Hout id Hnin), He, lookup_empty in Hd. done.
Qed.
End Devices.

(** ** The test resources as their clients see them *)

Definition request (code : Z) (href : string) (req : Request) : Prop :=
  m_code (req_msg req) = code ∧ URIPath req = href ∧ m_observe (req_msg req) = None.

Lemma set_resources_same (d : Device) href r :
  d_resources d !! href = Some r → set_resources (<[href := r]> (d_resources d)) d = d.
Proof. intros H. unfold set_resources. rewrite insert_id by done. by destruct d. Qed.

(** A device hands a request to the handler of its resource, whatever the handlers are, with
    the variables that this resource captured. *)
Section AnyHandlers.
Context `{HREnv : ResourceEnv}.
Definition with_env (e : REnv) (w : DWorld) : DWorld :=
  {| dw_d := dw_d w; dw_env := e; dw_trace := dw_trace w |}.

Lemma device_read w href r req m e :
  d_resources (dw_d w) !! href = Some r → r_hasGet r = true → request GET href req →
  renv_get (r_captured r) req (dw_env w) = (Ok (Some m), e) → m_code m = codes_Content →
  BridgeDevice.HandleRequest req w = (Ok (Some (with_etag r m)), with_env e w).
Proof.
  intros Hr Hg (Hc&Hu&Ho) He Hm. unfold BridgeDevice.HandleRequest. rewrite Hu, Hr.
  unfold BridgeResource.HandleRequest, call_get, call_post, getr, gets, rask, lift, mret, ME_ret, mbind, ME_bind. cbn [rw_r rw_env].
  rewrite Hc, Hg, Ho. cbn. rewrite He. cbn. rewrite Hm. cbn. by rewrite set_resources_same.
Qed.
Lemma device_write w href r req m e :
  d_resources (dw_d w) !! href = Some r → r_hasPost r = true → request POST href req →
  renv_post (r_captured r) req (dw_env w) = (Ok (Some m), e) →
  BridgeDevice.HandleRequest req w = (Ok (Some m), with_env e w).
Proof.
  intros Hr Hp (Hc&Hu&Ho) He. unfold BridgeDevice.HandleRequest. rewrite Hu, Hr.
  unfold BridgeResource.HandleRequest, call_get, call_post, getr, gets, rask, lift, mret, ME_ret, mbind, ME_bind. cbn [rw_r rw_env].
  rewrite Hc, Hp. cbn. rewrite He. cbn. by rewrite set_resources_same.
Qed.
End AnyHandlers.

Section Test.
Context `{HConn : ToolConn} `{HData : Cbor resourceData}.

Definition is_test (w : DWorld) (href : string) (rds : resourceData) : Prop :=
  te_data (dw_env w) !! href = Some rds ∧
  ∃ r, d_resources (dw_d w) !! href = Some r ∧ r_hasGet r = true ∧ r_hasPost r = true ∧ cap_href (r_captured r) = href.

Lemma cancel_watchers_none c tr (e : TestEnv) : cancel_watchers c tr tr e = e.
Proof.
  unfold cancel_watchers, cancelled_since. rewrite drop_all. cbn. destruct (bool_decide _); [by destruct e|done].
Qed.
Lemma tool_HandleRequest_quiet req w r w' :
  BridgeDevice.HandleRequest req w = (r, w') → dw_trace w' = dw_trace w → tool_HandleRequest req w = (r, w').
Proof.
  intros E Ht. unfold tool_HandleRequest. rewrite E. destruct (d_resources (dw_d w) !! URIPath req) as [res|]; [|done].
  unfold run_cancels. rewrite Ht, cancel_watchers_none, <- Ht. by destruct w'.
Qed.

Definition read_answer (code : Z) (data : string) : Message := set_body data (set_format AppOcfCbor (set_code code NewMessage)).
Lemma resHandler_get rds data href req :
  request GET href req → cbor_Encode rds = Ok data → resHandler rds req = Ok (Some (read_answer codes_Content data)).
Proof. intros (Hc&_) He. unfold resHandler. rewrite Hc. cbn. by rewrite He. Qed.
Lemma resPostHandler_ok rds newData data href req :
  request POST href req → VNDOCFCBORCodec_Decode (req_msg req) = Ok newData → cbor_Encode newData = Ok data →
  resPostHandler req rds = (Ok (Some (read_answer codes_Changed data)), newData).
Proof. intros (Hc&_) Hd He. unfold resPostHandler, resHandler. rewrite Hd, Hc. cbn. by rewrite He. Qed.

(** A read does not change anything. *)
Lemma test_read w href rds data req :
  is_test w href rds → request GET href req → cbor_Encode rds = Ok data →
  ∃ m, tool_HandleRequest req w = (Ok (Some m), w) ∧ m_code m = codes_Content ∧ m_body m = Some data.
Proof.
  intros (Hd&r&Hr&Hg&Hp&Hcap) Hq He.
  assert (Hh : BridgeDevice.HandleRequest req w = (Ok (Some (with_etag r (read_answer codes_Content data))), with_env (dw_env w) w)).
  { apply (device_read w href); [done..| |done]. cbn. rewrite Hcap, Hd. by rewrite (resHandler_get rds data href req Hq He). }
  eexists. split; [rewrite (tool_HandleRequest_quiet _ _ _ _ Hh eq_refl); by destruct w|].
  unfold with_etag. by destruct (etag_option r).
Qed.

(** A write replaces the data of its resource. *)
Lemma test_write w href rds newData data req :
  is_test w href rds → request POST href req → VNDOCFCBORCodec_Decode (req_msg req) = Ok newData →
  cbor_Encode newData = Ok data →
  ∃ m w', tool_HandleRequest req w = (Ok (Some m), w') ∧ m_code m = codes_Changed ∧ m_body m = Some data ∧
    dw_d w' = dw_d w ∧ te_data (dw_env w') = <[href := newData]> (te_data (dw_env w)) ∧ dw_trace w' = dw_trace w ∧
    te_watcher (dw_env w') = te_watcher (dw_env w).
Proof.
  intros (Hd&r&Hr&Hg&Hp&Hcap) Hq Hdec He.
  assert (Hh : BridgeDevice.HandleRequest req w = (Ok (Some (read_answer codes_Changed data)),
      with_env (set_data (<[href := newData]> (te_data (dw_env w))) (dw_env w) : REnv) w)).
  { apply (device_write w href r); [done..|]. cbn. rewrite Hcap, Hd. by rewrite (resPostHandler_ok rds newData data href req Hq Hdec He). }
  rewrite (tool_HandleRequest_quiet _ _ _ _ Hh eq_refl). by repeat eexists.
Qed.

(** A test resource is a register: after a POST whose body decodes to [newData], which is
    answered with it, a GET of the same resource answers with [newData], and a GET of any
    other test resource with what it answered before. *)
Theorem test_resource_register w href rds newData data post get other rds' data' get' :
  is_test w href rds → request POST href post → VNDOCFCBORCodec_Decode (req_msg post) = Ok newData →
  cbor_Encode newData = Ok data → request GET href get →
  is_test w other rds' → other ≠ href → cbor_Encode rds' = Ok data' → request GET other get' →
  ∃ m w', tool_HandleRequest post w = (Ok (Some m), w') ∧ m_code m = codes_Changed ∧ m_body m = Some data ∧
    (∃ m1, tool_HandleRequest get w' = (Ok (Some m1), w') ∧ m_code m1 = codes_Content ∧ m_body m1 = Some data) ∧
    (∃ m2, tool_HandleRequest get' w' = (Ok (Some m2), w') ∧ m_code m2 = codes_Content ∧ m_body m2 = Some data').
Proof.
  intros Ht Hp Hdec He Hg Ht' Hne He' Hg'.
  destruct (test_write w href rds newData data post Ht Hp Hdec He) as (m&w'&E&Hc&Hb&Hd&Hda&_).
  exists m, w'. split; [done|]. split; [done|]. split; [done|].
  destruct Ht as (_&r&Hr&Hgp), Ht' as (Hr'&Hres'). split.
  - apply (test_read w' href newData); [|done|done]. split; [rewrite Hda; apply lookup_insert_eq|].
    exists r. by rewrite Hd.
  - apply (test_read w' other rds'); [|done|done]. split; [by rewrite Hda, lookup_insert_ne|]. by rewrite Hd.
Qed.

(** ** The notifying goroutine *)

(** What a run of the callback [id], with the captured variables [c], keeps of a state: the
    data and the map of the callbacks, the other subscriptions and the connections of all; it
    closes at most the subscription of its own connection, and only adds to the trace. *)
Record framed (id : nat) (c : Closure) (w w' : RWorld) : Prop := {
  fr_data : te_data (rw_env w') = te_data (rw_env w);
  fr_watcher : te_watcher (rw_env w') = te_watcher (rw_env w);
  fr_captured : r_captured (rw_r w') = r_captured (rw_r w);
  fr_conns : ∀ j, cl_conn <$> r_closures (rw_r w') !! j = cl_conn <$> r_closures (rw_r w) !! j;
  fr_others : ∀ j, j ≠ id → r_closures (rw_r w') !! j = r_closures (rw_r w) !! j;
  fr_subs : r_subs (rw_r w') ⊆ r_subs (rw_r w);
  fr_trace : ∃ l, rw_trace w' = rw_trace w ++ l ∧ ∀ i, EvCancel i ∈ l → r_subs (rw_r w) !! cl_conn c = Some i }.

Lemma framed_refl id c w : framed id c w w.
Proof. split; try done. exists []. rewrite app_nil_r. split; [done|set_solver]. Qed.
Lemma framed_write id c w a m : keeps (framed id c w) (WriteMessage a m).
Proof.
  intros w1 []. unfold WriteMessage. rewrite bind_remit. unfold rask. cbn. unfold on_conn.
  destruct (tconn_write a m _) as [r e]. split; try done. destruct fr_trace0 as (l&Hl&Hc).
  exists (l ++ [EvWrite a m]). cbn. rewrite Hl, app_assoc. split; [done|]. set_solver.
Qed.
Lemma framed_remove id c w : keeps (framed id c w) (removeSubscription (cl_conn c)).
Proof.
  intros w1 []. rewrite removeSubscription_eq. split; try done; cbn.
  - etrans; [apply delete_subseteq|done].
  - destruct fr_trace0 as (l&Hl&Hc). eexists. rewrite Hl, <- app_assoc. split; [done|].
    intros i [Hi|Hi]%elem_of_app; [by apply Hc|]. destruct (r_subs (rw_r w1) !! cl_conn c) as [k|] eqn:E; [|by apply not_elem_of_nil in Hi].
    apply list_elem_of_singleton in Hi as [= ->]. by eapply lookup_weaken.
Qed.
Lemma notify_frame id arg w c :
  r_closures (rw_r w) !! id = Some c → framed id c w (notify id arg w).2.
Proof.
  intros Hc. unfold notify. rewrite bind_getr, Hc. cbv zeta.
  assert (Hsend : ∀ resp, keeps (framed id c w) (r ← getr (fun r => r);
      w ← WriteMessage (cl_conn c) (with_etag r (set_token (cl_token c) resp));
      match w with Ok _ => mret tt | Err _ => removeSubscription (cl_conn c) end)).
  { intros resp. pose proof (framed_write id c w) as Hw. pose proof (framed_remove id c w) as Hr. unfold getr.
    apply keeps_bind; [apply keeps_gets|intros r]. apply keeps_bind; [apply Hw|intros [[]|err]; [apply keeps_ret|apply Hr]]. }
  destruct arg as [m|err].
  - destruct (_ =? _); [apply framed_refl|]. rewrite bind_updr. apply Hsend. split; try done; cbn.
    + intros j. destruct (decide (j = id)) as [->|]; [by rewrite lookup_insert_eq, Hc|by rewrite lookup_insert_ne].
    + intros j Hj. by rewrite lookup_insert_ne.
    + exists []. rewrite app_nil_r. split; [done|set_solver].
  - match goal with |- framed _ _ _ (?m w).2 => enough (Hk : keeps (framed id c w) m) by exact (Hk w (framed_refl id c w)) end.
    unfold getr. apply keeps_bind; [apply keeps_gets|intros href].
    apply keeps_bind; [|intros _; apply framed_remove].
    destruct (CreateResponseBadRequest _) as [resp|e]; [apply Hsend|apply keeps_ret].
Qed.
Lemma notify_idle id arg w : r_closures (rw_r w) !! id = None → (notify id arg w).2 = w.
Proof. intros Hc. unfold notify. by rewrite bind_getr, Hc. Qed.
(** A notification with new data is written, whether the write succeeds or not. *)
Lemma notify_writes id m w c :
  r_closures (rw_r w) !! id = Some c → cl_dedup c ≠ crc m →
  ∃ msg l, rw_trace (notify id (Ok m) w).2 = rw_trace w ++ EvWrite (cl_conn c) msg :: l ∧
    m_body msg = m_body m ∧ m_token msg = cl_token c.
Proof.
  intros Hc Hd. unfold crc in Hd. unfold notify. rewrite bind_getr, Hc. cbv zeta. rewrite (proj2 (Z.eqb_neq _ _) Hd).
  rewrite bind_updr, bind_getr. unfold WriteMessage. unfold mbind at 1, ME_bind at 1. rewrite bind_remit.
  unfold rask. match goal with |- context [renv_write ?a ?x ?e] => destruct (renv_write a x e) as [[[]|err] e1] end.
  - cbn. eexists _, []. split; [done|]. unfold with_etag. by destruct (etag_option _).
  - rewrite removeSubscription_eq. cbn [snd rw_trace]. eexists _, _. split; [by rewrite <- app_assoc|]. unfold with_etag. by destruct (etag_option _).
Qed.

Lemma foldl_delete_lookup {A} (l : list nat) (m : gmap nat A) k :
  k ∉ l → foldl (fun m id => delete id m) m l !! k = m !! k.
Proof.
  revert m. induction l as [|i l IH]; intros m Hk; [done|]. cbn. rewrite IH by set_solver.
  apply lookup_delete_ne. set_solver.
Qed.
Lemma foldl_delete_subseteq {A} (l : list nat) (m : gmap nat A) : foldl (fun m id => delete id m) m l ⊆ m.
Proof.
  revert m. induction l as [|i l IH]; intros m; [done|]. cbn. etrans; [apply IH|apply delete_subseteq].
Qed.

(** The number [sub] is that of the subscription of [conn] to the resource [href] alone: no
    other subscription has it, and no other callback for the resource is for [conn]. *)
Definition exclusive (w : DWorld) (sub : nat) (href conn : string) : Prop :=
  (∀ h r k, d_resources (dw_d w) !! h = Some r → r_subs r !! k = Some sub → h = href ∧ k = conn) ∧
  (∀ sub' req' r c', te_watcher (dw_env w) !! sub' = Some (href, req') → d_resources (dw_d w) !! href = Some r →
     r_closures r !! sub' = Some c' → cl_conn c' = conn → sub' = sub).
(** An observer that is still to be visited. *)
Record waiting (w : DWorld) (sub : nat) (href : string) (req : Request) (c : Closure) (rds : resourceData) : Prop := {
  wt_watched : te_watcher (dw_env w) !! sub = Some (href, req);
  wt_closure : ∃ res, d_resources (dw_d w) !! href = Some res ∧ r_closures res !! sub = Some c;
  wt_data : te_data (dw_env w) !! href = Some rds;
  wt_exclusive : exclusive w sub href (cl_conn c) }.

Lemma cancelled_since_app l1 l2 i : i ∈ cancelled_since l1 (l1 ++ l2) ↔ EvCancel i ∈ l2.
Proof.
  unfold cancelled_since. rewrite drop_app_length. rewrite list_elem_of_omap. split.
  - intros ([]&Hin&[= ->]). done.
  - intros H. by exists (EvCancel i).
Qed.
Lemma cancel_watchers_spec c before l (e : TestEnv) :
  te_data (cancel_watchers c before (before ++ l) e) = te_data e ∧
  te_watcher (cancel_watchers c before (before ++ l) e) ⊆ te_watcher e ∧
  ∀ k, EvCancel k ∉ l → te_watcher (cancel_watchers c before (before ++ l) e) !! k = te_watcher e !! k.
Proof.
  unfold cancel_watchers. destruct (bool_decide _); [|done]. cbn. split; [done|]. split; [apply foldl_delete_subseteq|].
  intros k Hk. apply foldl_delete_lookup. by rewrite cancelled_since_app.
Qed.

(** The visit of another number leaves the observer waiting, even if a write fails. *)
Lemma tick_call_waiting w sub' href' req' sub href req c rds :
  te_watcher (dw_env w) !! sub' = Some (href', req') → sub' ≠ sub → waiting w sub href req c rds →
  waiting (tick_call w sub' href' req') sub href req c rds ∧ ∃ l, dw_trace (tick_call w sub' href' req') = dw_trace w ++ l.
Proof.
  intros Hs' Hne Hw. assert (Hsame : waiting w sub href req c rds ∧ ∃ l, dw_trace w = dw_trace w ++ l)
    by (split; [done|exists []; by rewrite app_nil_r]).
  unfold tick_call. destruct (d_resources (dw_d w) !! href') as [res'|] eqn:Er'; [|done].
  destruct (te_data (dw_env w) !! href') as [rds'|]; [|done]. cbv zeta.
  set (arg := match resHandler rds' req' with Ok (Some m) => Ok m | Ok None => Err ErrNilPointer | Err err => Err err end).
  set (w0 := {| rw_r := res'; rw_env := dw_env w; rw_trace := dw_trace w |}).
  destruct (r_closures res' !! sub') as [c'|] eqn:Ec'.
  2:{ rewrite (notify_idle sub' arg w0 Ec'). cbn. rewrite set_resources_same by done. unfold run_cancels. cbn.
      rewrite cancel_watchers_none. by destruct w. }
  destruct (notify_frame sub' arg w0 c' Ec') as [Hd Hwt _ Hcn Hot Hsb (l&Hl&Hcc)]. cbn in Hd, Hwt, Hcn, Hot, Hsb, Hl, Hcc.
  set (rw := (notify sub' arg w0).2) in *. unfold run_cancels. cbn [dw_d dw_env dw_trace]. rewrite Hl.
  split; [|by exists l]. destruct (cancel_watchers_spec (r_captured res') (dw_trace w) l (rw_env rw)) as (Hd2&Hsub2&Hk2).
  destruct Hw as [Hwd (res&Hr&Hc) Hda [Hex1 Hex2]].
  assert (Hlook : ∀ h r, d_resources (set_resources (<[href' := rw_r rw]> (d_resources (dw_d w))) (dw_d w)) !! h = Some r →
    ∃ r0, d_resources (dw_d w) !! h = Some r0 ∧ r_subs r ⊆ r_subs r0 ∧ (∀ j, j ≠ sub' → r_closures r !! j = r_closures r0 !! j) ∧
      ∀ j, cl_conn <$> r_closures r !! j = cl_conn <$> r_closures r0 !! j).
  { intros h r. cbn. intros [[<- <-]|[Hn Hh]]%lookup_insert_Some; [by exists res'|by exists r]. }
  split; cbn [dw_env dw_d].
  - rewrite Hk2, Hwt; [done|]. intros Hi%Hcc. destruct (Hex1 href' res' _ Er' Hi) as [-> Hconn].
    apply Hne. by eapply Hex2.
  - cbn. destruct (decide (href = href')) as [->|Hh].
    + exists (rw_r rw). rewrite lookup_insert_eq. split; [done|]. rewrite Hot by done. congruence.
    + exists res. by rewrite lookup_insert_ne.
  - by rewrite Hd2, Hd.
  - split.
    + intros h r k Hh Hk. destruct (Hlook h r Hh) as (r0&Hr0&Hs0&_). apply (Hex1 h r0 k Hr0). by eapply lookup_weaken.
    + intros j req1 r cj Hj Hh Hcj Hconn. destruct (Hlook href r Hh) as (r0&Hr0&_&_&Hc0). specialize (Hc0 j).
      rewrite Hcj in Hc0. destruct (r_closures r0 !! j) as [cj0|] eqn:Ej0; [|done]. injection Hc0 as Hc0.
      apply (Hex2 j req1 r0 cj0); [|done|done|congruence]. rewrite <- Hwt. by eapply lookup_weaken.
Qed.

Lemma tick_one_trace w sub : ∃ l, dw_trace (tick_one w sub) = dw_trace w ++ l.
Proof.
  assert (Hsame : ∃ l, dw_trace w = dw_trace w ++ l) by (exists []; by rewrite app_nil_r).
  unfold tick_one, tick_call. destruct (te_watcher (dw_env w) !! sub) as [[href req]|]; [|done].
  destruct (d_resources (dw_d w) !! href) as [res|]; [|done]. destruct (te_data (dw_env w) !! href); [|done]. cbv zeta.
  unfold run_cancels. cbn [dw_trace]. set (w0 := {| rw_r := res |}).
  destruct (r_closures res !! sub) as [c|] eqn:Ec.
  - match goal with |- context [notify sub ?a w0] => destruct (fr_trace _ _ _ _ (notify_frame sub a w0 c Ec)) as (l&Hl&_) end.
    by exists l.
  - by rewrite (notify_idle sub _ w0 Ec).
Qed.
Lemma tick_extends l w : ∃ x, dw_trace (foldl tick_one w l) = dw_trace w ++ x.
Proof.
  revert w. induction l as [|sub l IH]; intros w; [exists []; by rewrite app_nil_r|]. cbn [foldl].
  destruct (IH (tick_one w sub)) as [x Hx]. destruct (tick_one_trace w sub) as [y Hy].
  exists (y ++ x). by rewrite Hx, Hy, app_assoc.
Qed.
Lemma tick_one_writes w sub href req c rds m :
  waiting w sub href req c rds → resHandler rds req = Ok (Some m) → cl_dedup c ≠ crc m →
  ∃ msg l, dw_trace (tick_one w sub) = dw_trace w ++ EvWrite (cl_conn c) msg :: l ∧
    m_body msg = m_body m ∧ m_token msg = cl_token c.
Proof.
  intros [Hwd (res&Hr&Hc) Hda _] Hm Hcrc. unfold tick_one, tick_call. rewrite Hwd, Hr, Hda, Hm.
  unfold run_cancels. cbn [dw_trace].
  by apply (notify_writes sub m {| rw_r := res; rw_env := dw_env w; rw_trace := dw_trace w |} c).
Qed.

(** C29 A run of the notifying goroutine reaches an observer in its map, whatever the order of
    the map, and even if the writes to other observers, or to this one, fail: when the data of
    its test resource is not what the observer was last sent, the run writes the data to the
    connection of the observer, under the token of its request.  The number of the observer
    must be its own: no other subscription of the device has it, and the resource has no other
    callback for the same connection. *)
Theorem tick_notifies order w sub href req res c rds m :
  (∀ x, order x ≡ₚ map_to_list x) →
  te_watcher (dw_env w) !! sub = Some (href, req) →
  d_resources (dw_d w) !! href = Some res → te_data (dw_env w) !! href = Some rds →
  r_closures res !! sub = Some c → exclusive w sub href (cl_conn c) →
  resHandler rds req = Ok (Some m) → cl_dedup c ≠ calcCRC64 (m_body m) →
  ∃ msg l1 l2, dw_trace (tick order w) = dw_trace w ++ l1 ++ EvWrite (cl_conn c) msg :: l2 ∧
    m_body msg = m_body m ∧ m_token msg = cl_token c.
Proof.
  intros Ho Hs Hr Hd Hc Hex Hm Hcrc. unfold tick. set (l := (order _).*1).
  assert (Hin : sub ∈ l).
  { unfold l. rewrite Ho. apply list_elem_of_fmap. exists (sub, (href, req)). split; [done|]. by apply elem_of_map_to_list. }
  assert (Hw : waiting w sub href req c rds) by (split; eauto). clearbody l. clear Hs Hr Hd Hc Hex Ho.
  revert w Hw. induction l as [|sub' l IH]; intros w Hw; [by apply not_elem_of_nil in Hin|]. cbn [foldl].
  destruct (decide (sub' = sub)) as [->|Hne].
  - destruct (tick_one_writes w sub href req c rds m Hw Hm Hcrc) as (msg&x&Ht&Hb&Htok).
    destruct (tick_extends l (tick_one w sub)) as [y Hy].
    exists msg, [], (x ++ y). rewrite Hy, Ht, <- app_assoc. by split.
  - assert (Hstep : waiting (tick_one w sub') sub href req c rds ∧ ∃ x, dw_trace (tick_one w sub') = dw_trace w ++ x).
    { split; [|apply tick_one_trace]. unfold tick_one. destruct (te_watcher (dw_env w) !! sub') as [[href' req']|] eqn:E; [|done].
      by apply tick_call_waiting. }
    destruct Hstep as [Hw' [y Hy]].
    destruct (IH ltac:(apply elem_of_cons in Hin as [->|Hin]; done) _ Hw') as (msg&l1&l2&Ht&Hb&Htok).
    exists msg, (y ++ l1), l2. rewrite Ht, Hy, <- !app_assoc. by split.
Qed.
End Test.

(** ** The whole bridge *)

Section Whole.
Context `{HConn : ToolConn} `{HData : Cbor resourceData}.
Context `{HUuid : Uuids} `{HOrder : ResourceOrder} `{HLinks : Cbor ResourceLinks} `{HSt : CoapStatus}.
Abbreviation bridge_device := (bridged_ServiceDevice (HREnv := bridge_ResourceEnv)).
Abbreviation Bridge := (Service (HSDev := bridge_device)).
Context (dev_order : gmap UUID (SDev (ServiceDevice := bridge_device)) → list (UUID * SDev (ServiceDevice := bridge_device))).
Abbreviation handle := (bridge_HandleRequest dev_order).
Abbreviation env_of s := ((sv_env (HSDev := bridge_device) s : BridgeEnv * list REvent).1).

(** The bridge serves the test resource [href] of the device [id] with the data [rds]: the
    device has the resource that was made for it, whose handlers captured this data. *)
Definition serves (s : Bridge) (id : UUID) (href : string) (rds : resourceData) : Prop :=
  ∃ d t r, sv_devices (HSDev := bridge_device) s !! id = Some d ∧ be_devices (env_of s) !! id = Some t ∧
    te_data t !! href = Some rds ∧ d_resources d !! href = Some r ∧ r_hasGet r = true ∧ r_hasPost r = true ∧
    r_captured r = of_device id href.






End Whole.

(** ** From the start to the requests *)

Lemma list_to_map_seq {A} (f : nat → string) (g : nat → A) n i :
  NoDup (f <$> seq 0 n) → (i < n)%nat → (list_to_map ((fun k => (f k, g k)) <$> seq 0 n) : gmap string A) !! f i = Some (g i).
Proof.
  intros Hnd Hi. apply elem_of_list_to_map_1.
  - by rewrite <- list_fmap_compose.
  - apply list_elem_of_fmap. exists i. split; [done|]. apply elem_of_seq. lia.
Qed.
Lemma test_hrefs_NoDup n : Z.of_nat n < 2 ^ 63 → NoDup (GetTestResourceHref <$> seq 0 n).
Proof.
  intros Hn. apply NoDup_fmap_2_strong; [|apply NoDup_seq].
  intros i j Hi%elem_of_seq Hj%elem_of_seq. apply GetTestResourceHref_inj; lia.
Qed.

Section Started.
Context {OnDeviceUpdated RemoveCloudCAs Logger Loop TdFun : Type}.
Context `{HConn : ToolConn} `{HData : Cbor resourceData}.
Context `{HUuid : Uuids} `{HCore : CoreEnv} `{HCred : CredEnv} `{HLib : !CertLib} `{HOwn : !OwnerLib} `{HOrder : ResourceOrder}.
Abbreviation bridge_device := (bridged_ServiceDevice (HREnv := bridge_ResourceEnv)).
Context (doNothing : OnDeviceUpdated) (noProperties : gmap string string) (defaultLogger : UUID → Logger) (newLoop : Loop).
Context (SystemCertPool : result (list Cert)).
Context (NewLogger : UUID → Z → Logger) (etag : string → Z) (test_etag : nat → Z) (fuel : nat) (cfg : ToolConfig).
Context (opts : list (device_Option (OnDeviceUpdated := OnDeviceUpdated) (GetProperties := gmap string string)
     (GetCertificates := string → list TlsCertificate) (RemoveCloudCAs := RemoveCloudCAs) (Logger := Logger)
     (Loop := Loop) (GetThingDescription := TdFun))).
Context (uuid_New : nat → UUID) (c : TConn) (tr : list REvent).

(** The service that [main] starts serves all the test resources of the devices that could be
    made, with their initial names. *)
Theorem started_serves :
  let n := Z.to_nat (NumGeneratedBridgedDevices cfg) in
  let s := Service.New (HSDev := bridge_device) (coap_ID (tc_Service cfg))
             (start_env uuid_New n (NumResourcesPerDevice cfg) c, tr) in
  NoDup (uuid_New <$> seq 0 n) → NumResourcesPerDevice cfg < 2 ^ 63 →
  ∃ s', create_devices (HREnv := bridge_ResourceEnv) doNothing noProperties defaultLogger newLoop SystemCertPool NewLogger
          etag test_etag fuel cfg opts uuid_New s = (Ok tt, s') ∧
    ∀ i k d, (i < n)%nat → (k < Z.to_nat (NumResourcesPerDevice cfg))%nat →
      newDevice doNothing noProperties defaultLogger newLoop SystemCertPool NewLogger etag fuel cfg opts i (uuid_New i)
        (ToUUID (coap_ID (tc_Service cfg))) = Ok d →
      serves s' (uuid_New i) (GetTestResourceHref k) {| rd_Name := "test-" +:+ format_int (Z.of_nat k) |}.
Proof.
  intros n s Hnd Hm.
  destruct (create_devices_run (HREnv := bridge_ResourceEnv) doNothing noProperties defaultLogger newLoop SystemCertPool NewLogger
              etag test_etag fuel cfg opts uuid_New (seq 0 n) s Hnd) as (s'&E&[_ Hev]&Hin&_).
  { intros i _. apply lookup_empty. }
  exists s'. split; [exact E|]. intros i k d Hi Hk Hd. specialize (Hin i ltac:(apply elem_of_seq; lia)).
  cbn [sv_ID s Service.New] in Hin. rewrite Hd in Hin.
  destruct (add_all_resources test_etag d (Z.to_nat (NumResourcesPerDevice cfg))) as (_&Hres&_); [lia|].
  exists (addResources test_etag d (NumResourcesPerDevice cfg)),
    {| te_data := test_data (NumResourcesPerDevice cfg); te_subID := ∅; te_watcher := ∅; te_conn := c |}, (test_resource (uuid_New i) (test_etag k) k).
  split; [exact Hin|]. rewrite Hev. split; [exact (list_to_map_seq uuid_New (fun _ => {| te_data := test_data (NumResourcesPerDevice cfg); te_subID := ∅; te_watcher := ∅; te_conn := c |}) n i Hnd Hi)|]. split.
  { cbn [te_data]. unfold test_data. apply (list_to_map_seq GetTestResourceHref (fun i => {| rd_Name := "test-" +:+ format_int (Z.of_nat i) |}));
      [apply test_hrefs_NoDup; lia|done]. }
  unfold addResources. destruct (Z.leb_spec (NumResourcesPerDevice cfg) 0); [lia|]. apply New_cfg in Hd as [_ Hid].
  split; [|done]. by rewrite (Hres k Hk), Hid.
Qed.
End Started.
