(* ===== verification/ClientApiProps.v ===== *)
(** * ClientApiProps: options, identities and the construction of the client

    The request that a command sends has the options of the call, in order; an initialised
    owner has the identity it was configured with, one that is not initialised has none; and
    the settings of a client that was made from a configuration are in their ranges. *)

From S2P Require Export ClientCommandsProps CertGenProps ClientConfig.
From S2P Require Import ClientOwnProps OwnershipProps.

(** ** Durations *)

(** A duration of the configuration is never wrapped: every number of seconds that fits
    into a [time.Duration] gives exactly its nanoseconds, every larger one is refused, and
    only zero stands for the default. *)
Theorem toDuration_spec seconds def :
  0 <= seconds < 2 ^ 64 →
  toDuration seconds def =
    if seconds =? 0 then Ok def
    else if seconds * time_Second <? 2 ^ 63 then Ok (seconds * time_Second)
    else Err (ErrText "invalid value: interval overflows maximal duration").
Proof.
  intros Hs. unfold toDuration. destruct (Z.eqb_spec seconds 0); [done|].
  rewrite Z.gtb_ltb. change (u64 time_Second) with time_Second.
  pose proof (Z.div_mod (2 ^ 63 - 1) time_Second ltac:(done)) as Hd.
  pose proof (Z.mod_pos_bound (2 ^ 63 - 1) time_Second ltac:(done)) as Hm. fold maxDurationSeconds in Hd.
  change time_Second with 1000000000 in *.
  destruct (Z.ltb_spec maxDurationSeconds seconds) as [Hlt|Hle].
  - by rewrite (proj2 (Z.ltb_ge _ _)) by lia.
  - rewrite (proj2 (Z.ltb_lt _ _)) by lia. unfold u64. rewrite wrap_small by lia. by rewrite i64_small by lia.
Qed.

(** ** Options *)

Section Options.
Context {C : Type}.

(** What an option of [GetResource] adds to the message. *)
Definition get_funcs (o : @GetOption C) : list OptionFunc :=
  match o with
  | GetETag r => match r with Some etag => [WithETag etag] | None => [] end
  | GetInterface r => nonempty r WithInterface
  | GetQuery r => nonempty r WithQuery
  | GetResourceTypes r => WithResourceType <$> r
  | GetDiscovery _ | GetLinkNotFound _ | GetCodec _ => []
  end.
Definition get_codec (o : @GetOption C) : option C := match o with GetCodec c => Some c | _ => None end.
Definition get_callback (o : @GetOption C) : option LinkNotFoundCallback :=
  match o with GetLinkNotFound cb => Some cb | _ => None end.
Definition get_queries (o : @GetOption C) : list string :=
  match o with
  | GetInterface r => if bool_decide (r = "") then [] else ["if=" +:+ r]
  | GetQuery r => if bool_decide (r = "") then [] else [r]
  | GetResourceTypes r => (fun t => "rt=" +:+ t) <$> r
  | _ => []
  end.
Definition get_etag (o : @GetOption C) : option string := match o with GetETag r => r | _ => None end.

Lemma go_append_app l1 l2 (o : getOptions C) : go_append l2 (go_append l1 o) = go_append (l1 ++ l2) o.
Proof. unfold go_append. cbn. by rewrite app_assoc. Qed.
Lemma go_append_nil (o : getOptions C) : go_append [] o = o.
Proof. destruct o. unfold go_append. cbn. by rewrite app_nil_r. Qed.
Lemma resource_types_append ts (o : getOptions C) :
  foldl (fun opts r => go_append [WithResourceType r] opts) o ts = go_append (WithResourceType <$> ts) o.
Proof.
  revert o. induction ts as [|t ts IH]; intros o; cbn [foldl]; [by rewrite go_append_nil|].
  by rewrite IH, go_append_app.
Qed.

(** The last of the values that are given, or the default. *)
Definition last_or {A} (d : A) (l : list A) : A := default d (last l).
Lemma last_or_cons {A} (d x : A) l : last_or d (x :: l) = last_or x l.
Proof. unfold last_or. rewrite last_cons. by destruct (last l). Qed.

Lemma resolve_get os (cfg : getOptions C) :
  go_opts (resolve applyOnGet cfg os) = go_opts cfg ++ concat (get_funcs <$> os) ∧
  go_codec (resolve applyOnGet cfg os) = last_or (go_codec cfg) (omap get_codec os) ∧
  go_linkNotFoundCallback (resolve applyOnGet cfg os) =
    last_or (go_linkNotFoundCallback cfg) (omap get_callback os).
Proof.
  revert cfg. induction os as [|o os IH]; intros cfg; [by rewrite app_nil_r|].
  change (resolve applyOnGet cfg (o :: os)) with (resolve applyOnGet (applyOnGet o cfg) os).
  destruct (IH (applyOnGet o cfg)) as (-> & -> & ->). clear IH.
  assert (H : applyOnGet o cfg = go_append (get_funcs o) (applyOnGet o cfg) ∧ go_opts (applyOnGet o cfg) = go_opts cfg ∨
              applyOnGet o cfg = go_append (get_funcs o) cfg).
  { destruct o as [[e|]|r|r|d|cb|ts|c]; cbn; unfold ResourceTypesOption_applyOnGet; rewrite ?go_append_nil, ?resource_types_append; auto. }
  assert (Ho : go_opts (applyOnGet o cfg) = go_opts cfg ++ get_funcs o).
  { destruct H as [[H E]| ->]; [|done]. rewrite E. apply (f_equal go_opts) in H. cbn in H. rewrite E in H.
    rewrite <- H at 1. done. }
  split; [by rewrite Ho, <- app_assoc|].
  destruct o as [[e|]|r|r|d|cb|ts|c]; cbn [omap list_omap get_codec get_callback applyOnGet];
    unfold ResourceTypesOption_applyOnGet; rewrite ?last_or_cons, ?resource_types_append; done.
Qed.

(** The effect of options on a message. *)
Lemma get_funcs_one (o : @GetOption C) m :
  let m' := foldl (fun m o => o m) m (get_funcs o) in
  default [] (m_queries m') = default [] (m_queries m) ++ get_queries o ∧
  m_etag m' = match get_etag o with Some e => Some e | None => m_etag m end ∧
  m_body m' = m_body m ∧ m_observe m' = m_observe m.
Proof.
  destruct o as [[e|]|r|r|d|cb|ts|c]; cbn [get_funcs get_queries get_etag]; try (cbn; by rewrite app_nil_r).
  1,2: unfold nonempty; repeat case_bool_decide; try done; cbn; rewrite ?app_nil_r; by split_and!.
  revert m. induction ts as [|t ts IHt]; intros m; [cbn; by rewrite app_nil_r|].
  destruct (IHt (WithResourceType t m)) as (Hq & He & Hb & Ho). cbn [fmap list_fmap foldl] in *.
  rewrite Hq, He, Hb, Ho. cbn. by rewrite <- app_assoc.
Qed.
Lemma get_funcs_effect os m :
  let m' := foldl (fun m o => o m) m (concat (get_funcs <$> os)) in
  default [] (m_queries m') = default [] (m_queries m) ++ concat (get_queries <$> os) ∧
  m_etag m' = last_or (m_etag m) (Some <$> omap get_etag os) ∧
  m_body m' = m_body m ∧ m_observe m' = m_observe m.
Proof.
  revert m. induction os as [|o os IH]; intros m; [cbn; by rewrite app_nil_r|].
  rewrite !fmap_cons. cbn [concat]. rewrite foldl_app.
  destruct (get_funcs_one o m) as (Hq & He & Hb & Hobs).
  destruct (IH (foldl (fun m o => o m) m (get_funcs o))) as (IHq & IHe & IHb & IHo). cbv zeta.
  rewrite IHq, IHe, IHb, IHo.
  rewrite Hq, He, Hb, Hobs, <- app_assoc. split; [done|]. split; [|done].
  cbn [omap list_omap]. destruct (get_etag o); [|done]. by rewrite fmap_cons, last_or_cons.
Qed.
End Options.

(** ** Commands with options *)

Section Commands.
Context `{HKit : Kit} `{HCache : GoCache} `{HDE : !DevicesEnv}.
Context `{HCacheL : !GoCacheLaws} `{HQuiet : !QuietCache}.
Context `{HCore : CoreEnv} `{HReq : !RequestEnv} `{HTables : !QuietTables}.
Context `{HCred : CredEnv} `{HPem : !PemOut} `{HUuid : Uuids}.
Context `{HCborQ : Cbor MaintenanceUpdateRequest} `{HCborM : Cbor Maintenance}
  `{HIntoQ : !CborInto MaintenanceUpdateRequest} `{HIntoM : !CborInto Maintenance}.
Context (status_Error : Message → error → error).
Context (deviceExpiration : Z) (disableUDPEndpoints useDeviceIDInQuery : bool) (fuel : nat).

(** [GetResource] asks the right device for the right resource with the options of the call:
    the device has the ID of the call, the link is one of that device and has the address of
    the call; the queries of the request are those of the options in their order, and the
    device ID where the client is configured so; it accepts the format of the codec given
    last and carries the entity tag given last.  The outcome and the value in the response
    are those of this GET on a connection to an endpoint of the link, unless none could be
    connected, when the response is left alone. *)
Theorem Client_GetResource_spec {A} `{HCborA : Cbor A} `{HIntoA : CborInto A} id href (response : Target A) os w r v w' :
  id ≠ ANY_DEVICE → id ≠ "" → SdkInv w → omap get_callback os = [] →
  Client_GetResource status_Error deviceExpiration disableUDPEndpoints useDeviceIDInQuery fuel
    id href response os w = (Ok (r, v), w') →
  let codec := last_or (VNDOCFCBORCodec A) (omap get_codec os) in
  ∃ p link options, let m := apply_options options in
    fd_deviceID (device_at p (dv_cache (sd_dv w'))) = id ∧ GetDeviceID link = id ∧ Href link = href ∧
    default [] (m_queries m) =
      concat (get_queries <$> os) ++ (if useDeviceIDInQuery then ["di=" +:+ id] else []) ∧
    m_accept m = Some (codec_ContentFormat codec) ∧ m_etag m = last (omap get_etag os) ∧ m_body m = None ∧
    ((∃ err, r = Err (ErrWrap ("cannot get resource " +:+ href) err) ∧ v = response) ∨
     ∃ d, sd_core w' !! p = Some d ∧
       asked link d (fun cc => ClientCoap.GetResourceWithCodec (HConn := conn_at cc) status_Error href codec response
                                 options) r v).
Proof.
  intros Hany Hne HI Hcb E codec. unfold Client_GetResource in E.
  destruct (resolve_get os (default_options (VNDOCFCBORCodec A) [])) as (Ho & Hc & Hl).
  rewrite Hcb in Hl. cbn in Hl. rewrite Ho, Hc, Hl in E. cbn [go_opts default_options app go_codec] in E.
  apply GetResource_asks in E as (p & link & Hid & Hlink & Hh & Hres); [|done..].
  match type of Hres with context [ClientCoap.GetResourceWithCodec _ _ _ _ ?l] => set (options := l) in Hres end.
  exists p, link, options.
  assert (Hm : default [] (m_queries (apply_options options)) =
      concat (get_queries <$> os) ++ (if useDeviceIDInQuery then ["di=" +:+ id] else []) ∧
    m_accept (apply_options options) = Some (codec_ContentFormat codec) ∧
    m_etag (apply_options options) = last (omap get_etag os) ∧ m_body (apply_options options) = None).
  { subst options. unfold apply_options, with_device_id. destruct (get_funcs_effect os NewMessage) as (Hq & He & Hb & _).
    assert (Hlast : last (omap get_etag os) = last_or None (Some <$> omap get_etag os)).
    { unfold last_or. rewrite fmap_last. by destruct (last (omap get_etag os)). }
    rewrite Hlast. destruct useDeviceIDInQuery; rewrite ?foldl_app.
    - exact (conj (f_equal (fun l => l ++ ["di=" +:+ id]) Hq) (conj eq_refl (conj He Hb))).
    - rewrite app_nil_r. exact (conj Hq (conj eq_refl (conj He Hb))). }
  destruct Hm as (Hq & Ha & He & Hb). cbv zeta. by split_and!.
Qed.
End Commands.

(** ** Owners *)

(** Signing with an identity signer of [pkg/security/signer]. *)
Section Identity.
Context `{HCore : CoreEnv} `{HCred : CredEnv} `{HPem : !PemOut} `{HLib : !CertLib} `{HOwn : !OwnerLib}.
Context `{HCreate : !CertCreate} `{HUuid : Uuids}.
Context `{HCredL : !CredEnvLaws} `{HPemL : !PemLaws} `{HCertL : !CertLaws}.
Definition sign_with (s : Signer) : SignFunc := fun csr => on_gen (identity_Sign s csr).
(** The [CreateSignerFunc] of an application that uses this signer. *)
Definition identity_signer : CreateSignerFunc := fun caCert caKey nb na crl =>
  match caKey with
  | None => Err (ErrText "no key")
  | Some k => s ← NewOCFIdentityCertificate caCert k nb na crl; Ok (sign_with s)
  end.

(** A key pair made from a chain holds its certificates, in order, and a private key;
    [x509.ParseCertificate] agrees with [x509.ParseCertificates] on a single certificate. *)
Class TlsLaws (parse : string → result Certificate) := {
  tls_X509KeyPair_chain : ∀ cas der key t,
    tls_X509KeyPair (CreatePemChain cas der) key = Ok t →
    is_Some (tls_PrivateKey t) ∧ tls_Certificate t = der :: (cert_Raw <$> cas);
  x509_ParseCertificate_one : ∀ der c, x509_ParseCertificates der = Ok [c] → parse der = Ok (cert_fields c) }.
Context (parse : string → result Certificate) `{HTls : !TlsLaws parse}.

Lemma run_wrap_Ok {S A} f (m : ME S A) s a s' : wrap_err f m s = (Ok a, s') → m s = (Ok a, s').
Proof. unfold wrap_err. by destruct (m s) as [[?|?] ?]; intros [= -> ->]. Qed.
Lemma run_on_gen_Ok {A} (m : ME GenEnv A) e a e' : on_gen m e = (Ok a, e') → ∃ g, m (gen_get e) = (Ok a, g).
Proof. unfold on_gen. destruct (m (gen_get e)) as [r g]. intros [= -> _]. by exists g. Qed.

(** The certificate that an owner generates carries its ID. *)
Lemma GenerateSDKIdentityCertificate_spec s (sdkID id : string) e t ca e' :
  contains_char ":" sdkID = false → uuid_Parse sdkID = Ok id →
  GenerateSDKIdentityCertificate (sign_with s) sdkID e = (Ok (t, ca), e') →
  is_Some (tls_PrivateKey t) ∧ sdk_owner_loop parse (tls_Certificate t) None = Ok id ∧
  ∃ leaf, ca = [default leaf (last (s_caCert s))].
Proof.
  intros Hid Hu H. unfold GenerateSDKIdentityCertificate in H.
  apply run_bind_Ok in H as (priv & e1 & _ & H). apply run_bind_Ok in H as (csr & e2 & Hcsr & H).
  apply run_wrap_Ok, run_on_gen_Ok in Hcsr as [g Hcsr].
  apply GenerateIdentityCSR_spec in Hcsr as (r & Hr & HCN & _).
  unfold generateSDKCertificate in H. apply run_bind_Ok in H as (cert & e3 & Hs & H).
  apply run_wrap_Ok, run_on_gen_Ok in Hs as [g' Hs].
  apply identity_Sign_spec in Hs as (r' & leafDer & leaf & w & Hr' & _ & -> & Hp & Hf & _). apply Hr in Hr'. subst r'.
  apply run_bind_Ok in H as (der & e4 & _ & H). apply run_bind_Ok in H as (tc & e5 & Ht & H).
  apply run_bind_Ok in H as (cs & e6 & Hc & H). apply run_wrap_Ok in Ht. apply run_wrap_Ok in Hc.
  unfold lift in Ht, Hc. injection Ht as Ht _. injection Hc as Hc _.
  rewrite (pem_chain_parses _ _ _ Hp) in Hc. injection Hc as <-. destruct (tls_X509KeyPair_chain _ _ _ _ Ht) as [Hk Hchain].
  rewrite last_cons in H. assert (t = tc ∧ ca = [default leaf (last (s_caCert s))]) as [-> ->].
  { by destruct (last (s_caCert s)); injection H as <- <-. }
  split; [done|]. split; [|by exists leaf].
  rewrite Hchain. cbn [sdk_owner_loop]. rewrite (x509_ParseCertificate_one _ leaf Hp), Hf, HCN. fold (identity_fields sdkID).
  by rewrite (proj2 (identity_fields_valid sdkID id Hid Hu)).
Qed.

(** A new owner has no identity, and the configured one once it is initialised. *)
Lemma sdk_owner_identity app cfg (id : string) o authorization o' e e1 e2 e3 :
  newDeviceOwnershipSDKFromConfig app cfg e = (Ok o, e1) → oc_CreateSignerFunc cfg = Some identity_signer →
  uuid_Parse (oc_ID cfg) = Ok id → uuid_Parse id = Ok id → contains_char ":" id = false →
  owner_Initialization authorization o e2 = (Ok (None, o'), e3) →
  is_ok (sdk_owner_id parse o) = false ∧ sdk_owner_id parse o' = Ok id ∧
  is_ok (owner_GetIdentityCACerts o') = true.
Proof.
  intros Hnew Hcreate Hid Hcanon Hcolon Hinit. unfold newDeviceOwnershipSDKFromConfig in Hnew.
  apply run_bind_Ok in Hnew as (exp & e4 & _ & H). apply run_bind_Ok in H as (signerCert & e5 & _ & H).
  apply run_bind_Ok in H as (uid & e6 & Hu & H). apply run_wrap_Ok in Hu. unfold lift in Hu.
  injection Hu as Hu _. rewrite Hid in Hu. injection Hu as <-. unfold newDeviceOwnershipSDK in H.
  apply run_bind_Ok in H as (t & e7 & _ & H). destruct (ParseCertificates _) as [cas|]; [|done].
  injection H as <- _. split; [done|]. cbn [owner_Initialization sdk_DeviceOwner] in Hinit.
  unfold sdk_Initialization in Hinit. cbn [sdk_createIdentitySigner sdk_sdkDeviceID] in Hinit. rewrite Hcreate in Hinit.
  apply run_bind_Ok in Hinit as (r & e8 & Hs & H).
  destruct r as [sign|err]; [|done]. unfold catch in Hs.
  destruct (createIdentitySigner _ _ _ _ _ _ e2) as [[sign'|err] e9] eqn:Ec; [|done]. injection Hs as -> _.
  unfold createIdentitySigner in Ec. apply run_bind_Ok in Ec as (nb & e10 & _ & Ec).
  injection Ec as Ec _. unfold identity_signer in Ec. destruct (tls_PrivateKey signerCert) as [k|]; [|done].
  apply bind_Ok_inv in Ec as (s & _ & Ec). injection Ec as <-.
  apply run_bind_Ok in H as (r & e11 & Hg & H). unfold catch in Hg.
  destruct (GenerateSDKIdentityCertificate (sign_with s) id e8) as [[[t' ca]|err] e12] eqn:Eg; [|by injection Hg as <- _].
  injection Hg as <- _. injection H as <- _.
  destruct (GenerateSDKIdentityCertificate_spec s id id _ t' ca _ Hcolon Hcanon Eg) as ([k' Hk] & Hloop & _).
  split; [|done]. unfold sdk_owner_id. cbn. unfold identity_certificate. rewrite Hk. cbn.
  unfold GetSdkOwnerID, getSdkOwnerID. by rewrite Hloop.
Qed.

(** The life of an owner with a signer in the configuration: until it is initialised no
    owner ID can be read from it, so that nothing can be owned; after a successful
    initialisation the devices of the client read exactly the configured ID from its
    certificate, and it has a certificate authority. *)
Theorem Initialization_identity app cfg (id : string) o authorization o' e e1 e2 e3 :
  newDeviceOwnershipSDKFromConfig app cfg e = (Ok o, e1) → oc_CreateSignerFunc cfg = Some identity_signer →
  uuid_Parse (oc_ID cfg) = Ok id → uuid_Parse id = Ok id → contains_char ":" id = false →
  owner_Initialization authorization o e2 = (Ok (None, o'), e3) →
  is_ok (sdk_owner_id parse o) = false ∧ sdk_owner_id parse o' = Ok id ∧
  is_ok (owner_GetIdentityCACerts o') = true.
Proof. apply sdk_owner_identity. Qed.

(** *** The backend *)

(** The header of a call gives a token exactly when it is the word bearer, in any case, one
    space and the token; everything after that space belongs to the token. *)
Theorem TokenFromOutgoingMD_spec authorization token :
  TokenFromOutgoingMD authorization = Ok token ↔
  ∃ scheme, authorization = scheme +:+ " " +:+ token ∧ to_lower scheme = "bearer".
Proof.
  unfold TokenFromOutgoingMD. case_bool_decide as He.
  { subst. split; [done|]. intros (s&E&_). destruct s; discriminate E. }
  split.
  - intros E. destruct (split_n2 authorization " ") as [|scheme [|t [|? ?]]] eqn:Es; try done.
    apply split_n2_spec in Es as [_ Es]. case_bool_decide as Hs; [|done]. injection E as ->.
    exists scheme. split; [exact Es|exact Hs].
  - intros (scheme&E&Hs). assert (Hspace : contains_char " " scheme = false).
    { assert (contains_char " " (to_lower scheme) = false) as H by by rewrite Hs.
      clear -H. induction scheme as [|c s IH]; [done|]. cbn in H |- *. apply orb_false_iff in H as [H1 H2].
      rewrite IH by done. rewrite orb_false_r. apply bool_decide_eq_false. intros <-. done. }
    rewrite (proj2 (split_n2_spec " " authorization scheme token)) by done. by rewrite bool_decide_eq_true_2.
Qed.
End Identity.

(** ** Owning through the client *)

Section OwnDevice.
Context `{HKit : Kit} `{HCache : GoCache} `{HCacheL : !GoCacheLaws} `{HDE : !DevicesEnv}.
Context `{HCore : CoreEnv} `{HReq : !RequestEnv}.
Context `{HCred : CredEnv} `{HPem : !PemOut} `{HUuid : Uuids} `{HLib : !CertLib} `{HOwn : !OwnerLib}.
Context {O : Type} `{HOwner : !DeviceOwner O}.
Context (deviceExpiration : Z) (disableUDPEndpoints : bool) (fuel : nat).
Context (parse : string → result Certificate) (rand : CEnv → result string * CEnv).
Abbreviation SM := (ME SdkWorld).

Lemma harmless_bind {A B} (m : SM A) (k : A → SM B) : harmless m → (∀ a, harmless (k a)) → harmless (m ≫= k).
Proof.
  intros Hm Hk w. specialize (Hm w). unfold mbind, ME_bind. destruct (m w) as [[a|e] w1]; [|exact Hm].
  eapply no_update_trans; [exact Hm|apply Hk].
Qed.
Lemma harmless_ret {A} (a : A) : harmless (mret a).
Proof. intros w. by apply no_update_refl. Qed.
Lemma harmless_found p : harmless (found p).
Proof. intros w. by apply no_update_refl. Qed.
Lemma harmless_env {A} (m : ME CEnv A) : harmless (sm_env m).
Proof. intros w. apply no_update_refl. unfold sm_env. by destruct (m (sd_env w)). Qed.
#[local] Hint Resolve harmless_dm harmless_ret harmless_env harmless_found : core.

Lemma Own_without_ID cfg err links otms :
  only is_reading (Own rand cfg (Err err) links otms) ∧ ∀ w, is_ok (Own rand cfg (Err err) links otms w).1 = false.
Proof.
  unfold Own. split.
  - apply only_bind; [apply only_wrap, only_GetOwnership|intros ownership].
    by apply adds_silent.
  - intros w. unfold mbind, ME_bind, wrap_err, lift. by destruct (GetOwnership links w) as [[d|e] w'].
Qed.

(** A client whose owner is not initialised, or has no identity at all, never takes or
    changes a device: [OwnDevice] sends no update whatever the device is and however the
    search ends; and it succeeds only for a device that is not secured, which it leaves as
    it is. *)
Theorem OwnDevice_without_identity o err deviceID opts w :
  owner_GetIdentityCertificate o = Err err →
  let '(r, w') := Client_OwnDevice deviceExpiration disableUDPEndpoints fuel parse rand o deviceID opts w in
  (∃ l, sd_trace w' = sd_trace w ++ l ∧ updates l = []) ∧
  (is_ok r = true → ∃ p, IsSecured (device_at p (dv_cache (sd_dv w'))) = false).
Proof.
  intros Hid. assert (HID : ∃ e, sdk_owner_id parse o = Err e).
  { unfold sdk_owner_id. rewrite Hid. by eexists. }
  destruct HID as [e He].
  set (m := Client_OwnDevice _ _ _ _ _ _ _ _).
  assert (Hm : harmless m).
  { subst m. unfold Client_OwnDevice. apply harmless_bind; [auto|intros [p links]].
    apply harmless_bind; [auto|intros f]. destruct (negb _); [auto|].
    apply harmless_bind; [auto|intros own]. rewrite He. unfold ownDeviceWithSigners.
    apply harmless_bind; [auto|intros [q links']]. apply harmless_bind; [auto|intros f'].
    destruct (negb _); [auto|].
    apply harmless_bind; [destruct disableUDPEndpoints; [apply harmless_bind; auto|auto]|intros links2].
    apply harmless_bind; [apply harmless_core, only_link, Own_without_ID|intros []]. apply harmless_bind; [auto|intros t].
    apply harmless_bind; [auto|intros []]. apply harmless_bind; [auto|auto]. }
  specialize (Hm w). destruct (m w) as [r w'] eqn:E. split; [exact Hm|]. destruct r as [id|]; [intros _|done].
  subst m. unfold Client_OwnDevice in E. apply run_bind_Ok in E as ([p links] & w1 & _ & E).
  apply run_bind_Ok in E as (f & w2 & Ef & E). unfold fst in Ef. rewrite found_run in Ef. injection Ef as <- <-.
  destruct (IsSecured (device_at p _)) eqn:Es; [|injection E as _ <-; by exists p]. cbn [negb] in E.
  apply run_bind_Ok in E as (own & w3 & _ & E). rewrite He in E. unfold ownDeviceWithSigners in E.
  apply run_bind_Ok in E as ([q links'] & w4 & _ & E). apply run_bind_Ok in E as (f & w5 & Ef & E).
  rewrite found_run in Ef. injection Ef as <- <-.
  destruct (IsSecured (device_at q _)) eqn:Es'; [|injection E as _ <-; by exists q]. cbn [negb] in E.
  apply run_bind_Ok in E as (links2 & w6 & _ & E). apply run_bind_Ok in E as ([] & w7 & Eo & _).
  unfold on_core, run_core in Eo. pose proof (proj2 (Own_without_ID (own_cfg own.2) e links2 own.1)
    {| cw_d := core_at q w6; cw_env := sd_env w6; cw_trace := sd_trace w6 |}) as Hf.
  destruct (Own _ _ _ _ _ _) as [r c]. injection Eo as -> _. done.
Qed.
End OwnDevice.

(** ** A client from a configuration *)

Section FromConfig.
Context `{HCore : CoreEnv} `{HCred : CredEnv} `{HPem : !PemOut} `{HLib : !CertLib} `{HOwn : !OwnerLib}.
Context `{HUuid : Uuids}.
Context {Logger : Type} (defaultLogger nilLogger : Logger).

(** The fields have the types of the code. *)
Definition config_ok (cfg : ClientConfig.Config) : Prop :=
  0 <= DeviceCacheExpirationSeconds cfg < 2 ^ 64 ∧ 0 <= ObserverPollingIntervalSeconds cfg < 2 ^ 64 ∧
  0 <= KeepAliveConnectionTimeoutSeconds cfg < 2 ^ 64 ∧ 0 <= DefaultTransferDurationSeconds cfg < 2 ^ 64 ∧
  0 <= ObserverFailureThreshold cfg < 2 ^ 8 ∧ 0 <= MaxMessageSize cfg < 2 ^ 32.
Definition seconds_or (seconds def : Z) : Z := (if seconds =? 0 then def else seconds) * time_Second.

Lemma toDuration_Ok seconds def d field :
  0 <= seconds < 2 ^ 64 → 0 <= def → invalid field (toDuration seconds (time_Second * def)) = Ok d →
  d = seconds_or seconds def ∧ (def * time_Second < 2 ^ 63 → d < 2 ^ 63) ∧ (0 < def → 0 < d) ∧ 0 <= d.
Proof.
  intros Hs Hd E. unfold seconds_or. unfold toDuration in E. change (u64 time_Second) with time_Second in E.
  destruct (Z.eqb_spec seconds 0) as [->|Hne]; [injection E as <-; change time_Second with 1000000000; lia|].
  rewrite Z.gtb_ltb in E. destruct (Z.ltb_spec maxDurationSeconds seconds) as [|Hle]; [done|].
  change maxDurationSeconds with 9223372036 in Hle. change time_Second with 1000000000 in *.
  unfold u64 in E. rewrite wrap_small in E by lia. rewrite i64_small in E by lia. injection E as <-. lia.
Qed.

(** The settings of a client that was made from a configuration: the durations are those of
    the configuration, with 3, 60 and 15 seconds for a zero of the observer, the keep-alive
    and the transfer; the polling of the cache takes at least ten seconds, and half of the
    expiration; the observer polls after a positive time and has a threshold from 1 to 255;
    every connection is made with the same options; and the certificates are those of the
    owner that the configuration chose. *)
Theorem NewClientFromConfig_spec cfg app logger e client owner e' :
  config_ok cfg →
  NewClientFromConfig defaultLogger nilLogger cfg app logger e = (Ok (client, owner), e') →
  let core := nc_core client in
  let opts := dial_options cfg (seconds_or (KeepAliveConnectionTimeoutSeconds cfg) 60)
                (seconds_or (DefaultTransferDurationSeconds cfg) 15) in
  nc_cacheExpiration client = DeviceCacheExpirationSeconds cfg * time_Second ∧ nc_cacheExpiration client < 2 ^ 63 ∧
  nc_pollInterval client = Z.max (10 * time_Second) (nc_cacheExpiration client / 2) ∧
  0 < PollingInterval (nc_observerConfig client) < 2 ^ 63 ∧ 1 <= FailureThreshold (nc_observerConfig client) <= 255 ∧
  core_dialTCP core = Some (ClientConfig.DialTCP opts.1) ∧ core_dialTLS core = Some (DialTCPSecure opts.1) ∧
  core_dialUDP core = Some (ClientConfig.DialUDP opts.2) ∧ core_dialDTLS core = Some (DialUDPSecure opts.2) ∧
  core_tlsConfig core = {| tc_GetCertificate := Some (owner_GetIdentityCertificate owner);
                           tc_GetCertificateAuthorities := Some (owner_GetIdentityCACerts owner) |} ∧
  (nc_disableUDPEndpoints client = false ∧ nc_useDeviceIDInQuery client = cfg_UseDeviceIDInQuery cfg).
Proof.
  intros (Hc & Ho & Hk & Ht & Hf & _) E. unfold NewClientFromConfig, lift in E.
  apply run_bind_Ok in E as (opts & e1 & Hopts & E). apply run_bind_Ok in E as (own & e2 & _ & E).
  apply run_bind_Ok in E as (cl & e3 & Hcl & E). injection E as -> -> _. injection Hopts as Hopts _.
  unfold client_options in Hopts.
  apply bind_Ok_inv in Hopts as (exp & Hexp & Hopts). apply bind_Ok_inv in Hopts as (poll & Hpoll & Hopts).
  apply bind_Ok_inv in Hopts as (ka & Hka & Hopts). apply bind_Ok_inv in Hopts as (tr & Htr & Hopts).
  apply (toDuration_Ok _ 0) in Hexp as (He & Hexp & _ & He0); [|done..]. apply (toDuration_Ok _ 3) in Hpoll as (Hp & Hpoll & Hp0 & _); [|done..].
  apply (toDuration_Ok _ 60) in Hka as (-> & _); [|done..]. apply (toDuration_Ok _ 15) in Htr as (-> & _); [|done..].
  destruct (dial_options cfg _ _) as [tcp udp]. injection Hopts as <-. injection Hcl as <- _.
  specialize (Hexp eq_refl). specialize (Hpoll eq_refl). specialize (Hp0 eq_refl).
  unfold seconds_or in He. destruct (Z.eqb_spec (DeviceCacheExpirationSeconds cfg) 0) as [Hz|_].
  all: cbn; rewrite (proj2 (Z.leb_gt poll 0)) by lia.
  all: assert (He' : exp = DeviceCacheExpirationSeconds cfg * time_Second) by (rewrite ?Hz; exact He).
  all: rewrite Z.quot_div_nonneg, Z.gtb_ltb by lia.
  all: split; [done|]; split; [done|]; split;
    [destruct (Z.ltb_spec (10 * time_Second) (exp / 2)); lia|]; split; [done|]; split; [|done].
  all: destruct (Z.leb_spec (ObserverFailureThreshold cfg) 0); lia.
Qed.
End FromConfig.

(** ** The arguments of a transfer, and shared observations *)

Section Arguments.
Context `{HCore : CoreEnv} `{HCred : CredEnv} `{HPem : !PemOut} `{HLib : !CertLib} `{HOwn : !OwnerLib}.
Context `{HUuid : Uuids}.

Definition own_psk (o : OwnOption) : option string := match o with presharedKeyOption k => Some k | _ => None end.
Definition own_during (o : OwnOption) : option (option ActionDuring) :=
  match o with actionDuringOwnOption f => Some f | _ => None end.
Definition own_after (o : OwnOption) : option (option (nat → CEnv → result unit * CEnv)) :=
  match o with actionAfterOwnOption f => Some f | _ => None end.
Definition own_otms (o : OwnOption) : option (list OTMType) := match o with otmOption ts => Some ts | _ => None end.
Definition otm_method (t : OTMType) : Z := if t =? OTMType_Manufacturer then ManufacturerCertificate else JustWorks.

Lemma own_cfg_snoc s l c : own_cfg (s :: l ++ [c]) = c (own_cfg (s :: l)).
Proof. unfold own_cfg. change (s :: l ++ [c]) with ((s :: l) ++ [c]). by rewrite foldl_app. Qed.
Lemma resolve_own os cfg s :
  let cfg' := resolve applyOnOwn cfg os in
  ow_otmTypes cfg' = last_or (ow_otmTypes cfg) (omap own_otms os) ∧
  let c := own_cfg (WithSetupCertificates s :: ow_opts cfg) in
  own_cfg (WithSetupCertificates s :: ow_opts cfg') =
    {| psk := last_or (psk c) (omap own_psk os); sign := sign c;
       actionDuringOwn := last_or (actionDuringOwn c) (omap own_during os);
       actionAfterOwn := last_or (actionAfterOwn c) (omap own_after os) |}.
Proof.
  revert cfg. induction os as [|o os IH]; intros cfg; [change (resolve applyOnOwn cfg []) with cfg; cbv zeta;
    by destruct (own_cfg (WithSetupCertificates s :: ow_opts cfg))|].
  change (resolve applyOnOwn cfg (o :: os)) with (resolve applyOnOwn (applyOnOwn o cfg) os).
  destruct (IH (applyOnOwn o cfg)) as [H1 H2]. cbv zeta in *. rewrite H1, H2.
  destruct o; cbn [applyOnOwn presharedKeyOption_applyOnOwn actionDuringOwnOption_applyOnOwn
    actionAfterOwnOption_applyOnOwn otmOption_applyOnOwn DiscoveryConfigurationOption_applyOnOwn ow_append ow_opts ow_otmTypes omap list_omap own_psk own_during own_after own_otms];
    rewrite ?last_or_cons, ?own_cfg_snoc; done.
Qed.
Lemma getOtmClients_Ok app types acc e clients e' :
  getOtmClients_loop app types acc e = (Ok clients, e') → clients = acc ++ (otm_method <$> types).
Proof.
  revert acc e. induction types as [|t types IH]; intros acc e; cbn [getOtmClients_loop].
  { intros [= <- _]. by rewrite app_nil_r. }
  rewrite fmap_cons. unfold otm_method at 1. change (t =? OTMType_Manufacturer) with (t =? 0).
  destruct (t =? 0).
  - intros (otm & e1 & Ho & H)%run_bind_Ok. apply IH in H. rewrite H, <- app_assoc. unfold getOTMManufacturer in Ho.
    apply run_bind_Ok in Ho as (? & ? & _ & Ho). apply run_bind_Ok in Ho as (? & ? & _ & Ho). by injection Ho as <- _.
  - destruct (t =? OTMType_JustWorks); [|done]. intros H. apply IH in H. by rewrite H, <- app_assoc.
Qed.

(** What a transfer is started with: the methods of the last method option in its order, or
    JustWorks; the pre-shared key, and the actions during and after the transfer, of the last
    option that gives them; and the signer of the owner, which no option replaces. *)
Theorem own_arguments o os e clients opts e' :
  let cfg := resolve applyOnOwn
    {| ow_opts := []; ow_otmTypes := [OTMType_JustWorks];
       ow_discoveryConfiguration := DefaultDiscoveryConfiguration |} os in
  sdk_OwnDevice o (ow_otmTypes cfg) (ow_opts cfg) e = (Ok (clients, opts), e') →
  clients = otm_method <$> last_or [OTMType_JustWorks] (omap own_otms os) ∧
  ∃ signer, (sdk_createIdentitySigner o e).1 = Ok signer ∧
    own_cfg opts =
      {| psk := last_or "" (omap own_psk os); sign := Some signer;
         actionDuringOwn := last_or (Some SetDoxmDeviceID) (omap own_during os);
         actionAfterOwn := last_or None (omap own_after os) |}.
Proof.
  intros cfg E. unfold sdk_OwnDevice in E. apply run_bind_Ok in E as (signer & e1 & Hs & E).
  apply run_bind_Ok in E as (cl & e2 & Hcl & E). injection E as -> <- _.
  apply getOtmClients_Ok in Hcl. destruct (resolve_own os {| ow_opts := []; ow_otmTypes := [OTMType_JustWorks];
    ow_discoveryConfiguration := DefaultDiscoveryConfiguration |} (Some signer)) as [H1 H2].
  split; [rewrite Hcl; exact (f_equal _ H1)|]. exists signer. split; [by rewrite Hs|exact H2].
Qed.

(** The key of a shared observation depends on the interface only: an observation with a
    query joins one of the same resource without it, or with another. *)
Lemma observe_key_ignores_queries {C} (codec : C) id href os q :
  observe_key id href (observe_cfg codec (os ++ [ObserveQuery q])) = observe_key id href (observe_cfg codec os).
Proof. unfold observe_key, observe_cfg, resolve. by rewrite foldl_app. Qed.
End Arguments.
