(* ===== verification/ClientToolProps.v ===== *)
(** * ClientToolProps: what the command line client does with its files

    No file is changed but the ten that the program generates, and a pair of a certificate
    and its key that is complete is never touched; what is generated reads back, with the
    key of the certificate; the identity of the client is the one of the options; and two
    things that never work: the identity certificate of the configuration without a
    validity, and the trusted certificate of a run that generates it. *)

From S2P Require Import ClientTool ClientApiProps.

(** ** The names of the files *)

Definition tool_pairs : list (string * string) :=
  [("mfg_rootca.crt", "mfg_rootca.key"); ("mfg_cert.crt", "mfg_cert.key"); ("rootca_cert.crt", "rootca_cert.key");
   ("subca_cert.crt", "subca_cert.key"); ("end_cert.crt", "end_cert.key")].
Definition tool_files : list string := tool_pairs.*1 ++ tool_pairs.*2.

Section Props.
Context `{HCore : CoreEnv} `{HCred : CredEnv} `{HPem : !PemOut} `{HLib : !CertLib} `{HCreate : !CertCreate}.
Context `{HOwn : !OwnerLib} `{HKey : !KeyLib} `{HUuid : Uuids}.

(** ** What an operation leaves alone *)

Definition node (p : string) (w : World) : option FileNode := fs_nodes (w_fs w) !! p.
(** An invariant of the files only. *)
Definition of_fs (I : FileSystem → Prop) (w : World) : Prop := I (w_fs w).

Lemma keeps_in_fs {A} (I : FileSystem → Prop) (m : ME FileSystem A) :
  keeps I m → keeps (of_fs I) (in_fs m).
Proof. intros Hm w Hw. specialize (Hm (w_fs w) Hw). unfold in_fs. by destruct (m (w_fs w)). Qed.
Lemma keeps_in_gen {A} (I : FileSystem → Prop) (m : ME GenEnv A) : keeps (of_fs I) (in_gen m).
Proof. intros w Hw. unfold in_gen. by destruct (on_gen m (w_env w)). Qed.
Lemma keeps_read_fs {A} (I : World → Prop) (f : FileSystem → result A) : keeps I (read_fs f).
Proof. by intros w Hw. Qed.
Lemma keeps_set_var I x v : keeps (of_fs I) (set_var x v).
Proof. by intros w Hw. Qed.
Lemma keeps_print I l : keeps (of_fs I) (print l).
Proof. by intros w Hw. Qed.
#[local] Hint Resolve keeps_in_gen keeps_read_fs keeps_set_var keeps_print : keeps.

Lemma keeps_load I what p x : keeps (of_fs I) (load what p x).
Proof. unfold load. keeps_tac. Qed.
Lemma keeps_if_given I p m : keeps I m → keeps I (if_given p m).
Proof. unfold if_given. keeps_tac. Qed.
Lemma keeps_if_missing I p q m : keeps I m → keeps I (if_missing p q m).
Proof. unfold if_missing. keeps_tac. Qed.
Lemma keeps_fileExists I p : keeps I (fileExists p).
Proof. apply keeps_read_fs. Qed.
#[local] Hint Resolve keeps_load keeps_if_given keeps_if_missing keeps_fileExists : keeps.

(** [I] does not see a change of the file [p]. *)
Definition blind (I : FileSystem → Prop) (p : string) : Prop :=
  ∀ fs n, I fs → I (set_node p n fs).
Lemma keeps_os_Create I p : blind I p → keeps I (os_Create p).
Proof.
  intros HI fs Hfs. unfold os_Create. case_bool_decide; [done|]. case_bool_decide; [done|].
  destruct (fs_nodes fs !! p) as [[d|]|]; simpl; auto.
Qed.
Lemma keeps_file_Write I p d : blind I p → keeps I (file_Write p d).
Proof. intros HI fs Hfs. unfold file_Write. case_bool_decide; simpl; auto. Qed.
Lemma keeps_file_Close I p : keeps I (file_Close p).
Proof. by intros fs Hfs. Qed.
Lemma keeps_WriteCertOut I p cert : blind I p → keeps (of_fs I) (in_fs (WriteCertOut p cert)).
Proof.
  intros HI. apply keeps_in_fs. unfold WriteCertOut. repeat (apply keeps_bind; [|intros ?]); apply keeps_wrap_err.
  - by apply keeps_os_Create.
  - by apply keeps_file_Write.
  - apply keeps_file_Close.
Qed.
Lemma keeps_WritePrivateKey I p k : blind I p → keeps (of_fs I) (in_fs (WritePrivateKey p k)).
Proof.
  intros HI. apply keeps_in_fs. unfold WritePrivateKey. repeat (apply keeps_bind; [|intros ?]); apply keeps_wrap_err.
  - apply keeps_lift.
  - by apply keeps_os_Create.
  - by apply keeps_file_Write.
  - apply keeps_file_Close.
Qed.
#[local] Hint Resolve keeps_WriteCertOut keeps_WritePrivateKey : keeps.
Lemma keeps_generateRootCA I cfg oc ok : blind I oc → blind I ok → keeps (of_fs I) (generateRootCA cfg oc ok).
Proof. intros. unfold generateRootCA. keeps_tac. Qed.
Lemma keeps_generateIntermediate I cfg sc sk oc ok :
  blind I oc → blind I ok → keeps (of_fs I) (generateIntermediateCertificate cfg sc sk oc ok).
Proof. intros. unfold generateIntermediateCertificate. keeps_tac. Qed.
Lemma keeps_generateIdentity I cfg id sc sk oc ok :
  blind I oc → blind I ok → keeps (of_fs I) (generateIdentityCertificate cfg id sc sk oc ok).
Proof. intros. unfold generateIdentityCertificate. keeps_tac. Qed.
#[local] Hint Resolve keeps_generateRootCA keeps_generateIntermediate keeps_generateIdentity : keeps.

(** [I] says that [p] is a regular file. *)
Definition has_file (I : FileSystem → Prop) (p : string) : Prop :=
  ∀ fs, I fs → ∃ d, fs_nodes fs !! p = Some (FileData d).
Lemma keeps_generate I what oc ok gen :
  keeps (of_fs I) gen ∨ (has_file I oc ∧ has_file I ok) → keeps (of_fs I) (generate what oc ok gen).
Proof.
  intros [Hg|[Hc Hk]]; [unfold generate; keeps_tac|].
  intros w Hw. destruct (Hc _ Hw) as [dc Ec], (Hk _ Hw) as [dk Ek].
  unfold generate, fileExists, read_fs, os_Stat, mbind, ME_bind.
  destruct (fs_stat_err (w_fs w)) eqn:Es; [done|]. rewrite Ec. cbn. by rewrite Es, Ek.
Qed.

(** The invariants that [ReadCommandOptions] keeps: for each pair, [I] does not see its files
    change, or says that both are there; of the last one it may also be kept by the generation. *)
Definition safe_pair (I : FileSystem → Prop) (c k : string) : Prop :=
  (blind I c ∧ blind I k) ∨ (has_file I c ∧ has_file I k).
Definition safe_end (I : FileSystem → Prop) : Prop :=
  safe_pair I "end_cert.crt" "end_cert.key" ∨
  ∀ id, keeps (of_fs I) (generateIdentityCertificate zero_Configuration id "subca_cert.crt" "subca_cert.key"
                           "end_cert.crt" "end_cert.key").
Lemma keeps_generate_pair I what c k gen :
  safe_pair I c k → (blind I c → blind I k → keeps (of_fs I) gen) → keeps (of_fs I) (generate what c k gen).
Proof. intros [[]|] Hgen; apply keeps_generate; auto. Qed.
Ltac keeps_tool :=
  repeat first [keeps_step | progress apply keeps_if_missing | progress apply keeps_if_given
               | apply keeps_generate_pair; [by auto|]; intros; auto with keeps].
Lemma keeps_before_intermediate I opts :
  safe_pair I "mfg_rootca.crt" "mfg_rootca.key" → safe_pair I "mfg_cert.crt" "mfg_cert.key" →
  safe_pair I "rootca_cert.crt" "rootca_cert.key" →
  keeps (of_fs I) (loadMfgTrustCA (opt_MfgTrustCA opts)) ∧ keeps (of_fs I) (loadMfgTrustCAKey (opt_MfgTrustCAKey opts)) ∧
  keeps (of_fs I) (generateMfgTrustCA (opt_MfgTrustCA opts) (opt_MfgTrustCAKey opts)) ∧
  keeps (of_fs I) (load_mfg opts) ∧ keeps (of_fs I) (generate_mfg opts) ∧ keeps (of_fs I) (identity_trust opts).
Proof.
  intros H1 H2 H3. unfold loadMfgTrustCA, loadMfgTrustCAKey, generateMfgTrustCA, load_mfg,
    generate_mfg, identity_trust, load_trust, load_trust_key. repeat split; keeps_tool.
Qed.
Lemma keeps_identity_end I opts : safe_end I → keeps (of_fs I) (identity_end opts).
Proof.
  intros He. unfold identity_end.
  repeat first [keeps_step | progress apply keeps_if_missing
               | destruct He; [apply keeps_generate_pair|apply keeps_generate]; intros; auto with keeps].
Qed.
Lemma keeps_ReadCommandOptions I opts :
  (∀ c k, (c, k) ∈ take 4 tool_pairs → safe_pair I c k) → safe_end I → keeps (of_fs I) (ReadCommandOptions opts).
Proof.
  intros HI He.
  assert (Hp : ∀ p, bool_decide (p ∈ take 4 tool_pairs) = true → safe_pair I p.1 p.2)
    by (intros [c k] Hin%bool_decide_eq_true; by apply HI).
  pose proof (Hp ("mfg_rootca.crt", "mfg_rootca.key") eq_refl) as P1. pose proof (Hp ("mfg_cert.crt", "mfg_cert.key") eq_refl) as P2.
  pose proof (Hp ("rootca_cert.crt", "rootca_cert.key") eq_refl) as P3. pose proof (Hp ("subca_cert.crt", "subca_cert.key") eq_refl) as P4.
  destruct (keeps_before_intermediate I opts P1 P2 P3) as (K1 & K2 & K3 & K4 & K5 & K6).
  pose proof (keeps_identity_end I opts He). unfold ReadCommandOptions, loadCertificateIdentity, identity_intermediate.
  repeat first [assumption | keeps_step | progress apply keeps_if_missing | progress apply keeps_if_given
               | apply keeps_generate_pair; [by auto|]; intros; auto with keeps].
Qed.

Definition pair_files (c k dc dk : string) (fs : FileSystem) : Prop :=
  fs_nodes fs !! c = Some (FileData dc) ∧ fs_nodes fs !! k = Some (FileData dk).
(** Two pairs are the same or have no file in common. *)
Lemma pairs_apart p q : p ∈ tool_pairs → q ∈ tool_pairs → p ≠ q → p.1 ≠ q.1 ∧ p.1 ≠ q.2 ∧ p.2 ≠ q.1 ∧ p.2 ≠ q.2.
Proof.
  assert (Forall (fun p => Forall (fun q => p ≠ q → p.1 ≠ q.1 ∧ p.1 ≠ q.2 ∧ p.2 ≠ q.1 ∧ p.2 ≠ q.2) tool_pairs) tool_pairs)
    as HF by (by apply (bool_decide_unpack _)).
  rewrite Forall_forall in HF. intros Hp Hq. specialize (HF _ Hp). rewrite Forall_forall in HF. by apply HF.
Qed.
Lemma keeps_pairs I opts : (∀ c k, (c, k) ∈ tool_pairs → safe_pair I c k) → keeps (of_fs I) (ReadCommandOptions opts).
Proof.
  intros HI. apply keeps_ReadCommandOptions.
  - intros c k Hin. apply HI. rewrite <- (take_drop 4 tool_pairs). apply elem_of_app. by left.
  - left. apply HI. by apply (bool_decide_unpack _).
Qed.

(** C20 A run of the program touches no file of the user: the only files that change are the ten
    it generates, and a certificate and its key that are both there stay as they are. *)
Theorem ReadCommandOptions_keeps_files opts w :
  (∀ p, p ∉ tool_files → node p (ReadCommandOptions opts w).2 = node p w) ∧
  (∀ c k dc dk, (c, k) ∈ tool_pairs → node c w = Some (FileData dc) → node k w = Some (FileData dk) →
     node c (ReadCommandOptions opts w).2 = Some (FileData dc) ∧
     node k (ReadCommandOptions opts w).2 = Some (FileData dk)).
Proof.
  split.
  - intros p Hp. refine (keeps_pairs (fun fs => fs_nodes fs !! p = node p w) opts _ w eq_refl).
    intros c k Hin. assert (p ≠ c ∧ p ≠ k) as [? ?].
    { split; intros ->; apply Hp, elem_of_app; [left; by apply (list_elem_of_fmap_2 fst) in Hin
                                                |right; by apply (list_elem_of_fmap_2 snd) in Hin]. }
    left. split; intros fs n Hfs; cbn; by rewrite lookup_insert_ne.
  - intros c k dc dk Hin Hc Hk. refine (keeps_pairs (pair_files c k dc dk) opts _ w (conj Hc Hk)).
    intros c' k' Hin'. destruct (decide ((c', k') = (c, k))) as [[= -> ->]|Hdiff].
    + right. split; intros fs [N1 N2]; eauto.
    + left. destruct (pairs_apart _ _ Hin' Hin Hdiff) as (? & ? & ? & ?). cbn in *.
      split; intros fs n [N1 N2]; (split; cbn; rewrite lookup_insert_ne; done).
Qed.

(** ** The identity certificate without a validity *)

(** Two readings of the clock differ. *)
Class ClockAdvances : Prop :=
  time_advances : ∀ g t g' t' g'', time_Now g = (Ok t, g') → time_Now g' = (Ok t', g'') → t < t'.

Lemma identity_without_validity `{HClock : !ClockAdvances} cfg id key signerCA signerKey g :
  ValidFrom cfg = "" ∨ to_lower (ValidFrom cfg) = "now" → ValidFor cfg <= 0 →
  is_ok (GenerateIdentityCert cfg id key signerCA signerKey g).1 = false.
Proof.
  intros Hfrom Hfor. destruct (GenerateIdentityCert _ _ _ _ _ g) as [[pem|e] g'] eqn:H; [|done]. exfalso.
  unfold GenerateIdentityCert, lift in H. apply run_bind_Ok in H as (csr & g1 & _ & H).
  apply run_bind_Ok in H as (nb & g2 & Hnb & H). apply run_bind_Ok in H as (crl & g3 & Hcrl & H).
  injection Hcrl as _ <-. apply run_bind_Ok in H as (s & g4 & Hs & H). injection Hs as Hs <-.
  unfold ToValidFrom in Hnb.
  replace (bool_decide (ValidFrom cfg = "") || bool_decide (to_lower (ValidFrom cfg) = "now")) with true in Hnb
    by (symmetry; apply orb_true_iff; rewrite !bool_decide_eq_true; exact Hfrom).
  unfold NewOCFIdentityCertificate in Hs. apply bind_Ok_inv in Hs as (u & _ & Hs). injection Hs as <-.
  unfold identity_Sign, lift in H. apply run_bind_Ok in H as (now & g5 & Hnow & H).
  apply run_bind_Ok in H as (w & g6 & Hw & _). injection Hw as Hw _.
  pose proof (time_advances _ _ _ _ _ Hnb Hnow) as Hlt.
  match type of Hw with identity_window ?s _ = _ => pose proof (window_in_ranges s now) as Hr end.
  rewrite Hw in Hr. destruct Hr as [[[_ Hle] _] _]. cbn in Hle. lia.
Qed.

Lemma generateIdentityCertificate_fails `{HClock : !ClockAdvances} cfg id sc sk oc ok w :
  ValidFrom cfg = "" ∨ to_lower (ValidFrom cfg) = "now" → ValidFor cfg <= 0 →
  is_ok (generateIdentityCertificate cfg id sc sk oc ok w).1 = false ∧
  w_fs (generateIdentityCertificate cfg id sc sk oc ok w).2 = w_fs w.
Proof.
  intros Hfrom Hfor. unfold generateIdentityCertificate, in_gen, read_fs, on_gen, mbind, ME_bind.
  destruct (ecdsa_GenerateKey P256 _) as [[priv|e] g]; [|done]. cbn.
  destruct (ReadPemCertificates _ _) as [certs|e]; [|done].
  destruct (ReadPemEcdsaPrivateKey _ _) as [k|e]; [|done]. cbn.
  match goal with |- context [GenerateIdentityCert cfg id priv certs k ?g] =>
    pose proof (identity_without_validity cfg id priv certs k g Hfrom Hfor) as H end.
  by destruct (GenerateIdentityCert _ _ _ _ _ _) as [[pem|e] g'].
Qed.

(** The identity certificate of the tool is never made: its configuration has no validity, so
    it has expired when it is signed.  A run that needs to generate [end_cert.crt] and its
    key leaves the files as they were, whatever the options are. *)
Theorem end_cert_never_generated `{HClock : !ClockAdvances} opts w p :
  p ∈ ["end_cert.crt"; "end_cert.key"] →
  node p (ReadCommandOptions opts w).2 = node p w.
Proof.
  intros Hp. refine (keeps_ReadCommandOptions (fun fs => fs_nodes fs !! p = node p w) opts _ _ w eq_refl).
  - intros c k Hin. left.
    assert (Hd : Forall (fun q => Forall (fun p => q.1 ≠ p ∧ q.2 ≠ p) ["end_cert.crt"; "end_cert.key"]) (take 4 tool_pairs))
      by (by apply (bool_decide_unpack _)).
    rewrite Forall_forall in Hd. specialize (Hd _ Hin). rewrite Forall_forall in Hd. destruct (Hd _ Hp).
    split; intros fs n Hfs; cbn in *; by rewrite lookup_insert_ne.
  - right. intros id w' Hw'.
    destruct (generateIdentityCertificate_fails zero_Configuration id "subca_cert.crt" "subca_cert.key" "end_cert.crt"
                "end_cert.key" w' (or_introl eq_refl) (Z.le_refl 0)) as [_ E].
    unfold of_fs. by rewrite E.
Qed.

(** ** The variables *)

Definition var_is (x : Var) (v : string) (w : World) : Prop := w_vars w x = v.
Lemma var_in_fs {A} x v (m : ME FileSystem A) : keeps (var_is x v) (in_fs m).
Proof. intros w Hw. unfold in_fs. by destruct (m (w_fs w)). Qed.
Lemma var_in_gen {A} x v (m : ME GenEnv A) : keeps (var_is x v) (in_gen m).
Proof. intros w Hw. unfold in_gen. by destruct (on_gen m (w_env w)). Qed.
Lemma var_print x v l : keeps (var_is x v) (print l).
Proof. by intros w Hw. Qed.
Lemma var_set x v y u : x ≠ y → keeps (var_is x v) (set_var y u).
Proof. intros Hne w Hw. unfold var_is, set_var, modify. cbn. by rewrite bool_decide_false. Qed.
#[local] Hint Resolve var_in_fs var_in_gen var_print var_set : keeps.
Lemma var_load x v what p y : x ≠ y ∨ p = "" → keeps (var_is x v) (load what p y).
Proof. intros [Hne| ->]; [unfold load; keeps_tac|]. by intros w Hw. Qed.
Lemma var_generate x v what c k gen : keeps (var_is x v) gen → keeps (var_is x v) (generate what c k gen).
Proof. intros Hg. unfold generate. keeps_tac. Qed.
Lemma var_generateRootCA x v cfg oc ok : keeps (var_is x v) (generateRootCA cfg oc ok).
Proof. unfold generateRootCA. keeps_tac. Qed.
Lemma var_generateIntermediate x v cfg sc sk oc ok :
  keeps (var_is x v) (generateIntermediateCertificate cfg sc sk oc ok).
Proof. unfold generateIntermediateCertificate. keeps_tac. Qed.
Lemma var_generateIdentity x v cfg id sc sk oc ok :
  keeps (var_is x v) (generateIdentityCertificate cfg id sc sk oc ok).
Proof. unfold generateIdentityCertificate. keeps_tac. Qed.
#[local] Hint Resolve var_generateRootCA var_generateIntermediate var_generateIdentity : keeps.
Ltac var_tac :=
  repeat first [keeps_step | progress apply keeps_if_missing | progress apply keeps_if_given
               | apply var_generate | apply var_set; done | apply var_load; first [by left | by right]].

(** The trusted certificate that a run generates is not the one that it uses: without a path
    in the options the variable keeps the value it had, which is empty, although the pair
    [rootca_cert] was generated. *)
Theorem trust_never_loaded opts w :
  opt_IdentityTrustCA opts = "" →
  w_vars (ReadCommandOptions opts w).2 IdentityTrustedCA = w_vars w IdentityTrustedCA.
Proof.
  intros Hopt. cut (keeps (var_is IdentityTrustedCA (w_vars w IdentityTrustedCA)) (ReadCommandOptions opts)).
  { intros H. by apply H. }
  unfold ReadCommandOptions, loadCertificateIdentity, loadMfgTrustCA, loadMfgTrustCAKey, generateMfgTrustCA, load_mfg,
    generate_mfg, identity_trust, load_trust, load_trust_key, identity_intermediate, identity_end.
  var_tac.
Qed.

(** ** What is generated reads back *)

(** A key in SEC 1 form is not one in PKCS#8 form; both forms parse back. *)
Class KeyLaws := {
  pem_Decode_key : ∀ der, pem_Decode (pem_Encode "EC PRIVATE KEY" der) = (Some der, "");
  PKCS8_of_EC : ∀ k der, x509_MarshalECPrivateKey k = Ok der → is_ok (x509_ParsePKCS8PrivateKey der) = false;
  EC_Marshal : ∀ k der, x509_MarshalECPrivateKey k = Ok der → x509_ParseECPrivateKey der = Ok k }.
Context `{HCredL : !CredEnvLaws} `{HPemL : !PemLaws} `{HCertL : !CertLaws} `{HKeyL : !KeyLaws}.

Definition written (p d : string) (fs : FileSystem) : FileSystem := set_node p (FileData d) (set_node p (FileData "") fs).
Lemma write_Ok p d fs fs' f1 f2 f3 :
  (wrap_err f1 (os_Create p);; wrap_err f2 (file_Write p d);; wrap_err f3 (file_Close p)) fs = (Ok tt, fs') →
  p ≠ "" ∧ fs' = written p d fs.
Proof.
  unfold wrap_err, mbind, ME_bind, os_Create. case_bool_decide; [done|]. case_bool_decide; [done|].
  destruct (fs_nodes fs !! p) as [[d'|]|]; [|done|]; unfold file_Write; (case_bool_decide; [done|]);
    unfold file_Close; (case_bool_decide; [done|]); by intros [= <-].
Qed.
Lemma WriteCertOut_Ok p cert fs fs' : WriteCertOut p cert fs = (Ok tt, fs') → p ≠ "" ∧ fs' = written p cert fs.
Proof. apply write_Ok. Qed.
Lemma WritePrivateKey_Ok p k fs fs' :
  WritePrivateKey p k fs = (Ok tt, fs') →
  ∃ der, x509_MarshalECPrivateKey k = Ok der ∧ p ≠ "" ∧ fs' = written p (pem_Encode "EC PRIVATE KEY" der) fs.
Proof.
  unfold WritePrivateKey. intros (blk & fs1 & Hb & H)%run_bind_Ok. apply run_wrap_Ok in Hb.
  unfold lift, pemBlockForKey in Hb. injection Hb as Hb <-. apply bind_Ok_inv in Hb as (der & Hd & Hb).
  injection Hb as <-. apply write_Ok in H as [Hp ->]. by exists der.
Qed.
Lemma run_in_fs {A} (m : ME FileSystem A) w a w' :
  in_fs m w = (Ok a, w') → m (w_fs w) = (Ok a, w_fs w').
Proof. unfold in_fs. destruct (m (w_fs w)) as [r fs]. by intros [= -> <-]. Qed.
Lemma run_in_gen {A} (m : ME GenEnv A) w a w' :
  in_gen m w = (Ok a, w') → w_fs w' = w_fs w ∧ ∃ g g', m g = (Ok a, g').
Proof.
  unfold in_gen, on_gen. destruct (m (gen_get (w_env w))) as [r g] eqn:E. intros [= -> <-]. eauto.
Qed.

(** Two file names of the directory, which can be read. *)
Definition good_names (oc ok : string) (fs : FileSystem) : Prop :=
  oc ≠ ok ∧ filepath_Clean oc = oc ∧ filepath_Clean ok = ok ∧ oc ∉ fs_unreadable fs ∧ ok ∉ fs_unreadable fs.
Definition pair_reads (oc ok : string) (fs : FileSystem) (certs : list Cert) (k : PrivateKey) : Prop :=
  ReadPemCertificates oc fs = Ok certs ∧ ReadPemEcdsaPrivateKey ok fs = Ok k.

Lemma ReadFile_written p q d fs :
  p ≠ "" → p ∉ fs_unreadable fs →
  os_ReadFile p (written p d fs) = Ok d ∧ (p ≠ q → ∀ d', os_ReadFile p (written q d' fs) = os_ReadFile p fs).
Proof.
  intros Hp Hr. unfold os_ReadFile, written. cbn. rewrite (bool_decide_eq_false_2 (p = "")) by done.
  rewrite !(bool_decide_eq_false_2 (p ∈ fs_unreadable fs)) by done. split.
  - by rewrite lookup_insert_eq.
  - intros Hq d'. by rewrite !lookup_insert_ne by done.
Qed.
Lemma pair_written oc ok fs cert k certs der :
  good_names oc ok fs → oc ≠ "" → ok ≠ "" → ParsePemCertificates (Some cert) = Ok certs →
  x509_MarshalECPrivateKey k = Ok der →
  pair_reads oc ok (written ok (pem_Encode "EC PRIVATE KEY" der) (written oc cert fs)) certs k.
Proof.
  intros (Hne & Hc & Hk & Rc & Rk) Ho1 Ho2 Hparse Hm.
  unfold pair_reads, ReadPemCertificates, ReadPemEcdsaPrivateKey. rewrite Hc, Hk.
  destruct (ReadFile_written oc ok cert fs Ho1 Rc) as [E1 _].
  destruct (ReadFile_written oc ok "" (written oc cert fs) Ho1 Rc) as [_ E2].
  destruct (ReadFile_written ok ok (pem_Encode "EC PRIVATE KEY" der) (written oc cert fs) Ho2 Rk) as [E3 _].
  rewrite E2, E1, E3 by done. split; [done|]. cbn. unfold ParsePemEcdsaPrivateKey. rewrite pem_Decode_key. cbn.
  pose proof (PKCS8_of_EC k der Hm) as H8. destruct (x509_ParsePKCS8PrivateKey der); [done|].
  by rewrite (EC_Marshal k der Hm).
Qed.

(** The end of the three generators. *)
Lemma files_written oc ok cert certs k w w' :
  good_names oc ok (w_fs w) → ParsePemCertificates (Some cert) = Ok certs →
  (in_fs (WriteCertOut oc cert);; in_fs (WritePrivateKey ok k)) w = (Ok tt, w') → pair_reads oc ok (w_fs w') certs k.
Proof.
  intros Hg Hp (u & w1 & H1%run_in_fs & H2%run_in_fs)%run_bind_Ok. destruct u.
  apply WriteCertOut_Ok in H1 as [Ho1 E1]. apply WritePrivateKey_Ok in H2 as (der & Hm & Ho2 & E2).
  rewrite E2, E1. by apply pair_written.
Qed.

(** The certificate of an authority: what it says, and its key. *)
Definition certifies (c : Cert) (cn : string) (k : PrivateKey) : Prop :=
  CommonName (cert_fields c) = cn ∧ cert_PublicKey c = public_key k.
Lemma newCert_spec cfg b g t g' :
  newCert cfg b g = (Ok t, g') →
  t_ExtraExtensions t = [] ∧ t_UnknownExtKeyUsage t = [] ∧ pn_CommonName (t_Subject t) = sub_CommonName cfg.
Proof.
  unfold newCert. intros (nb & g1 & _ & H)%run_bind_Ok. apply run_bind_Ok in H as (alg & g2 & _ & H).
  apply run_bind_Ok in H as (sn & g3 & _ & H). apply run_bind_Ok in H as (crl & g4 & _ & H). by injection H as <- _.
Qed.
Lemma ca_created cfg b t parent k key g g1 g2 der g3 :
  newCert cfg b g = (Ok t, g1) → x509_CreateCertificate t parent (public_key k) key g2 = (Ok der, g3) →
  ∃ c, x509_ParseCertificates der = Ok [c] ∧ certifies c (sub_CommonName cfg) k.
Proof.
  intros (He & Hu & Hn)%newCert_spec Hc%(f_equal fst).
  destruct (x509_Parse_Create t parent (public_key k) key g2 der) as (c & Hp & Hf & Hk & _); [done| |done|].
  - rewrite Hu. set_solver.
  - exists c. split; [done|]. unfold certifies. by rewrite Hf, Hk.
Qed.
Lemma GenerateRootCA_spec cfg k g pem g' :
  GenerateRootCA cfg k g = (Ok pem, g') →
  ∃ c, ParsePemCertificates (Some pem) = Ok [c] ∧ certifies c (sub_CommonName cfg) k.
Proof.
  unfold GenerateRootCA. intros (t & g1 & Ht & H)%run_bind_Ok. apply run_bind_Ok in H as (der & g2 & Hc & H).
  injection H as <- _. destruct (ca_created _ _ _ _ _ _ _ _ _ _ _ Ht Hc) as (c & Hp & Hn).
  exists c. split; [|done]. by apply (pem_chain_parses [] der).
Qed.
Lemma GenerateIntermediateCA_spec cfg k signers key g pem g' :
  GenerateIntermediateCA cfg k signers key g = (Ok pem, g') →
  ∃ c, ParsePemCertificates (Some pem) = Ok (c :: signers) ∧ certifies c (sub_CommonName cfg) k.
Proof.
  unfold GenerateIntermediateCA. intros (t & g1 & Ht & H)%run_bind_Ok. destruct signers as [|ca signers]; [done|].
  apply run_bind_Ok in H as (der & g2 & Hc & H). injection H as <- _.
  destruct (ca_created _ _ _ _ _ _ _ _ _ _ _ Ht Hc) as (c & Hp & Hn).
  exists c. split; [|done]. by apply pem_chain_parses.
Qed.

(** C24 The pairs that the program generates are used by its later steps: after a generator
    succeeded, its files read back as the new certificate, followed by the chain of its
    signer, and as the private key of that certificate; an identity certificate passes its
    own checks and carries the identity. *)
Theorem generated_pairs_match cfg oc ok w w' :
  good_names oc ok (w_fs w) →
  (generateRootCA cfg oc ok w = (Ok tt, w') →
   ∃ c k, pair_reads oc ok (w_fs w') [c] k ∧ certifies c (sub_CommonName cfg) k) ∧
  (∀ sc sk, generateIntermediateCertificate cfg sc sk oc ok w = (Ok tt, w') →
   ∃ c k signers, ReadPemCertificates sc (w_fs w) = Ok signers ∧
     pair_reads oc ok (w_fs w') (c :: signers) k ∧ certifies c (sub_CommonName cfg) k) ∧
  (∀ identity id sc sk, contains_char ":" identity = false → uuid_Parse identity = Ok id →
   generateIdentityCertificate cfg identity sc sk oc ok w = (Ok tt, w') →
   ∃ c k signers, ReadPemCertificates sc (w_fs w) = Ok signers ∧
     pair_reads oc ok (w_fs w') (c :: signers) k ∧ cert_PublicKey c = public_key k ∧
     VerifyIdentityCertificate (cert_fields c) = Ok tt ∧ GetDeviceIDFromIdentityCertificate (cert_fields c) = Ok id).
Proof.
  intros Hg. split; [|split].
  - intros (priv & w1 & [F1 _]%run_in_gen & H)%run_bind_Ok.
    apply run_bind_Ok in H as (cert & w2 & [F2 (g & g' & Hc)]%run_in_gen & H).
    apply GenerateRootCA_spec in Hc as (c & Hp & Hn). exists c, priv. split; [|done].
    eapply files_written; [|exact Hp|exact H]. by rewrite F2, F1.
  - intros sc sk (priv & w1 & [F1 _]%run_in_gen & H)%run_bind_Ok.
    apply run_bind_Ok in H as (signers & w2 & Hs & H). injection Hs as Hs <-.
    apply run_bind_Ok in H as (key & w3 & Hk & H). injection Hk as Hk <-.
    apply run_bind_Ok in H as (cert & w4 & [F2 (g & g' & Hc)]%run_in_gen & H).
    apply GenerateIntermediateCA_spec in Hc as (c & Hp & Hn). exists c, priv, signers.
    split; [by rewrite <- F1|]. split; [|done]. eapply files_written; [|exact Hp|exact H]. by rewrite F2, F1.
  - intros identity id sc sk Hcolon Hu (priv & w1 & [F1 _]%run_in_gen & H)%run_bind_Ok.
    apply run_bind_Ok in H as (signers & w2 & Hs & H). injection Hs as Hs <-.
    apply run_bind_Ok in H as (key & w3 & Hk & H). injection Hk as Hk <-.
    apply run_bind_Ok in H as (cert & w4 & [F2 (g & g' & Hc)]%run_in_gen & H). apply (f_equal fst) in Hc.
    destruct (identity_cert_valid cfg identity id priv signers key g cert Hcolon Hu Hc)
      as (leaf & Hp & Hver & Hget & Hpub & _).
    exists leaf, priv, signers. split; [by rewrite <- F1|]. split; [|done].
    eapply files_written; [|exact Hp|exact H]. by rewrite F2, F1.
Qed.

(** ** The client *)

Context (parse : string → result Certificate) `{HTls : !TlsLaws parse}.
Context {Logger : Type} (defaultLogger nilLogger : Logger).

Lemma NewSecureClient_owner vars e client owner e' sdk :
  DeviceOwnershipSDK (secure_config vars) = Some sdk →
  NewSecureClient defaultLogger nilLogger vars e = (Ok (client, owner), e') →
  ∃ setup e0 o e1 e2 o', newDeviceOwnershipSDKFromConfig (tool_app setup) sdk e0 = (Ok o, e1) ∧
    owner_Initialization "" o e2 = (Ok (None, o'), e') ∧ owner = OwnerSDK o'.
Proof.
  intros Hsdk (setup & e1 & _ & H)%run_bind_Ok. apply run_bind_Ok in H as ([c own] & e2 & Hc & H).
  apply run_bind_Ok in H as ([[err|] own'] & e3 & Hi & H); [done|]. injection H as _ <- <-.
  unfold NewClientFromConfig in Hc. apply run_bind_Ok in Hc as (opts & e4 & _ & Hc).
  apply run_bind_Ok in Hc as (own0 & e5 & Ho & Hc). unfold NewDeviceOwnerFromConfig in Ho. rewrite Hsdk in Ho.
  apply run_bind_Ok in Ho as (o & e6 & Ho & Hr). apply run_wrap_Ok in Ho. injection Hr as <- _.
  apply run_bind_Ok in Hc as (cl & e7 & _ & Hc). injection Hc as _ <- _. cbn in Hi.
  apply run_bind_Ok in Hi as ([err o'] & e8 & Hi & Hr). injection Hr as -> <- <-.
  by exists setup, e4, o, e6, e2, o'.
Qed.

(** The identity of the client is the one of the command line: when the tool could make and
    initialise its client, the devices of the client read exactly the ID of the variable
    [CertIdentity] from its certificate. *)
Theorem NewSecureClient_identity vars id e client owner e' :
  vars IdentityIntermediateCA ≠ "" → vars IdentityIntermediateCAKey ≠ "" →
  uuid_Parse (vars CertIdentity) = Ok id → uuid_Parse id = Ok id → contains_char ":" id = false →
  NewSecureClient defaultLogger nilLogger vars e = (Ok (client, owner), e') →
  sdk_owner_id parse owner = Ok id ∧ is_ok (owner_GetIdentityCACerts owner) = true.
Proof.
  intros Hc Hk Hid Hcanon Hcolon H.
  assert (Hcfg : ∃ sdk, DeviceOwnershipSDK (secure_config vars) = Some sdk ∧ oc_ID sdk = vars CertIdentity ∧
            oc_CreateSignerFunc sdk = Some identity_signer).
  { unfold secure_config. rewrite !bool_decide_eq_false_2 by done. by eexists. }
  destruct Hcfg as (sdk & Hsdk & Eid & Esig).
  destruct (NewSecureClient_owner _ _ _ _ _ _ Hsdk H) as (setup & e0 & o & e1 & e2 & o' & Hnew & Hinit & ->).
  rewrite <- Eid in Hid.
  exact (proj2 (sdk_owner_identity parse _ _ _ _ _ _ _ _ _ _ Hnew Esig Hid Hcanon Hcolon Hinit)).
Qed.

(** Without an intermediate authority no client is ever made: the configuration then has a
    device owner with an empty certificate, which is not a key pair. *)
Theorem NewSecureClient_needs_authority vars e :
  (∀ key, is_ok (tls_X509KeyPair "" key) = false) →
  vars IdentityIntermediateCA = "" ∨ vars IdentityIntermediateCAKey = "" →
  is_ok (NewSecureClient defaultLogger nilLogger vars e).1 = false.
Proof.
  intros Htls Hv. destruct (NewSecureClient _ _ _ _) as [[[client owner]|err] e'] eqn:H; [|done]. exfalso.
  assert (Hcfg : ∃ sdk, DeviceOwnershipSDK (secure_config vars) = Some sdk ∧ oc_Cert sdk = "").
  { unfold secure_config.
    replace (negb (bool_decide (vars IdentityIntermediateCA = "")) && negb (bool_decide (vars IdentityIntermediateCAKey = "")))
      with false by (destruct Hv as [-> | ->]; by rewrite ?andb_false_r). by eexists. }
  destruct Hcfg as (sdk & Hsdk & Ec).
  destruct (NewSecureClient_owner _ _ _ _ _ _ Hsdk H) as (setup & e0 & o & e1 & e2 & o' & Hnew & _).
  unfold newDeviceOwnershipSDKFromConfig in Hnew. apply run_bind_Ok in Hnew as (exp & e3 & _ & Hn).
  apply run_bind_Ok in Hn as (cert & e4 & Ht%run_wrap_Ok & _). unfold lift in Ht. injection Ht as Ht _.
  rewrite Ec in Ht. specialize (Htls (oc_CertKey sdk)). by rewrite Ht in Htls.
Qed.
End Props.
