(* ===== verification/ClientMenuProps.v ===== *)
(** * ClientMenuProps: what a session of the menu does

    A session ends, with its input or by the program; and its calls of the client follow the
    menu: a resource is only updated after the resources of its device were listed and the
    resource itself was read. *)

From S2P Require Import ClientMenu.

(** ** The calls of a session *)

Inductive OcfCall (D : Type) :=
  | CDiscover (timeout : Z) | COwn (deviceID : string) | CResources (deviceID : string)
  | CResource (deviceID href : string) | CUpdate (deviceID href : string) (data : D)
  | CDisown (deviceID : string) | CClose.
Arguments CDiscover {D} _. Arguments COwn {D} _. Arguments CResources {D} _.
Arguments CResource {D} _ _. Arguments CUpdate {D} _ _ _. Arguments CDisown {D} _. Arguments CClose {D}.

Section Sessions.
Context {E D : Type} `{HOcf : !OCF E D}.
Context (initialized : bool) (discoveryTimeout : Z).
Abbreviation World := (@MenuWorld E).
Abbreviation MM := (@MM E).

(** A label is a call with its success. *)
Definition Label : Type := OcfCall D * bool.
Definition outcome {A} (r : result A * E) : bool * E := (is_ok r.1, r.2).
Definition perform (c : OcfCall D) (e : E) : bool * E :=
  match c with
  | CDiscover t => outcome (ocf_Discover t e)
  | COwn id => outcome (ocf_OwnDevice id e)
  | CResources id => outcome (ocf_GetResources id e)
  | CResource id href => outcome (ocf_GetResource id href e)
  | CUpdate id href d => outcome (ocf_UpdateResource id href d e)
  | CDisown id => outcome (ocf_DisownDevice id e)
  | CClose => outcome (ocf_Close e)
  end.
Definition calls (e : E) (l : Label) (e' : E) : Prop := perform l.1 e = (l.2, e').

(** [m] makes a sequence of calls that [Q] relates to its outcome. *)
Definition logs {A} (m : MM A) (Q : A + Stop → list Label → Prop) : Prop :=
  ∀ w, ∃ ls, runs calls (m_env w) ls (m_env (m w).2) ∧ Q (m w).1 ls.
Definition quiet {A} (m : MM A) : Prop := logs m (fun r ls => ls = [] ∧ ∃ a, r = inl a).

Lemma logs_conseq {A} (m : MM A) (Q Q' : A + Stop → list Label → Prop) :
  logs m Q → (∀ r ls, Q r ls → Q' r ls) → logs m Q'.
Proof. intros Hm HQ w. destruct (Hm w) as (ls & Hr & H). eauto. Qed.
Lemma logs_bind {A B} (m : MM A) (k : A → MM B) Q1 (Q : B + Stop → list Label → Prop) :
  logs m Q1 → (∀ a ls, Q1 (inl a) ls → logs (k a) (fun r ls2 => Q r (ls ++ ls2))) →
  (∀ s ls, Q1 (inr s) ls → Q (inr s) ls) → logs (m ≫= k) Q.
Proof.
  intros Hm Hk Hs w. destruct (Hm w) as (ls & Hr & HQ). unfold mbind, MM_bind.
  destruct (m w) as [[a|s] w1]; [|eauto]. destruct (Hk a ls HQ w1) as (ls2 & Hr2 & HQ2).
  exists (ls ++ ls2). split; [eapply runs_app; [exact Hr|exact Hr2]|exact HQ2].
Qed.
Lemma logs_quiet {A B} (m : MM A) (k : A → MM B) (Q : B + Stop → list Label → Prop) :
  quiet m → (∀ a, logs (k a) Q) → logs (m ≫= k) Q.
Proof.
  intros Hm Hk. eapply logs_bind; [exact Hm| |].
  - intros a ls [-> _]. eapply logs_conseq; [apply Hk|done].
  - by intros s ls [_ [a ?]].
Qed.
Lemma logs_ret {A} (a : A) (Q : A + Stop → list Label → Prop) : Q (inl a) [] → logs (mret a : MM A) Q.
Proof. intros HQ w. exists []. split; [constructor|exact HQ]. Qed.

Lemma quiet_bind {A B} (m : MM A) (k : A → MM B) : quiet m → (∀ a, quiet (k a)) → quiet (m ≫= k).
Proof. intros. by apply logs_quiet. Qed.
Lemma quiet_out l : quiet (out l).
Proof. intros w. exists []. split; [constructor|eauto]. Qed.
Lemma quiet_ret {A} (a : A) : quiet (mret a).
Proof. apply logs_ret. eauto. Qed.
Lemma quiet_Scan : quiet Scan.
Proof. intros w. unfold Scan. destruct (m_in w) as [|l ls]; (exists []; split; [constructor|eauto]). Qed.
Create HintDb quiet.
#[local] Hint Resolve quiet_out quiet_ret quiet_Scan : quiet.
Ltac quiet_tac :=
  repeat match goal with
         | |- quiet (_ ≫= _) => apply quiet_bind
         | |- quiet _ => solve [auto with quiet nocore]
         | |- ∀ _, _ => intro
         end.
Lemma quiet_printMenu : quiet printMenu.
Proof. unfold printMenu. quiet_tac. Qed.
Lemma quiet_prompt what : quiet (prompt what).
Proof. unfold prompt. quiet_tac. Qed.
Lemma quiet_say s : quiet (say s).
Proof. unfold say. quiet_tac. Qed.
Lemma quiet_select_device : quiet select_device.
Proof. apply quiet_prompt. Qed.
#[local] Hint Resolve quiet_printMenu quiet_prompt quiet_say quiet_select_device : quiet.
Lemma logs_pure {A} (r : result A) failed :
  logs (pure r failed) (fun o ls => ls = [] ∧ (∀ s, o = inr s → s = Break)).
Proof.
  intros w. unfold pure. destruct r; (exists []; split; [constructor|split; [done|]]); by intros s [=].
Qed.

(** A call is made, or the client is nil. *)
Definition called {A} (c : OcfCall D) (o : A + Stop) (ls : list Label) : Prop :=
  match o with
  | inl _ => ls = [(c, true)]
  | inr Break => ls = [(c, false)]
  | inr s => ls = [] ∧ s = Panic ErrNilPointer ∧ initialized = false
  end.
Lemma logs_call {A} (op : ME E A) failed c :
  (∀ e, perform c e = outcome (op e)) → logs (call initialized op failed) (called c).
Proof.
  intros Hc w. unfold call. destruct initialized eqn:Ei.
  - pose proof (Hc (m_env w)) as H. destruct (op (m_env w)) as [[a|err] e]; cbn in *.
    + exists [(c, true)]. split; [|done]. econstructor; [exact H|constructor].
    + exists [(c, false)]. split; [|done]. econstructor; [exact H|constructor].
  - exists []. split; [constructor|done].
Qed.

(** ** What the entries of the menu may do *)

(** An update is made right after the resource was read, and that after the list of the
    resources of its device was read. *)
Definition read_first (ls : list Label) : Prop :=
  ∀ l1 id href d b l2, ls = l1 ++ (CUpdate id href d, b) :: l2 →
    ∃ l0, l1 = l0 ++ [(CResources id, true); (CResource id href, true)].
Lemma read_first_app ls1 ls2 : read_first ls1 → read_first ls2 → read_first (ls1 ++ ls2).
Proof.
  intros H1 H2 l1 id href d b l2 Heq. apply app_eq_app in Heq as (k & [[-> Hk]|[-> Hk]]).
  - destruct k as [|x k]; cbn in Hk.
    + specialize (H2 [] id href d b l2 (eq_sym Hk)) as [l0 Hl].
      by destruct l0.
    + injection Hk as <- Hk. by apply (H1 l1 id href d b k).
  - apply H2 in Hk as [l0 ->]. exists (ls1 ++ l0). by rewrite app_assoc.
Qed.
(** Labels that are not updates. *)
Definition no_update (l : Label) : bool := match l.1 with CUpdate _ _ _ => false | _ => true end.
Lemma read_first_none ls : forallb no_update ls = true → read_first ls.
Proof.
  intros H l1 id href d b l2 ->. rewrite forallb_app in H. cbn in H. by rewrite andb_false_r in H.
Qed.

(** The end of an entry: by itself, by a break, with the program, or with a nil client. *)
Definition entry_end {A} (o : A + Stop) (ls : list Label) : Prop :=
  read_first ls ∧
  match o with
  | inl _ => True
  | inr Break => True
  | inr Exit0 => True
  | inr (Panic _) => initialized = false
  end.
Lemma called_end {A B} c (s : Stop) ls ls' :
  called (A := A) c (inr s) ls → read_first ls' → no_update (c, false) = true → entry_end (A := B) (inr s) (ls' ++ ls).
Proof.
  intros Hc Hr Hn. split.
  - apply read_first_app; [done|]. apply read_first_none. destruct s; cbn in Hc.
    + subst ls. cbn. by rewrite Hn.
    + by destruct Hc as [-> _].
    + by destruct Hc as [-> _].
  - destruct s; [done..|]. by destruct Hc as (_ & _ & ?).
Qed.
(** A bind whose first part is a call: the trace so far is [pre]. *)
Lemma entry_call {A B} (op : ME E A) failed c (k : A → MM B) pre :
  (∀ e, perform c e = outcome (op e)) → read_first pre → no_update (c, false) = true →
  (∀ a, logs (k a) (fun r ls => entry_end r (pre ++ (c, true) :: ls))) →
  logs (call initialized op failed ≫= k) (fun r ls => entry_end r (pre ++ ls)).
Proof.
  intros Hc Hpre Hn Hk. eapply logs_bind; [by apply (logs_call op failed c)| |].
  - intros a ls ->. exact (Hk a).
  - intros s ls H. by eapply called_end.
Qed.
Lemma entry_quiet {A B} (m : MM A) (k : A → MM B) pre :
  quiet m → (∀ a, logs (k a) (fun r ls => entry_end r (pre ++ ls))) →
  logs (m ≫= k) (fun r ls => entry_end r (pre ++ ls)).
Proof. apply logs_quiet. Qed.
Lemma entry_done (m : MM unit) pre : quiet m → read_first pre → logs m (fun r ls => entry_end r (pre ++ ls)).
Proof.
  intros Hm Hpre. eapply logs_conseq; [exact Hm|]. intros r ls [-> [a ->]]. rewrite app_nil_r. by split.
Qed.
Lemma read_first_update id href d b : read_first [(CResources id, true); (CResource id href, true); (CUpdate id href d, b)].
Proof.
  intros l1 id' href' d' b' l2 Heq. destruct l1 as [|x1 [|x2 [|x3 l1]]]; cbn in Heq; try discriminate Heq.
  - injection Heq as <- <- <- <- <- <-. by exists [].
  - exfalso. by destruct l1.
Qed.

(** ** The entries *)

Lemma logs_assoc {A B C} (m : MM A) (k1 : A → MM B) (k2 : B → MM C) Q :
  logs (m ≫= λ a, k1 a ≫= k2) Q → logs ((m ≫= k1) ≫= k2) Q.
Proof.
  intros H w. specialize (H w). unfold mbind, MM_bind in *. by destruct (m w) as [[a|s] w1].
Qed.
Lemma logs_ret_bind {A B} (a : A) (k : A → MM B) Q : logs (k a) Q → logs (mret a ≫= k) Q.
Proof. done. Qed.
(** The next calls extend the trace. *)
Lemma entry_extend {A} (m : MM A) pre l :
  logs m (fun r ls => entry_end r ((pre ++ [l]) ++ ls)) → logs m (fun r ls => entry_end r (pre ++ l :: ls)).
Proof.
  intros H. eapply logs_conseq; [exact H|]. intros r ls Hx. cbn beta in *. by rewrite <- app_assoc in Hx.
Qed.
Lemma entry_start {A} (m : MM A) : logs m (fun r ls => entry_end r ([] ++ ls)) → logs m entry_end.
Proof. done. Qed.
Lemma entry_pure {A B} (r : result A) failed (k : A → MM B) pre :
  read_first pre → (∀ a, logs (k a) (fun r ls => entry_end r (pre ++ ls))) →
  logs (pure r failed ≫= k) (fun r ls => entry_end r (pre ++ ls)).
Proof.
  intros Hpre Hk. eapply logs_bind; [apply logs_pure| |].
  - intros a ls [-> _]. exact (Hk a).
  - intros s ls [-> Hs]. rewrite app_nil_r. rewrite (Hs s eq_refl). by split.
Qed.

Ltac entry_step :=
  match goal with
  | |- ∀ _, _ => intro
  | |- logs ((_ ≫= _) ≫= _) _ => apply logs_assoc
  | |- logs (mret _ ≫= _) _ => apply logs_ret_bind
  | |- logs (call _ (ocf_Discover ?t) _ ≫= _) _ => apply (entry_call _ _ (CDiscover t)); [done| |done|]
  | |- logs (call _ (ocf_OwnDevice ?i) _ ≫= _) _ => apply (entry_call _ _ (COwn i)); [done| |done|]
  | |- logs (call _ (ocf_GetResources ?i) _ ≫= _) _ => apply (entry_call _ _ (CResources i)); [done| |done|]
  | |- logs (call _ (ocf_GetResource ?i ?h) _ ≫= _) _ => apply (entry_call _ _ (CResource i h)); [done| |done|]
  | |- logs (call _ (ocf_DisownDevice ?i) _ ≫= _) _ => apply (entry_call _ _ (CDisown i)); [done| |done|]
  | |- logs (pure _ _ ≫= _) _ => apply entry_pure
  | |- logs (_ ≫= _) _ => apply entry_quiet; [solve [quiet_tac]|]
  | |- logs _ (fun r ls => entry_end r (_ ++ _ :: ls)) => apply entry_extend
  | |- logs _ (fun r ls => entry_end r (_ ++ ls)) => apply entry_done; [solve [quiet_tac]|]
  | |- read_first _ => by apply read_first_none
  end.
(** An update after the two reads. *)
Lemma entry_update_call id href d (k : unit → MM unit) failed :
  (∀ a, quiet (k a)) →
  logs (call initialized (ocf_UpdateResource id href d) failed ≫= k)
    (fun r ls => entry_end r ((([] ++ [(CResources id, true)]) ++ [(CResource id href, true)]) ++ ls)).
Proof.
  intros Hk. eapply logs_bind; [by apply (logs_call _ failed (CUpdate id href d))| |].
  - intros a ls ->. eapply logs_conseq; [apply Hk|]. intros r ls [-> [b ->]]. split; [apply read_first_update|done].
  - intros s ls H. destruct s; cbn in H; [subst ls|destruct H as (-> & [=] & _)|destruct H as (-> & _ & Hi)].
    + split; [apply read_first_update|done].
    + split; [by apply read_first_none|exact Hi].
Qed.

Lemma entry_calls selMenu : logs (entry initialized discoveryTimeout selMenu) entry_end.
Proof.
  unfold entry. repeat case_match; apply entry_start.
  - apply entry_done; [apply quiet_printMenu|by apply read_first_none].
  - unfold entry_discover. repeat entry_step.
  - unfold entry_own. repeat entry_step.
  - unfold entry_resources, show_resources. repeat entry_step.
  - unfold entry_resource, show_resources, show_resource. repeat entry_step.
  - unfold entry_update, show_resources, show_resource.
    repeat first [apply entry_update_call; solve [quiet_tac] | entry_step].
  - unfold entry_disown. repeat entry_step.
  - intros w. unfold entry_exit. destruct initialized eqn:Ei; [|exists []; split; [constructor|by split; [apply read_first_none|]]].
    destruct (ocf_Close (m_env w)) as [[u|err] e] eqn:Ec.
    + exists [(CClose, true)]. split; [|by split; [apply read_first_none|]].
      econstructor; [|constructor]. unfold calls. cbn. by rewrite Ec.
    + exists [(CClose, false)]. split; [|by split; [apply read_first_none|]].
      econstructor; [|constructor]. unfold calls. cbn. by rewrite Ec.
  - apply entry_done; [apply quiet_ret|by apply read_first_none].
Qed.

(** ** Sessions *)

(** [m] reads forward, and only stops by a break or in the ways of the program. *)
Definition consumes {A} (m : MM A) : Prop := ∀ w, (length (m_in (m w).2) <= length (m_in w))%nat.
Lemma consumes_bind {A B} (m : MM A) (k : A → MM B) : consumes m → (∀ a, consumes (k a)) → consumes (m ≫= k).
Proof.
  intros Hm Hk w. specialize (Hm w). unfold mbind, MM_bind. destruct (m w) as [[a|s] w1]; [|done].
  specialize (Hk a w1). cbn in *. lia.
Qed.
Lemma consumes_out l : consumes (out l).
Proof. intros w. done. Qed.
Lemma consumes_ret {A} (a : A) : consumes (mret a).
Proof. intros w. done. Qed.
Lemma consumes_Scan : consumes Scan.
Proof. intros w. unfold Scan. destruct (m_in w) as [|l ls] eqn:Ei; cbn; rewrite ?Ei; cbn; lia. Qed.
Lemma consumes_call {A} (op : ME E A) failed : consumes (call initialized op failed).
Proof. intros w. unfold call. destruct initialized; [|done]. by destruct (op (m_env w)) as [[?|?] ?]. Qed.
Lemma consumes_pure {A} (r : result A) failed : consumes (pure r failed).
Proof. intros w. by destruct r. Qed.
Lemma consumes_exit : consumes (entry_exit initialized).
Proof. intros w. unfold entry_exit. destruct initialized; [|done]. by destruct (ocf_Close (m_env w)) as [[?|?] ?]. Qed.
Create HintDb consumes.
#[local] Hint Resolve consumes_out consumes_ret consumes_Scan consumes_call consumes_pure consumes_exit : consumes.
Ltac consumes_tac :=
  repeat match goal with
         | |- consumes (_ ≫= _) => apply consumes_bind
         | |- consumes _ => solve [auto with consumes nocore]
         | |- ∀ _, _ => intro
         end.
Lemma consumes_printMenu : consumes printMenu.
Proof. unfold printMenu. consumes_tac. Qed.
Lemma consumes_entry selMenu : consumes (entry initialized discoveryTimeout selMenu).
Proof.
  unfold entry, entry_discover, entry_own, entry_resources, entry_resource, entry_update, entry_disown,
    show_resources, show_resource, select_device, prompt, say.
  repeat case_match; consumes_tac. apply consumes_printMenu.
Qed.

(** How a session ends. *)
Definition session_end (r : unit + Stop) (rest : list string) : Prop :=
  match r with
  | inl _ => rest = []
  | inr s => s = Exit0 ∨ (initialized = false ∧ ∃ err, s = Panic err)
  end.
Lemma round_calls text :
  logs (breaking (entry initialized discoveryTimeout (ParseInt32 text)) ≫= λ _, printMenu)
    (fun r ls => read_first ls ∧ match r with
                                 | inl _ => True
                                 | inr s => s = Exit0 ∨ (initialized = false ∧ ∃ err, s = Panic err)
                                 end).
Proof.
  intros w. destruct (entry_calls (ParseInt32 text) w) as (ls & Hr & Hf & Hs).
  unfold mbind, MM_bind, breaking.
  assert (Hmenu : ∀ w1, runs calls (m_env w) ls (m_env w1) →
    ∃ ls, runs calls (m_env w) ls (m_env (printMenu w1).2) ∧ read_first ls ∧
      match (printMenu w1).1 with inl _ => True | inr s => s = Exit0 ∨ (initialized = false ∧ ∃ err, s = Panic err) end)
    by (intros w1 H1; by exists ls).
  destruct (entry _ _ _ w) as [[a|[| |err]] w1]; cbn in Hr, Hs.
  - by apply Hmenu.
  - by apply Hmenu.
  - exists ls. split; [exact Hr|]. split; [exact Hf|by left].
  - exists ls. split; [exact Hr|]. split; [exact Hf|right; eauto].
Qed.
Lemma scan_loop_spec fuel w :
  (length (m_in w) < fuel)%nat →
  ∃ r w' ls, scan_loop initialized discoveryTimeout fuel w = (Some r, w') ∧ session_end r (m_in w') ∧
    runs calls (m_env w) ls (m_env w') ∧ read_first ls.
Proof.
  revert w. induction fuel as [|f IH]; intros w Hf; [lia|]. cbn [scan_loop]. unfold Scan.
  destruct (m_in w) as [|text rest] eqn:Ei.
  - exists (inl tt), w, []. repeat split; [exact Ei|constructor|by apply read_first_none].
  - set (w1 := {| m_env := m_env w; m_in := rest; m_out := m_out w |}).
    destruct (round_calls text w1) as (ls & Hr & Hrd & Hs).
    assert (Hc : consumes (breaking (entry initialized discoveryTimeout (ParseInt32 text)) ≫= λ _, printMenu)).
    { apply consumes_bind; [|intros _; apply consumes_printMenu]. intros w2. unfold breaking.
      pose proof (consumes_entry (ParseInt32 text) w2) as H. by destruct (entry _ _ _ w2) as [[?|[]] ?]. }
    specialize (Hc w1). revert Hr Hs Hc. cbn -[breaking entry printMenu].
    set (m := (breaking (entry initialized discoveryTimeout (ParseInt32 text)) ≫= λ _, printMenu) : MM unit).
    destruct (m w1) as [[u|s] w2]; cbn; intros Hr Hs Hc.
    + destruct (IH w2) as (r & w' & ls2 & E2 & He & Hr2 & Hrd2); [cbn in *; lia|].
      exists r, w', (ls ++ ls2). split; [exact E2|]. split; [exact He|].
      split; [eapply runs_app; [exact Hr|exact Hr2]|by apply read_first_app].
    + exists (inr s), w2, ls. by repeat split.
Qed.

(** C34 Every session of the menu ends: with as many rounds as there are lines of input, plus
    one, the program leaves its loop, either because the input is used up, or by the exit of
    the menu, or, when there is no client, by a panic.  What the session does with the client
    is a sequence of its operations in which each update of a resource comes right after a
    successful read of that resource, and that after a successful read of the resources of
    its device. *)
Theorem scanner_spec fuel w :
  (length (m_in w) < fuel)%nat →
  ∃ r w' ls, scanner initialized discoveryTimeout fuel w = (Some r, w') ∧ session_end r (m_in w') ∧
    runs calls (m_env w) ls (m_env w') ∧ read_first ls.
Proof.
  intros Hf. unfold scanner. pose proof (consumes_printMenu w) as Hc.
  assert (Heq : m_env (printMenu w).2 = m_env w) by done.
  destruct (printMenu w) as [r0 w0]. cbn in Hc, Heq.
  destruct (scan_loop_spec fuel w0) as (r & w' & ls & E1 & He & Hr & Hrd); [lia|].
  exists r, w', ls. by rewrite <- Heq.
Qed.
End Sessions.
