(* ===== verification/ClientDetailsProps.v ===== *)
(** * ClientDetailsProps: what a search with details returns

    The result of [GetDevicesDetails] as a function of what its goroutines reported, the
    ownership status of a device, the invariant of the SDK through a search, and the iterator
    over the resources of a device. *)

From S2P Require Export ClientDetails ClientCommandsProps.

Section Search.
Context `{HKit : Kit} `{HCache : GoCache} `{HLaws : !GoCacheLaws} `{HDE : !DevicesEnv}.
Context `{HCore : CoreEnv} `{HReq : !RequestEnv} `{HStatus : CoapStatus} `{HLib : DetailsLib} `{HCborD : Cbor DeviceRep} `{HIntoD : !CborInto DeviceRep}.
Context (status_Error : Message → error → error).
Context (deviceExpiration : Z) (disableUDPEndpoints useDeviceIDInQuery : bool).
Context (ownerID : result string).
Context {T : Type} (of_device : DeviceRep → T).
Abbreviation DetWorld := (@DetWorld _ _ HDE _ T).
Abbreviation LM := (ME DetWorld).

(** ** The ownership status *)

(** What the [OwnershipStatus] of a device should be, from its doxm resource. *)
Definition status_of (doxm : Doxm) : OwnershipStatus :=
  if bool_decide (doxm_OwnerID doxm = uuid_Nil) then OwnershipStatus_ReadyToBeOwned
  else if bool_decide (doxm_OwnerID doxm = sdk_ownerID ownerID) then OwnershipStatus_Owned
  else OwnershipStatus_OwnedByOther.
Definition status_ok (d : DeviceDetails T) : Prop :=
  match dd_Ownership d with
  | Some doxm => dd_OwnershipStatus d = status_of doxm
  | None => dd_OwnershipStatus d ∈ [OwnershipStatus_Unknown; OwnershipStatus_OwnedByOther; ""]
  end.
Definition noted_ok (o : ownership) : Prop :=
  own_doxm o = None → own_status o ∈ [OwnershipStatus_Unknown; OwnershipStatus_OwnedByOther; ""].

Lemma status_ok_set o d : noted_ok o → dd_Ownership d = None → status_ok (set_one_ownership (sdk_ownerID ownerID) o d).
Proof.
  intros Ho Hd. unfold status_ok, set_one_ownership. destruct (own_doxm o) as [doxm|] eqn:E; [done|].
  cbn. rewrite Hd. by apply Ho.
Qed.

Lemma in_sdk_run {A} (m : ME SdkWorld A) (w : DetWorld) :
  let '(r, w') := in_sdk m w in
  r = (m (dw_sdk w)).1 ∧ dw_sdk w' = (m (dw_sdk w)).2 ∧ dw_res w' = dw_res w ∧ dw_owns w' = dw_owns w ∧
  dw_wasSet w' = dw_wasSet w.
Proof. unfold in_sdk. by destruct (m (dw_sdk w)). Qed.

(** ** What is reported stays consistent *)

Definition search_ok (w : DetWorld) : Prop :=
  Forall status_ok (dw_res w) ∧ map_Forall (fun _ o => noted_ok o) (dw_owns w).
Lemma search_ok_sdk {A} (m : ME SdkWorld A) : keeps search_ok (in_sdk m).
Proof.
  intros w Hw. pose proof (in_sdk_run m w) as H. destruct (in_sdk m w) as [r w'].
  destruct H as (_&_&H1&H2&_). unfold search_ok. cbn [snd]. by rewrite H1, H2.
Qed.
#[local] Hint Resolve search_ok_sdk : keeps.
Lemma search_ok_found p : keeps search_ok (found_of p).
Proof. apply search_ok_sdk. Qed.
Lemma search_ok_wasSet id : keeps search_ok (set_wasSet id).
Proof. by intros w Hw. Qed.
Lemma search_ok_devices d : status_ok d → keeps search_ok (devices d).
Proof.
  intros Hd w [H1 H2]. split; [|done]. cbn. apply Forall_app. split; [done|]. by constructor.
Qed.
Lemma search_ok_owns id o : noted_ok o → keeps search_ok (ownerships id o).
Proof. intros Ho w [H1 H2]. split; [done|]. cbn. by apply map_Forall_insert_2. Qed.
#[local] Hint Resolve search_ok_found search_ok_wasSet : keeps.

(** What a call returns, on the worlds of a search. *)
Definition gives {A} (m : LM A) (P : A → Prop) : Prop :=
  keeps search_ok m ∧ ∀ w a w', m w = (Ok a, w') → P a.
Lemma gives_bind {A B} (m : LM A) (k : A → LM B) P Q :
  gives m P → (∀ a, P a → gives (k a) Q) → gives (m ≫= k) Q.
Proof.
  intros [Hm Pm] Hk. split.
  - intros w Hw. specialize (Hm w Hw). unfold mbind, ME_bind. destruct (m w) as [[a|e] w'] eqn:E; [|exact Hm].
    by apply (Hk a (Pm _ _ _ E)).
  - intros w b w' H. apply run_bind_Ok in H as (a & w1 & Ha & Hb). by eapply (Hk a (Pm _ _ _ Ha)).
Qed.
Lemma gives_keeps {A} (m : LM A) : keeps search_ok m → gives m (fun _ => True).
Proof. by split. Qed.
Lemma gives_ret {A} (a : A) (P : A → Prop) : P a → gives (mret a) P.
Proof. intros Ha. split; [apply keeps_ret|]. by intros w b w' [= <- _]. Qed.
Lemma gives_keeps_bind {A B} (m : LM A) (k : A → LM B) Q :
  keeps search_ok m → (∀ a, gives (k a) Q) → gives (m ≫= k) Q.
Proof. intros Hm Hk. eapply gives_bind; [by apply gives_keeps|]. by intros a _. Qed.
Lemma gives_catch {A} (m : LM A) P :
  gives m P → gives (catch m) (fun r => match r with Ok a => P a | Err _ => True end).
Proof.
  intros [Hm Pm]. split; [by apply keeps_catch|]. intros w r w'. unfold catch. destruct (m w) as [[a|e] w1] eqn:E;
    intros [= <- <-]; [by eapply Pm|done].
Qed.

Lemma gives_details dev links gd opts :
  (∀ f, gd = Some f → ∀ d l o, keeps search_ok (f d l o)) →
  gives (getDeviceDetails (T := T) dev links gd opts) (fun d => dd_Ownership d = None ∧ status_ok d).
Proof.
  intros Hgd. unfold getDeviceDetails. apply gives_keeps_bind; [auto with keeps|intros f].
  apply gives_keeps_bind; [destruct gd; [by eapply Hgd|apply keeps_ret]|intros details].
  apply gives_keeps_bind; [auto with keeps|intros f']. apply gives_ret. split; [done|]. unfold status_ok. cbn. set_solver.
Qed.
Lemma setOwnership_one (d : DeviceDetails T) o :
  default zero_details (setOwnership (sdk_ownerID ownerID) {[ dd_ID d := d ]} [(dd_ID d, o)] !! dd_ID d) =
  match dd_Ownership d with None => set_one_ownership (sdk_ownerID ownerID) o d | Some _ => d end.
Proof.
  unfold setOwnership. cbn. rewrite lookup_singleton_eq. destruct (dd_Ownership d).
  - by rewrite lookup_singleton_eq.
  - by rewrite lookup_insert_eq.
Qed.
Lemma gives_client_details dev links gd opts :
  (∀ f, gd = Some f → ∀ d l o, keeps search_ok (f d l o)) →
  gives (Client_getDeviceDetails (T := T) ownerID dev links gd opts) status_ok.
Proof.
  intros Hgd. unfold Client_getDeviceDetails. eapply gives_bind; [by apply gives_details|intros d [Hd Hs]].
  eapply (gives_bind _ _ noted_ok).
  - destruct (dd_IsSecured d); [|apply gives_ret; unfold noted_ok; cbn; set_solver].
    apply gives_keeps_bind; [keeps_tac|intros [doxm|err]]; apply gives_ret; unfold noted_ok; [done|].
    destruct (isDeviceOwnedByOther err); cbn; set_solver.
  - intros o Ho. apply gives_ret. rewrite setOwnership_one, Hd. by apply status_ok_set.
Qed.

(** ** The goroutines of a search *)

Abbreviation noting f := (getDetails_noting disableUDPEndpoints f).
Abbreviation job ts f b := (run_job status_Error deviceExpiration disableUDPEndpoints ownerID of_device ts f b).

Lemma search_ok_noting (f : GetDetailsFunc (T := T)) d links opts : keeps search_ok (noting f d links opts).
Proof.
  unfold getDetails_noting, of_app. keeps_tac; apply search_ok_owns; unfold noted_ok; cbn; [done|set_solver].
Qed.
#[local] Hint Resolve search_ok_noting : keeps.
Lemma gives_devices (m : LM (DeviceDetails T)) (k : DeviceDetails T → LM unit) :
  gives m status_ok → (∀ d, status_ok d → keeps search_ok (k d)) →
  keeps search_ok (r ← catch m; match r with Ok d => k d | Err _ => mret tt end).
Proof.
  intros Hm Hk. destruct (gives_catch _ _ Hm) as [Hc Pc]. intros w Hw. specialize (Hc w Hw).
  unfold mbind, ME_bind. destruct (catch m w) as [[r|e] w1] eqn:E; [|exact Hc].
  destruct r as [d|e]; [|exact Hc]. by apply (Hk d (Pc _ _ _ E)).
Qed.
Lemma search_ok_append_first ts types d : status_ok d → keeps search_ok (append_first (T := T) ts types d).
Proof.
  intros Hd. induction ts as [|t ts IH]; cbn [append_first]; [apply keeps_ret|].
  case_bool_decide; [by apply search_ok_devices|exact IH].
Qed.
Lemma search_ok_byIP ip ts f :
  keeps search_ok (getDevicesAppendDeviceByIP status_Error deviceExpiration disableUDPEndpoints ownerID of_device
                     ip ts (noting f)).
Proof.
  unfold getDevicesAppendDeviceByIP.
  assert (Hg : gives (GetDeviceDetailsByIP status_Error deviceExpiration disableUDPEndpoints ownerID of_device ip
                        [ByIPDetails (noting f)]) status_ok).
  { unfold GetDeviceDetailsByIP. apply gives_keeps_bind; [auto with keeps|intros dl]. apply gives_client_details.
    intros g [= <-] d l o. apply search_ok_noting. }
  destruct (gives_catch _ _ Hg) as [Hc Pc]. intros w Hw. specialize (Hc w Hw). unfold mbind, ME_bind.
  destruct (catch _ w) as [[r|e] w1] eqn:E; [|exact Hc]. specialize (Pc _ _ _ E).
  destruct r as [d|e]; [|by case_bool_decide]. destruct (GetResourceLinks _ _) as [|l _]; [exact Hc|].
  destruct ts as [|t ts]; [by apply search_ok_devices|by apply search_ok_append_first].
Qed.
Lemma search_ok_close p : keeps search_ok (close_found (T := T) p).
Proof. apply search_ok_sdk. Qed.
#[local] Hint Resolve search_ok_close : keeps.
Lemma search_ok_handle h f newdev :
  dh_getDetails h = noting f →
  keeps search_ok (handler_Handle deviceExpiration disableUDPEndpoints h newdev).
Proof.
  intros Hh. unfold handler_Handle. apply keeps_bind; [auto with keeps|intros r].
  apply keeps_bind; [auto with keeps|intros [links|err]]; [|keeps_tac].
  apply keeps_bind; [auto with keeps|intros fd]. destruct (negb _); [apply keeps_ret|].
  apply gives_devices; [|intros d Hd; by apply search_ok_devices]. unfold handler_getDeviceDetails.
  apply gives_keeps_bind; [auto with keeps|intros g]. apply gives_keeps_bind; [auto with keeps|intros b].
  eapply gives_bind.
  - apply gives_details. intros g'. rewrite Hh. destruct b; [done|]. intros [= <-] d l o. apply search_ok_noting.
  - intros d [_ Hd]. apply gives_keeps_bind; [auto with keeps|intros]. by apply gives_ret.
Qed.
Lemma search_ok_job ts f b j : keeps search_ok (job ts (noting f) b j).
Proof.
  destruct j as [ip|[d|err]]; cbn [run_job]; [apply search_ok_byIP|by eapply search_ok_handle|apply keeps_ret].
Qed.

(** ** The result *)

Abbreviation search opts sch net :=
  (GetDevicesDetails status_Error deviceExpiration disableUDPEndpoints useDeviceIDInQuery ownerID of_device
     opts sch net).

Lemma merged_head (l : list (DeviceDetails T)) d :
  merged l = Some d → ∃ d0, d0 ∈ l ∧ dd_ID d = dd_ID d0 ∧ dd_Ownership d = dd_Ownership d0 ∧
                            dd_OwnershipStatus d = dd_OwnershipStatus d0.
Proof. destruct l as [|d0 l]; [done|]. intros [= <-]. exists d0. split; [by left|done]. Qed.
Lemma elem_of_with_id id (l : list (DeviceDetails T)) d : d ∈ with_id id l ↔ d ∈ l ∧ dd_ID d = id.
Proof. unfold with_id. rewrite list_elem_of_In, filter_In, <-list_elem_of_In, bool_decide_eq_true. done. Qed.

Definition with_ownership (owns : gmap string ownership) (id : string) (d : DeviceDetails T) : DeviceDetails T :=
  match dd_Ownership d, owns !! id with
  | None, Some o => set_one_ownership (sdk_ownerID ownerID) o d
  | _, _ => d
  end.

(** C30 The result of a search, whatever the network answers and in whatever order the
    goroutines end: there is one entry per ID that a goroutine reported; it merges what was
    reported under that ID (the first report, with the endpoints of all and the last details)
    and has the ownership that was noted for the ID, unless the report had one; the entry is
    under its own ID, and its ownership status is that of its doxm resource. *)
Theorem search_result opts sch net (w w' : DetWorld) m :
  dw_res w = [] → dw_owns w = ∅ → (∀ owns, sc_owns sch owns ≡ₚ map_to_list owns) →
  search opts sch net w = (Ok m, w') →
  ∀ id, m !! id = with_ownership (dw_owns w') id <$> merged (with_id id (dw_res w')) ∧
        ∀ d, m !! id = Some d → dd_ID d = id ∧ status_ok d.
Proof.
  intros Hres Howns Hord H id. unfold GetDevicesDetails in H.
  apply run_bind_Ok in H as (t & w1 & H1 & H). pose proof (search_ok_sdk (dm now) w) as I1.
  rewrite H1 in I1. apply run_bind_Ok in H as (ips & w2 & H2 & H).
  match type of H2 with in_sdk ?m _ = _ => pose proof (search_ok_sdk m w1) as I2 end. rewrite H2 in I2.
  destruct (Discovery.GetDevicesByMulticast (sc_groups sch) net) as [r calls].
  apply run_bind_Ok in H as (u & w3 & H3 & H).
  match type of H3 with each ?f ?l _ = _ => pose proof (keeps_each search_ok f l ltac:(intros; apply search_ok_job) w2) as I3 end.
  rewrite H3 in I3. cbn [snd] in I1, I2, I3.
  assert (Hok : search_ok w3) by (apply I3, I2, I1; split; [by rewrite Hres|rewrite Howns; apply map_Forall_empty]).
  apply run_bind_Ok in H as (u' & w4 & H4 & H). unfold lift in H4. injection H4 as _ <-.
  apply run_bind_Ok in H as (v & w5 & H5 & H). injection H5 as <- <-. injection H as <- <-. clear H1 H2 H3 I1 I2 I3.
  assert (E : setOwnership (sdk_ownerID ownerID) (mergeDevices (dw_res w3)) (sc_owns sch (dw_owns w3)) !! id =
              with_ownership (dw_owns w3) id <$> merged (with_id id (dw_res w3))).
  { rewrite (setOwnership_spec _ _ (dw_owns w3) _ id (Hord _)), mergeDevices_spec. unfold with_ownership.
    destruct (merged _) as [d|]; [|done]. cbn. destruct (dd_Ownership d); [done|]. by destruct (dw_owns w3 !! id). }
  split; [exact E|]. intros d. rewrite E. intros (d1 & Hd1 & ->)%fmap_Some.
  apply merged_head in Hd1 as (d0 & [Hd0 Hid]%elem_of_with_id & E1 & E2 & E3).
  destruct Hok as [Hr Ho]. rewrite Forall_forall in Hr. specialize (Hr d0 Hd0).
  assert (Hs : status_ok d1) by (unfold status_ok in *; by rewrite E2, E3).
  unfold with_ownership. destruct (dd_Ownership d1) eqn:Eo; [split; [congruence|done]|].
  destruct (dw_owns w3 !! id) as [o|] eqn:El; [|split; [congruence|done]]. split.
  - unfold set_one_ownership. destruct (own_doxm o); cbn; congruence.
  - apply status_ok_set; [by eapply Ho|done].
Qed.

(** ** The SDK through a search *)

Abbreviation on_sdk := (fun w : DetWorld => SdkInv (dw_sdk w)).
Lemma sdk_in {A} (m : ME SdkWorld A) : keeps SdkInv m → keeps on_sdk (in_sdk m).
Proof.
  intros Hm w Hw. specialize (Hm _ Hw). pose proof (in_sdk_run m w) as H. destruct (in_sdk m w) as [r w'].
  destruct H as (_&H&_). cbn. rewrite H. by destruct (m (dw_sdk w)).
Qed.
Lemma sdk_dv {A} (m : ME DvWorld A) f : adds [] m f → keeps on_sdk (in_sdk (dm m)).
Proof. intros Hm. apply sdk_in, keeps_dm. intros v. by eapply dvadds_CacheInv. Qed.
Lemma sdk_core {A} p (m : ME CWorld A) : (∀ o, keeps (in_order o) m) → keeps on_sdk (in_sdk (on_core p m)).
Proof. intros Hm. by apply sdk_in, keeps_on_core. Qed.
Lemma sdk_found p : keeps on_sdk (found_of p).
Proof. apply sdk_in, keeps_found. Qed.
Lemma sdk_modify f : (∀ w : DetWorld, dw_sdk (f w) = dw_sdk w) → keeps on_sdk (modify f).
Proof. intros Hf w Hw. cbn. by rewrite Hf. Qed.
Lemma sdk_devices d : keeps on_sdk (devices d).
Proof. by apply sdk_modify. Qed.
Lemma sdk_ownerships id o : keeps on_sdk (ownerships id o).
Proof. by apply sdk_modify. Qed.
Lemma sdk_wasSet id : keeps on_sdk (set_wasSet id).
Proof. by apply sdk_modify. Qed.
Lemma sdk_getOwnership p links : keeps on_sdk (in_sdk (on_core p (GetOwnership links))).
Proof. apply sdk_core. intros o. apply orderly_GetOwnership. Qed.
Lemma sdk_close p : keeps on_sdk (close_found p).
Proof. eapply sdk_dv, dvadds_close. Qed.
Lemma dvadds_store_discovered d : adds [] (store_discovered deviceExpiration d) (fun r => [r.1]).
Proof.
  unfold store_discovered. eapply dvadds_bind; [apply dvadds_newDevice|intros p].
  eapply dvadds_bind; [apply dvadds_now|intros t]. apply dvadds_updateOrStore. set_solver.
Qed.
#[local] Hint Resolve sdk_found sdk_devices sdk_ownerships sdk_wasSet sdk_getOwnership sdk_close : keeps.

(** A function of the application that keeps the state of the SDK in order. *)
Definition app_keeps (f : GetDetailsFunc (T := T)) : Prop := ∀ d links o, keeps SdkInv (f d links o).
Definition closure_keeps (f : SearchDetailsFunc) : Prop := ∀ d links o, keeps on_sdk (f d links o).

Lemma app_keeps_default : app_keeps (getDetails status_Error of_device).
Proof.
  intros d links o. unfold getDetails. destruct (GetResourceLinks links _) as [|link _]; [apply keeps_fail|].
  apply keeps_bind; [|intros r; keeps_tac]. apply keeps_on_core. intros id. apply orderly_GetC.
Qed.
Lemma sdk_noting f : app_keeps f → closure_keeps (noting f).
Proof.
  intros Hf d links o. unfold getDetails_noting, of_app. apply keeps_bind; [apply sdk_in, Hf|intros r]. keeps_tac.
Qed.
Lemma sdk_details dev links gd opts :
  (∀ f, gd = Some f → closure_keeps f) → keeps on_sdk (getDeviceDetails dev links gd opts).
Proof.
  intros Hgd. unfold getDeviceDetails. keeps_tac. apply (Hgd _ eq_refl).
Qed.
Lemma sdk_client_details dev links f opts :
  closure_keeps f → keeps on_sdk (Client_getDeviceDetails ownerID dev links (Some f) opts).
Proof.
  intros Hf. unfold Client_getDeviceDetails. apply keeps_bind; [|intros; keeps_tac].
  apply sdk_details. by intros g [= <-].
Qed.
Lemma sdk_append_first ts types d : keeps on_sdk (append_first ts types d).
Proof. induction ts; cbn [append_first]; keeps_tac. Qed.
Lemma sdk_job ts f b j : closure_keeps f → keeps on_sdk (job ts f b j).
Proof.
  intros Hf. destruct j as [ip|[d|err]]; cbn [run_job]; [..|apply keeps_ret].
  - unfold getDevicesAppendDeviceByIP. apply keeps_bind.
    + apply keeps_catch. unfold GetDeviceDetailsByIP. apply keeps_bind; [|intros dl; by apply sdk_client_details].
      eapply sdk_dv, dvadds_GetDeviceByIP.
    + intros r. keeps_tac. apply sdk_append_first.
  - unfold handler_Handle. apply keeps_bind; [eapply sdk_dv, dvadds_store_discovered|intros r].
    apply keeps_bind; [eapply keeps_catch, sdk_dv, dvadds_getLinksDevice|intros [links|err]].
    + apply keeps_bind; [auto with keeps|intros fd]. destruct (negb _); [apply keeps_ret|].
      apply keeps_bind; [apply keeps_catch|intros; keeps_tac]. unfold handler_getDeviceDetails. keeps_tac.
      apply sdk_details. intros g. destruct a0; [done|]. by intros [= <-].
    + apply keeps_bind; [auto with keeps|intros fd]. apply keeps_bind; [|intros; keeps_tac].
      eapply sdk_dv, dvadds_LoadAndDelete.
Qed.

(** The function that a search uses is the default or one of its options. *)
Lemma resolve_getDetails opts cfg :
  app_keeps (gd_getDetails cfg) → Forall (fun o => match o with DevicesDetails f => app_keeps f | _ => True end) opts →
  app_keeps (gd_getDetails (resolve applyOnGetDevices cfg opts)).
Proof.
  revert cfg. unfold resolve. induction opts as [|o opts IH]; intros cfg Hc Ho; [exact Hc|].
  inversion Ho as [|? ? H1 H2]; subst. cbn [foldl]. apply IH; [|done]. by destruct o.
Qed.

(** A search keeps the state of the SDK in order, whatever its goroutines and the network
    do, as long as the functions of the application do: the cache stays keyed by the IDs of
    its devices and the tables of connections stay well formed.  The default function that
    reads the device resource does. *)
Theorem search_keeps_sdk opts sch net w :
  Forall (fun o => match o with DevicesDetails f => app_keeps f | _ => True end) opts →
  SdkInv (dw_sdk w) → SdkInv (dw_sdk (search opts sch net w).2).
Proof.
  intros Ho. enough (keeps on_sdk (search opts sch net)) as H by exact (H w).
  unfold GetDevicesDetails. apply keeps_bind; [eapply sdk_dv, dvadds_now|intros t].
  apply keeps_bind; [eapply sdk_dv, dvadds_cop_shrinks; intros; apply shrinks_refl|intros ips].
  destruct (Discovery.GetDevicesByMulticast _ _) as [r calls].
  apply keeps_bind; [|intros; keeps_tac]. apply keeps_each. intros j. apply sdk_job, sdk_noting.
  apply resolve_getDetails; [apply app_keeps_default|done].
Qed.

(** ** One device *)

(** The ownership status that the details of one device carry: for a secured device whose
    doxm resource can be read, that of its owner; for one that refuses the client, owned by
    another; and in every other case (a device that is not secured, or another error) the
    empty status, not [OwnershipStatus_Unknown] as the comment on that constant says. *)
Theorem details_status dev links gd opts (w w' : DetWorld) d :
  Client_getDeviceDetails ownerID dev links gd opts w = (Ok d, w') →
  ∃ d0 w1, getDeviceDetails dev links gd opts w = (Ok d0, w1) ∧
    d = if dd_IsSecured d0 then
          match (on_core dev (GetOwnership links) (dw_sdk w1)).1 with
          | Ok doxm => dd_set_ownership (Some doxm) (status_of doxm) d0
          | Err err => dd_set_ownership None (if isDeviceOwnedByOther err then OwnershipStatus_OwnedByOther else "") d0
          end
        else dd_set_ownership None "" d0.
Proof.
  unfold Client_getDeviceDetails. intros H. apply run_bind_Ok in H as (d0 & w1 & H0 & H).
  assert (Hd0 : dd_Ownership d0 = None).
  { unfold getDeviceDetails in H0. apply run_bind_Ok in H0 as (f & w2 & _ & H0).
    apply run_bind_Ok in H0 as (r & w3 & _ & H0). apply run_bind_Ok in H0 as (f' & w4 & _ & H0).
    by injection H0 as <- _. }
  apply run_bind_Ok in H as (o & w2 & Ho & H). rewrite setOwnership_one, Hd0 in H. injection H as <- <-.
  exists d0, w1. split; [done|]. unfold set_one_ownership. rewrite Hd0.
  destruct (dd_IsSecured d0); [|by injection Ho as <- _]. unfold mbind, ME_bind, catch, in_sdk in Ho.
  destruct (on_core dev (GetOwnership links) (dw_sdk w1)) as [[doxm|err] s]; injection Ho as <- _; cbn [fst].
  - done.
  - by destruct (isDeviceOwnedByOther err).
Qed.

(** A device that was found by address before and whose links cannot be read any more makes
    the goroutine of its address panic, and with it the program. *)
Lemma search_panics ip ts f (w : DetWorld) :
  (GetDevicesByIP deviceExpiration disableUDPEndpoints ip (sd_dv (dw_sdk w))).1 = Ok [] →
  (getDevicesAppendDeviceByIP status_Error deviceExpiration disableUDPEndpoints ownerID of_device ip ts f w).1 =
  Err ErrIndexOutOfRange.
Proof.
  intros H. unfold getDevicesAppendDeviceByIP, GetDeviceDetailsByIP, mbind at 1, ME_bind at 1, catch.
  unfold mbind at 1, ME_bind at 1, in_sdk, dm, run_dv, ClientDevices.GetDeviceByIP. unfold mbind at 1, ME_bind at 1.
  by destruct (GetDevicesByIP _ _ ip (sd_dv (dw_sdk w))) as [[[|]|] v].
Qed.
End Search.

(** ** Reading several resources *)

Section Iterator.
Context `{HKit : Kit} `{HCore : CoreEnv} `{HReq : !RequestEnv}.
Context (status_Error : Message → error → error).
Context {A : Type} `{HCbor : Cbor A} `{HInto : !CborInto A}.
Abbreviation CM := (ME CWorld).

(** The loop that the comment of [Next] shows, with a new receiver in each round: the values
    and the error of the iterator. *)
Fixpoint drain (n : nat) (v : Target A) (it : ResourceIterator) : CM (list (Target A) * option error) :=
  match n with
  | O => fail ErrOutOfFuel
  | S n' =>
      r ← Next status_Error v it;
      let '(more, v', it') := r in
      if (more : bool) then rest ← drain n' v it'; mret (v' :: rest.1, rest.2)
      else mret ([], it_Err it')
  end.
(** The reference: the resources are read in their order until one fails. *)
Fixpoint read_all (v : Target A) (links : ResourceLinks) : CM (list (Target A) * option error) :=
  match links with
  | [] => mret ([], None)
  | link :: links' =>
      r ← ClientCommands.GetResourceWithCodec status_Error link (VNDOCFCBORCodec A) v [];
      match r.1 with
      | Err err => mret ([], Some (MakeDataLoss (ErrWrap "could not get a resource value for the device" err)))
      | Ok _ => rest ← read_all v links'; mret (r.2 :: rest.1, rest.2)
      end
  end.

Lemma drain_from v rest done_ n w :
  (length rest < n)%nat →
  drain n v {| it_Err := None; it_links := done_ ++ rest; it_i := length done_ |} w = read_all v rest w.
Proof.
  revert done_ n w. induction rest as [|link rest IH]; intros pre n w Hn; (destruct n as [|n]; [cbn in Hn; lia|]);
    cbn [drain read_all]; unfold Next; cbn [it_Err it_links it_i].
  - by rewrite app_nil_r, lookup_ge_None_2 by lia.
  - rewrite list_lookup_middle by done. cbv zeta. unfold mbind, ME_bind.
    destruct (ClientCommands.GetResourceWithCodec _ link _ v [] w) as [[[[u|err] v']|e] w1]; [..|done]; cbn [fst snd].
    + replace (S (length pre)) with (length (pre ++ [link])) by (rewrite length_app; simpl; lia).
      cbn. replace (pre ++ link :: rest) with ((pre ++ [link]) ++ rest) by by rewrite <- app_assoc.
      rewrite IH by (cbn in Hn; lia). done.
    + done.
Qed.
(** Reading the resources of a device with the iterator ends after one round per link and one
    more, and reads exactly the resources of the links, in their order, up to the first that
    fails, whose error the iterator then carries. *)
Theorem iterator_reads_all links v n w :
  (length links < n)%nat →
  drain n v (GetResources links) w = read_all v links w.
Proof. exact (drain_from v links [] n w). Qed.
End Iterator.

(** ** Ownerships *)

(** The handler gets every ownership that was answered, once and in the order of the answers;
    the search asks for the status it was given, and an unknown status asks for nothing. *)
Lemma GetOwnerships_spec status (net : OwnershipNet) :
  let '(r, calls) := GetOwnerships status net in
  omap (fun c => match c with OhHandle d => Some d | OhError _ => None end) calls =
  match on_dial net, DiscoverDeviceOwnership status with
  | None, Ok opts => omap (fun a => match a.1 with AnsHandle d => Some d | _ => None end) (on_answers net opts)
  | _, _ => []
  end ∧ (is_ok r = true → 0 <= status <= 2).
Proof.
  unfold GetOwnerships. destruct (on_dial net); [done|].
  destruct (DiscoverDeviceOwnership status) as [opts|err] eqn:E; [|done]. split.
  - induction (on_answers net opts) as [|[[d|e|] [c|]] l IH]; cbn; [done|..]; by rewrite IH.
  - intros _. unfold DiscoverDeviceOwnership, DiscoverAllDevices, DiscoverOwnedDevices, DiscoverDisownedDevices in E.
    destruct (Z.eqb_spec status 0); [lia|]. destruct (Z.eqb_spec status 1); [lia|].
    destruct (Z.eqb_spec status 2); [lia|done].
Qed.
