(* ===== verification/ClientExamples.v ===== *)
(** * ClientExamples: the commands of the SDK at concrete inputs

    A device with the ID "a", secured, that accepts everything and answers searches and
    /oic/res; a client that keeps devices without an expiration. *)

From S2P Require Import ClientApiProps ClientOwnProps OwnershipProps.

#[local] Existing Instance ex_own_Uuids.
#[local] Existing Instance ex_own_Cred.
#[local] Existing Instance ex_own_Pem.
#[local] Existing Instance ex_own_Core.

(** ** Instances *)

(** An address is a scheme and a text; every host is the IPv4 address 10.0.0.1. *)
#[local] Instance sdk_Kit : Kit := {|
  Addr := (string * string)%type;
  ParseString s a := Ok (s, a);
  addr_GetScheme a := a.1;
  addr_GetHostname a := a.2;
  addr_GetPort a := 0;
  addr_SetPort a p := a;
  addr_SetScheme a s := (s, a.2);
  addr_String a := a.2;
  addr_URL a := a.1 +:+ "://" +:+ a.2;
  ParseIPZone s := (Some {| ip_bytes := [10; 0; 0; 1] |}, "");
  ip_String ip := "";
  str_contains a b := false;
  set_ToSlice := elements |}.

Definition sdk_link (rt href : string) : ResourceLink :=
  {| ID := ""; Href := href; ResourceTypes := [rt]; Interfaces := []; LinkPolicy := None;
     LinkEndpoints := LinkEndpoints (ex_own_link ""); Anchor := "ocf://a";
     LinkDeviceID := ""; InstanceID := 0; Title := ""; SupportedContentTypes := [] |}.
Definition sdk_links : ResourceLinks :=
  [sdk_link "oic.wk.d" "/oic/d"; sdk_link "oic.r.doxm" "/oic/sec/doxm"; sdk_link "oic.r.acl2" "/oic/sec/acl2";
   sdk_link "oic.r.pstat" "/oic/sec/pstat"; sdk_link "oic.r.coapcloudconf" "/cloud"; sdk_link "light" "/light/1"].
#[local] Instance sdk_DevicesEnv : DevicesEnv := {|
  DvEnv := Z;
  denv_now e := (e, e + 1);
  denv_multicast id e := ({| mc_dial := None; mc_answers := [AnsHandle sdk_links]; mc_err := None |}, e);
  denv_byIP e := (fun _ => {| mc_dial := None; mc_answers := []; mc_err := None |}, e);
  denv_resources d e := (Ok (("coap", "10.0.0.1:1"), sdk_links), e);
  denv_others e := ([], e) |}.
#[local] Instance sdk_Quiet : QuietCache.
Proof. intros e. reflexivity. Qed.
#[local] Instance sdk_Requests : RequestEnv := {|
  renv_Post c href format body opts e := (Ok (set_code codes_Changed opts), e);
  renv_Get c href opts e := (Ok (set_format AppCBOR (set_body href (set_code codes_Content NewMessage))), e);
  renv_Delete c href opts e := (Ok (set_code codes_Deleted NewMessage), e);
  renv_Observe c href opts e := (Ok 0%nat, e);
  renv_others e := ([], e) |}.
#[local] Instance sdk_QuietTables : QuietTables.
Proof. intros e. reflexivity. Qed.
#[local] Instance sdk_CborQ : Cbor MaintenanceUpdateRequest := {|
  cbor_Encode q := Ok "q"; cbor_Decode s := Err (ErrText "not needed") |}.
#[local] Instance sdk_CborM : Cbor Maintenance := {|
  cbor_Encode m := Ok "m"; cbor_Decode s := Ok zero_Maintenance |}.
#[local] Instance sdk_IntoQ : CborInto MaintenanceUpdateRequest := fun s v => (Err (ErrText "not needed"), v).
#[local] Instance sdk_IntoM : CborInto Maintenance := fun s v => (Ok tt, v).
Definition sdk_status (m : Message) (e : error) : error := ErrWrap "status" e.
Definition sdk_start : SdkWorld :=
  {| sd_dv := {| dv_cache := NewDeviceCache; dv_env := 1 |}; sd_core := ∅; sd_env := (0%nat, ""); sd_trace := [] |}.
Lemma sdk_start_ok : SdkInv sdk_start.
Proof. split; [apply CacheInv_New|]. intros p d. cbn. by rewrite lookup_empty. Qed.

(** ** Commands *)

Lemma run_pair {S A} (x : A * S) a : x.1 = a → x = (a, x.2).
Proof. intros <-. apply surjective_pairing. Qed.

#[local] Instance sdk_CborS : Cbor string := {| cbor_Encode s := Ok s; cbor_Decode s := Ok s |}.
#[local] Instance sdk_IntoS : CborInto string := fun s _ => (Ok tt, s).
(** Reading with a query, an entity tag and a codec of the call. *)
Definition sdk_options : list (@GetOption (Codec string)) :=
  [GetQuery "x=1"; GetETag (Some "tag"); GetInterface "oic.if.r"; GetCodec MakeRawVNDOCFCBORCodec].
Definition sdk_get : result (ClientCommands.Answer string) * SdkWorld :=
  Client_GetResource sdk_status 0 false true 2 "a" "/light/1" (TPlain "old") sdk_options sdk_start.
Lemma Client_GetResource_spec_witness :
  sdk_get.1 = Ok (Ok tt, TPlain "/light/1") ∧
  ∃ p link options, fd_deviceID (device_at p (dv_cache (sd_dv sdk_get.2))) = "a" ∧ GetDeviceID link = "a" ∧
    Href link = "/light/1" ∧
    default [] (m_queries (apply_options options)) = ["x=1"; "if=oic.if.r"; "di=a"] ∧
    m_etag (apply_options options) = Some "tag".
Proof.
  assert (H : sdk_get.1 = Ok (Ok tt, TPlain "/light/1")) by (vm_compute; reflexivity).
  split; [exact H|]. pose proof (run_pair sdk_get _ H) as Hrun. unfold sdk_get at 1 in Hrun.
  destruct (Client_GetResource_spec sdk_status 0 false true 2 "a" "/light/1" (TPlain "old") sdk_options
    sdk_start (Ok tt) (TPlain "/light/1") sdk_get.2 ltac:(done) ltac:(done) sdk_start_ok eq_refl Hrun)
    as (p&link&options&Hid&Hl&Hh&Hq&_&He&_).
  exists p, link, options. exact (conj Hid (conj Hl (conj Hh (conj Hq He)))).
Defined.

(** Reading twice, disowning, and reading again, while other goroutines connect to the devices
    and close the first one: another device object is connected in the end. *)
Definition sdk_busy : RequestEnv := {|
  renv_Post := renv_Post; renv_Get := renv_Get; renv_Delete := renv_Delete; renv_Observe := renv_Observe;
  renv_others e := ([(0%nat, TbConnect (LinkEndpoints (ex_own_link ""))); (0%nat, TbClose);
                     (1%nat, TbConnect (LinkEndpoints (ex_own_link "")))], e) |}.
Definition sdk_calls : list SdkCall :=
  [CallGet "a" "/light/1" MakeRawVNDOCFCBORCodec (TPlain "") [] None; CallDisown (Ok "owner") "a" [];
   CallGet "a" "/light/1" MakeRawVNDOCFCBORCodec (TPlain "") [] None].
Definition sdk_after : SdkWorld :=
  foldl (sdk_exec (HReq := sdk_busy) sdk_status 0 false true 2 false) sdk_start sdk_calls.
Lemma sdk_commands_invariant_witness :
  entries (w_cache (dv_cache (sd_dv sdk_after))) !! "a" = Some (1%nat, 0) ∧
  CacheInv (dv_cache (sd_dv sdk_after)) ∧
  (d_conn <$> sd_core sdk_after !! 0%nat) = Some ∅ ∧
  ∃ d, sd_core sdk_after !! 1%nat = Some d ∧ d_conn d ≠ ∅ ∧ slots_ok d.
Proof.
  assert (Hd : ∃ d, sd_core sdk_after !! 1%nat = Some d) by (eexists; vm_compute; reflexivity).
  destruct Hd as [d Hd]. split; [vm_compute; reflexivity|].
  destruct (sdk_commands_invariant (HReq := sdk_busy) sdk_status 0 false true 2 false sdk_calls (sd_dv sdk_start)
    (sd_env sdk_start) [] 1 d eq_refl) as [HC Hs]. split; [exact HC|]. split; [vm_compute; reflexivity|].
  exists d. split; [exact Hd|]. split; [|exact (Hs Hd)].
  assert (Hn : match sd_core sdk_after !! 1%nat with Some d => bool_decide (d_conn d ≠ ∅) | None => false end = true)
    by (vm_compute; reflexivity).
  rewrite Hd in Hn. exact (bool_decide_eq_true_1 _ Hn).
Defined.

(** The device as [GetDevice] finds it. *)
Definition sdk_got : result (nat * ResourceLinks) * SdkWorld := dm (Client_GetDevice 0 false 2 "a") sdk_start.
Definition sdk_got_links : ResourceLinks := match sdk_got.1 with Ok (_, l) => l | Err _ => [] end.
Lemma sdk_got_ok : sdk_got.1 = Ok (0%nat, sdk_got_links).
Proof. vm_compute. reflexivity. Qed.
Lemma sdk_got_run : dm (Client_GetDevice 0 false 2 "a") sdk_start = (Ok (0%nat, sdk_got_links), sdk_got.2).
Proof. exact (run_pair sdk_got _ sdk_got_ok). Qed.

Lemma reset_forgets_witness :
  let w' := sdk_exec sdk_status 0 false true 2 false sdk_start (CallDisown (Ok "owner") "a" []) in
  entries (w_cache (dv_cache (sd_dv sdk_got.2))) !! "a" = Some (0%nat, 0) ∧
  entries (w_cache (dv_cache (sd_dv w'))) !! "a" = None.
Proof.
  intros w'. split; [vm_compute; reflexivity|].
  exact (proj1 (reset_forgets sdk_status 0 false true 2 false (CallDisown (Ok "owner") "a" []) "a" 0 sdk_got_links
    sdk_start sdk_got.2 eq_refl ltac:(done) ltac:(done) sdk_start_ok sdk_got_run ltac:(vm_compute; reflexivity))).
Defined.

Definition sdk_onboard : result unit * SdkWorld :=
  OnboardDevice 0 false 2 "a" "github" "coaps+tcp://cloud" "code" "cloud" sdk_start.
Lemma OnboardDevice_exchange_witness :
  sdk_onboard.1 = Ok tt ∧
  ∃ l c c', cw_trace c = l ∧ updates l = [] ∧ cw_trace c' = sd_trace sdk_onboard.2 ∧
    onboard_exchange sdk_got_links "cloud" (cloud_update "github" "code" "coaps+tcp://cloud" "cloud") sdk_onboard.1 c c'.
Proof.
  split; [vm_compute; reflexivity|].
  pose proof (OnboardDevice_exchange 0 false 2 "a" "github" "coaps+tcp://cloud" "code" "cloud" 0 sdk_got_links
    sdk_start sdk_got.2 ltac:(done) ltac:(done) sdk_start_ok sdk_got_run ltac:(vm_compute; reflexivity)) as H.
  unfold sdk_onboard. destruct (OnboardDevice _ _ _ _ _ _ _ _ sdk_start) as [r w']. exact H.
Defined.

(** The transfer gives the device the ID "b". *)
Definition sdk_own_cfg (psk : string) : ownCfg :=
  {| psk := psk; sign := None; actionDuringOwn := Some (AppDuring (fun _ e => (Ok "b", e))); actionAfterOwn := None |}.
Definition sdk_owned : result string * SdkWorld :=
  ownDeviceWithSigners 0 false 2 (fun e => (Ok "", e)) (Ok "owner") "a" [2] (sdk_own_cfg "0123456789abcdef") sdk_start.
Lemma ownDeviceWithSigners_spec_witness :
  sdk_owned.1 = Ok "b" ∧ SdkInv sdk_owned.2 ∧ is_Some (entries (w_cache (dv_cache (sd_dv sdk_owned.2))) !! "b").
Proof.
  assert (H : sdk_owned.1 = Ok "b") by (vm_compute; reflexivity). split; [exact H|].
  pose proof (run_pair sdk_owned _ H) as Hrun. unfold sdk_owned at 1 in Hrun.
  exact (ownDeviceWithSigners_spec 0 false 2 _ _ "a" _ _ sdk_start "b" sdk_owned.2 ltac:(done) ltac:(done)
    sdk_start_ok Hrun).
Defined.

(** Without a key and a signer the transfer fails after the device has got its new ID; the
    device goes on answering as "a". *)
Definition sdk_not_owned : result string * SdkWorld :=
  ownDeviceWithSigners 0 false 2 (fun e => (Ok "", e)) (Ok "owner") "a" [2] (sdk_own_cfg "") sdk_start.
Definition sdk_own_error : error := match sdk_not_owned.1 with Err e => e | Ok _ => ErrText "" end.
Lemma failed_own_diverges_witness :
  sdk_not_owned.1 = Err sdk_own_error ∧
  ∀ n, (Client_GetDevice 0 false n "a" (sd_dv sdk_not_owned.2)).1 = Err ErrOutOfFuel.
Proof.
  assert (H : sdk_not_owned.1 = Err sdk_own_error) by (vm_compute; reflexivity). split; [exact H|]. intros n.
  pose proof (run_pair sdk_not_owned _ H) as Hrun. unfold sdk_not_owned at 1 in Hrun.
  assert (Hf : fd_deviceID (device_at 0 (dv_cache (sd_dv sdk_not_owned.2))) = "b") by (vm_compute; reflexivity).
  refine (failed_own_diverges 0 false 2 _ _ "a" _ _ sdk_start 0 sdk_got_links sdk_got.2 _ _ n ltac:(done) ltac:(done)
    sdk_start_ok eq_refl sdk_got_run ltac:(vm_compute; reflexivity) ltac:(vm_compute; reflexivity) Hrun _ _).
  - rewrite Hf. done.
  - intros e. rewrite Hf. cbn [denv_resources sdk_DevicesEnv fst]. unfold sdk_links. repeat constructor; done.
Defined.
