(* ===== verification/ApiExamples.v ===== *)
(** * ApiExamples: the owners and the construction of a client at concrete inputs

    The device of ClientExamples and the certificates of CertGenProps; a signer whose
    certificate is valid for ten seconds. *)

From S2P Require Import ClientApiProps ClientOwnProps OwnershipProps ClientExamples.
Import CertGenProps.Examples.

#[local] Existing Instance ex_own_Core.
#[local] Existing Instance sdk_Kit.
#[local] Existing Instance sdk_DevicesEnv.
#[local] Existing Instance sdk_Requests.
#[local] Existing Instance ex_gen_Cred.
#[local] Existing Instance ex_gen_Cred_laws.
#[local] Existing Instance ex_gen_Pem.
#[local] Existing Instance ex_gen_PemLaws.
#[local] Existing Instance ex_gen_Lib.
#[local] Existing Instance ex_gen_Create.
#[local] Existing Instance ex_gen_CertLaws.
#[local] Existing Instance ex_gen_Uuids.

(** ** A TLS library *)

Fixpoint unblocks (n : nat) (s : string) : list string :=
  match n with
  | O => []
  | S n => match unblock s with Some (d, rest) => d :: unblocks n rest | None => [] end
  end.
Lemma unblocks_blocks n ders : (String.length (blocks ders) <= n)%nat → unblocks n (blocks ders) = ders.
Proof.
  revert n. induction ders as [|d ders IH]; intros n Hn; [by destruct n|].
  change (blocks (d :: ders)) with (block d +:+ blocks ders) in *.
  pose proof (unblock_block d (blocks ders)) as Hd. pose proof (unblock_rest _ _ _ _ (le_n _) Hd) as Hlt.
  destruct n as [|n]; [lia|]. cbn [unblocks]. rewrite Hd, IH by lia. done.
Qed.
#[local] Instance api_Owner : OwnerLib := {|
  tls_X509KeyPair cert key := Ok {| tls_Certificate := unblocks (String.length cert) cert; tls_PrivateKey := Some ex_ca_key |};
  x509_MarshalECPrivateKey k := Ok "";
  time_ParseDuration s := Err (ErrText "no duration");
  tparse_ParseNow s g := (Ok 1000000000, g);
  jwt_ParseUnverified s := Ok ∅;
  gen_get (e : CEnv) := Z.of_nat e.1;
  gen_set g (e : CEnv) := (Z.to_nat g, e.2) |}.
Definition api_parse (der : string) : result Certificate :=
  match of_text (A := ExCert) der with
  | Some c => Ok (cert_fields (c : Cert))
  | None => Err (ErrText "malformed certificate")
  end.
#[local] Instance api_TlsLaws : TlsLaws api_parse.
Proof.
  split.
  - intros cas der key t [= <-]. split; [done|]. cbn [tls_Certificate].
    rewrite CreatePemChain_blocks. by apply unblocks_blocks.
  - intros der c. unfold api_parse. cbn. by destruct (of_text der) as [c'|]; intros [= ->].
Qed.

Definition api_app : ApplicationCallback :=
  {| GetManufacturerCertificateAuthorities := mret []; GetManufacturerCertificate := mret zero_TlsCertificate |}.
Definition api_owner_cfg : DeviceOwnershipSDKConfig :=
  {| oc_ID := "sdk"; oc_Cert := CreatePemChain [] (to_text (ex_ca : ExCert)); oc_CertKey := "key"; oc_ValidFrom := "";
     oc_CertExpiry := None; oc_CRLDistributionPoints := ["http://crl"]; oc_CreateSignerFunc := Some identity_signer |}.
Definition api_cfg : ClientConfig.Config :=
  {| DeviceCacheExpirationSeconds := 60; ObserverPollingIntervalSeconds := 0; ObserverFailureThreshold := 0;
     KeepAliveConnectionTimeoutSeconds := 0; MaxMessageSize := 0; DisablePeerTCPSignalMessageCSMs := true;
     DefaultTransferDurationSeconds := 30; cfg_UseDeviceIDInQuery := true;
     DeviceOwnershipSDK := Some api_owner_cfg; DeviceOwnershipBackend := None |}.

(** ** Witnesses *)

Lemma toDuration_spec_witness :
  toDuration 9223372036 0 = Ok 9223372036000000000 ∧
  toDuration 9223372037 0 = Err (ErrText "invalid value: interval overflows maximal duration").
Proof.
  split; [exact (toDuration_spec 9223372036 0 ltac:(lia))|exact (toDuration_spec 9223372037 0 ltac:(lia))].
Defined.

Definition api_new : result deviceOwnershipSDK * CEnv := newDeviceOwnershipSDKFromConfig api_app api_owner_cfg (0%nat, "").
Definition api_owner : deviceOwnershipSDK :=
  match api_new.1 with
  | Ok o => o
  | Err _ => {| sdk_sdkDeviceID := ""; sdk_createIdentitySigner := fail (ErrText ""); sdk_identityCertificate := zero_TlsCertificate;
                sdk_identityCACert := None; sdk_app := api_app |}
  end.
Lemma api_new_ok : api_new.1 = Ok api_owner.
Proof.
  assert (H : is_ok api_new.1 = true) by (vm_compute; reflexivity). unfold api_owner.
  destruct (api_new.1); [reflexivity|discriminate H].
Qed.
Definition api_init : result (option error * deviceOwnershipSDK) * CEnv := owner_Initialization "" api_owner api_new.2.
Definition api_owner' : deviceOwnershipSDK := match api_init.1 with Ok (_, o) => o | Err _ => api_owner end.
Lemma api_init_ok : api_init.1 = Ok (None, api_owner').
Proof.
  assert (H : match api_init.1 with Ok (None, _) => true | _ => false end = true) by (vm_compute; reflexivity).
  unfold api_owner'. destruct (api_init.1) as [[[e|] o]|e]; [discriminate H|reflexivity|discriminate H].
Qed.
Lemma Initialization_identity_witness :
  is_ok (sdk_owner_id api_parse api_owner) = false ∧ sdk_owner_id api_parse api_owner' = Ok "sdk" ∧
  is_ok (owner_GetIdentityCACerts api_owner') = true.
Proof.
  exact (Initialization_identity api_parse api_app api_owner_cfg "sdk" api_owner "" api_owner' (0%nat, "") api_new.2 api_new.2
    api_init.2 (run_pair api_new _ api_new_ok) eq_refl eq_refl eq_refl eq_refl (run_pair api_init _ api_init_ok)).
Defined.

Definition api_unowned : result string * SdkWorld :=
  Client_OwnDevice 0 false 2 api_parse (fun e => (Ok "", e)) newDeviceOwnershipNone "a" [] sdk_start.
Lemma OwnDevice_without_identity_witness :
  is_ok api_unowned.1 = false ∧ ∃ l, sd_trace api_unowned.2 = sd_trace sdk_start ++ l ∧ updates l = [].
Proof.
  split; [vm_compute; reflexivity|].
  pose proof (OwnDevice_without_identity 0 false 2 api_parse (fun e => (Ok "", e)) newDeviceOwnershipNone NotSupported "a" []
    sdk_start eq_refl) as H.
  unfold api_unowned. destruct (Client_OwnDevice _ _ _ _ _ _ _ _ sdk_start) as [r w']. exact (proj1 H).
Defined.

Definition api_client := NewClientFromConfig "default" "nil" api_cfg api_app None (0%nat, "").
Lemma NewClientFromConfig_spec_witness :
  ∃ client owner, api_client.1 = Ok (client, owner) ∧ nc_pollInterval client = 30 * time_Second ∧
    1 <= FailureThreshold (nc_observerConfig client) <= 255.
Proof.
  assert (Hok : is_ok api_client.1 = true) by (vm_compute; reflexivity).
  destruct (api_client.1) as [[client owner]|err] eqn:E; [|discriminate Hok].
  exists client, owner. split; [reflexivity|].
  pose proof (run_pair api_client _ E) as Hrun. unfold api_client at 1 in Hrun.
  destruct (NewClientFromConfig_spec "default" "nil" api_cfg api_app None (0%nat, "") client owner api_client.2
    ltac:(unfold config_ok; cbn; lia) Hrun) as (Hexp & _ & Hpoll & _ & Hth & _).
  split; [rewrite Hpoll, Hexp; reflexivity|exact Hth].
Defined.

Definition api_own_options : list OwnOption :=
  [otmOption [OTMType_JustWorks]; presharedKeyOption "k1"; otmOption [OTMType_Manufacturer; OTMType_JustWorks];
   presharedKeyOption "k2"].
Definition api_own_cfg : ownOptions :=
  resolve applyOnOwn
    {| ow_opts := []; ow_otmTypes := [OTMType_JustWorks]; ow_discoveryConfiguration := DefaultDiscoveryConfiguration |}
    api_own_options.
Definition api_own_args := sdk_OwnDevice api_owner (ow_otmTypes api_own_cfg) (ow_opts api_own_cfg) (0%nat, "").
Lemma own_arguments_witness :
  ∃ opts, api_own_args.1 = Ok ([ManufacturerCertificate; JustWorks], opts) ∧ psk (own_cfg opts) = "k2".
Proof.
  assert (Hok : is_ok api_own_args.1 = true) by (vm_compute; reflexivity).
  destruct (api_own_args.1) as [[clients opts]|err] eqn:E; [|discriminate Hok].
  pose proof (run_pair api_own_args _ E) as Hrun. unfold api_own_args at 1 in Hrun.
  destruct (own_arguments api_owner api_own_options (0%nat, "") clients opts api_own_args.2 Hrun)
    as (Hc & signer & _ & Ho).
  exists opts. split; [rewrite Hc; reflexivity|rewrite Ho; reflexivity].
Defined.
