(* ===== verification/DetailsExamples.v ===== *)
(** * DetailsExamples: searches with details at concrete inputs

    The device of ClientExamples, found by multicast; the application reads its address
    book entry. *)

From S2P Require Import ClientDetailsProps ClientOwnProps OwnershipProps ClientExamples.

#[local] Existing Instance ex_own_Uuids.
#[local] Existing Instance ex_own_Cred.
#[local] Existing Instance ex_own_Pem.
#[local] Existing Instance ex_own_Core.
#[local] Existing Instance sdk_Kit.
#[local] Existing Instance sdk_DevicesEnv.
#[local] Existing Instance sdk_Requests.

#[local] Instance det_Status : CoapStatus := fun err => None.
#[local] Instance det_Lib : DetailsLib := {|
  set_HasOneOf types filter := match filter with
                               | [] => true
                               | _ => existsb (fun t => bool_decide (t ∈ types)) filter
                               end;
  as_UnknownAuthority err := true |}.
#[local] Instance det_Cbor : Cbor DeviceRep := {|
  cbor_Encode d := Ok "d"; cbor_Decode s := Ok zero_DeviceRep |}.
#[local] Instance det_IntoD : CborInto DeviceRep := fun s v => (Ok tt, v).

Definition det_app : GetDetailsFunc (T := string) := fun d links opts => mret (Some "entry").
Definition det_start : DetWorld (T := string) :=
  {| dw_sdk := sdk_start; dw_res := []; dw_owns := ∅; dw_wasSet := ∅ |}.
Definition det_schedule : Schedule :=
  {| sc_order ips calls := (JobByIP <$> ips) ++ (JobCall <$> calls); sc_groups := map_to_list; sc_owns := map_to_list |}.
Definition det_net : Multicast :=
  {| mc_dial := None; mc_answers := [AnsHandle sdk_links]; mc_err := None |}.
Definition det_search : result (gmap string (DeviceDetails string)) * DetWorld :=
  GetDevicesDetails sdk_status 0 false true (Ok "owner") dev_Name
    [DevicesDetails det_app; DevicesResourceTypes ["oic.wk.d"]] det_schedule det_net det_start.
Definition det_map : gmap string (DeviceDetails string) :=
  match det_search.1 with Ok m => m | Err _ => ∅ end.
Lemma det_search_ok : is_ok det_search.1 = true.
Proof. vm_compute. reflexivity. Qed.
Lemma det_search_run : det_search = (Ok det_map, det_search.2).
Proof.
  pose proof det_search_ok as H. unfold det_map. destruct det_search as [[m|e] w]; [done|]. simpl in H. congruence.
Qed.
Example det_found :
  (fun d => (dd_ID d, dd_Details d, dd_IsSecured d, dd_OwnershipStatus d)) <$> det_map !! "a" =
  Some ("a", Some "entry", true, "ownedbyother").
Proof. vm_compute. reflexivity. Qed.

Lemma search_result_witness :
  is_ok det_search.1 = true ∧ length (dw_res det_search.2) = 1%nat ∧
  det_map !! "a" = with_ownership (Ok "owner") (dw_owns det_search.2) "a" <$> merged (with_id "a" (dw_res det_search.2)) ∧
  ∀ d, det_map !! "a" = Some d → dd_ID d = "a" ∧ status_ok (Ok "owner") d.
Proof.
  split; [exact det_search_ok|]. split; [vm_compute; reflexivity|].
  exact (search_result sdk_status 0 false true (Ok "owner") dev_Name _ det_schedule det_net det_start det_search.2 det_map
    eq_refl eq_refl (fun owns => Permutation_refl _) det_search_run "a").
Defined.

Lemma search_keeps_sdk_witness :
  is_Some (entries (w_cache (dv_cache (sd_dv (dw_sdk det_search.2)))) !! "a") ∧ SdkInv (dw_sdk det_search.2).
Proof.
  split; [vm_compute; by eexists|].
  refine (search_keeps_sdk sdk_status 0 false true (Ok "owner") dev_Name _ det_schedule det_net det_start _ sdk_start_ok).
  apply Forall_cons. split; [intros p links o; apply keeps_ret|]. by apply Forall_cons.
Defined.

(** The details of the device as it is in the cache after the search. *)
Definition det_one : result (DeviceDetails string) * DetWorld :=
  Client_getDeviceDetails (Ok "owner") 0 sdk_links (Some (of_app det_app)) [] det_search.2.
Definition det_details : DeviceDetails string := match det_one.1 with Ok d => d | Err _ => zero_details end.
Lemma det_one_run : det_one = (Ok det_details, det_one.2).
Proof.
  assert (H : is_ok det_one.1 = true) by (vm_compute; reflexivity).
  unfold det_details. destruct det_one as [[d|e] w]; [done|]. simpl in H. congruence.
Qed.
Lemma details_status_witness :
  dd_OwnershipStatus det_details = "ownedbyother" ∧
  ∃ d0 w1, getDeviceDetails 0 sdk_links (Some (of_app det_app)) [] det_search.2 = (Ok d0, w1) ∧
    dd_IsSecured d0 = dd_IsSecured det_details.
Proof.
  split; [vm_compute; reflexivity|].
  pose proof det_one_run as Hrun. unfold det_one at 1 in Hrun.
  destruct (details_status (Ok "owner") 0 sdk_links (Some (of_app det_app)) [] det_search.2 det_one.2 det_details Hrun)
    as (d0 & w1 & H & Hd).
  exists d0, w1. split; [exact H|]. rewrite Hd. clear. destruct (dd_IsSecured d0) eqn:E.
  - destruct ((on_core 0 (GetOwnership sdk_links) (dw_sdk w1)).1); symmetry; exact E.
  - symmetry. exact E.
Defined.

#[local] Instance det_CborS : Cbor string := {| cbor_Encode s := Ok s; cbor_Decode s := Ok s |}.
#[local] Instance det_IntoS : CborInto string := fun s _ => (Ok tt, s).
Definition det_cworld : CWorld := {| cw_d := core_at 0 sdk_start; cw_env := sd_env sdk_start; cw_trace := [] |}.
Lemma iterator_reads_all_witness :
  (length [sdk_link "light" "/light/1"; sdk_link "light" "/light/2"] < 3)%nat ∧
  (drain sdk_status 3 (TPlain "") (GetResources [sdk_link "light" "/light/1"; sdk_link "light" "/light/2"]) det_cworld).1
  = Ok ([TPlain "/light/1"; TPlain "/light/2"], None).
Proof.
  split; [simpl; lia|].
  rewrite (iterator_reads_all sdk_status [sdk_link "light" "/light/1"; sdk_link "light" "/light/2"] (TPlain "") 3 det_cworld
    ltac:(simpl; lia)).
  vm_compute. reflexivity.
Defined.
