(* ===== verification/ToolExamples.v ===== *)
(** * ToolExamples: runs of the command line client at concrete inputs

    The certificates of CertGenProps with keys that can be read back; an empty directory, and
    one in which the authorities are there already. *)

From S2P Require Import ClientMenu ClientMenuProps ClientToolProps ClientApiProps OwnershipProps ClientExamples.
Import CertGenProps.Examples.

#[local] Existing Instance ex_own_Core.
#[local] Existing Instance ex_gen_Cred.
#[local] Existing Instance ex_gen_Cred_laws.
#[local] Existing Instance ex_gen_Pem.
#[local] Existing Instance ex_gen_Uuids.

(** An empty directory, and a command line without options. *)
Definition empty_fs : FileSystem :=
  {| fs_nodes := ∅; fs_unreadable := ∅; fs_unwritable := ∅; fs_full := ∅; fs_bad_close := ∅; fs_stat_err := None |}.
Definition no_options : Options :=
  {| opt_CertIdentity := ""; opt_DiscoveryTimeout := 0; opt_MfgCert := ""; opt_MfgKey := ""; opt_MfgTrustCA := "";
     opt_MfgTrustCAKey := ""; opt_IdentityCert := ""; opt_IdentityKey := ""; opt_IdentityIntermediateCA := "";
     opt_IdentityIntermediateCAKey := ""; opt_IdentityTrustCA := ""; opt_IdentityTrustCAKey := "" |}.

(** ** A clock that advances *)

Module Clock.
#[local] Instance clock_Lib : CertLib := {|
  GenEnv := Z; PrivateKey := Z; PublicKey := Z; public_key k := k;
  ecdsa_GenerateKey c g := (Ok g, g + 1);
  rand_Int limit g := (Ok g, g + 1);
  time_Now g := (Ok (1500000000 + g), g + 1);
  time_Parse s := Err (ErrText "no time");
  net_ParseIP s := None;
  url_ParseRequestURI s := Ok tt;
  asn1_Marshal_bool b := Ok ""; asn1_Marshal_bits b := Ok ""; asn1_Marshal_oids o := Ok "";
  CertificateRequest := ExReq;
  req_Subject r := name_of r.1; req_PublicKeyAlgorithm r := 3; req_PublicKey r := r.2;
  req_DNSNames r := []; req_IPAddresses r := []; req_URIs r := []; req_EmailAddresses r := [];
  req_Extensions r := [];
  x509_CreateCertificateRequest t k g := (Ok (to_text (pn_CommonName (ct_Subject t), k)), g);
  x509_ParseCertificateRequest der :=
    match of_text der with Some r => Ok r | None => Err (ErrText "malformed request") end;
  CheckSignature r := Ok tt;
  ca_NotBefore c := let '(_, _, _, b, _, _) := c : ExCert in CertGenProps.truncate_second b;
  ca_NotAfter c := let '(_, _, _, _, e, _) := c : ExCert in CertGenProps.truncate_second e;
  ca_SignatureAlgorithm c := x509_ECDSAWithSHA256 |}.
#[local] Instance clock_Create : CertCreate := {|
  x509_CreateCertificate t parent pub key g :=
    (Ok (to_text (t_ExtKeyUsage t, t_UnknownExtKeyUsage t, pn_CommonName (t_Subject t),
                  t_NotBefore t, t_NotAfter t, pub)), g) |}.
#[local] Instance clock_Owner : OwnerLib := {|
  tls_X509KeyPair cert key := Err (ErrText "no TLS");
  x509_MarshalECPrivateKey k := Ok (to_text (k : Z));
  time_ParseDuration s := Err (ErrText "no duration");
  tparse_ParseNow s g := (Ok 1000000000, g);
  jwt_ParseUnverified s := Ok ∅;
  gen_get (e : CEnv) := Z.of_nat e.1;
  gen_set g (e : CEnv) := (Z.to_nat g, e.2) |}.
#[local] Instance clock_Key : KeyLib := {|
  x509_ParsePKCS8PrivateKey der := Err (ErrText "use ParseECPrivateKey instead for this key format");
  x509_ParseECPrivateKey der :=
    match of_text der with Some k => Ok (k : PrivateKey) | None => Err (ErrText "malformed key") end |}.
#[local] Instance clock_advances : ClockAdvances.
Proof. intros g t g' t' g''. cbn. intros [= <- <-] [= <- <-]. lia. Qed.
Definition clock_world : World :=
  {| w_env := (0%nat, "") : CEnv; w_fs := empty_fs; w_vars := initial_vars; w_out := [] |}.
(** The authorities are made, the identity certificate is not. *)
Lemma end_cert_never_generated_witness :
  is_Some (node "subca_cert.crt" (ReadCommandOptions no_options clock_world).2) ∧
  node "end_cert.crt" (ReadCommandOptions no_options clock_world).2 = None.
Proof.
  split; [apply (bool_decide_unpack _); vm_compute; exact I|].
  refine (end_cert_never_generated no_options clock_world "end_cert.crt" _). by apply (bool_decide_unpack _).
Defined.
End Clock.

#[local] Existing Instance ex_gen_PemLaws.
#[local] Existing Instance ex_gen_Lib.
#[local] Existing Instance ex_gen_Create.
#[local] Existing Instance ex_gen_CertLaws.

(** ** Libraries *)

Fixpoint tool_unblocks (n : nat) (s : string) : list string :=
  match n with
  | O => []
  | S n => match unblock s with Some (d, rest) => d :: tool_unblocks n rest | None => [] end
  end.
Lemma tool_unblocks_blocks n ders : (String.length (blocks ders) <= n)%nat → tool_unblocks n (blocks ders) = ders.
Proof.
  revert n. induction ders as [|d ders IH]; intros n Hn; [by destruct n|].
  change (blocks (d :: ders)) with (block d +:+ blocks ders) in *.
  pose proof (unblock_block d (blocks ders)) as Hd. pose proof (unblock_rest _ _ _ _ (le_n _) Hd) as Hlt.
  destruct n as [|n]; [lia|]. cbn [tool_unblocks]. rewrite Hd, IH by lia. done.
Qed.
(** A key pair needs two PEM blocks; a key is the text of its number. *)
#[local] Instance tool_Owner : OwnerLib := {|
  tls_X509KeyPair cert key :=
    match unblock cert, unblock key with
    | Some _, Some (der, _) =>
        match of_text der with
        | Some k => Ok {| tls_Certificate := tool_unblocks (String.length cert) cert; tls_PrivateKey := Some (k : PrivateKey) |}
        | None => Err (ErrText "tls: failed to parse private key")
        end
    | _, _ => Err (ErrText "tls: failed to find any PEM data")
    end;
  x509_MarshalECPrivateKey k := Ok (to_text (k : Z));
  time_ParseDuration s := Err (ErrText "no duration");
  tparse_ParseNow s g := (Ok 1000000000, g);
  jwt_ParseUnverified s := Ok ∅;
  gen_get (e : CEnv) := Z.of_nat e.1;
  gen_set g (e : CEnv) := (Z.to_nat g, e.2) |}.
Definition tool_parse (der : string) : result Certificate :=
  match of_text (A := ExCert) der with
  | Some c => Ok (cert_fields (c : Cert))
  | None => Err (ErrText "malformed certificate")
  end.
#[local] Instance tool_TlsLaws : TlsLaws tool_parse.
Proof.
  split.
  - intros cas der key t. cbn. destruct (unblock (CreatePemChain cas der)) as [p|]; [|done].
    destruct (unblock key) as [[d r]|]; [|done]. destruct (of_text d) as [k|]; [|done].
    intros [= <-]. split; [done|]. cbn [tls_Certificate]. rewrite CreatePemChain_blocks. by apply tool_unblocks_blocks.
  - intros der c. unfold tool_parse. cbn. by destruct (of_text der) as [c'|]; intros [= ->].
Qed.
#[local] Instance tool_Key : KeyLib := {|
  x509_ParsePKCS8PrivateKey der := Err (ErrText "use ParseECPrivateKey instead for this key format");
  x509_ParseECPrivateKey der :=
    match of_text der with Some k => Ok (k : PrivateKey) | None => Err (ErrText "malformed key") end |}.
#[local] Instance tool_KeyLaws : KeyLaws.
Proof.
  split; [|done|].
  - intros der. cbn. pose proof (unblock_block der "") as H. rewrite str_app_nil_r in H. by rewrite H.
  - intros k der. cbn. intros [= <-]. by rewrite of_to_text.
Qed.

(** ** The first run, in an empty directory without options *)

Definition first_world : World :=
  {| w_env := (0%nat, "") : CEnv; w_fs := empty_fs; w_vars := initial_vars; w_out := [] |}.
Definition first_run : result unit * World := ReadCommandOptions no_options first_world.

(** Every pair of files is there, and the variables of the chain are set, but that of the
    trusted certificate. *)
Example first_run_files :
  bool_decide (Forall (fun p => is_Some (node p first_run.2)) tool_files) = true ∧
  (w_vars first_run.2 IdentityIntermediateCA =? "")%string = false ∧
  (w_vars first_run.2 IdentityTrustedCA =? "")%string = true.
Proof. by vm_compute. Qed.

Lemma trust_never_loaded_witness : w_vars first_run.2 IdentityTrustedCA = "".
Proof. exact (trust_never_loaded no_options first_world eq_refl). Defined.

(** The authority of the user, with a key: it is there before the run. *)
Definition own_authority : FileSystem :=
  set_node "rootca_cert.crt" (FileData "mine") (set_node "rootca_cert.key" (FileData "my key") (set_node "notes" (FileData "x") empty_fs)).
Definition authority_world : World :=
  {| w_env := (0%nat, "") : CEnv; w_fs := own_authority; w_vars := initial_vars; w_out := [] |}.
Lemma ReadCommandOptions_keeps_files_witness :
  let w := (ReadCommandOptions no_options authority_world).2 in
  node "notes" w = Some (FileData "x") ∧ node "rootca_cert.crt" w = Some (FileData "mine").
Proof.
  destruct (ReadCommandOptions_keeps_files no_options authority_world) as [H1 H2]. split.
  - apply (H1 "notes"). by apply (bool_decide_unpack _).
  - apply (H2 "rootca_cert.crt" "rootca_cert.key" "mine" "my key"); [|done|done]. by apply (bool_decide_unpack _).
Defined.

Definition root_run : result unit * World := generateRootCA (ca_config "ROOT") "root.crt" "root.key" first_world.
Definition sub_run : result unit * World :=
  generateIntermediateCertificate (ca_config "SUB") "root.crt" "root.key" "sub.crt" "sub.key" root_run.2.
Lemma generated_pairs_match_witness :
  ∃ c k signers, ReadPemCertificates "root.crt" (w_fs root_run.2) = Ok signers ∧
    pair_reads "sub.crt" "sub.key" (w_fs sub_run.2) (c :: signers) k ∧ certifies c "SUB" k.
Proof.
  refine (proj1 (proj2 (generated_pairs_match (ca_config "SUB") "sub.crt" "sub.key" root_run.2 sub_run.2 _)) "root.crt" "root.key" _).
  - repeat split; by apply (bool_decide_unpack _).
  - assert (H : bool_decide (sub_run.1 = Ok tt) = true) by (vm_compute; reflexivity).
    apply bool_decide_eq_true in H. exact (run_pair sub_run (Ok tt) H).
Defined.

Definition first_vars : Var → string := w_vars first_run.2.
Lemma first_vars_set :
  first_vars IdentityIntermediateCA ≠ "" ∧ first_vars IdentityIntermediateCAKey ≠ "" ∧
  first_vars CertIdentity = "00000000-0000-0000-0000-000000000001".
Proof. apply (bool_decide_unpack _). vm_compute. exact I. Qed.
Lemma first_client_ok : is_ok (NewSecureClient "default" "nil" first_vars (w_env first_run.2)).1 = true.
Proof. vm_compute. reflexivity. Qed.
Lemma NewSecureClient_identity_witness :
  ∃ client owner e', NewSecureClient "default" "nil" first_vars (w_env first_run.2) = (Ok (client, owner), e') ∧
    sdk_owner_id tool_parse owner = Ok "00000000-0000-0000-0000-000000000001" ∧
    is_ok (owner_GetIdentityCACerts owner) = true.
Proof.
  pose proof first_client_ok as Hok. destruct first_vars_set as (H1 & H2 & H3).
  destruct (NewSecureClient "default" "nil" first_vars (w_env first_run.2)) as [[[client owner]|err] e'] eqn:E;
    [|discriminate Hok].
  exists client, owner, e'. split; [reflexivity|].
  refine (NewSecureClient_identity tool_parse "default" "nil" first_vars "00000000-0000-0000-0000-000000000001"
    _ client owner e' H1 H2 _ eq_refl eq_refl E).
  rewrite H3. reflexivity.
Defined.
Lemma NewSecureClient_needs_authority_witness :
  is_ok (NewSecureClient "default" "nil" initial_vars (w_env first_world)).1 = false.
Proof.
  apply (NewSecureClient_needs_authority "default" "nil" initial_vars (w_env first_world)); [intros key; reflexivity|by left].
Defined.

(** ** A session of the menu *)

(** A client that records its calls; the device ["off"] is not reachable. *)
Definition demo_call {A} (a : A) (what deviceID : string) : ME (list string) A := fun e =>
  (if bool_decide (deviceID = "off") then Err (ErrText "not found") else Ok a, e ++ [what]).
#[local] Instance demo_OCF : OCF (list string) string := {|
  ocf_Discover t := demo_call "[]" "discover" "";
  ocf_OwnDevice id := demo_call id "own" id;
  ocf_GetResources id := demo_call "[]" "resources" id;
  ocf_GetResource id href := demo_call "{}" ("get " +:+ href) id;
  ocf_UpdateResource id href d := demo_call tt ("update " +:+ href +:+ " " +:+ d) id;
  ocf_DisownDevice id := demo_call tt "disown" id;
  ocf_Close := demo_call tt "close" "";
  ocf_json_Decode s := Ok s;
  ocf_json_Encode s := Ok s |}.
Definition demo_input : list string :=
  ["what"; "5"; "lamp"; "/light/1"; "power"; "42"; "5"; "off"; "99"; "6"].
Definition demo_session : option (unit + Stop) * MenuWorld :=
  scanner true 0 (S (length demo_input)) {| m_env := []; m_in := demo_input; m_out := [] |}.
(** The entry that is not a number shows the menu; that for the device that is off ends with
    its first call; the lines after the exit are not read. *)
Example demo_session_calls :
  demo_session.1 = Some (inr Exit0) ∧ m_in demo_session.2 = ["6"] ∧
  m_env demo_session.2 =
    ["resources"; "get /light/1"; "update /light/1 {" +:+ quote +:+ "power" +:+ quote +:+ ": 42}"; "resources"; "close"].
Proof. repeat split; by vm_compute. Qed.
Lemma scanner_spec_witness :
  ∃ r w' ls, demo_session = (Some r, w') ∧ session_end true r (m_in w') ∧ runs calls [] ls (m_env w') ∧ read_first ls.
Proof.
  exact (scanner_spec true 0 (S (length demo_input)) {| m_env := []; m_in := demo_input; m_out := [] |} (le_n _)).
Defined.
