(* ===== verification/BridgeToolExamples.v ===== *)
(** * BridgeToolExamples: runs of the example bridge

    Three devices with two test resources each; clients that read, write and observe; and the
    observers that lose their notifications because two resources count alike. *)

From S2P Require Import OwnershipProps ClientExamples ClientTool ToolExamples ClientCoap BridgeNet BridgeDevice Service BridgeTool BridgeToolProps.
Import CertGenProps.Examples.

#[local] Existing Instance ex_own_Core.
#[local] Existing Instance ex_gen_Cred.
#[local] Existing Instance ex_gen_Lib.
#[local] Existing Instance tool_Owner.
#[local] Existing Instance ex_gen_Uuids.

(** Connections on which every write succeeds but those to "dead"; the built-in resources
    answer nothing. *)
#[local] Instance conn : ToolConn := {|
  TConn := unit;
  tconn_write addr m c := (if bool_decide (addr = "dead") then Err (ErrText "closed") else Ok tt, c);
  tconn_etag c := (1, c);
  builtin_get req c := (Ok None, c);
  builtin_post req c := (Ok None, c);
  builtin_subscribe req c := (Err (ErrText "not observable"), c) |}.
#[local] Instance data_Cbor : Cbor resourceData :=
  {| cbor_Encode d := Ok (rd_Name d); cbor_Decode s := Ok {| rd_Name := s |} |}.
#[local] Instance order : ResourceOrder := map_to_list.

(** ** The start *)

Definition bridge_cfg : ToolConfig :=
  {| tc_Service := {| coap_ID := "bridge";
                      coap_Config := {| ExternalAddresses := []; BridgeNet.MaxMessageSize := 1024;
                                        DeduplicationLifetime := 0; cfg_externalAddressesPort := [] |} |};
     tc_LogLevel := 0;
     tc_Cloud := {| cc_Enabled := false; cc_CloudID := "";
                    cc_TLS := {| CAPoolPath := ""; KeyPath := ""; CertPath := ""; UseSystemCAPool := false |} |};
     tc_CredentialEnabled := false; tc_ThingDescription := {| tdc_Enabled := false; tdc_File := "" |};
     NumGeneratedBridgedDevices := 3; NumResourcesPerDevice := 2 |}.
Definition uuids (i : nat) : UUID := nth i ["d0"; "d1"; "d2"] "".
Definition no_opts : list (device_Option (OnDeviceUpdated := unit) (GetProperties := gmap string string)
  (GetCertificates := string → list TlsCertificate) (RemoveCloudCAs := unit) (Logger := unit) (Loop := unit)
  (GetThingDescription := unit)) := [].
Definition bridge_start (c : ToolConfig) (s : Service (HSDev := bridged_ServiceDevice)) :=
  create_devices tt ∅ (fun _ => tt) tt (Err (ErrText "no pool")) (fun _ _ => tt) (fun _ => 1) (fun _ => 1) 2 c
    no_opts uuids s.
Definition bridge_empty : Service (HSDev := bridged_ServiceDevice) :=
  Service.New (HSDev := bridged_ServiceDevice) "bridge"
    ({| te_data := test_data 2; te_subID := ∅; te_watcher := ∅; te_conn := tt |}, []).

Lemma bridge_devices_witness :
  ∃ s', bridge_start bridge_cfg bridge_empty = (Ok tt, s') ∧
    (∃ d, sv_devices (HSDev := bridged_ServiceDevice) s' !! "d2" = Some d ∧ bridged bridge_cfg 2 d) ∧
    (∀ id d, sv_devices (HSDev := bridged_ServiceDevice) s' !! id = Some d → ∃ i, (i < 3)%nat ∧ id = uuids i).
Proof.
  destruct (bridge_devices tt ∅ (fun _ => tt) tt (Err (ErrText "no pool")) (fun _ _ => tt) (fun _ => 1) (fun _ => 1) 2
              bridge_cfg no_opts uuids bridge_empty) as (s'&E&Hin&Hall).
  - apply (bool_decide_unpack _). by vm_compute.
  - done.
  - done.
  - exists s'. split; [exact E|]. split; [|exact Hall].
    exact (Hin 2%nat ltac:(vm_compute; lia)).
Defined.

(** ** The test resources *)

Definition dev0 : Device :=
  addResources (fun _ => 1)
    {| d_cfg := bridged_config bridge_cfg 0 "d0" "bridge"; d_resources := ∅; d_cloudManager := None;
       d_credentialManager := None; d_thingDescription := None; d_runLoop := true; d_doneClosed := false;
       d_stopped := false |} 2.
Definition world0 : DWorld :=
  @Build_DWorld test_ResourceEnv dev0
    {| te_data := test_data 2; te_subID := ∅; te_watcher := ∅; te_conn := tt |} [].
Definition req (conn href : string) (code : Z) (observe : option Z) (body : option string) : Request :=
  let m := set_token (Some conn) (set_path href (set_code code NewMessage)) in
  let m := match observe with Some o => set_observe o m | None => m end in
  {| req_msg := match body with Some b => set_body b (set_format AppOcfCbor m) | None => m end;
     req_Conn := conn; req_Endpoints := [] |}.
Lemma world0_test i : (i < 2)%nat →
  is_test world0 (GetTestResourceHref i) {| rd_Name := "test-" +:+ format_int (Z.of_nat i) |}.
Proof.
  intros Hi. destruct i as [|[|i]]; [| |lia];
    (split; [by vm_compute|first [by exists (test_resource "d0" 1 0); vm_compute | by exists (test_resource "d0" 1 1); vm_compute]]).
Defined.

Lemma test_resource_register_witness :
  ∃ m w', tool_HandleRequest (req "a" "/test/0" POST None (Some "on")) world0 = (Ok (Some m), w') ∧
    m_code m = codes_Changed ∧ m_body m = Some "on" ∧
    (∃ m1, tool_HandleRequest (req "a" "/test/0" GET None None) w' = (Ok (Some m1), w') ∧
       m_code m1 = codes_Content ∧ m_body m1 = Some "on") ∧
    (∃ m2, tool_HandleRequest (req "b" "/test/1" GET None None) w' = (Ok (Some m2), w') ∧
       m_code m2 = codes_Content ∧ m_body m2 = Some "test-1").
Proof.
  exact (test_resource_register world0 "/test/0" {| rd_Name := "test-0" |} {| rd_Name := "on" |} "on"
           (req "a" "/test/0" POST None (Some "on")) (req "a" "/test/0" GET None None)
           "/test/1" {| rd_Name := "test-1" |} "test-1" (req "b" "/test/1" GET None None)
           (world0_test 0 ltac:(lia)) ltac:(by vm_compute) eq_refl eq_refl ltac:(by vm_compute)
           (world0_test 1 ltac:(lia)) ltac:(done) eq_refl ltac:(by vm_compute)).
Defined.

(** ** Observers *)

Definition run (reqs : list Request) (w : DWorld) : DWorld :=
  foldl (fun w r => (tool_HandleRequest r w).2) w reqs.
Definition observed : DWorld :=
  run [req "a" "/test/0" GET (Some 0) None; req "dead" "/test/0" GET (Some 0) None;
       req "b" "/test/0" POST None (Some "on")] world0.
Definition written (w : DWorld) : list (string * option string) :=
  omap (fun ev => match ev with EvWrite a m => Some (a, m_body m) | _ => None end) (dw_trace w).

Definition observed_res : Resource := default (test_resource "d0" 1 0) (d_resources (dw_d observed) !! "/test/0").
Definition observed_closure : Closure :=
  default {| cl_conn := ""; cl_token := None; cl_sequence := 0; cl_dedup := 0 |} (r_closures observed_res !! 1%nat).
Definition observed_message : Message := set_body "on" (set_format AppOcfCbor (set_code codes_Content NewMessage)).

(** Two clients observe the first resource, and the second of them has gone.  The other one is
    sent the new name after a write that fails. *)
Lemma tick_notifies_witness :
  written (tick map_to_list observed) = [("dead", Some "on"); ("a", Some "on")] ∧
  ∃ msg l1 l2, dw_trace (tick map_to_list observed) =
      dw_trace observed ++ l1 ++ EvWrite (cl_conn observed_closure) msg :: l2 ∧
    m_body msg = Some "on" ∧ m_token msg = cl_token observed_closure.
Proof.
  split; [by vm_compute|].
  refine (tick_notifies map_to_list observed 1 "/test/0" (req "a" "/test/0" GET (Some 0) None) observed_res
            observed_closure {| rd_Name := "on" |} observed_message
            (fun m => reflexivity (map_to_list m)) _ _ _ _ _ _ _); try (vm_compute; reflexivity || done).
  split.
  - intros h r k Hr Hk. assert (Hall : map_Forall (fun h r => map_Forall (fun k i => i = 1%nat → h = "/test/0" ∧ k = cl_conn observed_closure)
      (r_subs r)) (d_resources (dw_d observed))) by (apply (bool_decide_unpack _); by vm_compute).
    exact (Hall h r Hr k 1%nat Hk eq_refl).
  - intros sub' req' r c' _ Hr Hc Hconn.
    assert (Hall : map_Forall (fun h r => map_Forall (fun sub c =>
      cl_conn c = cl_conn observed_closure → sub = 1%nat) (r_closures r)) (d_resources (dw_d observed)))
      by (apply (bool_decide_unpack _); by vm_compute).
    exact (Hall "/test/0" r Hr sub' c' Hc Hconn).
Defined.

(** Two clients observe one resource each.  Both subscriptions have the number 1 in the shared
    map, so the first observer is sent nothing, and when the second one leaves, nobody is in
    the map any more. *)
Theorem watchers_collide :
  let w := run [req "a" "/test/0" GET (Some 0) None; req "b" "/test/1" GET (Some 0) None;
                req "c" "/test/0" POST None (Some "on"); req "c" "/test/1" POST None (Some "off")] world0 in
  written (tick map_to_list w) = [("b", Some "off")] ∧
  te_watcher (dw_env (run [req "b" "/test/1" GET (Some 1) None] w)) = ∅.
Proof. by vm_compute. Qed.

(** ** The whole bridge *)

#[local] Instance links_Cbor : Cbor ResourceLinks :=
  {| cbor_Encode l := Ok ""; cbor_Decode s := Err (ErrText "EOF") |}.

